(* ===== verification/_CoqProject ===== *)
-Q . S2P
Prelude.v
Policyfile.v
Ebitmap.v
EbitmapSpec.v
EbitmapQuery.v
EbitmapUpdate.v
EbitmapProps.v
Hashtab.v
HashtabSpec.v
Symtab.v
HashtabProps.v
Codec.v
Avtab.v
AvtabSpec.v
AvtabRules.v
Policydb.v
AvtabIO.v
AvtabProps.v
Sepolicy.v
SepolicySpec.v
SepolicyProps.v
SepolicyXperm.v
SepolicyXpermSpec.v
SepolicyXpermRules.v
SepolicyFilename.v
SepolicyFilenameSpec.v
SepolicyFilenameProps.v
SepolicyFilenameIO.v
SepolicyFilenameCompat.v
SepolicyFilenameIOProps.v
SepolicyAttr.v
SepolicyAttrProps.v
Symbols.v
CodecTable.v
SymbolsCodec.v
SymbolsKinds.v
SymbolsTrip.v
SymbolsProps.v
PolicyIndex.v
PolicyIndexSpec.v
PolicyOthersSpec.v
SepolicyType.v
SepolicyTypeInv.v
SepolicyTypeProps.v
Context.v
ContextText.v
ContextSpec.v
ContextSafe.v
SepolicyGenfs.v
ContextProps.v
PolicySections.v
PolicyGenfsSpec.v
PolicySectionsProps.v
Conditional.v
RangeTrans.v
KernelPolicy.v
KernelPolicySpec.v
KernelPolicySymbols.v
KernelPolicyTrip.v
KernelPolicyProps.v
Statement.v
StatementSpec.v
SepolicyApi.v
StatementProps.v
XzCrc32.v
XzDefs.v
XzRange.v
XzDict.v
XzLzma.v
XzLzmaInv.v
XzLzma2.v
XzLzma2Spec.v
XzLzma2Run.v
XzLzma2Loop.v
XzStream.v
XzStreamSpec.v
XzStreamRun.v
XzSession.v
XzProps.v
