(* ===== verification/Prelude.v ===== *)
(** * Verification of the native code of Magisk

    Magisk patches Android's boot: its native programs unpack and edit boot images, set
    up the root directory, and change the SELinux policy of the device.  This library
    models the parts of that code that decide what ends up in the policy and that read
    untrusted bytes, and proves that they do what they are meant to do.

    ** The program

    The parts that are modelled form two groups.

    - The policy editor.  magiskpolicy and the rule files of modules are texts of policy
      statements (native/src/sepolicy/statement.rs).  A statement calls an operation of
      [SePolicy] (lib.rs, api.cpp), which expands lists of names and calls the editor
      (sepolicy.cpp).  The editor changes a [policydb_t] of libsepol in place: it looks
      names up in symbol tables, which are hash tables, searches, inserts, changes and
      frees the nodes of the rule table (avtab), and sets bits of bitmaps (ebitmap).  The
      policy is read from a binary file by libsepol's [policydb_read] and written back by
      [policydb_write] (sepolicy/policydb.cpp).
    - The unpacker.  init carries a compressed library; [unxz] (init/rootdir.cpp) unpacks
      it by calls of xz-embedded's stream decoder, which feeds LZMA2 chunks to the LZMA
      decoder, which works on a range decoder and a circular dictionary.

    ** Files

    A file with the plain name of a component holds its definitions (and, where they are
    few, its lemmas); files with longer names hold the invariants and lemmas, and the
    properties of a component with their concrete instances are in its [Props] file.

    Foundations.

    - Prelude: machine integers ([u8] ... [u64], [usz] for [size_t] of 64-bit targets),
      little-endian bytes, the allocator, shared tactics, hints and lemmas.
    - Policyfile: [policy_file], [next_entry], [put_entry] (libsepol services.c).
    - Codec, CodecTable: what it means for a writer to emit given bytes and for a reader to
      decode them ([emits], [decodes]), with the rules that compose the round trips of all
      records and tables of the policy format.

    Data structures of libsepol.

    - Ebitmap, EbitmapSpec, EbitmapQuery, EbitmapUpdate, EbitmapProps: ebitmap.c and
      ebitmap.h, with the reader and writer.
    - Hashtab, HashtabSpec, HashtabProps: hashtab.c over a class [HashOps] of hash and
      comparison functions with the laws the table needs; Symtab: symtab.c, which
      discharges the laws for C strings.
    - Avtab, AvtabSpec, AvtabRules: avtab.c; AvtabIO, AvtabProps: its reader and the part
      of write.c for rules.
    - Policydb: the fields of [policydb_t] that the editor uses, and the hash functions of
      the table of transitions for file names.

    The policy file.

    - Symbols: the readers and writers of the eight symbol tables (policydb.c, write.c,
      constraint.h); SymbolsCodec, SymbolsKinds, SymbolsTrip, SymbolsProps: their round
      trips, and what holds of tables read from any bytes.
    - PolicyIndex: [policydb_index_classes], [policydb_index_others] and the callbacks, the
      expansion of type sets, role sets and levels, [symtab_insert]; PolicyIndexSpec,
      PolicyOthersSpec: when they succeed and what they compute.
    - Context: contexts from text and the test of validity (context.c, context_record.c,
      mls.c); ContextText, ContextSpec, ContextSafe, ContextProps: parsing and printing.
    - SepolicyFilenameIO, SepolicyFilenameCompat, SepolicyFilenameIOProps: both formats of
      the transitions for file names in policies.
    - PolicySections: role transitions, role allows, object contexts and genfs contexts in
      policies; PolicyGenfsSpec, PolicySectionsProps: their round trips.
    - Conditional: conditional rules (conditional.c, write.c); RangeTrans: the table of
      range transitions.  Each with its lemmas.
    - KernelPolicy: [policydb_init], [policydb_read], [policydb_write] as the composition of
      the parts above, and loading and saving of sepolicy/policydb.cpp; KernelPolicySpec:
      the invariants of a fresh policy and of the parts; KernelPolicySymbols: arrays and
      names of a policy that was read again; KernelPolicyTrip, KernelPolicyProps: the
      bytes of a policy, and policies saved and loaded again.

    The editor, one group per operation of sepolicy.cpp.

    - Sepolicy, SepolicySpec, SepolicyProps: the functions on nodes, [add_rule],
      [add_type_rule], [set_type_state] and [strip_dontaudit].
    - SepolicyXperm, SepolicyXpermSpec, SepolicyXpermRules: [add_xperm_rule].
    - SepolicyFilename, SepolicyFilenameSpec, SepolicyFilenameProps: [add_filename_trans]
      and [filename_trans_check_datum] of policydb.c.
    - SepolicyAttr, SepolicyAttrProps: [add_typeattribute] and the attribute maps of
      [policydb_read] and [policydb_write].
    - SepolicyType, SepolicyTypeInv, SepolicyTypeProps: [add_type].
    - SepolicyGenfs (with ContextProps): [add_genfscon].
    - Statement, StatementSpec, StatementProps: the statement language over the class
      [SePolicy] of policy operations; SepolicyApi: api.cpp as an instance of the class.

    The unpacker.

    - XzCrc32, XzDefs, XzRange, XzDict, XzLzma, XzLzma2, XzStream: one file per part of
      xz-embedded in that order, with XzLzmaInv, XzLzma2Spec, XzLzma2Run, XzLzma2Loop,
      XzStreamSpec, XzStreamRun, XzSession (lemmas) and XzProps.

    ** How code is modelled

    An integer of [w] bits is a [Z] with its wrap-around written out.  A structure is a
    record.  A C array is a list; in the xz decoder every access checks the index, and a
    computation that leaves an array, or dereferences NULL, is [None].  Operations on the
    policy are functions from the old to the new state; allocations consume an [oracle],
    the sequence of the outcomes of [malloc], so that every failure is a branch.  Nodes of
    the rule table carry their address: the editor keeps pointers while it inserts and
    frees nodes, and writes through them; conditional rules keep the addresses of the
    rules they own.  Callbacks and interfaces (hash functions, the policy operations
    behind the statement language) are type classes.  What [policydb_read] does with the
    tables of a policy that was freed is undefined, and is an argument of the functions that
    load a policy.

    Loops that are not structural have fuel, and a loop out of fuel is [None] like a
    crash, so that the theorems that give a result also show that the fuel is enough:
    [not_fuel] and [range_fuel] count the 64-bit words of the range, [shift_loop] and
    [resize_loop] have one round per bit of a 32-bit number, the loops over the nodes of a
    rule one round per node of the table, [extract_token] one call per character, and
    [parse_xperm_list] one round per token.  In the xz decoder [lzma2_fuel] and
    [main_fuel] bound the steps by the bytes left in the caller's buffers (each step of
    the machines uses up some, or is followed by one that does), and [unxz_fuel] bounds the
    calls by (2^21 + 1) for each byte of the file plus one, because a byte of LZMA2 input
    announces at most 2 MiB of output and each call makes progress; XzLzma2Run,
    XzStreamRun and XzSession prove these bounds.  A reader of the policy makes as many
    rounds as the count it has read, and one that meets the end of the bytes fails.

    ** What the theorems show

    - Whole policies: a well-formed kernel policy that is saved and loaded again is the
      same policy in every part (symbols with their arrays, rules, conditional rules, role
      transitions, transitions for file names, object and genfs contexts, range
      transitions, attribute maps, policy capabilities, permissive types); a rule that
      [add_rule] adds is in force in the policy that is loaded again.
    - Bitmaps: every operation computes the set it means, on every branch and with every
      failure of [malloc]; the representation is canonical; reading never yields a
      malformed bitmap and reads back what was written.
    - Hash and symbol tables: any sequence of operations behaves as a finite map, resizing
      included.
    - Rule tables: searches are exhaustive, insertion keeps the order and the uniqueness of
      rules, reading arbitrary bytes yields a table with the invariant or fails cleanly,
      and tables are read back as written.
    - Symbols: the tables of kernel policies from version 24 on are read back as written,
      but for the role object_r, whose record the reader skips; the tables of any policy or
      module that the reader accepts are well formed, whatever the bytes; the reader of
      constraints accepts exactly the expressions in reverse Polish notation that its depth
      allows.
    - Contexts: printing and reading a context are inverse, for sets of categories without
      a gap that the printer does not see; reading any text but "<<none>>" is safe.
    - The editor: [add_rule], [add_type_rule], [set_type_state] and [strip_dontaudit] change
      exactly what they are asked to, leave other nodes alone, and keep the invariants,
      although they free nodes of the chains they walk; so does [add_xperm_rule] for ranges
      within one driver, and it affects whole drivers otherwise.  [add_filename_trans] sets
      the object type it is asked to.  [add_type] and [add_genfscon] keep the invariants, and
      what they add is in the policy that is read again.
    - Attributes: whatever bytes a policy holds, the attribute maps that are read are
      inverse to each other; [add_typeattribute] keeps them so; and both are restored from
      the one that is written.
    - The statement language: the parsers accept exactly the statements of a grammar;
      loading ends on every text and executes the commands of its lines in order; each
      command has a text that executes it; extended permission and genfscon statements are
      followed from their text to the policy.
    - The xz decoder: no sequence of calls on any buffers in which the decoder is reset after
      an error leaves its arrays, loops, or breaks the contract of xz.h; the dictionary is
      the history of the output; each symbol appends one literal or one copy; checks are the CRC32 of all output of a block; two
      calls without progress do not both return [XZ_OK]; [unxz] ends.

    Some theorems state behaviour the code is not meant to have: [ebitmap_not] loops for
    some sizes, a failed [ebitmap_init_range] leaves a partial bitmap, [unxz] accepts cut
    off files, the xz decoder leaves its buffer when it is called again and again after a
    damaged block header, a complement of several ioctl ranges excludes only the last, a
    range over several drivers affects them entirely, ioctl numbers are read as decimal
    numbers and a hexadecimal letter in one allows every command, the printed form of such a
    number is read as a name, contexts with '-' or ',' cannot be given in statements and
    "<<none>>" crashes, some sets of categories are misprinted, [add_filename_trans] changes
    the transitions of other source types or makes a policy that libsepol does not read, and
    [policydb_init] reports success when some of its allocations fail.

    ** Not modelled

    - Of sepolicy.cpp and api.cpp: printing rules; of statement.rs the messages and the help.  Of sepolicy/policydb.cpp: compiling
      split policies, which is the CIL compiler, and the hashes of precompiled policies and
      the temporary file of [to_file], which are calls of the file system; the bytes of a
      file are arguments.
    - Of libsepol: policy modules beyond their symbols (avrule blocks, scopes in files),
      the Xen object contexts, writing rules in the format before version 20, evaluation
      and normalization of conditionals, SIDs and the comparison of contexts, expansion and
      linking, CIL and checkpolicy.  The editor uses none of these on the kernel policies
      of Android.
    - Of xz-embedded: what xz_config.h and Android.mk leave out (CRC64, the BCJ filters,
      [XZ_DEC_ANY_CHECK]), and [xz_dec_end], which frees memory.
    - Magisk's daemon, boot image tool, init and base libraries (apart from [unxz] and
      the line reader): effects of the operating system, or formats over external
      compression and device tree libraries.  Other vendored code: third-party. *)

From Stdlib Require Export ZArith Lia.
From stdpp Require Export base numbers gmap option sorting list.

#[global] Open Scope Z_scope.

(** ** Machine integers

    A [w]-bit unsigned C integer is a [Z] in [0, 2^w); arithmetic wraps by the
    functions below.  [usz] is [size_t] on the LP64 targets (arm64-v8a, x86_64). *)

Definition u8 (x : Z) : Z := x mod 2 ^ 8.
Definition u16 (x : Z) : Z := x mod 2 ^ 16.
Definition u32 (x : Z) : Z := x mod 2 ^ 32.
Definition u64 (x : Z) : Z := x mod 2 ^ 64.
Definition usz (x : Z) : Z := u64 x.

(** C truth value of an unsigned expression. *)
Definition truthy (x : Z) : bool := negb (x =? 0).

(** Number of one bits ([__builtin_popcount], [__builtin_popcountll]). *)
Fixpoint pos_popcount (p : positive) : Z :=
  match p with
  | xH => 1
  | xO p => pos_popcount p
  | xI p => 1 + pos_popcount p
  end.

Definition popcount (x : Z) : Z :=
  match x with Zpos p => pos_popcount p | _ => 0 end.

(** ** errno values and libsepol return codes (errno.h, sepol/errcodes.h) *)

Definition ENOENT : Z := 2.
Definition ENOMEM : Z := 12.
Definition EEXIST : Z := 17.
Definition EINVAL : Z := 22.
Definition EOVERFLOW : Z := 75.
Definition SEPOL_OK : Z := 0.
Definition SEPOL_ENOMEM : Z := - ENOMEM.
Definition SEPOL_EEXIST : Z := - EEXIST.
Definition SEPOL_ENOENT : Z := - ENOENT.

(** ** The allocator

    [malloc] may fail at any call.  Its outcomes are an explicit sequence: each
    call takes the next one, and every call succeeds once the sequence is used up
    (so [[]] is the allocator that never fails). *)

Definition oracle : Type := list bool.

Definition malloc (o : oracle) : bool * oracle :=
  match o with
  | [] => (true, [])
  | b :: o' => (b, o')
  end.

(** Computations that allocate: [None] is the [NULL] of a failed [malloc]. *)
Definition alloc (A : Type) : Type := oracle -> option A * oracle.

Definition alloc_ret {A} (a : A) : alloc A := fun o => (Some a, o).

Definition alloc_bind {A B} (c : alloc A) (k : A -> alloc B) : alloc B := fun o =>
  match c o with
  | (Some a, o') => k a o'
  | (None, o') => (None, o')
  end.

Definition alloc_new {A} (a : A) : alloc A := fun o =>
  match malloc o with
  | (true, o') => (Some a, o')
  | (false, o') => (None, o')
  end.

Declare Scope alloc_scope.
Delimit Scope alloc_scope with alloc.
Notation "'let!' x := c 'in' k" := (alloc_bind c (fun x => k))
  (at level 10, x pattern, c at level 100, k at level 200) : alloc_scope.

(** ** Little-endian bytes ([cpu_to_le*], [le*_to_cpu] with [memcpy]) *)

Fixpoint le_bytes (n : nat) (x : Z) : list Z :=
  match n with
  | O => []
  | S n' => u8 x :: le_bytes n' (x / 2 ^ 8)
  end.

Fixpoint le_val (bs : list Z) : Z :=
  match bs with
  | [] => 0
  | b :: bs' => b + 2 ^ 8 * le_val bs'
  end.

Definition is_byte (b : Z) : Prop := 0 <= b < 2 ^ 8.

(** The C string in a buffer: the bytes before the first NUL. *)
Fixpoint c_str (buf : list Z) : list Z :=
  match buf with
  | [] => []
  | c :: buf' => if c =? 0 then [] else c :: c_str buf'
  end.

(** ** Tactics *)

(** Turn the boolean comparisons of the code into propositions. *)
Ltac zify_bools :=
  rewrite ?andb_true_iff, ?andb_false_iff, ?orb_true_iff, ?orb_false_iff,
    ?negb_true_iff, ?negb_false_iff, ?Z.eqb_eq, ?Z.eqb_neq, ?Z.ltb_lt, ?Z.ltb_ge,
    ?Z.leb_le, ?Z.leb_gt, ?Z.gtb_lt, ?Z.geb_le in *.

(** Case analysis on the first integer test of the goal. *)
Ltac case_Z :=
  match goal with
  | |- context [?a =? ?b] => destruct (Z.eqb_spec a b)
  | |- context [?a <? ?b] => destruct (Z.ltb_spec a b)
  | |- context [?a <=? ?b] => destruct (Z.leb_spec a b)
  end.

Ltac case_Z_in H :=
  match type of H with
  | context [?a =? ?b] => destruct (Z.eqb_spec a b)
  | context [?a <? ?b] => destruct (Z.ltb_spec a b)
  | context [?a <=? ?b] => destruct (Z.leb_spec a b)
  end.

Create HintDb zbits.

(** ** Generic lemmas on integers *)

Lemma pow2_pos n : 0 <= n -> 0 < 2 ^ n.
Proof. intros; apply Z.pow_pos_nonneg; lia. Qed.

Lemma u8_small x : 0 <= x < 2 ^ 8 -> u8 x = x.
Proof. apply Z.mod_small. Qed.
Lemma u16_small x : 0 <= x < 2 ^ 16 -> u16 x = x.
Proof. apply Z.mod_small. Qed.
Lemma u32_small x : 0 <= x < 2 ^ 32 -> u32 x = x.
Proof. apply Z.mod_small. Qed.
Lemma u64_small x : 0 <= x < 2 ^ 64 -> u64 x = x.
Proof. apply Z.mod_small. Qed.
Lemma usz_small x : 0 <= x < 2 ^ 64 -> usz x = x.
Proof. apply Z.mod_small. Qed.

Lemma u8_range x : 0 <= u8 x < 2 ^ 8.
Proof. apply Z.mod_pos_bound; lia. Qed.
Lemma u16_range x : 0 <= u16 x < 2 ^ 16.
Proof. apply Z.mod_pos_bound; lia. Qed.
Lemma u32_range x : 0 <= u32 x < 2 ^ 32.
Proof. apply Z.mod_pos_bound; lia. Qed.
Lemma u64_range x : 0 <= u64 x < 2 ^ 64.
Proof. apply Z.mod_pos_bound; lia. Qed.

Lemma u32_succ x : u32 (u32 x + 1) = u32 (x + 1).
Proof. unfold u32. by rewrite Zplus_mod_idemp_l. Qed.
Lemma u32_pred x : u32 (u32 x - 1) = u32 (x - 1).
Proof. unfold u32. by rewrite Zminus_mod_idemp_l. Qed.

Lemma testbit_u64 x i : Z.testbit (u64 x) i = bool_decide (i < 64) && Z.testbit x i.
Proof.
  unfold u64. case_bool_decide.
  - destruct (decide (0 <= i)); [by rewrite Z.mod_pow2_bits_low|].
    by rewrite !Z.testbit_neg_r by lia.
  - by rewrite Z.mod_pow2_bits_high by lia.
Qed.

Lemma testbit_high x n i : 0 <= x < 2 ^ n -> n <= i -> Z.testbit x i = false.
Proof.
  intros Hx Hi. destruct (decide (0 <= n)).
  - rewrite <-(Z.mod_small x (2 ^ n)) by done. apply Z.mod_pow2_bits_high; lia.
  - rewrite Z.pow_neg_r in Hx by lia. lia.
Qed.

(** Two [w]-bit words are equal when their [w] low bits are. *)
Lemma word_ext w x y :
  0 <= x < 2 ^ w -> 0 <= y < 2 ^ w ->
  (forall i, 0 <= i < w -> Z.testbit x i = Z.testbit y i) -> x = y.
Proof.
  intros Hx Hy H. apply Z.bits_inj'. intros i Hi.
  destruct (decide (i < w)); [apply H; lia|].
  by rewrite !(testbit_high _ w) by (done || lia).
Qed.

(** A word is zero exactly when it has no bit. *)
Lemma word_zero_iff w x :
  0 <= x < 2 ^ w -> x = 0 <-> forall i, 0 <= i < w -> Z.testbit x i = false.
Proof.
  intros Hx. split; [intros -> i _; apply Z.testbit_0_l|].
  intros H. apply (word_ext w); [done|lia|]. intros i Hi. by rewrite H, Z.testbit_0_l.
Qed.

Lemma word_nonzero_bit w x :
  0 <= x < 2 ^ w -> x <> 0 -> exists i, 0 <= i < w /\ Z.testbit x i = true.
Proof.
  intros Hx Hn. exists (Z.log2 x). split; [|apply Z.bit_log2; lia].
  split; [apply Z.log2_nonneg|]. apply Z.log2_lt_pow2; lia.
Qed.

Lemma word_of_bits w x : 0 <= w -> 0 <= x ->
  (forall i, w <= i -> Z.testbit x i = false) -> x < 2 ^ w.
Proof.
  intros Hw Hx H. destruct (decide (x < 2 ^ w)); [done|]. exfalso.
  assert (0 < x) by (pose proof (pow2_pos w); lia).
  assert (w <= Z.log2 x) by (apply Z.log2_le_pow2; lia).
  pose proof (Z.bit_log2 x ltac:(lia)) as Hb. rewrite H in Hb by done. done.
Qed.

Lemma land_range w x y : 0 <= x < 2 ^ w -> 0 <= y -> 0 <= Z.land x y < 2 ^ w.
Proof.
  intros Hx Hy. destruct (decide (0 <= w)); cycle 1.
  { rewrite Z.pow_neg_r in Hx by lia. lia. }
  split; [apply Z.land_nonneg; lia|].
  apply word_of_bits; [lia|apply Z.land_nonneg; lia|]. intros i Hi.
  by rewrite Z.land_spec, (testbit_high x w).
Qed.

(** A mask bounds what it keeps. *)
Lemma land_le_r x y : 0 <= y -> 0 <= Z.land x y <= y.
Proof.
  intros Hy. split; [apply Z.land_nonneg; lia|].
  assert (Hd : Z.ldiff (Z.land x y) y = 0).
  { apply Z.bits_inj'. intros i _. rewrite Z.ldiff_spec, Z.land_spec, Z.testbit_0_l.
    by destruct (Z.testbit x i), (Z.testbit y i). }
  apply Z.sub_nocarry_ldiff in Hd.
  assert (0 <= Z.ldiff y (Z.land x y)) by (apply Z.ldiff_nonneg; lia). lia.
Qed.

Lemma lor_range w x y : 0 <= x < 2 ^ w -> 0 <= y < 2 ^ w -> 0 <= Z.lor x y < 2 ^ w.
Proof.
  intros Hx Hy. destruct (decide (0 <= w)); cycle 1.
  { rewrite Z.pow_neg_r in Hx by lia. lia. }
  split; [apply Z.lor_nonneg; lia|].
  apply word_of_bits; [lia|apply Z.lor_nonneg; lia|]. intros i Hi.
  by rewrite Z.lor_spec, (testbit_high x w), (testbit_high y w).
Qed.

Lemma lxor_range w x y : 0 <= x < 2 ^ w -> 0 <= y < 2 ^ w -> 0 <= Z.lxor x y < 2 ^ w.
Proof.
  intros Hx Hy. destruct (decide (0 <= w)); cycle 1.
  { rewrite Z.pow_neg_r in Hx by lia. lia. }
  split; [apply Z.lxor_nonneg; lia|].
  apply word_of_bits; [lia|apply Z.lxor_nonneg; lia|]. intros i Hi.
  by rewrite Z.lxor_spec, (testbit_high x w), (testbit_high y w).
Qed.

Lemma shiftl_1_testbit k i : 0 <= k -> Z.testbit (Z.shiftl 1 k) i = bool_decide (i = k).
Proof.
  intros Hk. rewrite Z.shiftl_1_l. case_bool_decide as E.
  - subst. by apply Z.pow2_bits_true.
  - by apply Z.pow2_bits_false.
Qed.

Lemma shiftl_1_u64 k : 0 <= k < 64 -> u64 (Z.shiftl 1 k) = Z.shiftl 1 k.
Proof.
  intros. rewrite Z.shiftl_1_l. apply u64_small. split; [lia|]. apply Z.pow_lt_mono_r; lia.
Qed.

Lemma truthy_false x : truthy x = false <-> x = 0.
Proof. unfold truthy. by rewrite negb_false_iff, Z.eqb_eq. Qed.

Lemma truthy_true x : truthy x = true <-> x <> 0.
Proof. unfold truthy. by rewrite negb_true_iff, Z.eqb_neq. Qed.

Lemma pos_popcount_pos p : 0 < pos_popcount p.
Proof. induction p; cbn [pos_popcount]; lia. Qed.

(** ** Generic lemmas on the allocator *)

Lemma malloc_nil : malloc [] = (true, []).
Proof. done. Qed.

Lemma alloc_bind_Some {A B} (c : alloc A) (k : A -> alloc B) o b o' :
  alloc_bind c k o = (Some b, o') ->
  exists a o1, c o = (Some a, o1) /\ k a o1 = (Some b, o').
Proof. unfold alloc_bind. destruct (c o) as [[a|] o1]; naive_solver. Qed.

Lemma alloc_new_Some {A} (a b : A) o o' :
  alloc_new a o = (Some b, o') -> b = a.
Proof. unfold alloc_new. destruct (malloc o) as [[] ?]; naive_solver. Qed.

(** ** Generic lemmas on little-endian bytes *)

Lemma length_le_bytes n x : length (le_bytes n x) = n.
Proof. revert x; induction n; intros; simpl; auto. Qed.

Lemma le_bytes_bytes n x : Forall is_byte (le_bytes n x).
Proof. revert x; induction n; intros; simpl; constructor; [apply u8_range|auto]. Qed.

Lemma le_val_le_bytes n x : 0 <= x < 2 ^ (8 * Z.of_nat n) -> le_val (le_bytes n x) = x.
Proof.
  revert x. induction n as [|n IH]; intros x Hx; cbn [le_bytes le_val].
  - change (2 ^ (8 * Z.of_nat 0)) with 1 in Hx. lia.
  - replace (8 * Z.of_nat (S n)) with (8 + 8 * Z.of_nat n) in Hx by lia.
    rewrite Z.pow_add_r in Hx by lia. rewrite IH.
    + unfold u8. pose proof (Z.div_mod x (2 ^ 8)). lia.
    + split; [apply Z.div_pos; lia|]. apply Z.div_lt_upper_bound; lia.
Qed.

Lemma le_val_range bs : Forall is_byte bs -> 0 <= le_val bs < 2 ^ (8 * Z.of_nat (length bs)).
Proof.
  induction 1 as [|b bs Hb _ IH]; simpl length; cbn [le_val].
  - change (2 ^ (8 * Z.of_nat 0)) with 1. lia.
  - replace (8 * Z.of_nat (S (length bs))) with (8 + 8 * Z.of_nat (length bs)) by lia.
    rewrite Z.pow_add_r by lia. unfold is_byte in Hb. nia.
Qed.

(** ** Strictly sorted lists *)

Lemma Sorted_lt_cons {A} (f : A -> Z) a l :
  StronglySorted (fun x y => f x < f y) (a :: l) <->
  StronglySorted (fun x y => f x < f y) l /\ Forall (fun y => f a < f y) l.
Proof. split; [by inversion_clear 1|]. intros [??]; by constructor. Qed.

(** ** Filters *)

Lemma list_filter_ext_in {A} (P Q : A -> Prop) `{!forall x, Decision (P x)}
    `{!forall x, Decision (Q x)} (l : list A) :
  (forall x, x ∈ l -> P x <-> Q x) -> filter P l = filter Q l.
Proof.
  induction l as [|a l IH]; intros Hx; [done|]. rewrite !filter_cons.
  rewrite IH by (intros; apply Hx; by right).
  pose proof (Hx a ltac:(by left)). repeat case_decide; try done; tauto.
Qed.

(** ** Arrays of chains *)

Lemma elem_of_concat {A} (x : A) (t : list (list A)) :
  x ∈ concat t <-> exists i c, t !! i = Some c /\ x ∈ c.
Proof.
  induction t as [|c t IH]; cbn [concat].
  - split; [by intros ?%elem_of_nil|]. intros (i & c & H & _). by rewrite lookup_nil in H.
  - rewrite elem_of_app, IH. split.
    + intros [?|(i & c' & ? & ?)]; [by exists 0%nat, c|by exists (S i), c'].
    + intros ([|i] & c' & H & ?); simpl in H; [left; congruence|right; eauto].
Qed.

(** Replacing the chain of one slot. *)
Lemma concat_insert_perm {A} (t : list (list A)) i c c' :
  t !! i = Some c -> concat (<[i := c']> t) ++ c ≡ₚ concat t ++ c'.
Proof.
  revert i. induction t as [|d t IH]; intros [|i] H; simplify_eq/=.
  - by rewrite <-!app_assoc, (app_assoc c'), (Permutation_app_comm c' (concat t)),
      <-app_assoc, (Permutation_app_comm c' c), !app_assoc, (Permutation_app_comm c (concat t)).
  - by rewrite <-!app_assoc, IH.
Qed.

Lemma concat_insert_add {A} (t : list (list A)) i c c' x :
  t !! i = Some c -> c' ≡ₚ x :: c -> concat (<[i := c']> t) ≡ₚ x :: concat t.
Proof.
  intros Hi Hc. apply (Permutation_app_inv_r c). rewrite (concat_insert_perm t i c c' Hi), Hc.
  symmetry. simpl. apply Permutation_middle.
Qed.

Lemma concat_replicate_nil {A} n : concat (replicate n (@nil A)) = [].
Proof. induction n; simpl; done. Qed.

Lemma foldl_concat {A B} (f : A -> B -> A) a (t : list (list B)) :
  foldl (foldl f) a t = foldl f a (concat t).
Proof. revert a. induction t; intros; simpl; [done|]. by rewrite foldl_app. Qed.

Lemma concat_lookup {A} (t : list (list A)) i c :
  t !! i = Some c -> exists l r, concat t = l ++ c ++ r.
Proof.
  revert i. induction t as [|d t IH]; intros [|i] H; simplify_eq/=.
  - by exists [], (concat t).
  - destruct (IH i H) as (l & r & ->). exists (d ++ l), r. by rewrite app_assoc.
Qed.
