(* ===== verification/Policyfile.v ===== *)
(** * The binary policy stream of libsepol

    [struct policy_file] (include/sepol/policydb/policydb.h) and the two functions
    every reader and writer goes through, [next_entry] and [put_entry]
    (src/services.c).  In memory mode [data]/[len] are the unread bytes, or the
    space left in the output buffer; in stdio mode the [FILE] is the bytes still
    to be read and the bytes written so far; in length mode [put_entry] only
    counts. *)

From S2P Require Import Prelude.

Definition PF_USE_MEMORY : Z := 0.
Definition PF_USE_STDIO : Z := 1.
Definition PF_LEN : Z := 2.

Record policy_file := PolicyFile {
  pf_type : Z;
  pf_data : list Z;   (** bytes ahead of the read position (of [data] or of [fp]) *)
  pf_len : Z;         (** the [len] field *)
  pf_out : list Z     (** bytes written through [data] or [fp], in order *)
}.

(** [next_entry(buf, fp, bytes)]: [Some buf] is return value 0, [None] is -1. *)
Definition next_entry (fp : policy_file) (bytes : nat) : option (list Z) * policy_file :=
  if pf_type fp =? PF_USE_STDIO then
    (* fread(buf, bytes, 1, fp->fp), which reads no item of size 0 *)
    if (bytes =? 0)%nat then (None, fp)
    else if (length (pf_data fp) <? bytes)%nat
    then (None, PolicyFile (pf_type fp) [] (pf_len fp) (pf_out fp))
    else (Some (take bytes (pf_data fp)),
          PolicyFile (pf_type fp) (drop bytes (pf_data fp)) (pf_len fp) (pf_out fp))
  else if pf_type fp =? PF_USE_MEMORY then
    if pf_len fp <? Z.of_nat bytes then (None, fp)
    else (Some (take bytes (pf_data fp)),
          PolicyFile (pf_type fp) (drop bytes (pf_data fp))
            (pf_len fp - Z.of_nat bytes) (pf_out fp))
  else (None, fp).

(** [put_entry(ptr, size, n, fp)]: the number of items written.  [ptr] is given as
    its [size * n] bytes. *)
Definition put_entry (ptr : list Z) (size n : Z) (fp : policy_file) : Z * policy_file :=
  if 2 ^ 64 <=? size * n then (0, fp)   (* __builtin_mul_overflow *)
  else
    let bytes := size * n in
    if pf_type fp =? PF_USE_STDIO then
      (n, PolicyFile (pf_type fp) (pf_data fp) (pf_len fp) (pf_out fp ++ ptr))
    else if pf_type fp =? PF_USE_MEMORY then
      if pf_len fp <? bytes then (0, fp)
      else (n, PolicyFile (pf_type fp) (pf_data fp) (pf_len fp - bytes) (pf_out fp ++ ptr))
    else if pf_type fp =? PF_LEN then
      (n, PolicyFile (pf_type fp) (pf_data fp) (usz (pf_len fp + bytes)) (pf_out fp))
    else (0, fp).

(** [exceeds_available_bytes(fp, x, req_elem_size)] (src/private.h). *)
Definition exceeds_available_bytes (fp : policy_file) (x req_elem_size : Z) : bool :=
  if negb (pf_type fp =? PF_USE_MEMORY) then false
  else if 2 ^ 64 <=? x * req_elem_size then true
  else pf_len fp <? x * req_elem_size.

(** [zero_or_saturated(x)] at type [uint32_t] (src/private.h). *)
Definition zero_or_saturated32 (x : Z) : bool := (x =? 0) || (x =? 2 ^ 32 - 1).

(** ** Reading back what was written *)

(** A stream positioned before the bytes [bs], with [rest] behind them. *)
Definition reads (fp : policy_file) (bs : list Z) (fp' : policy_file) : Prop :=
  exists rest,
    pf_data fp = bs ++ rest /\ pf_data fp' = rest /\
    pf_type fp' = pf_type fp /\ pf_out fp' = pf_out fp /\
    (pf_type fp = PF_USE_STDIO /\ pf_len fp' = pf_len fp \/
     pf_type fp = PF_USE_MEMORY /\ pf_len fp = Z.of_nat (length (pf_data fp)) /\
     pf_len fp' = Z.of_nat (length rest)).

(** A stream that accepts [k] more bytes. *)
Definition can_put (fp : policy_file) (k : Z) : Prop :=
  pf_type fp = PF_USE_STDIO \/ pf_type fp = PF_USE_MEMORY /\ k <= pf_len fp.

(** [fp'] is [fp] after the bytes [bs] were written to it. *)
Definition wrote (fp : policy_file) (bs : list Z) (fp' : policy_file) : Prop :=
  pf_type fp' = pf_type fp /\ pf_data fp' = pf_data fp /\ pf_out fp' = pf_out fp ++ bs /\
  (pf_type fp = PF_USE_MEMORY -> pf_len fp' = pf_len fp - Z.of_nat (length bs)).

Lemma reads_app fp bs1 bs2 fp' :
  reads fp (bs1 ++ bs2) fp' <-> exists fp1, reads fp bs1 fp1 /\ reads fp1 bs2 fp'.
Proof.
  split.
  - intros (rest & Hd & Hd' & Ht & Ho & Hl).
    exists (PolicyFile (pf_type fp) (bs2 ++ rest)
              (if pf_type fp =? PF_USE_STDIO then pf_len fp
               else Z.of_nat (length (bs2 ++ rest))) (pf_out fp)).
    split.
    + exists (bs2 ++ rest). rewrite Hd, <-app_assoc. simpl.
      destruct Hl as [[Hty _]|(Hty & Hl & _)]; rewrite Hty; simpl;
        split_and!; try done; [by left|right].
      split_and!; try done. by rewrite Hl, Hd, <-app_assoc.
    + exists rest. simpl. destruct Hl as [[Hty ?]|(Hty & ? & ?)]; rewrite Hty in *;
        simpl; split_and!; try congruence; [by left|by right].
  - intros (fp1 & (r1 & H1 & H1' & Ht1 & Ho1 & Hl1) & (r2 & H2 & H2' & Ht2 & Ho2 & Hl2)).
    exists r2. rewrite H1, <-H1', H2, app_assoc. split_and!; try congruence.
    rewrite Ht1 in Hl2. destruct Hl1 as [[Hty ?]|(Hty & ? & ?)], Hl2 as [[??]|(? & ? & ?)];
      try (exfalso; unfold PF_USE_MEMORY, PF_USE_STDIO in *; lia); [left|right];
      split_and!; try congruence.
    rewrite H, H1, <-H1', H2. by rewrite app_assoc.
Qed.

Lemma next_entry_reads fp bs fp' :
  bs <> [] -> reads fp bs fp' -> next_entry fp (length bs) = (Some bs, fp').
Proof.
  intros Hne (rest & Hd & Hd' & Ht & Ho & Hl). unfold next_entry.
  destruct fp as [ty da le ou], fp' as [ty' da' le' ou']; simpl in *; subst.
  rewrite take_app_length, drop_app_length.
  destruct Hl as [[-> ->]|(-> & -> & ->)]; simpl; rewrite length_app.
  - destruct (Nat.eqb_spec (length bs) 0) as [E|_]; [by destruct bs|].
    destruct (Nat.ltb_spec (length bs + length rest) (length bs)); [lia|done].
  - case_Z; [lia|]. do 2 f_equal. lia.
Qed.

Lemma next_entry_whole fp bs fp' n :
  length bs = n -> n <> 0%nat -> reads fp bs fp' -> next_entry fp n = (Some bs, fp').
Proof. intros <- Hn. apply next_entry_reads. by intros ->. Qed.

Lemma put_entry_wrote fp ptr size n :
  can_put fp (size * n) -> size * n < 2 ^ 64 -> Z.of_nat (length ptr) = size * n ->
  exists fp', put_entry ptr size n fp = (n, fp') /\ wrote fp ptr fp'.
Proof.
  intros Hc Hb Hl. unfold put_entry. destruct (Z.leb_spec (2 ^ 64) (size * n)); [lia|].
  destruct Hc as [Ht|[Ht Hk]]; rewrite Ht; simpl.
  - eexists; split; [done|]. repeat split; simpl; try congruence.
    unfold PF_USE_STDIO, PF_USE_MEMORY in *. lia.
  - case_Z; [lia|]. eexists; split; [done|].
    repeat split; simpl; congruence || lia.
Qed.

Lemma can_put_after fp bs fp' k :
  wrote fp bs fp' -> can_put fp (Z.of_nat (length bs) + k) -> can_put fp' k.
Proof.
  intros (Ht & _ & _ & Hl) [?|[? ?]]; unfold can_put; rewrite Ht; [by left|right].
  split; [done|]. rewrite Hl by done. lia.
Qed.

Lemma can_put_le fp k k' : can_put fp k -> k' <= k -> can_put fp k'.
Proof. intros [?|[??]]; [by left|right; split; [done|lia]]. Qed.

Lemma wrote_nil fp : wrote fp [] fp.
Proof. repeat split; [by rewrite app_nil_r|simpl; lia]. Qed.

Lemma reads_nil fp fp' : reads fp [] fp' -> fp' = fp.
Proof.
  intros (rest & Hd & Hd' & Ht & Ho & Hl). destruct fp, fp'. cbn in *. subst.
  by destruct Hl as [[_ ->]|(_ & -> & ->)].
Qed.

Lemma wrote_app fp bs1 fp1 bs2 fp2 :
  wrote fp bs1 fp1 -> wrote fp1 bs2 fp2 -> wrote fp (bs1 ++ bs2) fp2.
Proof.
  intros (Ht1 & Hd1 & Ho1 & Hl1) (Ht2 & Hd2 & Ho2 & Hl2).
  repeat split; try congruence; [by rewrite Ho2, Ho1, app_assoc|].
  intros Hm. rewrite Hl2, Hl1 by congruence. rewrite length_app. lia.
Qed.
