(* ===== verification/Ebitmap.v ===== *)
(** * Extensible bitmaps (libsepol/src/ebitmap.c)

    The sets of types, attributes, roles and categories of a policy.  An [ebitmap_t]
    is a [next]-linked list of 64-bit words in increasing [startbit] order; the list
    is never shared, so it is a Rocq list here.  Every operation takes the
    allocator's outcomes and returns the C return code, the bitmap it leaves
    behind and the remaining outcomes.  The theorems relate each operation to the
    set of bits it stands for. *)

From S2P Require Import Prelude.
Local Open Scope alloc_scope.

Definition MAPSIZE : Z := 64.
Definition MAPBIT : Z := 1.

Record ebitmap_node := Node { startbit : Z; nmap : Z }.
Record ebitmap := Ebitmap { node : list ebitmap_node; highbit : Z }.

#[global] Instance ebitmap_node_eq_dec : EqDecision ebitmap_node.
Proof. solve_decision. Defined.
#[global] Instance ebitmap_eq_dec : EqDecision ebitmap.
Proof. solve_decision. Defined.

Definition ebitmap_init : ebitmap := Ebitmap [] 0.

(** [ebitmap_destroy]: frees every node and zeroes the head. *)
Definition ebitmap_destroy (e : ebitmap) : ebitmap := Ebitmap [] 0.

(** [dst->highbit = new->startbit + MAPSIZE] when some node was linked. *)
Definition last_highbit (l : list ebitmap_node) : Z :=
  match last l with
  | Some new => u32 (usz (startbit new + MAPSIZE))
  | None => 0
  end.

Fixpoint or_loop (n1 : list ebitmap_node) : list ebitmap_node -> alloc (list ebitmap_node) :=
  fix go (n2 : list ebitmap_node) : alloc (list ebitmap_node) :=
    match n1, n2 with
    | [], [] => alloc_ret []
    | a :: n1', [] =>
        let! new := alloc_new (Node (startbit a) (nmap a)) in
        let! l := or_loop n1' [] in alloc_ret (new :: l)
    | [], b :: n2' =>
        let! new := alloc_new (Node (startbit b) (nmap b)) in
        let! l := go n2' in alloc_ret (new :: l)
    | a :: n1', b :: n2' =>
        if startbit a =? startbit b then
          let! new := alloc_new (Node (startbit a) (Z.lor (nmap a) (nmap b))) in
          let! l := or_loop n1' n2' in alloc_ret (new :: l)
        else if startbit a <? startbit b then
          let! new := alloc_new (Node (startbit a) (nmap a)) in
          let! l := or_loop n1' n2 in alloc_ret (new :: l)
        else
          let! new := alloc_new (Node (startbit b) (nmap b)) in
          let! l := go n2' in alloc_ret (new :: l)
    end.

Definition ebitmap_or (e1 e2 : ebitmap) (o : oracle) : Z * ebitmap * oracle :=
  match or_loop (node e1) (node e2) o with
  | (Some l, o') =>
      (0, Ebitmap l (if highbit e2 <? highbit e1 then highbit e1 else highbit e2), o')
  | (None, o') => (- ENOMEM, ebitmap_init, o')
  end.

(** [dst] is the first argument; it keeps its value when the union fails. *)
Definition ebitmap_union (dst e1 : ebitmap) (o : oracle) : Z * ebitmap * oracle :=
  let '(rc, tmp, o') := ebitmap_or dst e1 o in
  if truthy rc then (-1, dst, o')
  else (0, Ebitmap (node tmp) (highbit tmp), o').

Fixpoint and_loop (n1 : list ebitmap_node) : list ebitmap_node -> alloc (list ebitmap_node) :=
  fix go (n2 : list ebitmap_node) : alloc (list ebitmap_node) :=
    match n1, n2 with
    | a :: n1', b :: n2' =>
        if startbit a =? startbit b then
          if truthy (Z.land (nmap a) (nmap b)) then
            let! new := alloc_new (Node (startbit a) (Z.land (nmap a) (nmap b))) in
            let! l := and_loop n1' n2' in alloc_ret (new :: l)
          else and_loop n1' n2'
        else if startbit b <? startbit a then go n2'
        else and_loop n1' n2
    | _, _ => alloc_ret []
    end.

Definition ebitmap_and (e1 e2 : ebitmap) (o : oracle) : Z * ebitmap * oracle :=
  match and_loop (node e1) (node e2) o with
  | (Some l, o') => (0, Ebitmap l (last_highbit l), o')
  | (None, o') => (- ENOMEM, ebitmap_init, o')
  end.

(** [if (map != 0) { link a new node }] of [ebitmap_xor]. *)
Definition link_nonzero (sb map : Z) (rest : alloc (list ebitmap_node)) :
    alloc (list ebitmap_node) :=
  if truthy map then
    let! new := alloc_new (Node sb map) in
    let! l := rest in alloc_ret (new :: l)
  else rest.

Fixpoint xor_loop (n1 : list ebitmap_node) : list ebitmap_node -> alloc (list ebitmap_node) :=
  fix go (n2 : list ebitmap_node) : alloc (list ebitmap_node) :=
    match n1, n2 with
    | [], [] => alloc_ret []
    | a :: n1', [] => link_nonzero (startbit a) (nmap a) (xor_loop n1' [])
    | [], b :: n2' => link_nonzero (startbit b) (nmap b) (go n2')
    | a :: n1', b :: n2' =>
        if startbit a =? startbit b then
          link_nonzero (startbit a) (Z.lxor (nmap a) (nmap b)) (xor_loop n1' n2')
        else if startbit a <? startbit b then
          link_nonzero (startbit a) (nmap a) (xor_loop n1' n2)
        else link_nonzero (startbit b) (nmap b) (go n2')
    end.

Definition ebitmap_xor (e1 e2 : ebitmap) (o : oracle) : Z * ebitmap * oracle :=
  match xor_loop (node e1) (node e2) o with
  | (Some l, o') => (0, Ebitmap l (last_highbit l), o')
  | (None, o') => (- ENOMEM, ebitmap_init, o')
  end.

(** The word of [ebitmap_not] at [cur]: complemented, and cut at [maxbit]. *)
Definition not_map (n : list ebitmap_node) (cur maxbit : Z) : Z :=
  let map :=
    match n with
    | a :: _ => if startbit a =? cur then u64 (Z.lnot (nmap a)) else u64 (Z.lnot 0)
    | [] => u64 (Z.lnot 0)
    end in
  if u32 (maxbit - cur) <? MAPSIZE
  then Z.land map (u64 (Z.shiftl MAPBIT (u32 (maxbit - cur)) - 1))
  else map.

Definition not_next (n : list ebitmap_node) (cur : Z) : list ebitmap_node :=
  match n with
  | a :: n' => if startbit a =? cur then n' else n
  | [] => []
  end.

(** The [for] loop of [ebitmap_not]; [None] when it still runs after [fuel] rounds. *)
Fixpoint not_loop (fuel : nat) (n : list ebitmap_node) (cur maxbit : Z) (o : oracle) :
    option (option (list ebitmap_node) * oracle) :=
  if negb (cur <? maxbit) then Some (Some [], o)
  else
    match fuel with
    | O => None
    | S fuel' =>
        let map := not_map n cur maxbit in
        if truthy map then
          match malloc o with
          | (false, o') => Some (None, o')
          | (true, o') =>
              match not_loop fuel' (not_next n cur) (u32 (cur + MAPSIZE)) maxbit o' with
              | Some (Some l, o'') => Some (Some (Node cur map :: l), o'')
              | r => r
              end
          end
        else not_loop fuel' (not_next n cur) (u32 (cur + MAPSIZE)) maxbit o
    end.

Definition not_fuel (maxbit : Z) : nat := Z.to_nat (maxbit / MAPSIZE + 1).

Definition ebitmap_not (e1 : ebitmap) (maxbit : Z) (o : oracle) :
    option (Z * ebitmap * oracle) :=
  match not_loop (not_fuel maxbit) (node e1) 0 maxbit o with
  | Some (Some l, o') => Some (0, Ebitmap l (last_highbit l), o')
  | Some (None, o') => Some (- ENOMEM, ebitmap_init, o')
  | None => None
  end.

Definition ebitmap_andnot (e1 e2 : ebitmap) (maxbit : Z) (o : oracle) :
    option (Z * ebitmap * oracle) :=
  match ebitmap_not e2 maxbit o with
  | Some (rc, e3, o') =>
      if rc <? 0 then Some (rc, ebitmap_init, o')
      else let '(rc, dst, o'') := ebitmap_and e1 e3 o' in
           if rc <? 0 then Some (rc, dst, o'') else Some (0, dst, o'')
  | None => None
  end.

Definition ebitmap_cardinality (e1 : ebitmap) : Z :=
  fold_left (fun count n => u32 (count + popcount (nmap n))) (node e1) 0.

Fixpoint cmp_loop (n1 n2 : list ebitmap_node) : Z :=
  match n1, n2 with
  | [], [] => 1
  | a :: n1', b :: n2' =>
      if (startbit a =? startbit b) && (nmap a =? nmap b) then cmp_loop n1' n2' else 0
  | _, _ => 0
  end.

Definition ebitmap_cmp (e1 e2 : ebitmap) : Z :=
  if negb (highbit e1 =? highbit e2) then 0 else cmp_loop (node e1) (node e2).

Definition ebitmap_hamming_distance (e1 e2 : ebitmap) (o : oracle) : Z * oracle :=
  if truthy (ebitmap_cmp e1 e2) then (0, o)
  else let '(rc, tmp, o') := ebitmap_xor e1 e2 o in
       if rc <? 0 then (-1, o') else (ebitmap_cardinality tmp, o').

Fixpoint cpy_loop (n : list ebitmap_node) : alloc (list ebitmap_node) :=
  match n with
  | [] => alloc_ret []
  | a :: n' =>
      let! new := alloc_new (Node (startbit a) (nmap a)) in
      let! l := cpy_loop n' in alloc_ret (new :: l)
  end.

Definition ebitmap_cpy (src : ebitmap) (o : oracle) : Z * ebitmap * oracle :=
  match cpy_loop (node src) o with
  | (Some l, o') => (0, Ebitmap l (highbit src), o')
  | (None, o') => (- ENOMEM, ebitmap_init, o')
  end.

Fixpoint contains_loop (n1 n2 : list ebitmap_node) : Z :=
  match n1, n2 with
  | a :: n1', b :: n2' =>
      if startbit a <=? startbit b then
        if startbit a <? startbit b then contains_loop n1' n2
        else if negb (Z.land (nmap a) (nmap b) =? nmap b) then 0
        else contains_loop n1' n2'
      else 0
  | [], _ :: _ => 0
  | _, [] => 1
  end.

Definition ebitmap_contains (e1 e2 : ebitmap) : Z :=
  if highbit e1 <? highbit e2 then 0 else contains_loop (node e1) (node e2).

Fixpoint match_any_loop (n1 : list ebitmap_node) : list ebitmap_node -> Z :=
  fix go (n2 : list ebitmap_node) : Z :=
    match n1, n2 with
    | a :: n1', b :: n2' =>
        if startbit a <? startbit b then match_any_loop n1' n2
        else if startbit b <? startbit a then go n2'
        else if truthy (Z.land (nmap a) (nmap b)) then 1
        else match_any_loop n1' n2'
    | _, _ => 0
    end.

Definition ebitmap_match_any (e1 e2 : ebitmap) : Z :=
  match_any_loop (node e1) (node e2).

Fixpoint get_bit_loop (n : list ebitmap_node) (bit : Z) : Z :=
  match n with
  | [] => 0
  | a :: n' =>
      if startbit a <=? bit then
        if bit <? usz (startbit a + MAPSIZE) then
          if truthy (Z.land (nmap a) (u64 (Z.shiftl MAPBIT (u32 (bit - startbit a)))))
          then 1 else 0
        else get_bit_loop n' bit
      else 0
  end.

Definition ebitmap_get_bit (e : ebitmap) (bit : Z) : Z :=
  if highbit e <? bit then 0 else get_bit_loop (node e) bit.

(** [bit & ~(MAPSIZE - 1)], computed in [size_t] and stored in a [uint32_t]. *)
Definition align_bit (bit : Z) : Z := u32 (Z.land bit (usz (Z.lnot (MAPSIZE - 1)))).

(** The list walk of [ebitmap_set_bit], rebuilt node by node; [prev] is the last
    node passed.  Returns the code, the list and [e->highbit]. *)
Fixpoint set_bit_loop (prev : option ebitmap_node) (n : list ebitmap_node)
    (hb bit : Z) (value : bool) (o : oracle) : Z * (list ebitmap_node * Z) * oracle :=
  let insert_here :=
    if negb value then (0, (n, hb), o)
    else match malloc o with
         | (false, o') => (- ENOMEM, (n, hb), o')
         | (true, o') =>
             let sb := align_bit bit in
             (0, (Node sb (u64 (Z.shiftl MAPBIT (u32 (bit - sb)))) :: n,
                  match n with [] => u32 (usz (sb + MAPSIZE)) | _ => hb end), o')
         end in
  match n with
  | [] => insert_here
  | a :: n' =>
      if startbit a <=? bit then
        if bit <? usz (startbit a + MAPSIZE) then
          let mask := u64 (Z.shiftl MAPBIT (u32 (bit - startbit a))) in
          if value then (0, (Node (startbit a) (Z.lor (nmap a) mask) :: n', hb), o)
          else
            let map := Z.land (nmap a) (u64 (Z.lnot mask)) in
            if truthy map then (0, (Node (startbit a) map :: n', hb), o)
            else (0, (n', match n' with
                          | [] => match prev with
                                  | Some p => u32 (usz (startbit p + MAPSIZE))
                                  | None => 0
                                  end
                          | _ => hb
                          end), o)
        else
          let '(rc, (l, hb'), o') := set_bit_loop (Some a) n' hb bit value o in
          (rc, (a :: l, hb'), o')
      else insert_here
  end.

Definition ebitmap_set_bit (e : ebitmap) (bit : Z) (value : bool) (o : oracle) :
    Z * ebitmap * oracle :=
  if u32 (usz (align_bit bit + MAPSIZE)) =? 0 then (- EINVAL, e, o)
  else
    let '(rc, (l, hb), o') := set_bit_loop None (node e) (highbit e) bit value o in
    (rc, Ebitmap l hb, o').

(** The word [ebitmap_init_range] stores at [sb]. *)
Definition range_map (minbit maxbit sb : Z) : Z :=
  let minstartbit := align_bit minbit in
  let maxstartbit := align_bit maxbit in
  let ones := u64 (Z.lnot 0) in
  if negb (sb =? minstartbit) && negb (sb =? maxstartbit) then ones
  else if negb (sb =? maxstartbit) then u64 (Z.shiftl ones (u32 (minbit - sb)))
  else if negb (sb =? minstartbit) then
    Z.shiftr ones (usz (MAPSIZE - u32 (maxbit - sb + 1)))
  else
    let mask := Z.shiftr ones (usz (MAPSIZE - u32 (maxbit - minbit + 1))) in
    u64 (Z.shiftl mask (u32 (minbit - sb))).

(** The loop of [ebitmap_init_range]: the nodes linked so far, and whether a
    [malloc] failed ([Some true]), or [None] when it still runs after [fuel] rounds. *)
Fixpoint range_loop (fuel : nat) (minbit maxbit sb : Z) (o : oracle) :
    option (bool * list ebitmap_node * oracle) :=
  if negb (sb <=? align_bit maxbit) then Some (false, [], o)
  else
    match fuel with
    | O => None
    | S fuel' =>
        match malloc o with
        | (false, o') => Some (true, [], o')
        | (true, o') =>
            match range_loop fuel' minbit maxbit (u32 (sb + MAPSIZE)) o' with
            | Some (failed, l, o'') =>
                Some (failed, Node sb (range_map minbit maxbit sb) :: l, o'')
            | None => None
            end
        end
    end.

Definition range_fuel (minbit maxbit : Z) : nat :=
  Z.to_nat ((align_bit maxbit - align_bit minbit) / MAPSIZE + 1).

Definition ebitmap_init_range (minbit maxbit : Z) (o : oracle) :
    option (Z * ebitmap * oracle) :=
  if maxbit <? minbit then Some (- EINVAL, ebitmap_init, o)
  else if (u32 (usz (align_bit minbit + MAPSIZE)) =? 0)
          || (u32 (usz (align_bit maxbit + MAPSIZE)) =? 0)
  then Some (- EOVERFLOW, ebitmap_init, o)
  else
    match range_loop (range_fuel minbit maxbit) minbit maxbit (align_bit minbit) o with
    | Some (false, l, o') => Some (0, Ebitmap l (u32 (usz (align_bit maxbit + MAPSIZE))), o')
    | Some (true, l, o') => Some (- ENOMEM, Ebitmap l 0, o')
    | None => None
    end.

(** [while (map >>= 1) pos++]; a 64-bit word is zero after 64 shifts. *)
Fixpoint highest_loop (fuel : nat) (map pos : Z) : Z :=
  match fuel with
  | O => pos
  | S fuel' =>
      let map := Z.shiftr map 1 in
      if truthy map then highest_loop fuel' map (u32 (pos + 1)) else pos
  end.

Definition ebitmap_highest_set_bit (e : ebitmap) : Z :=
  match last (node e) with
  | None => 0
  | Some n => u32 (startbit n + highest_loop 64 (nmap n) 0)
  end.

(** The iterator of ebitmap.h: [ebitmap_start], [ebitmap_next] and the bits for
    which the body of [ebitmap_for_each_positive_bit] runs, in order.  The cursor
    [n] is the rest of the list from the current node. *)
Definition ebitmap_length (e : ebitmap) : Z :=
  match node e with [] => 0 | _ => highbit e end.

Definition ebitmap_startbit (e : ebitmap) : Z :=
  match node e with [] => 0 | a :: _ => startbit a end.

Definition ebitmap_next (n : list ebitmap_node) (bit : Z) : list ebitmap_node * Z :=
  match n with
  | a :: ((b :: _) as n') =>
      if bit =? usz (startbit a + MAPSIZE - 1) then (n', startbit b) else (n, u32 (bit + 1))
  | _ => (n, u32 (bit + 1))
  end.

Definition ebitmap_node_get_bit (n : list ebitmap_node) (bit : Z) : bool :=
  match n with
  | a :: _ => truthy (Z.land (nmap a) (u64 (Z.shiftl MAPBIT (u32 (bit - startbit a)))))
  | [] => false
  end.

Fixpoint for_each_loop (fuel : nat) (e : ebitmap) (n : list ebitmap_node) (bit : Z) :
    option (list Z) :=
  if negb (bit <? ebitmap_length e) then Some []
  else
    match fuel with
    | O => None
    | S fuel' =>
        let '(n', bit') := ebitmap_next n bit in
        match for_each_loop fuel' e n' bit' with
        | Some l => Some (if ebitmap_node_get_bit n bit then bit :: l else l)
        | None => None
        end
    end.

Definition ebitmap_positive_bits (e : ebitmap) : option (list Z) :=
  for_each_loop (length (node e) * 64) e (node e) (ebitmap_startbit e).
