(* ===== verification/EbitmapSpec.v ===== *)
(** * Correctness of the extensible bitmaps

    [ebitmap_wf] is the representation invariant of ebitmap.c (sorted, aligned,
    non-zero words, exact [highbit]); [ebitmap_mem] is the set of bits a bitmap
    stands for.  Each operation is shown to keep the invariant and to compute the
    set operation it is named after, on success and on allocation failure. *)

From S2P Require Import Prelude Ebitmap.

(** ** The meaning of a bitmap *)

Definition node_bit (n : ebitmap_node) (b : Z) : bool :=
  bool_decide (startbit n <= b < startbit n + MAPSIZE) && Z.testbit (nmap n) (b - startbit n).

Definition nodes_bit (l : list ebitmap_node) (b : Z) : bool :=
  existsb (fun n => node_bit n b) l.

Definition ebitmap_mem (e : ebitmap) (b : Z) : bool := nodes_bit (node e) b.

(** ** The representation invariant *)

Record node_ok (n : ebitmap_node) : Prop := {
  ok_lo : 0 <= startbit n;
  ok_hi : startbit n + MAPSIZE < 2 ^ 32;
  ok_aligned : startbit n mod MAPSIZE = 0;
  ok_map : 0 < nmap n < 2 ^ 64
}.

Definition above (s : Z) (l : list ebitmap_node) : Prop := Forall (fun n => s < startbit n) l.

Fixpoint nodes_ok (l : list ebitmap_node) : Prop :=
  match l with
  | [] => True
  | a :: l' => node_ok a /\ above (startbit a) l' /\ nodes_ok l'
  end.

Record ebitmap_wf (e : ebitmap) : Prop := {
  wf_nodes : nodes_ok (node e);
  wf_highbit : highbit e = last_highbit (node e)
}.

(** The contract of the operations that build a new bitmap standing for [f]. *)
Definition builds (o : oracle) (r : Z * ebitmap * oracle) (f : Z -> bool) : Prop :=
  let '(rc, dst, _) := r in
  ebitmap_wf dst /\
  (rc = 0 /\ (forall b, ebitmap_mem dst b = f b) \/ rc = - ENOMEM /\ dst = ebitmap_init) /\
  (o = [] -> rc = 0).

(** The word of a list at a start bit; 0 where there is no node. *)
Fixpoint word_at (l : list ebitmap_node) (k : Z) : Z :=
  match l with
  | [] => 0
  | a :: l' => if startbit a =? k then nmap a else word_at l' k
  end.

(** The start bit of the word that holds bit [b]. *)
Definition chunk (b : Z) : Z := MAPSIZE * (b / MAPSIZE).

(** ** Basic facts *)

Lemma chunk_le b : chunk b <= b < chunk b + MAPSIZE.
Proof.
  unfold chunk, MAPSIZE. pose proof (Z.div_mod b 64). pose proof (Z.mod_pos_bound b 64). lia.
Qed.

Lemma chunk_eq s b : s mod MAPSIZE = 0 -> s <= b < s + MAPSIZE -> chunk b = s.
Proof.
  unfold chunk, MAPSIZE. intros Hs Hb. pose proof (Z.div_mod s 64).
  replace (b / 64) with (s / 64); [lia|]. apply (Z.div_unique b 64 (s / 64) (b - s)); lia.
Qed.

Lemma aligned_gap s t : s mod MAPSIZE = 0 -> t mod MAPSIZE = 0 -> s < t -> s + MAPSIZE <= t.
Proof.
  unfold MAPSIZE. intros. pose proof (Z.div_mod s 64). pose proof (Z.div_mod t 64). lia.
Qed.

Lemma chunk_mod b : chunk b mod MAPSIZE = 0.
Proof. unfold chunk, MAPSIZE. rewrite Z.mul_comm. apply Z.mod_mul. lia. Qed.

Lemma align_bit_chunk b : 0 <= b < 2 ^ 32 -> align_bit b = chunk b.
Proof.
  intros Hb. unfold align_bit, chunk, MAPSIZE.
  assert (Z.land b (usz (Z.lnot (64 - 1))) = 64 * (b / 64)) as ->.
  { apply Z.bits_inj'. intros i Hi. change (usz (Z.lnot (64 - 1))) with (2 ^ 64 - 2 ^ 6).
    replace (64 * (b / 64)) with (Z.shiftl (Z.shiftr b 6) 6) by
      (rewrite Z.shiftl_mul_pow2, Z.shiftr_div_pow2 by lia; change (2 ^ 6) with 64; lia).
    rewrite Z.land_spec. destruct (decide (i < 6)).
    - rewrite Z.shiftl_spec_low by lia.
      replace (2 ^ 64 - 2 ^ 6) with (Z.shiftl (Z.ones 58) 6) by done.
      rewrite Z.shiftl_spec_low by lia. apply andb_false_r.
    - rewrite Z.shiftl_spec_high, Z.shiftr_spec by lia.
      replace (i - 6 + 6) with i by lia.
      replace (2 ^ 64 - 2 ^ 6) with (Z.shiftl (Z.ones 58) 6) by done.
      rewrite Z.shiftl_spec_high by lia. destruct (decide (i < 64)).
      + rewrite Z.ones_spec_low by lia. apply andb_true_r.
      + rewrite (testbit_high b 32) by lia. done. }
  apply u32_small. pose proof (chunk_le b). unfold chunk, MAPSIZE in *.
  pose proof (Z.div_pos b 64). lia.
Qed.

Lemma node_bit_range n b : node_bit n b = true -> startbit n <= b < startbit n + MAPSIZE.
Proof. unfold node_bit. rewrite andb_true_iff, bool_decide_eq_true. tauto. Qed.

Lemma above_weaken s t l : above s l -> t <= s -> above t l.
Proof. intros H Ht. eapply Forall_impl; [exact H|]. simpl; lia. Qed.

Lemma above_nil s : above s [].
Proof. constructor. Qed.

Lemma above_cons s a l : above s (a :: l) <-> s < startbit a /\ above s l.
Proof. unfold above. by rewrite Forall_cons. Qed.

Lemma word_at_above l k : above k l -> word_at l k = 0.
Proof.
  induction 1 as [|a l Ha _ IH]; [done|]. cbn [word_at].
  case_Z; [lia|done].
Qed.

Lemma word_at_cons a l k : word_at (a :: l) k = if startbit a =? k then nmap a else word_at l k.
Proof. done. Qed.

Lemma word_at_range l k : nodes_ok l -> 0 <= word_at l k < 2 ^ 64.
Proof.
  induction l as [|a l IH]; cbn [word_at nodes_ok]; [lia|]. intros (Ha & _ & Hl).
  case_Z; [pose proof (ok_map _ Ha); lia|auto].
Qed.

Lemma word_at_misaligned l k : nodes_ok l -> k mod MAPSIZE <> 0 -> word_at l k = 0.
Proof.
  induction l as [|a l IH]; cbn [word_at nodes_ok]; [done|]. intros (Ha & _ & Hl) Hk.
  case_Z; [subst; by destruct Hk; apply ok_aligned|auto].
Qed.

Lemma word_at_member l n : nodes_ok l -> n ∈ l -> word_at l (startbit n) = nmap n.
Proof.
  induction l as [|a l IH]; cbn [word_at nodes_ok]; [by rewrite elem_of_nil|].
  intros (Ha & Hab & Hl) [->|Hn]%elem_of_cons.
  - by rewrite Z.eqb_refl.
  - unfold above in Hab. rewrite Forall_forall in Hab. specialize (Hab _ Hn).
    case_Z; [lia|auto].
Qed.

Lemma nodes_ok_member l n : nodes_ok l -> n ∈ l -> node_ok n.
Proof.
  induction l as [|a l IH]; cbn [nodes_ok]; [by rewrite elem_of_nil|].
  intros (Ha & _ & Hl) [->|Hn]%elem_of_cons; auto.
Qed.

Lemma nodes_bit_above l s b :
  nodes_ok l -> above s l -> s mod MAPSIZE = 0 -> b < s + MAPSIZE -> nodes_bit l b = false.
Proof.
  intros Hl Ha Hs Hb. apply not_true_is_false. intros (n & Hn & Hbit)%existsb_exists.
  apply list_elem_of_In in Hn. apply node_bit_range in Hbit.
  unfold above in Ha. rewrite Forall_forall in Ha. specialize (Ha _ Hn).
  pose proof (aligned_gap s (startbit n) Hs (ok_aligned _ (nodes_ok_member _ _ Hl Hn)) Ha).
  lia.
Qed.

(** Bits are read word by word. *)
Lemma nodes_bit_word l b :
  nodes_ok l -> nodes_bit l b = Z.testbit (word_at l (chunk b)) (b - chunk b).
Proof.
  induction l as [|a l IH]; cbn [nodes_ok word_at]; [by rewrite Z.testbit_0_l|].
  intros (Ha & Hab & Hl). cbn [nodes_bit existsb]. fold (nodes_bit l b).
  pose proof (chunk_le b). destruct (Z.eqb_spec (startbit a) (chunk b)) as [E|E].
  - rewrite (nodes_bit_above l (startbit a)) by (auto using ok_aligned; lia).
    rewrite orb_false_r. unfold node_bit. rewrite bool_decide_eq_true_2 by lia. by rewrite <-E.
  - rewrite <-IH by done. replace (node_bit a b) with false; [done|].
    symmetry. apply not_true_is_false. intros Hb%node_bit_range.
    apply E. symmetry. apply chunk_eq; [apply ok_aligned, Ha|done].
Qed.

(** A pointwise operation on words is a pointwise operation on bits. *)
Lemma nodes_bit_op1 l l1 f :
  nodes_ok l -> nodes_ok l1 ->
  (forall b, Z.testbit (word_at l (chunk b)) (b - chunk b) =
             f b (Z.testbit (word_at l1 (chunk b)) (b - chunk b))) ->
  forall b, nodes_bit l b = f b (nodes_bit l1 b).
Proof. intros. by rewrite !nodes_bit_word. Qed.

Lemma nodes_bit_op2 l l1 l2 fw fb :
  nodes_ok l -> nodes_ok l1 -> nodes_ok l2 ->
  (forall k, word_at l k = fw (word_at l1 k) (word_at l2 k)) ->
  (forall x y i, 0 <= i -> Z.testbit (fw x y) i = fb (Z.testbit x i) (Z.testbit y i)) ->
  forall b, nodes_bit l b = fb (nodes_bit l1 b) (nodes_bit l2 b).
Proof.
  intros ??? Hw Hf b. rewrite !nodes_bit_word by done. rewrite Hw, Hf; [done|].
  pose proof (chunk_le b). lia.
Qed.

Lemma ebitmap_init_wf : ebitmap_wf ebitmap_init.
Proof. split; done. Qed.

Lemma last_highbit_some l n :
  nodes_ok l -> last l = Some n -> last_highbit l = startbit n + MAPSIZE.
Proof.
  intros Hl Hn. unfold last_highbit. rewrite Hn.
  pose proof (nodes_ok_member _ _ Hl (last_Some_elem_of _ _ Hn)) as [].
  unfold MAPSIZE in *. rewrite usz_small, u32_small by lia. done.
Qed.

Create HintDb ebitmap.
#[export] Hint Resolve ebitmap_init_wf above_nil : ebitmap.

(** ** Loops of the binary operations *)

(** Decompose a successful allocating computation. *)
Ltac alloc_inv :=
  repeat match goal with
  | H : alloc_bind _ _ _ = (Some _, _) |- _ => apply alloc_bind_Some in H as (? & ? & ? & ?)
  | H : alloc_new _ _ = (Some _, _) |- _ => apply alloc_new_Some in H
  | H : alloc_ret _ _ = (Some _, _) |- _ => unfold alloc_ret in H; simplify_eq
  end; simplify_eq.

(** What a merge loop guarantees: a well-formed list, word by word [fw], and no
    start bit below those of its inputs. *)
Definition merged (fw : Z -> Z -> Z) (n1 n2 l : list ebitmap_node) : Prop :=
  nodes_ok l /\ (forall k, word_at l k = fw (word_at n1 k) (word_at n2 k)) /\
  (forall s, above s n1 -> above s n2 -> above s l).

(** The three ways a merge loop moves on. *)
Lemma merged_both fw a b n1 n2 l m :
  fw 0 0 = 0 -> nodes_ok (a :: n1) -> nodes_ok (b :: n2) -> startbit a = startbit b ->
  m = fw (nmap a) (nmap b) -> 0 < m < 2 ^ 64 -> merged fw n1 n2 l ->
  merged fw (a :: n1) (b :: n2) (Node (startbit a) m :: l).
Proof.
  intros H0 (Ha & Haa & Hn1) (Hb & Hbb & Hn2) E -> Hm (Hl & Hw & Hab).
  split_and!.
  - split_and!; [destruct Ha; by split|apply Hab; [done|simpl; by rewrite E]|done].
  - intros k. cbn [word_at startbit nmap]. rewrite <-E. case_Z; [done|apply Hw].
  - intros s [Hs1 Hs2]%above_cons [_ Hs3]%above_cons. apply above_cons. auto.
Qed.

Lemma merged_both_zero fw a b n1 n2 l :
  fw 0 0 = 0 -> nodes_ok (a :: n1) -> nodes_ok (b :: n2) -> startbit a = startbit b ->
  fw (nmap a) (nmap b) = 0 -> merged fw n1 n2 l -> merged fw (a :: n1) (b :: n2) l.
Proof.
  intros H0 (Ha & Haa & Hn1) (Hb & Hbb & Hn2) E Hm (Hl & Hw & Hab).
  split_and!; [done| |intros s [_ ?]%above_cons [_ ?]%above_cons; auto].
  intros k. cbn [word_at]. rewrite <-E, Hw. case_Z; [|done]. subst.
  rewrite !word_at_above, Hm; [done|rewrite E; done|done].
Qed.

Lemma merged_left fw a n1 n2 l m :
  nodes_ok (a :: n1) -> above (startbit a) n2 -> m = fw (nmap a) 0 -> 0 < m < 2 ^ 64 ->
  merged fw n1 n2 l -> merged fw (a :: n1) n2 (Node (startbit a) m :: l).
Proof.
  intros (Ha & Haa & Hn1) Hn2 -> Hm (Hl & Hw & Hab). split_and!.
  - split_and!; [destruct Ha; by split|by apply Hab|done].
  - intros k. cbn [word_at startbit nmap]. case_Z; [|apply Hw]. subst.
    by rewrite (word_at_above n2).
  - intros s [Hs1 Hs2]%above_cons Hs3. apply above_cons. auto.
Qed.

Lemma merged_left_zero fw a n1 n2 l :
  fw 0 0 = 0 -> nodes_ok (a :: n1) -> above (startbit a) n2 -> fw (nmap a) 0 = 0 ->
  merged fw n1 n2 l -> merged fw (a :: n1) n2 l.
Proof.
  intros H0 (Ha & Haa & Hn1) Hn2 Hm (Hl & Hw & Hab).
  split_and!; [done| |intros s [_ ?]%above_cons ?; auto].
  intros k. cbn [word_at]. rewrite Hw. case_Z; [|done]. subst.
  rewrite !word_at_above by done. congruence.
Qed.

Lemma merged_sym fw n1 n2 l : merged (fun x y => fw y x) n2 n1 l -> merged fw n1 n2 l.
Proof. intros (? & ? & ?). split_and!; auto. Qed.

Lemma merged_nil fw : fw 0 0 = 0 -> merged fw [] [] [].
Proof. intros. split_and!; [done|by intros k|auto]. Qed.

(** The word conditions of the loops. *)
Lemma nodes_ok_map a n : nodes_ok (a :: n) -> 0 < nmap a < 2 ^ 64.
Proof. intros (Ha & _). apply Ha. Qed.

Lemma nodes_ok_tail a n : nodes_ok (a :: n) -> nodes_ok n.
Proof. by intros (_ & _ & ?). Qed.

Lemma nodes_ok_above a n s : nodes_ok (a :: n) -> s < startbit a -> above s (a :: n).
Proof.
  intros (_ & Ha & _) Hs. apply above_cons. split; [done|].
  eapply above_weaken; [done|lia].
Qed.

Lemma lor_word x y : 0 < x < 2 ^ 64 -> 0 < y < 2 ^ 64 -> 0 < Z.lor x y < 2 ^ 64.
Proof.
  intros Hx Hy. pose proof (lor_range 64 x y ltac:(lia) ltac:(lia)).
  assert (Z.lor x y <> 0) by (rewrite Z.lor_eq_0_iff; lia). lia.
Qed.

Lemma land_word x y : 0 < x < 2 ^ 64 -> 0 < y < 2 ^ 64 -> truthy (Z.land x y) = true ->
  0 < Z.land x y < 2 ^ 64.
Proof.
  intros Hx Hy H%truthy_true. pose proof (land_range 64 x y ltac:(lia) ltac:(lia)). lia.
Qed.

Lemma lxor_word x y : 0 < x < 2 ^ 64 -> 0 < y < 2 ^ 64 -> truthy (Z.lxor x y) = true ->
  0 < Z.lxor x y < 2 ^ 64.
Proof.
  intros Hx Hy H%truthy_true. pose proof (lxor_range 64 x y ltac:(lia) ltac:(lia)). lia.
Qed.

#[export] Hint Resolve nodes_ok_map nodes_ok_tail lor_word land_word lxor_word : ebitmap.

Lemma or_loop_spec n1 n2 o l o' :
  nodes_ok n1 -> nodes_ok n2 -> or_loop n1 n2 o = (Some l, o') -> merged Z.lor n1 n2 l.
Proof.
  revert n2 o l o'. induction n1 as [|a n1 IH1]; intros n2; induction n2 as [|b n2 IH2];
    intros o l o' H1 H2 H; cbn [or_loop] in H; alloc_inv.
  - by apply merged_nil.
  - apply merged_sym, merged_left; eauto with ebitmap. apply merged_sym; eauto with ebitmap.
  - apply merged_left; eauto with ebitmap. by rewrite Z.lor_0_r.
  - destruct (Z.eqb_spec (startbit a) (startbit b)); alloc_inv.
    { eapply merged_both; eauto with ebitmap. }
    destruct (Z.ltb_spec (startbit a) (startbit b)); alloc_inv.
    + apply merged_left; eauto using nodes_ok_above with ebitmap. by rewrite Z.lor_0_r.
    + apply merged_sym, merged_left; eauto with ebitmap; [apply nodes_ok_above; [done|lia]|].
      apply merged_sym; eauto with ebitmap.
Qed.

Lemma and_loop_spec n1 n2 o l o' :
  nodes_ok n1 -> nodes_ok n2 -> and_loop n1 n2 o = (Some l, o') -> merged Z.land n1 n2 l.
Proof.
  revert n2 o l o'. induction n1 as [|a n1 IH1]; intros n2; induction n2 as [|b n2 IH2];
    intros o l o' H1 H2 H; cbn [and_loop] in H; alloc_inv.
  - by apply merged_nil.
  - split_and!; [done|by intros k|eauto with ebitmap].
  - split_and!; [done|intros k; by rewrite Z.land_0_r|eauto with ebitmap].
  - destruct (Z.eqb_spec (startbit a) (startbit b)).
    { destruct (truthy _) eqn:Ht; alloc_inv; [eapply merged_both; eauto with ebitmap|].
      apply merged_both_zero; eauto with ebitmap. by apply truthy_false. }
    destruct (Z.ltb_spec (startbit b) (startbit a)).
    + apply merged_sym, merged_left_zero; eauto with ebitmap;
        [apply nodes_ok_above; [done|lia]|]. apply merged_sym; eauto with ebitmap.
    + apply merged_left_zero; eauto with ebitmap;
        [apply nodes_ok_above; [done|lia]|by rewrite Z.land_0_r].
Qed.

Lemma link_nonzero_Some sb m r o l o' :
  link_nonzero sb m r o = (Some l, o') ->
  (truthy m = true /\ exists l' o1, r o1 = (Some l', o') /\ l = Node sb m :: l') \/
  (truthy m = false /\ r o = (Some l, o')).
Proof.
  unfold link_nonzero. destruct (truthy m); [left|by right]. alloc_inv. eauto.
Qed.

Lemma xor_loop_spec n1 n2 o l o' :
  nodes_ok n1 -> nodes_ok n2 -> xor_loop n1 n2 o = (Some l, o') -> merged Z.lxor n1 n2 l.
Proof.
  revert n2 o l o'. induction n1 as [|a n1 IH1]; intros n2; induction n2 as [|b n2 IH2];
    intros o l o' H1 H2 H; cbn [xor_loop] in H; alloc_inv.
  - by apply merged_nil.
  - pose proof (nodes_ok_map _ _ H2).
    apply link_nonzero_Some in H as [(_ & l' & o1 & Hr & ->)|[Hm%truthy_false _]]; [|lia].
    apply merged_sym, merged_left; eauto with ebitmap. apply merged_sym; eauto with ebitmap.
  - pose proof (nodes_ok_map _ _ H1).
    apply link_nonzero_Some in H as [(_ & l' & o1 & Hr & ->)|[Hm%truthy_false _]]; [|lia].
    apply merged_left; eauto with ebitmap. by rewrite Z.lxor_0_r.
  - pose proof (nodes_ok_map _ _ H1). pose proof (nodes_ok_map _ _ H2).
    destruct (Z.eqb_spec (startbit a) (startbit b)); [|destruct (Z.ltb_spec (startbit a) (startbit b))];
      apply link_nonzero_Some in H as [(Hm & l' & o1 & Hr & ->)|[Hm%truthy_false Hr]]; try lia.
    + eapply merged_both; eauto with ebitmap.
    + apply merged_both_zero; eauto with ebitmap.
    + apply merged_left; eauto using nodes_ok_above with ebitmap. by rewrite Z.lxor_0_r.
    + apply merged_sym, merged_left; eauto with ebitmap; [apply nodes_ok_above; [done|lia]|].
      apply merged_sym; eauto with ebitmap.
Qed.

(** The allocator that never fails lets every loop finish. *)
Lemma alloc_cons_total (x : ebitmap_node) r l :
  r [] = (Some l, []) ->
  exists l', alloc_bind (alloc_new x)
               (fun new => alloc_bind r (fun l => alloc_ret (new :: l))) [] = (Some l', []).
Proof. intros Hr. unfold alloc_bind, alloc_new, alloc_ret. cbn. rewrite Hr. eauto. Qed.

Lemma link_nonzero_total sb m r l :
  r [] = (Some l, []) -> exists l', link_nonzero sb m r [] = (Some l', []).
Proof.
  intros Hr. unfold link_nonzero. destruct (truthy m); [by eapply alloc_cons_total|eauto].
Qed.

Lemma or_loop_total n1 n2 : exists l, or_loop n1 n2 [] = (Some l, []).
Proof.
  revert n2. induction n1 as [|a n1 IH1]; intros n2; induction n2 as [|b n2 [l2 IH2]];
    cbn [or_loop].
  - by exists [].
  - by eapply alloc_cons_total.
  - destruct (IH1 []). by eapply alloc_cons_total.
  - destruct (_ =? _); [destruct (IH1 n2); by eapply alloc_cons_total|].
    destruct (_ <? _); [destruct (IH1 (b :: n2)); by eapply alloc_cons_total|].
    by eapply alloc_cons_total.
Qed.

Lemma and_loop_total n1 n2 : exists l, and_loop n1 n2 [] = (Some l, []).
Proof.
  revert n2. induction n1 as [|a n1 IH1]; intros n2; induction n2 as [|b n2 IH2];
    cbn [and_loop]; try by exists [].
  destruct (_ =? _).
  - destruct (IH1 n2). destruct (truthy _); [by eapply alloc_cons_total|eauto].
  - destruct (_ <? _); [exact IH2|apply IH1].
Qed.

Lemma xor_loop_total n1 n2 : exists l, xor_loop n1 n2 [] = (Some l, []).
Proof.
  revert n2. induction n1 as [|a n1 IH1]; intros n2; induction n2 as [|b n2 [l2 IH2]];
    cbn [xor_loop].
  - by exists [].
  - by eapply link_nonzero_total.
  - destruct (IH1 []). by eapply link_nonzero_total.
  - destruct (_ =? _); [destruct (IH1 n2); by eapply link_nonzero_total|].
    destruct (_ <? _); [destruct (IH1 (b :: n2)); by eapply link_nonzero_total|].
    by eapply link_nonzero_total.
Qed.

(** ** [highbit] is determined by the words *)

Lemma last_highbit_cons a l : l <> [] -> last_highbit (a :: l) = last_highbit l.
Proof. intros Hl. unfold last_highbit. by destruct l. Qed.

Lemma last_highbit_cons2 a b l : last_highbit (a :: b :: l) = last_highbit (b :: l).
Proof. by apply last_highbit_cons. Qed.

Lemma last_highbit_bound l k : nodes_ok l -> word_at l k <> 0 -> k + MAPSIZE <= last_highbit l.
Proof.
  revert k. induction l as [|a l IH]; cbn [word_at nodes_ok]; [done|]. intros k (Ha & Hab & Hl) Hk.
  destruct l as [|b l].
  - cbn [word_at] in Hk. rewrite (last_highbit_some [a] a) by done.
    destruct (Z.eqb_spec (startbit a) k); lia.
  - rewrite last_highbit_cons by done.
    destruct (Z.eqb_spec (startbit a) k); [|auto]. subst.
    apply above_cons in Hab as [Hab _].
    transitivity (startbit b + MAPSIZE); [lia|]. apply IH; [done|]. cbn [word_at].
    rewrite Z.eqb_refl. pose proof (nodes_ok_map _ _ Hl). lia.
Qed.

Lemma last_highbit_word l :
  nodes_ok l -> l <> [] -> word_at l (last_highbit l - MAPSIZE) <> 0.
Proof.
  intros Hl Hne. destruct (last l) as [n|] eqn:E; [|by apply last_None in E].
  rewrite (last_highbit_some l n) by done. replace (_ + _ - _) with (startbit n) by lia.
  pose proof (last_Some_elem_of _ _ E) as Hn. rewrite word_at_member by done.
  pose proof (ok_map _ (nodes_ok_member _ _ Hl Hn)). lia.
Qed.

Lemma last_highbit_nonneg l : nodes_ok l -> 0 <= last_highbit l < 2 ^ 32.
Proof. intros. unfold last_highbit. destruct (last l); [apply u32_range|lia]. Qed.

Lemma last_highbit_pos l : nodes_ok l -> l <> [] -> MAPSIZE <= last_highbit l.
Proof.
  intros Hl Hne. destruct l as [|a l]; [done|].
  transitivity (startbit a + MAPSIZE); [destruct Hl as ([] & _); lia|].
  apply last_highbit_bound; [done|]. cbn [word_at]. rewrite Z.eqb_refl.
  pose proof (nodes_ok_map _ _ Hl). lia.
Qed.

Lemma last_highbit_max l l1 l2 :
  nodes_ok l -> nodes_ok l1 -> nodes_ok l2 ->
  (forall k, word_at l k = 0 <-> word_at l1 k = 0 /\ word_at l2 k = 0) ->
  last_highbit l = Z.max (last_highbit l1) (last_highbit l2).
Proof.
  intros H H1 H2 Hw. apply Z.le_antisymm.
  - destruct (decide (l = [])) as [->|Hl0].
    { pose proof (last_highbit_nonneg l1 H1). change (last_highbit []) with 0. lia. }
    pose proof (last_highbit_word l H Hl0) as Hne.
    destruct (decide (word_at l1 (last_highbit l - MAPSIZE) = 0)) as [E1|E1].
    + assert (word_at l2 (last_highbit l - MAPSIZE) <> 0) as E2.
      { intros E2. by apply Hne, Hw. }
      apply last_highbit_bound in E2; [lia|done].
    + apply last_highbit_bound in E1; [lia|done].
  - assert (forall l', nodes_ok l' -> (forall k, word_at l' k <> 0 -> word_at l k <> 0) ->
              last_highbit l' <= last_highbit l) as Hle.
    { intros l' Hl' Hs. destruct (decide (l' = [])) as [->|Hne'].
      { pose proof (last_highbit_nonneg l H). change (last_highbit []) with 0. lia. }
      pose proof (last_highbit_bound l _ H (Hs _ (last_highbit_word l' Hl' Hne'))). lia. }
    apply Z.max_lub; apply Hle; try done; intros k Hk E; apply Hk; by apply Hw in E as [? ?].
Qed.

(** ** Building operations *)

(** [ebitmap_or] computes the union of two bitmaps: it keeps the representation
    invariant, its result holds exactly the bits of either argument, it fails only
    when [malloc] does, and then it leaves an empty bitmap. *)
Lemma ebitmap_or_correct e1 e2 o :
  ebitmap_wf e1 -> ebitmap_wf e2 ->
  builds o (ebitmap_or e1 e2 o) (fun b => ebitmap_mem e1 b || ebitmap_mem e2 b).
Proof.
  intros [H1 Hh1] [H2 Hh2]. unfold ebitmap_or, builds.
  destruct (or_loop _ _ o) as [[l|] o'] eqn:E.
  - pose proof (or_loop_spec _ _ _ _ _ H1 H2 E) as (Hl & Hw & _). split_and!; [| |done].
    + split; [done|]. cbn [highbit node]. rewrite Hh1, Hh2.
      rewrite (last_highbit_max l (node e1) (node e2)); try done.
      * case_Z; lia.
      * intros k. rewrite Hw. apply Z.lor_eq_0_iff.
    + left. split; [done|].
      apply (nodes_bit_op2 _ _ _ Z.lor orb); try done. intros; apply Z.lor_spec.
  - split_and!; [apply ebitmap_init_wf|by right|].
    intros ->. destruct (or_loop_total (node e1) (node e2)). congruence.
Qed.

Lemma builds_from_loop o l o' r e1 e2 fw fb :
  nodes_ok e1 -> nodes_ok e2 -> r = (Some l, o') -> merged fw e1 e2 l ->
  (forall x y i, 0 <= i -> Z.testbit (fw x y) i = fb (Z.testbit x i) (Z.testbit y i)) ->
  builds o (0, Ebitmap l (last_highbit l), o') (fun b => fb (nodes_bit e1 b) (nodes_bit e2 b)).
Proof.
  intros ?? -> (Hl & Hw & _) Hf. split_and!; [by split| |done]. left. split; [done|].
  by apply (nodes_bit_op2 _ _ _ fw fb).
Qed.

Lemma builds_fail o o' f : (o = [] -> False) -> builds o (- ENOMEM, ebitmap_init, o') f.
Proof. intros Ho. split_and!; [apply ebitmap_init_wf|by right|intros ->; by destruct Ho]. Qed.

(** [ebitmap_and] computes the intersection. *)
Lemma ebitmap_and_correct e1 e2 o :
  ebitmap_wf e1 -> ebitmap_wf e2 ->
  builds o (ebitmap_and e1 e2 o) (fun b => ebitmap_mem e1 b && ebitmap_mem e2 b).
Proof.
  intros [H1 Hh1] [H2 Hh2]. unfold ebitmap_and.
  destruct (and_loop _ _ o) as [[l|] o'] eqn:E.
  - eapply (builds_from_loop _ _ _ _ _ _ Z.land andb); eauto using and_loop_spec.
    intros; apply Z.land_spec.
  - apply builds_fail. intros ->. destruct (and_loop_total (node e1) (node e2)). congruence.
Qed.

(** [ebitmap_xor] computes the symmetric difference. *)
Lemma ebitmap_xor_correct e1 e2 o :
  ebitmap_wf e1 -> ebitmap_wf e2 ->
  builds o (ebitmap_xor e1 e2 o) (fun b => xorb (ebitmap_mem e1 b) (ebitmap_mem e2 b)).
Proof.
  intros [H1 Hh1] [H2 Hh2]. unfold ebitmap_xor.
  destruct (xor_loop _ _ o) as [[l|] o'] eqn:E.
  - eapply (builds_from_loop _ _ _ _ _ _ Z.lxor xorb); eauto using xor_loop_spec.
    intros; apply Z.lxor_spec.
  - apply builds_fail. intros ->. destruct (xor_loop_total (node e1) (node e2)). congruence.
Qed.
