(* ===== verification/EbitmapQuery.v ===== *)
(** * Correctness of the bitmap queries

    [ebitmap_get_bit], [ebitmap_cmp], [ebitmap_contains], [ebitmap_match_any],
    [ebitmap_highest_set_bit], [ebitmap_cardinality] and the bit iterator, each
    against the set of bits of the bitmap. *)

From S2P Require Import Prelude Ebitmap EbitmapSpec.

(** ** Reading one bit *)

Lemma testbit_mask m k : 0 <= k < 64 -> truthy (Z.land m (u64 (Z.shiftl MAPBIT k))) = Z.testbit m k.
Proof.
  intros Hk. unfold MAPBIT. rewrite shiftl_1_u64 by done.
  destruct (Z.testbit m k) eqn:E.
  - apply truthy_true. intros H0. apply (f_equal (fun z => Z.testbit z k)) in H0.
    rewrite Z.land_spec, shiftl_1_testbit, E, Z.testbit_0_l in H0 by lia.
    by rewrite bool_decide_eq_true_2 in H0.
  - apply truthy_false. apply Z.bits_inj'. intros i Hi.
    rewrite Z.land_spec, shiftl_1_testbit, Z.testbit_0_l by lia.
    case_bool_decide; [subst; by rewrite E|apply andb_false_r].
Qed.

Lemma mask_at_node a b :
  node_ok a -> startbit a <= b < startbit a + MAPSIZE ->
  truthy (Z.land (nmap a) (u64 (Z.shiftl MAPBIT (u32 (b - startbit a))))) = node_bit a b.
Proof.
  intros [] Hb. unfold MAPSIZE in *. rewrite u32_small by lia. rewrite testbit_mask by lia.
  unfold node_bit. by rewrite bool_decide_eq_true_2.
Qed.

Lemma node_end_usz a : node_ok a -> usz (startbit a + MAPSIZE) = startbit a + MAPSIZE.
Proof. intros []. apply usz_small. unfold MAPSIZE in *. lia. Qed.

Lemma get_bit_loop_spec l b :
  nodes_ok l -> get_bit_loop l b = if nodes_bit l b then 1 else 0.
Proof.
  induction l as [|a l IH]; [done|]. intros Hok. pose proof Hok as (Ha & Hab & Hl).
  cbn [get_bit_loop nodes_bit existsb]. fold (nodes_bit l b).
  destruct (Z.leb_spec (startbit a) b) as [Hle|Hgt].
  - rewrite node_end_usz by done. destruct (Z.ltb_spec b (startbit a + MAPSIZE)).
    + rewrite mask_at_node by done.
      rewrite (nodes_bit_above l (startbit a)) by (auto using ok_aligned; lia).
      by rewrite orb_false_r.
    + replace (node_bit a b) with false; [auto|]. symmetry. apply not_true_is_false.
      intros ?%node_bit_range. lia.
  - replace (node_bit a b) with false.
    + rewrite (nodes_bit_above l (startbit a)) by (auto using ok_aligned; unfold MAPSIZE; lia).
      done.
    + symmetry. apply not_true_is_false. intros ?%node_bit_range. lia.
Qed.

Lemma nodes_bit_highbit l b : nodes_ok l -> nodes_bit l b = true -> 0 <= b < last_highbit l.
Proof.
  intros Hl Hb. pose proof Hb as (n & Hn & Hbit)%existsb_exists.
  apply list_elem_of_In in Hn. apply node_bit_range in Hbit.
  pose proof (nodes_ok_member _ _ Hl Hn) as Hok.
  pose proof (last_highbit_bound l (startbit n) Hl) as Hbd.
  rewrite word_at_member in Hbd by done. destruct Hok. specialize (Hbd ltac:(lia)). lia.
Qed.

(** [ebitmap_get_bit] answers membership for every bit number. *)
Lemma ebitmap_get_bit_correct e b :
  ebitmap_wf e -> ebitmap_get_bit e b = if ebitmap_mem e b then 1 else 0.
Proof.
  intros [Hl Hh]. unfold ebitmap_get_bit. rewrite Hh, get_bit_loop_spec by done.
  destruct (Z.ltb_spec (last_highbit (node e)) b); [|done].
  unfold ebitmap_mem. destruct (nodes_bit _ b) eqn:E; [|done].
  apply nodes_bit_highbit in E; [lia|done].
Qed.

(** ** Equality: the representation is canonical *)

Lemma cmp_loop_eq n1 n2 : cmp_loop n1 n2 = if decide (n1 = n2) then 1 else 0.
Proof.
  revert n2. induction n1 as [|[sa ma] n1 IH]; intros [|[sb mb] n2]; cbn [cmp_loop startbit nmap];
    try done.
  rewrite IH. destruct (Z.eqb_spec sa sb), (Z.eqb_spec ma mb); cbn;
    repeat case_decide; naive_solver.
Qed.

Lemma nodes_ok_ext n1 n2 :
  nodes_ok n1 -> nodes_ok n2 -> (forall k, word_at n1 k = word_at n2 k) -> n1 = n2.
Proof.
  revert n2. induction n1 as [|a n1 IH]; intros [|b n2] H1 H2 Hw; [done| | |].
  - specialize (Hw (startbit b)). cbn in Hw. rewrite Z.eqb_refl in Hw.
    pose proof (nodes_ok_map _ _ H2). lia.
  - specialize (Hw (startbit a)). cbn in Hw. rewrite Z.eqb_refl in Hw.
    pose proof (nodes_ok_map _ _ H1). lia.
  - assert (startbit a = startbit b) as E.
    { pose proof (nodes_ok_map _ _ H1). pose proof (nodes_ok_map _ _ H2).
      destruct (Z.lt_total (startbit a) (startbit b)) as [?|[?|?]]; [|done|].
      - specialize (Hw (startbit a)).
        rewrite (word_at_above (b :: n2)) in Hw by (by apply nodes_ok_above).
        cbn [word_at] in Hw. rewrite Z.eqb_refl in Hw. lia.
      - specialize (Hw (startbit b)).
        rewrite (word_at_above (a :: n1)) in Hw by (by apply nodes_ok_above).
        cbn [word_at] in Hw. rewrite Z.eqb_refl in Hw. lia. }
    assert (nmap a = nmap b) as Em.
    { specialize (Hw (startbit a)). cbn [word_at] in Hw. rewrite E, !Z.eqb_refl in Hw. done. }
    assert (a = b) as <- by (destruct a, b; cbn in *; congruence). f_equal.
    destruct H1 as (Ha & Hab1 & H1), H2 as (_ & Hab2 & H2). apply IH; try done.
    intros k. specialize (Hw k). cbn [word_at] in Hw.
    destruct (Z.eqb_spec (startbit a) k); [|done]. subst. by rewrite !word_at_above.
Qed.

Lemma word_at_bits n1 n2 :
  nodes_ok n1 -> nodes_ok n2 -> (forall b, nodes_bit n1 b = nodes_bit n2 b) ->
  forall k, word_at n1 k = word_at n2 k.
Proof.
  intros H1 H2 Hb k. destruct (decide (k mod MAPSIZE = 0)) as [Hk|Hk].
  - apply (word_ext 64); try by apply word_at_range. intros i Hi.
    specialize (Hb (k + i)). rewrite !nodes_bit_word in Hb by done.
    rewrite !(chunk_eq k (k + i)) in Hb by (done || unfold MAPSIZE; lia).
    by replace (k + i - k) with i in Hb by lia.
  - by rewrite !word_at_misaligned.
Qed.

Lemma ebitmap_ext e1 e2 :
  ebitmap_wf e1 -> ebitmap_wf e2 ->
  (forall b, ebitmap_mem e1 b = ebitmap_mem e2 b) -> e1 = e2.
Proof.
  intros [H1 Hh1] [H2 Hh2] Hb.
  assert (node e1 = node e2) as E by (by apply nodes_ok_ext, word_at_bits).
  destruct e1, e2; cbn in *. congruence.
Qed.

Lemma ebitmap_init_empty : ebitmap_wf ebitmap_init /\ forall b, ebitmap_mem ebitmap_init b = false.
Proof. split; [split; [done|done]|done]. Qed.

(** [ebitmap_cmp] decides equality of the two sets of bits (two well-formed
    bitmaps with the same bits are the same list of words). *)
Lemma ebitmap_cmp_correct e1 e2 :
  ebitmap_wf e1 -> ebitmap_wf e2 ->
  ebitmap_cmp e1 e2 = 1 <-> (forall b, ebitmap_mem e1 b = ebitmap_mem e2 b).
Proof.
  intros H1 H2. unfold ebitmap_cmp. rewrite cmp_loop_eq. split.
  - destruct (Z.eqb_spec (highbit e1) (highbit e2)); cbn; [|done].
    case_decide as E; [|done]. intros _ b. unfold ebitmap_mem. by rewrite E.
  - intros Hb. rewrite (ebitmap_ext e1 e2 H1 H2 Hb), Z.eqb_refl. cbn. by rewrite decide_True.
Qed.

(** ** Inclusion and intersection tests *)

Lemma land_sub_iff x y :
  0 <= x < 2 ^ 64 -> 0 <= y < 2 ^ 64 ->
  Z.land x y = y <-> (forall i, 0 <= i < 64 -> Z.testbit y i = true -> Z.testbit x i = true).
Proof.
  intros Hx Hy. split.
  - intros <- i Hi. rewrite Z.land_spec. by intros [? _]%andb_true_iff.
  - intros H. apply (word_ext 64); [by apply land_range; lia|done|].
    intros i Hi. rewrite Z.land_spec. specialize (H i Hi).
    destruct (Z.testbit y i); [by rewrite H|apply andb_false_r].
Qed.

(** Inclusion word by word. *)
Definition words_sub (n2 n1 : list ebitmap_node) : Prop :=
  forall k, Z.land (word_at n1 k) (word_at n2 k) = word_at n2 k.

Lemma words_sub_bits n1 n2 :
  nodes_ok n1 -> nodes_ok n2 ->
  words_sub n2 n1 <-> (forall b, nodes_bit n2 b = true -> nodes_bit n1 b = true).
Proof.
  intros H1 H2. split.
  - intros Hw b. rewrite !nodes_bit_word by done. specialize (Hw (chunk b)).
    rewrite land_sub_iff in Hw by (by apply word_at_range). apply Hw.
    pose proof (chunk_le b). unfold MAPSIZE in *. lia.
  - intros Hb k. apply land_sub_iff; try by apply word_at_range. intros i Hi.
    destruct (decide (k mod MAPSIZE = 0)) as [Hk|Hk].
    + specialize (Hb (k + i)). rewrite !nodes_bit_word in Hb by done.
      rewrite !(chunk_eq k (k + i)) in Hb by (done || unfold MAPSIZE; lia).
      by replace (k + i - k) with i in Hb by lia.
    + rewrite (word_at_misaligned n2) by done. by rewrite Z.testbit_0_l.
Qed.

Lemma words_sub_skip a n1 n2 :
  nodes_ok (a :: n1) -> above (startbit a) n2 -> words_sub n2 (a :: n1) <-> words_sub n2 n1.
Proof.
  intros H1 H2. unfold words_sub. split; intros H k; specialize (H k); cbn [word_at] in *;
    destruct (Z.eqb_spec (startbit a) k); subst; try done;
    rewrite (word_at_above n2) by done; apply Z.land_0_r.
Qed.

Lemma contains_loop_spec n1 n2 :
  nodes_ok n1 -> nodes_ok n2 -> contains_loop n1 n2 = 1 <-> words_sub n2 n1.
Proof.
  revert n2. induction n1 as [|a n1 IH]; intros [|b n2] H1 H2; cbn [contains_loop].
  - split; [by intros _ k|done].
  - split; [done|]. intros H. specialize (H (startbit b)). cbn [word_at] in H.
    rewrite Z.eqb_refl, Z.land_0_l in H. pose proof (nodes_ok_map _ _ H2). lia.
  - split; [intros _ k; apply Z.land_0_r|done].
  - pose proof (nodes_ok_map _ _ H1). pose proof (nodes_ok_map _ _ H2).
    destruct (Z.leb_spec (startbit a) (startbit b)).
    + destruct (Z.ltb_spec (startbit a) (startbit b)).
      { rewrite words_sub_skip by eauto using nodes_ok_above. apply IH; [apply H1|done]. }
      assert (startbit a = startbit b) as E by lia.
      pose proof H1 as (_ & Ha1 & Ht1). pose proof H2 as (_ & Ha2 & Ht2).
      destruct (Z.eqb_spec (Z.land (nmap a) (nmap b)) (nmap b)) as [Em|Em]; cbn.
      * rewrite IH by done. unfold words_sub. split; intros H' k; specialize (H' k);
          cbn [word_at] in *; rewrite <-E in *; destruct (Z.eqb_spec (startbit a) k); try done.
        subst. rewrite (word_at_above n2) by done. apply Z.land_0_r.
      * split; [done|]. intros H'. specialize (H' (startbit a)). cbn [word_at] in H'.
        by rewrite <-E, !Z.eqb_refl in H'.
    + split; [done|]. intros H'. specialize (H' (startbit b)).
      rewrite (word_at_above (a :: n1)) in H' by (apply nodes_ok_above; [done|lia]).
      cbn [word_at] in H'. rewrite Z.eqb_refl, Z.land_0_l in H'. lia.
Qed.

(** [ebitmap_contains(e1, e2)] holds exactly when [e2] is a subset of [e1]; the
    comparison of the high bits never rejects a subset. *)
Lemma ebitmap_contains_correct e1 e2 :
  ebitmap_wf e1 -> ebitmap_wf e2 ->
  ebitmap_contains e1 e2 = 1 <->
  (forall b, ebitmap_mem e2 b = true -> ebitmap_mem e1 b = true).
Proof.
  intros [H1 Hh1] [H2 Hh2]. unfold ebitmap_contains, ebitmap_mem.
  rewrite <-words_sub_bits, <-contains_loop_spec by done.
  destruct (Z.ltb_spec (highbit e1) (highbit e2)) as [Hlt|]; [|done].
  split; [done|]. rewrite contains_loop_spec by done. intros Hs. exfalso.
  assert (node e2 <> []) as Hne.
  { intros E. rewrite Hh2, E in Hlt. pose proof (last_highbit_nonneg _ H1).
    change (last_highbit []) with 0 in Hlt. lia. }
  pose proof (last_highbit_word _ H2 Hne) as Hw. specialize (Hs (last_highbit (node e2) - MAPSIZE)).
  pose proof (last_highbit_bound _ (last_highbit (node e2) - MAPSIZE) H1) as Hb.
  destruct (decide (word_at (node e1) (last_highbit (node e2) - MAPSIZE) = 0)) as [E|E].
  - rewrite E, Z.land_0_l in Hs. congruence.
  - specialize (Hb E). lia.
Qed.

Lemma match_any_loop_spec n1 n2 :
  nodes_ok n1 -> nodes_ok n2 ->
  match_any_loop n1 n2 = 1 <-> exists k, Z.land (word_at n1 k) (word_at n2 k) <> 0.
Proof.
  revert n2. induction n1 as [|a n1 IH1]; intros n2; induction n2 as [|b n2 IH2];
    intros H1 H2; cbn [match_any_loop].
  - split; [done|]. by intros [k Hk].
  - split; [done|]. intros [k Hk]. cbn in Hk. by rewrite Z.land_0_l in Hk.
  - split; [done|]. intros [k Hk]. by rewrite Z.land_0_r in Hk.
  - pose proof H1 as (_ & Ha1 & Ht1). pose proof H2 as (_ & Ha2 & Ht2).
    destruct (Z.ltb_spec (startbit a) (startbit b)); [|destruct (Z.ltb_spec (startbit b) (startbit a))].
    + rewrite IH1 by done. assert (forall k, Z.land (word_at n1 k) (word_at (b :: n2) k) =
        Z.land (word_at (a :: n1) k) (word_at (b :: n2) k)) as Hk; [|by setoid_rewrite Hk].
      intros k. rewrite (word_at_cons a n1). destruct (Z.eqb_spec (startbit a) k); [|done]. subst.
      rewrite (word_at_above (b :: n2)) by (by apply nodes_ok_above). by rewrite !Z.land_0_r.
    + rewrite IH2 by done. assert (forall k, Z.land (word_at (a :: n1) k) (word_at n2 k) =
        Z.land (word_at (a :: n1) k) (word_at (b :: n2) k)) as Hk; [|by setoid_rewrite Hk].
      intros k. rewrite (word_at_cons b n2). destruct (Z.eqb_spec (startbit b) k); [|done]. subst.
      rewrite (word_at_above (a :: n1)) by (by apply nodes_ok_above). by rewrite !Z.land_0_l.
    + assert (startbit a = startbit b) as E by lia. destruct (truthy _) eqn:Ht.
      * apply truthy_true in Ht. split; [intros _|done]. exists (startbit a). cbn [word_at].
        by rewrite <-E, !Z.eqb_refl.
      * apply truthy_false in Ht. rewrite IH1 by done. split; intros [k Hk]; exists k;
          revert Hk; cbn [word_at]; rewrite <-E; destruct (Z.eqb_spec (startbit a) k); try done.
        subst. rewrite !word_at_above; [done|by rewrite E|done].
Qed.

(** [ebitmap_match_any] holds exactly when the two bitmaps share a bit. *)
Lemma ebitmap_match_any_correct e1 e2 :
  ebitmap_wf e1 -> ebitmap_wf e2 ->
  ebitmap_match_any e1 e2 = 1 <->
  (exists b, ebitmap_mem e1 b = true /\ ebitmap_mem e2 b = true).
Proof.
  intros [H1 Hh1] [H2 Hh2]. unfold ebitmap_match_any, ebitmap_mem.
  rewrite match_any_loop_spec by done. split.
  - intros [k Hk]. pose proof (word_at_range (node e1) k H1). pose proof (word_at_range (node e2) k H2).
    apply (word_nonzero_bit 64) in Hk as (i & Hi & Hbit); [|apply land_range; lia].
    rewrite Z.land_spec, andb_true_iff in Hbit.
    destruct (decide (k mod MAPSIZE = 0)) as [Hm|Hm].
    + exists (k + i). rewrite !nodes_bit_word by done.
      rewrite (chunk_eq k (k + i)) by (done || unfold MAPSIZE; lia).
      by replace (k + i - k) with i by lia.
    + rewrite (word_at_misaligned (node e1)) in Hbit by done.
      rewrite Z.testbit_0_l in Hbit. by destruct Hbit.
  - intros (b & Hb1 & Hb2). rewrite !nodes_bit_word in * by done. exists (chunk b).
    intros E. apply (f_equal (fun z => Z.testbit z (b - chunk b))) in E.
    by rewrite Z.land_spec, Hb1, Hb2, Z.testbit_0_l in E.
Qed.

(** ** The highest bit *)

Lemma highest_loop_spec fuel m pos :
  0 < m < 2 ^ Z.of_nat fuel -> 0 <= pos -> pos + Z.log2 m < 2 ^ 32 ->
  highest_loop fuel m pos = pos + Z.log2 m.
Proof.
  revert m pos. induction fuel as [|fuel IH]; intros m pos Hm Hp Hb; [cbn in Hm; lia|].
  cbn [highest_loop]. pose proof (Z.log2_shiftr m 1 ltac:(lia)) as Hlog.
  rewrite Z.shiftr_div_pow2 in * by lia. change (2 ^ 1) with 2 in *.
  pose proof (Z.div_mod m 2). pose proof (Z.mod_pos_bound m 2).
  destruct (truthy (m / 2)) eqn:Ht.
  - apply truthy_true in Ht. assert (1 <= Z.log2 m) by (apply Z.log2_le_pow2; lia).
    rewrite u32_small by lia. rewrite IH; try lia.
    rewrite Nat2Z.inj_succ, Z.pow_succ_r in Hm by lia. lia.
  - apply truthy_false in Ht. assert (m = 1) as -> by lia. cbn. lia.
Qed.

(** [ebitmap_highest_set_bit] is the largest bit of a non-empty bitmap (and 0 for
    the empty one). *)
Lemma ebitmap_highest_set_bit_correct e :
  ebitmap_wf e ->
  (node e = [] -> ebitmap_highest_set_bit e = 0) /\
  (node e <> [] ->
   ebitmap_mem e (ebitmap_highest_set_bit e) = true /\
   forall b, ebitmap_mem e b = true -> b <= ebitmap_highest_set_bit e).
Proof.
  intros [Hl Hh]. unfold ebitmap_highest_set_bit. split; [by intros ->|]. intros Hne.
  destruct (last (node e)) as [n|] eqn:E; [|by apply last_None in E].
  pose proof (last_Some_elem_of _ _ E) as Hn. pose proof (nodes_ok_member _ _ Hl Hn) as Hok.
  pose proof Hok as []. assert (0 <= Z.log2 (nmap n) < 64) as Hlog.
  { split; [apply Z.log2_nonneg|]. apply Z.log2_lt_pow2; lia. }
  change (Z.of_nat 64) with 64 in *. rewrite highest_loop_spec by (cbn; lia).
  rewrite Z.add_0_l. unfold MAPSIZE in *. rewrite u32_small by lia.
  assert (chunk (startbit n + Z.log2 (nmap n)) = startbit n) as Hc by
    (apply chunk_eq; unfold MAPSIZE; lia).
  split.
  - unfold ebitmap_mem. rewrite nodes_bit_word, Hc, word_at_member by done.
    replace (startbit n + Z.log2 (nmap n) - startbit n) with (Z.log2 (nmap n)) by lia.
    apply Z.bit_log2. lia.
  - intros b Hb. unfold ebitmap_mem in Hb. pose proof Hb as Hb2.
    apply nodes_bit_highbit in Hb2; [|done]. rewrite (last_highbit_some _ n) in Hb2 by done.
    destruct (decide (b <= startbit n + Z.log2 (nmap n))) as [|Hgt]; [done|]. exfalso.
    assert (startbit n <= b < startbit n + MAPSIZE) as Hr by (unfold MAPSIZE in *; lia).
    rewrite nodes_bit_word, (chunk_eq (startbit n) b), word_at_member in Hb by done.
    rewrite Z.bits_above_log2 in Hb by lia. done.
Qed.

(** ** Enumerating the bits *)

Definition node_bits (n : ebitmap_node) : list Z :=
  filter (fun b => node_bit n b = true) (seqZ (startbit n) MAPSIZE).

Fixpoint nodes_bits (l : list ebitmap_node) : list Z :=
  match l with
  | [] => []
  | a :: l' => node_bits a ++ nodes_bits l'
  end.

(** The bits of a bitmap in increasing order. *)
Definition ebitmap_bits (e : ebitmap) : list Z :=
  filter (fun b => ebitmap_mem e b = true) (seqZ 0 (highbit e)).

Lemma elem_of_node_bits n b : b ∈ node_bits n <-> node_bit n b = true.
Proof.
  unfold node_bits. rewrite list_elem_of_filter, elem_of_seqZ. split; [tauto|].
  intros Hb. split; [done|]. by apply node_bit_range.
Qed.

Lemma elem_of_nodes_bits l b : b ∈ nodes_bits l <-> nodes_bit l b = true.
Proof.
  induction l as [|a l IH]; cbn; [by rewrite elem_of_nil|].
  by rewrite elem_of_app, orb_true_iff, elem_of_node_bits, IH.
Qed.

Lemma sorted_seqZ m n : StronglySorted Z.lt (seqZ m n).
Proof.
  destruct (decide (0 <= n)) as [Hn|Hn]; [|by rewrite seqZ_nil by lia; constructor].
  revert m. pattern n. apply natlike_ind; [|intros x Hx IH|done]; intros m; [constructor|].
  rewrite seqZ_cons by lia. constructor; [by rewrite Z.pred_succ|].
  apply Forall_forall. intros y [??]%elem_of_seqZ. lia.
Qed.

Lemma sorted_filter (P : Z -> Prop) `{!forall x, Decision (P x)} l :
  StronglySorted Z.lt l -> StronglySorted Z.lt (filter P l).
Proof.
  induction 1 as [|a l Hl IH Ha]; [constructor|]. rewrite filter_cons.
  case_decide; [|done]. constructor; [done|].
  apply Forall_forall. intros x [_ Hx]%list_elem_of_filter. by eapply Forall_forall in Ha.
Qed.

Lemma sorted_app l1 l2 :
  StronglySorted Z.lt l1 -> StronglySorted Z.lt l2 ->
  (forall x y, x ∈ l1 -> y ∈ l2 -> x < y) -> StronglySorted Z.lt (l1 ++ l2).
Proof.
  induction 1 as [|a l1 Hl1 IH Ha]; intros H2 Hxy; [done|]. cbn. constructor.
  - apply IH; [done|]. intros x y Hx Hy. apply Hxy; [by right|done].
  - apply Forall_app. split; [done|]. apply Forall_forall. intros y Hy. apply Hxy; [by left|done].
Qed.

Lemma sorted_nodes_bits l : nodes_ok l -> StronglySorted Z.lt (nodes_bits l).
Proof.
  induction l as [|a l IH]; [constructor|]. intros (Ha & Hab & Hl).
  change (nodes_bits (a :: l)) with (node_bits a ++ nodes_bits l). apply sorted_app.
  - apply sorted_filter, sorted_seqZ.
  - auto.
  - intros x y Hx%elem_of_node_bits%node_bit_range Hy%elem_of_nodes_bits.
    destruct (decide (x < y)); [done|].
    rewrite (nodes_bit_above l (startbit a)) in Hy by (auto using ok_aligned; lia). done.
Qed.

Lemma sorted_ext l1 l2 :
  StronglySorted Z.lt l1 -> StronglySorted Z.lt l2 -> (forall x, x ∈ l1 <-> x ∈ l2) -> l1 = l2.
Proof.
  revert l2. induction l1 as [|a l1 IH]; intros [|b l2] H1 H2 Hx; [done| | |].
  - exfalso. eapply not_elem_of_nil, (proj2 (Hx b)). by left.
  - exfalso. eapply not_elem_of_nil, (proj1 (Hx a)). by left.
  - inversion_clear H1 as [|? ? H1' Ha]. inversion_clear H2 as [|? ? H2' Hb].
    rewrite Forall_forall in Ha, Hb.
    assert (a = b) as <-.
    { pose proof (proj1 (Hx a) ltac:(by left)) as [?|?]%elem_of_cons; [done|].
      pose proof (proj2 (Hx b) ltac:(by left)) as [?|?]%elem_of_cons; [done|].
      pose proof (Ha b ltac:(done)). pose proof (Hb a ltac:(done)). lia. }
    f_equal. apply IH; try done. intros x. specialize (Hx x). rewrite !elem_of_cons in Hx.
    split; intros Hin.
    + destruct (proj1 Hx (or_intror Hin)) as [->|?]; [|done]. specialize (Ha a Hin). lia.
    + destruct (proj2 Hx (or_intror Hin)) as [->|?]; [|done]. specialize (Hb a Hin). lia.
Qed.

Lemma nodes_bits_filter e : ebitmap_wf e -> nodes_bits (node e) = ebitmap_bits e.
Proof.
  intros [Hl Hh]. apply sorted_ext.
  - by apply sorted_nodes_bits.
  - apply sorted_filter, sorted_seqZ.
  - intros b. unfold ebitmap_bits. rewrite elem_of_nodes_bits, list_elem_of_filter, elem_of_seqZ.
    split; [|by intros [? _]]. intros Hb. split; [done|].
    apply nodes_bit_highbit in Hb; [rewrite Hh; lia|done].
Qed.

Lemma popcount_double m : 0 < m -> popcount m = m mod 2 + popcount (m / 2).
Proof.
  intros Hm. destruct m as [|p|]; try lia. destruct p as [p|p|]; cbn [popcount pos_popcount].
  - replace (Z.pos p~1 / 2) with (Z.pos p) by (apply (Z.div_unique _ _ _ 1); lia).
    replace (Z.pos p~1 mod 2) with 1 by (apply (Z.mod_unique _ _ (Z.pos p)); lia). done.
  - replace (Z.pos p~0 / 2) with (Z.pos p) by (apply (Z.div_unique _ _ _ 0); lia).
    replace (Z.pos p~0 mod 2) with 0 by (apply (Z.mod_unique _ _ (Z.pos p)); lia). done.
  - done.
Qed.

Lemma popcount_bits n m s :
  0 <= m < 2 ^ Z.of_nat n ->
  popcount m = Z.of_nat (length (filter (fun b => Z.testbit m (b - s) = true) (seqZ s (Z.of_nat n)))).
Proof.
  revert m s. induction n as [|n IH]; intros m s Hm.
  - change (2 ^ Z.of_nat 0) with 1 in Hm. assert (m = 0) as -> by lia. done.
  - rewrite Nat2Z.inj_succ, Z.pow_succ_r in Hm by lia.
    rewrite seqZ_cons, Nat2Z.inj_succ, Z.pred_succ by lia. rewrite filter_cons.
    rewrite Z.sub_diag, Z.bit0_eqb.
    assert (popcount (m / 2) = Z.of_nat (length (filter (fun b => Z.testbit m (b - s) = true)
              (seqZ (Z.succ s) (Z.of_nat n))))) as E.
    { rewrite (IH (m / 2) (Z.succ s)) by
        (split; [apply Z.div_pos; lia|apply Z.div_lt_upper_bound; lia]).
      do 2 f_equal. apply list_filter_ext_in. intros b [Hb _]%elem_of_seqZ.
      replace (b - s) with (Z.succ (b - Z.succ s)) by lia.
      by rewrite <-(Z.div2_bits m) by lia. }
    assert (popcount m = m mod 2 + popcount (m / 2)) as -> by
      (destruct (decide (m = 0)) as [->|]; [done|apply popcount_double; lia]).
    rewrite E. pose proof (Z.mod_pos_bound m 2 ltac:(lia)).
    destruct (Z.eqb_spec (m mod 2) 1); case_decide; try done; cbn [length]; lia.
Qed.

Lemma popcount_node n : node_ok n -> popcount (nmap n) = Z.of_nat (length (node_bits n)).
Proof.
  intros []. rewrite (popcount_bits 64 _ (startbit n)) by (cbn; lia).
  unfold node_bits. do 2 f_equal. apply list_filter_ext_in.
  intros b Hb%elem_of_seqZ. change (Z.of_nat 64) with MAPSIZE in *. unfold node_bit.
  by rewrite bool_decide_eq_true_2.
Qed.

Lemma length_nodes_bits_lt l : nodes_ok l -> Z.of_nat (length (nodes_bits l)) < 2 ^ 32.
Proof.
  intros Hl. pose proof (last_highbit_nonneg l Hl).
  pose proof (nodes_bits_filter (Ebitmap l (last_highbit l)) ltac:(by split)) as E.
  cbn in E. rewrite E. unfold ebitmap_bits. cbn [highbit].
  pose proof (length_filter (fun b => ebitmap_mem (Ebitmap l (last_highbit l)) b = true)
                (seqZ 0 (last_highbit l))) as Hle.
  rewrite length_seqZ in Hle. lia.
Qed.

(** [ebitmap_cardinality] counts the bits of the bitmap, without wrapping around. *)
Lemma ebitmap_cardinality_correct e :
  ebitmap_wf e -> ebitmap_cardinality e = Z.of_nat (length (ebitmap_bits e)).
Proof.
  intros Hwf. rewrite <-nodes_bits_filter by done. destruct Hwf as [Hl _].
  unfold ebitmap_cardinality. pose proof (length_nodes_bits_lt _ Hl) as Hb.
  revert Hl Hb. generalize (node e). intros l.
  enough (forall c, 0 <= c -> nodes_ok l -> c + Z.of_nat (length (nodes_bits l)) < 2 ^ 32 ->
    fold_left (fun count n => u32 (count + popcount (nmap n))) l c =
    c + Z.of_nat (length (nodes_bits l))) as H by (intros; apply (H 0); lia || done).
  induction l as [|a l IH]; intros c Hc; [cbn; lia|]. intros (Ha & Hab & Hl) Hb.
  change (nodes_bits (a :: l)) with (node_bits a ++ nodes_bits l) in *.
  rewrite length_app in *. cbn [fold_left]. rewrite popcount_node by done.
  rewrite u32_small by lia. rewrite IH; [lia|lia|done|lia].
Qed.

(** ** The iterator *)

(** The bits of a node from [bit] on. *)
Definition node_bits_from (n : ebitmap_node) (bit : Z) : list Z :=
  filter (fun b => node_bit n b = true) (seqZ bit (startbit n + MAPSIZE - bit)).

Lemma node_bits_from_step a bit :
  bit < startbit a + MAPSIZE ->
  node_bits_from a bit =
  if node_bit a bit then bit :: node_bits_from a (bit + 1) else node_bits_from a (bit + 1).
Proof.
  intros Hb. unfold node_bits_from. rewrite seqZ_cons by lia. rewrite filter_cons.
  replace (Z.pred (startbit a + MAPSIZE - bit)) with (startbit a + MAPSIZE - (bit + 1)) by lia.
  replace (Z.succ bit) with (bit + 1) by lia.
  destruct (node_bit a bit); case_decide; done.
Qed.

Lemma node_bits_from_end a bit : startbit a + MAPSIZE <= bit -> node_bits_from a bit = [].
Proof. intros. unfold node_bits_from. by rewrite seqZ_nil by lia. Qed.

Lemma for_each_loop_spec fuel e a n bit :
  node e <> [] -> nodes_ok (a :: n) -> highbit e = last_highbit (a :: n) ->
  startbit a <= bit < startbit a + MAPSIZE ->
  (Z.to_nat (startbit a + MAPSIZE - bit) + 64 * length n <= fuel)%nat ->
  for_each_loop fuel e (a :: n) bit = Some (node_bits_from a bit ++ nodes_bits n).
Proof.
  intros Hne. revert a n bit. induction fuel as [|fuel IH]; intros a n bit Hok Hh Hb Hf; [lia|].
  assert (ebitmap_length e = highbit e) as Hlen by (unfold ebitmap_length; by destruct (node e)).
  pose proof Hok as (Ha & Hab & Hl). pose proof Ha as [].
  assert (startbit a + MAPSIZE <= highbit e) as Hend.
  { rewrite Hh. apply last_highbit_bound; [done|]. rewrite word_at_cons, Z.eqb_refl. lia. }
  cbn [for_each_loop]. rewrite Hlen. destruct (Z.ltb_spec bit (highbit e)); [cbn [negb]|lia].
  cbn [ebitmap_node_get_bit]. rewrite mask_at_node by done.
  rewrite node_bits_from_step by lia.
  assert (u32 (bit + 1) = bit + 1) as Hu by (apply u32_small; unfold MAPSIZE in *; lia).
  destruct (decide (bit + 1 < startbit a + MAPSIZE)) as [Hin|Hout].
  - assert (ebitmap_next (a :: n) bit = (a :: n, bit + 1)) as ->.
    { unfold ebitmap_next. destruct n; [by rewrite Hu|].
      rewrite usz_small by (unfold MAPSIZE in *; lia). case_Z; [lia|by rewrite Hu]. }
    rewrite IH by (done || lia). by destruct (node_bit a bit).
  - rewrite (node_bits_from_end a (bit + 1)) by lia. destruct n as [|b n].
    + assert (ebitmap_next [a] bit = ([a], bit + 1)) as -> by (cbn; by rewrite Hu).
      rewrite (last_highbit_some [a] a) in Hh by done.
      assert (for_each_loop fuel e [a] (bit + 1) = Some []) as ->.
      { destruct fuel; cbn [for_each_loop]; rewrite Hlen;
          (destruct (Z.ltb_spec (bit + 1) (highbit e)); [lia|done]). }
      by destruct (node_bit a bit).
    + assert (ebitmap_next (a :: b :: n) bit = (b :: n, startbit b)) as ->.
      { unfold ebitmap_next. rewrite usz_small by (unfold MAPSIZE in *; lia). case_Z; [done|lia]. }
      rewrite last_highbit_cons in Hh by done. unfold MAPSIZE in *. cbn [length] in Hf.
      rewrite IH by (done || unfold MAPSIZE; lia).
      assert (node_bits_from b (startbit b) = node_bits b) as ->.
      { unfold node_bits_from, node_bits. do 2 f_equal. lia. }
      by destruct (node_bit a bit).
Qed.

Lemma bits_NoDup e : NoDup (ebitmap_bits e).
Proof. unfold ebitmap_bits. apply NoDup_filter, NoDup_seqZ. Qed.

Lemma elem_of_bits e b : ebitmap_wf e -> b ∈ ebitmap_bits e <-> ebitmap_mem e b = true.
Proof. intros Hw. by rewrite <-nodes_bits_filter, elem_of_nodes_bits. Qed.

(** [ebitmap_for_each_positive_bit] terminates and runs its body exactly on the
    bits of the bitmap, in increasing order. *)
Lemma ebitmap_positive_bits_correct e :
  ebitmap_wf e -> ebitmap_positive_bits e = Some (ebitmap_bits e).
Proof.
  intros Hwf. rewrite <-nodes_bits_filter by done. destruct Hwf as [Hl Hh].
  unfold ebitmap_positive_bits, ebitmap_startbit. destruct (node e) as [|a n] eqn:E.
  - cbn. unfold ebitmap_length. by rewrite E.
  - rewrite for_each_loop_spec.
    + cbn [nodes_bits]. do 2 f_equal. unfold node_bits_from, node_bits. do 2 f_equal. lia.
    + by rewrite E.
    + done.
    + done.
    + unfold MAPSIZE. lia.
    + unfold MAPSIZE. cbn [length]. lia.
Qed.

(** [ebitmap_hamming_distance] is the number of bits in which two bitmaps differ
    (0 when they are equal), or -1 when memory runs out. *)
Lemma ebitmap_hamming_distance_correct e1 e2 o :
  ebitmap_wf e1 -> ebitmap_wf e2 ->
  let d := (ebitmap_hamming_distance e1 e2 o).1 in
  d = -1 /\ o <> [] \/
  exists diff : list Z,
    NoDup diff /\ d = Z.of_nat (length diff) /\
    (forall b, b ∈ diff <-> ebitmap_mem e1 b <> ebitmap_mem e2 b).
Proof.
  intros H1 H2. unfold ebitmap_hamming_distance. cbn zeta.
  destruct (truthy (ebitmap_cmp e1 e2)) eqn:Hc.
  - right. exists []. apply truthy_true in Hc.
    assert (ebitmap_cmp e1 e2 = 1) as Heq.
    { revert Hc. unfold ebitmap_cmp. rewrite cmp_loop_eq. repeat case_match; done. }
    rewrite ebitmap_cmp_correct in Heq by done.
    split_and!; [constructor|done|]. intros b. rewrite elem_of_nil, Heq. done.
  - pose proof (ebitmap_xor_correct e1 e2 o H1 H2) as Hx. unfold builds in Hx.
    destruct (ebitmap_xor e1 e2 o) as [[rc dst] o'].
    destruct Hx as (Hwf & [[-> Hm]|[-> _]] & Ho); cbn -[ebitmap_cardinality].
    + right. exists (ebitmap_bits dst). rewrite ebitmap_cardinality_correct by done.
      split_and!; [|done|].
      * apply NoDup_filter, NoDup_seqZ.
      * intros b. rewrite <-nodes_bits_filter, elem_of_nodes_bits by done.
        specialize (Hm b). unfold ebitmap_mem in *. rewrite Hm.
        by destruct (nodes_bit (node e1) b), (nodes_bit (node e2) b).
    + left. split; [done|]. intros ->. by specialize (Ho eq_refl).
Qed.
