(* ===== verification/EbitmapUpdate.v ===== *)
(** * Correctness of the bitmap updates

    [ebitmap_set_bit], [ebitmap_union], [ebitmap_cpy], [ebitmap_not],
    [ebitmap_andnot] and [ebitmap_init_range]. *)

From S2P Require Import Prelude Ebitmap EbitmapSpec EbitmapQuery.

(** ** Setting and clearing one bit *)

Definition set_word (value : bool) (w i : Z) : Z :=
  if value then Z.lor w (Z.shiftl 1 i) else Z.land w (u64 (Z.lnot (Z.shiftl 1 i))).

(** [e->highbit] when the rest of the list is [n] and [prev] precedes it. *)
Definition tail_high (prev : option ebitmap_node) (n : list ebitmap_node) : Z :=
  match n with
  | [] => match prev with Some p => u32 (usz (startbit p + MAPSIZE)) | None => 0 end
  | _ => last_highbit n
  end.

Lemma set_word_testbit value w i j :
  0 <= w < 2 ^ 64 -> 0 <= i < 64 -> 0 <= j < 64 ->
  Z.testbit (set_word value w i) j = if j =? i then value else Z.testbit w j.
Proof.
  intros Hw Hi Hj. unfold set_word. destruct value.
  - rewrite Z.lor_spec, shiftl_1_testbit by lia.
    case_Z; case_bool_decide; try lia; by rewrite ?orb_true_r, ?orb_false_r.
  - rewrite Z.land_spec, testbit_u64, Z.lnot_spec, shiftl_1_testbit by lia.
    rewrite (bool_decide_eq_true_2 (j < 64)) by lia.
    case_Z; case_bool_decide; try lia; by rewrite ?andb_true_r, ?andb_false_r.
Qed.

Lemma set_word_range value w i :
  0 <= w < 2 ^ 64 -> 0 <= i < 64 -> 0 <= set_word value w i < 2 ^ 64.
Proof.
  intros Hw Hi. unfold set_word. destruct value.
  - apply lor_range; [done|]. rewrite Z.shiftl_1_l.
    split; [lia|apply Z.pow_lt_mono_r; lia].
  - apply land_range; [done|]. apply u64_range.
Qed.

Lemma set_word_zero w i : 0 <= i < 64 -> 0 <= w < 2 ^ 64 -> set_word true w i <> 0.
Proof.
  intros Hi Hw E. apply (f_equal (fun z => Z.testbit z i)) in E.
  rewrite set_word_testbit, Z.eqb_refl, Z.testbit_0_l in E by lia. done.
Qed.

(** The contract of the list walk. *)
Definition set_bit_post (prev : option ebitmap_node) (n : list ebitmap_node) (bit : Z)
    (value : bool) (o : oracle) (r : Z * (list ebitmap_node * Z) * oracle) : Prop :=
  let '(rc, (l, hb), _) := r in
  nodes_ok l /\ hb = tail_high prev l /\
  (forall s, above s n -> s < chunk bit -> above s l) /\
  (rc = 0 /\ (forall k, word_at l k =
      if k =? chunk bit then set_word value (word_at n k) (bit - chunk bit) else word_at n k) \/
   rc = - ENOMEM /\ l = n /\ value = true /\ o <> []).

Lemma set_bit_insert prev n bit value o :
  0 <= bit -> chunk bit + MAPSIZE < 2 ^ 32 -> nodes_ok n -> above (chunk bit) n ->
  set_bit_post prev n bit value o
    (if negb value then (0, (n, tail_high prev n), o)
     else match malloc o with
          | (false, o') => (- ENOMEM, (n, tail_high prev n), o')
          | (true, o') =>
              let sb := align_bit bit in
              (0, (Node sb (u64 (Z.shiftl MAPBIT (u32 (bit - sb)))) :: n,
                   match n with [] => u32 (usz (sb + MAPSIZE)) | _ => tail_high prev n end), o')
          end).
Proof.
  intros Hb Hc Hn Ha. pose proof (chunk_le bit) as Hcl. unfold MAPSIZE in Hc, Hcl.
  assert (0 <= chunk bit) by (unfold chunk, MAPSIZE; pose proof (Z.div_pos bit 64); lia).
  assert (word_at n (chunk bit) = 0) as Hw0 by by apply word_at_above.
  destruct value; cbn [negb].
  - destruct (malloc o) as [[] o'] eqn:Em.
    + cbn zeta. rewrite align_bit_chunk, u32_small by lia. unfold MAPBIT.
      rewrite shiftl_1_u64 by lia.
      assert (nodes_ok (Node (chunk bit) (Z.shiftl 1 (bit - chunk bit)) :: n)) as Hok.
      { split_and!; [|done|done]. split; cbn; [lia|unfold MAPSIZE; lia|apply chunk_mod|].
        rewrite Z.shiftl_1_l. split; [apply pow2_pos; lia|apply Z.pow_lt_mono_r; lia]. }
      split_and!; [done| |intros s Hs ?; apply above_cons; by split|left; split; [done|]].
      * unfold tail_high. destruct n; [done|]. by rewrite last_highbit_cons2.
      * intros k. rewrite word_at_cons. cbn [startbit nmap]. rewrite (Z.eqb_sym k).
        destruct (Z.eqb_spec (chunk bit) k) as [<-|]; [|done]. by rewrite Hw0.
    + split_and!; [done|done|auto|]. right. split_and!; try done. by intros ->.
  - split_and!; [done|done|auto|]. left. split; [done|]. intros k.
    case_Z; [|done]. subst. rewrite Hw0. unfold set_word. by rewrite Z.land_0_l.
Qed.

Lemma set_bit_loop_spec prev n bit value o :
  0 <= bit -> chunk bit + MAPSIZE < 2 ^ 32 -> nodes_ok n ->
  set_bit_post prev n bit value o (set_bit_loop prev n (tail_high prev n) bit value o).
Proof.
  intros Hb Hc. revert prev. induction n as [|a n IH]; intros prev Hn.
  { apply (set_bit_insert prev []); auto with ebitmap. }
  pose proof Hn as (Ha & Hab & Hn'). pose proof (chunk_le bit) as Hcl.
  cbn [set_bit_loop]. destruct (Z.leb_spec (startbit a) bit) as [Hle|Hgt]; cycle 1.
  { apply set_bit_insert; try done. apply nodes_ok_above; [done|lia]. }
  rewrite node_end_usz by done. destruct (Z.ltb_spec bit (startbit a + MAPSIZE)) as [Hin|Hout].
  - assert (chunk bit = startbit a) as Ech by (apply chunk_eq; [apply Ha|done]).
    assert (0 <= bit - startbit a < 64) as Hi by (unfold MAPSIZE in *; lia).
    pose proof (ok_map _ Ha) as Hm. unfold MAPBIT. cbn zeta.
    rewrite u32_small, shiftl_1_u64 by lia.
    destruct value; [|destruct (truthy _) eqn:Ht].
    + change (Z.lor (nmap a) _) with (set_word true (nmap a) (bit - startbit a)).
      pose proof (set_word_range true (nmap a) (bit - startbit a) ltac:(lia) Hi).
      pose proof (set_word_zero (nmap a) (bit - startbit a) Hi ltac:(lia)).
      split_and!.
      * split_and!; [destruct Ha; split; cbn [startbit nmap]; done || lia|done|done].
      * unfold tail_high. unfold last_highbit. by destruct n.
      * intros s [Hs1 Hs2]%above_cons _. apply above_cons. by split.
      * left. split; [done|]. intros k. rewrite !word_at_cons, Ech, (Z.eqb_sym k). cbn [startbit nmap].
        by destruct (Z.eqb_spec (startbit a) k).
    + apply truthy_true in Ht.
      change (Z.land (nmap a) _) with (set_word false (nmap a) (bit - startbit a)) in *.
      pose proof (set_word_range false (nmap a) (bit - startbit a) ltac:(lia) Hi).
      split_and!.
      * split_and!; [destruct Ha; split; cbn [startbit nmap]; done || lia|done|done].
      * unfold tail_high. unfold last_highbit. by destruct n.
      * intros s [Hs1 Hs2]%above_cons _. apply above_cons. by split.
      * left. split; [done|]. intros k. rewrite !word_at_cons, Ech, (Z.eqb_sym k). cbn [startbit nmap].
        by destruct (Z.eqb_spec (startbit a) k).
    + apply truthy_false in Ht.
      change (Z.land (nmap a) _) with (set_word false (nmap a) (bit - startbit a)) in *.
      split_and!; [done| |by intros s [? ?]%above_cons _|].
      * unfold tail_high. destruct n; [done|]. by rewrite last_highbit_cons2.
      * left. split; [done|]. intros k. rewrite word_at_cons, Ech, (Z.eqb_sym k).
        destruct (Z.eqb_spec (startbit a) k); [|done]. subst. rewrite Ht. by apply word_at_above.
  - specialize (IH (Some a) Hn').
    assert (tail_high prev (a :: n) = tail_high (Some a) n) as ->.
    { unfold tail_high. destruct n; [done|]. by rewrite last_highbit_cons2. }
    destruct (set_bit_loop (Some a) n _ bit value o) as [[rc [l hb]] o'] eqn:E.
    destruct IH as (Hl & Hhb & Habv & Hrc).
    assert (startbit a < chunk bit) as Hlt.
    { destruct (decide (startbit a < chunk bit)); [done|].
      destruct (decide (startbit a = chunk bit)); [lia|].
      pose proof (aligned_gap (chunk bit) (startbit a) (chunk_mod bit) (ok_aligned _ Ha)). lia. }
    split_and!.
    + split_and!; [done|by apply Habv|done].
    + subst hb. unfold tail_high. destruct l; [done|]. by rewrite last_highbit_cons2.
    + intros s [Hs1 Hs2]%above_cons Hs. apply above_cons. auto.
    + destruct Hrc as [[-> Hw]|(-> & -> & Hv & Ho)]; [left|right; by split_and!].
      split; [done|]. intros k. rewrite !word_at_cons.
      destruct (Z.eqb_spec (startbit a) k), (Z.eqb_spec k (chunk bit)); try lia; try done;
        rewrite Hw; case_Z; done || lia.
Qed.

Lemma nodes_bit_set l n bit value :
  0 <= bit -> nodes_ok l -> nodes_ok n ->
  (forall k, word_at l k =
     if k =? chunk bit then set_word value (word_at n k) (bit - chunk bit) else word_at n k) ->
  forall b, nodes_bit l b = if b =? bit then value else nodes_bit n b.
Proof.
  intros Hb Hl Hn Hw b. rewrite !nodes_bit_word by done. rewrite Hw.
  pose proof (chunk_le b). pose proof (chunk_le bit). unfold MAPSIZE in *.
  destruct (Z.eqb_spec (chunk b) (chunk bit)) as [E|E].
  - rewrite set_word_testbit by (lia || by apply word_at_range). rewrite <-E.
    repeat case_Z; done || lia.
  - case_Z; [congruence|done].
Qed.

(** [ebitmap_set_bit] on a bit number that fits. *)
Lemma ebitmap_set_bit_spec e bit value o rc e' o' :
  ebitmap_wf e -> 0 <= bit < 2 ^ 32 - MAPSIZE ->
  ebitmap_set_bit e bit value o = (rc, e', o') ->
  ebitmap_wf e' /\
  (rc = 0 /\ (forall b, ebitmap_mem e' b = if b =? bit then value else ebitmap_mem e b) \/
   rc = - ENOMEM /\ e' = e /\ value = true /\ o <> []).
Proof.
  intros [Hl Hh] Hb. unfold MAPSIZE in Hb. unfold ebitmap_set_bit.
  pose proof (chunk_le bit) as Hcl. pose proof (chunk_mod bit) as Hcm. unfold MAPSIZE in Hcl, Hcm.
  assert (0 <= chunk bit) by (unfold chunk, MAPSIZE; pose proof (Z.div_pos bit 64); lia).
  rewrite align_bit_chunk by lia.
  assert (chunk bit + MAPSIZE < 2 ^ 32) as Hlt.
  { unfold MAPSIZE. pose proof (Z.div_mod (chunk bit) 64). lia. }
  unfold MAPSIZE in *. rewrite usz_small, u32_small by lia. case_Z; [lia|].
  pose proof (set_bit_loop_spec None (node e) bit value o ltac:(lia) ltac:(unfold MAPSIZE; lia) Hl) as Hp.
  assert (tail_high None (node e) = highbit e) as Et by (rewrite Hh; by destruct (node e)).
  rewrite Et in Hp. unfold set_bit_post in Hp.
  destruct (set_bit_loop None (node e) (highbit e) bit value o) as [[rc0 [l hb]] o0].
  intros [= <- <- <-]. destruct Hp as (Hok & Hhb & _ & Hrc).
  assert (ebitmap_wf (Ebitmap l hb)) by (split; [done|cbn; rewrite Hhb; by destruct l]).
  split; [done|]. destruct Hrc as [[-> Hw]|(-> & -> & -> & Ho)]; [left|right].
  - split; [done|]. apply nodes_bit_set; try done. lia.
  - split_and!; try done. destruct e; cbn in *. congruence.
Qed.

Lemma ebitmap_set_bit_overflow e bit value o :
  2 ^ 32 - MAPSIZE <= bit < 2 ^ 32 -> ebitmap_set_bit e bit value o = (- EINVAL, e, o).
Proof.
  intros Hb. unfold ebitmap_set_bit. rewrite align_bit_chunk by (unfold MAPSIZE in *; lia).
  rewrite (chunk_eq (2 ^ 32 - 64) bit) by (done || unfold MAPSIZE in *; lia). done.
Qed.

(** ** Union in place, copy *)

(** With memory available nothing changes for the allocator. *)
Lemma ebitmap_union_memory dst e1 : (ebitmap_union dst e1 []).2 = [].
Proof.
  unfold ebitmap_union, ebitmap_or. by destruct (or_loop_total (node dst) (node e1)) as [l ->].
Qed.

Lemma ebitmap_union_spec dst e1 o :
  ebitmap_wf dst -> ebitmap_wf e1 ->
  let '(rc, dst', _) := ebitmap_union dst e1 o in
  ebitmap_wf dst' /\
  (rc = 0 /\ (forall b, ebitmap_mem dst' b = ebitmap_mem dst b || ebitmap_mem e1 b) \/
   rc = -1 /\ dst' = dst /\ o <> []).
Proof.
  intros Hd H1. pose proof (ebitmap_or_correct dst e1 o Hd H1) as Hor.
  unfold ebitmap_union. unfold builds in Hor.
  destruct (ebitmap_or dst e1 o) as [[rc tmp] o'].
  destruct Hor as (Hwf & [[-> Hm]|[-> ->]] & Ho); cbn.
  - destruct tmp. split; [done|]. by left.
  - split; [done|]. right. split_and!; try done. intros ->. by specialize (Ho eq_refl).
Qed.

Lemma cpy_loop_spec n o l o' : cpy_loop n o = (Some l, o') -> l = n.
Proof.
  revert o l o'. induction n as [|[s m] n IH]; intros o l o' H; cbn [cpy_loop] in H; alloc_inv; [done|].
  f_equal. eauto.
Qed.

Lemma cpy_loop_total n : exists l, cpy_loop n [] = (Some l, []).
Proof. induction n as [|a n [l IH]]; cbn [cpy_loop]; [by exists []|by eapply alloc_cons_total]. Qed.

Lemma ebitmap_cpy_spec e o :
  let '(rc, dst, _) := ebitmap_cpy e o in
  (rc = 0 /\ dst = e) \/ (rc = - ENOMEM /\ dst = ebitmap_init /\ o <> []).
Proof.
  unfold ebitmap_cpy. destruct (cpy_loop (node e) o) as [[l|] o'] eqn:E.
  - apply cpy_loop_spec in E as ->. left. by destruct e.
  - right. split_and!; try done. intros ->. destruct (cpy_loop_total (node e)). congruence.
Qed.

(** ** Complement *)

Definition not_word (w m : Z) : Z :=
  if m <? MAPSIZE then Z.land (u64 (Z.lnot w)) (u64 (Z.shiftl MAPBIT m - 1)) else u64 (Z.lnot w).

Lemma not_word_testbit w m i :
  0 < m -> 0 <= i < 64 -> Z.testbit (not_word w m) i = bool_decide (i < m) && negb (Z.testbit w i).
Proof.
  intros Hm Hi. unfold not_word, MAPSIZE, MAPBIT. destruct (Z.ltb_spec m 64).
  - rewrite Z.land_spec, !testbit_u64, (bool_decide_eq_true_2 (i < 64)), Z.lnot_spec by lia.
    rewrite Z.shiftl_1_l. change (2 ^ m - 1) with (Z.pred (2 ^ m)). rewrite <-Z.ones_equiv.
    cbn [andb]. case_bool_decide.
    + rewrite Z.ones_spec_low by lia. apply andb_true_r.
    + rewrite Z.ones_spec_high by lia. apply andb_false_r.
  - rewrite testbit_u64, Z.lnot_spec, !bool_decide_eq_true_2 by lia. done.
Qed.

Lemma not_word_range w m : 0 <= not_word w m < 2 ^ 64.
Proof.
  unfold not_word. case_Z; [|apply u64_range]. apply land_range; apply u64_range.
Qed.

Lemma not_map_word n cur maxbit :
  nodes_ok n -> above (cur - 1) n -> 0 <= maxbit - cur < 2 ^ 32 ->
  not_map n cur maxbit = not_word (word_at n cur) (maxbit - cur).
Proof.
  intros Hn Ha Hm. unfold not_map, not_word. rewrite u32_small by done.
  assert (match n with
          | [] => u64 (Z.lnot 0)
          | a :: _ => if startbit a =? cur then u64 (Z.lnot (nmap a)) else u64 (Z.lnot 0)
          end = u64 (Z.lnot (word_at n cur))) as ->; [|done].
  destruct n as [|a n]; [done|]. rewrite word_at_cons.
  destruct (Z.eqb_spec (startbit a) cur); [done|]. rewrite word_at_above; [done|].
  destruct Hn as (_ & Hab & _). apply above_cons in Ha as [Ha _].
  eapply above_weaken; [done|lia].
Qed.

Lemma not_next_spec n cur :
  nodes_ok n -> above (cur - 1) n ->
  nodes_ok (not_next n cur) /\ above cur (not_next n cur) /\
  (forall k, cur < k -> word_at (not_next n cur) k = word_at n k).
Proof.
  intros Hn Ha. destruct n as [|a n]; [split_and!; [done|constructor|done]|]. cbn [not_next].
  pose proof Hn as (_ & Hab & Hn'). apply above_cons in Ha as [Ha Ha'].
  destruct (Z.eqb_spec (startbit a) cur) as [<-|Hne].
  - split_and!; try done. intros k Hk. rewrite word_at_cons. case_Z; [lia|done].
  - split_and!; try done. apply nodes_ok_above; [done|lia].
Qed.

(** The list the loop of [ebitmap_not] builds from [cur] on. *)
Definition complemented (n : list ebitmap_node) (cur maxbit : Z) (l : list ebitmap_node) : Prop :=
  nodes_ok l /\ above (cur - 1) l /\
  forall k, k mod MAPSIZE = 0 ->
    word_at l k = if (cur <=? k) && (k <? maxbit) then not_word (word_at n k) (maxbit - k) else 0.

(** One round of the loop, seen from the words: past [cur], nothing changes. *)
Lemma not_range_step n n' cur maxbit k :
  cur mod MAPSIZE = 0 -> k mod MAPSIZE = 0 -> cur <> k ->
  (forall k, cur < k -> word_at n' k = word_at n k) ->
  (if (cur + MAPSIZE <=? k) && (k <? maxbit) then not_word (word_at n' k) (maxbit - k) else 0) =
  (if (cur <=? k) && (k <? maxbit) then not_word (word_at n k) (maxbit - k) else 0).
Proof.
  intros Hc Hk Hne Hw.
  destruct (Z.leb_spec cur k) as [Hle|Hgt], (Z.leb_spec (cur + MAPSIZE) k) as [Hle'|Hgt']; cbn [andb].
  - by rewrite Hw by lia.
  - pose proof (aligned_gap cur k Hc Hk). lia.
  - unfold MAPSIZE in *. lia.
  - done.
Qed.

Lemma complemented_done n cur maxbit : maxbit <= cur -> complemented n cur maxbit [].
Proof.
  intros H. split_and!; [done|constructor|]. intros k _. cbn [word_at]. repeat case_Z; cbn; done || lia.
Qed.

Lemma complemented_link n n' cur maxbit l :
  0 <= cur < maxbit -> maxbit <= 2 ^ 32 - MAPSIZE -> cur mod MAPSIZE = 0 ->
  not_word (word_at n cur) (maxbit - cur) <> 0 ->
  (forall k, cur < k -> word_at n' k = word_at n k) -> complemented n' (cur + MAPSIZE) maxbit l ->
  complemented n cur maxbit (Node cur (not_word (word_at n cur) (maxbit - cur)) :: l).
Proof.
  intros Hlt Hm Hc Hz Hw (Hl & Hal & Hwl).
  pose proof (not_word_range (word_at n cur) (maxbit - cur)) as Hr.
  assert (above cur l) by (eapply above_weaken; [exact Hal|unfold MAPSIZE; lia]).
  split_and!.
  - split_and!; [split; cbn [startbit nmap]; unfold MAPSIZE in *; done || lia|done|done].
  - apply above_cons. split; [cbn; lia|]. eapply above_weaken; [done|lia].
  - intros k Hk. rewrite word_at_cons. cbn [startbit nmap].
    destruct (Z.eqb_spec cur k) as [<-|Hne]; [repeat case_Z; cbn; done || lia|].
    rewrite Hwl by done. by apply not_range_step.
Qed.

Lemma complemented_skip n n' cur maxbit l :
  0 <= cur -> cur mod MAPSIZE = 0 -> not_word (word_at n cur) (maxbit - cur) = 0 ->
  (forall k, cur < k -> word_at n' k = word_at n k) -> complemented n' (cur + MAPSIZE) maxbit l ->
  complemented n cur maxbit l.
Proof.
  intros H0 Hc Hz Hw (Hl & Hal & Hwl). split_and!; [done| |].
  - eapply above_weaken; [exact Hal|unfold MAPSIZE; lia].
  - intros k Hk. rewrite Hwl by done. destruct (decide (cur = k)) as [<-|Hne].
    + rewrite Hz. unfold MAPSIZE. repeat case_Z; cbn; done || lia.
    + by apply not_range_step.
Qed.

Lemma above_next n cur :
  nodes_ok n -> above cur n -> cur mod MAPSIZE = 0 -> above (cur + MAPSIZE - 1) n.
Proof.
  intros Hn Ha Hc. unfold above in *. rewrite Forall_forall in *. intros x Hx.
  pose proof (aligned_gap cur (startbit x) Hc (ok_aligned _ (nodes_ok_member _ _ Hn Hx)) (Ha _ Hx)).
  lia.
Qed.

Lemma not_loop_spec fuel n cur maxbit o :
  nodes_ok n -> above (cur - 1) n -> cur mod MAPSIZE = 0 -> 0 <= cur ->
  maxbit <= 2 ^ 32 - MAPSIZE -> maxbit - cur <= MAPSIZE * Z.of_nat fuel ->
  exists r o', not_loop fuel n cur maxbit o = Some (r, o') /\
    match r with Some l => complemented n cur maxbit l | None => o <> [] end.
Proof.
  revert n cur o. induction fuel as [|fuel IH]; intros n cur o Hn Ha Hc Hc0 Hm Hf; cbn [not_loop].
  all: destruct (Z.ltb_spec cur maxbit) as [Hlt|Hge]; cbn [negb];
    [|eexists _, _; split; [done|by apply complemented_done]].
  { lia. }
  pose proof (not_next_spec n cur Hn Ha) as (Hn' & Ha' & Hw').
  assert (u32 (cur + MAPSIZE) = cur + MAPSIZE) as -> by (apply u32_small; unfold MAPSIZE in *; lia).
  rewrite not_map_word by (done || unfold MAPSIZE in *; lia).
  assert ((cur + MAPSIZE) mod MAPSIZE = 0) as Hc'.
  { rewrite <-(Z.mul_1_l MAPSIZE) at 1. by rewrite Z.mod_add. }
  pose proof (above_next _ _ Hn' Ha' Hc) as Ha''.
  assert (0 <= cur + MAPSIZE) by (unfold MAPSIZE; lia).
  assert (maxbit - (cur + MAPSIZE) <= MAPSIZE * Z.of_nat fuel) by lia.
  destruct (truthy (not_word _ _)) eqn:Ht.
  - apply truthy_true in Ht. destruct (malloc o) as [[] o1] eqn:Em; cycle 1.
    { eexists _, _. split; [done|]. by intros ->. }
    destruct (IH (not_next n cur) (cur + MAPSIZE) o1) as (r & o' & -> & Hr'); try done.
    destruct r as [l|]; eexists _, _; (split; [done|]).
    + by eapply complemented_link.
    + intros ->. cbn in Em. simplify_eq.
  - apply truthy_false in Ht.
    destruct (IH (not_next n cur) (cur + MAPSIZE) o) as (r & o' & -> & Hr'); try done.
    eexists _, _. split; [done|]. destruct r as [l|]; [|done]. by eapply complemented_skip.
Qed.

Lemma complemented_bits n maxbit l :
  nodes_ok n -> complemented n 0 maxbit l ->
  forall b, nodes_bit l b = bool_decide (0 <= b < maxbit) && negb (nodes_bit n b).
Proof.
  intros Hn (Hl & _ & Hw) b. rewrite !nodes_bit_word by done. rewrite Hw by apply chunk_mod.
  pose proof (chunk_le b) as Hc. unfold MAPSIZE in Hc.
  destruct (Z.leb_spec 0 (chunk b)) as [H0|H0], (Z.ltb_spec (chunk b) maxbit) as [H1|H1]; cbn [andb].
  - rewrite not_word_testbit by lia. f_equal. apply bool_decide_ext. lia.
  - rewrite bool_decide_eq_false_2 by lia. by rewrite Z.testbit_0_l.
  - rewrite bool_decide_eq_false_2; [by rewrite Z.testbit_0_l|].
    unfold chunk, MAPSIZE in *. intros [Hb _]. pose proof (Z.div_pos b 64). lia.
  - rewrite bool_decide_eq_false_2 by lia. by rewrite Z.testbit_0_l.
Qed.

Lemma ebitmap_not_spec e maxbit o :
  ebitmap_wf e -> 0 <= maxbit <= 2 ^ 32 - MAPSIZE ->
  exists r, ebitmap_not e maxbit o = Some r /\
    builds o r (fun b => bool_decide (0 <= b < maxbit) && negb (ebitmap_mem e b)).
Proof.
  intros [Hl Hh] Hm. unfold ebitmap_not.
  destruct (not_loop_spec (not_fuel maxbit) (node e) 0 maxbit o) as (r & o' & -> & Hr); try done.
  - unfold above. apply Forall_forall. intros x Hx.
    pose proof (ok_lo _ (nodes_ok_member _ _ Hl Hx)). lia.
  - lia.
  - unfold not_fuel, MAPSIZE. pose proof (Z.div_mod maxbit 64). pose proof (Z.mod_pos_bound maxbit 64).
    pose proof (Z.div_pos maxbit 64). lia.
  - destruct r as [l|]; (eexists; split; [done|]).
    + split_and!; [split; [apply Hr|done]| |done]. left. split; [done|].
      intros b. by apply complemented_bits.
    + by apply builds_fail.
Qed.

(** Above that bound the unsigned loop counter wraps to 0 and the loop never ends. *)
Lemma not_loop_diverges fuel n cur maxbit :
  2 ^ 32 - MAPSIZE < maxbit < 2 ^ 32 -> 0 <= cur < 2 ^ 32 -> cur mod MAPSIZE = 0 ->
  not_loop fuel n cur maxbit [] = None.
Proof.
  revert n cur. induction fuel as [|fuel IH]; intros n cur Hm Hc Hc'.
  all: assert (cur < maxbit) as Hlt by
    (unfold MAPSIZE in *; pose proof (Z.div_mod cur 64); lia).
  all: cbn [not_loop]; destruct (Z.ltb_spec cur maxbit); [cbn [negb]|lia].
  - done.
  - assert (u32 (cur + MAPSIZE) mod MAPSIZE = 0) as Hal.
    { unfold u32, MAPSIZE in *. pose proof (Z.div_mod cur 64).
      rewrite Z.mod_mod_divide by (by exists (2 ^ 26)).
      replace (cur + 64) with (cur + 1 * 64) by lia. by rewrite Z.mod_add by lia. }
    pose proof (u32_range (cur + MAPSIZE)).
    destruct (truthy _); cbn; by rewrite IH.
Qed.

(** The allocator that never fails stays so. *)
Lemma not_loop_nil fuel n cur maxbit r o' : not_loop fuel n cur maxbit [] = Some (r, o') -> o' = [].
Proof.
  revert n cur r o'. induction fuel as [|fuel IH]; intros n cur r o'; cbn [not_loop];
    destruct (negb _); try by (intros; simplify_eq).
  destruct (truthy _); cbn [malloc].
  - destruct (not_loop fuel _ _ maxbit []) as [[[l|] o1]|] eqn:E; intros; simplify_eq; eauto.
  - eauto.
Qed.

Lemma ebitmap_andnot_spec e1 e2 maxbit o :
  ebitmap_wf e1 -> ebitmap_wf e2 -> 0 <= maxbit <= 2 ^ 32 - MAPSIZE ->
  exists r, ebitmap_andnot e1 e2 maxbit o = Some r /\
    builds o r (fun b => ebitmap_mem e1 b &&
                         (bool_decide (0 <= b < maxbit) && negb (ebitmap_mem e2 b))).
Proof.
  intros H1 H2 Hm. unfold ebitmap_andnot.
  destruct (ebitmap_not_spec e2 maxbit o H2 Hm) as ([[rc e3] o1] & Hnot & Hwf & Hrc & Ho).
  rewrite Hnot. destruct Hrc as [[-> He3]|[-> ->]]; cbn [Z.ltb Z.compare].
  - pose proof (ebitmap_and_correct e1 e3 o1 H1 Hwf) as Hand. unfold builds in Hand.
    destruct (ebitmap_and e1 e3 o1) as [[rc dst] o2].
    destruct Hand as (Hd & [[-> Hb]|[-> ->]] & Ho1); (eexists; split; [done|]).
    + split_and!; [done| |done]. left. split; [done|]. intros b. by rewrite Hb, He3.
    + apply builds_fail. intros ->. enough (o1 = []) as -> by (by specialize (Ho1 eq_refl)).
      revert Hnot. unfold ebitmap_not.
      destruct (not_loop _ _ _ _ _) as [[[l|] o']|] eqn:E; intros; simplify_eq.
      by eapply not_loop_nil.
  - eexists; split; [done|]. apply builds_fail. intros ->. by specialize (Ho eq_refl).
Qed.

(** ** Ranges *)

Lemma ones64_testbit i : Z.testbit (u64 (Z.lnot 0)) i = bool_decide (0 <= i < 64).
Proof.
  change (u64 (Z.lnot 0)) with (Z.ones 64). destruct (decide (i < 0)).
  { rewrite Z.testbit_neg_r by lia. by rewrite bool_decide_eq_false_2 by lia. }
  case_bool_decide; [apply Z.ones_spec_low|apply Z.ones_spec_high]; lia.
Qed.

Lemma range_map_testbit minbit maxbit sb i :
  0 <= minbit -> minbit <= maxbit < 2 ^ 32 -> sb mod MAPSIZE = 0 ->
  chunk minbit <= sb <= chunk maxbit -> 0 <= i < 64 ->
  Z.testbit (range_map minbit maxbit sb) i = bool_decide (minbit <= sb + i <= maxbit).
Proof.
  intros H0 Hm Hsb Hr Hi. unfold range_map. rewrite !align_bit_chunk by lia.
  pose proof (chunk_le minbit). pose proof (chunk_le maxbit).
  pose proof (aligned_gap (chunk minbit) sb (chunk_mod _) Hsb).
  pose proof (aligned_gap sb (chunk maxbit) Hsb (chunk_mod _)).
  unfold MAPSIZE in *.
  destruct (Z.eqb_spec sb (chunk minbit)) as [E1|E1], (Z.eqb_spec sb (chunk maxbit)) as [E2|E2];
    cbn [negb andb].
  - rewrite testbit_u64, (u32_small (minbit - sb)), (u32_small (maxbit - minbit + 1)) by lia.
    rewrite (usz_small (64 - (maxbit - minbit + 1))) by lia. rewrite Z.shiftl_spec by lia. destruct (decide (0 <= i - (minbit - sb))).
    + rewrite Z.shiftr_spec, ones64_testbit by lia. rewrite (bool_decide_eq_true_2 (i < 64)) by lia.
      apply bool_decide_ext. lia.
    + rewrite Z.testbit_neg_r by lia. rewrite andb_false_r, bool_decide_eq_false_2 by lia. done.
  - rewrite testbit_u64, u32_small by lia. rewrite Z.shiftl_spec, ones64_testbit by lia.
    rewrite (bool_decide_eq_true_2 (i < 64)) by lia. apply bool_decide_ext. lia.
  - rewrite u32_small, (usz_small (64 - (maxbit - sb + 1))) by lia.
    rewrite Z.shiftr_spec, ones64_testbit by lia.
    apply bool_decide_ext. lia.
  - rewrite ones64_testbit. apply bool_decide_ext. lia.
Qed.

Lemma range_map_range minbit maxbit sb :
  0 <= minbit -> minbit <= maxbit < 2 ^ 32 -> sb mod MAPSIZE = 0 ->
  chunk minbit <= sb <= chunk maxbit -> 0 < range_map minbit maxbit sb < 2 ^ 64.
Proof.
  intros H0 Hm Hsb Hr. pose proof (chunk_le minbit). pose proof (chunk_le maxbit).
  assert (0 <= range_map minbit maxbit sb < 2 ^ 64) as Hw.
  { assert (forall k, 0 <= k -> 0 <= Z.shiftr (u64 (Z.lnot 0)) k < 2 ^ 64) as Hs.
    { intros k Hk. rewrite Z.shiftr_div_pow2 by done. pose proof (pow2_pos k Hk).
      pose proof (u64_range (Z.lnot 0)).
      split; [apply Z.div_pos; lia|apply Z.div_lt_upper_bound; nia]. }
    unfold range_map. repeat case_match; try apply u64_range.
    apply Hs. unfold usz. apply u64_range. }
  destruct (decide (range_map minbit maxbit sb = 0)) as [E|]; [|lia]. exfalso.
  pose proof (aligned_gap (chunk minbit) sb (chunk_mod _) Hsb).
  pose proof (aligned_gap sb (chunk maxbit) Hsb (chunk_mod _)).
  set (i := if sb =? chunk minbit then minbit - sb else 0).
  assert (0 <= i < 64 /\ minbit <= sb + i <= maxbit) as [Hi Hin].
  { unfold i, MAPSIZE in *. destruct (Z.eqb_spec sb (chunk minbit)); lia. }
  pose proof (range_map_testbit minbit maxbit sb i H0 Hm Hsb Hr Hi) as Hb.
  rewrite E, Z.testbit_0_l, bool_decide_eq_true_2 in Hb by lia. done.
Qed.

(** The nodes of the range from [sb] on. *)
Definition ranged (minbit maxbit sb : Z) (l : list ebitmap_node) : Prop :=
  nodes_ok l /\ above (sb - 1) l /\
  forall k, k mod MAPSIZE = 0 ->
    word_at l k = if (sb <=? k) && (k <=? chunk maxbit) then range_map minbit maxbit k else 0.

Lemma ranged_link minbit maxbit sb l :
  0 <= minbit -> minbit <= maxbit -> chunk maxbit + MAPSIZE < 2 ^ 32 -> sb mod MAPSIZE = 0 ->
  chunk minbit <= sb <= chunk maxbit -> ranged minbit maxbit (sb + MAPSIZE) l ->
  ranged minbit maxbit sb (Node sb (range_map minbit maxbit sb) :: l).
Proof.
  intros H0 Hm Hb Hsb Hr (Hl & Ha & Hw).
  assert (0 <= chunk minbit) by (unfold chunk, MAPSIZE; pose proof (Z.div_pos minbit 64); lia).
  pose proof (chunk_le maxbit).
  pose proof (range_map_range minbit maxbit sb H0 ltac:(unfold MAPSIZE in *; lia) Hsb Hr).
  assert (above sb l) by (eapply above_weaken; [exact Ha|unfold MAPSIZE; lia]).
  split_and!.
  - split_and!; [split; cbn [startbit nmap]; done || lia|done|done].
  - apply above_cons. split; [cbn; lia|]. eapply above_weaken; [done|lia].
  - intros k Hk. rewrite word_at_cons. cbn [startbit nmap].
    destruct (Z.eqb_spec sb k) as [<-|Hne]; [repeat case_Z; cbn; done || lia|].
    rewrite Hw by done. pose proof (aligned_gap sb k Hsb Hk). unfold MAPSIZE in *.
    destruct (Z.leb_spec (sb + 64) k), (Z.leb_spec sb k); cbn [andb]; done || lia.
Qed.

Lemma ranged_done minbit maxbit sb : chunk maxbit < sb -> ranged minbit maxbit sb [].
Proof.
  intros H. split_and!; [done|constructor|]. intros k _. cbn [word_at]. repeat case_Z; cbn; done || lia.
Qed.

Lemma range_loop_spec fuel minbit maxbit sb o :
  0 <= minbit -> minbit <= maxbit -> chunk maxbit + MAPSIZE < 2 ^ 32 -> sb mod MAPSIZE = 0 ->
  chunk minbit <= sb -> sb <= chunk maxbit + MAPSIZE ->
  chunk maxbit + MAPSIZE - sb <= MAPSIZE * Z.of_nat fuel ->
  exists f l o', range_loop fuel minbit maxbit sb o = Some (f, l, o') /\
    (f = false /\ ranged minbit maxbit sb l \/ f = true /\ o <> []).
Proof.
  intros H0 Hm Hb. pose proof (chunk_le maxbit).
  assert (align_bit maxbit = chunk maxbit) as Eal by (apply align_bit_chunk; unfold MAPSIZE in *; lia).
  assert (0 <= chunk minbit) by (unfold chunk, MAPSIZE; pose proof (Z.div_pos minbit 64); lia).
  revert sb o. induction fuel as [|fuel IH]; intros sb o Hsb Hlo Hhi Hf; cbn [range_loop]; rewrite Eal.
  all: destruct (Z.leb_spec sb (chunk maxbit)) as [Hle|Hgt]; cbn [negb];
    [|eexists _, _, _; split; [done|]; left; split; [done|by apply ranged_done]].
  { unfold MAPSIZE in *. lia. }
  destruct (malloc o) as [[] o1] eqn:Em; cycle 1.
  { eexists _, _, _. split; [done|]. right. split; [done|]. by intros ->. }
  assert (u32 (sb + MAPSIZE) = sb + MAPSIZE) as -> by (apply u32_small; unfold MAPSIZE in *; lia).
  assert ((sb + MAPSIZE) mod MAPSIZE = 0) as Hsb'.
  { rewrite <-(Z.mul_1_l MAPSIZE) at 1. by rewrite Z.mod_add. }
  destruct (IH (sb + MAPSIZE) o1 Hsb') as (f & l & o' & -> & Hr); [unfold MAPSIZE in *; lia..|].
  eexists _, _, _. split; [done|]. destruct Hr as [[-> Hr]|[-> Ho]]; [left|right].
  - split; [done|]. by apply ranged_link.
  - split; [done|]. intros ->. cbn in Em. simplify_eq.
Qed.

Lemma ranged_bits minbit maxbit l :
  0 <= minbit -> minbit <= maxbit < 2 ^ 32 -> ranged minbit maxbit (chunk minbit) l ->
  forall b, nodes_bit l b = bool_decide (minbit <= b <= maxbit).
Proof.
  intros H0 Hm (Hl & _ & Hw) b. rewrite nodes_bit_word by done. rewrite Hw by apply chunk_mod.
  pose proof (chunk_le b). pose proof (chunk_le minbit). pose proof (chunk_le maxbit).
  destruct (Z.leb_spec (chunk minbit) (chunk b)) as [Hc1|Hc1],
    (Z.leb_spec (chunk b) (chunk maxbit)) as [Hc2|Hc2]; cbn [andb].
  - rewrite range_map_testbit by (done || apply chunk_mod || unfold MAPSIZE in *; lia).
    apply bool_decide_ext. lia.
  - pose proof (aligned_gap (chunk maxbit) (chunk b) (chunk_mod _) (chunk_mod _) Hc2).
    rewrite Z.testbit_0_l, bool_decide_eq_false_2 by lia. done.
  - pose proof (aligned_gap (chunk b) (chunk minbit) (chunk_mod _) (chunk_mod _) Hc1).
    rewrite Z.testbit_0_l, bool_decide_eq_false_2 by lia. done.
  - pose proof (aligned_gap (chunk b) (chunk minbit) (chunk_mod _) (chunk_mod _) Hc1).
    rewrite Z.testbit_0_l, bool_decide_eq_false_2 by lia. done.
Qed.

Lemma ranged_highbit minbit maxbit l :
  0 <= minbit -> minbit <= maxbit -> chunk maxbit + MAPSIZE < 2 ^ 32 ->
  ranged minbit maxbit (chunk minbit) l -> last_highbit l = chunk maxbit + MAPSIZE.
Proof.
  intros H0 Hm Hb (Hl & _ & Hw). pose proof (chunk_le maxbit). pose proof (chunk_le minbit).
  assert (chunk minbit <= chunk maxbit) as Hle.
  { destruct (decide (chunk minbit <= chunk maxbit)); [done|].
    pose proof (aligned_gap (chunk maxbit) (chunk minbit) (chunk_mod _) (chunk_mod _)). lia. }
  pose proof (range_map_range minbit maxbit (chunk maxbit) H0 ltac:(unfold MAPSIZE in *; lia) (chunk_mod _)
    ltac:(lia)) as Hr.
  assert (word_at l (chunk maxbit) <> 0) as Hne.
  { rewrite Hw by apply chunk_mod. repeat case_Z; cbn; lia. }
  apply Z.le_antisymm; [|by apply last_highbit_bound].
  assert (l <> []) as Hl0 by (intros ->; done).
  pose proof (last_highbit_word l Hl Hl0) as Hlast.
  destruct (decide ((last_highbit l - MAPSIZE) mod MAPSIZE = 0)) as [Hmod|Hmod].
  - rewrite Hw in Hlast by done. destruct (Z.leb_spec (last_highbit l - MAPSIZE) (chunk maxbit)); [lia|].
    by rewrite andb_false_r in Hlast.
  - by rewrite word_at_misaligned in Hlast.
Qed.

(** [ebitmap_init_range] on every branch. *)
Lemma ebitmap_init_range_spec minbit maxbit o :
  0 <= minbit < 2 ^ 32 -> 0 <= maxbit < 2 ^ 32 ->
  exists rc e o', ebitmap_init_range minbit maxbit o = Some (rc, e, o') /\
    ((maxbit < minbit /\ rc = - EINVAL /\ e = ebitmap_init) \/
     (minbit <= maxbit /\ 2 ^ 32 - MAPSIZE <= maxbit /\ rc = - EOVERFLOW /\ e = ebitmap_init) \/
     (minbit <= maxbit < 2 ^ 32 - MAPSIZE /\
      (rc = - ENOMEM /\ o <> [] \/
       rc = 0 /\ ebitmap_wf e /\
       forall b, ebitmap_mem e b = bool_decide (minbit <= b <= maxbit)))).
Proof.
  intros Hmin Hmax. unfold ebitmap_init_range, range_fuel. rewrite !align_bit_chunk by done.
  destruct (Z.ltb_spec maxbit minbit) as [Hlt|Hle]; [eexists _, _, _; split; [done|by left]|].
  pose proof (chunk_le minbit). pose proof (chunk_le maxbit).
  assert (0 <= chunk minbit) by (unfold chunk, MAPSIZE; pose proof (Z.div_pos minbit 64); lia).
  assert (chunk minbit <= chunk maxbit) as Hcc.
  { unfold chunk, MAPSIZE. pose proof (Z.div_le_mono minbit maxbit 64). lia. }
  destruct (decide (2 ^ 32 - MAPSIZE <= maxbit)) as [Hov|Hok].
  { rewrite (chunk_eq (2 ^ 32 - 64) maxbit) by (done || unfold MAPSIZE in *; lia).
    change (u32 (usz (2 ^ 32 - 64 + MAPSIZE)) =? 0) with true. rewrite orb_true_r.
    eexists _, _, _. split; [done|]. right. left. split_and!; done. }
  assert (chunk maxbit + MAPSIZE < 2 ^ 32) as Hb.
  { pose proof (aligned_gap (chunk maxbit) (2 ^ 32 - MAPSIZE) (chunk_mod _) ltac:(done)).
    unfold MAPSIZE in *. lia. }
  assert (forall c, 0 <= c -> c + MAPSIZE < 2 ^ 32 -> u32 (usz (c + MAPSIZE)) = c + MAPSIZE) as Hu.
  { intros c ??. unfold MAPSIZE in *. rewrite usz_small, u32_small by lia. done. }
  rewrite !Hu by lia. destruct (Z.eqb_spec (chunk minbit + MAPSIZE) 0); [unfold MAPSIZE in *; lia|].
  destruct (Z.eqb_spec (chunk maxbit + MAPSIZE) 0); [unfold MAPSIZE in *; lia|]. cbn [orb].
  destruct (range_loop_spec (Z.to_nat ((chunk maxbit - chunk minbit) / MAPSIZE + 1)) minbit maxbit
    (chunk minbit) o) as (f & l & o' & -> & Hr); try (done || lia || apply chunk_mod).
  { unfold chunk, MAPSIZE in *.
    replace (64 * (maxbit / 64) - 64 * (minbit / 64)) with ((maxbit / 64 - minbit / 64) * 64) by lia.
    rewrite Z.div_mul by lia. lia. }
  destruct Hr as [[-> Hr]|[-> Ho]]; (eexists _, _, _; split; [done|]); right; right; (split; [lia|]).
  - right. split_and!; [done| |intros b; eapply (ranged_bits minbit maxbit); [lia|lia|exact Hr]].
    split; [apply Hr|]. cbn. symmetry. eapply ranged_highbit; [| | |exact Hr]; lia.
  - by left.
Qed.
