(* ===== verification/EbitmapProps.v ===== *)
(** * Reading and writing bitmaps in a binary policy

    [ebitmap_read] (libsepol/src/ebitmap.c) and [ebitmap_write] (libsepol/src/write.c)
    over the policy stream of Policyfile.v. *)

From S2P Require Import Prelude Policyfile Ebitmap EbitmapSpec EbitmapQuery EbitmapUpdate.

Definition POLICYDB_SUCCESS : Z := 0.
Definition POLICYDB_ERROR : Z := -1.

(** A [uint32_t] at index [i] of a buffer filled by [next_entry]. *)
Definition le32_at (buf : list Z) (i : nat) : Z := le_val (take 4 (drop (4 * i) buf)).
Definition le64_at (buf : list Z) (i : nat) : Z := le_val (take 8 (drop (8 * i) buf)).

(** The node loop of [ebitmap_read]: the nodes, or the code returned through [bad].
    [l] is the start bit of the last node linked. *)
Fixpoint read_loop (count : nat) (hb : Z) (l : option Z) (fp : policy_file) (o : oracle) :
    (Z + list ebitmap_node) * policy_file * oracle :=
  match count with
  | O =>
      match l with
      | Some sb => if negb (usz (sb + MAPSIZE) =? hb) then (inl (- EINVAL), fp, o)
                   else (inr [], fp, o)
      | None => (inr [], fp, o)
      end
  | S count' =>
      match next_entry fp 4 with
      | (None, fp1) => (inl (-1), fp1, o)
      | (Some buf, fp1) =>
          match malloc o with
          | (false, o1) => (inl (- ENOMEM), fp1, o1)
          | (true, o1) =>
              let sb := le32_at buf 0 in
              if truthy (Z.land sb (MAPSIZE - 1)) then (inl (- EINVAL), fp1, o1)
              else if usz (hb - MAPSIZE) <? sb then (inl (- EINVAL), fp1, o1)
              else
                match next_entry fp1 8 with
                | (None, fp2) => (inl (-1), fp2, o1)
                | (Some mbuf, fp2) =>
                    let map := le64_at mbuf 0 in
                    if negb (truthy map) then (inl (- EINVAL), fp2, o1)
                    else if match l with Some p => sb <=? p | None => false end
                    then (inl (- EINVAL), fp2, o1)
                    else
                      match read_loop count' hb (Some sb) fp2 o1 with
                      | (inr ns, fp3, o2) => (inr (Node sb map :: ns), fp3, o2)
                      | r => r
                      end
                end
          end
      end
  end.

Definition ebitmap_read (fp : policy_file) (o : oracle) : Z * ebitmap * policy_file * oracle :=
  match next_entry fp 12 with
  | (None, fp1) => (-1, ebitmap_init, fp1, o)
  | (Some buf, fp1) =>
      let mapsize := le32_at buf 0 in
      let hb := le32_at buf 1 in
      let count := le32_at buf 2 in
      if negb (mapsize =? MAPSIZE) then (- EINVAL, ebitmap_init, fp1, o)
      else if hb =? 0 then (0, Ebitmap [] 0, fp1, o)
      else if truthy (Z.land hb (MAPSIZE - 1)) then (- EINVAL, ebitmap_init, fp1, o)
      else if count =? 0 then (- EINVAL, ebitmap_init, fp1, o)
      else
        match read_loop (Z.to_nat count) hb None fp1 o with
        | (inr ns, fp2, o1) => (0, Ebitmap ns hb, fp2, o1)
        | (inl rc, fp2, o1) => (rc, ebitmap_init, fp2, o1)
        end
  end.

Fixpoint write_loop (n : list ebitmap_node) (fp : policy_file) : Z * policy_file :=
  match n with
  | [] => (POLICYDB_SUCCESS, fp)
  | a :: n' =>
      let '(items, fp1) := put_entry (le_bytes 4 (startbit a)) 4 1 fp in
      if negb (items =? 1) then (POLICYDB_ERROR, fp1)
      else
        let '(items, fp2) := put_entry (le_bytes 8 (nmap a)) 8 1 fp1 in
        if negb (items =? 1) then (POLICYDB_ERROR, fp2) else write_loop n' fp2
  end.

Definition ebitmap_write (e : ebitmap) (fp : policy_file) : Z * policy_file :=
  let count := fold_left (fun c _ => u32 (c + 1)) (node e) 0 in
  let buf := le_bytes 4 MAPSIZE ++ le_bytes 4 (highbit e) ++ le_bytes 4 count in
  let '(items, fp1) := put_entry buf 4 3 fp in
  if negb (items =? 3) then (POLICYDB_ERROR, fp1) else write_loop (node e) fp1.

(** ** What is on disk *)

Definition node_bytes (n : ebitmap_node) : list Z := le_bytes 4 (startbit n) ++ le_bytes 8 (nmap n).

Fixpoint nodes_bytes (l : list ebitmap_node) : list Z :=
  match l with [] => [] | a :: l' => node_bytes a ++ nodes_bytes l' end.

Definition ebitmap_bytes (e : ebitmap) : list Z :=
  (le_bytes 4 MAPSIZE ++ le_bytes 4 (highbit e) ++ le_bytes 4 (Z.of_nat (length (node e)))) ++
  nodes_bytes (node e).

(** ** Reading accepts only well-formed bitmaps *)

Lemma land_63_aligned x : 0 <= x -> truthy (Z.land x (MAPSIZE - 1)) = false -> x mod MAPSIZE = 0.
Proof.
  intros Hx H%truthy_false. change (MAPSIZE - 1) with (Z.ones 6) in H.
  rewrite Z.land_ones in H by lia. exact H.
Qed.

Lemma aligned_land_63 x : x mod MAPSIZE = 0 -> truthy (Z.land x (MAPSIZE - 1)) = false.
Proof.
  intros H. apply truthy_false. change (MAPSIZE - 1) with (Z.ones 6).
  rewrite Z.land_ones by lia. exact H.
Qed.

(** The bytes of the stream are bytes. *)
Definition pf_bytes (fp : policy_file) : Prop := Forall is_byte (pf_data fp).

Lemma next_entry_bytes fp n buf fp' :
  pf_bytes fp -> next_entry fp n = (Some buf, fp') -> Forall is_byte buf /\ pf_bytes fp'.
Proof.
  unfold next_entry, pf_bytes. intros Hb H.
  repeat case_match; simplify_eq; cbn; split; auto using Forall_take, Forall_drop.
Qed.

Lemma le_at_range buf n k :
  Forall is_byte buf -> 0 <= le_val (take n (drop k buf)) < 2 ^ (8 * Z.of_nat n).
Proof.
  intros Hb. pose proof (le_val_range (take n (drop k buf)) ltac:(by apply Forall_take, Forall_drop)).
  rewrite length_take in *. split; [lia|]. eapply Z.lt_le_trans; [apply H|].
  apply Z.pow_le_mono_r; lia.
Qed.

Lemma read_loop_wf count hb l fp o ns fp' o' :
  pf_bytes fp -> 0 < hb < 2 ^ 32 -> hb mod MAPSIZE = 0 ->
  (forall p, l = Some p -> 0 <= p < 2 ^ 32) ->
  read_loop count hb l fp o = (inr ns, fp', o') ->
  nodes_ok ns /\ (forall p, l = Some p -> above p ns) /\ length ns = count /\
  match ns with [] => forall p, l = Some p -> p + MAPSIZE = hb | _ => last_highbit ns = hb end.
Proof.
  intros Hb Hhb Hal. revert l fp o ns fp' o' Hb.
  induction count as [|count IH]; intros l fp o ns fp' o' Hb Hl H; cbn [read_loop] in H.
  { destruct l as [p|].
    - specialize (Hl p eq_refl). rewrite usz_small in H by (unfold MAPSIZE; lia).
      destruct (Z.eqb_spec (p + MAPSIZE) hb); simplify_eq/=. split_and!; [done|intros; constructor|done|by intros ? [= <-]].
    - simplify_eq/=. by split_and!. }
  destruct (next_entry fp 4) as [[buf|] fp1] eqn:E1; [|done].
  destruct (malloc o) as [[] o1]; [|done].
  destruct (next_entry_bytes _ _ _ _ Hb E1) as [Hbuf Hb1].
  pose proof (le_at_range buf 4 (4 * 0) Hbuf) as Hsb. fold (le32_at buf 0) in Hsb.
  change (8 * Z.of_nat 4) with 32 in Hsb.
  destruct (truthy (Z.land _ _)) eqn:Ea; [done|]. apply land_63_aligned in Ea; [|lia].
  assert (MAPSIZE <= hb) as Hhb64.
  { pose proof (aligned_gap 0 hb ltac:(done) Hal). lia. }
  rewrite usz_small in H by (unfold MAPSIZE in *; lia).
  destruct (Z.ltb_spec (hb - MAPSIZE) (le32_at buf 0)); [done|].
  destruct (next_entry fp1 8) as [[mbuf|] fp2] eqn:E2; [|done].
  destruct (next_entry_bytes _ _ _ _ Hb1 E2) as [Hmbuf Hb2].
  pose proof (le_at_range mbuf 8 (8 * 0) Hmbuf) as Hmap. fold (le64_at mbuf 0) in Hmap.
  change (8 * Z.of_nat 8) with 64 in Hmap.
  destruct (truthy (le64_at mbuf 0)) eqn:Em; [|done]. apply truthy_true in Em. cbn [negb] in H.
  destruct (match l with Some p => le32_at buf 0 <=? p | None => false end) eqn:Ep; [done|].
  destruct (read_loop count hb (Some (le32_at buf 0)) fp2 o1) as [[[rc|ns'] fp3] o2] eqn:Er;
    simplify_eq.
  apply IH in Er as (Hns & Habv & Hlen & Hhigh); [|done|intros p [= <-]; lia].
  specialize (Habv _ eq_refl).
  assert (node_ok (Node (le32_at buf 0) (le64_at mbuf 0))) as Hnode.
  { split; cbn [startbit nmap]; [lia|lia|done|lia]. }
  split_and!; [done| |cbn; by rewrite Hlen|].
  - intros p ->. apply Z.leb_gt in Ep. apply above_cons. split; [done|].
    eapply above_weaken; [done|lia].
  - destruct ns' as [|b ns'].
    + rewrite (last_highbit_some _ (Node (le32_at buf 0) (le64_at mbuf 0))); [|by split_and!|done].
      by apply Hhigh.
    + by rewrite last_highbit_cons2.
Qed.

Lemma next_entry_bytes_any fp n : pf_bytes fp -> pf_bytes (next_entry fp n).2.
Proof.
  unfold next_entry, pf_bytes. intros Hb. repeat case_match; cbn; auto using Forall_drop.
Qed.

Lemma read_loop_bytes count hb l fp o : pf_bytes fp -> pf_bytes (read_loop count hb l fp o).1.2.
Proof.
  revert l fp o. induction count as [|count IH]; intros l fp o Hb; cbn [read_loop].
  { repeat case_match; done. }
  pose proof (next_entry_bytes_any fp 4 Hb) as Hb1. destruct (next_entry fp 4) as [[buf|] fp1]; [|done].
  destruct (malloc o) as [[|] o1]; [|done]. cbn zeta. case_match; [done|]. case_match; [done|].
  pose proof (next_entry_bytes_any fp1 8 Hb1) as Hb2. destruct (next_entry fp1 8) as [[mbuf|] fp2]; [|done].
  case_match; [done|]. case_match; [done|]. specialize (IH (Some (le32_at buf 0)) fp2 o1 Hb2).
  by destruct (read_loop count hb _ fp2 o1) as [[[rc|ns] fp3] o2].
Qed.

(** What is left of the stream are still bytes. *)
Lemma ebitmap_read_bytes fp o rc e fp' o' :
  pf_bytes fp -> ebitmap_read fp o = (rc, e, fp', o') -> pf_bytes fp'.
Proof.
  intros Hb. unfold ebitmap_read. pose proof (next_entry_bytes_any fp 12 Hb) as Hb1.
  destruct (next_entry fp 12) as [[buf|] fp1]; [|by intros [= _ _ <- _]]. cbn zeta.
  repeat (case_match; [by intros [= _ _ <- _]|]).
  pose proof (read_loop_bytes (Z.to_nat (le32_at buf 2)) (le32_at buf 1) None fp1 o Hb1) as Hl.
  destruct (read_loop _ _ _ _ _) as [[[c|ns] fp2] o1]; by intros [= _ _ <- _].
Qed.

Lemma ebitmap_read_wf fp o rc e fp' o' :
  pf_bytes fp -> ebitmap_read fp o = (rc, e, fp', o') ->
  ebitmap_wf e /\ (rc <> 0 -> e = ebitmap_init).
Proof.
  intros Hb H. unfold ebitmap_read in H.
  destruct (next_entry fp 12) as [[buf|] fp1] eqn:E1; [|simplify_eq; split; [apply ebitmap_init_wf|done]].
  destruct (next_entry_bytes _ _ _ _ Hb E1) as [Hbuf Hb1].
  pose proof (le_at_range buf 4 (4 * 1) Hbuf) as Hhb. fold (le32_at buf 1) in Hhb.
  change (8 * Z.of_nat 4) with 32 in Hhb. cbn zeta in H.
  destruct (negb _); [simplify_eq; split; [apply ebitmap_init_wf|done]|].
  destruct (Z.eqb_spec (le32_at buf 1) 0); [simplify_eq; split; [apply ebitmap_init_wf|done]|].
  destruct (truthy (Z.land _ _)) eqn:Ea; [simplify_eq; split; [apply ebitmap_init_wf|done]|].
  apply land_63_aligned in Ea; [|lia].
  destruct (Z.eqb_spec (le32_at buf 2) 0) as [Hc0|Hc0];
    [simplify_eq; split; [apply ebitmap_init_wf|done]|].
  destruct (read_loop _ _ _ _ _) as [[[rc'|ns] fp2] o1] eqn:Er; simplify_eq.
  - split; [apply ebitmap_init_wf|done].
  - apply read_loop_wf in Er as (Hns & _ & Hlen & Hhigh); try (done || lia).
    split; [|done]. split; [done|]. cbn. destruct ns; [|done].
    pose proof (le_at_range buf 4 (4 * 2) Hbuf) as Hc. fold (le32_at buf 2) in Hc. cbn [length] in Hlen. lia.
Qed.

(** ** Round trip *)

Lemma le32_at_app k x rest buf :
  0 <= x < 2 ^ 32 -> buf = k ++ le_bytes 4 x ++ rest -> forall i, (4 * i)%nat = length k ->
  le32_at buf i = x.
Proof.
  intros Hx -> i Hi. unfold le32_at. rewrite Hi, drop_app_length.
  rewrite take_app_le by (by rewrite length_le_bytes).
  rewrite take_ge by (by rewrite length_le_bytes). by apply le_val_le_bytes.
Qed.

Lemma le64_at_0 x : 0 <= x < 2 ^ 64 -> le64_at (le_bytes 8 x) 0 = x.
Proof.
  intros Hx. unfold le64_at. rewrite drop_0, take_ge by (by rewrite length_le_bytes). by apply le_val_le_bytes.
Qed.

Lemma read_loop_roundtrip ns hb l fp fp' :
  nodes_ok ns -> (forall p, l = Some p -> 0 <= p < 2 ^ 32 /\ above p ns) ->
  match ns with [] => forall p, l = Some p -> p + MAPSIZE = hb | _ => last_highbit ns = hb end ->
  reads fp (nodes_bytes ns) fp' ->
  read_loop (length ns) hb l fp [] = (inr ns, fp', []).
Proof.
  revert l fp. induction ns as [|a ns IH]; intros l fp Hns Hl Hhb Hr.
  - assert (fp' = fp) as ->.
    { destruct fp, fp', Hr as (rest & ? & ? & ? & ? & Hlen); cbn in *; subst.
      destruct Hlen as [[_ ->]|(_ & -> & ->)]; done. }
    cbn. destruct l as [p|]; [|done]. destruct (Hl p eq_refl) as [Hp _].
    rewrite usz_small by (unfold MAPSIZE; lia). specialize (Hhb p eq_refl).
    destruct (Z.eqb_spec (p + MAPSIZE) hb); done.
  - pose proof Hns as (Ha & Hab & Hns'). pose proof Ha as [].
    cbn [nodes_bytes] in Hr. unfold node_bytes in Hr. rewrite <-app_assoc in Hr.
    apply reads_app in Hr as (fp1 & Hr1 & Hr). apply reads_app in Hr as (fp2 & Hr2 & Hr3).
    cbn [length read_loop].
    apply next_entry_reads in Hr1; [|done]. rewrite length_le_bytes in Hr1. rewrite Hr1. cbn [malloc].
    apply next_entry_reads in Hr2; [|done]. rewrite length_le_bytes in Hr2. rewrite Hr2.
    rewrite (le32_at_app [] (startbit a) []) by (done || unfold MAPSIZE in *; lia || by rewrite app_nil_r).
    rewrite le64_at_0, aligned_land_63 by (done || lia).
    assert (startbit a + MAPSIZE <= hb < 2 ^ 32) as Hend.
    { subst hb. split; [|by apply last_highbit_nonneg]. apply last_highbit_bound; [done|].
      rewrite word_at_cons, Z.eqb_refl. lia. }
    rewrite usz_small by (unfold MAPSIZE in *; lia). case_Z; [lia|].
    assert (truthy (nmap a) = true) as -> by (apply truthy_true; lia). cbn [negb].
    assert (match l with Some p => startbit a <=? p | None => false end = false) as ->.
    { destruct l as [p|]; [|done]. destruct (Hl p eq_refl) as [_ [Hp _]%above_cons].
      apply Z.leb_gt. lia. }
    rewrite (IH (Some (startbit a)) fp2); try done; [by destruct a| |].
    + intros p [= <-]. split; [unfold MAPSIZE in *; lia|done].
    + destruct ns as [|b ns]; [|by rewrite last_highbit_cons2 in Hhb].
      intros p [= <-]. by rewrite (last_highbit_some [a] a) in Hhb.
Qed.

Lemma length_nodes_lt l : nodes_ok l -> Z.of_nat (length l) < 2 ^ 32.
Proof.
  intros Hl. enough (forall s, 0 <= s -> above (s - 1) l -> l <> [] ->
    s + Z.of_nat (length l) <= last_highbit l) as H.
  { destruct (decide (l = [])) as [->|Hne]; [done|]. pose proof (last_highbit_nonneg l Hl).
    specialize (H 0 ltac:(lia)). destruct l as [|a l]; [done|]. destruct Hl as (Ha & Hab & Hl).
    pose proof (ok_lo _ Ha). enough (above (0 - 1) (a :: l)) by (specialize (H ltac:(done) Hne); lia).
    apply nodes_ok_above; [by split_and!|lia]. }
  induction l as [|a l IH]; intros s Hs Ha Hne; [done|]. destruct Hl as (Hok & Hab & Hl).
  apply above_cons in Ha as [Ha _]. cbn [length]. destruct l as [|b l].
  - rewrite (last_highbit_some [a] a) by done. cbn. unfold MAPSIZE. lia.
  - rewrite last_highbit_cons2. specialize (IH Hl (s + 1) ltac:(lia)).
    cbn [length] in *. enough (above (s + 1 - 1) (b :: l)) by (specialize (IH ltac:(done) ltac:(done)); lia).
    eapply above_weaken; [done|lia].
Qed.

Lemma count_nodes l c :
  0 <= c -> c + Z.of_nat (length l) < 2 ^ 32 ->
  fold_left (fun c (_ : ebitmap_node) => u32 (c + 1)) l c = c + Z.of_nat (length l).
Proof.
  revert c. induction l as [|a l IH]; intros c Hc Hb; cbn [fold_left length] in *; [lia|].
  rewrite u32_small by lia. rewrite IH by lia. lia.
Qed.

Lemma ebitmap_read_roundtrip e fp fp' :
  ebitmap_wf e -> reads fp (ebitmap_bytes e) fp' -> ebitmap_read fp [] = (0, e, fp', []).
Proof.
  intros [Hl Hh] Hr. unfold ebitmap_bytes in Hr. rewrite Hh in Hr.
  set (hdr := le_bytes 4 MAPSIZE ++ le_bytes 4 (last_highbit (node e)) ++
              le_bytes 4 (Z.of_nat (length (node e)))) in Hr.
  pose proof (last_highbit_nonneg _ Hl). pose proof (length_nodes_lt _ Hl).
  assert (le32_at hdr 0 = MAPSIZE) as E0 by (by eapply (le32_at_app [])).
  assert (le32_at hdr 1 = last_highbit (node e)) as E1 by
    (by eapply (le32_at_app (le_bytes 4 MAPSIZE))).
  assert (le32_at hdr 2 = Z.of_nat (length (node e))) as E2.
  { eapply (le32_at_app (le_bytes 4 MAPSIZE ++ le_bytes 4 (last_highbit (node e))) _ []);
      [lia|by rewrite app_nil_r, <-app_assoc|by rewrite length_app, !length_le_bytes]. }
  apply reads_app in Hr as (fp1 & Hr1 & Hr2). unfold ebitmap_read.
  rewrite (next_entry_whole _ hdr _ 12 eq_refl ltac:(done) Hr1). cbn zeta. rewrite E0, E1, E2.
  rewrite Z.eqb_refl. cbn [negb]. destruct (decide (node e = [])) as [E|Hne].
  - rewrite E in *. cbn [nodes_bytes] in Hr2. change (last_highbit []) with 0 in *.
    apply reads_nil in Hr2 as ->. by destruct e; cbn in *; subst.
  - pose proof (last_highbit_pos _ Hl Hne) as Hpos. unfold MAPSIZE in Hpos. case_Z; [lia|].
    assert (last_highbit (node e) mod MAPSIZE = 0) as Hal.
    { destruct (last (node e)) as [ln|] eqn:E; [|by apply last_None in E].
      rewrite (last_highbit_some _ ln) by done. pose proof (nodes_ok_member _ _ Hl (last_Some_elem_of _ _ E)) as [].
      rewrite <-(Z.mul_1_l MAPSIZE) at 1. by rewrite Z.mod_add. }
    rewrite aligned_land_63 by done.
    case_Z; [destruct (node e); [done|cbn in *; lia]|]. rewrite Nat2Z.id.
    rewrite (read_loop_roundtrip (node e) _ None fp1 fp'); try done.
    + destruct e; cbn in *. by subst.
    + by destruct (node e).
Qed.

Lemma length_nodes_bytes l : length (nodes_bytes l) = (12 * length l)%nat.
Proof.
  induction l as [|a l IH]; [done|]. cbn [nodes_bytes length]. unfold node_bytes.
  rewrite !length_app, !length_le_bytes, IH. lia.
Qed.

Lemma length_ebitmap_bytes e : length (ebitmap_bytes e) = (12 + 12 * length (node e))%nat.
Proof. unfold ebitmap_bytes. by rewrite !length_app, !length_le_bytes, length_nodes_bytes. Qed.

Lemma write_loop_wrote l fp :
  can_put fp (12 * Z.of_nat (length l)) ->
  exists fp', write_loop l fp = (POLICYDB_SUCCESS, fp') /\ wrote fp (nodes_bytes l) fp'.
Proof.
  revert fp. induction l as [|a l IH]; intros fp Hc; cbn [write_loop nodes_bytes length] in *.
  { exists fp. split; [done|]. repeat split; try done; [by rewrite app_nil_r|cbn; lia]. }
  destruct (put_entry_wrote fp (le_bytes 4 (startbit a)) 4 1) as (fp1 & -> & Hw1).
  { eapply can_put_le; [done|lia]. } { lia. } { by rewrite length_le_bytes. }
  cbn [Z.eqb negb]. change (1 =? 1) with true. cbn [negb].
  destruct (put_entry_wrote fp1 (le_bytes 8 (nmap a)) 8 1) as (fp2 & -> & Hw2).
  { eapply can_put_after; [done|]. rewrite length_le_bytes. eapply can_put_le; [done|lia]. }
  { lia. } { by rewrite length_le_bytes. }
  change (1 =? 1) with true. cbn [negb].
  pose proof (wrote_app _ _ _ _ _ Hw1 Hw2) as Hw.
  destruct (IH fp2) as (fp' & -> & Hw3).
  { eapply can_put_after; [done|]. rewrite length_app, !length_le_bytes.
    eapply can_put_le; [done|lia]. }
  exists fp'. split; [done|]. by eapply wrote_app.
Qed.

Lemma ebitmap_write_wrote e fp :
  ebitmap_wf e -> can_put fp (12 + 12 * Z.of_nat (length (node e))) ->
  exists fp', ebitmap_write e fp = (POLICYDB_SUCCESS, fp') /\ wrote fp (ebitmap_bytes e) fp'.
Proof.
  intros [Hl Hh] Hc. unfold ebitmap_write. cbn zeta.
  pose proof (length_nodes_lt _ Hl). rewrite count_nodes, Z.add_0_l by lia.
  destruct (put_entry_wrote fp (le_bytes 4 MAPSIZE ++ le_bytes 4 (highbit e) ++
    le_bytes 4 (Z.of_nat (length (node e)))) 4 3) as (fp1 & Hp & Hw1).
  { eapply can_put_le; [done|lia]. } { lia. } { by rewrite !length_app, !length_le_bytes. }
  rewrite Hp. change (3 =? 3) with true. cbn [negb].
  destruct (write_loop_wrote (node e) fp1) as (fp2 & -> & Hw2).
  { eapply can_put_after; [done|]. rewrite !length_app, !length_le_bytes.
    eapply can_put_le; [done|lia]. }
  exists fp2. split; [done|]. by eapply wrote_app.
Qed.

(** * The properties of the bitmaps, with concrete instances

    Each theorem below states one contract of ebitmap.c for all well-formed bitmaps;
    the witness after it runs the code on a concrete bitmap. *)

(** Bits 3 and 70 (two words), and bits 70 and 128. *)
Definition ex_a : ebitmap := Ebitmap [Node 0 8; Node 64 64] 128.
Definition ex_b : ebitmap := Ebitmap [Node 64 64; Node 128 1] 192.

Lemma ex_a_wf : ebitmap_wf ex_a.
Proof.
  split; [|done]. cbn. unfold above. split_and!; repeat constructor; cbn; done || lia.
Defined.

Lemma ex_b_wf : ebitmap_wf ex_b.
Proof.
  split; [|done]. cbn. unfold above. split_and!; repeat constructor; cbn; done || lia.
Defined.

(** C27: The set operations of ebitmap.c.  On well-formed arguments [ebitmap_or],
    [ebitmap_and] and [ebitmap_xor] build the union, intersection and symmetric
    difference; [ebitmap_not] and [ebitmap_andnot] terminate for every [maxbit] up to
    2^32 - 64 and build the complement and the difference below [maxbit].  The result
    is well formed, the only failure is a failed [malloc], and it then leaves an empty
    bitmap. *)
Theorem ebitmap_algebra_correct e1 e2 maxbit o :
  ebitmap_wf e1 -> ebitmap_wf e2 -> 0 <= maxbit <= 2 ^ 32 - MAPSIZE ->
  builds o (ebitmap_or e1 e2 o) (fun b => ebitmap_mem e1 b || ebitmap_mem e2 b) /\
  builds o (ebitmap_and e1 e2 o) (fun b => ebitmap_mem e1 b && ebitmap_mem e2 b) /\
  builds o (ebitmap_xor e1 e2 o) (fun b => xorb (ebitmap_mem e1 b) (ebitmap_mem e2 b)) /\
  (exists r, ebitmap_not e1 maxbit o = Some r /\
     builds o r (fun b => bool_decide (0 <= b < maxbit) && negb (ebitmap_mem e1 b))) /\
  (exists r, ebitmap_andnot e1 e2 maxbit o = Some r /\
     builds o r (fun b => ebitmap_mem e1 b &&
                          (bool_decide (0 <= b < maxbit) && negb (ebitmap_mem e2 b)))).
Proof.
  intros. split_and!; auto using ebitmap_or_correct, ebitmap_and_correct, ebitmap_xor_correct,
    ebitmap_not_spec, ebitmap_andnot_spec.
Qed.

Lemma ebitmap_algebra_witness :
  ebitmap_or ex_a ex_b [] = (0, Ebitmap [Node 0 8; Node 64 64; Node 128 1] 192, []) /\
  builds [] (ebitmap_or ex_a ex_b []) (fun b => ebitmap_mem ex_a b || ebitmap_mem ex_b b).
Proof.
  split; [vm_compute; reflexivity|].
  apply (ebitmap_algebra_correct ex_a ex_b 256 [] ex_a_wf ex_b_wf); unfold MAPSIZE; lia.
Defined.

(** [ebitmap_set_bit] on every branch: for a bit number whose word fits it sets or
    clears exactly that bit and keeps the invariant (dropping a word that became zero
    and recomputing [highbit]); it fails with [-ENOMEM] only when a new node is needed
    and [malloc] fails, and with [-EINVAL] exactly for the last 64 bit numbers, and a
    failure leaves the bitmap as it was. *)
Theorem ebitmap_set_bit_correct e bit value o :
  ebitmap_wf e -> 0 <= bit < 2 ^ 32 ->
  let '(rc, e', _) := ebitmap_set_bit e bit value o in
  ebitmap_wf e' /\
  (rc = 0 /\ bit < 2 ^ 32 - MAPSIZE /\
     (forall b, ebitmap_mem e' b = if b =? bit then value else ebitmap_mem e b) /\
     ebitmap_get_bit e' bit = (if value then 1 else 0) \/
   rc = - ENOMEM /\ e' = e /\ value = true /\ o <> [] \/
   rc = - EINVAL /\ e' = e /\ 2 ^ 32 - MAPSIZE <= bit).
Proof.
  intros Hwf Hb. destruct (decide (bit < 2 ^ 32 - MAPSIZE)) as [Hlt|Hge].
  - destruct (ebitmap_set_bit e bit value o) as [[rc e'] o'] eqn:E.
    destruct (ebitmap_set_bit_spec e bit value o rc e' o' Hwf ltac:(lia) E) as [Hwf' [[-> Hm]|Hf]].
    + split; [done|]. left. split_and!; try done.
      rewrite ebitmap_get_bit_correct, Hm, Z.eqb_refl by done. done.
    + split; [done|]. by right; left.
  - rewrite ebitmap_set_bit_overflow by lia. split; [done|]. right; right. split_and!; done || lia.
Qed.

Lemma ebitmap_set_bit_witness :
  ebitmap_set_bit ex_a 70 false [] = (0, Ebitmap [Node 0 8] 64, []) /\
  ebitmap_wf (Ebitmap [Node 0 8] 64).
Proof.
  split; [vm_compute; reflexivity|].
  pose proof (ebitmap_set_bit_correct ex_a 70 false [] ex_a_wf ltac:(lia)) as H.
  exact (proj1 H).
Defined.

(** The queries.  On well-formed bitmaps [ebitmap_get_bit] is membership,
    [ebitmap_contains] is inclusion (the [highbit] shortcut never rejects a subset),
    [ebitmap_match_any] is non-empty intersection, and [ebitmap_highest_set_bit] is
    the maximum. *)
Theorem ebitmap_queries_correct e1 e2 :
  ebitmap_wf e1 -> ebitmap_wf e2 ->
  (forall b, ebitmap_get_bit e1 b = if ebitmap_mem e1 b then 1 else 0) /\
  (ebitmap_contains e1 e2 = 1 <->
     forall b, ebitmap_mem e2 b = true -> ebitmap_mem e1 b = true) /\
  (ebitmap_match_any e1 e2 = 1 <->
     exists b, ebitmap_mem e1 b = true /\ ebitmap_mem e2 b = true) /\
  (node e1 <> [] ->
     ebitmap_mem e1 (ebitmap_highest_set_bit e1) = true /\
     forall b, ebitmap_mem e1 b = true -> b <= ebitmap_highest_set_bit e1).
Proof.
  intros H1 H2. split_and!; auto using ebitmap_get_bit_correct, ebitmap_contains_correct,
    ebitmap_match_any_correct. by apply ebitmap_highest_set_bit_correct.
Qed.

Lemma ebitmap_queries_witness :
  ebitmap_highest_set_bit ex_b = 128 /\ ebitmap_match_any ex_b ex_a = 1 /\
  exists b, ebitmap_mem ex_b b = true /\ ebitmap_mem ex_a b = true.
Proof.
  split; [reflexivity|]. split; [reflexivity|].
  apply (ebitmap_queries_correct ex_b ex_a ex_b_wf ex_a_wf). reflexivity.
Defined.

(** The representation is canonical: [ebitmap_cmp] accepts exactly the pairs of
    bitmaps with the same bits, and two well-formed bitmaps with the same bits are the
    same list of words. *)
Theorem ebitmap_canonical e1 e2 :
  ebitmap_wf e1 -> ebitmap_wf e2 ->
  (ebitmap_cmp e1 e2 = 1 <-> e1 = e2) /\
  (e1 = e2 <-> forall b, ebitmap_mem e1 b = ebitmap_mem e2 b).
Proof.
  intros H1 H2.
  assert (e1 = e2 <-> forall b, ebitmap_mem e1 b = ebitmap_mem e2 b) as Hext
    by (split; [by intros ->|by apply ebitmap_ext]).
  by rewrite ebitmap_cmp_correct, Hext.
Qed.

Lemma ebitmap_canonical_witness : ebitmap_cmp ex_a ex_a = 1 /\ ex_a = ex_a.
Proof. split; [reflexivity|]. apply (ebitmap_canonical ex_a ex_a ex_a_wf ex_a_wf). reflexivity. Defined.

(** [ebitmap_for_each_positive_bit] terminates and visits exactly the bits of the
    bitmap in increasing order, and [ebitmap_cardinality] is the number of bits it
    visits (the [unsigned int] counter does not wrap). *)
Theorem ebitmap_iteration_correct e :
  ebitmap_wf e ->
  exists l, ebitmap_positive_bits e = Some l /\ StronglySorted Z.lt l /\
    (forall b, b ∈ l <-> ebitmap_mem e b = true) /\
    ebitmap_cardinality e = Z.of_nat (length l).
Proof.
  intros Hwf. exists (ebitmap_bits e). split_and!.
  - by apply ebitmap_positive_bits_correct.
  - apply sorted_filter, sorted_seqZ.
  - intros b. by rewrite <-nodes_bits_filter, elem_of_nodes_bits.
  - by apply ebitmap_cardinality_correct.
Qed.

Lemma ebitmap_iteration_witness :
  ebitmap_positive_bits ex_a = Some [3; 70] /\ ebitmap_cardinality ex_a = 2 /\
  exists l, ebitmap_positive_bits ex_a = Some l /\ StronglySorted Z.lt l /\
    (forall b, b ∈ l <-> ebitmap_mem ex_a b = true) /\
    ebitmap_cardinality ex_a = Z.of_nat (length l).
Proof.
  split; [vm_compute; reflexivity|]. split; [vm_compute; reflexivity|].
  exact (ebitmap_iteration_correct ex_a ex_a_wf).
Defined.

(** [ebitmap_init_range] on every branch: it rejects an empty range with [-EINVAL]
    and a range that reaches the last 64 bit numbers with [-EOVERFLOW]; otherwise it
    terminates, and unless [malloc] fails the bitmap is well formed and holds exactly
    the bits [minbit..maxbit]. *)
Theorem ebitmap_init_range_correct minbit maxbit o :
  0 <= minbit < 2 ^ 32 -> 0 <= maxbit < 2 ^ 32 ->
  exists rc e o', ebitmap_init_range minbit maxbit o = Some (rc, e, o') /\
    ((maxbit < minbit /\ rc = - EINVAL /\ e = ebitmap_init) \/
     (minbit <= maxbit /\ 2 ^ 32 - MAPSIZE <= maxbit /\ rc = - EOVERFLOW /\ e = ebitmap_init) \/
     (minbit <= maxbit < 2 ^ 32 - MAPSIZE /\
      (rc = - ENOMEM /\ o <> [] \/
       rc = 0 /\ ebitmap_wf e /\
       forall b, ebitmap_mem e b = bool_decide (minbit <= b <= maxbit)))).
Proof. apply ebitmap_init_range_spec. Qed.

Lemma ebitmap_init_range_witness :
  ebitmap_init_range 62 65 [] = Some (0, Ebitmap [Node 0 (2 ^ 62 + 2 ^ 63); Node 64 3] 128, []) /\
  exists rc e o', ebitmap_init_range 62 65 [] = Some (rc, e, o').
Proof.
  split; [vm_compute; reflexivity|].
  destruct (ebitmap_init_range_correct 62 65 [] ltac:(lia) ltac:(lia)) as (rc & e & o' & H & _).
  eauto.
Defined.

(** When a [malloc] fails in the middle of a range, [ebitmap_init_range] returns
    [-ENOMEM] with the nodes allocated so far still linked and [highbit] zero, which
    breaks the invariant, unlike every other failing operation of the file. *)
Theorem ebitmap_init_range_enomem_dirty :
  exists rc e o', ebitmap_init_range 62 65 [true; false] = Some (rc, e, o') /\
    rc = - ENOMEM /\ ~ ebitmap_wf e.
Proof.
  eexists _, _, _. split; [vm_compute; reflexivity|]. split; [done|]. intros [_ H]. done.
Qed.

(** For [maxbit] above 2^32 - 64 the unsigned loop counter of [ebitmap_not] wraps to
    0 before it reaches [maxbit]: while memory lasts the loop never ends, whatever the
    bitmap. *)
Theorem ebitmap_not_diverges e maxbit :
  2 ^ 32 - MAPSIZE < maxbit < 2 ^ 32 ->
  forall fuel, not_loop fuel (node e) 0 maxbit [] = None.
Proof. intros. apply not_loop_diverges; done || lia. Qed.

Lemma ebitmap_not_diverges_witness :
  2 ^ 32 - MAPSIZE < 2 ^ 32 - 1 < 2 ^ 32 /\ not_loop 1000 (node ex_a) 0 (2 ^ 32 - 1) [] = None.
Proof. split; [done|]. apply (ebitmap_not_diverges ex_a (2 ^ 32 - 1)). done. Defined.

(** [ebitmap_read] never returns a malformed bitmap, whatever bytes it is given and
    wherever the allocator fails: the bitmap it leaves is well formed, and empty when
    the return code is not 0. *)
Theorem ebitmap_read_safe fp o :
  pf_bytes fp ->
  let '(rc, e, _, _) := ebitmap_read fp o in
  ebitmap_wf e /\ (rc <> 0 -> e = ebitmap_init).
Proof.
  intros Hb. destruct (ebitmap_read fp o) as [[[rc e] fp'] o'] eqn:E. by eapply ebitmap_read_wf.
Qed.

(** A truncated stream: the header announces one node that is missing. *)
Definition ex_truncated : policy_file :=
  PolicyFile PF_USE_MEMORY (le_bytes 4 64 ++ le_bytes 4 64 ++ le_bytes 4 1) 12 [].

Lemma ebitmap_read_safe_witness :
  ebitmap_read ex_truncated [] = (-1, ebitmap_init, PolicyFile PF_USE_MEMORY [] 0 [], []) /\
  ebitmap_wf ebitmap_init.
Proof.
  split; [vm_compute; reflexivity|].
  refine (proj1 (ebitmap_read_safe ex_truncated [] _)).
  unfold pf_bytes, is_byte. cbn. repeat constructor; done.
Defined.

(** Round trip through a binary policy: [ebitmap_write] of a well-formed bitmap
    succeeds on any stream with room for it, and [ebitmap_read] positioned on the bytes
    it wrote gives the same bitmap back and stops right after them. *)
Theorem ebitmap_roundtrip e fp :
  ebitmap_wf e -> can_put fp (12 + 12 * Z.of_nat (length (node e))) ->
  exists bs fp1, ebitmap_write e fp = (POLICYDB_SUCCESS, fp1) /\ wrote fp bs fp1 /\
    forall fr fr', reads fr bs fr' -> ebitmap_read fr [] = (0, e, fr', []).
Proof.
  intros Hwf Hc. destruct (ebitmap_write_wrote e fp Hwf Hc) as (fp1 & Hw & Hb).
  exists (ebitmap_bytes e), fp1. split_and!; try done. intros. by apply ebitmap_read_roundtrip.
Qed.

Lemma ebitmap_roundtrip_witness :
  exists bs fp1, ebitmap_write ex_a (PolicyFile PF_USE_STDIO [] 0 []) = (POLICYDB_SUCCESS, fp1) /\
    wrote (PolicyFile PF_USE_STDIO [] 0 []) bs fp1 /\
    forall fr fr', reads fr bs fr' -> ebitmap_read fr [] = (0, ex_a, fr', []).
Proof. apply (ebitmap_roundtrip ex_a); [exact ex_a_wf|by left]. Defined.
