(* ===== verification/Hashtab.v ===== *)
(** * The hash tables of libsepol (src/hashtab.c)

    A table is an array of chains.  Each chain is kept in increasing key order and
    the array doubles when it holds as many elements as slots.  The hash and
    comparison functions are function pointers of the table; they are the operations
    of the class [HashOps], and what hashtab.c expects of them is [HashLaws]
    (discharged for symbol tables in Symtab.v).  Keys are identified with the
    contents they point to. *)

From S2P Require Import Prelude.

Class HashOps (K : Type) := {
  hash_value : Z -> K -> Z;   (** [h->hash_value(h, key)], which reads [h->size] *)
  keycmp : K -> K -> Z        (** [h->keycmp(h, key1, key2)] *)
}.

(** What hashtab.c relies on: hashes index the array, and [keycmp] is a total order
    on the keys whose equivalence is equality.  [key_ok] are the legal keys. *)
Class HashLaws (K : Type) {ops : HashOps K} (key_ok : K -> Prop) := {
  hash_value_range size k : 0 < size < 2 ^ 32 -> 0 <= hash_value size k < size;
  keycmp_zero k1 k2 : key_ok k1 -> key_ok k2 -> keycmp k1 k2 = 0 <-> k1 = k2;
  keycmp_flip k1 k2 : key_ok k1 -> key_ok k2 -> 0 < keycmp k1 k2 <-> keycmp k2 k1 < 0;
  keycmp_trans k1 k2 k3 : key_ok k1 -> key_ok k2 -> key_ok k3 ->
    keycmp k1 k2 < 0 -> keycmp k2 k3 < 0 -> keycmp k1 k3 < 0
}.

Definition UINT32_MAX : Z := 2 ^ 32 - 1.

(** [struct hashtab_node]: a chain is its list of nodes. *)
Record hashtab_node (K D : Type) := HNode { hkey : K; hdatum : D }.
Arguments HNode {K D} _ _.
Arguments hkey {K D} _.
Arguments hdatum {K D} _.

(** [struct hashtab_val] (the two function pointers are [HashOps]). *)
Record hashtab_val (K D : Type) := Hashtab {
  htable : list (list (hashtab_node K D));
  hsize : Z;
  nel : Z
}.
Arguments Hashtab {K D} _ _ _.
Arguments htable {K D} _.
Arguments hsize {K D} _.
Arguments nel {K D} _.

Section operations.
Context {K D : Type} {ops : HashOps K}.
Abbreviation hnode := (hashtab_node K D).
Abbreviation chain := (list (hashtab_node K D)).
Abbreviation hashtab := (hashtab_val K D).

(** [hashtab_create]: the [malloc] of the table, then the [calloc] of the array. *)
Definition hashtab_create (size : Z) : alloc hashtab :=
  (let! p := alloc_new (Hashtab [] size 0 : hashtab) in
   alloc_new (Hashtab (replicate (Z.to_nat size) []) (hsize p) (nel p)))%alloc.

(** [h->htable[i]]. *)
Definition slot (t : list chain) (i : Z) : chain := default [] (t !! Z.to_nat i).

(** The doubling loop of [hashtab_check_resize]; [None] when the fuel ran out. *)
Fixpoint resize_loop (fuel : nat) (nel new_size : Z) : option Z :=
  match fuel with
  | O => None
  | S fuel' =>
      if (new_size <=? nel) && truthy (u32 (new_size * 2))
      then resize_loop fuel' nel (u32 (new_size * 2))
      else Some new_size
  end.

(** The search for [dst] and the link of [cur] in front of it. *)
Fixpoint place (cur : hnode) (dst : chain) : chain :=
  match dst with
  | [] => [cur]
  | d :: dst' => if 0 <? keycmp (hkey cur) (hkey d) then d :: place cur dst' else cur :: dst
  end.

(** One step of the move: hash [cur] at the new size and link it in its chain. *)
Definition move_node (new_size : Z) (new_htable : list chain) (cur : hnode) : list chain :=
  let hvalue := hash_value new_size (hkey cur) in
  <[Z.to_nat hvalue := place cur (slot new_htable hvalue)]> new_htable.

(** The [while (cur != NULL)] loop on one chain, and the loop over the array. *)
Definition move_chain (new_size : Z) (new_htable : list chain) (c : chain) : list chain :=
  foldl (move_node new_size) new_htable c.

Definition move_all (new_size : Z) (old : list chain) : list chain :=
  foldl (move_chain new_size) (replicate (Z.to_nat new_size) []) old.

(** [hashtab_check_resize]. *)
Definition hashtab_check_resize (h : hashtab) (o : oracle) : hashtab * oracle :=
  match resize_loop 32 (nel h) (hsize h) with
  | None => (h, o)
  | Some new_size =>
      if hsize h =? new_size then (h, o)
      else match malloc o with
           | (false, o') => (h, o')
           | (true, o') => (Hashtab (move_all new_size (htable h)) new_size (nel h), o')
           end
  end.

(** The scan of [hashtab_insert]: [None] when the key is there, otherwise the nodes
    up to [prev] and those from [cur]. *)
Fixpoint insert_scan (key : K) (c : chain) : option (chain * chain) :=
  match c with
  | [] => Some ([], [])
  | n :: c' =>
      let cmp := keycmp key (hkey n) in
      if 0 <? cmp then
        match insert_scan key c' with
        | Some (pre, post) => Some (n :: pre, post)
        | None => None
        end
      else if cmp =? 0 then None
      else Some ([], n :: c')
  end.

(** [hashtab_insert]; the first argument is [NULL] when [None]. *)
Definition hashtab_insert (h : option hashtab) (key : K) (datum : D) (o : oracle) :
    Z * option hashtab * oracle :=
  match h with
  | None => (SEPOL_ENOMEM, None, o)
  | Some h =>
      if nel h =? UINT32_MAX then (SEPOL_ENOMEM, Some h, o)
      else
        let (h, o) := hashtab_check_resize h o in
        let hvalue := hash_value (hsize h) key in
        match insert_scan key (slot (htable h) hvalue) with
        | None => (SEPOL_EEXIST, Some h, o)
        | Some (pre, post) =>
            match malloc o with
            | (false, o') => (SEPOL_ENOMEM, Some h, o')
            | (true, o') =>
                (SEPOL_OK,
                 Some (Hashtab (<[Z.to_nat hvalue := pre ++ HNode key datum :: post]> (htable h))
                         (hsize h) (u32 (nel h + 1))), o')
            end
        end
  end.

(** The scan of [hashtab_remove]: the nodes up to [last], [cur] and its tail. *)
Fixpoint remove_scan (key : K) (c : chain) : option (chain * hnode * chain) :=
  match c with
  | [] => None
  | n :: c' =>
      let cmp := keycmp key (hkey n) in
      if 0 <? cmp then
        match remove_scan key c' with
        | Some (pre, cur, post) => Some (n :: pre, cur, post)
        | None => None
        end
      else if cmp =? 0 then Some ([], n, c')
      else None
  end.

(** [hashtab_remove]; [destroy] is the optional callback, run on its state. *)
Definition hashtab_remove {A} (h : option hashtab) (key : K)
    (destroy : option (K -> D -> A -> A)) (args : A) : Z * option hashtab * A :=
  match h with
  | None => (SEPOL_ENOENT, None, args)
  | Some h =>
      let hvalue := hash_value (hsize h) key in
      match remove_scan key (slot (htable h) hvalue) with
      | None => (SEPOL_ENOENT, Some h, args)
      | Some (pre, cur, post) =>
          (SEPOL_OK,
           Some (Hashtab (<[Z.to_nat hvalue := pre ++ post]> (htable h)) (hsize h)
                   (u32 (nel h - 1))),
           match destroy with
           | Some f => f (hkey cur) (hdatum cur) args
           | None => args
           end)
      end
  end.

(** [hashtab_search]; [None] is the [NULL] datum. *)
Fixpoint search_chain (key : K) (c : chain) : option D :=
  match c with
  | [] => None
  | n :: c' =>
      let cmp := keycmp key (hkey n) in
      if 0 <? cmp then search_chain key c'
      else if cmp =? 0 then Some (hdatum n)
      else None
  end.

Definition hashtab_search (h : option hashtab) (key : K) : option D :=
  match h with
  | None => None
  | Some h => search_chain key (slot (htable h) (hash_value (hsize h) key))
  end.

(** [hashtab_destroy]: the nodes passed to [free], in order. *)
Definition hashtab_destroy (h : option hashtab) : list hnode :=
  match h with
  | None => []
  | Some h => concat (htable h)
  end.

(** [hashtab_map] with a callback on a state; it stops at the first non-zero result. *)
Fixpoint map_chain {A} (apply : K -> D -> A -> Z * A) (c : chain) (args : A) : Z * A :=
  match c with
  | [] => (0, args)
  | n :: c' =>
      let (ret, args) := apply (hkey n) (hdatum n) args in
      if truthy ret then (ret, args) else map_chain apply c' args
  end.

Fixpoint map_table {A} (apply : K -> D -> A -> Z * A) (t : list chain) (args : A) : Z * A :=
  match t with
  | [] => (SEPOL_OK, args)
  | c :: t' =>
      let (ret, args) := map_chain apply c args in
      if truthy ret then (ret, args) else map_table apply t' args
  end.

Definition hashtab_map {A} (h : option hashtab) (apply : K -> D -> A -> Z * A) (args : A) :
    Z * A :=
  match h with
  | None => (SEPOL_OK, args)
  | Some h => map_table apply (htable h) args
  end.

(** [hashtab_hash_eval]: slots used, longest chain and sum of squared lengths. *)
Definition eval_chain (acc : Z * Z * Z) (c : chain) : Z * Z * Z :=
  let '(slots_used, max_chain_len, chain2_len_sum) := acc in
  match c with
  | [] => acc
  | _ =>
      let chain_len := Z.of_nat (length c) in
      (slots_used + 1,
       if max_chain_len <? chain_len then chain_len else max_chain_len,
       chain2_len_sum + chain_len * chain_len)
  end.

Definition hashtab_hash_eval (h : hashtab) : Z * Z * Z :=
  foldl eval_chain (0, 0, 0) (htable h).
End operations.
