(* ===== verification/HashtabSpec.v ===== *)
(** * Hash tables: the invariant and the refinement to finite maps

    [hashtab_wf] is the invariant of hashtab.c; [hashtab_model] is the finite map a
    table stands for.  The lemmas give each operation its meaning on the map. *)

From S2P Require Import Prelude Hashtab.

Section spec.
Context {K D : Type} {ops : HashOps K} (key_ok : K -> Prop) {laws : HashLaws K key_ok}.
Context `{Countable K}.
Abbreviation hnode := (hashtab_node K D).
Abbreviation chain := (list (hashtab_node K D)).
Abbreviation hashtab := (hashtab_val K D).

Definition node_lt (a b : hnode) : Prop := keycmp (hkey a) (hkey b) < 0.

Definition chain_wf (size i : Z) (c : chain) : Prop :=
  StronglySorted node_lt c /\
  Forall (fun n => key_ok (hkey n) /\ hash_value size (hkey n) = i) c.

Definition table_wf (size : Z) (t : list chain) : Prop :=
  0 < size < 2 ^ 32 /\ Z.of_nat (length t) = size /\
  forall i c, t !! i = Some c -> chain_wf size (Z.of_nat i) c.

Definition hashtab_wf (h : hashtab) : Prop :=
  table_wf (hsize h) (htable h) /\
  nel h = Z.of_nat (length (concat (htable h))) /\ nel h < 2 ^ 32.

Definition pairs (l : list hnode) : list (K * D) := (fun n => (hkey n, hdatum n)) <$> l.

(** The finite map of a table. *)
Definition hashtab_model (h : hashtab) : gmap K D := list_to_map (pairs (concat (htable h))).

Lemma pairs_keys l : (pairs l).*1 = hkey <$> l.
Proof. unfold pairs. rewrite <-list_fmap_compose. done. Qed.

Lemma elem_of_pairs k d l : (k, d) ∈ pairs l <-> HNode k d ∈ l.
Proof.
  unfold pairs. rewrite list_elem_of_fmap. split.
  - intros ([k' d'] & [= -> ->] & ?). done.
  - intros. by exists (HNode k d).
Qed.

Lemma keycmp_refl k : key_ok k -> keycmp k k = 0.
Proof. intros. by apply keycmp_zero. Qed.

(** *** One chain *)

Lemma chain_wf_cons size i n c :
  chain_wf size i (n :: c) <->
  chain_wf size i c /\ (key_ok (hkey n) /\ hash_value size (hkey n) = i) /\ Forall (node_lt n) c.
Proof.
  unfold chain_wf. rewrite Forall_cons. split.
  - intros [Hs [? ?]]. inversion Hs; subst. done.
  - intros [[??] [??]]. split; [by constructor|done].
Qed.

Lemma chain_keys_NoDup size i c : chain_wf size i c -> NoDup (hkey <$> c).
Proof.
  induction c as [|n c IH]; simpl; [constructor|].
  rewrite chain_wf_cons. intros (Hc & [Hk _] & Hlt). constructor; [|by apply IH].
  rewrite list_elem_of_fmap. intros (m & Heq & Hm).
  rewrite Forall_forall in Hlt. specialize (Hlt m Hm). unfold node_lt in Hlt.
  rewrite Heq, keycmp_refl in Hlt; [lia|congruence].
Qed.

(** The comparison of a key with the head of a chain decides where it can be. *)
Lemma chain_below size i key n c :
  key_ok key -> chain_wf size i (n :: c) -> keycmp key (hkey n) < 0 ->
  Forall (fun m => keycmp key (hkey m) < 0) (n :: c).
Proof.
  intros Hk (Hc & [Hn _] & Hlt)%chain_wf_cons H1. constructor; [done|].
  destruct Hc as [_ Hok]. rewrite Forall_forall in *. intros m Hm.
  apply (keycmp_trans _ (hkey n)); auto; [by apply Hok|by apply Hlt].
Qed.

Lemma below_not_in key (c : chain) :
  key_ok key -> Forall (fun m => keycmp key (hkey m) < 0) c -> key ∉ (hkey <$> c).
Proof.
  rewrite list_elem_of_fmap, Forall_forall. intros Hk Hf (m & -> & Hm).
  specialize (Hf m Hm). rewrite keycmp_refl in Hf; [lia|done].
Qed.

Lemma search_chain_spec size i key c :
  key_ok key -> chain_wf size i c ->
  search_chain key c = (list_to_map (pairs c) : gmap K D) !! key.
Proof.
  intros Hk. induction c as [|n c IH]; intros Hwf; simpl.
  { by rewrite lookup_empty. }
  pose proof (chain_below size i key n c Hk Hwf) as Hb.
  apply chain_wf_cons in Hwf as (Hc & [Hn _] & Hlt).
  destruct (Z.ltb_spec 0 (keycmp key (hkey n))) as [Hgt|Hle].
  - rewrite lookup_insert_ne; [by apply IH|]. intros <-. rewrite keycmp_refl in Hgt by done. lia.
  - destruct (Z.eqb_spec (keycmp key (hkey n)) 0) as [E|E].
    + apply keycmp_zero in E; [|done..]. subst. by rewrite lookup_insert_eq.
    + assert (keycmp key (hkey n) < 0) by lia.
      pose proof (below_not_in key (n :: c) Hk (Hb ltac:(done))) as Hni.
      symmetry. change (<[hkey n:=hdatum n]> _) with (list_to_map (M := gmap K D) (pairs (n :: c))).
      apply not_elem_of_list_to_map. by rewrite pairs_keys.
Qed.

Lemma insert_scan_spec size i key c :
  key_ok key -> chain_wf size i c ->
  match insert_scan key c with
  | None => key ∈ (hkey <$> c)
  | Some (pre, post) =>
      c = pre ++ post /\ (key ∉ (hkey <$> c)) /\
      Forall (fun m => keycmp (hkey m) key < 0) pre /\
      Forall (fun m => keycmp key (hkey m) < 0) post
  end.
Proof.
  intros Hk. induction c as [|n c IH]; intros Hwf; cbn [insert_scan].
  { split_and!; try done. apply not_elem_of_nil. }
  pose proof (chain_below size i key n c Hk Hwf) as Hb.
  apply chain_wf_cons in Hwf as (Hc & [Hn _] & Hlt).
  destruct (Z.ltb_spec 0 (keycmp key (hkey n))) as [Hgt|Hle].
  - specialize (IH Hc). destruct (insert_scan key c) as [[pre post]|].
    + destruct IH as (-> & Hni & Hpre & Hpost). split_and!; [done| |constructor|]; try done.
      * simpl. rewrite not_elem_of_cons. split; [|done]. intros ->.
        rewrite keycmp_refl in Hgt by done. lia.
      * by apply keycmp_flip.
    + simpl. rewrite elem_of_cons. by right.
  - destruct (Z.eqb_spec (keycmp key (hkey n)) 0) as [E|E].
    + apply keycmp_zero in E; [|done..]. subst. by left.
    + assert (Hf : Forall (fun m => keycmp key (hkey m) < 0) (n :: c)) by (apply Hb; lia).
      split_and!; try done. by apply below_not_in.
Qed.

Lemma remove_scan_spec size i key c :
  key_ok key -> chain_wf size i c ->
  match remove_scan key c with
  | None => key ∉ (hkey <$> c)
  | Some (pre, cur, post) => c = pre ++ cur :: post /\ hkey cur = key
  end.
Proof.
  intros Hk. induction c as [|n c IH]; intros Hwf; cbn [remove_scan].
  { apply not_elem_of_nil. }
  pose proof (chain_below size i key n c Hk Hwf) as Hb.
  apply chain_wf_cons in Hwf as (Hc & [Hn _] & Hlt).
  destruct (Z.ltb_spec 0 (keycmp key (hkey n))) as [Hgt|Hle].
  - specialize (IH Hc). destruct (remove_scan key c) as [[[pre cur] post]|].
    + destruct IH as (-> & ?). done.
    + simpl. rewrite not_elem_of_cons. split; [|done]. intros ->.
      rewrite keycmp_refl in Hgt by done. lia.
  - destruct (Z.eqb_spec (keycmp key (hkey n)) 0) as [E|E].
    + apply keycmp_zero in E; done.
    + apply below_not_in; [done|]. apply Hb. lia.
Qed.

(** Linking a new key between the smaller and the larger ones. *)
Lemma chain_wf_link size i pre post n :
  chain_wf size i (pre ++ post) -> key_ok (hkey n) -> hash_value size (hkey n) = i ->
  Forall (fun m => keycmp (hkey m) (hkey n) < 0) pre ->
  Forall (fun m => keycmp (hkey n) (hkey m) < 0) post ->
  chain_wf size i (pre ++ n :: post).
Proof.
  intros [Hs Hf] Hk Hh Hpre Hpost. rewrite Forall_app in Hf. destruct Hf as [Hf1 Hf2].
  split; [|by rewrite Forall_app, Forall_cons].
  apply StronglySorted_app_2.
  - intros x1 x2 H1 [->|H2]%elem_of_cons; [|by eapply StronglySorted_app_1_elem_of].
    rewrite Forall_forall in Hpre. by apply Hpre.
  - by eapply StronglySorted_app_1_l.
  - constructor; [by eapply StronglySorted_app_1_r|done].
Qed.

Lemma chain_wf_unlink size i pre cur post :
  chain_wf size i (pre ++ cur :: post) -> chain_wf size i (pre ++ post).
Proof.
  intros [Hs Hf]. rewrite Forall_app, Forall_cons in Hf. destruct Hf as (Hf1 & _ & Hf2).
  split; [|by rewrite Forall_app].
  apply StronglySorted_app_2.
  - intros. eapply StronglySorted_app_1_elem_of; [done..|by right].
  - by eapply StronglySorted_app_1_l.
  - apply StronglySorted_app_1_r in Hs. by inversion Hs.
Qed.

(** [place] links as [insert_scan] does. *)
Lemma place_spec size i cur c :
  key_ok (hkey cur) -> hash_value size (hkey cur) = i -> chain_wf size i c ->
  hkey cur ∉ (hkey <$> c) ->
  chain_wf size i (place cur c) /\ place cur c ≡ₚ cur :: c.
Proof.
  intros Hk Hh Hwf Hni.
  assert (exists pre post, insert_scan (hkey cur) c = Some (pre, post) /\
            place cur c = pre ++ cur :: post) as (pre & post & Hi & ->).
  { pose proof (insert_scan_spec size i (hkey cur) c Hk Hwf) as Hsp.
    destruct (insert_scan (hkey cur) c) as [[pre post]|] eqn:E; [|done].
    exists pre, post. split; [done|]. clear Hsp Hwf Hni.
    revert pre post E. induction c as [|n c IH]; simpl; intros; [by simplify_eq|].
    destruct (0 <? keycmp (hkey cur) (hkey n)).
    - destruct (insert_scan (hkey cur) c) as [[pre' post']|]; simplify_eq. simpl.
      by rewrite (IH pre' post).
    - destruct (keycmp (hkey cur) (hkey n) =? 0); by simplify_eq. }
  pose proof (insert_scan_spec size i (hkey cur) c Hk Hwf) as Hsp. rewrite Hi in Hsp.
  destruct Hsp as (-> & _ & Hpre & Hpost). split; [by apply chain_wf_link|].
  by rewrite Permutation_middle.
Qed.

(** *** The array *)

Lemma table_slot size t key :
  table_wf size t ->
  t !! Z.to_nat (hash_value size key) = Some (slot t (hash_value size key)) /\
  chain_wf size (hash_value size key) (slot t (hash_value size key)).
Proof.
  intros (Hs & Hl & Hc). pose proof (hash_value_range size key Hs) as Hr.
  destruct (lookup_lt_is_Some_2 t (Z.to_nat (hash_value size key))) as [c Hi]; [lia|].
  unfold slot. rewrite Hi. simpl. split; [done|]. apply Hc in Hi. by rewrite Z2Nat.id in Hi by lia.
Qed.

Lemma table_wf_update size t key c :
  table_wf size t -> chain_wf size (hash_value size key) c ->
  table_wf size (<[Z.to_nat (hash_value size key) := c]> t).
Proof.
  intros (Hs & Hl & Hc) Hwf. pose proof (hash_value_range size key Hs) as Hr.
  split_and!; [lia..|by rewrite length_insert|].
  intros i d Hi. destruct (decide (i = Z.to_nat (hash_value size key))) as [->|Hne].
  - rewrite list_lookup_insert_eq in Hi by lia. simplify_eq. by rewrite Z2Nat.id by lia.
  - rewrite list_lookup_insert_ne in Hi by done. by apply Hc.
Qed.

(** A node of the table is in the slot of its hash. *)
Lemma table_node_slot size t n :
  table_wf size t -> n ∈ concat t <-> n ∈ slot t (hash_value size (hkey n)).
Proof.
  intros Hwf. destruct (table_slot size t (hkey n) Hwf) as [Hi _].
  destruct Hwf as (Hs & Hl & Hc). rewrite elem_of_concat. split; [|eauto].
  intros (i & c & Hic & Hn). pose proof (Hc i c Hic) as [_ Hf]. rewrite Forall_forall in Hf.
  destruct (Hf n Hn) as [_ Hh]. rewrite Hh, Nat2Z.id in Hi. rewrite Hh. congruence.
Qed.

Lemma table_key_slot size t key :
  table_wf size t -> key ∈ (hkey <$> concat t) <-> key ∈ (hkey <$> slot t (hash_value size key)).
Proof.
  intros Hwf. rewrite !list_elem_of_fmap.
  split; intros (n & -> & Hn); exists n; (split; [done|]); by apply (table_node_slot size).
Qed.

Lemma chains_keys_NoDup size j (t : list chain) :
  (forall i c, t !! i = Some c -> chain_wf size (Z.of_nat (j + i)) c) ->
  NoDup (hkey <$> concat t).
Proof.
  revert j. induction t as [|c t IH]; intros j Hc; simpl; [constructor|].
  rewrite fmap_app. apply NoDup_app. split_and!.
  - apply (chain_keys_NoDup size (Z.of_nat (j + 0))). by apply Hc.
  - intros k Hk Hk'. apply list_elem_of_fmap in Hk as (n & -> & Hn).
    apply list_elem_of_fmap in Hk' as (m & Heq & (i & d & Hd & Hm)%elem_of_concat).
    pose proof (Hc 0%nat c eq_refl) as [_ Hf1]. pose proof (Hc (S i) d Hd) as [_ Hf2].
    rewrite Forall_forall in Hf1, Hf2. destruct (Hf1 n Hn), (Hf2 m Hm).
    rewrite Heq in *. lia.
  - apply (IH (S j)). intros i d Hd. replace (S j + i)%nat with (j + S i)%nat by lia. by apply Hc.
Qed.

Lemma table_keys_NoDup size t : table_wf size t -> NoDup (hkey <$> concat t).
Proof. intros (_ & _ & Hc). apply (chains_keys_NoDup size 0). done. Qed.

Lemma table_keys_ok size t k : table_wf size t -> k ∈ (hkey <$> concat t) -> key_ok k.
Proof.
  intros (_ & _ & Hc) (n & -> & (i & c & Hi & Hn)%elem_of_concat)%list_elem_of_fmap.
  destruct (Hc i c Hi) as [_ Hf]. rewrite Forall_forall in Hf. by apply Hf.
Qed.

(** *** Growing the array *)

Lemma resize_loop_spec fuel nel size :
  0 < size < 2 ^ 32 -> (2 ^ (32 - Z.of_nat (S fuel)) | size) -> (S fuel <= 32)%nat ->
  exists new, resize_loop (S fuel) nel size = Some new /\ 0 < new < 2 ^ 32 /\
    (nel < new \/ u32 (new * 2) = 0).
Proof.
  revert size. induction fuel as [|fuel IH]; intros size Hs Hd Hf; cbn [resize_loop].
  - assert (u32 (size * 2) = 0) as ->.
    { destruct Hd as [q ->]. unfold u32.
      replace (q * 2 ^ (32 - Z.of_nat 1) * 2) with (q * 2 ^ 32) by (change (2 ^ 32) with (2 ^ 31 * 2); lia).
      apply Z.mod_mul; lia. }
    rewrite andb_false_r. exists size. split_and!; [done|lia..|].
    destruct (decide (nel < size)); [by left|]. right.
    destruct Hd as [q ->]. unfold u32.
    replace (q * 2 ^ (32 - Z.of_nat 1) * 2) with (q * 2 ^ 32) by (change (2 ^ 32) with (2 ^ 31 * 2); lia).
    apply Z.mod_mul; lia.
  - destruct (Z.leb_spec size nel); simpl; [|exists size; split_and!; done || lia].
    destruct (truthy (u32 (size * 2))) eqn:E.
    + apply truthy_true in E. pose proof (u32_range (size * 2)).
      apply IH; [lia| |lia].
      assert (Hd2 : (2 ^ (32 - Z.of_nat (S fuel)) | size * 2)).
      { replace (32 - Z.of_nat (S fuel)) with (32 - Z.of_nat (S (S fuel)) + 1) by lia.
        rewrite Z.pow_add_r by lia. by apply Z.mul_divide_mono_r. }
      unfold u32. rewrite Z.mod_eq by lia. apply Z.divide_sub_r; [done|].
      apply Z.divide_mul_l. exists (2 ^ Z.of_nat (S fuel)). rewrite <-Z.pow_add_r by lia.
      f_equal. lia.
    + apply truthy_false in E. exists size. split_and!; try done; [lia|lia|by right].
Qed.

Lemma move_node_spec size t n :
  table_wf size t -> key_ok (hkey n) -> hkey n ∉ (hkey <$> concat t) ->
  table_wf size (move_node size t n) /\ concat (move_node size t n) ≡ₚ n :: concat t.
Proof.
  intros Hwf Hk Hni. unfold move_node. destruct (table_slot size t (hkey n) Hwf) as [Hi Hc].
  rewrite (table_key_slot size) in Hni by done.
  destruct (place_spec size _ n _ Hk eq_refl Hc Hni) as [Hp Hperm].
  split; [by apply table_wf_update|]. by eapply concat_insert_add.
Qed.

Lemma move_nodes_spec size t l :
  table_wf size t -> Forall (fun n => key_ok (hkey n)) l ->
  NoDup (hkey <$> (l ++ concat t)) ->
  table_wf size (foldl (move_node size) t l) /\
  concat (foldl (move_node size) t l) ≡ₚ l ++ concat t.
Proof.
  revert t. induction l as [|n l IH]; intros t Hwf Hk Hnd; [done|]. cbn [foldl].
  apply Forall_cons in Hk as [Hn Hk]. simpl in Hnd. apply NoDup_cons in Hnd as [Hni Hnd].
  rewrite fmap_app, not_elem_of_app in Hni. destruct Hni as [Hnl Hni].
  destruct (move_node_spec size t n Hwf Hn Hni) as [Hwf' Hp].
  assert (Hperm : l ++ concat (move_node size t n) ≡ₚ n :: l ++ concat t)
    by (rewrite Hp; symmetry; apply Permutation_middle).
  destruct (IH (move_node size t n) Hwf' Hk) as [??].
  - rewrite Hperm. simpl. constructor; [|done].
    by rewrite fmap_app, not_elem_of_app.
  - split; [done|]. etrans; [done|]. done.
Qed.

Lemma table_wf_empty size : 0 < size < 2 ^ 32 -> table_wf size (replicate (Z.to_nat size) []).
Proof.
  intros Hs. split_and!; [lia..|rewrite length_replicate; lia|].
  intros i c [-> _]%lookup_replicate. split; constructor.
Qed.

Lemma table_nodes_ok size t : table_wf size t -> Forall (fun n => key_ok (hkey n)) (concat t).
Proof.
  intros Hwf. apply Forall_forall. intros n Hn. eapply table_keys_ok; [done|].
  apply list_elem_of_fmap. eauto.
Qed.

Lemma move_all_spec old_size new_size t :
  table_wf old_size t -> 0 < new_size < 2 ^ 32 ->
  table_wf new_size (move_all new_size t) /\ concat (move_all new_size t) ≡ₚ concat t.
Proof.
  intros Hwf Hs. unfold move_all, move_chain. rewrite foldl_concat.
  pose proof (table_wf_empty new_size Hs) as He.
  destruct (move_nodes_spec new_size _ (concat t) He) as [Hwf' Hp].
  - by eapply table_nodes_ok.
  - rewrite concat_replicate_nil, app_nil_r. by eapply table_keys_NoDup.
  - split; [done|]. etrans; [exact Hp|]. by rewrite concat_replicate_nil, app_nil_r.
Qed.

Lemma hashtab_model_perm h h' :
  hashtab_wf h -> concat (htable h') ≡ₚ concat (htable h) -> hashtab_model h' = hashtab_model h.
Proof.
  intros [Hwf _] Hp. unfold hashtab_model. symmetry. apply list_to_map_proper.
  - rewrite pairs_keys. by eapply table_keys_NoDup.
  - unfold pairs. by rewrite Hp.
Qed.

(** [hashtab_check_resize] keeps the contents; with memory it restores the load bound
    unless the array is at its largest size. *)
Lemma hashtab_check_resize_spec h o h' o' :
  hashtab_wf h -> hashtab_check_resize h o = (h', o') ->
  hashtab_wf h' /\ hashtab_model h' = hashtab_model h /\ nel h' = nel h /\
  (o = [] -> o' = [] /\ (nel h' < hsize h' \/ u32 (hsize h' * 2) = 0)).
Proof.
  intros Hwf. pose proof Hwf as (Ht & Hn & Hm). pose proof Ht as (Hs & _).
  destruct (resize_loop_spec 31 (nel h) (hsize h) Hs) as (new & Hr & Hnew & Hload);
    [apply Z.divide_1_l|lia|].
  unfold hashtab_check_resize. rewrite Hr. case_Z; intros E.
  - simplify_eq. split_and!; done.
  - destruct (malloc o) as [[] o1] eqn:Hma; simplify_eq; cycle 1.
    { split_and!; try done. by intros ->. }
    destruct (move_all_spec (hsize h) new (htable h) Ht Hnew) as [Hwf' Hp].
    split_and!; try done; [|by apply hashtab_model_perm|].
    + split_and!; try done. simpl. by rewrite Hp.
    + intros ->. cbn in Hma. by simplify_eq.
Qed.

(** *** Lookup, insertion, removal *)

Lemma hashtab_search_spec h key :
  hashtab_wf h -> key_ok key -> hashtab_search (Some h) key = hashtab_model h !! key.
Proof.
  intros [Hwf _] Hk. simpl. destruct (table_slot (hsize h) (htable h) key Hwf) as [Hi Hc].
  rewrite (search_chain_spec _ _ _ _ Hk Hc). unfold hashtab_model. apply option_eq. intros d.
  rewrite <-!elem_of_list_to_map
    by (rewrite pairs_keys; (by eapply chain_keys_NoDup) || (by eapply table_keys_NoDup)).
  rewrite !elem_of_pairs. symmetry.
  apply (table_node_slot (hsize h) (htable h) (HNode key d) Hwf).
Qed.

Lemma hashtab_model_None h key :
  hashtab_wf h -> hashtab_model h !! key = None <->
  key ∉ (hkey <$> slot (htable h) (hash_value (hsize h) key)).
Proof.
  intros [Hwf _]. rewrite <-(table_key_slot (hsize h)) by done.
  unfold hashtab_model. by rewrite <-not_elem_of_list_to_map, pairs_keys.
Qed.

(** Linking a node for an absent key. *)
Lemma hashtab_link h key datum pre post :
  hashtab_wf h -> key_ok key -> nel h < UINT32_MAX ->
  slot (htable h) (hash_value (hsize h) key) = pre ++ post ->
  chain_wf (hsize h) (hash_value (hsize h) key) (pre ++ HNode key datum :: post) ->
  let h' := Hashtab (<[Z.to_nat (hash_value (hsize h) key) := pre ++ HNode key datum :: post]>
                       (htable h)) (hsize h) (u32 (nel h + 1)) in
  hashtab_wf h' /\ hashtab_model h' = <[key := datum]> (hashtab_model h).
Proof.
  intros Hwf Hk Hmax Hsl Hc h'. pose proof Hwf as (Ht & Hn & Hm).
  destruct (table_slot (hsize h) (htable h) key Ht) as [Hi _]. rewrite Hsl in Hi.
  assert (Hp : concat (htable h') ≡ₚ HNode key datum :: concat (htable h)).
  { apply concat_insert_add with (c := pre ++ post); [done|]. by rewrite Permutation_middle. }
  assert (Ht' : table_wf (hsize h') (htable h')) by (by apply table_wf_update).
  split; [split_and!; [done| |]|].
  - rewrite Hp. simpl. unfold UINT32_MAX in *. rewrite u32_small by lia. lia.
  - apply u32_range.
  - unfold hashtab_model. rewrite (list_to_map_proper _ (pairs (HNode key datum :: concat (htable h)))).
    + done.
    + rewrite pairs_keys. by eapply table_keys_NoDup.
    + unfold pairs. by rewrite Hp.
Qed.

Lemma hashtab_insert_spec h key datum o rc h' o' :
  hashtab_wf h -> key_ok key -> hashtab_insert (Some h) key datum o = (rc, h', o') ->
  exists t', h' = Some t' /\ hashtab_wf t' /\
  (rc = SEPOL_OK /\ hashtab_model h !! key = None /\
     hashtab_model t' = <[key := datum]> (hashtab_model h) \/
   rc = SEPOL_EEXIST /\ is_Some (hashtab_model h !! key) /\ hashtab_model t' = hashtab_model h \/
   rc = SEPOL_ENOMEM /\ (nel h = UINT32_MAX \/ o <> []) /\
     hashtab_model t' = hashtab_model h).
Proof.
  intros Hwf Hk. unfold hashtab_insert. case_Z; intros E.
  { simplify_eq. exists h. split_and!; try done. right; right. split_and!; [done|by left|done]. }
  destruct (hashtab_check_resize h o) as [h1 o1] eqn:Hr.
  apply hashtab_check_resize_spec in Hr as (Hwf1 & Hm1 & Hn1 & Ho1); [|done].
  pose proof Hwf1 as (Ht1 & _ & Hlt). pose proof Hwf as (_ & Hn0 & ?).
  destruct (table_slot (hsize h1) (htable h1) key Ht1) as [_ Hc].
  pose proof (insert_scan_spec _ _ key _ Hk Hc) as Hsc.
  pose proof (hashtab_model_None h1 key Hwf1) as HNone.
  destruct (insert_scan key (slot (htable h1) (hash_value (hsize h1) key))) as [[pre post]|].
  - destruct Hsc as (Hsl & Hni & Hpre & Hpost). destruct (malloc o1) as [[] o2] eqn:Hma; simplify_eq.
    + eexists. split; [done|]. rewrite Hsl in Hc.
      destruct (hashtab_link h1 key datum pre post) as [Hwf2 Hm2]; try done.
      * unfold UINT32_MAX in *. lia.
      * by apply chain_wf_link.
      * split; [done|]. left. rewrite Hm2, Hm1. split_and!; try done. by rewrite <-Hm1, HNone.
    + exists h1. split_and!; try done. right; right. split_and!; try done. right.
      intros ->. destruct Ho1 as [-> _]; done.
  - simplify_eq. exists h1. split_and!; try done. right; left. split_and!; try done.
    rewrite <-Hm1. apply not_eq_None_Some. rewrite HNone. tauto.
Qed.

(** With memory available. *)
Lemma hashtab_insert_memory h key datum rc h' o' :
  hashtab_wf h -> hashtab_insert (Some h) key datum [] = (rc, h', o') -> o' = [].
Proof.
  intros Hw. unfold hashtab_insert. destruct (_ =? _); [congruence|].
  destruct (hashtab_check_resize h []) as [h1 o1] eqn:E.
  destruct (hashtab_check_resize_spec h [] h1 o1 Hw E) as (_ & _ & _ & Ho).
  destruct (Ho eq_refl) as [-> _]. destruct (insert_scan _ _) as [[pre post]|]; cbn [malloc]; congruence.
Qed.

Lemma hashtab_insert_new h key datum :
  hashtab_wf h -> key_ok key -> hashtab_model h !! key = None -> nel h < UINT32_MAX ->
  exists h', hashtab_insert (Some h) key datum [] = (0, Some h', []) /\
    hashtab_wf h' /\ hashtab_model h' = <[key := datum]> (hashtab_model h).
Proof.
  intros Hw Hk Hnone Hnel. destruct (hashtab_insert (Some h) key datum []) as [[rc h1] o1] eqn:E.
  pose proof (hashtab_insert_memory _ _ _ _ _ _ Hw E) as ->.
  destruct (hashtab_insert_spec h key datum [] rc h1 [] Hw Hk E)
    as (h' & -> & Hw' & [(-> & _ & Hm)|[(_ & [? ?] & _)|(_ & [?|?] & _)]]); [by exists h'|congruence|lia|done].
Qed.

(** The nodes of a table are the entries of its map. *)
Lemma nel_size h : hashtab_wf h -> nel h = Z.of_nat (size (hashtab_model h)).
Proof.
  intros [Hw [-> _]]. unfold hashtab_model. rewrite map_size_list_to_map.
  - unfold pairs. by rewrite length_fmap.
  - rewrite pairs_keys. by apply (table_keys_NoDup (hsize h)).
Qed.

Lemma table_nodes (P : K -> D -> Prop) h :
  hashtab_wf h -> map_Forall P (hashtab_model h) ->
  Forall (fun n => P (hkey n) (hdatum n)) (concat (htable h)).
Proof.
  intros [Hw _] Hf. apply Forall_forall. intros n Hn. apply Hf. apply elem_of_list_to_map_1.
  - rewrite pairs_keys. by eapply table_keys_NoDup.
  - apply elem_of_pairs. by destruct n.
Qed.

Lemma table_length h :
  hashtab_wf h -> Z.of_nat (length (concat (htable h))) = nel h /\ nel h <= UINT32_MAX.
Proof. intros (_ & -> & Hlt). split; [done|]. unfold UINT32_MAX. lia. Qed.

Lemma pairs_snoc (l : list hnode) n :
  NoDup (hkey <$> l ++ [n]) ->
  (list_to_map (pairs l) : gmap K D) !! hkey n = None /\
  (list_to_map (pairs (l ++ [n])) : gmap K D) = <[hkey n := hdatum n]> (list_to_map (pairs l)).
Proof.
  intros Hnd. rewrite fmap_app in Hnd. apply NoDup_app in Hnd as (_ & Hn & _).
  assert (Hni : hkey n ∉ (pairs l).*1) by (rewrite pairs_keys; intros Hin; apply (Hn _ Hin); by left).
  split; [by apply not_elem_of_list_to_map|]. unfold pairs. rewrite fmap_app. by apply list_to_map_snoc.
Qed.

Lemma hashtab_remove_spec {A} h key destroy (args : A) rc h' args' :
  hashtab_wf h -> key_ok key -> hashtab_remove (Some h) key destroy args = (rc, h', args') ->
  exists t', h' = Some t' /\ hashtab_wf t' /\
    hashtab_model t' = delete key (hashtab_model h) /\
    match hashtab_model h !! key with
    | None => rc = SEPOL_ENOENT /\ t' = h /\ args' = args
    | Some d => rc = SEPOL_OK /\
        args' = match destroy with Some f => f key d args | None => args end
    end.
Proof.
  intros Hwf Hk. unfold hashtab_remove. pose proof Hwf as (Ht & Hn & Hlt).
  destruct (table_slot (hsize h) (htable h) key Ht) as [Hi Hc].
  pose proof (remove_scan_spec _ _ key _ Hk Hc) as Hsc.
  pose proof (hashtab_model_None h key Hwf) as HNone.
  destruct (remove_scan key (slot (htable h) (hash_value (hsize h) key))) as [[[pre cur] post]|].
  - destruct Hsc as [Hsl Hkey]. intros. simplify_eq. eexists. split; [done|].
    rewrite Hsl in Hi, Hc. set (t' := <[_ := pre ++ post]> _).
    assert (Hp : concat (htable h) ≡ₚ cur :: concat t').
    { pose proof (concat_insert_perm (htable h) _ _ (pre ++ post) Hi) as Hp.
      fold t' in Hp. apply (Permutation_app_inv_r (pre ++ post)). rewrite <-Hp.
      rewrite <-(Permutation_middle pre post), <-Permutation_middle. done. }
    assert (Hwf' : hashtab_wf (Hashtab t' (hsize h) (u32 (nel h - 1)))).
    { rewrite Hp in Hn. simpl in Hn. split_and!; simpl; [|rewrite u32_small; lia|apply u32_range].
      apply table_wf_update; [done|]. by eapply chain_wf_unlink. }
    assert (Hmod : hashtab_model h = <[hkey cur := hdatum cur]>
                     (hashtab_model (Hashtab t' (hsize h) (u32 (nel h - 1))))).
    { unfold hashtab_model. rewrite (list_to_map_proper _ (pairs (cur :: concat t'))); [done| |].
      - rewrite pairs_keys. by eapply table_keys_NoDup.
      - unfold pairs. by rewrite Hp. }
    assert (Hni : hashtab_model (Hashtab t' (hsize h) (u32 (nel h - 1))) !! hkey cur = None).
    { unfold hashtab_model. apply not_elem_of_list_to_map. rewrite pairs_keys. simpl.
      apply table_keys_NoDup in Ht. rewrite Hp in Ht. by apply NoDup_cons in Ht as [? _]. }
    split; [done|]. rewrite Hmod, lookup_insert_eq, delete_insert_id by done. done.
  - intros. simplify_eq. exists h. rewrite (proj2 HNone) by done. rewrite delete_id by tauto. done.
Qed.

(** *** Writing to the data of a table in place *)

(** The nodes keep their keys, and their data change as [R] says. *)
Definition data_changed (R : K -> D -> D -> Prop) (n n' : hnode) : Prop :=
  hkey n' = hkey n /\ R (hkey n) (hdatum n) (hdatum n').

Lemma chain_changed R size i c c' :
  Forall2 (data_changed R) c c' -> chain_wf size i c -> chain_wf size i c'.
Proof.
  intros HF [Hs Hf]. split.
  - revert Hs. clear Hf. induction HF as [|n n' c c' [Hk _] HF IH]; intros Hs; [constructor|].
    inversion Hs as [|? ? Hs' Hlt]; subst. constructor; [by apply IH|].
    clear -HF Hlt Hk. induction HF as [|m m' c c' [Hm _] HF IH]; constructor;
      apply Forall_cons in Hlt as [? ?]; [|by apply IH]. unfold node_lt in *. by rewrite Hk, Hm.
  - induction HF as [|n n' c c' [Hk _] HF IH]; constructor; apply Forall_cons in Hf as [? ?];
      [by rewrite Hk|]. inversion Hs; subst. by apply IH.
Qed.

Lemma concat_changed R (t t' : list chain) :
  Forall2 (Forall2 (data_changed R)) t t' -> Forall2 (data_changed R) (concat t) (concat t').
Proof. induction 1; simpl; [constructor|]. by apply Forall2_app. Qed.

Lemma pairs_changed R l l' k :
  Forall2 (data_changed R) l l' ->
  option_Forall2 (R k) ((list_to_map (pairs l) : gmap K D) !! k) ((list_to_map (pairs l') : gmap K D) !! k).
Proof.
  induction 1 as [|n n' l l' [Hk HR] HF IH]; simpl; [rewrite lookup_empty; constructor|].
  rewrite Hk. destruct (decide (hkey n = k)) as [<-|Hne].
  - rewrite !lookup_insert_eq. by constructor.
  - by rewrite !lookup_insert_ne.
Qed.

Lemma table_changed R h t' :
  hashtab_wf h -> Forall2 (Forall2 (data_changed R)) (htable h) t' ->
  let h' := Hashtab t' (hsize h) (nel h) in
  hashtab_wf h' /\ forall k, option_Forall2 (R k) (hashtab_model h !! k) (hashtab_model h' !! k).
Proof.
  intros [(Hs & Hl & Hc) [Hn Hn2]] HF h'. pose proof (concat_changed R _ _ HF) as HFc. split.
  - split; [|simpl; by rewrite <-(Forall2_length _ _ _ HFc)].
    split; [exact Hs|]. simpl. split; [by rewrite <-(Forall2_length _ _ _ HF)|].
    intros i c' Hi. destruct (Forall2_lookup_r _ _ _ _ _ HF Hi) as (c & Hci & Hch).
    eapply chain_changed; [exact Hch|by apply Hc].
  - intros k. by apply pairs_changed.
Qed.

End spec.

(** ** Callbacks *)

Section map.
Context {K D A : Type}.
Implicit Types (apply : K -> D -> A -> Z * A) (c : list (hashtab_node K D)).

Lemma map_chain_app apply c1 c2 args :
  map_chain apply (c1 ++ c2) args =
  (let (ret, args1) := map_chain apply c1 args in
   if truthy ret then (ret, args1) else map_chain apply c2 args1).
Proof.
  revert args. induction c1 as [|n c1 IH]; intros args; simpl; [done|].
  destruct (apply _ _ _) as [r a]. destruct (truthy r) eqn:E; [by rewrite E|]. apply IH.
Qed.

Lemma map_table_concat apply t args :
  map_table apply t args = map_chain apply (concat t) args.
Proof.
  revert args. induction t as [|c t IH]; intros args; cbn [map_table concat]; [done|].
  rewrite map_chain_app. destruct (map_chain apply c args). by rewrite IH.
Qed.

(** A callback that always succeeds keeps an invariant on the nodes it has seen. *)
Lemma map_chain_invariant apply (I : list (hashtab_node K D) -> A -> Prop) c args :
  I [] args ->
  (forall pre n post a, c = pre ++ n :: post -> I pre a ->
     exists a', apply (hkey n) (hdatum n) a = (0, a') /\ I (pre ++ [n]) a') ->
  exists args', map_chain apply c args = (0, args') /\ I c args'.
Proof.
  intros H0 Hstep. cut (forall post pre a, c = pre ++ post -> I pre a ->
    exists a', map_chain apply post a = (0, a') /\ I c a'); [intros H; by apply (H c [])|].
  induction post as [|n post IH]; intros pre a -> HI; cbn [map_chain].
  { rewrite app_nil_r in *. eauto. }
  destruct (Hstep pre n post a eq_refl HI) as (a' & -> & HI'). cbn.
  apply (IH (pre ++ [n])); [by rewrite <-app_assoc|done].
Qed.

Lemma hashtab_map_invariant apply (I : list (hashtab_node K D) -> A -> Prop) (h : hashtab_val K D) args :
  I [] args ->
  (forall pre n post a, concat (htable h) = pre ++ n :: post -> I pre a ->
     exists a', apply (hkey n) (hdatum n) a = (0, a') /\ I (pre ++ [n]) a') ->
  exists args', hashtab_map (Some h) apply args = (0, args') /\ I (concat (htable h)) args'.
Proof. intros. cbn [hashtab_map]. rewrite map_table_concat. by apply map_chain_invariant. Qed.
End map.
