(* ===== verification/Symtab.v ===== *)
(** * Symbol tables (src/symtab.c)

    The hash tables keyed by C strings: the djb2 hash and [strcmp].  A string is the
    list of its bytes before the terminating NUL. *)

From S2P Require Import Prelude Hashtab.

(** A C string: its bytes are not NUL. *)
Definition cstring_ok (s : list Z) : Prop := Forall (fun c => 1 <= c < 2 ^ 8) s.

(** The hash loop of [symhash]. *)
Fixpoint symhash_loop (hash : Z) (key : list Z) : Z :=
  match key with
  | [] => hash
  | c :: key' => symhash_loop (Z.lxor (u32 (u32 (Z.shiftl hash 5) + hash)) c) key'
  end.

(** [symhash] on a table of [size] slots. *)
Definition symhash (size : Z) (key : list Z) : Z :=
  Z.land (symhash_loop 5381 key) (u32 (size - 1)).

(** [strcmp]: the difference of the first bytes that differ, the NUL included. *)
Fixpoint strcmp (s1 s2 : list Z) : Z :=
  match s1, s2 with
  | [], [] => 0
  | [], c2 :: _ => 0 - c2
  | c1 :: _, [] => c1
  | c1 :: s1', c2 :: s2' => if c1 =? c2 then strcmp s1' s2' else c1 - c2
  end.

Definition symcmp (key1 key2 : list Z) : Z := strcmp key1 key2.

#[export] Instance sym_ops : HashOps (list Z) := {
  hash_value := symhash;
  keycmp := symcmp
}.

(** [symtab_t]. *)
Record symtab (D : Type) := Symtab { table : option (hashtab_val (list Z) D); nprim : Z }.
Arguments Symtab {D} _ _.
Arguments table {D} _.
Arguments nprim {D} _.

(** [symtab_init]: [nprim] is only reset when the table was created. *)
Definition symtab_init {D} (s : symtab D) (size : Z) (o : oracle) : Z * symtab D * oracle :=
  match hashtab_create size o with
  | (None, o') => (-1, Symtab None (nprim s), o')
  | (Some t, o') => (0, Symtab (Some t) 0, o')
  end.

(** [symtab_destroy]: the nodes freed. *)
Definition symtab_destroy {D} (s : option (symtab D)) : list (hashtab_node (list Z) D) :=
  match s with
  | None => []
  | Some s => match table s with Some t => hashtab_destroy (Some t) | None => [] end
  end.

(** * Symbol tables: [symhash] and [symcmp] satisfy the laws of the hash tables *)

Lemma symhash_range size key : 0 < size < 2 ^ 32 -> 0 <= symhash size key < size.
Proof.
  intros Hs. unfold symhash. rewrite u32_small by lia.
  pose proof (land_le_r (symhash_loop 5381 key) (size - 1)). lia.
Qed.

Lemma strcmp_refl s : strcmp s s = 0.
Proof. induction s as [|c s IH]; simpl; [done|]. by rewrite Z.eqb_refl. Qed.

Lemma strcmp_zero s1 s2 : cstring_ok s1 -> cstring_ok s2 -> strcmp s1 s2 = 0 <-> s1 = s2.
Proof.
  intros H1 H2. split; [|intros ->; apply strcmp_refl].
  revert s2 H2. induction H1 as [|c1 s1 Hc1 H1 IH]; intros s2 [|c2 s2' Hc2 H2]; simpl;
    [done|lia..|].
  case_Z; [|lia]. intros E%IH; [|done]. congruence.
Qed.

Lemma strcmp_flip s1 s2 : strcmp s2 s1 = - strcmp s1 s2.
Proof.
  revert s2. induction s1 as [|c1 s1 IH]; intros [|c2 s2]; simpl; [lia..|].
  rewrite (Z.eqb_sym c2). case_Z; [apply IH|lia].
Qed.

Lemma strcmp_trans s1 s2 s3 : cstring_ok s1 -> cstring_ok s2 -> cstring_ok s3 ->
  strcmp s1 s2 < 0 -> strcmp s2 s3 < 0 -> strcmp s1 s3 < 0.
Proof.
  intros H1 H2. revert s1 H1 s3.
  induction H2 as [|c2 s2 Hc2 H2 IH]; intros ? [|c1 s1 Hc1 H1] ? [|c3 s3 Hc3 H3];
    cbn [strcmp]; try lia.
  destruct (Z.eqb_spec c1 c2), (Z.eqb_spec c2 c3), (Z.eqb_spec c1 c3); subst; try lia.
  by apply IH.
Qed.

#[export] Instance sym_laws : HashLaws (list Z) cstring_ok.
Proof.
  split; simpl; unfold symcmp.
  - apply symhash_range.
  - apply strcmp_zero.
  - intros k1 k2 _ _. rewrite (strcmp_flip k1 k2). lia.
  - apply strcmp_trans.
Qed.
