(* ===== verification/HashtabProps.v ===== *)
(** * The properties of the hash tables *)

From S2P Require Import Prelude Hashtab HashtabSpec Symtab.

(** ** Iteration *)

Section map.
Context {K D A : Type}.
Implicit Types (apply : K -> D -> A -> Z * A) (c : list (hashtab_node K D)).

(** What the callback saw: every entry of [es] in turn, up to the first one on which it
    returned non-zero. *)
Inductive visits apply : list (K * D) -> A -> Z -> A -> Prop :=
  | visits_end a : visits apply [] a 0 a
  | visits_stop k d es a r a' :
      apply k d a = (r, a') -> r <> 0 -> visits apply ((k, d) :: es) a r a'
  | visits_next k d es a a1 r a' :
      apply k d a = (0, a1) -> visits apply es a1 r a' -> visits apply ((k, d) :: es) a r a'.

Lemma map_chain_visits apply c args r args' :
  map_chain apply c args = (r, args') -> visits apply (pairs c) args r args'.
Proof.
  revert args. induction c as [|n c IH]; intros args; simpl.
  { intros [= <- <-]. constructor. }
  destruct (apply _ _ _) as [r1 a1] eqn:E. destruct (truthy r1) eqn:Ht.
  - intros [= <- <-]. apply truthy_true in Ht. by apply visits_stop.
  - apply truthy_false in Ht as ->. intros. eapply visits_next; [done|by apply IH].
Qed.
End map.

(** ** The finite map specification *)

Section refinement.
Context {K D : Type} {ops : HashOps K} (key_ok : K -> Prop) {laws : HashLaws K key_ok}.
Context `{Countable K}.

(** A client: a sequence of calls. *)
Inductive hop := HInsert (k : K) (d : D) | HRemove (k : K) | HSearch (k : K).

Definition hop_key (op : hop) : K :=
  match op with HInsert k _ => k | HRemove k => k | HSearch k => k end.

(** A call on a table: its return value and the datum it hands out. *)
Definition table_step (h : option (hashtab_val K D)) (op : hop) :
    (Z * option D) * option (hashtab_val K D) :=
  match op with
  | HInsert k d => let '(rc, h', _) := hashtab_insert h k d [] in ((rc, None), h')
  | HRemove k =>
      let '(rc, h', x) := hashtab_remove h k (Some (fun _ d _ => Some d)) None in ((rc, x), h')
  | HSearch k => ((0, hashtab_search h k), h)
  end.

(** The same call on a finite map. *)
Definition map_step (m : gmap K D) (op : hop) : (Z * option D) * gmap K D :=
  match op with
  | HInsert k d =>
      match m !! k with
      | Some _ => ((SEPOL_EEXIST, None), m)
      | None => ((SEPOL_OK, None), <[k := d]> m)
      end
  | HRemove k =>
      match m !! k with
      | Some d => ((SEPOL_OK, Some d), delete k m)
      | None => ((SEPOL_ENOENT, None), m)
      end
  | HSearch k => ((0, m !! k), m)
  end.

Fixpoint run {S} (step : S -> hop -> (Z * option D) * S) (s : S) (calls : list hop) :
    list (Z * option D) :=
  match calls with
  | [] => []
  | op :: calls' => let (out, s') := step s op in out :: run step s' calls'
  end.

Lemma model_size (h : hashtab_val K D) : hashtab_wf key_ok h -> Z.of_nat (size (hashtab_model h)) = nel h.
Proof.
  intros (Ht & -> & _). unfold hashtab_model.
  rewrite <-length_map_to_list, map_to_list_to_map.
  - unfold pairs. by rewrite length_fmap.
  - rewrite pairs_keys. by eapply table_keys_NoDup.
Qed.

Lemma table_step_sim h op :
  hashtab_wf key_ok h -> key_ok (hop_key op) -> nel h < UINT32_MAX ->
  exists h', table_step (Some h) op = ((map_step (hashtab_model h) op).1, Some h') /\
    hashtab_wf key_ok h' /\ hashtab_model h' = (map_step (hashtab_model h) op).2 /\
    nel h' <= nel h + 1.
Proof.
  intros Hwf Hk Hn. destruct op as [k d|k|k]; cbn [table_step map_step hop_key] in *.
  - destruct (hashtab_insert (Some h) k d []) as [[rc h'] o'] eqn:E.
    destruct (hashtab_insert_spec key_ok h k d [] rc h' o' Hwf Hk E)
      as (t' & -> & Hwf' & [(-> & Hm & Hm')|[(-> & [x Hm] & Hm')|(_ & [?|?] & _)]]); [| |lia|done].
    + exists t'. rewrite Hm. split_and!; try done. rewrite <-!model_size by done.
      rewrite Hm', map_size_insert_None by done. lia.
    + exists t'. rewrite Hm. split_and!; try done. rewrite <-!model_size by done. rewrite Hm'. lia.
  - destruct (hashtab_remove (Some h) k _ None) as [[rc h'] x] eqn:E.
    destruct (hashtab_remove_spec key_ok h k _ None rc h' x Hwf Hk E) as (t' & -> & Hwf' & Hm & Hr).
    exists t'. rewrite Hm. destruct (hashtab_model h !! k) as [d|] eqn:El.
    + destruct Hr as [-> ->]. split_and!; try done. rewrite <-!model_size by done.
      rewrite Hm. rewrite map_size_delete_Some by eauto. lia.
    + destruct Hr as (-> & -> & ->). split_and!; try done; lia.
  - exists h. rewrite (hashtab_search_spec key_ok) by done. split_and!; try done. lia.
Qed.

Lemma run_sim calls h :
  hashtab_wf key_ok h -> Forall (fun op => key_ok (hop_key op)) calls ->
  nel h + Z.of_nat (length calls) <= UINT32_MAX ->
  run table_step (Some h) calls = run map_step (hashtab_model h) calls.
Proof.
  revert h. induction calls as [|op calls IH]; intros h Hwf Hk Hn; [done|].
  apply Forall_cons in Hk as [Hop Hk]. cbn [length] in Hn. cbn [run].
  destruct (table_step_sim h op Hwf Hop ltac:(lia)) as (h' & -> & Hwf' & Hm & Hle).
  rewrite IH by (done || lia). rewrite Hm. by destruct (map_step _ op).
Qed.

Lemma hashtab_create_spec size :
  0 < size < 2 ^ 32 ->
  exists h, hashtab_create size [] = (Some h, []) /\ hashtab_wf (D := D) key_ok h /\
    hashtab_model h = ∅.
Proof.
  intros Hs. eexists. split; [done|].
  split; [split_and!|]; simpl; rewrite ?concat_replicate_nil; try done; [by apply table_wf_empty|].
  unfold hashtab_model. simpl. by rewrite concat_replicate_nil.
Qed.
End refinement.

(** ** Properties *)

(** C24: hashtab.c implements finite maps.  Any sequence of insertions, removals and
    searches on a table made by [hashtab_create] (with memory available, fewer than
    UINT32_MAX calls, and a hash and comparison function that satisfy the laws) returns
    exactly what the same calls return on a finite map, whatever resizes happen. *)
Theorem hashtab_refines_map {K D} {ops : HashOps K} (key_ok : K -> Prop)
    {laws : HashLaws K key_ok} `{Countable K} size (calls : list (@hop K D)) :
  0 < size < 2 ^ 32 -> Forall (fun op => key_ok (hop_key op)) calls ->
  Z.of_nat (length calls) <= UINT32_MAX ->
  exists h, hashtab_create size [] = (Some h, []) /\
    run table_step (Some h) calls = run map_step ∅ calls.
Proof.
  intros Hs Hk Hl. destruct (hashtab_create_spec (D := D) key_ok size Hs) as (h & Hc & Hwf & Hm).
  exists h. split; [done|]. rewrite <-Hm. apply (run_sim key_ok); [done..|].
  rewrite <-(model_size key_ok) by done. rewrite Hm, map_size_empty. lia.
Qed.

Lemma hashtab_refines_map_witness :
  let calls := [HInsert [97] 1; HInsert [98] 2; HSearch [97]; HInsert [97] 3; HRemove [98];
                HSearch [98]] in
  exists h, hashtab_create 1 [] = (Some h, []) /\ run table_step (Some h) calls =
    [(SEPOL_OK, None); (SEPOL_OK, None); (0, Some 1); (SEPOL_EEXIST, None); (SEPOL_OK, Some 2);
     (0, None)].
Proof.
  intros calls. assert (Hk : Forall (fun op => cstring_ok (hop_key op)) calls).
  { unfold calls. repeat constructor; simpl; lia. }
  destruct (hashtab_refines_map cstring_ok 1 calls ltac:(lia) Hk ltac:(vm_compute; discriminate))
    as (h & Hc & Hr).
  exists h. split; [done|]. rewrite Hr. vm_compute. reflexivity.
Defined.

(** [hashtab_insert] on every branch, under any allocator.  The invariant is kept,
    an existing key or a failure leaves the contents alone (a failed resize included),
    and the table refuses an element only when it is full or [malloc] failed. *)
Theorem hashtab_insert_correct {K D} {ops : HashOps K} (key_ok : K -> Prop)
    {laws : HashLaws K key_ok} `{Countable K} (h : hashtab_val K D) key datum o :
  hashtab_wf key_ok h -> key_ok key ->
  let '(rc, h', _) := hashtab_insert (Some h) key datum o in
  exists t', h' = Some t' /\ hashtab_wf key_ok t' /\
  (rc = SEPOL_OK /\ hashtab_model h !! key = None /\
     hashtab_model t' = <[key := datum]> (hashtab_model h) \/
   rc = SEPOL_EEXIST /\ is_Some (hashtab_model h !! key) /\ hashtab_model t' = hashtab_model h \/
   rc = SEPOL_ENOMEM /\ (nel h = UINT32_MAX \/ o <> []) /\ hashtab_model t' = hashtab_model h).
Proof.
  intros Hwf Hk. destruct (hashtab_insert (Some h) key datum o) as [[rc h'] o'] eqn:E.
  by eapply hashtab_insert_spec.
Qed.

(** One slot holding "a"; inserting "b" doubles the array. *)
Definition ex_table : hashtab_val (list Z) Z := Hashtab [[HNode [97] 1]] 1 1.

Lemma ex_table_wf : hashtab_wf cstring_ok ex_table.
Proof.
  split_and!; simpl; try lia. split_and!; simpl; try lia.
  intros [|i] c Hc; simplify_eq/=. split; repeat constructor; simpl; lia.
Defined.

Lemma hashtab_insert_witness :
  exists t', hashtab_insert (Some ex_table) [98] 2 [] = (SEPOL_OK, Some t', []) /\
    hsize t' = 2 /\ hashtab_wf cstring_ok t'.
Proof.
  pose proof (hashtab_insert_correct cstring_ok ex_table [98] 2 [] ex_table_wf
                ltac:(repeat constructor; lia)) as H.
  vm_compute hashtab_insert in H. destruct H as (t' & [= <-] & Hwf & _).
  eexists. split; [vm_compute; reflexivity|]. split; [reflexivity|exact Hwf].
Defined.

(** [hashtab_map] calls back on the entries of the map, each once and in the order
    of the array, and stops at the first non-zero result, which it returns. *)
Theorem hashtab_map_correct {K D A} {ops : HashOps K} (key_ok : K -> Prop)
    {laws : HashLaws K key_ok} `{Countable K} (h : hashtab_val K D)
    (apply : K -> D -> A -> Z * A) args :
  hashtab_wf key_ok h ->
  let '(rc, args') := hashtab_map (Some h) apply args in
  exists es, es ≡ₚ map_to_list (hashtab_model h) /\ visits apply es args rc args'.
Proof.
  intros Hwf. cbn [hashtab_map]. rewrite map_table_concat.
  destruct (map_chain apply (concat (htable h)) args) as [rc args'] eqn:E.
  exists (pairs (concat (htable h))). split; [|by apply map_chain_visits].
  unfold hashtab_model. rewrite map_to_list_to_map; [done|].
  rewrite pairs_keys. destruct Hwf as [Ht _]. by eapply table_keys_NoDup.
Qed.

Lemma hashtab_map_witness :
  exists es, es ≡ₚ map_to_list (hashtab_model ex_table) /\
    visits (fun _ d a => (0, d :: a)) es [] 0 [1].
Proof. exact (hashtab_map_correct cstring_ok ex_table (fun _ d a => (0, d :: a)) [] ex_table_wf). Defined.

(** The doubling loop of [hashtab_check_resize] ends within 32 iterations for every
    table size, with a usable new size; the contents never change, and with memory
    available the table ends with more slots than elements unless doubling would
    overflow [unsigned int]. *)
Theorem hashtab_resize_correct {K D} {ops : HashOps K} (key_ok : K -> Prop)
    {laws : HashLaws K key_ok} `{Countable K} (h : hashtab_val K D) o :
  hashtab_wf key_ok h ->
  is_Some (resize_loop 32 (nel h) (hsize h)) /\
  let '(h', _) := hashtab_check_resize h o in
  hashtab_wf key_ok h' /\ hashtab_model h' = hashtab_model h /\ nel h' = nel h /\
  (o = [] -> nel h' < hsize h' \/ u32 (hsize h' * 2) = 0).
Proof.
  intros Hwf. split.
  - destruct Hwf as ((Hs & _) & _).
    destruct (resize_loop_spec 31 (nel h) (hsize h) Hs) as (new & -> & _);
      [apply Z.divide_1_l|lia|done].
  - destruct (hashtab_check_resize h o) as [h' o'] eqn:E.
    apply (hashtab_check_resize_spec key_ok) in E as (? & ? & ? & Hl); [|done].
    split_and!; try done. intros Ho. by apply Hl.
Qed.

Lemma hashtab_resize_witness :
  resize_loop 32 1 1 = Some 2 /\ hashtab_wf cstring_ok (hashtab_check_resize ex_table []).1.
Proof.
  split; [reflexivity|].
  pose proof (hashtab_resize_correct cstring_ok ex_table [] ex_table_wf) as [_ H].
  vm_compute hashtab_check_resize in *. apply H.
Defined.
