(* ===== verification/Codec.v ===== *)
(** * Readers and writers of the records of a binary policy

    The reading functions of policydb.c return -1 at the first problem, after which
    [policydb_read] gives up and its caller discards the policy; the writing functions of
    write.c return [POLICYDB_ERROR] in the same way.  A reader is a function of the
    stream and the allocator, a writer one of the stream, and [None] is such a return.

    The relations [decodes], [accepts] and [emits] say what a reader does on the bytes of
    a value, what a reader returns for arbitrary bytes, and which bytes a writer puts out;
    their rules follow the composition of readers and writers. *)

From S2P Require Import Prelude Policyfile Ebitmap EbitmapSpec EbitmapProps Hashtab HashtabSpec.

(** ** Readers *)

Definition reader (A : Type) : Type := policy_file -> oracle -> option (A * policy_file * oracle).

#[export] Instance reader_ret : MRet reader := fun A a fp o => Some (a, fp, o).

#[export] Instance reader_bind : MBind reader := fun A B k r fp o =>
  match r fp o with
  | None => None
  | Some (a, fp, o) => k a fp o
  end.

(** [if (!b) goto bad]. *)
Definition rd_require (b : bool) : reader unit := fun fp o => if b then Some ((), fp, o) else None.

(** [goto bad]. *)
Definition rd_fail {A} : reader A := fun _ _ => None.

(** An allocation that is tested. *)
Definition rd_alloc : reader unit := fun fp o =>
  let (ok, o) := malloc o in if ok then Some ((), fp, o) else None.

Definition rd_entry (bytes : nat) : reader (list Z) := fun fp o =>
  match next_entry fp bytes with
  | (Some buf, fp) => Some (buf, fp, o)
  | (None, _) => None
  end.

(** A call that allocates and whose result code is tested. *)
Definition rd_call {A} (f : oracle -> Z * A * oracle) : reader A := fun fp o =>
  let '(rc, a, o) := f o in if truthy rc then None else Some (a, fp, o).

Definition rd_ebitmap : reader ebitmap := fun fp o =>
  let '(rc, e, fp, o) := ebitmap_read fp o in if truthy rc then None else Some (e, fp, o).

(** A loop of [n] rounds on a state. *)
Fixpoint rd_loop {S} (n : nat) (body : S -> reader S) (s : S) : reader S :=
  match n with
  | O => mret s
  | S n' => s ← body s; rd_loop n' body s
  end.

(** [str_read] (src/services.c): the C string of the bytes read. *)
Definition str_read (len : Z) : reader (list Z) := fun fp o =>
  if (len =? 0) || (len =? 2 ^ 64 - 1) || exceeds_available_bytes fp len 1 then None
  else (rd_alloc;; buf ← rd_entry (Z.to_nat len); mret (c_str buf)) fp o.

(** ** Writers *)

Definition writer : Type := policy_file -> option policy_file.

Definition wr_ret : writer := fun fp => Some fp.

Definition wr_seq (w1 w2 : writer) : writer := fun fp =>
  match w1 fp with
  | None => None
  | Some fp => w2 fp
  end.

(** [put_entry] of [n] items of [size] bytes, with the test of the result. *)
Definition wr_put (size n : Z) (bytes : list Z) : writer := fun fp =>
  let (items, fp) := put_entry bytes size n fp in if items =? n then Some fp else None.

(** [put_entry(buf, sizeof(uint32_t), n, fp)] for a buffer of [n] numbers. *)
Definition wr_words (ws : list Z) : writer :=
  wr_put 4 (Z.of_nat (length ws)) (concat (map (le_bytes 4) ws)).

Definition wr_ebitmap (e : ebitmap) : writer := fun fp =>
  let (rc, fp) := ebitmap_write e fp in if truthy rc then None else Some fp.

Fixpoint wr_each {A} (w : A -> writer) (l : list A) : writer :=
  match l with
  | [] => wr_ret
  | a :: l' => wr_seq (w a) (wr_each w l')
  end.

(** [hashtab_map] with a writer. *)
Definition wr_map {K D} (w : K -> D -> writer) (h : option (hashtab_val K D)) : writer := fun fp =>
  let (rc, fp) :=
    hashtab_map h (fun k d fp =>
      match fp ≫= w k d with
      | Some fp => (0, Some fp)
      | None => (POLICYDB_ERROR, None)
      end) (Some fp) in
  if truthy rc then None else fp.

Declare Scope writer_scope.
Delimit Scope writer_scope with writer.
Notation "w1 ;;; w2" := (wr_seq w1 w2) (at level 100, right associativity) : writer_scope.

(** ** What readers and writers do *)

Definition decodes {A} (r : reader A) (bs : list Z) (a : A) : Prop :=
  forall fp fp', reads fp bs fp' -> r fp [] = Some (a, fp', []).

Definition accepts {A} (r : reader A) (P : A -> Prop) : Prop :=
  forall fp o a fp' o', pf_bytes fp -> r fp o = Some (a, fp', o') -> pf_bytes fp' /\ P a.

Definition emits (w : writer) (bs : list Z) : Prop :=
  forall fp, can_put fp (Z.of_nat (length bs)) -> exists fp', w fp = Some fp' /\ wrote fp bs fp'.

(** The bytes of a buffer of numbers. *)
Definition words (ws : list Z) : list Z := concat (map (le_bytes 4) ws).

Lemma length_words_bytes ws : length (words ws) = (4 * length ws)%nat.
Proof.
  unfold words. induction ws as [|w ws IH]; [done|]. cbn [map concat length].
  rewrite length_app, length_le_bytes, IH. lia.
Qed.

Lemma words_cons w ws : words (w :: ws) = le_bytes 4 w ++ words ws.
Proof. reflexivity. Qed.

Lemma words_app ws1 ws2 : words (ws1 ++ ws2) = words ws1 ++ words ws2.
Proof. unfold words. by rewrite map_app, concat_app. Qed.

(** ** Numbers in a buffer *)

Lemma le32_first w ws : 0 <= w < 2 ^ 32 -> le32_at (words (w :: ws)) 0 = w.
Proof. intros Hw. by eapply (le32_at_app [] w (words ws)). Qed.

Lemma le32_next w ws i : le32_at (words (w :: ws)) (S i) = le32_at (words ws) i.
Proof.
  unfold le32_at. rewrite words_cons, drop_app_ge by (rewrite length_le_bytes; lia).
  rewrite length_le_bytes. by replace (4 * S i - 4)%nat with (4 * i)%nat by lia.
Qed.

Lemma le32_bytes buf i : Forall is_byte buf -> 0 <= le32_at buf i < 2 ^ 32.
Proof. intros Hb. apply (le_at_range buf 4 (4 * i) Hb). Qed.

(** ** Rules for decoding *)

Lemma decodes_ret {A} (a : A) : decodes (mret a) [] a.
Proof. intros fp fp' ->%reads_nil. reflexivity. Qed.

Lemma decodes_bind {A B} (r : reader A) (k : A -> reader B) bs1 bs2 a b :
  decodes r bs1 a -> decodes (k a) bs2 b -> decodes (r ≫= k) (bs1 ++ bs2) b.
Proof.
  intros Hr Hk fp fp' (fp1 & H1 & H2)%reads_app. unfold mbind, reader_bind.
  rewrite (Hr _ _ H1). by apply Hk.
Qed.

(** A step that reads nothing. *)
Lemma decodes_step {A B} (r : reader A) (k : A -> reader B) bs a b :
  decodes r [] a -> decodes (k a) bs b -> decodes (r ≫= k) bs b.
Proof. intros Hr Hk. by apply (decodes_bind r k [] bs a b). Qed.

Lemma decodes_require b : b = true -> decodes (rd_require b) [] ().
Proof. intros -> fp fp' ->%reads_nil. reflexivity. Qed.

Lemma decodes_alloc : decodes rd_alloc [] ().
Proof. intros fp fp' ->%reads_nil. reflexivity. Qed.

Lemma decodes_entry n bs : length bs = n -> n <> 0%nat -> decodes (rd_entry n) bs bs.
Proof. intros Hl Hn fp fp' Hr. unfold rd_entry. by rewrite (next_entry_whole _ _ _ n Hl Hn Hr). Qed.

Lemma decodes_words n ws :
  length ws = n -> n <> 0%nat -> decodes (rd_entry (4 * n)) (words ws) (words ws).
Proof. intros Hl Hn. apply decodes_entry; [|lia]. rewrite length_words_bytes. lia. Qed.

Lemma decodes_call {A} (f : oracle -> Z * A * oracle) a : f [] = (0, a, []) -> decodes (rd_call f) [] a.
Proof. intros Hf fp fp' ->%reads_nil. unfold rd_call. by rewrite Hf. Qed.

Lemma decodes_ebitmap e : ebitmap_wf e -> decodes rd_ebitmap (ebitmap_bytes e) e.
Proof. intros He fp fp' Hr. unfold rd_ebitmap. by rewrite (ebitmap_read_roundtrip e fp fp' He Hr). Qed.

Lemma c_str_id s : Forall (fun c => 1 <= c < 2 ^ 8) s -> c_str s = s.
Proof. induction 1 as [|c s Hc Hs IH]; simpl; [done|]. case_Z; [lia|]. by rewrite IH. Qed.

Lemma reads_available fp bs fp' : reads fp bs fp' -> Z.of_nat (length bs) < 2 ^ 64 ->
  exceeds_available_bytes fp (Z.of_nat (length bs)) 1 = false.
Proof.
  intros (rest & Hd & _ & _ & _ & Hl) Hb. unfold exceeds_available_bytes.
  destruct Hl as [[-> _]|(-> & -> & _)]; [done|]. rewrite Hd, length_app, Z.mul_1_r. simpl.
  destruct (Z.leb_spec (2 ^ 64) (Z.of_nat (length bs))); [lia|]. case_Z; [lia|done].
Qed.

Lemma decodes_str s :
  Forall (fun c => 1 <= c < 2 ^ 8) s -> s <> [] -> Z.of_nat (length s) < 2 ^ 32 ->
  decodes (str_read (Z.of_nat (length s))) s s.
Proof.
  intros Hs Hne Hl fp fp' Hr. unfold str_read. rewrite (reads_available _ _ _ Hr) by lia.
  destruct (Z.eqb_spec (Z.of_nat (length s)) 0); [by destruct s|]. case_Z; [lia|]. cbn [orb].
  rewrite Nat2Z.id.
  assert (Hd : decodes (rd_alloc;; buf ← rd_entry (length s); mret (c_str buf)) s s); [|by apply Hd].
  eapply decodes_step; [apply decodes_alloc|]. rewrite <-(app_nil_r s) at 2.
  eapply decodes_bind; [apply decodes_entry; [done|by destruct s]|]. rewrite c_str_id by done.
  apply decodes_ret.
Qed.

(** A loop that reads the elements of a list one after the other; [I] holds of the state
    and the elements read so far. *)
Lemma decodes_loop {S A} (body : S -> reader S) (bytes : A -> list Z) (I : list A -> S -> Prop) l s :
  I [] s ->
  (forall pre a post s, l = pre ++ a :: post -> I pre s ->
     exists s', decodes (body s) (bytes a) s' /\ I (pre ++ [a]) s') ->
  exists s', decodes (rd_loop (length l) body s) (concat (map bytes l)) s' /\ I l s'.
Proof.
  intros Hi Hstep.
  cut (forall post pre s, l = pre ++ post -> I pre s ->
    exists s', decodes (rd_loop (length post) body s) (concat (map bytes post)) s' /\ I l s').
  { intros H. by apply (H l []). }
  clear s Hi. induction post as [|a post IH]; intros pre s Hl Hi; cbn [length rd_loop map concat].
  { exists s. split; [apply decodes_ret|]. by rewrite app_nil_r in Hl; subst. }
  destruct (Hstep pre a post s Hl Hi) as (s1 & Hd & H1).
  destruct (IH (pre ++ [a]) s1 ltac:(by rewrite <-app_assoc) H1) as (s2 & Hd2 & H2).
  exists s2. split; [|done]. by eapply decodes_bind.
Qed.

(** ** Rules for arbitrary bytes *)

Lemma accepts_ret {A} (a : A) (P : A -> Prop) : P a -> accepts (mret a) P.
Proof. intros Ha fp o a' fp' o' Hb [= <- <- <-]. done. Qed.

Lemma accepts_bind {A B} (r : reader A) (k : A -> reader B) P Q :
  accepts r P -> (forall a, P a -> accepts (k a) Q) -> accepts (r ≫= k) Q.
Proof.
  intros Hr Hk fp o b fp' o' Hb. unfold mbind, reader_bind.
  destruct (r fp o) as [[[a fp1] o1]|] eqn:E; [|done]. destruct (Hr _ _ _ _ _ Hb E) as [Hb1 Ha].
  by apply Hk.
Qed.

Lemma accepts_weaken {A} (r : reader A) (P Q : A -> Prop) :
  accepts r P -> (forall a, P a -> Q a) -> accepts r Q.
Proof. intros Hr HPQ fp o a fp' o' Hb E. destruct (Hr _ _ _ _ _ Hb E). auto. Qed.

Lemma accepts_require b : accepts (rd_require b) (fun _ => b = true).
Proof. intros fp o a fp' o' Hb. unfold rd_require. destruct b; [|done]. by intros [= <- <- <-]. Qed.

Lemma accepts_alloc : accepts rd_alloc (fun _ => True).
Proof. intros fp o a fp' o' Hb. unfold rd_alloc. destruct (malloc o) as [[] ?]; [|done]. by intros [= <- <- <-]. Qed.

Lemma accepts_entry n : accepts (rd_entry n) (Forall is_byte).
Proof.
  intros fp o a fp' o' Hb. unfold rd_entry. destruct (next_entry fp n) as [[buf|] fp1] eqn:E; [|done].
  intros [= <- <- <-]. by destruct (next_entry_bytes _ _ _ _ Hb E).
Qed.

Lemma accepts_call {A} (f : oracle -> Z * A * oracle) (P : A -> Prop) :
  (forall o a o', f o = (0, a, o') -> P a) -> accepts (rd_call f) P.
Proof.
  intros Hf fp o a fp' o' Hb. unfold rd_call. destruct (f o) as [[rc x] o1] eqn:E.
  destruct (truthy rc) eqn:Er; [done|]. intros [= <- <- <-]. apply truthy_false in Er as ->.
  split; [done|]. by eapply Hf.
Qed.

Lemma accepts_ebitmap : accepts rd_ebitmap ebitmap_wf.
Proof.
  intros fp o a fp' o' Hb. unfold rd_ebitmap. destruct (ebitmap_read fp o) as [[[rc e] fp1] o1] eqn:E.
  destruct (truthy rc); [done|]. intros [= <- <- <-].
  split; [by eapply ebitmap_read_bytes|by eapply ebitmap_read_wf].
Qed.

Lemma c_str_ok s : Forall is_byte s -> Forall (fun c => 1 <= c < 2 ^ 8) (c_str s).
Proof. induction 1 as [|c s Hc Hs IH]; simpl; [done|]. unfold is_byte in Hc. case_Z; constructor; [lia|done]. Qed.

Lemma accepts_str len : accepts (str_read len) (Forall (fun c => 1 <= c < 2 ^ 8)).
Proof.
  intros fp o a fp' o' Hb. unfold str_read. destruct (_ || _); [done|]. revert fp o a fp' o' Hb.
  change (accepts (rd_alloc;; buf ← rd_entry (Z.to_nat len); mret (c_str buf)) (Forall (fun c => 1 <= c < 2 ^ 8))).
  eapply accepts_bind; [apply accepts_alloc|]. intros _ _.
  eapply accepts_bind; [apply accepts_entry|]. intros buf Hbuf. by apply accepts_ret, c_str_ok.
Qed.

Lemma accepts_loop {S} (body : S -> reader S) (I : S -> Prop) n s :
  I s -> (forall s, I s -> accepts (body s) I) -> accepts (rd_loop n body s) I.
Proof.
  intros Hi Hb. revert s Hi. induction n as [|n IH]; intros s Hi; cbn [rd_loop]; [by apply accepts_ret|].
  eapply accepts_bind; [by apply Hb|]. apply IH.
Qed.

(** The same with the number of rounds so far. *)
Lemma accepts_rounds {S} (body : S -> reader S) (I : nat -> S -> Prop) n s :
  I O s -> (forall i s, I i s -> accepts (body s) (I (i + 1)%nat)) -> accepts (rd_loop n body s) (I n).
Proof.
  intros Hi Hb. replace n with (0 + n)%nat at 2 by lia. revert s Hi. generalize O.
  induction n as [|n IH]; intros m s Hi; cbn [rd_loop]; [apply accepts_ret; by rewrite Nat.add_0_r|].
  eapply accepts_bind; [by apply (Hb m)|]. intros s' Hs'. rewrite <-Nat.add_succ_comm, <-Nat.add_1_r.
  by apply IH.
Qed.

(** ** Rules for writing *)

Lemma emits_ret : emits wr_ret [].
Proof. intros fp _. exists fp. split; [done|apply wrote_nil]. Qed.

Lemma emits_seq w1 w2 bs1 bs2 : emits w1 bs1 -> emits w2 bs2 -> emits (wr_seq w1 w2) (bs1 ++ bs2).
Proof.
  intros H1 H2 fp Hc. rewrite length_app, Nat2Z.inj_add in Hc.
  destruct (H1 fp) as (fp1 & E1 & W1); [eapply can_put_le; [exact Hc|lia]|].
  destruct (H2 fp1) as (fp2 & E2 & W2); [by eapply can_put_after|].
  unfold wr_seq. rewrite E1. exists fp2. split; [done|]. by eapply wrote_app.
Qed.

Lemma emits_put size n bs :
  Z.of_nat (length bs) = size * n -> size * n < 2 ^ 64 -> emits (wr_put size n bs) bs.
Proof.
  intros Hl Hb fp Hc. destruct (put_entry_wrote fp bs size n) as (fp' & E & W); [by rewrite <-Hl|done..|].
  unfold wr_put. rewrite E, Z.eqb_refl. eauto.
Qed.

Lemma emits_words ws : Z.of_nat (length ws) < 2 ^ 32 -> emits (wr_words ws) (words ws).
Proof. intros Hl. apply emits_put; fold (words ws); rewrite ?length_words_bytes; lia. Qed.

Lemma emits_ebitmap e : ebitmap_wf e -> emits (wr_ebitmap e) (ebitmap_bytes e).
Proof.
  intros He fp Hc. destruct (ebitmap_write_wrote e fp He) as (fp' & E & W).
  { rewrite length_ebitmap_bytes in Hc. eapply can_put_le; [exact Hc|lia]. }
  unfold wr_ebitmap. rewrite E. eauto.
Qed.

Lemma emits_each {A} (w : A -> writer) (bytes : A -> list Z) l :
  Forall (fun a => emits (w a) (bytes a)) l -> emits (wr_each w l) (concat (map bytes l)).
Proof.
  induction 1 as [|a l Ha Hl IH]; cbn [wr_each map concat]; [apply emits_ret|by apply emits_seq].
Qed.

(** The nodes of a table are written in the order of the array. *)
Definition entries_bytes {K D} (bytes : K -> D -> list Z) (l : list (hashtab_node K D)) : list Z :=
  concat (map (fun n => bytes (hkey n) (hdatum n)) l).

Lemma wr_map_each {K D} (w : K -> D -> writer) (h : hashtab_val K D) fp :
  wr_map w (Some h) fp = wr_each (fun n => w (hkey n) (hdatum n)) (concat (htable h)) fp.
Proof.
  unfold wr_map. cbn [hashtab_map]. set (f := fun k d fp => _).
  assert (Hseq : forall l1 l2 fp, wr_each (fun n => w (hkey n) (hdatum n)) (l1 ++ l2) fp =
    match wr_each (fun n => w (hkey n) (hdatum n)) l1 fp with
    | Some fp => wr_each (fun n => w (hkey n) (hdatum n)) l2 fp
    | None => None
    end).
  { induction l1 as [|n l1 IH]; intros l2 fp0; cbn [app wr_each]; [done|]. unfold wr_seq.
    destruct (w (hkey n) (hdatum n) fp0); [apply IH|done]. }
  assert (Hchain : forall c fp, map_chain f c (Some fp) =
    match wr_each (fun n => w (hkey n) (hdatum n)) c fp with
    | Some fp => (0, Some fp)
    | None => (POLICYDB_ERROR, None)
    end).
  { induction c as [|n c IH]; intros fp0; cbn [map_chain wr_each]; [done|]. unfold f at 1, wr_seq.
    cbn [mbind option_bind]. destruct (w (hkey n) (hdatum n) fp0); [apply IH|done]. }
  revert fp. induction (htable h) as [|c t IH]; intros fp; cbn [map_table concat]; [done|].
  rewrite Hchain, Hseq. destruct (wr_each _ c fp) as [fp1|]; [apply IH|done].
Qed.

Lemma emits_map {K D} (w : K -> D -> writer) (bytes : K -> D -> list Z) (h : hashtab_val K D) :
  Forall (fun n => emits (w (hkey n) (hdatum n)) (bytes (hkey n) (hdatum n))) (concat (htable h)) ->
  emits (wr_map w (Some h)) (entries_bytes bytes (concat (htable h))).
Proof.
  intros Hf fp Hc. rewrite wr_map_each.
  by apply (emits_each (fun n => w (hkey n) (hdatum n)) (fun n => bytes (hkey n) (hdatum n))).
Qed.
