(* ===== verification/Avtab.v ===== *)
(** * Access vector tables (libsepol/src/avtab.c)

    The table of type enforcement rules of a policy: an array of chains ordered by
    (source type, target type, class), in which entries of one triple differ in
    [specified], and extended-permission entries may even share it.

    Callers keep pointers to nodes and change or remove nodes through them, so a node
    carries its address [addr]; [brk] is the next address [malloc] hands out.  The
    fields of [avtab_key_t] are [uint16_t], [data] and [perms] are [uint32_t], the two
    bytes of the extended permissions are [uint8_t]. *)

From S2P Require Import Prelude Policyfile Ebitmap EbitmapProps.

Definition AVTAB_ALLOWED : Z := 0x1.
Definition AVTAB_AUDITALLOW : Z := 0x2.
Definition AVTAB_AUDITDENY : Z := 0x4.
Definition AVTAB_NEVERALLOW : Z := 0x80.
Definition AVTAB_AV : Z := 0x7.
Definition AVTAB_TRANSITION : Z := 0x10.
Definition AVTAB_MEMBER : Z := 0x20.
Definition AVTAB_CHANGE : Z := 0x40.
Definition AVTAB_TYPE : Z := 0x70.
Definition AVTAB_XPERMS_ALLOWED : Z := 0x100.
Definition AVTAB_XPERMS_AUDITALLOW : Z := 0x200.
Definition AVTAB_XPERMS_DONTAUDIT : Z := 0x400.
Definition AVTAB_XPERMS : Z := 0x700.
Definition AVTAB_ENABLED_OLD : Z := 0x80000000.
Definition AVTAB_ENABLED : Z := 0x8000.
Definition AVTAB_XPERMS_IOCTLFUNCTION : Z := 1.
Definition AVTAB_XPERMS_IOCTLDRIVER : Z := 2.
Definition AVTAB_XPERMS_NLMSG : Z := 3.
Definition MAX_AVTAB_HASH_BUCKETS : Z := 2 ^ 20.
Definition MAX_AVTAB_SIZE : Z := 2 ^ 21.
Definition POLICYDB_VERSION_AVTAB : Z := 20.
Definition POLICYDB_VERSION_XPERMS_IOCTL : Z := 30.

(** android_m_compat.h *)
Definition AVTAB_OPTYPE : Z := 0x7000.
Definition avtab_xperms_to_optype (x : Z) : Z := Z.shiftl x 4.
Definition avtab_optype_to_xperms (x : Z) : Z := Z.shiftr x 4.

Record avtab_key := AvKey {
  source_type : Z; target_type : Z; target_class : Z; specified : Z
}.

Record avtab_extended_perms := Xperms { x_specified : Z; x_driver : Z; x_perms : list Z }.

(** [xperms] is owned by its node, so a pointer is [NULL] or its contents. *)
Record avtab_datum := AvDatum { data : Z; xperms : option avtab_extended_perms }.

Record avtab_node := AvNode { addr : Z; akey : avtab_key; adatum : avtab_datum; merged : Z }.

Record avtab := Avtab {
  av_htable : option (list (list avtab_node));   (** [None] is [NULL] *)
  av_nel : Z;
  av_nslot : Z;
  av_mask : Z;
  brk : Z
}.

(** ** Hashing *)

(** [(v << r) | (v >> (32 - r))]. *)
Definition rotl32 (v r : Z) : Z := Z.lor (u32 (Z.shiftl v r)) (Z.shiftr v (32 - r)).

(** The macro [mix]. *)
Definition mix (hash input : Z) : Z :=
  let v := u32 (input * 0xcc9e2d51) in
  let v := rotl32 v 15 in
  let v := u32 (v * 0x1b873593) in
  let hash := Z.lxor hash v in
  let hash := rotl32 hash 13 in
  u32 (hash * 5 + 0xe6546b64).

Definition avtab_hash (keyp : avtab_key) (mask : Z) : Z :=
  let hash := mix 0 (target_class keyp) in
  let hash := mix hash (target_type keyp) in
  let hash := mix hash (source_type keyp) in
  let hash := Z.lxor hash (Z.shiftr hash 16) in
  let hash := u32 (hash * 0x85ebca6b) in
  let hash := Z.lxor hash (Z.shiftr hash 13) in
  let hash := u32 (hash * 0xc2b2ae35) in
  let hash := Z.lxor hash (Z.shiftr hash 16) in
  Z.land hash mask.

(** [h->htable[i]]. *)
Definition av_slot (t : list (list avtab_node)) (i : Z) : list avtab_node :=
  default [] (t !! Z.to_nat i).

(** [key->specified & ~(AVTAB_ENABLED | AVTAB_ENABLED_OLD)], stored in [uint16_t]. *)
Definition strip_enabled (specified : Z) : Z :=
  u16 (Z.land specified (Z.lnot (Z.lor AVTAB_ENABLED AVTAB_ENABLED_OLD))).

(** The test of the chain loops for a node of the key, and for the end of its place in
    the order. *)
Definition key_match (key : avtab_key) (specified : Z) (k : avtab_key) : bool :=
  (source_type key =? source_type k) && (target_type key =? target_type k) &&
  (target_class key =? target_class k) && truthy (Z.land specified (Avtab.specified k)).

Definition key_before (key k : avtab_key) : bool :=
  (source_type key <? source_type k) ||
  (source_type key =? source_type k) && (target_type key <? target_type k) ||
  (source_type key =? source_type k) && (target_type key =? target_type k) &&
  (target_class key <? target_class k).

(** ** Insertion *)

Definition zero_xperms : avtab_extended_perms := Xperms 0 0 (replicate 8 0).

(** [avtab_insert_node]; the chain of [hvalue] is [pre ++ post] with [prev] the end of
    [pre].  [None] is a [NULL] result. *)
Definition avtab_insert_node (h : avtab) (t : list (list avtab_node)) (hvalue : Z)
    (pre post : list avtab_node) (key : avtab_key) (datum : avtab_datum) (o : oracle) :
    option avtab_node * avtab * oracle :=
  match malloc o with
  | (false, o) => (None, h, o)
  | (true, o) =>
      let link d o :=
        let newnode := AvNode (brk h) key d 0 in
        (Some newnode,
         Avtab (Some (<[Z.to_nat hvalue := pre ++ newnode :: post]> t)) (u32 (av_nel h + 1))
           (av_nslot h) (av_mask h) (brk h + 1), o) in
      if truthy (Z.land (specified key) AVTAB_XPERMS) then
        match malloc o with
        | (false, o) => (None, h, o)
        | (true, o) =>
            link (AvDatum (data datum) (Some (default zero_xperms (xperms datum)))) o
        end
      else link datum o
  end.

(** The loop of [avtab_insert]: [None] is [SEPOL_EEXIST], otherwise the chain split at
    the place of the new node. *)
Fixpoint insert_loop (key : avtab_key) (specified : Z) (c : list avtab_node) :
    option (list avtab_node * list avtab_node) :=
  match c with
  | [] => Some ([], [])
  | cur :: c' =>
      if key_match key specified (akey cur) then
        if truthy (Z.land specified AVTAB_XPERMS) then Some ([], c) else None
      else if key_before key (akey cur) then Some ([], c)
      else match insert_loop key specified c' with
           | Some (pre, post) => Some (cur :: pre, post)
           | None => None
           end
  end.

Definition avtab_insert (h : option avtab) (key : avtab_key) (datum : avtab_datum) (o : oracle) :
    Z * option avtab * oracle :=
  let specified := strip_enabled (specified key) in
  match h with
  | None => (SEPOL_ENOMEM, None, o)
  | Some h =>
      match av_htable h with
      | None => (SEPOL_ENOMEM, Some h, o)
      | Some t =>
          let hvalue := avtab_hash key (av_mask h) in
          match insert_loop key specified (av_slot t hvalue) with
          | None => (SEPOL_EEXIST, Some h, o)
          | Some (pre, post) =>
              match avtab_insert_node h t hvalue pre post key datum o with
              | (None, h', o') => (SEPOL_ENOMEM, Some h', o')
              | (Some _, h', o') => (0, Some h', o')
              end
          end
      end
  end.

(** The loop of [avtab_insert_nonunique]. *)
Fixpoint insert_nonunique_loop (key : avtab_key) (specified : Z) (c : list avtab_node) :
    list avtab_node * list avtab_node :=
  match c with
  | [] => ([], [])
  | cur :: c' =>
      if key_match key specified (akey cur) then ([], c)
      else if key_before key (akey cur) then ([], c)
      else let (pre, post) := insert_nonunique_loop key specified c' in (cur :: pre, post)
  end.

Definition avtab_insert_nonunique (h : option avtab) (key : avtab_key) (datum : avtab_datum)
    (o : oracle) : option avtab_node * option avtab * oracle :=
  let specified := strip_enabled (specified key) in
  match h with
  | None => (None, None, o)
  | Some h =>
      match av_htable h with
      | None => (None, Some h, o)
      | Some t =>
          let hvalue := avtab_hash key (av_mask h) in
          let (pre, post) := insert_nonunique_loop key specified (av_slot t hvalue) in
          let '(n, h', o') := avtab_insert_node h t hvalue pre post key datum o in
          (n, Some h', o')
      end
  end.

(** ** Search *)

(** The loop of [avtab_search], [avtab_search_node] and [avtab_search_node_next]. *)
Fixpoint search_loop (key : avtab_key) (specified : Z) (c : list avtab_node) : option avtab_node :=
  match c with
  | [] => None
  | cur :: c' =>
      if key_match key specified (akey cur) then Some cur
      else if key_before key (akey cur) then None
      else search_loop key specified c'
  end.

Definition avtab_search_node (h : option avtab) (key : avtab_key) : option avtab_node :=
  match h with
  | None => None
  | Some h =>
      match av_htable h with
      | None => None
      | Some t =>
          search_loop key (strip_enabled (specified key)) (av_slot t (avtab_hash key (av_mask h)))
      end
  end.

Definition avtab_search (h : option avtab) (key : avtab_key) : option avtab_datum :=
  match h with
  | None => None
  | Some h =>
      match av_htable h with
      | None => None
      | Some t =>
          adatum <$>
          search_loop key (strip_enabled (specified key)) (av_slot t (avtab_hash key (av_mask h)))
      end
  end.

(** [node->next]: what follows the node in its chain. *)
Fixpoint after (a : Z) (c : list avtab_node) : list avtab_node :=
  match c with
  | [] => []
  | n :: c' => if addr n =? a then c' else after a c'
  end.

Definition next_nodes (h : avtab) (node : avtab_node) : list avtab_node :=
  match av_htable h with
  | None => []
  | Some t => after (addr node) (av_slot t (avtab_hash (akey node) (av_mask h)))
  end.

(** Here [specified] is an [int], of which the two flags are cleared. *)
Definition avtab_search_node_next (h : avtab) (node : option avtab_node) (specified : Z) :
    option avtab_node :=
  match node with
  | None => None
  | Some node =>
      search_loop (akey node) (Z.land specified (Z.lnot (Z.lor AVTAB_ENABLED AVTAB_ENABLED_OLD)))
        (next_nodes h node)
  end.

(** ** Life cycle *)

Definition avtab_init (h : avtab) : Z * avtab :=
  (0, Avtab None 0 (av_nslot h) (av_mask h) (brk h)).

(** The loop that counts the bits of [nrules]. *)
Fixpoint shift_loop (fuel : nat) (work shift : Z) : option Z :=
  match fuel with
  | O => None
  | S fuel' => if truthy work then shift_loop fuel' (Z.shiftr work 1) (shift + 1) else Some shift
  end.

(** [nslot] of [avtab_alloc]: 33 tests are enough for a [uint32_t]. *)
Definition avtab_nslot (nrules : Z) : option Z :=
  match shift_loop 33 nrules 0 with
  | None => None
  | Some shift =>
      let shift := if 2 <? shift then shift - 2 else shift in
      let nslot := u32 (Z.shiftl 1 shift) in
      Some (if MAX_AVTAB_HASH_BUCKETS <? nslot then MAX_AVTAB_HASH_BUCKETS else nslot)
  end.

Definition avtab_alloc (h : avtab) (nrules : Z) (o : oracle) : Z * avtab * oracle :=
  if nrules =? 0 then (0, Avtab (av_htable h) 0 0 0 (brk h), o)
  else
    match avtab_nslot nrules with
    | None => (-1, h, o)
    | Some nslot =>
        match malloc o with
        | (false, o') => (-1, Avtab None (av_nel h) (av_nslot h) (av_mask h) (brk h), o')
        | (true, o') =>
            (0, Avtab (Some (replicate (Z.to_nat nslot) [])) 0 nslot (nslot - 1) (brk h), o')
        end
    end.

(** [avtab_destroy]; [nel] keeps its value. *)
Definition avtab_destroy (h : avtab) : avtab :=
  match av_htable h with
  | None => h
  | Some _ => Avtab None (av_nel h) 0 0 (brk h)
  end.

(** The nodes in the order of the array, as [avtab_map] and [avtab_write] visit them. *)
Definition avtab_nodes (h : avtab) : list avtab_node :=
  match av_htable h with
  | None => []
  | Some t => concat (take (Z.to_nat (av_nslot h)) t)
  end.

(** [avtab_map] with a callback on a state. *)
Fixpoint avtab_map_loop {A} (apply : avtab_key -> avtab_datum -> A -> Z * A)
    (l : list avtab_node) (args : A) : Z * A :=
  match l with
  | [] => (0, args)
  | cur :: l' =>
      let (ret, args) := apply (akey cur) (adatum cur) args in
      if truthy ret then (ret, args) else avtab_map_loop apply l' args
  end.

Definition avtab_map {A} (h : option avtab) (apply : avtab_key -> avtab_datum -> A -> Z * A)
    (args : A) : Z * A :=
  match h with
  | None => (0, args)
  | Some h => avtab_map_loop apply (avtab_nodes h) args
  end.

(** [avtab_hash_eval]: slots used and longest chain. *)
Definition avtab_eval_chain (acc : Z * Z) (c : list avtab_node) : Z * Z :=
  match c with
  | [] => acc
  | _ =>
      let chain_len := Z.of_nat (length c) in
      (acc.1 + 1, if acc.2 <? chain_len then chain_len else acc.2)
  end.

Definition avtab_hash_eval (h : avtab) : Z * Z :=
  match av_htable h with
  | None => (0, 0)
  | Some t => foldl avtab_eval_chain (0, 0) (take (Z.to_nat (av_nslot h)) t)
  end.
