(* ===== verification/AvtabSpec.v ===== *)
(** * Access vector tables: the invariant, and the operations as operations on the
    collection of nodes *)

From S2P Require Import Prelude Policyfile Ebitmap EbitmapProps Avtab.

(** ** The order of a chain *)

Definition same_triple (k1 k2 : avtab_key) : Prop :=
  source_type k1 = source_type k2 /\ target_type k1 = target_type k2 /\
  target_class k1 = target_class k2.

(** [a] may stand before [b] in a chain. *)
Definition node_le (a b : avtab_node) : Prop := key_before (akey b) (akey a) = false.

Ltac av_order := unfold node_le, key_before, key_match, same_triple in *; zify_bools.

Lemma key_match_spec key sp k :
  key_match key sp k = true <-> same_triple key k /\ Z.land sp (specified k) <> 0.
Proof. unfold key_match, same_triple. rewrite !andb_true_iff, !Z.eqb_eq, truthy_true. tauto. Qed.

Lemma key_before_match key sp k k' :
  key_before key k = true -> key_before k' k = false -> key_match key sp k' = false.
Proof.
  intros H1 H2. apply not_true_iff_false. rewrite key_match_spec. intros [(E1 & E2 & E3) _].
  unfold key_before in *. rewrite <-E1, <-E2, <-E3 in H2. congruence.
Qed.

Lemma key_before_trans k1 k2 k3 :
  key_before k2 k1 = false -> key_before k3 k2 = false -> key_before k3 k1 = false.
Proof. av_order. lia. Qed.

Lemma key_before_le k1 k2 : key_before k1 k2 = true -> key_before k2 k1 = false.
Proof. av_order. lia. Qed.

Lemma same_triple_le k1 k2 : same_triple k1 k2 -> key_before k2 k1 = false.
Proof. av_order. lia. Qed.

(** ** The invariant *)

Definition key_range (k : avtab_key) : Prop :=
  0 <= source_type k < 2 ^ 16 /\ 0 <= target_type k < 2 ^ 16 /\
  0 <= target_class k < 2 ^ 16 /\ 0 <= specified k < 2 ^ 16.

Definition av_chain_wf (mask i : Z) (c : list avtab_node) : Prop :=
  StronglySorted node_le c /\
  Forall (fun n => key_range (akey n) /\ avtab_hash (akey n) mask = i) c.

Definition av_table_wf (nslot mask : Z) (t : list (list avtab_node)) : Prop :=
  0 < nslot <= MAX_AVTAB_HASH_BUCKETS /\ mask = nslot - 1 /\ Z.of_nat (length t) = nslot /\
  forall i c, t !! i = Some c -> av_chain_wf mask (Z.of_nat i) c.

(** The addresses of the nodes are distinct, and [malloc] has not handed out [brk]. *)
Definition addrs_ok (brk : Z) (l : list avtab_node) : Prop :=
  NoDup (addr <$> l) /\ Forall (fun n => addr n < brk) l.

Definition avtab_wf (h : avtab) : Prop :=
  exists t, av_htable h = Some t /\ av_table_wf (av_nslot h) (av_mask h) t /\
    addrs_ok (brk h) (concat t) /\ av_nel h = u32 (Z.of_nat (length (concat t))).

(** ** Hashes index the array *)

Lemma avtab_hash_range key mask : 0 <= mask -> 0 <= avtab_hash key mask <= mask.
Proof. intros. unfold avtab_hash. by apply land_le_r. Qed.

Lemma avtab_hash_triple k1 k2 mask :
  same_triple k1 k2 -> avtab_hash k1 mask = avtab_hash k2 mask.
Proof. intros (E1 & E2 & E3). unfold avtab_hash. by rewrite E1, E2, E3. Qed.

Lemma av_table_slot nslot mask t key :
  av_table_wf nslot mask t ->
  t !! Z.to_nat (avtab_hash key mask) = Some (av_slot t (avtab_hash key mask)) /\
  av_chain_wf mask (avtab_hash key mask) (av_slot t (avtab_hash key mask)).
Proof.
  intros (Hs & -> & Hl & Hc). pose proof (avtab_hash_range key (nslot - 1) ltac:(lia)) as Hr.
  destruct (lookup_lt_is_Some_2 t (Z.to_nat (avtab_hash key (nslot - 1)))) as [c Hi]; [lia|].
  unfold av_slot. rewrite Hi. simpl. split; [done|]. apply Hc in Hi.
  by rewrite Z2Nat.id in Hi by lia.
Qed.

Lemma av_table_wf_update nslot mask t key c :
  av_table_wf nslot mask t -> av_chain_wf mask (avtab_hash key mask) c ->
  av_table_wf nslot mask (<[Z.to_nat (avtab_hash key mask) := c]> t).
Proof.
  intros (Hs & Hm & Hl & Hc) Hwf. pose proof (avtab_hash_range key mask ltac:(lia)) as Hr.
  split_and!; [lia..|by rewrite length_insert|].
  intros i d Hi. destruct (decide (i = Z.to_nat (avtab_hash key mask))) as [->|Hne].
  - rewrite list_lookup_insert_eq in Hi by lia. simplify_eq. by rewrite Z2Nat.id by lia.
  - rewrite list_lookup_insert_ne in Hi by done. by apply Hc.
Qed.

Lemma avtab_nodes_concat h t :
  av_htable h = Some t -> av_table_wf (av_nslot h) (av_mask h) t -> avtab_nodes h = concat t.
Proof.
  intros Ht (Hs & _ & Hl & _). unfold avtab_nodes. rewrite Ht, take_ge; [done|lia].
Qed.

#[local] Opaque avtab_hash u32 strip_enabled.

(** ** Searching *)

Definition matches (key : avtab_key) (sp : Z) (n : avtab_node) : bool :=
  key_match key sp (akey n).

Lemma search_loop_find key sp c :
  StronglySorted node_le c -> search_loop key sp c = List.find (matches key sp) c.
Proof.
  induction 1 as [|cur c Hs IH Hle]; [done|]. cbn [search_loop List.find].
  change (matches key sp cur) with (key_match key sp (akey cur)).
  destruct (key_match key sp (akey cur)); [done|].
  destruct (key_before key (akey cur)) eqn:Hb; [|done].
  symmetry. destruct (List.find (matches key sp) c) as [n|] eqn:Hf; [|done].
  apply List.find_some in Hf as [Hin Hm]. apply list_elem_of_In in Hin.
  rewrite Forall_forall in Hle. specialize (Hle n Hin).
  unfold matches in Hm. by rewrite (key_before_match _ _ _ _ Hb Hle) in Hm.
Qed.

Lemma find_none_app {A} (f : A -> bool) l1 l2 :
  (forall x, x ∈ l1 -> f x = false) -> List.find f (l1 ++ l2) = List.find f l2.
Proof.
  induction l1 as [|x l1 IH]; intros H; [done|]. simpl. rewrite H by (by left).
  apply IH. intros. apply H. by right.
Qed.

(** Matching nodes sit in the slot of the key. *)
Lemma find_concat_slot (f : avtab_node -> bool) t i c :
  t !! i = Some c -> (forall j d n, t !! j = Some d -> n ∈ d -> f n = true -> j = i) ->
  List.find f (concat t) = List.find f c.
Proof.
  revert i. induction t as [|d t IH]; intros i Hi Hf; [done|]. cbn [concat].
  destruct i as [|i]; simplify_eq/=.
  - assert (H : forall x, x ∈ concat t -> f x = false).
    { intros x (j & d & Hj & Hx)%elem_of_concat. apply not_true_iff_false. intros Ht.
      specialize (Hf (S j) d x Hj Hx Ht). lia. }
    clear IH Hf. induction c as [|x c IHc]; simpl.
    + rewrite <-(app_nil_r (concat t)). by rewrite find_none_app.
    + by rewrite IHc.
  - rewrite find_none_app; [apply (IH i); [done|]|].
    + intros j d' n Hj Hn Ht. specialize (Hf (S j) d' n Hj Hn Ht). lia.
    + intros x Hx. apply not_true_iff_false. intros Ht. specialize (Hf 0%nat d x eq_refl Hx Ht). lia.
Qed.

Lemma search_table nslot mask t key sp :
  av_table_wf nslot mask t ->
  search_loop key sp (av_slot t (avtab_hash key mask)) = List.find (matches key sp) (concat t).
Proof.
  intros Hwf. destruct (av_table_slot nslot mask t key Hwf) as [Hi [Hs _]].
  rewrite search_loop_find by done. symmetry. eapply find_concat_slot; [done|].
  intros j d n Hj Hn [Htr _]%key_match_spec. destruct Hwf as (? & ? & _ & Hc).
  destruct (Hc j d Hj) as [_ Hf]. rewrite Forall_forall in Hf. destruct (Hf n Hn) as [_ Hh].
  rewrite (avtab_hash_triple _ _ mask Htr). lia.
Qed.

(** The three searches look at every node of the table. *)
Lemma avtab_search_node_find h key :
  avtab_wf h ->
  avtab_search_node (Some h) key =
  List.find (matches key (strip_enabled (specified key))) (avtab_nodes h).
Proof.
  intros (t & Ht & Hwf & _). rewrite (avtab_nodes_concat h t) by done.
  unfold avtab_search_node. rewrite Ht. by eapply search_table.
Qed.

Lemma avtab_search_datum h key :
  avtab_search (Some h) key = adatum <$> avtab_search_node (Some h) key.
Proof. unfold avtab_search, avtab_search_node. by destruct (av_htable h). Qed.

(** ** Insertion *)

Lemma insert_nonunique_loop_spec key sp c pre post :
  StronglySorted node_le c -> insert_nonunique_loop key sp c = (pre, post) ->
  c = pre ++ post /\ Forall (fun n => key_before key (akey n) = false /\ matches key sp n = false) pre /\
  Forall (fun n => key_before (akey n) key = false) post.
Proof.
  intros Hs. revert pre post. induction Hs as [|cur c Hs IH Hle]; intros pre post;
    cbn [insert_nonunique_loop].
  { intros [= <- <-]. done. }
  assert (Hpost : key_before (akey cur) key = false ->
            Forall (fun n => key_before (akey n) key = false) (cur :: c)).
  { intros Hc. constructor; [done|]. eapply Forall_impl; [exact Hle|].
    intros n Hn. by eapply key_before_trans. }
  destruct (key_match key sp (akey cur)) eqn:Hm.
  { intros [= <- <-]. split_and!; [done..|]. apply Hpost.
    apply key_match_spec in Hm as [Hm _]. by apply same_triple_le. }
  destruct (key_before key (akey cur)) eqn:Hb.
  { intros [= <- <-]. split_and!; [done..|]. apply Hpost. by apply key_before_le. }
  destruct (insert_nonunique_loop key sp c) as [pre' post'] eqn:E. intros [= <- <-].
  destruct (IH _ _ eq_refl) as (-> & Hpre & Hp). by split_and!; [|constructor|].
Qed.

(** [avtab_insert] stops where [avtab_insert_nonunique] does, unless a node of the key
    is there. *)
Lemma insert_loop_nonunique key sp c :
  insert_loop key sp c =
  match search_loop key sp c with
  | Some _ => if truthy (Z.land sp AVTAB_XPERMS) then Some (insert_nonunique_loop key sp c) else None
  | None => Some (insert_nonunique_loop key sp c)
  end.
Proof.
  induction c as [|cur c IH]; cbn [insert_loop search_loop insert_nonunique_loop]; [done|].
  destruct (key_match key sp (akey cur)); [by destruct (truthy _)|].
  destruct (key_before key (akey cur)); [done|]. rewrite IH.
  destruct (search_loop key sp c), (truthy (Z.land sp AVTAB_XPERMS));
    by destruct (insert_nonunique_loop key sp c).
Qed.

(** The datum a new node gets. *)
Definition stored_datum (key : avtab_key) (d : avtab_datum) : avtab_datum :=
  if truthy (Z.land (specified key) AVTAB_XPERMS)
  then AvDatum (data d) (Some (default zero_xperms (xperms d))) else d.

Lemma av_chain_wf_link mask i pre post n :
  av_chain_wf mask i (pre ++ post) -> key_range (akey n) -> avtab_hash (akey n) mask = i ->
  Forall (fun m => key_before (akey n) (akey m) = false) pre ->
  Forall (fun m => key_before (akey m) (akey n) = false) post ->
  av_chain_wf mask i (pre ++ n :: post).
Proof.
  intros [Hs Hf] Hk Hh Hpre Hpost. rewrite Forall_app in Hf. destruct Hf as [Hf1 Hf2].
  split; [|by rewrite Forall_app, Forall_cons].
  apply StronglySorted_app_2.
  - intros x1 x2 H1 [->|H2]%elem_of_cons; [|by eapply StronglySorted_app_1_elem_of].
    rewrite Forall_forall in Hpre. by apply Hpre.
  - by eapply StronglySorted_app_1_l.
  - constructor; [by eapply StronglySorted_app_1_r|done].
Qed.

Lemma addrs_ok_new b n l l' :
  addrs_ok b l -> l' ≡ₚ n :: l -> addr n = b -> addrs_ok (b + 1) l'.
Proof.
  intros [Hnd Hlt] Hp Hn. split; rewrite Hp; simpl.
  - constructor; [|done]. rewrite list_elem_of_fmap. intros (m & Heq & Hm).
    rewrite Forall_forall in Hlt. specialize (Hlt m Hm). simpl in Hlt. lia.
  - constructor; [lia|]. eapply Forall_impl; [exact Hlt|]. simpl. lia.
Qed.

(** Linking a node where [avtab_insert_nonunique] puts it. *)
Lemma avtab_insert_node_spec h t key datum sp pre post o r h' o' :
  avtab_wf h -> key_range key -> av_htable h = Some t ->
  insert_nonunique_loop key sp (av_slot t (avtab_hash key (av_mask h))) = (pre, post) ->
  avtab_insert_node h t (avtab_hash key (av_mask h)) pre post key datum o = (r, h', o') ->
  avtab_wf h' /\
  match r with
  | Some n => n = AvNode (brk h) key (stored_datum key datum) 0 /\
              avtab_nodes h' ≡ₚ n :: avtab_nodes h
  | None => h' = h /\ o <> []
  end.
Proof.
  intros Hwf Hk Ht Hl. pose proof Hwf as (t' & Ht' & Htw & Ha & Hn). simplify_eq.
  destruct (av_table_slot _ _ _ key Htw) as [Hi Hc].
  pose proof (insert_nonunique_loop_spec key sp _ pre post (proj1 Hc) Hl) as (Hsl & Hpre & Hpost).
  assert (Hlink : forall d, let n := AvNode (brk h) key d 0 in
    let h1 := Avtab (Some (<[Z.to_nat (avtab_hash key (av_mask h)) := pre ++ n :: post]> t))
                (u32 (av_nel h + 1)) (av_nslot h) (av_mask h) (brk h + 1) in
    avtab_wf h1 /\ avtab_nodes h1 ≡ₚ n :: avtab_nodes h).
  { intros d n h1. rewrite Hsl in Hi, Hc.
    assert (Hp : concat (<[Z.to_nat (avtab_hash key (av_mask h)) := pre ++ n :: post]> t)
                 ≡ₚ n :: concat t).
    { eapply concat_insert_add; [done|]. by rewrite Permutation_middle. }
    assert (Htw' : av_table_wf (av_nslot h1) (av_mask h1)
      (<[Z.to_nat (avtab_hash key (av_mask h)) := pre ++ n :: post]> t)).
    { apply av_table_wf_update; [done|]. apply av_chain_wf_link; try done.
      eapply Forall_impl; [exact Hpre|]. by intros ? [? _]. }
    split.
    - exists (<[Z.to_nat (avtab_hash key (av_mask h)) := pre ++ n :: post]> t).
      split_and!; try done; [by eapply addrs_ok_new|].
      simpl. rewrite Hp, Hn, u32_succ. simpl length. f_equal. lia.
    - rewrite (avtab_nodes_concat h1 _ eq_refl Htw'), (avtab_nodes_concat h t) by done. done. }
  unfold avtab_insert_node. destruct o as [|[] o]; cbn [malloc].
  1,2: unfold stored_datum; destruct (truthy (Z.land (specified key) AVTAB_XPERMS)) eqn:Hx.
  3: destruct o as [|[] o]; cbn [malloc].
  all: intros [= <- <- <-]; try (split; [done|]; split; done).
  all: edestruct Hlink as [? ?]; split; [eassumption|]; split; [done|eassumption].
Qed.

Lemma avtab_insert_nonunique_spec h key datum o r h' o' :
  avtab_wf h -> key_range key ->
  avtab_insert_nonunique (Some h) key datum o = (r, h', o') ->
  exists h1, h' = Some h1 /\ avtab_wf h1 /\
  match r with
  | Some n => n = AvNode (brk h) key (stored_datum key datum) 0 /\
              avtab_nodes h1 ≡ₚ n :: avtab_nodes h
  | None => h1 = h /\ o <> []
  end.
Proof.
  intros Hwf Hk. unfold avtab_insert_nonunique. pose proof Hwf as (t & Ht & _). rewrite Ht.
  destruct (insert_nonunique_loop key _ _) as [pre post] eqn:El.
  destruct (avtab_insert_node h t _ pre post key datum o) as [[n h1] o1] eqn:Ei.
  intros [= <- <- <-]. exists h1. split; [done|]. by eapply avtab_insert_node_spec.
Qed.

Lemma avtab_insert_spec h key datum o rc h' o' :
  avtab_wf h -> key_range key -> avtab_insert (Some h) key datum o = (rc, h', o') ->
  exists h1, h' = Some h1 /\ avtab_wf h1 /\
  (rc = 0 /\ avtab_nodes h1 ≡ₚ AvNode (brk h) key (stored_datum key datum) 0 :: avtab_nodes h /\
     (Z.land (strip_enabled (specified key)) AVTAB_XPERMS = 0 ->
      avtab_search_node (Some h) key = None) \/
   rc = SEPOL_EEXIST /\ h1 = h /\ is_Some (avtab_search_node (Some h) key) /\
     Z.land (strip_enabled (specified key)) AVTAB_XPERMS = 0 \/
   rc = SEPOL_ENOMEM /\ h1 = h /\ o <> []).
Proof.
  intros Hwf Hk. unfold avtab_insert, avtab_search_node. pose proof Hwf as (t & Ht & _). rewrite Ht.
  rewrite insert_loop_nonunique. set (sl := search_loop key _ _).
  assert (Hins : forall pre post,
    insert_nonunique_loop key (strip_enabled (specified key))
      (av_slot t (avtab_hash key (av_mask h))) = (pre, post) ->
    (Z.land (strip_enabled (specified key)) AVTAB_XPERMS = 0 -> sl = None) ->
    match avtab_insert_node h t (avtab_hash key (av_mask h)) pre post key datum o with
    | (None, h', o') => (SEPOL_ENOMEM, Some h', o')
    | (Some _, h', o') => (0, Some h', o')
    end = (rc, h', o') ->
    exists h1, h' = Some h1 /\ avtab_wf h1 /\
    (rc = 0 /\ avtab_nodes h1 ≡ₚ AvNode (brk h) key (stored_datum key datum) 0 :: avtab_nodes h /\
       (Z.land (strip_enabled (specified key)) AVTAB_XPERMS = 0 -> sl = None) \/
     rc = SEPOL_EEXIST /\ h1 = h /\ is_Some sl /\
       Z.land (strip_enabled (specified key)) AVTAB_XPERMS = 0 \/
     rc = SEPOL_ENOMEM /\ h1 = h /\ o <> [])).
  { intros pre post El Hsl. destruct (avtab_insert_node _ _ _ _ _ _ _ _) as [[n h1] o1] eqn:Ei.
    destruct (avtab_insert_node_spec _ _ _ _ _ _ _ _ _ _ _ Hwf Hk Ht El Ei) as [Hwf1 Hn].
    destruct n as [n|]; intros [= <- <- <-]; exists h1; split_and!; try done.
    - destruct Hn as [-> Hp]. by left.
    - destruct Hn as [-> Ho]. by right; right. }
  destruct (insert_nonunique_loop key _ _) as [pre post] eqn:El.
  destruct sl as [n|]; [|by apply Hins].
  destruct (truthy _) eqn:Hx.
  - apply truthy_true in Hx. apply Hins; done.
  - apply truthy_false in Hx. intros [= <- <- <-]. exists h. split_and!; try done.
    right; left. split_and!; done.
Qed.

(** ** Allocation *)

Lemma shift_loop_spec fuel work shift :
  0 <= work < 2 ^ (Z.of_nat fuel) ->
  shift_loop (S fuel) work shift = Some (if work =? 0 then shift else shift + Z.log2 work + 1).
Proof.
  revert work shift. induction fuel as [|fuel IH]; intros work shift Hw.
  - assert (work = 0) as -> by (change (2 ^ Z.of_nat 0) with 1 in Hw; lia). done.
  - cbn [shift_loop] in *. unfold truthy in *. case_Z; simpl; [done|].
    rewrite IH; cycle 1.
    { rewrite Z.shiftr_div_pow2 by lia. split; [apply Z.div_pos; lia|].
      apply Z.div_lt_upper_bound; [lia|]. rewrite <-Z.pow_add_r by lia.
      replace (1 + Z.of_nat fuel) with (Z.of_nat (S fuel)) by lia. lia. }
    f_equal. destruct (Z.eqb_spec (Z.shiftr work 1) 0) as [E|E].
    + assert (work = 1) as ->; [|simpl; lia].
      rewrite Z.shiftr_div_pow2 in E by lia. change (2 ^ 1) with 2 in E.
      pose proof (Z.div_mod work 2). pose proof (Z.mod_pos_bound work 2). lia.
    + rewrite Z.log2_shiftr by lia.
      assert (1 <= Z.log2 work); [|lia]. apply Z.log2_le_pow2; [lia|].
      destruct (decide (work = 1)) as [->|]; [by exfalso; apply E|lia].
Qed.

(** The number of slots: a power of two, one slot for two to four rules, at most 2^20. *)
Lemma avtab_nslot_spec nrules :
  0 < nrules < 2 ^ 32 ->
  exists k, avtab_nslot nrules = Some (2 ^ k) /\ 1 <= k <= 20 /\
    (4 <= nrules < 2 ^ 22 -> 2 * 2 ^ k <= nrules < 4 * 2 ^ k).
Proof.
  intros Hn. unfold avtab_nslot. rewrite (shift_loop_spec 32) by (change (2 ^ Z.of_nat 32) with (2 ^ 32); lia).
  destruct (Z.eqb_spec nrules 0); [lia|]. rewrite Z.add_0_l.
  pose proof (Z.log2_spec nrules ltac:(lia)) as [Hl1 Hl2].
  assert (Hlog : 0 <= Z.log2 nrules < 32)
    by (split; [apply Z.log2_nonneg|apply Z.log2_lt_pow2; lia]).
  set (L := Z.log2 nrules) in *.
  set (sh := if 2 <? L + 1 then L + 1 - 2 else L + 1).
  assert (Hsh : 1 <= sh <= 30 /\ (2 <= L -> sh = L - 1) /\ (L < 2 -> sh = L + 1))
    by (unfold sh; case_Z; lia).
  rewrite Z.shiftl_1_l, u32_small by (split; [lia|]; apply Z.pow_lt_mono_r; lia).
  assert (HL : 4 <= nrules -> 2 <= L) by (intros; apply (Z.log2_le_pow2 nrules 2); lia).
  assert (HL' : nrules < 2 ^ 22 -> L < 22) by (intros; apply Z.log2_lt_pow2; lia).
  unfold MAX_AVTAB_HASH_BUCKETS. destruct (Z.ltb_spec (2 ^ 20) (2 ^ sh)) as [Hlt|Hge].
  - apply Z.pow_lt_mono_r_iff in Hlt; [|lia..].
    exists 20. split_and!; [done|lia..|]. intros. lia.
  - apply Z.pow_le_mono_r_iff in Hge; [|lia..]. exists sh. split_and!; [done|lia..|].
    intros Hr. destruct Hsh as (_ & Hs & _). rewrite Hs by lia.
    replace (2 * 2 ^ (L - 1)) with (2 ^ L) by (rewrite <-Z.pow_succ_r by lia; f_equal; lia).
    replace (4 * 2 ^ (L - 1)) with (2 ^ Z.succ L); [lia|].
    change 4 with (2 ^ 2). rewrite <-Z.pow_add_r by lia. f_equal. lia.
Qed.

Lemma avtab_alloc_spec h nrules o rc h' o' :
  0 < nrules < 2 ^ 32 -> avtab_alloc h nrules o = (rc, h', o') ->
  rc = 0 /\ avtab_wf h' /\ avtab_nodes h' = [] /\ av_htable h' <> None \/
  rc = -1 /\ o <> [] /\ av_htable h' = None.
Proof.
  intros Hn. unfold avtab_alloc. case_Z; [lia|].
  destruct (avtab_nslot_spec nrules Hn) as (k & -> & Hk & _).
  assert (Hp : 0 < 2 ^ k <= MAX_AVTAB_HASH_BUCKETS).
  { unfold MAX_AVTAB_HASH_BUCKETS. split; [apply pow2_pos; lia|apply Z.pow_le_mono_r; lia]. }
  destruct (malloc o) as [[] o1] eqn:Ho; intros [= <- <- <-].
  - left. split; [done|].
    assert (Htw : av_table_wf (2 ^ k) (2 ^ k - 1) (replicate (Z.to_nat (2 ^ k)) [])).
    { split_and!; [lia..|rewrite length_replicate; lia|].
      intros i c [-> _]%lookup_replicate. split; constructor. }
    split_and!; [|unfold avtab_nodes; simpl; by rewrite take_replicate, concat_replicate_nil|done].
    exists (replicate (Z.to_nat (2 ^ k)) []). split_and!; try done; simpl.
    + rewrite concat_replicate_nil. split; constructor.
    + by rewrite concat_replicate_nil.
  - right. split_and!; try done. by intros ->.
Qed.

(** ** Enumerating the nodes of a key *)

(** [for (node = ...; node; node = avtab_search_node_next(node, specified))]. *)
Fixpoint search_all (fuel : nat) (h : avtab) (node : option avtab_node) (specified : Z) :
    list avtab_node :=
  match fuel, node with
  | S fuel', Some n => n :: search_all fuel' h (avtab_search_node_next h (Some n) specified) specified
  | _, _ => []
  end.

Lemma after_app a pre n post :
  addr n = a -> NoDup (addr <$> (pre ++ n :: post)) -> after a (pre ++ n :: post) = post.
Proof.
  intros <-. induction pre as [|m pre IH]; simpl; intros Hnd.
  - by rewrite Z.eqb_refl.
  - apply NoDup_cons in Hnd as [Hni Hnd]. destruct (Z.eqb_spec (addr m) (addr n)) as [E|E]; [|by apply IH].
    exfalso. apply Hni. rewrite list_elem_of_fmap. exists n. split; [done|].
    rewrite elem_of_app, elem_of_cons. auto.
Qed.

Lemma find_split {A} (f : A -> bool) l x :
  List.find f l = Some x ->
  exists pre post, l = pre ++ x :: post /\ f x = true /\ List.filter f pre = [].
Proof.
  induction l as [|y l IH]; simpl; [done|]. destruct (f y) eqn:E.
  - intros [= ->]. by exists [], l.
  - intros (pre & post & -> & ? & Hf)%IH. exists (y :: pre), post. simpl. by rewrite E.
Qed.

Lemma find_none_filter {A} (f : A -> bool) l : List.find f l = None -> List.filter f l = [].
Proof. induction l as [|y l IH]; simpl; [done|]. by destruct (f y). Qed.

Lemma matches_triple k1 k2 sp n : same_triple k1 k2 -> matches k1 sp n = matches k2 sp n.
Proof. intros (E1 & E2 & E3). unfold matches, key_match. by rewrite E1, E2, E3. Qed.

Lemma search_all_chain h t key sp sp0 fuel pre rest :
  avtab_wf h -> av_htable h = Some t ->
  sp = Z.land sp0 (Z.lnot (Z.lor AVTAB_ENABLED AVTAB_ENABLED_OLD)) ->
  av_slot t (avtab_hash key (av_mask h)) = pre ++ rest -> (length rest < fuel)%nat ->
  search_all fuel h (search_loop key sp rest) sp0 = List.filter (matches key sp) rest.
Proof.
  intros Hwf Ht Hsp. pose proof Hwf as (t' & Ht' & Htw & [Hnd _] & _). simplify_eq.
  destruct (av_table_slot _ _ _ key Htw) as [Hi [Hs _]].
  assert (Hndc : NoDup (addr <$> av_slot t (avtab_hash key (av_mask h)))).
  { destruct (concat_lookup t _ _ Hi) as (l & r & El). rewrite El, !fmap_app in Hnd.
    apply NoDup_app in Hnd as (_ & _ & Hnd). by apply NoDup_app in Hnd as (? & _ & _). }
  revert pre rest. induction fuel as [|fuel IH]; intros pre rest Hc Hf; [lia|].
  rewrite Hc in Hs, Hndc. apply StronglySorted_app_1_r in Hs.
  rewrite search_loop_find by done. destruct (List.find _ rest) as [n|] eqn:Hfi.
  - destruct (find_split _ _ _ Hfi) as (p & q & -> & Hm & Hp). cbn [search_all].
    rewrite List.filter_app, Hp. simpl. rewrite Hm. f_equal.
    apply key_match_spec in Hm as [Htr _].
    assert (Hnext : next_nodes h n = q).
    { unfold next_nodes. rewrite Ht, <-(avtab_hash_triple _ _ _ Htr), Hc, app_assoc.
      apply after_app; [done|]. by rewrite <-app_assoc. }
    unfold avtab_search_node_next. rewrite Hnext.
    assert (Hsq : StronglySorted node_le q).
    { apply StronglySorted_app_1_r in Hs. by inversion Hs. }
    rewrite <-(IH (pre ++ p ++ [n]) q).
    + f_equal. rewrite !search_loop_find by done. clear - Htr.
      induction q as [|m q IHq]; simpl; [done|].
      by rewrite <-(matches_triple key (akey n)), IHq.
    + by rewrite Hc, <-!app_assoc.
    + rewrite length_app in Hf. simpl in Hf. lia.
  - simpl. symmetry. by apply find_none_filter.
Qed.

Lemma filter_none {A} (f : A -> bool) l : (forall x, x ∈ l -> f x = false) -> List.filter f l = [].
Proof.
  induction l as [|x l IH]; intros H; [done|]. simpl. rewrite H by (by left).
  apply IH. intros. apply H. by right.
Qed.

Lemma filter_concat_slot (f : avtab_node -> bool) t i c :
  t !! i = Some c -> (forall j d n, t !! j = Some d -> n ∈ d -> f n = true -> j = i) ->
  List.filter f (concat t) = List.filter f c.
Proof.
  revert i. induction t as [|d t IH]; intros i Hi Hf; [done|]. cbn [concat].
  rewrite List.filter_app. destruct i as [|i]; simplify_eq/=.
  - rewrite (filter_none f (concat t)); [by rewrite app_nil_r|].
    intros x (j & d & Hj & Hx)%elem_of_concat. apply not_true_iff_false. intros Ht.
    specialize (Hf (S j) d x Hj Hx Ht). lia.
  - rewrite (filter_none f d); [simpl; apply (IH i); [done|]|].
    + intros j d' n Hj Hn Ht. specialize (Hf (S j) d' n Hj Hn Ht). lia.
    + intros x Hx. apply not_true_iff_false. intros Ht. specialize (Hf 0%nat d x eq_refl Hx Ht). lia.
Qed.

Lemma matches_slot nslot mask t key sp j d n :
  av_table_wf nslot mask t -> t !! j = Some d -> n ∈ d -> matches key sp n = true ->
  j = Z.to_nat (avtab_hash key mask).
Proof.
  intros (? & ? & _ & Hc) Hj Hn [Htr _]%key_match_spec.
  destruct (Hc j d Hj) as [_ Hf]. rewrite Forall_forall in Hf. destruct (Hf n Hn) as [_ Hh].
  rewrite (avtab_hash_triple _ _ mask Htr). lia.
Qed.

#[local] Transparent strip_enabled.
Lemma strip_enabled_small sp :
  0 <= sp < 2 ^ 16 ->
  strip_enabled sp = Z.land sp (Z.lnot (Z.lor AVTAB_ENABLED AVTAB_ENABLED_OLD)).
Proof.
  intros Hs. unfold strip_enabled. apply u16_small.
  rewrite Z.land_comm. pose proof (land_le_r (Z.lnot (Z.lor AVTAB_ENABLED AVTAB_ENABLED_OLD)) sp). lia.
Qed.

Lemma search_all_spec h key fuel :
  avtab_wf h -> 0 <= specified key < 2 ^ 16 -> (length (avtab_nodes h) < fuel)%nat ->
  search_all fuel h (avtab_search_node (Some h) key) (specified key) =
  List.filter (matches key (strip_enabled (specified key))) (avtab_nodes h).
Proof.
  intros Hwf Hs Hf. pose proof Hwf as (t & Ht & Htw & _).
  rewrite (avtab_nodes_concat h t) in * by done.
  destruct (av_table_slot _ _ _ key Htw) as [Hi _].
  rewrite (filter_concat_slot _ _ _ _ Hi) by (intros; by eapply matches_slot).
  unfold avtab_search_node. rewrite Ht.
  apply (search_all_chain h t key _ _ fuel [] _ Hwf Ht); [by apply strip_enabled_small|done|].
  destruct (concat_lookup t _ _ Hi) as (l & r & El). rewrite El, !length_app in Hf. lia.
Qed.
