(* ===== verification/AvtabRules.v ===== *)
(** * Access vector tables as collections of rules

    Which keys and data a table of a policy holds, when two nodes are the same rule,
    and the invariant [avtab_inv] that the readers establish and every later operation
    relies on: besides [avtab_wf], each node has exactly one specifier, owns extended
    permissions exactly when its specifier is an extended one (the code dereferences
    them without a test), and a rule that is not extended occurs once. *)

From S2P Require Import Prelude Policyfile Ebitmap EbitmapProps Avtab AvtabSpec.

(** The specifiers of a policy. *)
Definition specs : list Z :=
  [AVTAB_ALLOWED; AVTAB_AUDITALLOW; AVTAB_AUDITDENY; AVTAB_TRANSITION; AVTAB_MEMBER;
   AVTAB_CHANGE; AVTAB_XPERMS_ALLOWED; AVTAB_XPERMS_AUDITALLOW; AVTAB_XPERMS_DONTAUDIT].

(** The two tests of [avtab_read_item]. *)
Definition spec_valid (sp : Z) : bool :=
  negb (truthy (Z.land sp (Z.lnot (Z.lor (Z.lor AVTAB_AV AVTAB_TYPE)
                                     (Z.lor AVTAB_XPERMS AVTAB_ENABLED))))) &&
  (popcount (Z.land sp (Z.lnot AVTAB_ENABLED)) =? 1).

Definition spec_ok (sp : Z) : Prop := 0 <= sp < 2 ^ 16 /\ strip_enabled sp ∈ specs.

(** Checked for each of the 2^11 combinations of specifiers. *)
Lemma spec_table :
  forallb (fun z => if popcount z =? 1 then
             if Z.land z (Z.lnot (Z.lor (Z.lor AVTAB_AV AVTAB_TYPE) AVTAB_XPERMS)) =? 0
             then bool_decide (z ∈ specs) else true else true)
    (seqZ 0 (2 ^ 11)) = true.
Proof. vm_compute. reflexivity. Qed.

Lemma forallb_seqZ (f : Z -> bool) n x : forallb f (seqZ 0 n) = true -> 0 <= x < n -> f x = true.
Proof. rewrite forallb_forall. intros H Hx. apply H. rewrite <-list_elem_of_In, elem_of_seqZ. lia. Qed.

Lemma spec_valid_ok sp : 0 <= sp < 2 ^ 16 -> spec_valid sp = true -> spec_ok sp.
Proof.
  intros Hr. unfold spec_valid. rewrite andb_true_iff, negb_true_iff, truthy_false, Z.eqb_eq.
  set (M := Z.lor (Z.lor AVTAB_AV AVTAB_TYPE) AVTAB_XPERMS).
  intros [Hm Hp]. split; [done|].
  assert (Hs : strip_enabled sp = Z.land sp (Z.lnot AVTAB_ENABLED)).
  { rewrite strip_enabled_small by done. apply (word_ext 16).
    - rewrite Z.land_comm. pose proof (land_le_r (Z.lnot (Z.lor AVTAB_ENABLED AVTAB_ENABLED_OLD)) sp). lia.
    - rewrite Z.land_comm. pose proof (land_le_r (Z.lnot AVTAB_ENABLED) sp). lia.
    - intros i Hi. rewrite !Z.land_spec, !Z.lnot_spec, Z.lor_spec by lia.
      replace (Z.testbit AVTAB_ENABLED_OLD i) with false; [by rewrite orb_false_r|].
      change AVTAB_ENABLED_OLD with (2 ^ 31). rewrite Z.pow2_bits_false; [done|lia]. }
  assert (Hx : Z.land (strip_enabled sp) (Z.lnot M) = 0).
  { rewrite Hs, <-Z.land_assoc, <-Hm. f_equal. }
  assert (Hle : 0 <= strip_enabled sp <= M).
  { assert (strip_enabled sp = Z.land (strip_enabled sp) M) as ->; [|by apply land_le_r].
    apply Z.bits_inj'. intros i Hi. rewrite Z.land_spec.
    pose proof (f_equal (fun x => Z.testbit x i) Hx) as Hb. cbv beta in Hb.
    rewrite Z.land_spec, Z.lnot_spec, Z.testbit_0_l in Hb by done.
    destruct (Z.testbit (strip_enabled sp) i), (Z.testbit M i); done. }
  pose proof (forallb_seqZ _ _ (strip_enabled sp) spec_table) as H. cbv beta in H.
  fold M in H. rewrite Hs, Hp, <-Hs, Hx in H. simpl in H.
  apply bool_decide_eq_true in H; [done|]. change M with 0x777 in Hle. lia.
Qed.

Lemma specs_range sp : sp ∈ specs -> 0 <= sp < 2 ^ 16.
Proof. intros H. unfold specs in H. set_unfold in H. decompose [or] H; subst; done. Qed.

Lemma specs_strip sp : sp ∈ specs -> strip_enabled sp = sp.
Proof. intros H. unfold specs in H. set_unfold in H. decompose [or] H; subst; done. Qed.

Lemma specs_ok sp : sp ∈ specs -> spec_ok sp.
Proof. intros H. split; [by apply specs_range|by rewrite specs_strip]. Qed.

Lemma specs_overlap a b : a ∈ specs -> b ∈ specs -> Z.land a b <> 0 <-> a = b.
Proof.
  intros Ha Hb. unfold specs in *. set_unfold in Ha. set_unfold in Hb.
  decompose [or] Ha; decompose [or] Hb; subst; split; done.
Qed.

(** Extended specifiers. *)
Definition is_xspec (sp : Z) : bool := truthy (Z.land sp AVTAB_XPERMS).

Lemma land_strip a sp :
  a ∈ specs -> 0 <= sp < 2 ^ 16 -> Z.land a sp = Z.land a (strip_enabled sp).
Proof.
  intros Ha Hs. rewrite strip_enabled_small by done.
  rewrite <-(specs_strip a Ha) at 1. rewrite strip_enabled_small by (by apply specs_range).
  rewrite <-!Z.land_assoc. f_equal. apply Z.land_comm.
Qed.

Lemma is_xspec_strip sp : 0 <= sp < 2 ^ 16 -> is_xspec (strip_enabled sp) = is_xspec sp.
Proof.
  intros Hs. unfold is_xspec. f_equal. rewrite strip_enabled_small by done.
  rewrite <-Z.land_assoc. done.
Qed.

(** ** Rules *)

(** The identity of the rule a key names. *)
Definition rule_id (k : avtab_key) : avtab_key :=
  AvKey (source_type k) (target_type k) (target_class k) (strip_enabled (specified k)).

Definition key_ok (k : avtab_key) : Prop := key_range k /\ spec_ok (specified k).

Lemma matches_iff key n :
  key_ok key -> key_ok (akey n) ->
  matches key (strip_enabled (specified key)) n = true <-> rule_id key = rule_id (akey n).
Proof.
  intros [_ [Hr1 Hs1]] [_ [Hr2 Hs2]]. unfold matches. rewrite key_match_spec.
  rewrite land_strip, specs_overlap by done. unfold rule_id, same_triple. split.
  - intros [(-> & -> & ->) ->]. done.
  - intros [= -> -> -> ->]. done.
Qed.

Definition xperms_ok (x : avtab_extended_perms) : Prop :=
  0 <= x_specified x < 2 ^ 8 /\ 0 <= x_driver x < 2 ^ 8 /\ length (x_perms x) = 8%nat /\
  Forall (fun w => 0 <= w < 2 ^ 32) (x_perms x).

Definition datum_ok (k : avtab_key) (d : avtab_datum) : Prop :=
  0 <= data d < 2 ^ 32 /\
  match xperms d with
  | Some x => is_xspec (specified k) = true /\ xperms_ok x
  | None => is_xspec (specified k) = false
  end.

Definition node_good (n : avtab_node) : Prop := key_ok (akey n) /\ datum_ok (akey n) (adatum n).

(** A rule that is not extended occurs once. *)
Definition rules_unique (l : list avtab_node) : Prop :=
  forall a b, a ∈ l -> b ∈ l -> rule_id (akey a) = rule_id (akey b) ->
    is_xspec (specified (akey a)) = false -> a = b.

Definition avtab_inv (h : avtab) : Prop :=
  avtab_wf h /\ Forall node_good (avtab_nodes h) /\ rules_unique (avtab_nodes h).

#[export] Instance rules_unique_proper : Proper ((≡ₚ) ==> iff) rules_unique.
Proof.
  intros l1 l2 Hp. unfold rules_unique. by setoid_rewrite Hp.
Qed.

(** What a caller may pass for insertion: extended permissions may be left to be filled
    in later. *)
Definition insertable (k : avtab_key) (d : avtab_datum) : Prop :=
  key_ok k /\ 0 <= data d < 2 ^ 32 /\
  match xperms d with
  | Some x => is_xspec (specified k) = true /\ xperms_ok x
  | None => True
  end.

Lemma stored_datum_ok k d : insertable k d -> datum_ok k (stored_datum k d).
Proof.
  intros (Hk & Hd & Hx). unfold stored_datum. fold (is_xspec (specified k)).
  destruct (is_xspec (specified k)) eqn:E; unfold datum_ok; simpl.
  - split; [done|]. split; [done|].
    destruct (xperms d) as [x|]; simpl; [by destruct Hx|].
    split_and!; simpl; try done. repeat constructor; done.
  - split; [done|]. destruct (xperms d) as [x|]; [by destruct Hx|done].
Qed.

Lemma search_none_absent h key :
  avtab_inv h -> key_ok key -> avtab_search_node (Some h) key = None ->
  forall n, n ∈ avtab_nodes h -> rule_id key <> rule_id (akey n).
Proof.
  intros (Hwf & Hg & _) Hk Hs n Hn. rewrite avtab_search_node_find in Hs by done.
  apply List.find_none with (x := n) in Hs; [|by apply list_elem_of_In].
  rewrite Forall_forall in Hg. rewrite <-matches_iff by (done || by apply Hg). congruence.
Qed.

Lemma search_some_rule h key n :
  avtab_inv h -> key_ok key -> avtab_search_node (Some h) key = Some n ->
  n ∈ avtab_nodes h /\ rule_id key = rule_id (akey n).
Proof.
  intros (Hwf & Hg & _) Hk Hs. rewrite avtab_search_node_find in Hs by done.
  apply List.find_some in Hs as [Hin Hm]. apply list_elem_of_In in Hin. split; [done|].
  rewrite Forall_forall in Hg. apply matches_iff; [done|by apply Hg|done].
Qed.

(** A search that is not for an extended rule finds the node of the rule. *)
Lemma search_unique h key n :
  avtab_inv h -> key_ok key -> is_xspec (specified key) = false ->
  n ∈ avtab_nodes h -> rule_id key = rule_id (akey n) -> avtab_search_node (Some h) key = Some n.
Proof.
  intros Hi Hk Hx Hn He. destruct (avtab_search_node (Some h) key) as [m|] eqn:E.
  - destruct (search_some_rule h key m Hi Hk E) as [Hm Hr]. f_equal.
    destruct Hi as (_ & Hg & Hu). apply Hu; [done..|congruence|].
    rewrite Forall_forall in Hg. destruct (Hg m Hm) as [[_ [Hrg _]] _].
    rewrite <-is_xspec_strip by done. destruct Hk as [_ [Hrk _]].
    rewrite <-is_xspec_strip in Hx by done. unfold rule_id in Hr. congruence.
  - by eapply search_none_absent in E.
Qed.

(** ** The insertions keep the invariant *)

Lemma inv_add h h' n :
  avtab_inv h -> avtab_wf h' -> avtab_nodes h' ≡ₚ n :: avtab_nodes h -> node_good n ->
  (is_xspec (specified (akey n)) = false ->
   forall m, m ∈ avtab_nodes h -> rule_id (akey n) <> rule_id (akey m)) ->
  avtab_inv h'.
Proof.
  intros (Hwf & Hg & Hu) Hwf' Hp Hn Hfresh. split_and!; [done|by rewrite Hp; constructor|].
  rewrite Hp. rewrite Forall_forall in Hg.
  assert (Hx : forall m, node_good m -> rule_id (akey n) = rule_id (akey m) ->
                 is_xspec (specified (akey n)) = is_xspec (specified (akey m))).
  { intros m [[_ [Hr _]] _] He. destruct Hn as [[_ [Hr' _]] _].
    rewrite <-(is_xspec_strip (specified (akey n))), <-(is_xspec_strip (specified (akey m))) by done.
    unfold rule_id in He. congruence. }
  intros a b [->|Ha]%elem_of_cons [->|Hb]%elem_of_cons He Hxa; try done.
  - by destruct (Hfresh Hxa b Hb).
  - rewrite <-(Hx a) in Hxa by auto. by destruct (Hfresh Hxa a Ha).
  - by apply Hu.
Qed.

Lemma avtab_insert_inv h key datum o rc h' o' :
  avtab_inv h -> insertable key datum -> avtab_insert (Some h) key datum o = (rc, h', o') ->
  exists h1, h' = Some h1 /\ avtab_inv h1.
Proof.
  intros Hi Hd E. pose proof Hi as (Hwf & _). pose proof Hd as (Hk & _). pose proof Hk as [Hkr [Hsr _]].
  destruct (avtab_insert_spec _ _ _ _ _ _ _ Hwf Hkr E)
    as (h1 & -> & Hwf1 & [(-> & Hp & Hn)|[(-> & -> & _)|(-> & -> & _)]]); eauto.
  exists h1. split; [done|]. eapply inv_add; [done..| |].
  - split; [done|]. by apply stored_datum_ok.
  - simpl. intros Hx m Hm. eapply search_none_absent; [done..| |done]. apply Hn.
    rewrite <-is_xspec_strip in Hx by done. by apply truthy_false.
Qed.

(** ** What a table says about a rule that is not extended *)

Lemma search_char h key n :
  avtab_inv h -> key_ok key -> is_xspec (specified key) = false ->
  avtab_search_node (Some h) key = Some n <->
  n ∈ avtab_nodes h /\ rule_id key = rule_id (akey n).
Proof.
  intros Hi Hk Hx. split; [by apply search_some_rule|]. intros [Hn He]. by apply search_unique.
Qed.

(** Adding or removing a node of another rule does not change the answer. *)
Lemma search_frame h h' n key :
  avtab_inv h -> avtab_inv h' -> avtab_nodes h' ≡ₚ n :: avtab_nodes h ->
  key_ok key -> is_xspec (specified key) = false -> rule_id key <> rule_id (akey n) ->
  avtab_search_node (Some h') key = avtab_search_node (Some h) key.
Proof.
  intros Hi Hi' Hp Hk Hx Hne. apply option_eq. intros m. rewrite !search_char by done.
  rewrite Hp, elem_of_cons. split; [|tauto]. intros [[->|Hm] He]; done.
Qed.

Lemma search_added h h' n key :
  avtab_inv h' -> avtab_nodes h' ≡ₚ n :: avtab_nodes h ->
  key_ok key -> is_xspec (specified key) = false -> rule_id key = rule_id (akey n) ->
  avtab_search_node (Some h') key = Some n.
Proof. intros Hi' Hp Hk Hx He. apply search_char; try done. rewrite Hp. split; [by left|done]. Qed.
