(* ===== verification/Policydb.v ===== *)
(** * The policy database (include/sepol/policydb/policydb.h)

    The part of [policydb_t] that the modelled operations read and write: the types and
    classes with their constraints, the rule table, the transitions for file names, the
    attribute maps and the permissive map. *)

From S2P Require Import Prelude Ebitmap Hashtab Symtab Avtab.

Definition POLICY_KERN : Z := 0.
Definition SEPOL_TARGET_SELINUX : Z := 0.

Definition TYPE_TYPE : Z := 0.
Definition TYPE_ATTRIB : Z := 1.
Definition TYPE_ALIAS : Z := 2.

(** [type_datum_t]: the symbol value (from 1), [primary], [flavor], [types], [flags] and
    [bounds]. *)
Record type_datum := TypeDatum {
  ty_value : Z;
  ty_primary : Z;
  ty_flavor : Z;
  ty_types : ebitmap;
  ty_flags : Z;
  ty_bounds : Z
}.

Abbreviation plain_type v p f := (TypeDatum v p f ebitmap_init 0 0).

Record perm_datum := PermDatum { perm_value : Z }.

Record common_datum := CommonDatum { com_value : Z; com_permissions : symtab perm_datum }.

(** [type_set_t]. *)
Record type_set := TypeSet { ts_types : ebitmap; negset : ebitmap; ts_flags : Z }.

Definition CEXPR_NAMES : Z := 5.

(** [constraint_expr_t] and [constraint_node_t] of constraint.h; the lists linked by
    [next] are lists. *)
Record constraint_expr := ConstraintExpr {
  expr_type : Z;
  cx_attr : Z;
  cx_op : Z;
  names : ebitmap;
  type_names : option type_set   (** [None] is [NULL] *)
}.

Record constraint_node := ConstraintNode { permissions : Z; expr : list constraint_expr }.

(** [class_datum_t]: value, the name and the datum of the inherited common permissions
    ([None] is [NULL]), class permissions, constraints, and the defaults for new objects. *)
Record class_datum := ClassDatum {
  cls_value : Z;
  comkey : option (list Z);
  comdatum : option common_datum;
  cls_permissions : symtab perm_datum;
  constraints : list constraint_node;
  validatetrans : list constraint_node;
  default_user : Z;
  default_role : Z;
  default_type : Z;
  default_range : Z
}.

Abbreviation plain_class v perms cons := (ClassDatum v None None perms cons [] 0 0 0 0).

(** ** Roles, users, booleans, levels and categories *)

(** [role_set_t]. *)
Record role_set := RoleSet { rs_roles : ebitmap; rs_flags : Z }.

Definition ROLE_ROLE : Z := 0.
Definition ROLE_ATTRIB : Z := 1.

(** [role_datum_t]. *)
Record role_datum := RoleDatum {
  ro_value : Z;
  dominates : ebitmap;
  ro_types : type_set;
  ro_cache : ebitmap;
  ro_bounds : Z;
  ro_flavor : Z;
  ro_roles : ebitmap
}.

(** [mls_level_t] and [mls_range_t] of mls_types.h. *)
Record mls_level := MlsLevel { sens : Z; cat : ebitmap }.
Record mls_range := MlsRange { level_low : mls_level; level_high : mls_level }.

(** [mls_semantic_cat_t] and [mls_semantic_level_t]; the categories linked by [next] are a
    list. *)
Record mls_semantic_cat := SemanticCat { cat_low : Z; cat_high : Z }.
Record mls_semantic_level := SemanticLevel { sem_cat : list mls_semantic_cat; sem_sens : Z }.
Record mls_semantic_range := SemanticRange { sem_low : mls_semantic_level; sem_high : mls_semantic_level }.

(** [user_datum_t]. *)
Record user_datum := UserDatum {
  us_value : Z;
  us_roles : role_set;
  us_range : mls_semantic_range;
  dfltlevel : mls_semantic_level;
  us_cache : ebitmap;
  exp_range : mls_range;
  exp_dfltlevel : mls_level;
  us_bounds : Z
}.

(** [level_datum_t] and [cat_datum_t]. *)
Record level_datum := LevelDatum { level : option mls_level; lev_isalias : Z; notdefined : Z }.
Record cat_datum := CatDatum { cat_value : Z; cat_isalias : Z }.

(** [cond_bool_datum_t]. *)
Record cond_bool_datum := BoolDatum { bool_value : Z; bool_state : Z; bool_flags : Z }.

(** [symtab_t symtab[SYM_NUM]]. *)
Record symtabs := Symtabs {
  sym_commons : symtab common_datum;
  sym_classes : symtab class_datum;
  sym_roles : symtab role_datum;
  sym_types : symtab type_datum;
  sym_users : symtab user_datum;
  sym_bools : symtab cond_bool_datum;
  sym_levels : symtab level_datum;
  sym_cats : symtab cat_datum
}.

Abbreviation no_symbols := (Symtab None 0).
Abbreviation plain_symtabs types classes :=
  (Symtabs no_symbols classes no_symbols types no_symbols no_symbols no_symbols no_symbols).

(** ** Transitions for file names *)

Record filename_trans_key := FtKey { ttype : Z; tclass : Z; ft_name : list Z }.

(** [filename_trans_datum_t] without [next]: an entry of the table is the chain of its
    data. *)
Record filename_trans_datum := FtDatum { stypes : ebitmap; otype : Z }.

(** [partial_name_hash] on [unsigned long], 64 bits wide as [usz]. *)
Definition partial_name_hash (c prevhash : Z) : Z :=
  u64 (u64 (u64 (prevhash + Z.shiftl c 4) + Z.shiftr c 4) * 11).

Fixpoint filenametr_loop (name : list Z) (hash : Z) : Z :=
  match name with
  | [] => hash
  | focus :: name' => filenametr_loop name' (partial_name_hash focus hash)
  end.

Definition filenametr_hash (size : Z) (ft : filename_trans_key) : Z :=
  u32 (Z.land (filenametr_loop (ft_name ft) (Z.lxor (ttype ft) (tclass ft))) (u32 (size - 1))).

Definition spaceship_cmp (a b : Z) : Z := if b <? a then 1 else if a <? b then -1 else 0.

Definition filenametr_cmp (ft1 ft2 : filename_trans_key) : Z :=
  let v := spaceship_cmp (ttype ft1) (ttype ft2) in
  if truthy v then v
  else
    let v := spaceship_cmp (tclass ft1) (tclass ft2) in
    if truthy v then v else strcmp (ft_name ft1) (ft_name ft2).

#[export] Instance ftr_ops : HashOps filename_trans_key := {
  hash_value := filenametr_hash;
  keycmp := filenametr_cmp
}.

(** ** Declarations and arrays indexed by value *)

(** [scope_datum_t]; [decl_ids_len] is the length of the array [decl_ids]. *)
Record scope_datum := ScopeDatum { sc_scope : Z; decl_ids : list Z }.

(** [avrule_decl_t] and [avrule_block_t] as far as the editor and the indexes reach them:
    the identifier of a declaration and the array [scope] of its [declared] symbols. *)
Record avrule_decl := AvruleDecl { decl_id : Z; declared : list ebitmap }.
Record avrule_block := AvruleBlock { branch_list : list avrule_decl }.

(** The arrays of [policydb_t] that are indexed by value: [sym_val_to_name], one array for
    each symbol table, [*_val_to_struct], and [decl_val_to_struct].  A pointer to the datum
    of a symbol is the key of the symbol; a [NULL] array is an array without elements. *)
Record indexes := Indexes {
  sym_val_to_name : list (list (option (list Z)));
  class_val_to_struct : list (option (list Z));
  role_val_to_struct : list (option (list Z));
  user_val_to_struct : list (option (list Z));
  bool_val_to_struct : list (option (list Z));
  decl_val_to_struct : list (option Z)
}.

Abbreviation no_indexes := (Indexes [] [] [] [] [] []).

(** ** Contexts of file systems *)

(** [context_struct_t]. *)
Record context_struct := ContextStruct { c_user : Z; c_role : Z; c_type : Z; c_range : mls_range }.

(** [ocontext_t] as genfs uses it: [u.name], [v.sclass] and [context[2]]. *)
Record ocontext := Ocontext {
  u_name : list Z;
  v_sclass : Z;
  oc_context0 : context_struct;
  oc_context1 : context_struct
}.

(** [genfs_t]: the contexts linked by [next] are a list. *)
Record genfs := Genfs { fstype : list Z; fs_head : list ocontext }.

Record policydb := Policydb {
  policy_type : Z;
  target_platform : Z;
  policyvers : Z;
  p_symtab : symtabs;
  te_avtab : avtab;
  filename_trans : option (hashtab_val filename_trans_key (list filename_trans_datum));
  filename_trans_count : Z;
  type_val_to_struct : list (option type_datum);
  type_attr_map : list ebitmap;
  attr_type_map : list ebitmap;
  permissive_map : ebitmap;
  p_mls : Z;
  p_scope : list (symtab scope_datum);
  p_global : list avrule_block;
  p_index : indexes;
  p_genfs : list genfs
}.

Definition p_types (db : policydb) : symtab type_datum := sym_types (p_symtab db).
Definition p_classes (db : policydb) : symtab class_datum := sym_classes (p_symtab db).

(** [xperm_test], [xperm_set] and [xperm_clear] on the 256-bit map [perms]. *)
Definition perm_word (p : list Z) (x : Z) : Z := default 0 (p !! Z.to_nat (Z.shiftr x 5)).

Definition xperm_test (x : Z) (p : list Z) : Z :=
  Z.land 1 (Z.shiftr (perm_word p x) (Z.land x 0x1f)).

Definition xperm_set (x : Z) (p : list Z) : list Z :=
  <[Z.to_nat (Z.shiftr x 5) :=
     Z.lor (perm_word p x) (u32 (Z.shiftl 1 (Z.land x 0x1f)))]> p.

Definition xperm_clear (x : Z) (p : list Z) : list Z :=
  <[Z.to_nat (Z.shiftr x 5) :=
     Z.land (perm_word p x) (u32 (Z.lnot (u32 (Z.shiftl 1 (Z.land x 0x1f)))))]> p.
