(* ===== verification/AvtabIO.v ===== *)
(** * The binary format of the access vector tables

    [avtab_read_item] and [avtab_read] (libsepol/src/avtab.c), [avtab_write_item] and the
    current-format path of [avtab_write] (libsepol/src/write.c).  The global
    [avtab_android_m_compat] is an argument and a result. *)

From S2P Require Import Prelude Policyfile Ebitmap EbitmapSpec EbitmapProps Hashtab Symtab Avtab AvtabSpec AvtabRules Policydb.

Definition le16_at (buf : list Z) (i : nat) : Z := le_val (take 2 (drop (2 * i) buf)).

(** [spec_order] of avtab.c and of write.c. *)
Definition spec_order_read : list Z :=
  [AVTAB_ALLOWED; AVTAB_AUDITDENY; AVTAB_AUDITALLOW; AVTAB_TRANSITION; AVTAB_CHANGE;
   AVTAB_MEMBER; AVTAB_XPERMS_ALLOWED; AVTAB_XPERMS_AUDITALLOW; AVTAB_XPERMS_DONTAUDIT].

Definition spec_order_write : list Z :=
  [AVTAB_ALLOWED; AVTAB_AUDITDENY; AVTAB_AUDITALLOW; AVTAB_TRANSITION; AVTAB_CHANGE; AVTAB_MEMBER].

Section read.
Context {A : Type} (insertf : avtab_key -> avtab_datum -> A -> Z * A).

(** The loop over [spec_order] in the format before version 20: the result code (0 when
    the loop ended), the table and [items]. *)
Fixpoint old_items_loop (order : list Z) (key : avtab_key) (val enabled items2 : Z)
    (buf32 : list Z) (items : Z) (a : A) : Z * A * Z :=
  match order with
  | [] => (0, a, items)
  | sp :: order' =>
      if truthy (Z.land val sp) then
        if items2 <=? items then (-1, a, items)
        else
          let key := AvKey (source_type key) (target_type key) (target_class key)
                       (Z.lor sp enabled) in
          let (rc, a) := insertf key (AvDatum (le32_at buf32 (Z.to_nat items)) None) a in
          if truthy rc then (rc, a, items + 1)
          else old_items_loop order' key val enabled items2 buf32 (items + 1) a
      else old_items_loop order' key val enabled items2 buf32 items a
  end.

(** [vers < POLICYDB_VERSION_AVTAB]. *)
Definition avtab_read_item_old (fp : policy_file) (a : A) : Z * A * policy_file :=
  match next_entry fp 4 with
  | (None, fp) => (-1, a, fp)
  | (Some buf, fp) =>
      let items2 := le32_at buf 0 in
      if (items2 <? 5) || (8 <? items2) then (-1, a, fp)
      else match next_entry fp (4 * Z.to_nat items2) with
      | (None, fp) => (-1, a, fp)
      | (Some buf32, fp) =>
          let s := le32_at buf32 0 in
          if negb (u16 s =? s) then (-1, a, fp) else
          let t := le32_at buf32 1 in
          if negb (u16 t =? t) then (-1, a, fp) else
          let c := le32_at buf32 2 in
          if negb (u16 c =? c) then (-1, a, fp) else
          let val := le32_at buf32 3 in
          let enabled := if truthy (Z.land val AVTAB_ENABLED_OLD) then AVTAB_ENABLED else 0 in
          if negb (truthy (Z.land val (Z.lor AVTAB_AV AVTAB_TYPE))) then (-1, a, fp) else
          if truthy (Z.land val AVTAB_AV) && truthy (Z.land val AVTAB_TYPE) then (-1, a, fp) else
          let '(rc, a, items) :=
            old_items_loop spec_order_read (AvKey s t c 0) val enabled items2 buf32 4 a in
          if truthy rc then (rc, a, fp)
          else if negb (items =? items2) then (-1, a, fp)
          else (0, a, fp)
      end
  end.

(** The extended permissions that follow a key: [None] is a truncated entry. *)
Definition read_xperms (fp : policy_file) (vers x_spec compat : Z) :
    option avtab_extended_perms * policy_file * Z :=
  match next_entry fp 1 with
  | (None, fp) => (None, fp, compat)
  | (Some b, fp) =>
      let buf8 := le_val b in
      let perms driver sp fp compat :=
        match next_entry fp 32 with
        | (None, fp) => (None, fp, compat)
        | (Some buf32, fp) => (Some (Xperms sp driver (le32_at buf32 <$> seq 0 8)), fp, compat)
        end in
      if truthy compat ||
         (vers =? POLICYDB_VERSION_XPERMS_IOCTL) && negb (buf8 =? AVTAB_XPERMS_IOCTLFUNCTION) &&
         negb (buf8 =? AVTAB_XPERMS_IOCTLDRIVER) && negb (buf8 =? AVTAB_XPERMS_NLMSG)
      then perms buf8 (if x_spec =? 0 then AVTAB_XPERMS_IOCTLFUNCTION else x_spec) fp 1
      else match next_entry fp 1 with
           | (None, fp) => (None, fp, compat)
           | (Some b, fp) => perms (le_val b) buf8 fp compat
           end
  end.

Definition avtab_read_item (fp : policy_file) (vers : Z) (a : A) (compat : Z) :
    Z * A * policy_file * Z :=
  if vers <? POLICYDB_VERSION_AVTAB then (avtab_read_item_old fp a, compat)
  else match next_entry fp 8 with
  | (None, fp) => (-1, a, fp, compat)
  | (Some buf16, fp) =>
      let sp := le16_at buf16 3 in
      let optype := (vers =? POLICYDB_VERSION_XPERMS_IOCTL) && truthy (Z.land sp AVTAB_OPTYPE) in
      let sp := if optype then avtab_optype_to_xperms sp else sp in
      let x_spec := if optype then AVTAB_XPERMS_IOCTLDRIVER else 0 in
      let compat := if optype then 1 else compat in
      let key := AvKey (le16_at buf16 0) (le16_at buf16 1) (le16_at buf16 2) sp in
      if truthy (Z.land sp (Z.lnot (Z.lor (Z.lor AVTAB_AV AVTAB_TYPE)
                                      (Z.lor AVTAB_XPERMS AVTAB_ENABLED))))
      then (-1, a, fp, compat)
      else if negb (popcount (Z.land sp (Z.lnot AVTAB_ENABLED)) =? 1) then (-1, a, fp, compat)
      else if (vers <? POLICYDB_VERSION_XPERMS_IOCTL) && truthy (Z.land sp AVTAB_XPERMS)
      then (-1, a, fp, compat)
      else if truthy (Z.land sp AVTAB_XPERMS) then
        match read_xperms fp vers x_spec compat with
        | (None, fp, compat) => (-1, a, fp, compat)
        | (Some x, fp, compat) =>
            let (rc, a) := insertf key (AvDatum 0 (Some x)) a in (rc, a, fp, compat)
        end
      else match next_entry fp 4 with
      | (None, fp) => (-1, a, fp, compat)
      | (Some buf32, fp) =>
          let (rc, a) := insertf key (AvDatum (le32_at buf32 0) None) a in (rc, a, fp, compat)
      end
  end.
End read.

(** [avtab_insertf] on the table and the allocator. *)
Definition avtab_insertf (k : avtab_key) (d : avtab_datum) (a : option avtab * oracle) :
    Z * (option avtab * oracle) :=
  let '(rc, h, o) := avtab_insert a.1 k d a.2 in (rc, (h, o)).

(** The item loop of [avtab_read]. *)
Fixpoint read_items (n : nat) (fp : policy_file) (vers : Z) (a : option avtab * oracle)
    (compat : Z) : Z * (option avtab * oracle) * policy_file * Z :=
  match n with
  | O => (0, a, fp, compat)
  | S n' =>
      let '(rc, a, fp, compat) := avtab_read_item avtab_insertf fp vers a compat in
      if truthy rc then (-1, a, fp, compat) else read_items n' fp vers a compat
  end.

Definition avtab_read (a : avtab) (fp : policy_file) (vers compat : Z) (o : oracle) :
    Z * avtab * policy_file * Z * oracle :=
  match next_entry fp 4 with
  | (None, fp) => (-1, avtab_destroy a, fp, compat, o)
  | (Some buf, fp) =>
      let nel := le32_at buf 0 in
      if zero_or_saturated32 nel || exceeds_available_bytes fp nel 12
      then (-1, avtab_destroy a, fp, compat, o)
      else
        let '(rc, a, o) := avtab_alloc a nel o in
        if truthy rc then (-1, avtab_destroy a, fp, compat, o)
        else match read_items (Z.to_nat nel) fp vers (Some a, o) compat with
             | (rc, (h, o), fp, compat) =>
                 let a := default a h in
                 if truthy rc then (-1, avtab_destroy a, fp, compat, o)
                 else (0, a, fp, compat, o)
             end
  end.

(** ** Writing, format of version 20 and later *)

(** [avtab_write_item] below the [oldvers] branch.  The permissions of an extended rule are not
    [NULL] in a table with the invariant; the code would dereference [NULL] where [x] is a
    default. *)
Definition avtab_write_item_new (p : policydb) (cur : avtab_node) (fp : policy_file) (compat : Z) :
    Z * policy_file :=
  let k := akey cur in
  let x := default zero_xperms (xperms (adatum cur)) in
  let is_x := truthy (Z.land (specified k) AVTAB_XPERMS) in
  let sp := if truthy compat && is_x && (x_specified x =? AVTAB_XPERMS_IOCTLDRIVER)
            then u16 (avtab_xperms_to_optype (specified k)) else specified k in
  match put_entry (le_bytes 2 (source_type k) ++ le_bytes 2 (target_type k) ++
                   le_bytes 2 (target_class k) ++ le_bytes 2 sp) 2 4 fp with
  | (items, fp) =>
      if negb (items =? 4) then (POLICYDB_ERROR, fp)
      else if (policyvers p <? POLICYDB_VERSION_XPERMS_IOCTL) && is_x then (POLICYDB_ERROR, fp)
      else if negb (target_platform p =? SEPOL_TARGET_SELINUX) && is_x then (POLICYDB_ERROR, fp)
      else if is_x then
        let '(items, fp) :=
          if negb (truthy compat) then put_entry (le_bytes 1 (x_specified x)) 1 1 fp else (1, fp) in
        if negb (items =? 1) then (POLICYDB_ERROR, fp)
        else match put_entry (le_bytes 1 (x_driver x)) 1 1 fp with
        | (items, fp) =>
            if negb (items =? 1) then (POLICYDB_ERROR, fp)
            else match put_entry (concat (le_bytes 4 <$> x_perms x)) 4 8 fp with
            | (items, fp) =>
                if negb (items =? 8) then (POLICYDB_ERROR, fp) else (POLICYDB_SUCCESS, fp)
            end
        end
      else match put_entry (le_bytes 4 (data (adatum cur))) 4 1 fp with
      | (items, fp) =>
          if negb (items =? 1) then (POLICYDB_ERROR, fp) else (POLICYDB_SUCCESS, fp)
      end
  end.

(** The item loops of [avtab_write]. *)
Fixpoint write_items (p : policydb) (l : list avtab_node) (fp : policy_file) (compat : Z) :
    Z * policy_file :=
  match l with
  | [] => (0, fp)
  | cur :: l' =>
      let (rc, fp) := avtab_write_item_new p cur fp compat in
      if truthy rc then (-1, fp) else write_items p l' fp compat
  end.

(** [avtab_write] with [oldvers] false. *)
Definition avtab_write_new (p : policydb) (a : avtab) (fp : policy_file) (compat : Z) :
    Z * policy_file :=
  match put_entry (le_bytes 4 (av_nel a)) 4 1 fp with
  | (items, fp) =>
      if negb (items =? 1) then (POLICYDB_ERROR, fp)
      else write_items p (avtab_nodes a) fp compat
  end.

(** * Reading access vector tables: only good tables come out *)

Lemma le16_range buf i : Forall is_byte buf -> 0 <= le16_at buf i < 2 ^ 16.
Proof. intros. by apply (le_at_range buf 2). Qed.

Lemma le32_range buf i : Forall is_byte buf -> 0 <= le32_at buf i < 2 ^ 32.
Proof. intros. by apply (le_at_range buf 4). Qed.

Lemma le8_range buf : Forall is_byte buf -> (length buf <= 1)%nat -> 0 <= le_val buf < 2 ^ 8.
Proof.
  intros Hb Hl. pose proof (le_val_range buf Hb). split; [lia|].
  eapply Z.lt_le_trans; [apply H|]. apply Z.pow_le_mono_r; lia.
Qed.

Lemma next_entry_length fp n buf fp' : next_entry fp n = (Some buf, fp') -> (length buf <= n)%nat.
Proof.
  unfold next_entry. intros H. repeat case_match; simplify_eq; rewrite length_take; lia.
Qed.

(** The stream stays a stream of bytes, also after a failed read. *)
Lemma next_entry_stream fp n r fp' : pf_bytes fp -> next_entry fp n = (r, fp') -> pf_bytes fp'.
Proof.
  unfold next_entry, pf_bytes. intros Hb H.
  repeat case_match; simplify_eq; cbn; auto using Forall_drop.
Qed.

Section read_item.
Context {A : Type} (insertf : avtab_key -> avtab_datum -> A -> Z * A) (Inv : A -> Prop).
Hypothesis insertf_inv : forall k d a rc a',
  insertable k d -> Inv a -> insertf k d a = (rc, a') -> Inv a'.

Lemma old_items_loop_inv order key val enabled items2 buf32 items a rc a' items' :
  Forall (fun sp => sp ∈ specs) order -> enabled = 0 \/ enabled = AVTAB_ENABLED ->
  0 <= source_type key < 2 ^ 16 -> 0 <= target_type key < 2 ^ 16 ->
  0 <= target_class key < 2 ^ 16 -> Forall is_byte buf32 -> Inv a ->
  old_items_loop insertf order key val enabled items2 buf32 items a = (rc, a', items') -> Inv a'.
Proof.
  intros Ho He. revert key items a. induction Ho as [|sp order Hsp Ho IH];
    intros key items a H1 H2 H3 Hb Ha; cbn [old_items_loop]; [by intros [= <- <- <-]|].
  destruct (truthy (Z.land val sp)); [|by apply IH].
  destruct (items2 <=? items); [by intros [= <- <- <-]|].
  destruct (insertf _ _ a) as [rc1 a1] eqn:Ei.
  assert (Hso : spec_ok (Z.lor sp enabled)).
  { clear -Hsp He. unfold specs in Hsp. set_unfold in Hsp. unfold spec_ok.
    destruct He as [-> | ->]; decompose [or] Hsp; subst; try done;
      (split; [done|]; vm_compute; repeat (first [by left|right])). }
  apply insertf_inv in Ei; [| |done].
  - destruct (truthy rc1); [by intros [= <- <- <-]|]. by apply IH.
  - split; [split; [split_and!; simpl; lia || apply Hso|done]|].
    split; [by apply le32_range|done].
Qed.

Lemma u16_eqb s : negb (u16 s =? s) = false -> 0 <= s < 2 ^ 16.
Proof. rewrite negb_false_iff, Z.eqb_eq. intros <-. apply u16_range. Qed.

Lemma spec_order_specs : Forall (fun sp => sp ∈ specs) spec_order_read.
Proof. repeat constructor; vm_compute; repeat (first [by left|right]). Qed.

Lemma avtab_read_item_old_inv fp a rc a' fp' :
  pf_bytes fp -> Inv a -> avtab_read_item_old insertf fp a = (rc, a', fp') ->
  Inv a' /\ pf_bytes fp'.
Proof.
  intros Hb Ha. unfold avtab_read_item_old.
  destruct (next_entry fp 4) as [r1 fp1] eqn:E1. pose proof (next_entry_stream _ _ _ _ Hb E1) as Hb1.
  destruct r1 as [buf|]; [|by intros [= <- <- <-]].
  destruct (_ || _); [by intros [= <- <- <-]|].
  destruct (next_entry fp1 _) as [r2 fp2] eqn:E2. pose proof (next_entry_stream _ _ _ _ Hb1 E2) as Hb2.
  destruct r2 as [buf32|]; [|by intros [= <- <- <-]].
  destruct (next_entry_bytes _ _ _ _ Hb1 E2) as [Hbuf _].
  destruct (negb (u16 (le32_at buf32 0) =? _)) eqn:Es; [by intros [= <- <- <-]|].
  destruct (negb (u16 (le32_at buf32 1) =? _)) eqn:Et; [by intros [= <- <- <-]|].
  destruct (negb (u16 (le32_at buf32 2) =? _)) eqn:Ec; [by intros [= <- <- <-]|].
  destruct (negb (truthy _)); [by intros [= <- <- <-]|].
  destruct (_ && _); [by intros [= <- <- <-]|].
  destruct (old_items_loop insertf _ _ _ _ _ _ _ a) as [[rc1 a1] it1] eqn:El.
  apply old_items_loop_inv in El; simpl; auto using spec_order_specs, u16_eqb; cycle 1.
  { destruct (truthy _); auto. }
  intros H. repeat case_match; simplify_eq; done.
Qed.

Lemma read_xperms_spec fp vers x_spec compat r fp' compat' :
  pf_bytes fp -> 0 <= x_spec < 2 ^ 8 -> read_xperms fp vers x_spec compat = (r, fp', compat') ->
  pf_bytes fp' /\ match r with Some x => xperms_ok x | None => True end.
Proof.
  intros Hb Hx. unfold read_xperms.
  destruct (next_entry fp 1) as [r1 fp1] eqn:E1. pose proof (next_entry_stream _ _ _ _ Hb E1) as Hb1.
  destruct r1 as [b1|]; [|by intros [= <- <- <-]].
  destruct (next_entry_bytes _ _ _ _ Hb E1) as [Hbuf1 _].
  pose proof (le8_range b1 Hbuf1 (next_entry_length _ _ _ _ E1)) as Hr1.
  assert (Hperms : forall driver sp fp0 compat0, pf_bytes fp0 -> 0 <= driver < 2 ^ 8 -> 0 <= sp < 2 ^ 8 ->
    match next_entry fp0 32 with
    | (None, fp) => (None, fp, compat0)
    | (Some buf32, fp) => (Some (Xperms sp driver (le32_at buf32 <$> seq 0 8)), fp, compat0)
    end = (r, fp', compat') ->
    pf_bytes fp' /\ match r with Some x => xperms_ok x | None => True end).
  { intros driver sp fp0 compat0 Hb0 Hd Hsp. destruct (next_entry fp0 32) as [r2 fp2] eqn:E2.
    pose proof (next_entry_stream _ _ _ _ Hb0 E2) as Hb2.
    destruct r2 as [buf32|]; intros [= <- <- <-]; [|done].
    destruct (next_entry_bytes _ _ _ _ Hb0 E2) as [Hbuf _].
    split; [done|]. split_and!; simpl; try lia. repeat constructor; by apply le32_range. }
  destruct (_ || _).
  - apply Hperms; [done|lia|]. destruct (x_spec =? 0); [done|lia].
  - destruct (next_entry fp1 1) as [r2 fp2] eqn:E2.
    pose proof (next_entry_stream _ _ _ _ Hb1 E2) as Hb2.
    destruct r2 as [b2|]; [|by intros [= <- <- <-]].
    destruct (next_entry_bytes _ _ _ _ Hb1 E2) as [Hbuf2 _].
    pose proof (le8_range b2 Hbuf2 (next_entry_length _ _ _ _ E2)) as Hr2. by apply Hperms.
Qed.

Lemma optype_range sp : 0 <= sp < 2 ^ 16 -> 0 <= avtab_optype_to_xperms sp < 2 ^ 16.
Proof.
  intros. unfold avtab_optype_to_xperms. rewrite Z.shiftr_div_pow2 by lia.
  split; [apply Z.div_pos; lia|]. apply Z.div_lt_upper_bound; lia.
Qed.

Lemma avtab_read_item_inv fp vers a compat rc a' fp' compat' :
  pf_bytes fp -> Inv a -> avtab_read_item insertf fp vers a compat = (rc, a', fp', compat') ->
  Inv a' /\ pf_bytes fp'.
Proof.
  intros Hb Ha. unfold avtab_read_item. destruct (vers <? POLICYDB_VERSION_AVTAB).
  { destruct (avtab_read_item_old insertf fp a) as [[rc1 a1] fp1] eqn:E.
    intros [= <- <- <- <-]. by eapply avtab_read_item_old_inv. }
  destruct (next_entry fp 8) as [r1 fp1] eqn:E1. pose proof (next_entry_stream _ _ _ _ Hb E1) as Hb1.
  destruct r1 as [buf16|]; [|by intros [= <- <- <- <-]].
  destruct (next_entry_bytes _ _ _ _ Hb E1) as [Hbuf _].
  set (optype := _ && truthy (Z.land (le16_at buf16 3) AVTAB_OPTYPE)).
  set (sp := if optype then _ else _). set (x_spec := if optype then AVTAB_XPERMS_IOCTLDRIVER else 0).
  assert (Hsp : 0 <= sp < 2 ^ 16).
  { unfold sp. pose proof (le16_range buf16 3 Hbuf). destruct optype; [by apply optype_range|done]. }
  assert (Hxs : 0 <= x_spec < 2 ^ 8) by (unfold x_spec; destruct optype; done).
  destruct (truthy (Z.land sp (Z.lnot _))) eqn:Hv1; [by intros [= <- <- <- <-]|].
  destruct (negb (popcount _ =? 1)) eqn:Hv2; [by intros [= <- <- <- <-]|].
  assert (Hk : key_ok (AvKey (le16_at buf16 0) (le16_at buf16 1) (le16_at buf16 2) sp)).
  { split; [split_and!; simpl; try lia; by apply le16_range|]. apply spec_valid_ok; [done|].
    cbn [specified]. unfold spec_valid. rewrite Hv1. by apply negb_false_iff in Hv2. }
  destruct (_ && truthy (Z.land sp AVTAB_XPERMS)); [by intros [= <- <- <- <-]|].
  fold (is_xspec sp). destruct (is_xspec sp) eqn:Hix.
  - destruct (read_xperms fp1 vers x_spec _) as [[r2 fp2] compat2] eqn:E2.
    apply read_xperms_spec in E2 as [Hb2 Hx]; [|done..].
    destruct r2 as [x|]; [|by intros [= <- <- <- <-]].
    destruct (insertf _ _ a) as [rc3 a3] eqn:E3. intros [= <- <- <- <-]. split; [|done].
    eapply insertf_inv; [|done..]. split_and!; done.
  - destruct (next_entry fp1 4) as [r2 fp2] eqn:E2.
    pose proof (next_entry_stream _ _ _ _ Hb1 E2) as Hb2.
    destruct r2 as [buf32|]; [|by intros [= <- <- <- <-]].
    destruct (next_entry_bytes _ _ _ _ Hb1 E2) as [Hbuf2 _].
    destruct (insertf _ _ a) as [rc3 a3] eqn:E3. intros [= <- <- <- <-]. split; [|done].
    eapply insertf_inv; [|done..]. split; [done|]. split; [by apply le32_range|done].
Qed.
End read_item.

(** ** [avtab_read] *)

Definition table_inv (a : option avtab * oracle) : Prop := exists h, a.1 = Some h /\ avtab_inv h.

Lemma avtab_insertf_inv k d a rc a' :
  insertable k d -> table_inv a -> avtab_insertf k d a = (rc, a') -> table_inv a'.
Proof.
  destruct a as [h o]. intros Hd (h1 & He & Hi). simpl in He. subst h. unfold avtab_insertf. cbn [fst snd].
  destruct (avtab_insert (Some h1) k d o) as [[rc1 h2] o2] eqn:E. intros [= <- <-].
  by eapply avtab_insert_inv.
Qed.

Lemma read_items_inv n fp vers a compat rc a' fp' compat' :
  pf_bytes fp -> table_inv a -> read_items n fp vers a compat = (rc, a', fp', compat') ->
  table_inv a' /\ (rc = 0 \/ rc = -1).
Proof.
  revert fp a compat. induction n as [|n IH]; intros fp a compat Hb Ha; cbn [read_items].
  { intros [= <- <- <- <-]. auto. }
  destruct (avtab_read_item avtab_insertf fp vers a compat) as [[[rc1 a1] fp1] c1] eqn:E.
  apply (avtab_read_item_inv _ table_inv avtab_insertf_inv) in E as [Ha1 Hb1]; [|done..].
  destruct (truthy rc1); [intros [= <- <- <- <-]; auto|]. by apply IH.
Qed.

Lemma avtab_destroy_null h : av_htable (avtab_destroy h) = None.
Proof. unfold avtab_destroy. by destruct (av_htable h) eqn:E. Qed.

Lemma avtab_read_inv a fp vers compat o rc a' fp' compat' o' :
  pf_bytes fp -> avtab_read a fp vers compat o = (rc, a', fp', compat', o') ->
  rc = 0 /\ avtab_inv a' \/ rc = -1 /\ av_htable a' = None.
Proof.
  intros Hb. unfold avtab_read.
  destruct (next_entry fp 4) as [r1 fp1] eqn:E1. pose proof (next_entry_stream _ _ _ _ Hb E1) as Hb1.
  destruct r1 as [buf|]; [|intros [= <- <- <- <- <-]; auto using avtab_destroy_null].
  destruct (next_entry_bytes _ _ _ _ Hb E1) as [Hbuf _]. pose proof (le32_range buf 0 Hbuf) as Hr.
  destruct (zero_or_saturated32 _) eqn:Hz; [intros [= <- <- <- <- <-]; auto using avtab_destroy_null|].
  destruct (exceeds_available_bytes _ _ _); [intros [= <- <- <- <- <-]; auto using avtab_destroy_null|].
  cbn [orb]. apply orb_false_iff in Hz as [Hz1%Z.eqb_neq Hz2%Z.eqb_neq].
  destruct (avtab_alloc a (le32_at buf 0) o) as [[rc1 a1] o1] eqn:Ea.
  destruct (avtab_alloc_spec a (le32_at buf 0) o rc1 a1 o1 ltac:(lia) Ea)
    as [(-> & Hwf & Hn & _)|(-> & _ & _)]; cycle 1.
  { intros [= <- <- <- <- <-]; auto using avtab_destroy_null. }
  change (truthy 0) with false. cbn match.
  destruct (read_items _ fp1 vers (Some a1, o1) compat) as [[[rc2 [h2 o2]] fp2] c2] eqn:E2.
  apply read_items_inv in E2 as [(h3 & He & Hi) Hrc]; [|done|].
  - simpl in He. subst h2. simpl. destruct Hrc as [-> | ->]; intros [= <- <- <- <- <-]; auto using avtab_destroy_null.
  - exists a1. split; [done|]. split_and!; [done|by rewrite Hn|]. rewrite Hn. intros ? ? Hx.
    by apply elem_of_nil in Hx.
Qed.
