(* ===== verification/AvtabProps.v ===== *)
(** * Access vector tables: what is written is read back *)

From S2P Require Import Prelude Policyfile Ebitmap EbitmapSpec EbitmapProps Hashtab Symtab Avtab AvtabSpec AvtabRules Policydb AvtabIO.

(** ** The bytes of a node *)

Definition key_bytes (k : avtab_key) : list Z :=
  le_bytes 2 (source_type k) ++ le_bytes 2 (target_type k) ++ le_bytes 2 (target_class k) ++
  le_bytes 2 (specified k).

Definition datum_bytes (d : avtab_datum) : list Z :=
  match xperms d with
  | Some x => le_bytes 1 (x_specified x) ++ le_bytes 1 (x_driver x) ++
              concat (le_bytes 4 <$> x_perms x)
  | None => le_bytes 4 (data d)
  end.

Definition item_bytes (n : avtab_node) : list Z := key_bytes (akey n) ++ datum_bytes (adatum n).

Definition table_bytes (h : avtab) : list Z :=
  le_bytes 4 (av_nel h) ++ concat (item_bytes <$> avtab_nodes h).

(** The nodes a policy of version [vers] can hold: extended permissions need version
    30, which recognises them by their kind; their [data] is not stored. *)
Definition storable (vers : Z) (n : avtab_node) : Prop :=
  node_good n /\
  match xperms (adatum n) with
  | Some x => data (adatum n) = 0 /\ POLICYDB_VERSION_XPERMS_IOCTL <= vers /\
      (vers = POLICYDB_VERSION_XPERMS_IOCTL ->
       x_specified x ∈ [AVTAB_XPERMS_IOCTLFUNCTION; AVTAB_XPERMS_IOCTLDRIVER; AVTAB_XPERMS_NLMSG])
  | None => True
  end.

Lemma length_key_bytes k : length (key_bytes k) = 8%nat.
Proof. done. Qed.

Lemma length_words l : length (concat (le_bytes 4 <$> l)) = (4 * length l)%nat.
Proof.
  induction l as [|w l IH]; [done|]. cbn [fmap list_fmap concat]. rewrite length_app, IH.
  rewrite length_le_bytes. simpl. lia.
Qed.

Lemma length_item_bytes n : node_good n -> (12 <= length (item_bytes n) <= 42)%nat.
Proof.
  intros [_ [_ Hx]]. unfold item_bytes, datum_bytes. rewrite length_app, length_key_bytes.
  destruct (xperms (adatum n)) as [x|]; [|simpl; lia].
  destruct Hx as (_ & _ & _ & Hl & _). rewrite !length_app, !length_le_bytes, length_words, Hl. lia.
Qed.

(** ** Writing *)

Lemma put_next fp bs size n k :
  can_put fp (size * n + k) -> 0 <= k -> size * n < 2 ^ 64 -> Z.of_nat (length bs) = size * n ->
  exists fp', put_entry bs size n fp = (n, fp') /\ wrote fp bs fp' /\ can_put fp' k.
Proof.
  intros Hc Hk Hb Hl. destruct (put_entry_wrote fp bs size n) as (fp' & Hp & Hw);
    [eapply can_put_le; [exact Hc|lia]|done..|].
  exists fp'. split_and!; try done. eapply can_put_after; [done|]. by rewrite Hl.
Qed.

Lemma write_item_spec p n fp k :
  storable (policyvers p) n -> target_platform p = SEPOL_TARGET_SELINUX -> 0 <= k ->
  can_put fp (Z.of_nat (length (item_bytes n)) + k) ->
  exists fp', avtab_write_item_new p n fp 0 = (POLICYDB_SUCCESS, fp') /\
    wrote fp (item_bytes n) fp' /\ can_put fp' k.
Proof.
  intros [Hg Hst] Ht Hk Hc. pose proof Hg as [_ [_ Hx]].
  unfold item_bytes, datum_bytes in *. rewrite length_app, length_key_bytes in Hc.
  unfold avtab_write_item_new. fold (is_xspec (specified (akey n))).
  change (truthy 0) with false. cbn [andb negb]. fold (key_bytes (akey n)).
  destruct (xperms (adatum n)) as [x|].
  - destruct Hx as (Hix & _ & _ & Hl & _). destruct Hst as (_ & Hv & _).
    rewrite !length_app, !length_le_bytes, length_words, Hl in Hc.
    destruct (put_next fp (key_bytes (akey n)) 2 4 (34 + k)) as (fp1 & -> & Hw1 & Hc1);
      [eapply can_put_le; [done|lia]|lia..|done|].
    rewrite Hix, Ht. cbn [negb Z.eqb]. destruct (Z.ltb_spec (policyvers p) POLICYDB_VERSION_XPERMS_IOCTL); [lia|].
    change (4 =? 4) with true. cbn [negb andb default from_option id].
    destruct (put_next fp1 (le_bytes 1 (x_specified x)) 1 1 (33 + k)) as (fp2 & -> & Hw2 & Hc2);
      [eapply can_put_le; [done|lia]|lia..|done|].
    destruct (put_next fp2 (le_bytes 1 (x_driver x)) 1 1 (32 + k)) as (fp3 & Hp3 & Hw3 & Hc3);
      [eapply can_put_le; [done|lia]|lia..|done|].
    destruct (put_next fp3 (concat (le_bytes 4 <$> x_perms x)) 4 8 k) as (fp4 & Hp4 & Hw4 & Hc4);
      [eapply can_put_le; [done|lia]|lia..|rewrite length_words, Hl; lia|].
    change (1 =? 1) with true. cbn [negb]. rewrite Hp3. change (1 =? 1) with true. cbn [negb].
    rewrite Hp4. change (8 =? 8) with true. cbn [negb].
    exists fp4. split_and!; [done| |done].
    eapply wrote_app; [done|]. eapply wrote_app; [done|]. by eapply wrote_app.
  - rewrite length_le_bytes in Hc.
    destruct (put_next fp (key_bytes (akey n)) 2 4 (4 + k)) as (fp1 & -> & Hw1 & Hc1);
      [eapply can_put_le; [done|lia]|lia..|done|].
    rewrite Hx. rewrite !andb_false_r. change (4 =? 4) with true. cbn [negb].
    destruct (put_next fp1 (le_bytes 4 (data (adatum n))) 4 1 k) as (fp2 & -> & Hw2 & Hc2);
      [eapply can_put_le; [done|lia]|lia..|done|].
    exists fp2. split_and!; [done|by eapply wrote_app|done].
Qed.

Lemma write_items_spec p l fp :
  Forall (storable (policyvers p)) l -> target_platform p = SEPOL_TARGET_SELINUX ->
  can_put fp (Z.of_nat (length (concat (item_bytes <$> l)))) ->
  exists fp', write_items p l fp 0 = (0, fp') /\ wrote fp (concat (item_bytes <$> l)) fp'.
Proof.
  intros Hf Ht. revert fp. induction Hf as [|n l Hn Hf IH]; intros fp Hc; cbn [write_items].
  { exists fp. split; [done|]. apply wrote_nil. }
  cbn [fmap list_fmap concat] in *. rewrite length_app, Nat2Z.inj_add in Hc.
  destruct (write_item_spec p n fp (Z.of_nat (length (concat (item_bytes <$> l)))) Hn Ht ltac:(lia) Hc) as (fp1 & -> & Hw1 & Hc1).
  change (truthy POLICYDB_SUCCESS) with false. cbn match.
  destruct (IH fp1 Hc1) as (fp2 & -> & Hw2). exists fp2. split; [done|]. by eapply wrote_app.
Qed.

Lemma avtab_write_spec p h fp :
  avtab_wf h -> Forall (storable (policyvers p)) (avtab_nodes h) ->
  target_platform p = SEPOL_TARGET_SELINUX -> can_put fp (Z.of_nat (length (table_bytes h))) ->
  exists fp', avtab_write_new p h fp 0 = (0, fp') /\ wrote fp (table_bytes h) fp'.
Proof.
  intros Hwf Hf Ht Hc. unfold avtab_write_new, table_bytes in *.
  rewrite length_app, length_le_bytes, Nat2Z.inj_add in Hc.
  destruct (put_next fp (le_bytes 4 (av_nel h)) 4 1
    (Z.of_nat (length (concat (item_bytes <$> avtab_nodes h)))) Hc ltac:(lia) ltac:(lia))
    as (fp1 & -> & Hw1 & Hc1); [by rewrite length_le_bytes|].
  change (1 =? 1) with true. cbn [negb].
  destruct (write_items_spec p _ fp1 Hf Ht Hc1) as (fp2 & -> & Hw2).
  exists fp2. split; [done|]. by eapply wrote_app.
Qed.

(** ** Reading *)

(** A specifier that is accepted is one of the nine, with or without the flag. *)
Lemma spec_ok_cases sp : spec_ok sp -> sp ∈ specs \/ exists s, s ∈ specs /\ sp = Z.lor s AVTAB_ENABLED.
Proof.
  intros [Hr Hs]. rewrite strip_enabled_small in Hs by done.
  set (s := Z.land sp _) in Hs.
  assert (Hb : forall i, 0 <= i < 16 -> Z.testbit s i = Z.testbit sp i && negb (i =? 15)).
  { intros i Hi. unfold s. rewrite Z.land_spec, Z.lnot_spec, Z.lor_spec by lia.
    change AVTAB_ENABLED with (2 ^ 15). change AVTAB_ENABLED_OLD with (2 ^ 31).
    rewrite !Z.pow2_bits_eqb by lia. rewrite (Z.eqb_sym 15).
    destruct (Z.eqb_spec 31 i); [lia|]. by rewrite orb_false_r. }
  assert (Hsr : 0 <= s < 2 ^ 16) by (by apply specs_range).
  destruct (Z.testbit sp 15) eqn:E15.
  - right. exists s. split; [done|]. apply (word_ext 16); [done|by apply lor_range|].
    intros i Hi. rewrite Z.lor_spec, Hb by done. change AVTAB_ENABLED with (2 ^ 15).
    rewrite Z.pow2_bits_eqb, (Z.eqb_sym 15) by lia. case_Z; subst; cbn [negb].
    + by rewrite E15, orb_true_r.
    + by rewrite andb_true_r, orb_false_r.
  - left. assert (Heq : sp = s); [|by rewrite Heq]. apply (word_ext 16); [done..|].
    intros i Hi. rewrite Hb by done. case_Z; subst; cbn [negb];
      [by rewrite E15|by rewrite andb_true_r].
Qed.

Lemma spec_ok_valid sp : spec_ok sp -> spec_valid sp = true /\ Z.land sp AVTAB_OPTYPE = 0.
Proof.
  intros [H|(s & H & ->)]%spec_ok_cases; unfold specs in H; set_unfold in H;
    decompose [or] H; subst; done.
Qed.

Lemma le_at_app w (pre rest : list Z) x i :
  length pre = (w * i)%nat -> 0 <= x < 2 ^ (8 * Z.of_nat w) ->
  le_val (take w (drop (w * i) (pre ++ le_bytes w x ++ rest))) = x.
Proof.
  intros Hl Hx. rewrite <-Hl, drop_app_length.
  rewrite <-(length_le_bytes w x) at 1. rewrite take_app_length. by apply le_val_le_bytes.
Qed.

Lemma le16_key k :
  key_range k ->
  le16_at (key_bytes k) 0 = source_type k /\ le16_at (key_bytes k) 1 = target_type k /\
  le16_at (key_bytes k) 2 = target_class k /\ le16_at (key_bytes k) 3 = specified k.
Proof.
  intros (H1 & H2 & H3 & H4). unfold le16_at, key_bytes. split_and!.
  - by apply (le_at_app 2 []).
  - by apply (le_at_app 2 (le_bytes 2 (source_type k))).
  - rewrite app_assoc. by apply (le_at_app 2).
  - rewrite !app_assoc, <-(app_nil_r (_ ++ le_bytes 2 (specified k))), <-app_assoc.
    by apply (le_at_app 2).
Qed.

Lemma le32_words ws pre :
  Forall (fun w => 0 <= w < 2 ^ 32) ws ->
  le32_at (concat (le_bytes 4 <$> pre) ++ concat (le_bytes 4 <$> ws))
    <$> seq (length pre) (length ws) = ws.
Proof.
  intros Hf. revert pre. induction Hf as [|w ws Hw Hf IH]; intros pre; [done|].
  cbn [length seq fmap list_fmap concat]. f_equal.
  - unfold le32_at. apply (le_at_app 4); [by rewrite length_words|done].
  - specialize (IH (pre ++ [w])). rewrite length_app, Nat.add_1_r in IH.
    rewrite fmap_app, concat_app in IH. cbn [fmap list_fmap concat] in IH.
    rewrite app_nil_r, <-app_assoc in IH. exact IH.
Qed.

Lemma le8_val x : 0 <= x < 2 ^ 8 -> le_val (le_bytes 1 x) = x.
Proof. intros. by apply le_val_le_bytes. Qed.

(** The entry of a storable node is read as that node. *)
Lemma read_item_spec {A} (insertf : avtab_key -> avtab_datum -> A -> Z * A) vers n fp fp' a :
  POLICYDB_VERSION_AVTAB <= vers -> storable vers n -> reads fp (item_bytes n) fp' ->
  avtab_read_item insertf fp vers a 0 =
  let (rc, a') := insertf (akey n) (adatum n) a in (rc, a', fp', 0).
Proof.
  intros Hv [[Hk [Hd Hx]] Hst] (fp1 & Hr1 & Hr2)%reads_app.
  unfold avtab_read_item. destruct (Z.ltb_spec vers POLICYDB_VERSION_AVTAB); [lia|].
  rewrite (next_entry_whole _ _ _ 8 (length_key_bytes _) ltac:(done) Hr1).
  destruct Hk as [Hkr Hks]. destruct (le16_key _ Hkr) as (-> & -> & -> & ->).
  destruct (spec_ok_valid _ Hks) as [Hval Hopt]. unfold spec_valid in Hval.
  apply andb_prop in Hval as [Hval1 Hval2]. apply negb_true_iff in Hval1.
  rewrite Hopt. change (truthy 0) with false. rewrite andb_false_r. cbn match.
  rewrite Hval1, Hval2. cbn [negb]. cbn match. fold (is_xspec (specified (akey n))).
  assert (Hkey : AvKey (source_type (akey n)) (target_type (akey n)) (target_class (akey n))
                   (specified (akey n)) = akey n) by (by destruct (akey n)).
  rewrite Hkey. unfold datum_bytes in Hr2. destruct (adatum n) as [da [x|]]; cbn [xperms data] in *.
  - destruct Hx as (Hix & Hxs & Hxd & Hl & Hw). destruct Hst as (-> & Hv30 & Hkind).
    rewrite Hix, andb_true_r. destruct (Z.ltb_spec vers POLICYDB_VERSION_XPERMS_IOCTL); [lia|].
    apply reads_app in Hr2 as (fp2 & Hr2 & Hr3). apply reads_app in Hr3 as (fp3 & Hr3 & Hr4).
    pose proof (next_entry_whole _ _ _ 1 (length_le_bytes _ _) ltac:(done) Hr2) as Hn2.
    pose proof (next_entry_whole _ _ _ 1 (length_le_bytes _ _) ltac:(done) Hr3) as Hn3.
    pose proof (next_entry_whole _ _ _ 32 ltac:(by rewrite length_words, Hl) ltac:(done) Hr4) as Hn4.
    unfold read_xperms. rewrite Hn2. rewrite le8_val by done. change (truthy 0) with false.
    cbn [orb]. replace (_ && _ && _) with false; cycle 1.
    { symmetry. destruct (Z.eqb_spec vers POLICYDB_VERSION_XPERMS_IOCTL) as [->|]; [|done].
      specialize (Hkind eq_refl). set_unfold in Hkind. destruct Hkind as [E|[E|[E|[]]]];
        by rewrite E. }
    rewrite Hn3, le8_val by done. rewrite Hn4.
    pose proof (le32_words (x_perms x) [] Hw) as Hws. rewrite Hl in Hws. cbn [app concat fmap list_fmap length] in Hws.
    rewrite Hws. by destruct x.
  - rewrite Hx, andb_false_r. rewrite (next_entry_whole _ _ _ 4 (length_le_bytes _ _) ltac:(done) Hr2).
    pose proof (le_at_app 4 [] [] da 0 eq_refl Hd) as He. rewrite app_nil_r in He.
    change (le_val _) with (le32_at (le_bytes 4 da) 0) in He. by rewrite He.
Qed.

Definition content (n : avtab_node) : avtab_key * avtab_datum := (akey n, adatum n).

Lemma stored_datum_good n : node_good n -> stored_datum (akey n) (adatum n) = adatum n.
Proof.
  intros [_ [_ Hx]]. unfold stored_datum. fold (is_xspec (specified (akey n))).
  destruct (adatum n) as [d [x|]]; simpl in *; [destruct Hx as [-> _]|rewrite Hx]; done.
Qed.

Lemma avtab_insert_memory h k d rc h' o' : avtab_insert h k d [] = (rc, h', o') -> o' = [].
Proof.
  unfold avtab_insert, avtab_insert_node. cbn [malloc].
  destruct h as [h|]; [|congruence]. destruct (av_htable h) as [t|]; [|congruence].
  destruct (insert_loop _ _ _) as [[pre post]|]; [|congruence].
  destruct (truthy _); congruence.
Qed.

(** Reading the entries of distinct rules inserts them all. *)
Lemma read_items_spec vers l h :
  POLICYDB_VERSION_AVTAB <= vers -> avtab_inv h -> Forall (storable vers) l ->
  NoDup l -> rules_unique l ->
  (forall n m, n ∈ l -> m ∈ avtab_nodes h -> is_xspec (specified (akey n)) = false ->
     rule_id (akey n) <> rule_id (akey m)) ->
  exists h', (forall fp fp', reads fp (concat (item_bytes <$> l)) fp' ->
      read_items (length l) fp vers (Some h, []) 0 = (0, (Some h', []), fp', 0)) /\
    avtab_inv h' /\ content <$> avtab_nodes h' ≡ₚ content <$> (l ++ avtab_nodes h).
Proof.
  intros Hv. revert h. induction l as [|n l IH]; intros h Hi Hst Hnd Hu Hc;
    cbn [length read_items fmap list_fmap concat] in *.
  { exists h. split_and!; try done. by intros fp fp' ->%reads_nil. }
  apply Forall_cons in Hst as [Hn Hst].
  apply NoDup_cons in Hnd as [Hni Hnd]. pose proof Hn as [Hg _]. pose proof Hg as [Hk Hd].
  destruct (avtab_insert (Some h) (akey n) (adatum n) []) as [[rc h1] o1] eqn:E.
  apply avtab_insert_memory in E as Ho. subst o1. pose proof Hi as (Hwf & Hgs & _).
  assert (Hins : insertable (akey n) (adatum n)).
  { split; [done|]. destruct Hd as [? Hx]. split; [done|]. by destruct (xperms (adatum n)). }
  destruct (avtab_insert_inv _ _ _ _ _ _ _ Hi Hins E) as (h2 & -> & Hi2).
  destruct (avtab_insert_spec _ _ _ _ _ _ _ Hwf (proj1 Hk) E)
    as (h3 & [= <-] & _ & [(-> & Hp & _)|[(_ & _ & [m Hm] & Hx)|(_ & _ & ?)]]); [| |done]; cycle 1.
  { exfalso. destruct (search_some_rule _ _ _ Hi Hk Hm) as [Hmin Hmr].
    apply (Hc n m); [by left|done| |done]. rewrite <-is_xspec_strip by (apply Hk).
    by apply truthy_false. }
  rewrite stored_datum_good in Hp by done.
  destruct (IH h2 Hi2 Hst Hnd) as (h' & Hri & Hi' & Hp').
  - intros a b Ha Hb. apply Hu; by right.
  - intros a m Ha. rewrite Hp. intros [->|Hm]%elem_of_cons Hx; [|apply Hc; [by right|done..]].
    simpl. intros He. apply Hni. assert (a = n) as <-; [|done].
    apply Hu; [by right|by left|done..].
  - exists h'. split_and!; [|done|].
    + intros fp fp' (fp1 & Hr1 & Hr2)%reads_app. rewrite (read_item_spec _ _ _ _ _ _ Hv Hn Hr1). unfold avtab_insertf. cbn [fst snd].
      rewrite E. change (truthy 0) with false. cbn match. by apply Hri.
    + rewrite Hp', !fmap_app, Hp. cbn [fmap list_fmap]. rewrite <-Permutation_middle. done.
Qed.

Lemma concat_items_length l :
  Forall node_good l -> (12 * length l <= length (concat (item_bytes <$> l)))%nat.
Proof.
  induction 1 as [|n l Hn Hf IH]; [done|]. cbn [fmap list_fmap concat length].
  rewrite length_app. pose proof (length_item_bytes n Hn). lia.
Qed.

Lemma reads_available12 fp bs fp' k :
  reads fp bs fp' -> 12 * k <= Z.of_nat (length bs) -> k < 2 ^ 32 ->
  exceeds_available_bytes fp k 12 = false.
Proof.
  intros (rest & Hd & _ & _ & _ & Hl) Hk Hlt. unfold exceeds_available_bytes.
  destruct Hl as [[-> _]|(-> & Hl & _)]; [done|]. simpl.
  destruct (Z.leb_spec (2 ^ 64) (k * 12)); [lia|]. apply Z.ltb_ge.
  rewrite Hl, Hd, length_app. lia.
Qed.

(** [avtab_read] on the bytes of a table. *)
Lemma avtab_read_spec h0 h vers :
  POLICYDB_VERSION_AVTAB <= vers -> avtab_inv h -> Forall (storable vers) (avtab_nodes h) ->
  0 < Z.of_nat (length (avtab_nodes h)) < 2 ^ 32 - 1 ->
  exists h', (forall fp fp', reads fp (table_bytes h) fp' -> avtab_read h0 fp vers 0 [] = (0, h', fp', 0, [])) /\ avtab_inv h' /\
    content <$> avtab_nodes h' ≡ₚ content <$> avtab_nodes h.
Proof.
  intros Hv Hi Hst Hn.
  pose proof Hi as (Hwf & Hg & Hu). pose proof Hwf as (t & Ht & Htw & [Hnd _] & Hnel).
  rewrite <-(avtab_nodes_concat h t Ht Htw) in Hnel, Hnd. rewrite u32_small in Hnel by lia.
  assert (Hle : le32_at (le_bytes 4 (av_nel h)) 0 = av_nel h).
  { pose proof (le_at_app 4 [] [] (av_nel h) 0 eq_refl ltac:(lia)) as He.
    by rewrite app_nil_r in He. }
  assert (Hz : zero_or_saturated32 (av_nel h) = false).
  { unfold zero_or_saturated32. rewrite orb_false_iff, !Z.eqb_neq. lia. }
  pose proof (concat_items_length _ Hg) as Hlen.
  destruct (avtab_alloc h0 (av_nel h) []) as [[rc1 a1] o1] eqn:Ea.
  destruct (avtab_alloc_spec _ _ _ _ _ _ (ltac:(lia) : 0 < av_nel h < 2 ^ 32) Ea)
    as [(-> & Hwf1 & Hn0 & _)|(_ & ? & _)]; [|done].
  assert (o1 = []) as ->.
  { unfold avtab_alloc in Ea. repeat case_match; simplify_eq/=; done. }
  assert (Hi1 : avtab_inv a1).
  { split_and!; [done|by rewrite Hn0|]. rewrite Hn0. by intros ? ? ?%elem_of_nil. }
  destruct (read_items_spec vers (avtab_nodes h) a1 Hv Hi1 Hst)
    as (h' & Hri & Hi' & Hp); [by eapply NoDup_fmap_1|done| |].
  - intros n m _. rewrite Hn0. by intros ?%elem_of_nil.
  - exists h'. split_and!; [|done|by rewrite Hp, Hn0, app_nil_r]. intros fp fp' (fp1 & Hr1 & Hr2)%reads_app. unfold avtab_read.
    rewrite (next_entry_whole _ _ _ 4 (length_le_bytes _ _) ltac:(done) Hr1), Hle.
    rewrite Hz, (reads_available12 _ _ _ _ Hr2) by lia. cbn [orb]. rewrite Ea. change (truthy 0) with false. cbn match.
    rewrite Hnel, Nat2Z.id. unfold oracle in *. by rewrite (Hri _ _ Hr2).
Qed.

(** * The properties of the access vector tables, with concrete instances *)

(** A table with two slots, filled by the code: allow 1 2:3 and two extended rules of one
    key. *)
Definition ex_key (sp : Z) : avtab_key := AvKey 1 2 3 sp.
Definition ex_xperms (driver : Z) : avtab_extended_perms :=
  Xperms AVTAB_XPERMS_IOCTLFUNCTION driver [5; 0; 0; 0; 0; 0; 0; 0].

Definition ex_avtab : avtab :=
  let h := (avtab_alloc (Avtab None 0 0 0 0) 3 []).1.2 in
  let add h k d := default h (avtab_insert (Some h) k d []).1.2 in
  let h := add h (ex_key AVTAB_ALLOWED) (AvDatum 6 None) in
  let h := add h (ex_key AVTAB_XPERMS_ALLOWED) (AvDatum 0 (Some (ex_xperms 7))) in
  add h (ex_key AVTAB_XPERMS_ALLOWED) (AvDatum 0 (Some (ex_xperms 9))).

Lemma specs_elem sp : existsb (Z.eqb sp) specs = true -> sp ∈ specs.
Proof.
  rewrite existsb_exists. intros (x & Hin & ->%Z.eqb_eq). by apply list_elem_of_In.
Qed.

Lemma ex_key_ok sp : existsb (Z.eqb sp) specs = true -> key_ok (ex_key sp).
Proof.
  intros H%specs_elem. split; [|by apply specs_ok]. apply specs_range in H.
  split_and!; simpl; lia.
Qed.

Lemma ex_insertable_x driver :
  0 <= driver < 2 ^ 8 ->
  insertable (ex_key AVTAB_XPERMS_ALLOWED) (AvDatum 0 (Some (ex_xperms driver))).
Proof.
  intros Hd. split; [by apply ex_key_ok|]. split; [done|]. split; [done|].
  split_and!; simpl; try (done || lia). repeat constructor; lia.
Qed.

Lemma avtab_insert_get h k d :
  avtab_inv h -> insertable k d -> avtab_inv (default h (avtab_insert (Some h) k d []).1.2).
Proof.
  intros Hi Hd. destruct (avtab_insert (Some h) k d []) as [[rc h'] o'] eqn:E.
  destruct (avtab_insert_inv _ _ _ _ _ _ _ Hi Hd E) as (h1 & -> & H1). done.
Qed.

Lemma ex_avtab_inv : avtab_inv ex_avtab.
Proof.
  unfold ex_avtab. apply avtab_insert_get; [|by apply ex_insertable_x].
  apply avtab_insert_get; [|by apply ex_insertable_x].
  apply avtab_insert_get; [|split; [by apply ex_key_ok|by split]].
  destruct (avtab_alloc (Avtab None 0 0 0 0) 3 []) as [[rc h] o] eqn:E.
  destruct (avtab_alloc_spec _ 3 _ _ _ _ ltac:(lia) E) as [(_ & Hwf & Hn & _)|(_ & ? & _)]; [|done].
  simpl. split_and!; [done|by rewrite Hn|]. rewrite Hn. by intros ? ? ?%elem_of_nil.
Qed.

(** [avtab_insert] on every branch: a new rule is added and found by the next search,
    every other rule keeps its answer, a rule that is there is refused and nothing
    changes, and so is a failed [malloc]; the invariant is kept. *)
Theorem avtab_insert_correct h key datum o :
  avtab_inv h -> insertable key datum ->
  let '(rc, h', _) := avtab_insert (Some h) key datum o in
  exists h1, h' = Some h1 /\ avtab_inv h1 /\
  (rc = 0 /\ (is_xspec (specified key) = false ->
       avtab_search (Some h) key = None /\
       avtab_search (Some h1) key = Some (stored_datum key datum)) /\
     (forall k, key_ok k -> is_xspec (specified k) = false -> rule_id k <> rule_id key ->
        avtab_search (Some h1) k = avtab_search (Some h) k) \/
   rc = SEPOL_EEXIST /\ h1 = h /\ is_Some (avtab_search (Some h) key) /\
     is_xspec (specified key) = false \/
   rc = SEPOL_ENOMEM /\ h1 = h /\ o <> []).
Proof.
  intros Hi Hd. destruct (avtab_insert (Some h) key datum o) as [[rc h'] o'] eqn:E.
  destruct (avtab_insert_inv _ _ _ _ _ _ _ Hi Hd E) as (h1 & -> & Hi1). exists h1.
  split_and!; try done. pose proof Hi as (Hwf & _). pose proof Hd as (Hk & _).
  assert (Hx : Z.land (strip_enabled (specified key)) AVTAB_XPERMS = 0 <->
               is_xspec (specified key) = false).
  { rewrite <-is_xspec_strip by apply Hk. symmetry. apply truthy_false. }
  setoid_rewrite avtab_search_datum.
  destruct (avtab_insert_spec _ _ _ _ _ _ _ Hwf (proj1 Hk) E)
    as (h2 & [= <-] & _ & [(-> & Hp & Hn)|[(-> & -> & Hs & Hnx)|(-> & -> & Ho)]]).
  - left. split_and!; [done| |].
    + intros Hnx. rewrite Hn by (by apply Hx). split; [done|].
      by rewrite (search_added h h1 _ key Hi1 Hp).
    + intros k Hk' Hxk Hne. by rewrite (search_frame h h1 _ k Hi Hi1 Hp).
  - right; left. rewrite <-Hx. destruct Hs as [n ->]. done.
  - by right; right.
Qed.

Lemma avtab_insert_witness :
  avtab_insert (Some ex_avtab) (ex_key AVTAB_ALLOWED) (AvDatum 1 None) [] =
    (SEPOL_EEXIST, Some ex_avtab, []) /\
  is_Some (avtab_search (Some ex_avtab) (ex_key AVTAB_ALLOWED)).
Proof.
  split; [vm_compute; reflexivity|].
  assert (Hd : insertable (ex_key AVTAB_ALLOWED) (AvDatum 1 None)).
  { split; [by apply ex_key_ok|by split]. }
  pose proof (avtab_insert_correct ex_avtab (ex_key AVTAB_ALLOWED) (AvDatum 1 None) []
                ex_avtab_inv Hd) as H.
  assert (E : avtab_insert (Some ex_avtab) (ex_key AVTAB_ALLOWED) (AvDatum 1 None) [] =
    (SEPOL_EEXIST, Some ex_avtab, [])) by (vm_compute; reflexivity).
  rewrite E in H. clear E. destruct H as (h1 & _ & _ & [(Hz & _)|[(_ & _ & Hs & _)|(Hz & _)]]);
    [discriminate Hz|exact Hs|discriminate Hz].
Defined.

(** The searches are exhaustive.  A search for a rule returns a node of that rule
    exactly when the table has one, although it stops at the first greater key of the
    chain, and stepping through [avtab_search_node_next] yields every node of the rule,
    each once. *)
Theorem avtab_search_correct h key :
  avtab_inv h -> key_ok key ->
  (avtab_search_node (Some h) key = None <->
     forall n, n ∈ avtab_nodes h -> rule_id key <> rule_id (akey n)) /\
  (forall n, avtab_search_node (Some h) key = Some n ->
     n ∈ avtab_nodes h /\ rule_id key = rule_id (akey n) /\
     avtab_search (Some h) key = Some (adatum n)) /\
  (let l := search_all (S (length (avtab_nodes h))) h (avtab_search_node (Some h) key)
              (specified key) in
   NoDup l /\ forall n, n ∈ l <-> n ∈ avtab_nodes h /\ rule_id key = rule_id (akey n)).
Proof.
  intros Hi Hk. pose proof Hi as (Hwf & Hg & _). rewrite Forall_forall in Hg. split_and!.
  - split; [by apply search_none_absent|]. intros H.
    destruct (avtab_search_node (Some h) key) as [n|] eqn:E; [|done].
    destruct (search_some_rule _ _ _ Hi Hk E). by destruct (H n).
  - intros n E. destruct (search_some_rule _ _ _ Hi Hk E).
    by rewrite avtab_search_datum, E.
  - cbv zeta. rewrite search_all_spec by (apply Hk || done || lia). split.
    + apply NoDup_ListNoDup, List.NoDup_filter, NoDup_ListNoDup.
      destruct Hwf as (t & Ht & Htw & [Hnd _] & _).
      rewrite (avtab_nodes_concat h t Ht Htw). by eapply NoDup_fmap_1.
    + intros n. rewrite list_elem_of_In, List.filter_In, <-list_elem_of_In. split.
      * intros [Hn Hm]. split; [done|]. apply matches_iff; [done|by apply Hg|done].
      * intros [Hn He]. split; [done|]. apply matches_iff; [done|by apply Hg|done].
Qed.

Lemma avtab_search_witness :
  (adatum <$> search_all 4 ex_avtab
     (avtab_search_node (Some ex_avtab) (ex_key AVTAB_XPERMS_ALLOWED)) AVTAB_XPERMS_ALLOWED) =
    [AvDatum 0 (Some (ex_xperms 9)); AvDatum 0 (Some (ex_xperms 7))] /\
  (avtab_search_node (Some ex_avtab) (ex_key AVTAB_TRANSITION) = None <->
     forall n, n ∈ avtab_nodes ex_avtab -> rule_id (ex_key AVTAB_TRANSITION) <> rule_id (akey n)).
Proof.
  split; [vm_compute; reflexivity|].
  exact (proj1 (avtab_search_correct ex_avtab (ex_key AVTAB_TRANSITION) ex_avtab_inv
                  (ex_key_ok AVTAB_TRANSITION eq_refl))).
Defined.

(** C28: Whatever bytes a policy holds, [avtab_read] either fails and leaves no table, or
    builds a table that satisfies the invariant: hashes in range, chains in order, one
    specifier per node, extended permissions present wherever the code dereferences
    them, no rule twice.  This holds for both entry formats and any allocator. *)
Theorem avtab_read_safe a fp vers compat o :
  pf_bytes fp ->
  let '(rc, a', _, _, _) := avtab_read a fp vers compat o in
  rc = 0 /\ avtab_inv a' \/ rc = -1 /\ av_htable a' = None.
Proof.
  intros Hb. destruct (avtab_read a fp vers compat o) as [[[[rc a'] fp'] c'] o'] eqn:E.
  by eapply avtab_read_inv.
Qed.

(** One entry in the format before version 20: 5 words, allow 1 2:3 with data 6. *)
Definition ex_old_policy : policy_file :=
  PolicyFile PF_USE_MEMORY
    (concat (le_bytes 4 <$> [1; 5; 1; 2; 3; AVTAB_ALLOWED; 6])) 28 [].

Lemma avtab_read_safe_witness :
  exists a', (avtab_read (Avtab None 0 0 0 0) ex_old_policy 15 0 []).1.1.1 = (0, a') /\
    avtab_inv a' /\ avtab_search (Some a') (ex_key AVTAB_ALLOWED) = Some (AvDatum 6 None).
Proof.
  assert (Hb : pf_bytes ex_old_policy).
  { apply Forall_concat, Forall_fmap, Forall_forall. intros. apply le_bytes_bytes. }
  pose proof (avtab_read_safe (Avtab None 0 0 0 0) ex_old_policy 15 0 [] Hb) as H.
  destruct (avtab_read (Avtab None 0 0 0 0) ex_old_policy 15 0 []) as [[[[rc a'] fp'] c'] o'] eqn:E.
  vm_compute in E. simplify_eq. destruct H as [[_ Hi]|[Hz _]]; [|discriminate Hz].
  eexists. split; [reflexivity|]. split; [exact Hi|]. vm_compute. reflexivity.
Defined.

(** C7: Round trip of the rule table in the current format.  [avtab_write] of a table
    whose nodes the policy version can hold succeeds on any stream with room, and
    [avtab_read] of what it wrote succeeds, consumes exactly those bytes and builds a
    table with the same keys and data, each as often (the slots may differ). *)
Theorem avtab_roundtrip p h fp :
  avtab_inv h -> Forall (storable (policyvers p)) (avtab_nodes h) ->
  POLICYDB_VERSION_AVTAB <= policyvers p -> target_platform p = SEPOL_TARGET_SELINUX ->
  0 < Z.of_nat (length (avtab_nodes h)) < 2 ^ 32 - 1 ->
  can_put fp (4 + 42 * Z.of_nat (length (avtab_nodes h))) ->
  exists bs fp1, avtab_write_new p h fp 0 = (0, fp1) /\ wrote fp bs fp1 /\
    forall h0 fr fr', reads fr bs fr' ->
    exists h', avtab_read h0 fr (policyvers p) 0 [] = (0, h', fr', 0, []) /\ avtab_inv h' /\
      content <$> avtab_nodes h' ≡ₚ content <$> avtab_nodes h.
Proof.
  intros Hi Hst Hv Ht Hn Hc. pose proof Hi as (Hwf & Hg & _).
  assert (Hlen : Z.of_nat (length (table_bytes h)) <= 4 + 42 * Z.of_nat (length (avtab_nodes h))).
  { unfold table_bytes. rewrite length_app, length_le_bytes.
    clear -Hg. induction Hg as [|n l Hn Hg IH]; [simpl; lia|]. cbn [fmap list_fmap concat length].
    rewrite length_app. pose proof (length_item_bytes n Hn). lia. }
  destruct (avtab_write_spec p h fp Hwf Hst Ht) as (fp1 & Hw & Hwr); [by eapply can_put_le|].
  exists (table_bytes h), fp1. split_and!; try done. intros h0 fr fr' Hr.
  destruct (avtab_read_spec h0 h (policyvers p) Hv Hi Hst Hn) as (h' & Hrd & H). exists h'. split; [by apply Hrd|done].
Qed.

Definition ex_policy : policydb :=
  Policydb POLICY_KERN SEPOL_TARGET_SELINUX 30 (plain_symtabs no_symbols no_symbols) ex_avtab
    None 0 [] [] [] ebitmap_init 0 [] [] no_indexes [].

Lemma avtab_roundtrip_witness :
  exists bs fp1, avtab_write_new ex_policy ex_avtab (PolicyFile PF_USE_STDIO [] 0 []) 0 = (0, fp1) /\
    wrote (PolicyFile PF_USE_STDIO [] 0 []) bs fp1 /\
    forall h0 fr fr', reads fr bs fr' ->
    exists h', avtab_read h0 fr 30 0 [] = (0, h', fr', 0, []) /\ avtab_inv h' /\
      content <$> avtab_nodes h' ≡ₚ content <$> avtab_nodes ex_avtab.
Proof.
  apply (avtab_roundtrip ex_policy ex_avtab);
    [exact ex_avtab_inv| |vm_compute; discriminate|reflexivity|vm_compute; done|by left].
  pose proof ex_avtab_inv as (_ & Hg & _).
  assert (E : avtab_nodes ex_avtab = ltac:(let l := eval vm_compute in (avtab_nodes ex_avtab) in exact l))
    by (vm_compute; reflexivity).
  rewrite E in *. repeat apply Forall_cons in Hg as [? Hg].
  repeat constructor; try done; set_solver.
Defined.

(** [avtab_alloc] sizes the table with a power of two between 2 and 2^20 slots, one
    slot for two to four rules up to 2^22 rules, so that [avtab_hash] indexes the array
    for every key and the table starts empty and well formed. *)
Theorem avtab_alloc_correct h nrules o :
  0 < nrules < 2 ^ 32 ->
  (exists k, avtab_nslot nrules = Some (2 ^ k) /\ 1 <= k <= 20 /\
     (4 <= nrules < 2 ^ 22 -> 2 * 2 ^ k <= nrules < 4 * 2 ^ k)) /\
  let '(rc, h', _) := avtab_alloc h nrules o in
  rc = 0 /\ avtab_wf h' /\ avtab_nodes h' = [] /\
    (forall key t, av_htable h' = Some t ->
       (Z.to_nat (avtab_hash key (av_mask h')) < length t)%nat) \/
  rc = -1 /\ o <> [] /\ av_htable h' = None.
Proof.
  intros Hn. split; [by apply avtab_nslot_spec|].
  destruct (avtab_alloc h nrules o) as [[rc h'] o'] eqn:E.
  destruct (avtab_alloc_spec _ _ _ _ _ _ Hn E) as [(-> & Hwf & Hnil & _)|?]; [left|by right].
  split_and!; try done. intros key t Ht. destruct Hwf as (t' & Ht' & Htw & _). simplify_eq.
  destruct (av_table_slot _ _ _ key Htw) as [Hi _]. by eapply lookup_lt_Some.
Qed.

Lemma avtab_alloc_witness :
  avtab_nslot 1000 = Some (2 ^ 8) /\
  exists k, avtab_nslot 1000 = Some (2 ^ k) /\ 1 <= k <= 20 /\
     (4 <= 1000 < 2 ^ 22 -> 2 * 2 ^ k <= 1000 < 4 * 2 ^ k).
Proof.
  split; [vm_compute; reflexivity|].
  exact (proj1 (avtab_alloc_correct (Avtab None 0 0 0 0) 1000 [] ltac:(lia))).
Defined.
