(* ===== verification/Sepolicy.v ===== *)
(** * Magisk's policy editor (native/src/sepolicy/sepolicy.cpp)

    The operations of [sepol_impl] that edit the type enforcement rules of a loaded
    policy, on top of libsepol's tables.  A [rust::Str] is the list of its bytes.

    The editor changes and frees nodes through pointers, and does not test for failed
    allocations: an operation is a function from the policy and the allocator to a new
    state, where [None] is a dereference of [NULL]. *)

From S2P Require Import Prelude Policyfile Ebitmap Hashtab Symtab Avtab AvtabSpec Policydb.

Definition state : Type := policydb * oracle.

Definition set_te_avtab (db : policydb) (h : avtab) : policydb :=
  Policydb (policy_type db) (target_platform db) (policyvers db) (p_symtab db) h
    (filename_trans db) (filename_trans_count db)
    (type_val_to_struct db) (type_attr_map db) (attr_type_map db) (permissive_map db)
    (p_mls db) (p_scope db) (p_global db) (p_index db) (p_genfs db).

Definition set_permissive_map (db : policydb) (e : ebitmap) : policydb :=
  Policydb (policy_type db) (target_platform db) (policyvers db) (p_symtab db)
    (te_avtab db) (filename_trans db) (filename_trans_count db)
    (type_val_to_struct db) (type_attr_map db) (attr_type_map db) e
    (p_mls db) (p_scope db) (p_global db) (p_index db) (p_genfs db).

(** A loop whose body may crash. *)
Fixpoint for_each {A S} (f : A -> S -> option S) (l : list A) (s : S) : option S :=
  match l with
  | [] => Some s
  | a :: l' => match f a s with Some s' => for_each f l' s' | None => None end
  end.

(** [strip_av(effect, invert)]. *)
Definition strip_av (effect : Z) (invert : bool) : bool :=
  Bool.eqb (effect =? AVTAB_AUDITDENY) (negb invert).

(** ** Strings and symbol tables *)

(** [hashtab_find]: the key is copied to a buffer of 256 bytes. *)
Definition hashtab_find {D} (h : option (hashtab_val (list Z) D)) (key : list Z) : option D :=
  hashtab_search h (c_str (take 255 key)).

(** [hashtab_for_each]: the data in the order of the array. *)
Definition hashtab_data {D} (h : option (hashtab_val (list Z) D)) : list D :=
  match h with
  | None => []
  | Some h => hdatum <$> concat (htable h)
  end.

(** The types [for_each_attr] visits. *)
Definition attrs (h : option (hashtab_val (list Z) type_datum)) : list type_datum :=
  List.filter (fun t => ty_flavor t =? TYPE_ATTRIB) (hashtab_data h).

(** ** Nodes *)

(** A write through a node pointer. *)
Definition write_datum (a : Z) (d : avtab_datum) (n : avtab_node) : avtab_node :=
  if addr n =? a then AvNode (addr n) (akey n) d (merged n) else n.

Definition set_datum (h : avtab) (node : avtab_node) (d : avtab_datum) : avtab :=
  Avtab (map (map (write_datum (addr node) d)) <$> av_htable h)
    (av_nel h) (av_nslot h) (av_mask h) (brk h).

(** The scan of [avtab_remove_node], and the chain without the node. *)
Fixpoint detach (a : Z) (c : list avtab_node) : option (list avtab_node) :=
  match c with
  | [] => None
  | n :: c' =>
      if addr n =? a then Some c'
      else match detach a c' with Some c'' => Some (n :: c'') | None => None end
  end.

Definition avtab_remove_node (h : option avtab) (node : avtab_node) : Z * option avtab :=
  match h with
  | None => (SEPOL_ENOMEM, None)
  | Some h =>
      match av_htable h with
      | None => (SEPOL_ENOMEM, Some h)
      | Some t =>
          let hvalue := avtab_hash (akey node) (av_mask h) in
          match detach (addr node) (av_slot t hvalue) with
          | None => (SEPOL_ENOENT, Some h)
          | Some c =>
              (0, Some (Avtab (Some (<[Z.to_nat hvalue := c]> t)) (u32 (av_nel h - 1))
                          (av_nslot h) (av_mask h) (brk h)))
          end
      end
  end.

Definition is_redundant (node : avtab_node) : bool :=
  if specified (akey node) =? AVTAB_AUDITDENY then data (adatum node) =? 2 ^ 32 - 1
  else if specified (akey node) =? AVTAB_XPERMS then
    match xperms (adatum node) with None => true | Some _ => false end
  else data (adatum node) =? 0.

(** The loop of [find_avtab_node] over the nodes of an extended key; the outer [None] is
    a dereference of [NULL] (or the fuel ran out). *)
Fixpoint find_xperms_loop (fuel : nat) (h : avtab) (node : option avtab_node) (sp : Z)
    (x : avtab_extended_perms) : option (option avtab_node) :=
  match node with
  | None => Some None
  | Some n =>
      match fuel, xperms (adatum n) with
      | S fuel', Some nx =>
          if (x_specified nx =? x_specified x) && (x_driver nx =? x_driver x)
          then Some None   (* node = nullptr; break; *)
          else find_xperms_loop fuel' h (avtab_search_node_next h (Some n) sp) sp x
      | _, _ => None
      end
  end.

Definition find_avtab_node (h : avtab) (key : avtab_key) (x : option avtab_extended_perms) :
    option (option avtab_node) :=
  if truthy (Z.land (specified key) AVTAB_XPERMS) then
    match x with
    | None => Some None
    | Some x =>
        find_xperms_loop (S (length (avtab_nodes h))) h (avtab_search_node (Some h) key)
          (specified key) x
    end
  else Some (avtab_search_node (Some h) key).

Definition insert_avtab_node (h : avtab) (key : avtab_key) (o : oracle) :
    option avtab_node * avtab * oracle :=
  let avdatum := AvDatum (if specified key =? AVTAB_AUDITDENY then 2 ^ 32 - 1 else 0) None in
  let '(n, h', o') := avtab_insert_nonunique (Some h) key avdatum o in
  (n, default h h', o').

Definition get_avtab_node (h : avtab) (key : avtab_key) (x : option avtab_extended_perms)
    (o : oracle) : option (option avtab_node * avtab * oracle) :=
  match find_avtab_node h key x with
  | None => None
  | Some (Some node) => Some (Some node, h, o)
  | Some None => Some (insert_avtab_node h key o)
  end.

(** ** Rules *)

(** What [add_rule] stores; [perm] is the value of the permission, or any of them. *)
Definition new_av (old : Z) (perm : option perm_datum) (invert : bool) : Z :=
  let bit p := u32 (Z.shiftl 1 (perm_value p - 1)) in
  if invert then
    match perm with
    | Some p => Z.land old (u32 (Z.lnot (bit p)))
    | None => 0
    end
  else
    match perm with
    | Some p => Z.lor old (bit p)
    | None => 2 ^ 32 - 1
    end.

(** The last case of [add_rule]: source, target and class are given. *)
Definition add_rule_one (src tgt : type_datum) (cls : class_datum) (perm : option perm_datum)
    (effect : Z) (invert : bool) (s : state) : option state :=
  let (db, o) := s in
  let key := AvKey (u16 (ty_value src)) (u16 (ty_value tgt)) (u16 (cls_value cls)) (u16 effect) in
  match get_avtab_node (te_avtab db) key None o with
  | Some (Some node, h, o) =>
      let d := AvDatum (new_av (data (adatum node)) perm invert) (xperms (adatum node)) in
      let h := set_datum h node d in
      let node := AvNode (addr node) (akey node) d (merged node) in
      let h := if is_redundant node then default h (avtab_remove_node (Some h) node).2 else h in
      Some (set_te_avtab db h, o)
  | _ => None
  end.

(** [add_rule] on data; [None] for an argument is [nullptr]. *)
Definition add_rule_cls (src tgt : type_datum) (cls : option class_datum)
    (perm : option perm_datum) (effect : Z) (invert : bool) (s : state) : option state :=
  match cls with
  | Some cls => add_rule_one src tgt cls perm effect invert s
  | None =>
      for_each (fun cls => add_rule_one src tgt cls perm effect invert)
        (hashtab_data (table (p_classes s.1))) s
  end.

Definition add_rule_tgt (src : type_datum) (tgt : option type_datum) (cls : option class_datum)
    (perm : option perm_datum) (effect : Z) (invert : bool) (s : state) : option state :=
  match tgt with
  | Some tgt => add_rule_cls src tgt cls perm effect invert s
  | None =>
      for_each (fun tgt => add_rule_cls src tgt cls perm effect invert)
        (if strip_av effect invert then hashtab_data (table (p_types s.1))
         else attrs (table (p_types s.1))) s
  end.

Definition add_rule (src tgt : option type_datum) (cls : option class_datum)
    (perm : option perm_datum) (effect : Z) (invert : bool) (s : state) : option state :=
  match src with
  | Some src => add_rule_tgt src tgt cls perm effect invert s
  | None =>
      for_each (fun src => add_rule_tgt src tgt cls perm effect invert)
        (if strip_av effect invert then hashtab_data (table (p_types s.1))
         else attrs (table (p_types s.1))) s
  end.

(** A name that is given must exist: [None] is the early [return false]. *)
Definition find_opt {D} (h : option (hashtab_val (list Z) D)) (name : list Z) : option (option D) :=
  match name with
  | [] => Some None
  | _ => match hashtab_find h name with Some d => Some (Some d) | None => None end
  end.

(** The lookup of the permission, in the class and then in its common. *)
Definition find_perm (cls : option class_datum) (p : list Z) : option (option perm_datum) :=
  match p, cls with
  | [], _ => Some None
  | _, None => None
  | _, Some cls =>
      match hashtab_find (table (cls_permissions cls)) p with
      | Some d => Some (Some d)
      | None =>
          match comdatum cls with
          | None => None
          | Some com =>
              match hashtab_find (table (com_permissions com)) p with
              | Some d => Some (Some d)
              | None => None
              end
          end
      end
  end.

(** [add_rule] on names: the returned [bool] and the state. *)
Definition add_rule_str (src tgt cls perm : list Z) (effect : Z) (invert : bool) (s : state) :
    option (bool * state) :=
  let db := s.1 in
  match find_opt (table (p_types db)) src with
  | None => Some (false, s)
  | Some src =>
      match find_opt (table (p_types db)) tgt with
      | None => Some (false, s)
      | Some tgt =>
          match find_opt (table (p_classes db)) cls with
          | None => Some (false, s)
          | Some cls =>
              match find_perm cls perm with
              | None => Some (false, s)
              | Some perm =>
                  match add_rule src tgt cls perm effect invert s with
                  | Some s' => Some (true, s')
                  | None => None
                  end
              end
          end
      end
  end.

(** [add_type_rule]. *)
Definition add_type_rule (src tgt cls def : list Z) (effect : Z) (s : state) :
    option (bool * state) :=
  let (db, o) := s in
  match hashtab_find (table (p_types db)) src with
  | None => Some (false, s)
  | Some src =>
      match hashtab_find (table (p_types db)) tgt with
      | None => Some (false, s)
      | Some tgt =>
          match hashtab_find (table (p_classes db)) cls with
          | None => Some (false, s)
          | Some cls =>
              match hashtab_find (table (p_types db)) def with
              | None => Some (false, s)
              | Some def =>
                  let key := AvKey (u16 (ty_value src)) (u16 (ty_value tgt)) (u16 (cls_value cls))
                               (u16 effect) in
                  match get_avtab_node (te_avtab db) key None o with
                  | Some (Some node, h, o) =>
                      let h := set_datum h node (AvDatum (ty_value def) (xperms (adatum node))) in
                      Some (true, (set_te_avtab db h, o))
                  | _ => None
                  end
              end
          end
      end
  end.

(** [set_type_state]. *)
Fixpoint set_permissive (l : list type_datum) (e : ebitmap) (permissive : bool) (o : oracle) :
    ebitmap * oracle :=
  match l with
  | [] => (e, o)
  | t :: l' =>
      let '(_, e, o) := ebitmap_set_bit e (ty_value t) permissive o in
      set_permissive l' e permissive o
  end.

Definition set_type_state (type_name : list Z) (permissive : bool) (s : state) : bool * state :=
  let (db, o) := s in
  match type_name with
  | [] =>
      let (e, o) := set_permissive (hashtab_data (table (p_types db))) (permissive_map db)
                      permissive o in
      (true, (set_permissive_map db e, o))
  | _ =>
      match hashtab_find (table (p_types db)) type_name with
      | None => (false, s)
      | Some type =>
          let '(rc, e, o) := ebitmap_set_bit (permissive_map db) (ty_value type) permissive o in
          if truthy rc then (false, (set_permissive_map db e, o))
          else (true, (set_permissive_map db e, o))
      end
  end.

(** [strip_dontaudit]: [list_for_each] saves the next node before the call, so a slot is
    visited as it was when its turn came. *)
Definition is_dontaudit (node : avtab_node) : bool :=
  (specified (akey node) =? AVTAB_AUDITDENY) ||
  (specified (akey node) =? AVTAB_XPERMS_DONTAUDIT).

Definition strip_node (h : avtab) (node : avtab_node) : avtab :=
  if is_dontaudit node then default h (avtab_remove_node (Some h) node).2 else h.

Definition strip_slot (h : avtab) (i : nat) : avtab :=
  match av_htable h with
  | None => h
  | Some t => foldl strip_node h (av_slot t (Z.of_nat i))
  end.

Definition strip_dontaudit (h : avtab) : avtab :=
  foldl strip_slot h (seq 0 (Z.to_nat (av_nslot h))).
