(* ===== verification/SepolicySpec.v ===== *)
(** * The policy editor: what an edit does to the rules *)

From S2P Require Import Prelude Policyfile Ebitmap EbitmapSpec EbitmapQuery EbitmapUpdate Hashtab Symtab Avtab AvtabSpec AvtabRules Policydb.
From S2P Require Import Sepolicy.

#[export] Instance avtab_key_eq_dec : EqDecision avtab_key.
Proof. solve_decision. Defined.

(** ** Writing a datum through a pointer *)

Section relabel.
(** A change of nodes that keeps their keys and addresses. *)
Context (f : avtab_node -> avtab_node).
Hypothesis f_key : forall n, akey (f n) = akey n.
Hypothesis f_addr : forall n, addr (f n) = addr n.

Lemma map_sorted c : StronglySorted node_le c -> StronglySorted node_le (map f c).
Proof.
  induction 1 as [|n c Hs IH Hf]; simpl; constructor; [done|].
  change (map f c) with (f <$> c). apply Forall_fmap. eapply Forall_impl; [exact Hf|].
  unfold compose, node_le. intros m. by rewrite !f_key.
Qed.

Lemma map_chain_wf mask i c : av_chain_wf mask i c -> av_chain_wf mask i (map f c).
Proof.
  intros [Hs Hf]. split; [by apply map_sorted|]. change (map f c) with (f <$> c). apply Forall_fmap.
  eapply Forall_impl; [exact Hf|]. unfold compose. intros m. by rewrite f_key.
Qed.

Lemma map_addrs l : addr <$> map f l = addr <$> l.
Proof.
  change (map f l) with (f <$> l). rewrite <-list_fmap_compose. apply list_fmap_ext.
  intros. apply f_addr.
Qed.

Lemma map_table_wf nslot mask t :
  av_table_wf nslot mask t -> av_table_wf nslot mask (map (map f) t).
Proof.
  intros (Hs & Hm & Hl & Hc). split_and!; [lia..|by rewrite length_map|].
  intros i c Hi. change (map (map f) t) with (map f <$> t) in Hi.
  rewrite list_lookup_fmap in Hi.
  destruct (t !! i) as [d|] eqn:E; simplify_eq/=. by apply map_chain_wf, Hc.
Qed.

Lemma map_wf h : avtab_wf h ->
  let h' := Avtab (map (map f) <$> av_htable h) (av_nel h) (av_nslot h) (av_mask h) (brk h) in
  avtab_wf h' /\ avtab_nodes h' = map f (avtab_nodes h).
Proof.
  intros (t & Ht & Htw & [Hnd Hlt] & Hn) h'. pose proof (map_table_wf _ _ _ Htw) as Htw'.
  assert (Hcm : concat (map (map f) t) = map f (concat t)) by (by rewrite concat_map).
  assert (Ht' : av_htable h' = Some (map (map f) t)) by (unfold h'; simpl; by rewrite Ht).
  split.
  - exists (map (map f) t). rewrite Hcm. split_and!; try done.
    + split; [by rewrite map_addrs|]. change (map f (concat t)) with (f <$> concat t).
      apply Forall_fmap. eapply Forall_impl; [exact Hlt|]. unfold compose. intros m. simpl. by rewrite f_addr.
    + by rewrite length_map.
  - rewrite (avtab_nodes_concat h' _ Ht' Htw'), (avtab_nodes_concat h t) by done. done.
Qed.
End relabel.

Lemma write_datum_key a d n : akey (write_datum a d n) = akey n.
Proof. unfold write_datum. by case_Z. Qed.

Lemma write_datum_addr a d n : addr (write_datum a d n) = addr n.
Proof. unfold write_datum. by case_Z. Qed.

Lemma addr_inj l n m :
  NoDup (addr <$> l) -> n ∈ l -> m ∈ l -> addr n = addr m -> n = m.
Proof.
  intros Hnd (i & Hi)%list_elem_of_lookup_1 (j & Hj)%list_elem_of_lookup_1 He.
  assert (i = j) as ->; [|congruence].
  eapply NoDup_lookup; [exact Hnd|by rewrite list_lookup_fmap, Hi|].
  rewrite list_lookup_fmap, Hj. simpl. by rewrite He.
Qed.

Lemma inv_addrs h : avtab_inv h -> NoDup (addr <$> avtab_nodes h).
Proof.
  intros ((t & Ht & Htw & [Hnd _] & _) & _). by rewrite (avtab_nodes_concat h t Ht Htw).
Qed.

(** The node after the write. *)
Definition with_datum (n : avtab_node) (d : avtab_datum) : avtab_node :=
  AvNode (addr n) (akey n) d (merged n).

Lemma set_datum_elem h node d m :
  avtab_inv h -> node ∈ avtab_nodes h ->
  m ∈ avtab_nodes (set_datum h node d) <->
  m = with_datum node d \/ m ∈ avtab_nodes h /\ m <> node.
Proof.
  intros Hi Hn. pose proof Hi as (Hwf & _). pose proof (inv_addrs h Hi) as Hnd.
  destruct (map_wf (write_datum (addr node) d) (write_datum_key _ _) (write_datum_addr _ _) h Hwf)
    as [_ Hnodes]. unfold set_datum. rewrite Hnodes.
  rewrite list_elem_of_fmap. split.
  - intros (m0 & -> & Hm0). unfold write_datum. destruct (Z.eqb_spec (addr m0) (addr node)) as [E|E].
    + left. by rewrite (addr_inj _ _ _ Hnd Hm0 Hn E).
    + right. split; [done|]. congruence.
  - intros [-> | [Hm Hne]].
    + exists node. split; [|done]. unfold write_datum. by rewrite Z.eqb_refl.
    + exists m. split; [|done]. unfold write_datum.
      destruct (Z.eqb_spec (addr m) (addr node)) as [E|E]; [|done].
      exfalso. apply Hne. by eapply addr_inj.
Qed.

Lemma set_datum_inv h node d :
  avtab_inv h -> node ∈ avtab_nodes h -> datum_ok (akey node) d -> avtab_inv (set_datum h node d).
Proof.
  intros Hi Hn Hd. pose proof Hi as (Hwf & Hg & Hu).
  pose proof (set_datum_elem h node d) as Hel. rewrite Forall_forall in Hg.
  split_and!.
  - by apply (map_wf _ (write_datum_key _ _) (write_datum_addr _ _) h).
  - apply Forall_forall. intros m. rewrite Hel by done. intros [-> | [Hm _]]; [|by apply Hg].
    split; [apply (Hg node Hn)|done].
  - intros a b. rewrite !Hel by done. intros [-> | [Ha Hna]] [-> | [Hb Hnb]] He Hx; try done.
    + exfalso. apply Hnb. symmetry. by apply (Hu node b Hn Hb).
    + exfalso. apply Hna. by apply (Hu a node Ha Hn).
    + by apply Hu.
Qed.

(** ** Removing a node *)

Lemma detach_spec a c pre n post :
  c = pre ++ n :: post -> addr n = a -> NoDup (addr <$> c) -> detach a c = Some (pre ++ post).
Proof.
  intros -> <-. induction pre as [|m pre IH]; cbn [app detach]; intros Hnd.
  - by rewrite Z.eqb_refl.
  - rewrite fmap_cons in Hnd. apply NoDup_cons in Hnd as [Hni Hnd].
    destruct (Z.eqb_spec (addr m) (addr n)) as [E|_]; [|by rewrite IH].
    exfalso. apply Hni. rewrite E, list_elem_of_fmap. exists n. split; [done|].
    rewrite elem_of_app, elem_of_cons. auto.
Qed.

Lemma av_chain_wf_unlink mask i pre cur post :
  av_chain_wf mask i (pre ++ cur :: post) -> av_chain_wf mask i (pre ++ post).
Proof.
  intros [Hs Hf]. rewrite Forall_app, Forall_cons in Hf. destruct Hf as (Hf1 & _ & Hf2).
  split; [|by rewrite Forall_app].
  apply StronglySorted_app_2.
  - intros. eapply StronglySorted_app_1_elem_of; [done..|by right].
  - by eapply StronglySorted_app_1_l.
  - apply StronglySorted_app_1_r in Hs. by inversion Hs.
Qed.

#[local] Opaque avtab_hash u32 strip_enabled.

Lemma avtab_remove_spec h node node0 :
  avtab_wf h -> node ∈ avtab_nodes h -> addr node0 = addr node -> akey node0 = akey node ->
  exists h', avtab_remove_node (Some h) node0 = (0, Some h') /\ avtab_wf h' /\
    avtab_nodes h ≡ₚ node :: avtab_nodes h'.
Proof.
  intros (t & Ht & Htw & [Hnd Hlt] & Hnel) Hn Ha Hk.
  rewrite (avtab_nodes_concat h t Ht Htw) in *.
  unfold avtab_remove_node. rewrite Ht, Ha, Hk. set (hv := avtab_hash (akey node) (av_mask h)).
  destruct (av_table_slot _ _ _ (akey node) Htw) as [Hi Hc]. fold hv in Hi, Hc.
  assert (Hin : node ∈ av_slot t hv).
  { apply elem_of_concat in Hn as (j & c & Hj & Hnc).
    pose proof Htw as (? & ? & _ & Hcs). destruct (Hcs j c Hj) as [_ Hf].
    rewrite Forall_forall in Hf. destruct (Hf node Hnc) as [_ Hh]. fold hv in Hh.
    rewrite Hh, Nat2Z.id in Hi. rewrite Hh. congruence. }
  destruct (list_elem_of_split _ _ Hin) as (pre & post & Hsl).
  assert (Hndc : NoDup (addr <$> av_slot t hv)).
  { destruct (concat_lookup t _ _ Hi) as (l & r & El). rewrite El, !fmap_app in Hnd.
    apply NoDup_app in Hnd as (_ & _ & Hnd). by apply NoDup_app in Hnd as (? & _ & _). }
  rewrite (detach_spec _ _ pre node post Hsl eq_refl Hndc).
  rewrite Hsl in Hi, Hc. set (t' := <[_ := pre ++ post]> t).
  assert (Hp : concat t ≡ₚ node :: concat t').
  { pose proof (concat_insert_perm t _ _ (pre ++ post) Hi) as Hp. fold t' in Hp.
    apply (Permutation_app_inv_r (pre ++ post)). rewrite <-Hp.
    rewrite <-(Permutation_middle pre post), <-Permutation_middle. done. }
  assert (Htw' : av_table_wf (av_nslot h) (av_mask h) t').
  { apply av_table_wf_update; [done|]. by eapply av_chain_wf_unlink. }
  set (h' := Avtab _ _ _ _ _). exists h'. split; [done|].
  rewrite (avtab_nodes_concat h' t' eq_refl Htw'). split; [|done].
  exists t'. rewrite Hp in Hnd, Hlt, Hnel. rewrite fmap_cons in Hnd.
  apply NoDup_cons in Hnd as [_ Hnd]. apply Forall_cons in Hlt as [_ Hlt].
  split_and!; try done. unfold h'. simpl av_nel. rewrite Hnel, u32_pred. f_equal. simpl length. lia.
Qed.

Lemma inv_remove h h' node :
  avtab_inv h -> avtab_wf h' -> avtab_nodes h ≡ₚ node :: avtab_nodes h' -> avtab_inv h'.
Proof.
  intros (_ & Hg & Hu) Hwf Hp. rewrite Hp in Hg, Hu. apply Forall_cons in Hg as [_ Hg].
  split_and!; try done. intros a b Ha Hb. apply Hu; by right.
Qed.

(** * [add_rule] and [add_type_rule]: the access vectors after the edit

    The meaning of a rule table for access vectors is [av]: the stored vector of a key,
    or the default of its specifier when there is no node (nothing allowed or audited,
    every denial audited). *)

Definition av_default (sp : Z) : Z := if sp =? AVTAB_AUDITDENY then 2 ^ 32 - 1 else 0.

Definition av (h : avtab) (key : avtab_key) : Z :=
  match avtab_search (Some h) key with
  | Some d => data d
  | None => av_default (specified key)
  end.

(** The rule table of a policy outside conditionals: no node carries the flag
    [AVTAB_ENABLED], which is reserved for the conditional table. *)
Definition te_inv (h : avtab) : Prop :=
  avtab_inv h /\ Forall (fun n => specified (akey n) ∈ specs) (avtab_nodes h).

(** Keys of rules that are not extended. *)
Definition plain_key (k : avtab_key) : Prop :=
  key_range k /\ specified k ∈ specs /\ is_xspec (specified k) = false.

Lemma plain_key_ok k : plain_key k -> key_ok k.
Proof. intros (Hr & Hs & _). split; [done|by apply specs_ok]. Qed.

Lemma rule_id_specs k : specified k ∈ specs -> rule_id k = k.
Proof. intros H. unfold rule_id. rewrite specs_strip by done. by destruct k. Qed.

Lemma te_search h key n :
  te_inv h -> plain_key key ->
  avtab_search_node (Some h) key = Some n <-> n ∈ avtab_nodes h /\ akey n = key.
Proof.
  intros [Hi Hs] Hk. pose proof Hk as (_ & Hsp & Hx). rewrite Forall_forall in Hs.
  rewrite search_char by auto using plain_key_ok. split; intros [Hn He]; (split; [done|]).
  - rewrite !rule_id_specs in He by auto. done.
  - by rewrite He.
Qed.

(** Nodes of other keys are not touched. *)
Definition same_outside (P : avtab_key -> Prop) (h h' : avtab) : Prop :=
  forall n, ~ P (akey n) -> n ∈ avtab_nodes h' <-> n ∈ avtab_nodes h.

Lemma same_outside_av P h h' k :
  te_inv h -> te_inv h' -> same_outside P h h' -> plain_key k -> ~ P k -> av h' k = av h k.
Proof.
  intros Hi Hi' Hs Hk Hn. unfold av. rewrite !avtab_search_datum.
  assert (avtab_search_node (Some h') k = avtab_search_node (Some h) k) as ->; [|done].
  apply option_eq. intros n. rewrite !te_search by done.
  split; intros [Hin <-]; (split; [|done]); by apply Hs.
Qed.

Lemma av_found h key n :
  te_inv h -> plain_key key -> n ∈ avtab_nodes h -> akey n = key -> av h key = data (adatum n).
Proof.
  intros Hi Hk Hn He. unfold av. rewrite avtab_search_datum.
  by rewrite (proj2 (te_search h key n Hi Hk) (conj Hn He)).
Qed.

(** ** Getting the node of a key *)

Lemma te_inv_add h h' n :
  te_inv h -> avtab_wf h' -> avtab_nodes h' ≡ₚ n :: avtab_nodes h -> node_good n ->
  plain_key (akey n) -> (forall m, m ∈ avtab_nodes h -> akey m <> akey n) -> te_inv h'.
Proof.
  intros [Hi Hs] Hwf Hp Hg (_ & Hsp & Hx) Hfr. split; [|rewrite Hp; by constructor].
  eapply inv_add; [done..|]. intros _ m Hm. rewrite Forall_forall in Hs.
  rewrite !rule_id_specs by auto. intros He. by apply (Hfr m).
Qed.

Lemma insert_nonunique_memory h key d r h' o' :
  avtab_insert_nonunique (Some h) key d [] = (r, h', o') -> o' = [].
Proof.
  unfold avtab_insert_nonunique, avtab_insert_node. cbn [malloc].
  destruct (av_htable h); [|congruence]. destruct (insert_nonunique_loop _ _ _).
  destruct (truthy _); congruence.
Qed.

Lemma get_avtab_node_spec h key :
  te_inv h -> plain_key key ->
  exists node h1, get_avtab_node h key None [] = Some (Some node, h1, []) /\ te_inv h1 /\
    node ∈ avtab_nodes h1 /\ akey node = key /\ data (adatum node) = av h key /\
    xperms (adatum node) = None /\ same_outside (eq key) h h1.
Proof.
  intros Hi Hk. pose proof Hk as (Hr & Hsp & Hx). pose proof Hi as [Hinv _].
  unfold get_avtab_node, find_avtab_node. fold (is_xspec (specified key)). rewrite Hx.
  destruct (avtab_search_node (Some h) key) as [n|] eqn:E.
  - apply te_search in E as Hn; [|done..]. destruct Hn as [Hn He].
    exists n, h. split_and!; try done.
    + symmetry. by apply av_found.
    + destruct Hinv as (_ & Hg & _). rewrite Forall_forall in Hg. destruct (Hg n Hn) as [_ [_ Hd]].
      rewrite He, Hx in Hd. destruct (xperms (adatum n)); [by destruct Hd|done].
  - unfold insert_avtab_node. set (d := AvDatum _ None).
    destruct (avtab_insert_nonunique (Some h) key d []) as [[r h'] o'] eqn:Ei.
    destruct (avtab_insert_nonunique_spec _ _ _ _ _ _ _ (proj1 Hinv) Hr Ei)
      as (h1 & -> & Hwf1 & Hn). destruct r as [n|]; [|by destruct Hn].
    destruct Hn as [-> Hp].
    apply insert_nonunique_memory in Ei as ->.
    assert (Hd : stored_datum key d = d).
    { unfold stored_datum. fold (is_xspec (specified key)). by rewrite Hx. }
    rewrite Hd in *. set (n := AvNode (brk h) key d 0) in *.
    exists n, h1. split; [done|]. split_and!.
    + eapply te_inv_add; try done.
      * split; [by apply plain_key_ok|]. split; [|done]. simpl. case_Z; done.
      * intros m Hm He. by rewrite (proj2 (te_search h key m Hi Hk) (conj Hm He)) in E.
    + rewrite Hp. by left.
    + done.
    + unfold av. by rewrite avtab_search_datum, E.
    + done.
    + intros m Hne. rewrite Hp, elem_of_cons. split; [|by right]. intros [->|?]; [|done].
      by destruct Hne.
Qed.

(** ** One edit *)

Lemma set_datum_te h node d :
  te_inv h -> node ∈ avtab_nodes h -> datum_ok (akey node) d ->
  te_inv (set_datum h node d) /\ with_datum node d ∈ avtab_nodes (set_datum h node d) /\
  same_outside (eq (akey node)) h (set_datum h node d).
Proof.
  intros [Hi Hs] Hn Hd. pose proof (set_datum_elem h node d) as Hel. split_and!.
  - split; [by apply set_datum_inv|]. rewrite Forall_forall in Hs |- *. intros m.
    rewrite Hel by done. intros [-> | [Hm _]]; [by apply (Hs node)|by apply Hs].
  - apply Hel; auto.
  - intros m Hne. rewrite Hel by done. split.
    + intros [-> | [? _]]; [by destruct Hne|done].
    + intros Hm. right. split; [done|]. by intros ->.
Qed.

Lemma remove_te h node node0 :
  te_inv h -> node ∈ avtab_nodes h -> addr node0 = addr node -> akey node0 = akey node ->
  plain_key (akey node) ->
  exists h', avtab_remove_node (Some h) node0 = (0, Some h') /\ te_inv h' /\
    same_outside (eq (akey node)) h h' /\ avtab_search (Some h') (akey node) = None.
Proof.
  intros [Hi Hs] Hn Ha Hk Hp0. pose proof Hi as (Hwf & _).
  destruct (avtab_remove_spec h node node0 Hwf Hn Ha Hk) as (h' & Hr & Hwf' & Hp).
  assert (Hte : te_inv h').
  { split; [by eapply inv_remove|]. rewrite Hp in Hs. by apply Forall_cons in Hs as [_ ?]. }
  exists h'. split_and!; try done.
  - intros m Hne. rewrite Hp, elem_of_cons. split; [by right|]. intros [->|?]; [|done].
    by destruct Hne.
  - rewrite avtab_search_datum. destruct (avtab_search_node (Some h') (akey node)) as [m|] eqn:E; [|done].
    exfalso. apply te_search in E as [Hm He]; [|done..].
    pose proof (inv_addrs h Hi) as Hnd. rewrite Hp, fmap_cons in Hnd.
    apply NoDup_cons in Hnd as [Hni _]. apply Hni. rewrite list_elem_of_fmap. exists m.
    split; [|done]. f_equal. destruct Hi as (_ & _ & Hu).
    apply Hu; [rewrite Hp; by left|rewrite Hp; by right|by rewrite He|]. by apply Hp0.
Qed.

Lemma new_av_range old perm invert : 0 <= old < 2 ^ 32 -> 0 <= new_av old perm invert < 2 ^ 32.
Proof.
  intros Ho. unfold new_av. destruct invert, perm as [p|]; try lia.
  - apply land_range; [done|apply u32_range].
  - apply lor_range; [done|apply u32_range].
Qed.

(** The body of [add_rule_one] for a key. *)
Definition edit_key (perm : option perm_datum) (invert : bool) (key : avtab_key) (s : state) :
    option state :=
  let (db, o) := s in
  match get_avtab_node (te_avtab db) key None o with
  | Some (Some node, h, o) =>
      let d := AvDatum (new_av (data (adatum node)) perm invert) (xperms (adatum node)) in
      let h := set_datum h node d in
      let node := AvNode (addr node) (akey node) d (merged node) in
      let h := if is_redundant node then default h (avtab_remove_node (Some h) node).2 else h in
      Some (set_te_avtab db h, o)
  | _ => None
  end.

(** Keys of access vectors. *)
Definition av_key (k : avtab_key) : Prop :=
  key_range k /\ specified k ∈ [AVTAB_ALLOWED; AVTAB_AUDITALLOW; AVTAB_AUDITDENY].

Lemma av_key_plain k : av_key k -> plain_key k.
Proof.
  intros [Hr Hs]. set_unfold in Hs. destruct Hs as [E|[E|[E|[]]]]; rewrite <-?E in *;
    (split; [done|]); unfold plain_key; rewrite E; (split; [|done]); unfold specs; set_solver.
Qed.

Lemma is_redundant_default n :
  av_key (akey n) -> is_redundant n = (data (adatum n) =? av_default (specified (akey n))).
Proof.
  intros [_ Hs]. unfold is_redundant, av_default. set_unfold in Hs.
  destruct Hs as [E|[E|[E|[]]]]; by rewrite E.
Qed.

Lemma edit_key_spec perm invert key db :
  te_inv (te_avtab db) -> av_key key ->
  exists h', edit_key perm invert key (db, []) = Some (set_te_avtab db h', []) /\ te_inv h' /\
    same_outside (eq key) (te_avtab db) h' /\
    av h' key = new_av (av (te_avtab db) key) perm invert.
Proof.
  intros Hi Hak. pose proof (av_key_plain _ Hak) as Hk.
  destruct (get_avtab_node_spec (te_avtab db) key Hi Hk)
    as (node & h1 & Hg & Hi1 & Hn & He & Hd & Hx & Hs1).
  unfold edit_key. rewrite Hg, Hd, Hx. set (v := new_av _ perm invert).
  assert (Hdok : datum_ok (akey node) (AvDatum v None)).
  { split; simpl; [|rewrite He; by apply Hk]. apply new_av_range. rewrite <-Hd.
    destruct Hi1 as ((_ & Hg1 & _) & _). rewrite Forall_forall in Hg1. by destruct (Hg1 node Hn) as [_ [? _]]. }
  destruct (set_datum_te h1 node (AvDatum v None) Hi1 Hn Hdok) as (Hi2 & Hin2 & Hs2).
  fold (with_datum node (AvDatum v None)). set (n2 := with_datum node (AvDatum v None)) in *.
  set (h2 := set_datum h1 node (AvDatum v None)) in *.
  assert (Hs12 : same_outside (eq key) (te_avtab db) h2).
  { intros m Hne. rewrite <-(Hs1 m Hne). rewrite <-He in Hne. by apply Hs2. }
  rewrite is_redundant_default by (unfold n2, with_datum; simpl; by rewrite He).
  destruct (Z.eqb_spec (data (adatum n2)) (av_default (specified (akey n2)))) as [Er|Er].
  - destruct (remove_te h2 n2 n2 Hi2 Hin2 eq_refl eq_refl) as (h3 & -> & Hi3 & Hs3 & Hnone);
      [unfold n2, with_datum; simpl; by rewrite He|].
    change (akey n2) with (akey node) in Hs3, Hnone, Er. change (data (adatum n2)) with v in Er.
    rewrite He in Hs3, Hnone, Er.
    exists h3. split_and!; try done.
    + intros m Hne. rewrite (Hs3 m Hne). by apply Hs12.
    + unfold av at 1. by rewrite Hnone.
  - exists h2. split_and!; try done. by apply (av_found h2 key n2).
Qed.

(** ** Loops of edits *)

Lemma for_each_app {A S} (f : A -> S -> option S) l1 l2 s :
  for_each f (l1 ++ l2) s = match for_each f l1 s with Some s' => for_each f l2 s' | None => None end.
Proof.
  revert s. induction l1 as [|a l1 IH]; intros s; simpl; [done|]. by destruct (f a s).
Qed.

(** A loop over loops, when the inner lists do not depend on the state. *)
Lemma for_each_bind {A B S} (P : S -> Prop) (f : B -> S -> option S) (g : A -> S -> option S)
    (bs : A -> list B) l s :
  (forall b s s', P s -> f b s = Some s' -> P s') ->
  (forall a s, P s -> g a s = for_each f (bs a) s) ->
  P s -> for_each g l s = for_each f (concat (map bs l)) s.
Proof.
  intros Hf Hg. revert s. induction l as [|a l IH]; intros s Hs; simpl; [done|].
  rewrite for_each_app, Hg by done. destruct (for_each f (bs a) s) as [s1|] eqn:E; [|done].
  apply IH. clear -Hf Hs E. revert s Hs E. induction (bs a) as [|b l IH]; simpl; intros s Hs E.
  - by simplify_eq.
  - destruct (f b s) as [s2|] eqn:E2; [|done]. by eapply IH; [eapply Hf|].
Qed.

(** The symbol tables of a policy are not changed by editing rules. *)
Definition same_symbols (db : policydb) (s : state) : Prop :=
  p_types s.1 = p_types db /\ p_classes s.1 = p_classes db.

Lemma edit_key_symbols perm invert db0 key s s' :
  same_symbols db0 s -> edit_key perm invert key s = Some s' -> same_symbols db0 s'.
Proof.
  destruct s as [db o]. unfold edit_key, same_symbols. intros Hs.
  destruct (get_avtab_node _ _ _ _) as [[[[n|] h] o1]|]; [|done..].
  cbv zeta. match goal with |- Some (set_te_avtab db ?h, _) = _ -> _ => generalize h end.
  intros h' E. injection E as <-. exact Hs.
Qed.

(** What a source, target or class argument ranges over. *)
Definition choose {A} (x : option A) (all : list A) : list A :=
  match x with Some a => [a] | None => all end.

Definition types_of (db : policydb) (effect : Z) (invert : bool) : list type_datum :=
  if strip_av effect invert then hashtab_data (table (p_types db)) else attrs (table (p_types db)).

Definition rule_key (effect : Z) (src tgt : type_datum) (cls : class_datum) : avtab_key :=
  AvKey (u16 (ty_value src)) (u16 (ty_value tgt)) (u16 (cls_value cls)) (u16 effect).

(** The keys an [add_rule] edits, in the order of the loops. *)
Definition rule_keys (db : policydb) (src tgt : option type_datum) (cls : option class_datum)
    (effect : Z) (invert : bool) : list avtab_key :=
  concat (map (fun s => concat (map (fun t => map (rule_key effect s t)
      (choose cls (hashtab_data (table (p_classes db)))))
    (choose tgt (types_of db effect invert))))
  (choose src (types_of db effect invert))).

Lemma elem_of_rule_keys db src tgt cls effect invert k :
  k ∈ rule_keys db src tgt cls effect invert <->
  exists s t c, s ∈ choose src (types_of db effect invert) /\
    t ∈ choose tgt (types_of db effect invert) /\
    c ∈ choose cls (hashtab_data (table (p_classes db))) /\ k = rule_key effect s t c.
Proof.
  unfold rule_keys. rewrite list_elem_of_In, in_concat. setoid_rewrite in_map_iff.
  split.
  - intros (l1 & (s & <- & Hs) & Hk). rewrite in_concat in Hk.
    destruct Hk as (l2 & (t & <- & Ht)%in_map_iff & (c & <- & Hc)%in_map_iff).
    exists s, t, c. by rewrite !list_elem_of_In.
  - intros (s & t & c & Hs & Ht & Hc & ->). rewrite !list_elem_of_In in *.
    eexists. split; [by exists s|]. rewrite in_concat. eexists. split; [by apply in_map_iff; exists t|].
    apply in_map_iff. by exists c.
Qed.

Lemma for_each_map {A B S} (f : B -> S -> option S) (g : A -> B) l s :
  for_each (fun a => f (g a)) l s = for_each f (map g l) s.
Proof. revert s. induction l as [|a l IH]; intros s; simpl; [done|]. by destruct (f (g a) s). Qed.

Lemma for_each_one {A S} (f : A -> S -> option S) a s : for_each f [a] s = f a s.
Proof. simpl. by destruct (f a s). Qed.

(** [add_rule] is one edit for each of its keys. *)
Lemma add_rule_keys db src tgt cls perm effect invert o :
  add_rule src tgt cls perm effect invert (db, o) =
  for_each (edit_key perm invert) (rule_keys db src tgt cls effect invert) (db, o).
Proof.
  set (E := edit_key perm invert).
  assert (Hcls : forall s t st, same_symbols db st ->
    add_rule_cls s t cls perm effect invert st =
    for_each E (map (rule_key effect s t) (choose cls (hashtab_data (table (p_classes db))))) st).
  { intros s t st [_ Hst]. unfold add_rule_cls. rewrite <-for_each_map. destruct cls as [c|].
    - cbn [choose]. rewrite (for_each_one (fun c => E (rule_key effect s t c))). done.
    - rewrite Hst. done. }
  assert (Htgt : forall s st, same_symbols db st ->
    add_rule_tgt s tgt cls perm effect invert st =
    for_each E (concat (map (fun t => map (rule_key effect s t)
      (choose cls (hashtab_data (table (p_classes db))))) (choose tgt (types_of db effect invert)))) st).
  { intros s st Hst. unfold add_rule_tgt. destruct tgt as [t|]; cbn [choose].
    - simpl. rewrite app_nil_r. by apply Hcls.
    - replace (if strip_av effect invert then _ else _) with (types_of db effect invert)
        by (unfold types_of; by rewrite (proj1 Hst)).
      apply (for_each_bind (same_symbols db)); [|intros; by apply Hcls|done].
      intros k s1 s2. apply edit_key_symbols. }
  unfold add_rule, rule_keys. destruct src as [s|]; cbn [choose].
  - rewrite Htgt by done. simpl. by rewrite app_nil_r.
  - apply (for_each_bind (same_symbols db)); [|intros; by apply Htgt|done].
    intros k s1 s2. apply edit_key_symbols.
Qed.

Lemma new_av_idem x perm invert : new_av (new_av x perm invert) perm invert = new_av x perm invert.
Proof.
  unfold new_av. destruct invert, perm as [p|]; try done.
  - by rewrite <-Z.land_assoc, Z.land_diag.
  - by rewrite <-Z.lor_assoc, Z.lor_diag.
Qed.

Lemma set_te_avtab_twice db h h' : set_te_avtab (set_te_avtab db h) h' = set_te_avtab db h'.
Proof. done. Qed.

(** All edits together: each selected vector is changed once. *)
Lemma for_each_edit perm invert ks db :
  te_inv (te_avtab db) -> Forall av_key ks ->
  exists h', for_each (edit_key perm invert) ks (db, []) = Some (set_te_avtab db h', []) /\
    te_inv h' /\ same_outside (fun k => k ∈ ks) (te_avtab db) h' /\
    forall k, k ∈ ks -> av h' k = new_av (av (te_avtab db) k) perm invert.
Proof.
  intros Hi Hf. revert db Hi. induction Hf as [|key ks Hk Hf IH]; intros db Hi; cbn [for_each].
  { exists (te_avtab db). split_and!; try done; [by destruct db|]. by intros k ?%elem_of_nil. }
  destruct (edit_key_spec perm invert key db Hi Hk) as (h1 & -> & Hi1 & Hs1 & Hav1).
  destruct (IH (set_te_avtab db h1) Hi1) as (h' & -> & Hi' & Hs' & Hav').
  exists h'. rewrite set_te_avtab_twice. split_and!; try done.
  - intros n Hn. rewrite elem_of_cons in Hn. rewrite (Hs' n) by tauto. apply Hs1.
    intros E. apply Hn. by left.
  - intros k Hin. assert (Hpk : plain_key k).
    { apply av_key_plain. rewrite Forall_forall in Hf. apply elem_of_cons in Hin as [->|?]; auto. }
    destruct (decide (k ∈ ks)) as [Hks|Hks].
    + rewrite Hav' by done. change (te_avtab (set_te_avtab db h1)) with h1.
      destruct (decide (k = key)) as [->|Hne]; [by rewrite Hav1, new_av_idem|].
      f_equal. apply (same_outside_av (eq key)); done.
    + apply elem_of_cons in Hin as [->|?]; [|done].
      rewrite (same_outside_av (fun k => k ∈ ks) h1 h'); done.
Qed.

(** * [strip_dontaudit], [set_type_state] and [add_type_rule] *)

#[local] Opaque avtab_hash u32 strip_enabled.

(** ** Removing the dontaudit rules *)

Lemma remove_dims h node h' :
  (avtab_remove_node (Some h) node).2 = Some h' -> av_nslot h' = av_nslot h /\ av_mask h' = av_mask h.
Proof.
  unfold avtab_remove_node. destruct (av_htable h) as [t|]; [|by intros [= <-]].
  destruct (detach _ _); by intros [= <-].
Qed.

Lemma strip_node_spec h n :
  avtab_inv h -> n ∈ avtab_nodes h ->
  avtab_inv (strip_node h n) /\ av_nslot (strip_node h n) = av_nslot h /\
  av_mask (strip_node h n) = av_mask h /\
  forall m, m ∈ avtab_nodes (strip_node h n) <->
    m ∈ avtab_nodes h /\ ~ (m = n /\ is_dontaudit n = true).
Proof.
  intros Hi Hn. pose proof Hi as (Hwf & _). unfold strip_node. destruct (is_dontaudit n) eqn:Hd; cycle 1.
  { split_and!; try done. intros m. split; [intros; split; [done|by intros [_ ?]]|tauto]. }
  destruct (avtab_remove_spec h n n Hwf Hn eq_refl eq_refl) as (h' & Hr & Hwf' & Hp).
  destruct (remove_dims h n h' ltac:(by rewrite Hr)) as [Hns Hm]. rewrite Hr. simpl.
  split_and!; try done; [by eapply inv_remove|]. intros m.
  pose proof (inv_addrs h Hi) as Hnd. rewrite Hp in Hnd |- *. rewrite fmap_cons in Hnd.
  apply NoDup_cons in Hnd as [Hni _]. rewrite elem_of_cons. split; [|tauto].
  intros Hm'. split; [by right|]. intros [-> _]. apply Hni. rewrite list_elem_of_fmap. eauto.
Qed.

Lemma strip_nodes_spec l h :
  avtab_inv h -> NoDup l -> (forall n, n ∈ l -> n ∈ avtab_nodes h) ->
  avtab_inv (foldl strip_node h l) /\ av_nslot (foldl strip_node h l) = av_nslot h /\
  av_mask (foldl strip_node h l) = av_mask h /\
  forall m, m ∈ avtab_nodes (foldl strip_node h l) <->
    m ∈ avtab_nodes h /\ ~ (m ∈ l /\ is_dontaudit m = true).
Proof.
  revert h. induction l as [|n l IH]; intros h Hi Hnd Hin; cbn [foldl].
  { split_and!; try done. intros m. split; [intros; split; [done|by intros [?%elem_of_nil _]]|tauto]. }
  apply NoDup_cons in Hnd as [Hni Hnd].
  destruct (strip_node_spec h n Hi (Hin n ltac:(by left))) as (Hi1 & Hs1 & Hm1 & Hel1).
  destruct (IH (strip_node h n) Hi1 Hnd) as (Hi2 & Hs2 & Hm2 & Hel2).
  { intros m Hm. apply Hel1. split; [apply Hin; by right|]. by intros [-> _]. }
  split_and!; [done|congruence..|]. intros m. rewrite Hel2, Hel1, elem_of_cons. split.
  - intros [[Hm Hn1] Hn2]. split; [done|]. intros [[->|Hml] Hd]; [by apply Hn1|by apply Hn2].
  - intros [Hm Hn1]. split; [split; [done|]|]; intros Hc; apply Hn1; destruct Hc as [E Hd].
    + subst. auto.
    + auto.
Qed.

(** The chain of a slot holds the nodes that hash to it. *)
Lemma slot_elem nslot mask t i n :
  av_table_wf nslot mask t -> (i < length t)%nat ->
  n ∈ av_slot t (Z.of_nat i) <-> n ∈ concat t /\ avtab_hash (akey n) mask = Z.of_nat i.
Proof.
  intros Htw Hi. destruct (lookup_lt_is_Some_2 t i Hi) as [c Hc].
  unfold av_slot. rewrite Nat2Z.id, Hc. simpl. pose proof Htw as (_ & _ & _ & Hcs). split.
  - intros Hn. split; [apply elem_of_concat; eauto|]. destruct (Hcs i c Hc) as [_ Hf].
    rewrite Forall_forall in Hf. by apply Hf.
  - intros [Hn Hh]. apply elem_of_concat in Hn as (j & d & Hj & Hnd).
    destruct (Hcs j d Hj) as [_ Hf]. rewrite Forall_forall in Hf. destruct (Hf n Hnd) as [_ Hh'].
    assert (i = j) as -> by lia. congruence.
Qed.

Lemma strip_slot_spec h i :
  avtab_inv h -> (i < Z.to_nat (av_nslot h))%nat ->
  avtab_inv (strip_slot h i) /\ av_nslot (strip_slot h i) = av_nslot h /\
  av_mask (strip_slot h i) = av_mask h /\
  forall m, m ∈ avtab_nodes (strip_slot h i) <->
    m ∈ avtab_nodes h /\
    ~ (avtab_hash (akey m) (av_mask h) = Z.of_nat i /\ is_dontaudit m = true).
Proof.
  intros Hi Hlt. pose proof Hi as (Hwf & _). pose proof Hwf as (t & Ht & Htw & [Hnd _] & _).
  pose proof Htw as (? & _ & Hlen & _). unfold strip_slot. rewrite Ht.
  assert (Hsl : forall n, n ∈ av_slot t (Z.of_nat i) <->
    n ∈ avtab_nodes h /\ avtab_hash (akey n) (av_mask h) = Z.of_nat i).
  { intros n. rewrite (avtab_nodes_concat h t Ht Htw). apply (slot_elem (av_nslot h)); [done|lia]. }
  destruct (strip_nodes_spec (av_slot t (Z.of_nat i)) h Hi) as (Hi' & Hs & Hm & Hel).
  - destruct (lookup_lt_is_Some_2 t i ltac:(lia)) as [c Hc]. unfold av_slot. rewrite Nat2Z.id, Hc. simpl.
    destruct (concat_lookup t i c Hc) as (l & r & El). rewrite El, !fmap_app in Hnd.
    apply NoDup_app in Hnd as (_ & _ & Hnd). apply NoDup_app in Hnd as (Hnd & _ & _).
    by eapply NoDup_fmap_1.
  - intros n Hn. by apply Hsl in Hn as [? _].
  - split_and!; try done. intros m. rewrite Hel, Hsl. tauto.
Qed.

Lemma strip_dontaudit_spec h :
  avtab_inv h ->
  avtab_inv (strip_dontaudit h) /\
  forall m, m ∈ avtab_nodes (strip_dontaudit h) <-> m ∈ avtab_nodes h /\ is_dontaudit m = false.
Proof.
  intros Hi. unfold strip_dontaudit.
  assert (Hgen : forall k i h0, avtab_inv h0 -> av_nslot h0 = av_nslot h -> av_mask h0 = av_mask h ->
    (i + k = Z.to_nat (av_nslot h))%nat ->
    avtab_inv (foldl strip_slot h0 (seq i k)) /\
    forall m, m ∈ avtab_nodes (foldl strip_slot h0 (seq i k)) <->
      m ∈ avtab_nodes h0 /\
      ~ (Z.of_nat i <= avtab_hash (akey m) (av_mask h) < av_nslot h /\ is_dontaudit m = true)).
  { induction k as [|k IH]; intros i h0 Hi0 Hs Hm Hk; cbn [seq foldl].
    - split; [done|]. intros m. split; [intros Hin; split; [done|]|tauto]. lia.
    - destruct (strip_slot_spec h0 i Hi0 ltac:(lia)) as (Hi1 & Hs1 & Hm1 & Hel1).
      destruct (IH (S i) (strip_slot h0 i) Hi1) as [Hi2 Hel2]; [congruence..|lia|].
      split; [done|]. intros m. rewrite Hel2, Hel1, Hm.
      generalize (avtab_hash (akey m) (av_mask h)). intros hv. split.
      + intros [[Hm0 Hn1] Hn2]. split; [done|]. intros [Hr Hd].
        destruct (decide (hv = Z.of_nat i)); [by apply Hn1|]. apply Hn2. split; [lia|done].
      + intros [Hm0 Hn1]. split; [split; [done|]|]; intros [Hr Hd]; apply Hn1; (split; [lia|done]). }
  destruct (Hgen (Z.to_nat (av_nslot h)) 0%nat h Hi eq_refl eq_refl eq_refl) as [Hi' Hel].
  split; [done|]. intros m. rewrite Hel. pose proof Hi as ((t & Ht & (Hsz & Hmask & _) & _) & _).
  pose proof (avtab_hash_range (akey m) (av_mask h) ltac:(lia)).
  rewrite <-not_true_iff_false. split; intros [Hm Hn]; (split; [done|]).
  - intros Hd. apply Hn. split; [lia|done].
  - intros [_ Hd]. by apply Hn.
Qed.

(** ** Permissive types *)

Lemma set_bit_loop_memory prev n hb bit value :
  (set_bit_loop prev n hb bit value []).2 = [].
Proof.
  revert prev. induction n as [|a n IH]; intros prev; cbn [set_bit_loop malloc].
  { by destruct value. }
  destruct (startbit a <=? bit); [|by destruct value].
  destruct (bit <? _).
  - destruct value; [done|]. by destruct (truthy _).
  - specialize (IH (Some a)). by destruct (set_bit_loop (Some a) n hb bit value []) as [[rc [l hb']] o].
Qed.

Lemma ebitmap_set_bit_memory e bit value rc e' o' :
  ebitmap_set_bit e bit value [] = (rc, e', o') -> o' = [].
Proof.
  unfold ebitmap_set_bit. pose proof (set_bit_loop_memory None (node e) (highbit e) bit value) as H.
  destruct (_ =? 0); [congruence|].
  destruct (set_bit_loop None (node e) (highbit e) bit value []) as [[rc1 [l hb']] o1].
  simpl in H. congruence.
Qed.

Lemma set_permissive_spec l e permissive :
  ebitmap_wf e -> Forall (fun t => 0 <= ty_value t < 2 ^ 32 - MAPSIZE) l ->
  exists e', set_permissive l e permissive [] = (e', []) /\ ebitmap_wf e' /\
    forall b, ebitmap_mem e' b =
      if bool_decide (b ∈ (ty_value <$> l)) then permissive else ebitmap_mem e b.
Proof.
  intros Hwf Hf. revert e Hwf. induction Hf as [|t l Ht Hf IH]; intros e Hwf; cbn [set_permissive].
  { exists e. split_and!; try done. }
  destruct (ebitmap_set_bit e (ty_value t) permissive []) as [[rc e1] o1] eqn:E.
  destruct (ebitmap_set_bit_spec e (ty_value t) permissive [] rc e1 o1 Hwf Ht E)
    as [Hwf1 [[-> Hm]|(_ & _ & _ & ?)]]; [|done].
  apply ebitmap_set_bit_memory in E as ->.
  destruct (IH e1 Hwf1) as (e' & -> & Hwf' & Hm'). exists e'. split_and!; try done.
  intros b. rewrite Hm', Hm, fmap_cons.
  rewrite (bool_decide_ext (b ∈ ty_value t :: (ty_value <$> l)) (b = ty_value t \/ b ∈ (ty_value <$> l)))
    by apply elem_of_cons.
  destruct (Z.eqb_spec b (ty_value t)) as [->|Hne].
  - rewrite (bool_decide_eq_true_2 (_ \/ _)) by (by left). by case_bool_decide.
  - rewrite (bool_decide_ext (b = ty_value t \/ _) (b ∈ (ty_value <$> l))) by tauto. done.
Qed.

(** ** Type rules *)

Definition type_key (k : avtab_key) : Prop :=
  key_range k /\ specified k ∈ [AVTAB_TRANSITION; AVTAB_MEMBER; AVTAB_CHANGE].

Lemma type_key_plain k : type_key k -> plain_key k.
Proof.
  intros [Hr Hs]. set_unfold in Hs. destruct Hs as [E|[E|[E|[]]]];
    (split; [done|]); rewrite E; (split; [|done]); unfold specs; set_solver.
Qed.

Lemma set_type_spec db key v :
  te_inv (te_avtab db) -> type_key key -> 0 <= v < 2 ^ 32 ->
  exists node h1 h', get_avtab_node (te_avtab db) key None [] = Some (Some node, h1, []) /\
    h' = set_datum h1 node (AvDatum v (xperms (adatum node))) /\ te_inv h' /\
    same_outside (eq key) (te_avtab db) h' /\ avtab_search (Some h') key = Some (AvDatum v None).
Proof.
  intros Hi Hk Hv. pose proof (type_key_plain _ Hk) as Hpk.
  destruct (get_avtab_node_spec (te_avtab db) key Hi Hpk)
    as (node & h1 & Hg & Hi1 & Hn & He & Hd & Hx & Hs1).
  assert (Hdok : datum_ok (akey node) (AvDatum v None)).
  { split; [done|]. simpl. rewrite He. by apply Hpk. }
  destruct (set_datum_te h1 node (AvDatum v None) Hi1 Hn Hdok) as (Hi2 & Hin2 & Hs2).
  exists node, h1, (set_datum h1 node (AvDatum v None)). rewrite Hx. split_and!; try done.
  - intros m Hne. rewrite <-(Hs1 m Hne). rewrite <-He in Hne. by apply Hs2.
  - rewrite avtab_search_datum.
    rewrite (proj2 (te_search _ key (with_datum node (AvDatum v None)) Hi2 Hpk) (conj Hin2 He)).
    done.
Qed.
