(* ===== verification/SepolicyProps.v ===== *)
(** * The properties of the policy editor, with concrete instances *)

From S2P Require Import Prelude Policyfile Ebitmap EbitmapSpec Hashtab HashtabSpec Symtab Avtab AvtabSpec AvtabRules Policydb Sepolicy.
From S2P Require Import SepolicySpec.

(** ** A small policy *)

(** The symbol table with the given names, built by the code. *)
Definition mk_symtab {D} (l : list (list Z * D)) : symtab D :=
  let h := (hashtab_create 2 []).1 in
  Symtab (foldl (fun h kd => (hashtab_insert h kd.1 kd.2 []).1.2) h l) (Z.of_nat (length l)).

(** Types "s" = 1 and "t" = 2, attribute "d" = 3; class "f" = 4 with permissions "r" = 1
    and "w" = 2. *)
Definition ex_types : symtab type_datum :=
  mk_symtab [([115], plain_type 1 1 TYPE_TYPE); ([116], plain_type 2 1 TYPE_TYPE);
             ([100], plain_type 3 1 TYPE_ATTRIB)].
Definition ex_class : class_datum :=
  plain_class 4 (mk_symtab [([114], PermDatum 1); ([119], PermDatum 2)]) [].
Definition ex_classes : symtab class_datum := mk_symtab [([102], ex_class)].

Definition ex_te : avtab := (avtab_alloc (Avtab None 0 0 0 0) 3 []).1.2.

Definition ex_db : policydb :=
  Policydb POLICY_KERN SEPOL_TARGET_SELINUX 30 (plain_symtabs ex_types ex_classes) ex_te None 0 [] [] []
    ebitmap_init 0 [] [] no_indexes [].

Lemma ex_te_inv : te_inv ex_te.
Proof.
  destruct (avtab_alloc (Avtab None 0 0 0 0) 3 []) as [[rc h] o] eqn:E.
  assert (ex_te = h) as -> by (unfold ex_te; by rewrite E).
  destruct (avtab_alloc_spec _ 3 _ _ _ _ ltac:(lia) E) as [(_ & Hwf & Hn & _)|(_ & ? & _)]; [|done].
  split; [|by rewrite Hn]. split_and!; [done|by rewrite Hn|]. rewrite Hn. by intros ? ? ?%elem_of_nil.
Qed.

(** ** Rules *)

Lemma rule_keys_av db src tgt cls effect invert :
  effect ∈ [AVTAB_ALLOWED; AVTAB_AUDITALLOW; AVTAB_AUDITDENY] ->
  Forall av_key (rule_keys db src tgt cls effect invert).
Proof.
  intros He. apply Forall_forall. intros k (s & t & c & _ & _ & _ & ->)%elem_of_rule_keys.
  assert (Hu : u16 effect = effect) by (set_unfold in He; by destruct He as [->|[->|[->|[]]]]).
  split; simpl; [|by rewrite Hu]. split_and!; apply u16_range.
Qed.

(** C3: [add_rule] edits exactly the access vectors it names.  With memory available it
    never dereferences a null node; every selected (source, target, class) has the
    permission added (or removed, with [invert]; all of them when no permission is
    given), where an omitted source or target ranges over all types when rules are
    stripped and over all attributes otherwise and an omitted class over all classes;
    every other rule keeps its node; vectors equal to the default are dropped, and the
    invariant of the table holds again. *)
Theorem add_rule_correct db src tgt cls perm effect invert :
  te_inv (te_avtab db) -> effect ∈ [AVTAB_ALLOWED; AVTAB_AUDITALLOW; AVTAB_AUDITDENY] ->
  let selected k := exists s t c,
    s ∈ choose src (types_of db effect invert) /\ t ∈ choose tgt (types_of db effect invert) /\
    c ∈ choose cls (hashtab_data (table (p_classes db))) /\ k = rule_key effect s t c in
  exists h', add_rule src tgt cls perm effect invert (db, []) = Some (set_te_avtab db h', []) /\
    te_inv h' /\
    (forall k, selected k -> av h' k = new_av (av (te_avtab db) k) perm invert) /\
    (forall k, plain_key k -> ~ selected k -> av h' k = av (te_avtab db) k) /\
    same_outside selected (te_avtab db) h'.
Proof.
  intros Hi He selected. rewrite add_rule_keys.
  destruct (for_each_edit perm invert (rule_keys db src tgt cls effect invert) db Hi)
    as (h' & Hr & Hi' & Hs & Hav); [by apply rule_keys_av|].
  pose proof (elem_of_rule_keys db src tgt cls effect invert) as Hel. fold (selected) in Hel.
  exists h'. split_and!; try done.
  - intros k Hk. by apply Hav, Hel.
  - intros k Hp Hk. eapply same_outside_av; [done..|]. by rewrite Hel.
  - intros n Hn. apply Hs. by rewrite Hel.
Qed.

(** allow s * f { w }: the omitted target becomes the attribute "d". *)
Lemma add_rule_witness :
  exists h', add_rule (Some (plain_type 1 1 TYPE_TYPE)) None (Some ex_class) (Some (PermDatum 2))
      AVTAB_ALLOWED false (ex_db, []) = Some (set_te_avtab ex_db h', []) /\
    te_inv h' /\ av h' (AvKey 1 3 4 AVTAB_ALLOWED) = 2.
Proof.
  destruct (add_rule_correct ex_db (Some (plain_type 1 1 TYPE_TYPE)) None (Some ex_class)
    (Some (PermDatum 2)) AVTAB_ALLOWED false ex_te_inv ltac:(by left)) as (h' & Hr & Hi & Hav & _).
  exists h'. split; [exact Hr|]. split; [exact Hi|]. rewrite (Hav (AvKey 1 3 4 AVTAB_ALLOWED)).
  - vm_compute. reflexivity.
  - exists (plain_type 1 1 TYPE_TYPE), (plain_type 3 1 TYPE_ATTRIB), ex_class.
    split; [by left|]. split; [vm_compute; left|]. split; [by left|]. vm_compute. reflexivity.
Defined.

(** The datum a lookup found, as a list. *)
Definition option_list {A} (x : option A) : list A := match x with Some a => [a] | None => [] end.

(** Names of symbols that the buffer of [hashtab_find] can hold. *)
Definition name_ok (name : list Z) : Prop := cstring_ok name /\ (length name <= 255)%nat.

Lemma model_data {D} (h : hashtab_val (list Z) D) name d :
  hashtab_model h !! name = Some d -> d ∈ hashtab_data (Some h).
Proof.
  intros E. simpl. apply elem_of_list_to_map_2, elem_of_pairs in E.
  apply list_elem_of_fmap. by exists (HNode name d).
Qed.

Lemma name_c_str name : name_ok name -> c_str (take 255 name) = name.
Proof.
  intros [Hc Hl]. rewrite take_ge by lia. clear Hl.
  induction Hc as [|c s Hc Hs IH]; simpl; [done|]. case_Z; [lia|]. by rewrite IH.
Qed.

Lemma hashtab_find_model {D} (h : hashtab_val (list Z) D) name :
  hashtab_wf cstring_ok h -> name_ok name -> hashtab_find (Some h) name = hashtab_model h !! name.
Proof.
  intros Hwf Hn. unfold hashtab_find. rewrite name_c_str by done.
  apply (hashtab_search_spec cstring_ok); [done|apply Hn].
Qed.

(** Tables of names. *)
Definition named_table {D} (s : symtab D) (m : gmap (list Z) D) : Prop :=
  exists h, table s = Some h /\ hashtab_wf cstring_ok h /\ hashtab_model h = m.

(** The permission of a class: one of its own, or one it inherits from its common. *)
Definition has_perm (c : class_datum) (perm : list Z) (d : perm_datum) : Prop :=
  exists own, named_table (cls_permissions c) own /\
    (own !! perm = Some d \/
     own !! perm = None /\ exists com inherited,
       comdatum c = Some com /\ named_table (com_permissions com) inherited /\ inherited !! perm = Some d).

(** A class whose tables of permissions exist. *)
Definition perms_ok (c : class_datum) : Prop :=
  (exists own, named_table (cls_permissions c) own) /\
  forall com, comdatum c = Some com -> exists inherited, named_table (com_permissions com) inherited.

Lemma named_table_find {D} (s : symtab D) m name :
  named_table s m -> name_ok name -> hashtab_find (table s) name = m !! name.
Proof. intros (h & -> & Hw & <-) Hn. by apply hashtab_find_model. Qed.

Lemma named_table_inj {D} (s : symtab D) m1 m2 : named_table s m1 -> named_table s m2 -> m1 = m2.
Proof. intros (h1 & E1 & _ & <-) (h2 & E2 & _ & <-). congruence. Qed.

Lemma find_perm_has c perm :
  perms_ok c -> name_ok perm -> perm <> [] ->
  match find_perm (Some c) perm with
  | Some p => exists d, p = Some d /\ has_perm c perm d
  | None => forall d, ~ has_perm c perm d
  end.
Proof.
  intros [(own & Hown) Hcom] Hn Hne. destruct perm as [|x perm]; [done|]. cbn [find_perm].
  rewrite (named_table_find _ _ _ Hown Hn). destruct (own !! (x :: perm)) as [d|] eqn:Eo.
  { exists d. split; [done|]. exists own. auto. }
  assert (Hno : forall d, has_perm c (x :: perm) d -> exists com inherited,
    comdatum c = Some com /\ named_table (com_permissions com) inherited /\ inherited !! (x :: perm) = Some d).
  { intros d (own' & Hown' & Hd). rewrite (named_table_inj _ _ _ Hown' Hown) in Hd. destruct Hd as [|[_ ?]]; [congruence|done]. }
  destruct (comdatum c) as [com|] eqn:Ec; cycle 1.
  { intros d (com & inherited & ? & _)%Hno. done. }
  destruct (Hcom com eq_refl) as [inh Hinh]. rewrite (named_table_find _ _ _ Hinh Hn).
  destruct (inh !! (x :: perm)) as [d|] eqn:Ei.
  - exists d. split; [done|]. exists own. split; [done|]. right. split; [done|]. by exists com, inh.
  - intros d (com' & inh' & [= <-] & Hinh' & Ed)%Hno. rewrite (named_table_inj _ _ _ Hinh' Hinh) in Ed. congruence.
Qed.

(** C35: [add_rule] on names of at most 255 bytes, which is what the buffer of the lookup
    holds.  It returns false, and then leaves the policy as it was, exactly when a given
    source, target or class does not exist, when a given permission is neither one of the
    class nor one that the class inherits from its common, or when a permission is given
    without a class; otherwise it returns true and applies the rule to the named data, an
    empty name standing for every one. *)
Theorem add_rule_names_correct db types classes src tgt cls perm effect invert :
  te_inv (te_avtab db) -> effect ∈ [AVTAB_ALLOWED; AVTAB_AUDITALLOW; AVTAB_AUDITDENY] ->
  named_table (p_types db) types -> named_table (p_classes db) classes -> map_Forall (fun _ => perms_ok) classes ->
  name_ok src -> name_ok tgt -> name_ok cls -> name_ok perm ->
  exists b s', add_rule_str src tgt cls perm effect invert (db, []) = Some (b, s') /\
  (b = false /\ s' = (db, []) /\
     (src <> [] /\ types !! src = None \/ tgt <> [] /\ types !! tgt = None \/
      cls <> [] /\ classes !! cls = None \/
      perm <> [] /\ (cls = [] \/ exists c, classes !! cls = Some c /\ forall d, ~ has_perm c perm d)) \/
   b = true /\ exists p,
     (src = [] \/ is_Some (types !! src)) /\
     (tgt = [] \/ is_Some (types !! tgt)) /\
     (cls = [] \/ is_Some (classes !! cls)) /\
     (perm = [] /\ p = None \/ exists c d, cls <> [] /\ classes !! cls = Some c /\ p = Some d /\ has_perm c perm d) /\
     add_rule (match src with [] => None | _ => types !! src end)
       (match tgt with [] => None | _ => types !! tgt end)
       (match cls with [] => None | _ => classes !! cls end) p effect invert (db, []) =
     Some s').
Proof.
  intros Hi He Ht Hc Hpok Hns Hnt Hnc Hnp.
  assert (Hopt : forall D (s : symtab D) m name, named_table s m -> name_ok name ->
    find_opt (table s) name = match name with [] => Some None | _ =>
      match m !! name with Some d => Some (Some d) | None => None end end).
  { intros D s m name Hs Hn. unfold find_opt. destruct name; [done|]. by rewrite (named_table_find s m). }
  unfold add_rule_str. cbn [fst]. rewrite (Hopt _ _ _ _ Ht Hns), (Hopt _ _ _ _ Ht Hnt), (Hopt _ _ _ _ Hc Hnc).
  assert (Hret : forall a b c p, exists s', add_rule a b c p effect invert (db, []) = Some s').
  { intros a b c p. rewrite add_rule_keys.
    destruct (for_each_edit p invert (rule_keys db a b c effect invert) db Hi)
      as (h' & Hr & _); [by apply rule_keys_av|]. eauto. }
  assert (Hperm : match find_perm (match cls with [] => None | _ => classes !! cls end) perm with
    | Some p => cls <> [] -> is_Some (classes !! cls) -> perm <> [] -> exists c d, classes !! cls = Some c /\ p = Some d /\ has_perm c perm d
    | None => perm <> [] /\ (cls <> [] -> is_Some (classes !! cls) -> exists c, classes !! cls = Some c /\ forall d, ~ has_perm c perm d)
    end).
  { destruct (decide (perm = [])) as [->|Hpe]; [intros _ _ Hp; congruence|]. assert (Hno : find_perm None perm = None) by (by destruct perm).
    destruct cls as [|c0 cls]; [by rewrite Hno; split|].
    destruct (classes !! (c0 :: cls)) as [cd|] eqn:Ec; [|rewrite Hno; split; [done|by intros _ [? [=]]]].
    pose proof (find_perm_has cd perm (Hpok _ _ Ec) Hnp Hpe) as Hf. destruct (find_perm (Some cd) perm) as [p|].
    - intros _ _ _. destruct Hf as (d & -> & Hd). eauto.
    - split; [done|]. eauto. }
  assert (Hnone : find_perm None perm = Some None /\ perm = [] \/ find_perm None perm = None) by (destruct perm; [by left|by right]).
  assert (Hempty : forall c, find_perm c [] = Some None) by done.
  destruct src as [|s0 src]; [|destruct (types !! (s0 :: src)) as [sd|] eqn:Es];
    try (exists false, (db, []); split; [done|left]; split_and!; try done; left; done).
  all: destruct tgt as [|t0 tgt]; [|destruct (types !! (t0 :: tgt)) as [td|] eqn:Et];
    try (exists false, (db, []); split; [done|left]; split_and!; try done; right; left; done).
  all: destruct cls as [|c0 cls]; [|destruct (classes !! (c0 :: cls)) as [cd|] eqn:Ec];
    try (exists false, (db, []); split; [done|left]; split_and!; try done; right; right; left; done).
  all: destruct (find_perm _ perm) as [p|] eqn:Ep.
  all: try (exists false, (db, []); split; [done|left]; split_and!; try done; right; right; right;
    split; [by apply Hperm|]; first [by left|right; apply Hperm; by eauto]; fail).
  all: match goal with |- context [add_rule ?a ?b ?c ?p _ _ _] => destruct (Hret a b c p) as [s' Hadd] end;
    rewrite Hadd; exists true, s'; split; [done|right]; split; [done|]; exists p; split; [eauto|]; split; [eauto|]; split; [eauto|]; split; [|done].
  all: destruct (decide (perm = [])) as [->|Hpe]; [left; split; [done|]; rewrite Hempty in Ep; congruence|].
  all: first [right; destruct (Hperm ltac:(done) ltac:(eauto) Hpe) as (c & d & E1 & E2 & E3); by exists c, d
             |by destruct Hnone as [[_ ?]|?]; [|congruence]].
Qed.

(** Tables built by [mk_symtab] are well formed. *)
Lemma mk_symtab_wf {D} (l : list (list Z * D)) :
  Forall (fun kd => cstring_ok kd.1) l ->
  exists h, table (mk_symtab l) = Some h /\ hashtab_wf cstring_ok h.
Proof.
  intros Hl. unfold mk_symtab. cbn [table].
  assert (Hgen : forall h, hashtab_wf cstring_ok h ->
    exists h', foldl (fun h kd => (hashtab_insert h kd.1 kd.2 []).1.2) (Some h) l = Some h' /\
      hashtab_wf (D := D) cstring_ok h').
  { induction Hl as [|kd l Hk Hl IH]; intros h Hwf; cbn [foldl]; [eauto|].
    destruct (hashtab_insert (Some h) kd.1 kd.2 []) as [[rc h'] o'] eqn:E.
    destruct (hashtab_insert_spec cstring_ok h _ _ _ _ _ _ Hwf Hk E) as (t' & -> & Hwf' & _).
    by apply IH. }
  apply Hgen. split_and!; simpl; rewrite ?concat_replicate_nil; try done.
  by apply (table_wf_empty cstring_ok 2).
Qed.

Lemma ex_types_wf : exists h, table ex_types = Some h /\ hashtab_wf cstring_ok h.
Proof. apply mk_symtab_wf. repeat constructor; simpl; lia. Qed.

Lemma ex_classes_wf : exists h, table ex_classes = Some h /\ hashtab_wf cstring_ok h.
Proof. apply mk_symtab_wf. repeat constructor; simpl; lia. Qed.

(** A class [g] that inherits the permission [x] from its common and has [r] of its own. *)
Definition ex_common : common_datum := CommonDatum 1 (mk_symtab [([120], PermDatum 1)]).
Definition ex_class_g : class_datum :=
  ClassDatum 5 (Some [99]) (Some ex_common) (mk_symtab [([114], PermDatum 2)]) [] [] 0 0 0 0.
Definition ex_db_g : policydb :=
  Policydb POLICY_KERN SEPOL_TARGET_SELINUX 30 (plain_symtabs ex_types (mk_symtab [([102], ex_class); ([103], ex_class_g)])) ex_te None 0 [] [] []
    ebitmap_init 0 [] [] no_indexes [].

Lemma named_mk_symtab {D} (l : list (list Z * D)) :
  Forall (fun kd => cstring_ok kd.1) l -> exists m, named_table (mk_symtab l) m.
Proof. intros (h & E & Hw)%mk_symtab_wf. by exists (hashtab_model h), h. Qed.

Lemma ex_classes_g_perms : exists m, named_table (p_classes ex_db_g) m /\ map_Forall (fun _ => perms_ok) m.
Proof.
  destruct (mk_symtab_wf [([102], ex_class); ([103], ex_class_g)]) as (h & E & Hw); [repeat constructor; simpl; lia|].
  exists (hashtab_model h). split; [by exists h|]. intros k c Hk%model_data.
  assert (Hc : c = ex_class \/ c = ex_class_g).
  { rewrite <-E in Hk. replace (hashtab_data _) with [ex_class_g; ex_class] in Hk by (vm_compute; reflexivity).
    rewrite !elem_of_cons, elem_of_nil in Hk. destruct Hk as [->|[->|[]]]; [by right|by left]. }
  destruct Hc as [-> | ->]; split; try done.
  - apply named_mk_symtab. repeat constructor; simpl; lia.
  - apply named_mk_symtab. repeat constructor; simpl; lia.
  - intros com [= <-]. apply named_mk_symtab. repeat constructor; simpl; lia.
Qed.

(** allow s t g { x }, by names: the permission is inherited; and allow s t f { x }: the class
    f does not have it. *)
Lemma add_rule_names_witness :
  (exists s', add_rule_str [115] [116] [103] [120] AVTAB_ALLOWED false (ex_db_g, []) = Some (true, s')) /\
  add_rule_str [115] [116] [102] [120] AVTAB_ALLOWED false (ex_db_g, []) = Some (false, (ex_db_g, [])).
Proof.
  assert (Hn : forall c, 1 <= c < 2 ^ 8 -> name_ok [c]).
  { intros c Hc'. split; [constructor; [lia|constructor]|simpl; lia]. }
  destruct (named_mk_symtab [([115], plain_type 1 1 TYPE_TYPE); ([116], plain_type 2 1 TYPE_TYPE); ([100], plain_type 3 1 TYPE_ATTRIB)])
    as [types Ht]; [repeat constructor; simpl; lia|].
  destruct ex_classes_g_perms as (classes & Hc & Hp).
  pose proof (fun cls Hcls => add_rule_names_correct ex_db_g types classes [115] [116] cls [120] AVTAB_ALLOWED false
    ex_te_inv ltac:(by left) Ht Hc Hp (Hn 115 ltac:(lia)) (Hn 116 ltac:(lia)) Hcls (Hn 120 ltac:(lia))) as H.
  split.
  - destruct (H [103] (Hn 103 ltac:(lia))) as (b & s' & Hr & _). exists s'. rewrite Hr.
    assert (E : match add_rule_str [115] [116] [103] [120] AVTAB_ALLOWED false (ex_db_g, []) with Some (b, _) => b | None => false end = true)
      by (vm_compute; reflexivity).
    rewrite Hr in E. by rewrite E.
  - destruct (H [102] (Hn 102 ltac:(lia))) as (b & s' & Hr & [(-> & -> & _)|(-> & _)]); [exact Hr|].
    assert (E : match add_rule_str [115] [116] [102] [120] AVTAB_ALLOWED false (ex_db_g, []) with Some (b, _) => b | None => true end = false)
      by (vm_compute; reflexivity).
    rewrite Hr in E. discriminate E.
Defined.

(** C29: [strip_dontaudit] removes every dontaudit rule, extended ones included, and
    nothing else, although it frees nodes of the chains it walks; the table stays well
    formed. *)
Theorem strip_dontaudit_correct h :
  avtab_inv h ->
  avtab_inv (strip_dontaudit h) /\
  (forall n, n ∈ avtab_nodes (strip_dontaudit h) <->
     n ∈ avtab_nodes h /\ specified (akey n) <> AVTAB_AUDITDENY /\
     specified (akey n) <> AVTAB_XPERMS_DONTAUDIT) /\
  av_nel (strip_dontaudit h) = u32 (Z.of_nat (length (avtab_nodes (strip_dontaudit h)))).
Proof.
  intros Hi. destruct (strip_dontaudit_spec h Hi) as [Hi' Hel]. split_and!; [done| |].
  - intros n. rewrite Hel. unfold is_dontaudit. rewrite orb_false_iff, !Z.eqb_neq. done.
  - destruct Hi' as ((t & Ht & Htw & _ & Hn) & _). by rewrite (avtab_nodes_concat _ t Ht Htw).
Qed.

(** The rules after two edits: allow 1 2:4 and dontaudit 1 2:4. *)
Definition ex_te2 : avtab :=
  let edit k s := default s (edit_key (Some (PermDatum 2)) false k s) in
  let s := edit (AvKey 1 2 4 AVTAB_ALLOWED) (ex_db, []) in
  let s := (edit_key (Some (PermDatum 2)) true (AvKey 1 2 4 AVTAB_AUDITDENY) s) in
  te_avtab (default (ex_db, []) s).1.

Lemma ex_te2_inv : te_inv ex_te2.
Proof.
  unfold ex_te2.
  destruct (edit_key_spec (Some (PermDatum 2)) false (AvKey 1 2 4 AVTAB_ALLOWED) ex_db ex_te_inv)
    as (h1 & -> & Hi1 & _); [split; [split_and!; done|by left]|].
  destruct (edit_key_spec (Some (PermDatum 2)) true (AvKey 1 2 4 AVTAB_AUDITDENY)
    (set_te_avtab ex_db h1) Hi1) as (h2 & Hr & Hi2 & _); [split; [split_and!; done|by right; right; left]|].
  cbn [default from_option id]. rewrite Hr. exact Hi2.
Qed.

Lemma strip_dontaudit_witness :
  (akey <$> avtab_nodes ex_te2) = [AvKey 1 2 4 AVTAB_ALLOWED; AvKey 1 2 4 AVTAB_AUDITDENY] /\
  (akey <$> avtab_nodes (strip_dontaudit ex_te2)) = [AvKey 1 2 4 AVTAB_ALLOWED] /\
  avtab_inv (strip_dontaudit ex_te2).
Proof.
  split; [vm_compute; reflexivity|]. split; [vm_compute; reflexivity|].
  exact (proj1 (strip_dontaudit_correct ex_te2 (proj1 ex_te2_inv))).
Defined.

(** C33: [set_type_state] makes the named type permissive (or not), or every type when
    the name is empty, and no other; a type that does not exist is refused and the map
    stays as it was.  The map is indexed by the type's value. *)
Theorem set_type_state_correct db types name permissive :
  ebitmap_wf (permissive_map db) -> table (p_types db) = Some types ->
  hashtab_wf cstring_ok types -> name_ok name ->
  Forall (fun t => 0 <= ty_value t < 2 ^ 32 - MAPSIZE) (hashtab_data (Some types)) ->
  let '(b, (db', _)) := set_type_state name permissive (db, []) in
  ebitmap_wf (permissive_map db') /\
  (b = true <-> name = [] \/ is_Some (hashtab_model types !! name)) /\
  forall v, ebitmap_mem (permissive_map db') v =
    if bool_decide (v ∈ (ty_value <$> match name with
                                      | [] => hashtab_data (Some types)
                                      | _ => option_list (hashtab_model types !! name)
                                      end))
    then permissive else ebitmap_mem (permissive_map db) v.
Proof.
  intros Hwf Ht Hwt Hn Hv. unfold set_type_state. rewrite Ht. destruct name as [|c name].
  - destruct (set_permissive_spec _ (permissive_map db) permissive Hwf Hv) as (e' & -> & Hwf' & Hm).
    split_and!; [done| |done]. split; auto.
  - rewrite hashtab_find_model by done.
    destruct (hashtab_model types !! (c :: name)) as [t|] eqn:E; cycle 1.
    { split_and!; [done| |done]. split; [done|]. by intros [?|[? ?]]. }
    assert (Htv : 0 <= ty_value t < 2 ^ 32 - MAPSIZE).
    { rewrite Forall_forall in Hv. apply Hv. simpl.
      apply elem_of_list_to_map_2, elem_of_pairs in E.
      apply list_elem_of_fmap. by exists (HNode (c :: name) t). }
    destruct (ebitmap_set_bit (permissive_map db) (ty_value t) permissive []) as [[rc e1] o1] eqn:Es.
    destruct (EbitmapUpdate.ebitmap_set_bit_spec _ _ _ _ _ _ _ Hwf Htv Es)
      as [Hwf1 [[-> Hm]|(_ & _ & _ & ?)]]; [|done].
    change (truthy 0) with false. cbn match. split_and!; [done|split; eauto|].
    intros v. simpl. rewrite Hm. destruct (Z.eqb_spec v (ty_value t)) as [->|Hne].
    + rewrite bool_decide_eq_true_2; [done|]. by left.
    + rewrite bool_decide_eq_false_2; [done|]. by intros ->%list_elem_of_singleton.
Qed.

Lemma set_type_state_witness :
  exists db', set_type_state [116] true (ex_db, []) = (true, (db', [])) /\
    ebitmap_wf (permissive_map db') /\ ebitmap_get_bit (permissive_map db') 2 = 1.
Proof.
  destruct ex_types_wf as (types & Ht & Hwt).
  assert (Hv : Forall (fun t => 0 <= ty_value t < 2 ^ 32 - MAPSIZE) (hashtab_data (Some types))).
  { rewrite <-Ht. assert (E : hashtab_data (table ex_types) =
      [plain_type 3 1 TYPE_ATTRIB; plain_type 2 1 TYPE_TYPE; plain_type 1 1 TYPE_TYPE])
      by (vm_compute; reflexivity).
    rewrite E. repeat constructor; simpl; unfold MAPSIZE; lia. }
  pose proof (set_type_state_correct ex_db types [116] true ltac:(by split) Ht Hwt
    ltac:(split; [constructor; [lia|constructor]|simpl; lia]) Hv) as H.
  destruct (set_type_state [116] true (ex_db, [])) as [b [db' o']] eqn:E.
  assert (Eb : (b, o') = (true, [])).
  { assert (Hx : ((set_type_state [116] true (ex_db, [])).1,
                  (set_type_state [116] true (ex_db, [])).2.2) = (true, [])) by (vm_compute; reflexivity).
    rewrite E in Hx. exact Hx. }
  injection Eb as -> ->. exists db'. split; [reflexivity|]. split; [apply H|].
  assert (Hx : ebitmap_get_bit (permissive_map (set_type_state [116] true (ex_db, [])).2.1) 2 = 1)
    by (vm_compute; reflexivity).
  rewrite E in Hx. exact Hx.
Defined.

(** C34: [add_type_rule] sets the default type of one (source, target, class) and leaves
    every other rule alone; it returns false and changes nothing exactly when one of the
    four names does not exist. *)
Theorem add_type_rule_correct db types classes src tgt cls def effect :
  te_inv (te_avtab db) -> effect ∈ [AVTAB_TRANSITION; AVTAB_MEMBER; AVTAB_CHANGE] ->
  table (p_types db) = Some types -> table (p_classes db) = Some classes ->
  hashtab_wf cstring_ok types -> hashtab_wf cstring_ok classes ->
  name_ok src -> name_ok tgt -> name_ok cls -> name_ok def ->
  Forall (fun t => 0 <= ty_value t < 2 ^ 32) (hashtab_data (Some types)) ->
  match hashtab_model types !! src, hashtab_model types !! tgt, hashtab_model classes !! cls,
        hashtab_model types !! def with
  | Some s, Some t, Some c, Some d =>
      exists h', add_type_rule src tgt cls def effect (db, []) =
          Some (true, (set_te_avtab db h', [])) /\ te_inv h' /\
        avtab_search (Some h') (rule_key effect s t c) = Some (AvDatum (ty_value d) None) /\
        same_outside (eq (rule_key effect s t c)) (te_avtab db) h'
  | _, _, _, _ => add_type_rule src tgt cls def effect (db, []) = Some (false, (db, []))
  end.
Proof.
  intros Hi He Ht Hc Hwt Hwc Hns Hnt Hnc Hnd Hv. unfold add_type_rule.
  rewrite Ht, Hc, !hashtab_find_model by done.
  destruct (hashtab_model types !! src) as [s|]; [|done].
  destruct (hashtab_model types !! tgt) as [t|]; [|done].
  destruct (hashtab_model classes !! cls) as [c|]; [|done].
  destruct (hashtab_model types !! def) as [d|] eqn:Ed; [|done].
  assert (Hd : 0 <= ty_value d < 2 ^ 32).
  { rewrite Forall_forall in Hv. apply Hv. by eapply model_data. }
  assert (Hu : u16 effect = effect) by (set_unfold in He; by destruct He as [->|[->|[->|[]]]]).
  destruct (set_type_spec db (rule_key effect s t c) (ty_value d) Hi)
    as (node & h1 & h' & Hg & -> & Hi' & Hs & Hr); [|done|].
  { split; simpl; [|by rewrite Hu]. split_and!; apply u16_range. }
  unfold rule_key in Hg. rewrite Hg. eexists. split; [done|]. done.
Qed.

(** type_transition s t:f d *)
Lemma add_type_rule_witness :
  exists h', add_type_rule [115] [116] [102] [100] AVTAB_TRANSITION (ex_db, []) =
      Some (true, (set_te_avtab ex_db h', [])) /\ te_inv h' /\
    avtab_search (Some h') (AvKey 1 2 4 AVTAB_TRANSITION) = Some (AvDatum 3 None).
Proof.
  destruct ex_types_wf as (types & Ht & Hwt). destruct ex_classes_wf as (classes & Hc & Hwc).
  assert (Hn : forall c, 1 <= c < 2 ^ 8 -> name_ok [c]).
  { intros c Hc'. split; [constructor; [lia|constructor]|simpl; lia]. }
  assert (Hv : Forall (fun t => 0 <= ty_value t < 2 ^ 32) (hashtab_data (Some types))).
  { rewrite <-Ht. assert (E : hashtab_data (table ex_types) =
      [plain_type 3 1 TYPE_ATTRIB; plain_type 2 1 TYPE_TYPE; plain_type 1 1 TYPE_TYPE])
      by (vm_compute; reflexivity).
    rewrite E. repeat constructor; simpl; lia. }
  pose proof (add_type_rule_correct ex_db types classes [115] [116] [102] [100] AVTAB_TRANSITION
    ex_te_inv ltac:(by left) Ht Hc Hwt Hwc (Hn 115 ltac:(lia)) (Hn 116 ltac:(lia))
    (Hn 102 ltac:(lia)) (Hn 100 ltac:(lia)) Hv) as H.
  rewrite <-!hashtab_find_model in H
    by (exact Hwt || exact Hwc || (apply Hn; lia)).
  rewrite <-Ht, <-Hc in H.
  assert (E1 : hashtab_find (table ex_types) [115] = Some (plain_type 1 1 TYPE_TYPE)) by (vm_compute; reflexivity).
  assert (E2 : hashtab_find (table ex_types) [116] = Some (plain_type 2 1 TYPE_TYPE)) by (vm_compute; reflexivity).
  assert (E3 : hashtab_find (table ex_classes) [102] = Some ex_class) by (vm_compute; reflexivity).
  assert (E4 : hashtab_find (table ex_types) [100] = Some (plain_type 3 1 TYPE_ATTRIB)) by (vm_compute; reflexivity).
  change (table (p_types ex_db)) with (table ex_types) in H.
  change (table (p_classes ex_db)) with (table ex_classes) in H.
  rewrite E1, E2, E3, E4 in H. destruct H as (h' & Hr & Hi & Hs & _). exists h'.
  split; [exact Hr|]. split; [exact Hi|]. exact Hs.
Defined.

(** [find_avtab_node] never finds an extended rule: for an extended key it answers
    "not found" for every table and every wanted kind and driver, in particular when the
    table holds a matching node, because the loop clears the node it found.  So
    [get_avtab_node] inserts a second node for a rule that is there. *)
Theorem find_avtab_node_misses_xperms h key x :
  truthy (Z.land (specified key) AVTAB_XPERMS) = true ->
  forall n, find_avtab_node h key x <> Some (Some n).
Proof.
  intros Hx n. unfold find_avtab_node. rewrite Hx. destruct x as [x|]; [|done].
  generalize (avtab_search_node (Some h) key). generalize (S (length (avtab_nodes h))).
  intros fuel. induction fuel as [|fuel IH]; intros [m|]; try done; cbn [find_xperms_loop].
  destruct (xperms (adatum m)) as [nx|]; [|done]. destruct (_ && _); [done|]. apply IH.
Qed.

(** The table has the rule for kind 1 and driver 7; looking it up gives nothing. *)
Lemma find_avtab_node_witness :
  let x := Xperms AVTAB_XPERMS_IOCTLFUNCTION 7 (replicate 8 0) in
  let key := AvKey 1 2 4 AVTAB_XPERMS_ALLOWED in
  let h := default ex_te (avtab_insert (Some ex_te) key (AvDatum 0 (Some x)) []).1.2 in
  avtab_search (Some h) key = Some (AvDatum 0 (Some x)) /\ find_avtab_node h key (Some x) = Some None /\
  forall n, find_avtab_node h key (Some x) <> Some (Some n).
Proof.
  intros x key h. split; [vm_compute; reflexivity|]. split; [vm_compute; reflexivity|].
  exact (find_avtab_node_misses_xperms h key (Some x) eq_refl).
Defined.
