(* ===== verification/SepolicyXperm.v ===== *)
(** * Extended permission rules of the policy editor (native/src/sepolicy/sepolicy.cpp)

    [add_xperm_rule]: the ioctl commands of a (source, target, class) are 16-bit numbers,
    a driver byte and a function byte.  A rule is stored in up to 257 nodes of the rule
    table: one whose 256-bit map allows whole drivers, and one for each driver, whose map
    allows functions.

    The code keeps node pointers in [node_list] while it inserts, changes and frees
    nodes, so here the list holds addresses and every access looks the node up in the
    table at that time: [None] for an operation is a dereference of [NULL] or of a freed
    node (or a loop out of fuel). *)

From S2P Require Import Prelude Policyfile Ebitmap Hashtab Symtab Avtab Policydb Sepolicy.

(** [struct Xperm] of lib.rs; both bounds are [u16]. *)
Record xperm := Xperm { low : Z; high : Z; reset : bool }.

Definition ioctl_driver (x : Z) : Z := Z.land (Z.shiftr x 8) 0xFF.
Definition ioctl_func (x : Z) : Z := Z.land x 0xFF.

(** ** Nodes through pointers *)

(** The node at an address. *)
Definition node_at (h : avtab) (a : Z) : option avtab_node :=
  List.find (fun n => addr n =? a) (avtab_nodes h).

(** An update of [node->datum.xperms->perms]. *)
Definition update_perms (h : avtab) (a : Z) (f : list Z -> list Z) : option avtab :=
  match node_at h a with
  | None => None
  | Some n =>
      match xperms (adatum n) with
      | None => None
      | Some x =>
          Some (set_datum h n (AvDatum (data (adatum n))
                                 (Some (Xperms (x_specified x) (x_driver x) (f (x_perms x))))))
      end
  end.

(** [for (int i = lo; i <= hi; ++i) xperm_set(i, perms);] and the same with
    [xperm_clear]. *)
Definition set_range (lo hi : Z) (p : list Z) : list Z :=
  foldl (fun p i => xperm_set i p) p (seqZ lo (hi - lo + 1)).

Definition clear_range (lo hi : Z) (p : list Z) : list Z :=
  foldl (fun p i => xperm_clear i p) p (seqZ lo (hi - lo + 1)).

(** [memset(perms, 0, ...)] and [memset(perms, ~0, ...)]. *)
Definition perms_zero : list Z := replicate 8 0.
Definition perms_full : list Z := replicate 8 (2 ^ 32 - 1).

(** [new_driver_node] and [new_func_node]: the permissions that [avtab_insert_nonunique]
    allocated are replaced by newly allocated ones. *)
Definition new_xperm_node (h : avtab) (key : avtab_key) (specified driver : Z) (o : oracle) :
    option (Z * avtab * oracle) :=
  match insert_avtab_node h key o with
  | (None, _, _) => None
  | (Some node, h, o) =>
      match malloc o with
      | (false, _) => None
      | (true, o) =>
          Some (addr node,
                set_datum h node (AvDatum (data (adatum node))
                                    (Some (Xperms specified driver perms_zero))), o)
      end
  end.

Definition new_driver_node (h : avtab) (key : avtab_key) (o : oracle) :
    option (Z * avtab * oracle) :=
  new_xperm_node h key AVTAB_XPERMS_IOCTLDRIVER 0 o.

Definition new_func_node (h : avtab) (key : avtab_key) (driver : Z) (o : oracle) :
    option (Z * avtab * oracle) :=
  new_xperm_node h key AVTAB_XPERMS_IOCTLFUNCTION driver o.

(** ** The list of nodes *)

(** [avtab_ptr_t node_list[257]]. *)
Abbreviation node_list := (list (option Z)).

(** Index of the driver node. *)
Definition DRIVER_NODE : nat := 256.

Definition nl_get (nl : node_list) (i : nat) : option Z := mjoin (nl !! i).

(** The body of the loop that collects the nodes of the key. *)
Definition record_node (nl : node_list) (n : avtab_node) (x : avtab_extended_perms) : node_list :=
  if x_specified x =? AVTAB_XPERMS_IOCTLDRIVER then <[DRIVER_NODE := Some (addr n)]> nl
  else if x_specified x =? AVTAB_XPERMS_IOCTLFUNCTION then
    <[Z.to_nat (x_driver x) := Some (addr n)]> nl
  else nl.

Fixpoint collect_nodes (fuel : nat) (h : avtab) (node : option avtab_node) (sp : Z)
    (nl : node_list) : option node_list :=
  match node with
  | None => Some nl
  | Some n =>
      match fuel, xperms (adatum n) with
      | S fuel', Some x =>
          collect_nodes fuel' h (avtab_search_node_next h (Some n) sp) sp (record_node nl n x)
      | _, _ => None
      end
  end.

Definition find_nodes (h : avtab) (key : avtab_key) : option node_list :=
  collect_nodes (S (length (avtab_nodes h))) h (avtab_search_node (Some h) key) (specified key)
    (replicate 257 None).

(** [if (p.reset)]: the function nodes are removed and the driver map is cleared. *)
Definition reset_func (i : nat) (s : avtab * node_list) : option (avtab * node_list) :=
  let (h, nl) := s in
  match nl_get nl i with
  | None => Some (h, nl)
  | Some a =>
      match node_at h a with
      | None => None
      | Some n => Some (default h (avtab_remove_node (Some h) n).2, <[i := None]> nl)
      end
  end.

Definition reset_nodes (h : avtab) (nl : node_list) : option (avtab * node_list) :=
  match for_each reset_func (seq 0 256) (h, nl) with
  | None => None
  | Some (h, nl) =>
      match nl_get nl DRIVER_NODE with
      | None => Some (h, nl)
      | Some a =>
          match update_perms h a (fun _ => perms_zero) with
          | None => None
          | Some h => Some (h, nl)
          end
      end
  end.

(** The node at an index of the list, created when it is not there; a new function node
    starts with the map [fill]. *)
Definition get_driver_node (h : avtab) (key : avtab_key) (nl : node_list) (o : oracle) :
    option (Z * avtab * oracle) :=
  match nl_get nl DRIVER_NODE with
  | Some a => Some (a, h, o)
  | None => new_driver_node h key o
  end.

Definition get_func_node (h : avtab) (key : avtab_key) (nl : node_list) (driver : Z)
    (fill : list Z -> list Z) (o : oracle) : option (Z * avtab * oracle) :=
  match nl_get nl (Z.to_nat driver) with
  | Some a => Some (a, h, o)
  | None =>
      match new_func_node h key driver o with
      | None => None
      | Some (a, h, o) =>
          match update_perms h a fill with
          | None => None
          | Some h => Some (a, h, o)
          end
      end
  end.

(** ** One rule *)

(** [!p.reset] *)
Definition extend_xperms (h : avtab) (key : avtab_key) (nl : node_list) (p : xperm) (o : oracle) :
    option (avtab * oracle) :=
  if negb (ioctl_driver (low p) =? ioctl_driver (high p)) then
    match get_driver_node h key nl o with
    | None => None
    | Some (a, h, o) =>
        match update_perms h a (set_range (ioctl_driver (low p)) (ioctl_driver (high p))) with
        | None => None
        | Some h => Some (h, o)
        end
    end
  else
    let driver := ioctl_driver (low p) in
    match get_func_node h key nl driver (fun perms => perms) o with
    | None => None
    | Some (a, h, o) =>
        match update_perms h a (set_range (ioctl_func (low p)) (ioctl_func (high p))) with
        | None => None
        | Some h => Some (h, o)
        end
    end.

(** [p.reset] *)
Definition complement_xperms (h : avtab) (key : avtab_key) (nl : node_list) (p : xperm)
    (o : oracle) : option (avtab * oracle) :=
  match get_driver_node h key nl o with
  | None => None
  | Some (da, h, o) =>
      match update_perms h da (fun _ => perms_full) with
      | None => None
      | Some h =>
          if negb (ioctl_driver (low p) =? ioctl_driver (high p)) then
            match update_perms h da (clear_range (ioctl_driver (low p)) (ioctl_driver (high p))) with
            | None => None
            | Some h => Some (h, o)
            end
          else
            let driver := ioctl_driver (low p) in
            match get_func_node h key nl driver (fun _ => perms_full) o with
            | None => None
            | Some (a, h, o) =>
                match update_perms h da (xperm_clear driver) with
                | None => None
                | Some h =>
                    match update_perms h a
                            (clear_range (ioctl_func (low p)) (ioctl_func (high p))) with
                    | None => None
                    | Some h => Some (h, o)
                    end
                end
            end
      end
  end.

(** The last case of [add_xperm_rule], for the key of source, target and class. *)
Definition edit_xperms (p : xperm) (key : avtab_key) (s : state) : option state :=
  let (db, o) := s in
  match find_nodes (te_avtab db) key with
  | None => None
  | Some nl =>
      match (if reset p then reset_nodes (te_avtab db) nl else Some (te_avtab db, nl)) with
      | None => None
      | Some (h, nl) =>
          match (if reset p then complement_xperms h key nl p o else extend_xperms h key nl p o) with
          | None => None
          | Some (h, o) => Some (set_te_avtab db h, o)
          end
      end
  end.

Definition add_xperm_rule_one (src tgt : type_datum) (cls : class_datum) (p : xperm)
    (effect : Z) (s : state) : option state :=
  if policyvers s.1 <? POLICYDB_VERSION_XPERMS_IOCTL then Some s
  else edit_xperms p
         (AvKey (u16 (ty_value src)) (u16 (ty_value tgt)) (u16 (cls_value cls)) (u16 effect)) s.

(** [add_xperm_rule] on data; [None] for an argument is [nullptr]. *)
Definition add_xperm_rule_cls (src tgt : type_datum) (cls : option class_datum) (p : xperm)
    (effect : Z) (s : state) : option state :=
  if policyvers s.1 <? POLICYDB_VERSION_XPERMS_IOCTL then Some s
  else
    match cls with
    | Some cls => add_xperm_rule_one src tgt cls p effect s
    | None =>
        for_each (fun cls => add_xperm_rule_one src tgt cls p effect)
          (hashtab_data (table (p_classes s.1))) s
    end.

Definition add_xperm_rule_tgt (src : type_datum) (tgt : option type_datum)
    (cls : option class_datum) (p : xperm) (effect : Z) (s : state) : option state :=
  if policyvers s.1 <? POLICYDB_VERSION_XPERMS_IOCTL then Some s
  else
    match tgt with
    | Some tgt => add_xperm_rule_cls src tgt cls p effect s
    | None =>
        for_each (fun tgt => add_xperm_rule_cls src tgt cls p effect)
          (attrs (table (p_types s.1))) s
    end.

Definition add_xperm_rule (src tgt : option type_datum) (cls : option class_datum) (p : xperm)
    (effect : Z) (s : state) : option state :=
  if policyvers s.1 <? POLICYDB_VERSION_XPERMS_IOCTL then Some s
  else
    match src with
    | Some src => add_xperm_rule_tgt src tgt cls p effect s
    | None =>
        for_each (fun src => add_xperm_rule_tgt src tgt cls p effect)
          (attrs (table (p_types s.1))) s
    end.

(** [add_xperm_rule] on names: the returned [bool] and the state. *)
Definition add_xperm_rule_str (src tgt cls : list Z) (p : xperm) (effect : Z) (s : state) :
    option (bool * state) :=
  let db := s.1 in
  match find_opt (table (p_types db)) src with
  | None => Some (false, s)
  | Some src =>
      match find_opt (table (p_types db)) tgt with
      | None => Some (false, s)
      | Some tgt =>
          match find_opt (table (p_classes db)) cls with
          | None => Some (false, s)
          | Some cls =>
              match add_xperm_rule src tgt cls p effect s with
              | Some s' => Some (true, s')
              | None => None
              end
          end
      end
  end.
