(* ===== verification/SepolicyXpermSpec.v ===== *)
(** * Extended permission rules: the nodes of a key as a map

    With at most one driver node and one function node per driver for each key, the
    nodes of a key are a partial map [slots] from the index in [node_list] to the address
    and the permissions of the node.  Each step of [add_xperm_rule] changes one entry. *)

From S2P Require Import Prelude Policyfile Ebitmap Hashtab Symtab Avtab AvtabSpec AvtabRules Policydb Sepolicy SepolicySpec SepolicyXperm.

Lemma testbit_u32 x i : 0 <= i < 32 -> Z.testbit (u32 x) i = Z.testbit x i.
Proof. intros Hi. apply Z.mod_pow2_bits_low. lia. Qed.

#[local] Opaque avtab_hash u32 strip_enabled.

(** ** The 256-bit maps *)

Definition perms_ok (p : list Z) : Prop :=
  length p = 8%nat /\ Forall (fun w => 0 <= w < 2 ^ 32) p.

Definition perm_bit (p : list Z) (i : Z) : bool := Z.testbit (perm_word p i) (Z.land i 0x1f).

Lemma land_31 x : Z.land x 0x1f = x mod 32.
Proof. change 0x1f with (Z.ones 5). by rewrite Z.land_ones. Qed.

Lemma xperm_test_bit i p : xperm_test i p = Z.b2z (perm_bit p i).
Proof.
  unfold xperm_test, perm_bit. rewrite land_31, Z.land_comm. change 1 with (Z.ones 1).
  assert (0 <= i mod 32) by (apply Z.mod_pos_bound; lia).
  by rewrite Z.land_ones, Z.testbit_spec', Z.shiftr_div_pow2 by lia.
Qed.

Lemma shiftr_5 x : Z.shiftr x 5 = x / 32.
Proof. by rewrite Z.shiftr_div_pow2. Qed.

Lemma perm_index x : 0 <= x < 256 -> (Z.to_nat (Z.shiftr x 5) < 8)%nat.
Proof. intros. rewrite shiftr_5. Z.to_euclidean_division_equations. lia. Qed.

Lemma perms_ok_insert p i w : perms_ok p -> 0 <= w < 2 ^ 32 -> perms_ok (<[i := w]> p).
Proof. intros [Hl Hf] Hw. split; [by rewrite length_insert|by apply Forall_insert]. Qed.

Lemma perm_word_range p x : perms_ok p -> 0 <= perm_word p x < 2 ^ 32.
Proof.
  intros [_ Hf]. unfold perm_word. destruct (p !! _) eqn:E; simpl; [|lia].
  by eapply (Forall_lookup_1 _ _ _ _ Hf).
Qed.

Lemma perm_word_insert p x y w :
  perms_ok p -> 0 <= x < 256 ->
  perm_word (<[Z.to_nat (Z.shiftr x 5) := w]> p) y =
  if decide (Z.to_nat (Z.shiftr x 5) = Z.to_nat (Z.shiftr y 5)) then w else perm_word p y.
Proof.
  intros [Hl _] Hx. pose proof (perm_index x Hx). unfold perm_word.
  case_decide as E; [by rewrite <-E, list_lookup_insert_eq by lia|].
  by rewrite list_lookup_insert_ne.
Qed.


(** Same word and same bit of it: the same index. *)
Lemma perm_place x y :
  0 <= x < 256 -> 0 <= y < 256 ->
  Z.to_nat (Z.shiftr x 5) = Z.to_nat (Z.shiftr y 5) -> Z.land x 0x1f = Z.land y 0x1f <-> x = y.
Proof. intros Hx Hy. rewrite !shiftr_5, !land_31. Z.to_euclidean_division_equations. lia. Qed.

Lemma bit_of_place x j :
  0 <= j < 32 -> Z.testbit (u32 (Z.shiftl 1 (Z.land x 0x1f))) j = (j =? Z.land x 0x1f).
Proof.
  intros Hj. assert (0 <= Z.land x 0x1f < 32) by (rewrite land_31; by apply Z.mod_pos_bound).
  rewrite Z.shiftl_1_l, u32_small, Z.pow2_bits_eqb by (try (split; [lia|apply Z.pow_lt_mono_r]); lia).
  by rewrite Z.eqb_sym.
Qed.

Lemma xperm_set_bit x y p :
  perms_ok p -> 0 <= x < 256 -> 0 <= y < 256 ->
  perms_ok (xperm_set x p) /\ perm_bit (xperm_set x p) y = (y =? x) || perm_bit p y.
Proof.
  intros Hp Hx Hy. unfold xperm_set, perm_bit. pose proof (perm_word_range p x Hp). split.
  { apply perms_ok_insert; [done|]. apply lor_range; [done|apply u32_range]. }
  assert (0 <= Z.land y 0x1f < 32) by (rewrite land_31; by apply Z.mod_pos_bound).
  rewrite perm_word_insert by done. case_decide as E.
  - rewrite Z.lor_spec, bit_of_place by done. pose proof (perm_place x y Hx Hy E) as Hxy.
    assert (perm_word p x = perm_word p y) as -> by (unfold perm_word; by rewrite E).
    rewrite orb_comm. f_equal. apply eq_bool_prop_intro. rewrite !Is_true_true, !Z.eqb_eq. lia.
  - destruct (Z.eqb_spec y x) as [->|]; [by destruct E|done].
Qed.

Lemma xperm_clear_bit x y p :
  perms_ok p -> 0 <= x < 256 -> 0 <= y < 256 ->
  perms_ok (xperm_clear x p) /\ perm_bit (xperm_clear x p) y = negb (y =? x) && perm_bit p y.
Proof.
  intros Hp Hx Hy. unfold xperm_clear, perm_bit. pose proof (perm_word_range p x Hp). split.
  { apply perms_ok_insert; [done|]. apply land_range; [done|apply u32_range]. }
  assert (0 <= Z.land y 0x1f < 32) by (rewrite land_31; by apply Z.mod_pos_bound).
  rewrite perm_word_insert by done. case_decide as E.
  - rewrite Z.land_spec, testbit_u32, Z.lnot_spec, bit_of_place by lia.
    pose proof (perm_place x y Hx Hy E) as Hxy.
    assert (perm_word p x = perm_word p y) as -> by (unfold perm_word; by rewrite E).
    rewrite andb_comm. do 2 f_equal.
    apply eq_bool_prop_intro. rewrite !Is_true_true, !Z.eqb_eq. lia.
  - destruct (Z.eqb_spec y x) as [->|]; [by destruct E|done].
Qed.

(** Decides the bounds tests of a goal. *)
Ltac case_bounds :=
  repeat match goal with |- context [?a <=? ?b] => destruct (Z.leb_spec a b) end; try lia; try done.

(** The loops over a range of the map. *)
Lemma range_loop_bit (f : Z -> list Z -> list Z) (b : bool -> bool -> bool) lo hi p y :
  (forall x y p, perms_ok p -> 0 <= x < 256 -> 0 <= y < 256 ->
     perms_ok (f x p) /\ perm_bit (f x p) y = b (y =? x) (perm_bit p y)) ->
  (forall v, b false v = v) -> (forall v, b true (b true v) = b true v) ->
  perms_ok p -> 0 <= lo -> hi < 256 -> 0 <= y < 256 ->
  let p' := foldl (fun p i => f i p) p (seqZ lo (hi - lo + 1)) in
  perms_ok p' /\ perm_bit p' y = b ((lo <=? y) && (y <=? hi)) (perm_bit p y).
Proof.
  intros Hf Hb0 Hb1 Hp Hlo Hhi Hy. simpl.
  remember (Z.to_nat (hi - lo + 1)) as n eqn:Hn. revert lo p Hp Hlo Hn.
  induction n as [|n IH]; intros lo p Hp Hlo Hn.
  - assert (seqZ lo (hi - lo + 1) = []) as -> by (apply seqZ_nil; lia). split; [done|]. simpl.
    replace ((lo <=? y) && (y <=? hi)) with false; [done|]. by case_bounds.
  - rewrite seqZ_cons by lia. cbn [foldl]. replace (Z.pred (hi - lo + 1)) with (hi - Z.succ lo + 1) by lia.
    destruct (Hf lo y p Hp ltac:(lia) Hy) as [Hp1 Hb].
    destruct (IH (Z.succ lo) (f lo p) Hp1 ltac:(lia) ltac:(lia)) as [Hp' ->]. split; [done|]. rewrite Hb.
    destruct (Z.eqb_spec y lo) as [->|Hne].
    + replace ((Z.succ lo <=? lo) && (lo <=? hi)) with false by (by case_bounds).
      replace ((lo <=? lo) && (lo <=? hi)) with true by (by case_bounds). by rewrite Hb0.
    + rewrite Hb0. f_equal. by case_bounds.
Qed.

Lemma set_range_bit lo hi p y :
  perms_ok p -> 0 <= lo -> hi < 256 -> 0 <= y < 256 ->
  perms_ok (set_range lo hi p) /\
  perm_bit (set_range lo hi p) y = (lo <=? y) && (y <=? hi) || perm_bit p y.
Proof.
  intros. apply (range_loop_bit xperm_set orb); try done.
  intros. by apply xperm_set_bit.
Qed.

Lemma clear_range_bit lo hi p y :
  perms_ok p -> 0 <= lo -> hi < 256 -> 0 <= y < 256 ->
  perms_ok (clear_range lo hi p) /\
  perm_bit (clear_range lo hi p) y = negb ((lo <=? y) && (y <=? hi)) && perm_bit p y.
Proof.
  intros. apply (range_loop_bit xperm_clear (fun a b => negb a && b)); try done.
  intros. by apply xperm_clear_bit.
Qed.

Lemma perms_zero_bit y : perms_ok perms_zero /\ perm_bit perms_zero y = false.
Proof.
  split; [by repeat constructor|]. unfold perm_bit.
  assert (perm_word perms_zero y = 0) as ->; [|by rewrite Z.testbit_0_l].
  unfold perm_word, perms_zero. destruct (_ !! _) eqn:E; [|done]. by apply lookup_replicate in E as [-> _].
Qed.

Lemma perms_full_bit y : 0 <= y < 256 -> perms_ok perms_full /\ perm_bit perms_full y = true.
Proof.
  intros Hy. split; [by repeat constructor|]. unfold perm_bit, perm_word, perms_full.
  rewrite lookup_replicate_2 by (by apply perm_index). cbn [default from_option id].
  change (2 ^ 32 - 1) with (Z.ones 32). apply Z.ones_spec_low. rewrite land_31. by apply Z.mod_pos_bound.
Qed.

(** The same facts as rewrite rules. *)
Lemma set_range_at lo hi p y :
  perms_ok p -> 0 <= lo -> hi < 256 -> 0 <= y < 256 ->
  perm_bit (set_range lo hi p) y = (lo <=? y) && (y <=? hi) || perm_bit p y.
Proof. intros. by apply set_range_bit. Qed.

Lemma clear_range_full_at lo hi y :
  0 <= lo -> hi < 256 -> 0 <= y < 256 ->
  perm_bit (clear_range lo hi perms_full) y = negb ((lo <=? y) && (y <=? hi)).
Proof.
  intros. destruct (perms_full_bit y) as [Hp Hb]; [done|].
  destruct (clear_range_bit lo hi perms_full y) as [_ ->]; try done. by rewrite Hb, andb_true_r.
Qed.

Lemma xperm_clear_full_at x y :
  0 <= x < 256 -> 0 <= y < 256 -> perm_bit (xperm_clear x perms_full) y = negb (y =? x).
Proof.
  intros. destruct (perms_full_bit y) as [Hp Hb]; [done|].
  destruct (xperm_clear_bit x y perms_full) as [_ ->]; try done. by rewrite Hb, andb_true_r.
Qed.

Lemma perms_zero_ok : perms_ok perms_zero.
Proof. apply (perms_zero_bit 0). Qed.

Lemma perms_full_ok : perms_ok perms_full.
Proof. by apply (perms_full_bit 0). Qed.

Lemma set_range_ok lo hi p : perms_ok p -> 0 <= lo -> hi < 256 -> perms_ok (set_range lo hi p).
Proof. intros. by apply (set_range_bit lo hi p 0). Qed.

Lemma clear_range_ok lo hi p : perms_ok p -> 0 <= lo -> hi < 256 -> perms_ok (clear_range lo hi p).
Proof. intros. by apply (clear_range_bit lo hi p 0). Qed.

Lemma xperm_clear_ok x p : perms_ok p -> 0 <= x < 256 -> perms_ok (xperm_clear x p).
Proof. intros. by apply (xperm_clear_bit x 0 p). Qed.

(** Maps of the right size, whose bounds are bytes of a command. *)
Create HintDb xperm.
#[export] Hint Resolve perms_zero_ok perms_full_ok set_range_ok clear_range_ok xperm_clear_ok : xperm.

(** ** The nodes of a key *)

(** The index of a node in [node_list]. *)
Definition xslot (n : avtab_node) : option nat :=
  match xperms (adatum n) with
  | Some x =>
      if x_specified x =? AVTAB_XPERMS_IOCTLDRIVER then Some DRIVER_NODE
      else if x_specified x =? AVTAB_XPERMS_IOCTLFUNCTION then Some (Z.to_nat (x_driver x))
      else None
  | None => None
  end.

Definition perms_of (n : avtab_node) : list Z :=
  match xperms (adatum n) with Some x => x_perms x | None => [] end.

(** "Each key may contain 1 driver node and 256 function nodes". *)
Definition xunique (l : list avtab_node) : Prop :=
  forall a b i, a ∈ l -> b ∈ l -> akey a = akey b -> xslot a = Some i -> xslot b = Some i -> a = b.

Definition xp_inv (h : avtab) : Prop := te_inv h /\ xunique (avtab_nodes h).

(** Keys of extended rules. *)
Definition xkey (k : avtab_key) : Prop :=
  key_range k /\ specified k ∈ specs /\ is_xspec (specified k) = true.

Definition at_slot (key : avtab_key) (i : nat) (n : avtab_node) : bool :=
  bool_decide (akey n = key /\ xslot n = Some i).

(** The address and the permissions of the node of each index. *)
Definition slots (h : avtab) (key : avtab_key) (i : nat) : option (Z * list Z) :=
  (fun n => (addr n, perms_of n)) <$> List.find (at_slot key i) (avtab_nodes h).

Lemma slots_some h key i a p :
  xunique (avtab_nodes h) ->
  slots h key i = Some (a, p) <->
  exists n, n ∈ avtab_nodes h /\ akey n = key /\ xslot n = Some i /\ addr n = a /\ perms_of n = p.
Proof.
  intros Hu. unfold slots. split.
  - intros (n & Hf & [= -> ->])%fmap_Some. apply List.find_some in Hf as [Hn He].
    apply bool_decide_eq_true in He as [Hk Hs]. exists n. by rewrite list_elem_of_In.
  - intros (n & Hn & Hk & Hs & <- & <-). destruct (List.find _ _) as [m|] eqn:E.
    + apply List.find_some in E as [Hm He]. apply bool_decide_eq_true in He as [Hk' Hs'].
      apply list_elem_of_In in Hm. simpl. rewrite (Hu m n i); [done..|congruence|done|done].
    + exfalso. apply List.find_none with (x := n) in E; [|by apply list_elem_of_In].
      apply bool_decide_eq_false in E. by apply E.
Qed.

Lemma slots_perms_ok h key i a p : xp_inv h -> slots h key i = Some (a, p) -> perms_ok p.
Proof.
  intros [[(_ & Hg & _) _] Hu] Hp. apply slots_some in Hp as (n & Hn & _ & Hs & _ & <-); [|done].
  rewrite Forall_forall in Hg. destruct (Hg n Hn) as [_ [_ Hd]]. unfold xslot, perms_of in *.
  destruct (xperms (adatum n)) as [x|]; [|done]. by destruct Hd as [_ (_ & _ & ? & ?)].
Qed.

(** A change of one entry for one key; everything else stays. *)
Definition xstep (key : avtab_key) (i : nat) (c : option (Z * list Z)) (h h' : avtab) : Prop :=
  xp_inv h' /\ same_outside (eq key) h h' /\
  forall j, slots h' key j = if decide (j = i) then c else slots h key j.

(** The three kinds of steps replace the nodes of one index by [new]. *)
Lemma replaced_step key i new h h' :
  xp_inv h -> te_inv h' ->
  (forall n, new = Some n -> akey n = key /\ xslot n = Some i) ->
  (forall m, m ∈ avtab_nodes h' <->
     m ∈ avtab_nodes h /\ ~ (akey m = key /\ xslot m = Some i) \/ new = Some m) ->
  xstep key i ((fun n => (addr n, perms_of n)) <$> new) h h'.
Proof.
  intros [Hi Hu] Hi' Hnew Hel.
  assert (Hu' : xunique (avtab_nodes h')).
  { intros a b j Ha Hb Hk Hsa Hsb. rewrite Hel in Ha, Hb.
    destruct Ha as [[Ha Hna]|Ha], Hb as [[Hb Hnb]|Hb].
    - by apply (Hu a b j).
    - destruct (Hnew b Hb) as [? ?]. exfalso. apply Hna. split; congruence.
    - destruct (Hnew a Ha) as [? ?]. exfalso. apply Hnb. split; congruence.
    - congruence. }
  split_and!; [done| |].
  - intros m Hm. rewrite Hel. split; [|intros Hin; left; split; [done|]; by intros [? _]].
    intros [[? _]|Hn]; [done|]. destruct (Hnew m Hn) as [? _]. by destruct Hm.
  - intros j. apply option_eq. intros [a p]. rewrite slots_some by done. case_decide as Hj.
    + subst j. rewrite fmap_Some. split.
      * intros (n & Hn & Hk & Hs & <- & <-). rewrite Hel in Hn. exists n. split; [|done].
        by destruct Hn as [[_ []]|?].
      * intros (n & -> & [= -> ->]). destruct (Hnew n eq_refl). exists n.
        split_and!; try done. rewrite Hel. by right.
    + rewrite slots_some by done.
      split; intros (n & Hn & Hk & Hs & Hr); exists n; (split; [|by auto]).
      * rewrite Hel in Hn. destruct Hn as [[? _]|Hn]; [done|]. destruct (Hnew n Hn). congruence.
      * rewrite Hel. left. split; [done|]. intros [_ ?]. congruence.
Qed.

(** ** The steps *)

Lemma node_at_spec h n : avtab_inv h -> n ∈ avtab_nodes h -> node_at h (addr n) = Some n.
Proof.
  intros Hi Hn. pose proof (inv_addrs h Hi) as Hnd. unfold node_at.
  destruct (List.find _ _) as [m|] eqn:E.
  - apply List.find_some in E as [Hm He]. apply list_elem_of_In in Hm. f_equal.
    eapply addr_inj; [done..|]. lia.
  - apply List.find_none with (x := n) in E; [lia|by apply list_elem_of_In].
Qed.

(** In a table with the invariant a node of an index is the only one of it. *)
Lemma slot_unique h n i m :
  xp_inv h -> n ∈ avtab_nodes h -> xslot n = Some i -> m ∈ avtab_nodes h ->
  m <> n <-> ~ (akey m = akey n /\ xslot m = Some i).
Proof.
  intros [_ Hu] Hn Hs Hm. split; [intros Hne [Hk Hsm]|by intros H ->; apply H].
  by apply Hne, (Hu m n i).
Qed.

Lemma update_step h key i a p f :
  xp_inv h -> slots h key i = Some (a, p) -> perms_ok (f p) ->
  exists h', update_perms h a f = Some h' /\ xstep key i (Some (a, f p)) h h'.
Proof.
  intros Hx Hsl Hf. pose proof Hx as [Hi Hu]. pose proof Hi as [Hinv _].
  apply slots_some in Hsl as (n & Hn & <- & Hs & <- & <-); [|done].
  pose proof Hinv as (_ & Hg & _). rewrite Forall_forall in Hg. destruct (Hg n Hn) as [_ [Hd Hxp]].
  unfold update_perms. rewrite node_at_spec by done. unfold xslot in Hs. unfold perms_of in *.
  destruct (xperms (adatum n)) as [x|] eqn:Ex; [|done]. destruct Hxp as [Hxs (Hsp & Hdr & _)].
  set (d := AvDatum _ _). destruct (set_datum_te h n d Hi Hn) as (Hi' & _).
  { split; [done|]. split; [done|]. split; [exact Hsp|]. split; [exact Hdr|]. exact Hf. }
  exists (set_datum h n d). split; [done|].
  apply (replaced_step (akey n) i (Some (with_datum n d))); try done.
  - by intros ? [= <-].
  - intros m. rewrite set_datum_elem by done. split.
    + intros [->|[Hm Hne]]; [by right|]. left. split; [done|]. eapply slot_unique; try done.
      unfold xslot. by rewrite Ex.
    + intros [[Hm Hne]|[= <-]]; [|by left]. right. split; [done|].
      eapply slot_unique; try done. unfold xslot. by rewrite Ex.
Qed.

Lemma remove_step h key i a p :
  xp_inv h -> slots h key i = Some (a, p) ->
  exists n h', node_at h a = Some n /\ avtab_remove_node (Some h) n = (0, Some h') /\
    xstep key i None h h'.
Proof.
  intros Hx Hsl. pose proof Hx as [Hi Hu]. pose proof Hi as [Hinv Hsp].
  apply slots_some in Hsl as (n & Hn & <- & Hs & <- & <-); [|done].
  destruct (avtab_remove_spec h n n (proj1 Hinv) Hn eq_refl eq_refl) as (h' & Hr & Hwf & Hp).
  exists n, h'. split_and!; [by apply node_at_spec|done|].
  apply (replaced_step (akey n) i None); try done.
  - split; [by eapply inv_remove|]. rewrite Hp in Hsp. by apply Forall_cons in Hsp as [_ ?].
  - pose proof (inv_addrs h Hinv) as Hnd. rewrite Hp, fmap_cons in Hnd.
    apply NoDup_cons in Hnd as [Hni _].
    assert (Hnn : n ∉ avtab_nodes h') by (intros ?; apply Hni; apply list_elem_of_fmap; eauto).
    intros m. split.
    + intros Hm. left. assert (Hmh : m ∈ avtab_nodes h) by (rewrite Hp; by right).
      split; [done|]. eapply slot_unique; try done. by intros ->.
    + intros [[Hm Hne]|?]; [|done]. eapply slot_unique in Hne; try done.
      rewrite Hp in Hm. by apply elem_of_cons in Hm as [?|?].
Qed.

(** The table with the node that [avtab_insert_nonunique] links. *)
Lemma insert_xnode h key :
  te_inv h -> xkey key ->
  exists n h', insert_avtab_node h key [] = (Some n, h', []) /\ te_inv h' /\ akey n = key /\
    (n ∉ avtab_nodes h) /\ 0 <= data (adatum n) < 2 ^ 32 /\ avtab_nodes h' ≡ₚ n :: avtab_nodes h.
Proof.
  intros [Hi Hs] (Hr & Hsp & Hx). unfold insert_avtab_node. set (d := AvDatum _ None).
  destruct (avtab_insert_nonunique (Some h) key d []) as [[r h'] o'] eqn:Ei.
  destruct (avtab_insert_nonunique_spec _ _ _ _ _ _ _ (proj1 Hi) Hr Ei) as (h1 & -> & Hwf1 & Hn).
  apply insert_nonunique_memory in Ei as ->. destruct r as [n|]; [|by destruct Hn].
  destruct Hn as [-> Hp]. set (n := AvNode _ _ _ _) in *.
  assert (Hins : insertable key d).
  { split; [split; [done|by apply specs_ok]|]. split; [|done]. simpl. case_Z; lia. }
  exists n, h1. split; [done|]. split; [split|split; [done|split; [|split; [|done]]]].
  - eapply inv_add; [done..| |].
    + split; [split; [done|by apply specs_ok]|]. by apply stored_datum_ok.
    + simpl. congruence.
  - rewrite Hp. by constructor.
  - intros Hin. destruct Hi as ((t & Ht & Htw & [_ Hlt] & _) & _).
    rewrite (avtab_nodes_concat h t Ht Htw), list_elem_of_In in Hin.
    rewrite List.Forall_forall in Hlt. specialize (Hlt n Hin). simpl in Hlt. lia.
  - simpl. unfold stored_datum. destruct (truthy _); simpl; case_Z; lia.
Qed.

Lemma new_step h key i sp driver :
  xp_inv h -> xkey key -> slots h key i = None -> 0 <= sp < 2 ^ 8 -> 0 <= driver < 2 ^ 8 ->
  (forall a k m, xslot (AvNode a k (AvDatum 0 (Some (Xperms sp driver perms_zero))) m) = Some i) ->
  exists a h', new_xperm_node h key sp driver [] = Some (a, h', []) /\
    xstep key i (Some (a, perms_zero)) h h'.
Proof.
  intros Hx Hk Hno Hsp Hdr Hsl. pose proof Hx as [Hi Hu].
  destruct (insert_xnode h key Hi Hk) as (n & h1 & Hins & Hi1 & Hkn & Hnew & Hd & Hp).
  unfold new_xperm_node. rewrite Hins. cbn [malloc]. set (d := AvDatum _ (Some _)).
  assert (Hn : n ∈ avtab_nodes h1) by (rewrite Hp; by left).
  exists (addr n), (set_datum h1 n d). split; [done|].
  destruct (set_datum_te h1 n d Hi1 Hn) as (Hi2 & _).
  { rewrite Hkn. split; [done|]. split; [by apply Hk|].
    split; [exact Hsp|]. split; [exact Hdr|]. apply perms_zero_ok. }
  apply (replaced_step key i (Some (with_datum n d))); try done.
  - intros m [= <-]. split; [done|]. apply (Hsl (addr n) (akey n) (merged n)).
  - intros m. rewrite set_datum_elem by (done || by destruct Hi1). rewrite Hp, elem_of_cons. split.
    + intros [->|[[?|Hm] Hne]]; [by right|done|]. left. split; [done|]. intros [Hkm Hsm].
      assert (slots h key i = Some (addr m, perms_of m)); [|congruence].
      apply slots_some; [done|]. eauto 8.
    + intros [[Hm Hne]|[= <-]]; [|by left]. right. split; [by right|]. by intros ->.
Qed.

(** ** Collecting the nodes *)

(** [node_list] holds the addresses of the nodes of the key. *)
Definition nl_ok (h : avtab) (key : avtab_key) (nl : node_list) : Prop :=
  length nl = 257%nat /\ forall j, nl_get nl j = fst <$> slots h key j.

Definition record_slot (nl : node_list) (n : avtab_node) : node_list :=
  match xslot n with Some i => <[i := Some (addr n)]> nl | None => nl end.

Lemma record_node_slot nl n x :
  xperms (adatum n) = Some x -> record_node nl n x = record_slot nl n.
Proof. intros Hx. unfold record_node, record_slot, xslot. rewrite Hx. by repeat case_Z. Qed.

Lemma nl_get_insert nl i j c :
  (i < length nl)%nat -> nl_get (<[i := c]> nl) j = if decide (j = i) then c else nl_get nl j.
Proof.
  intros Hi. unfold nl_get. case_decide as E.
  - subst. by rewrite list_lookup_insert_eq.
  - by rewrite list_lookup_insert_ne.
Qed.

Lemma collect_nodes_foldl fuel h node sp nl :
  (length (search_all fuel h node sp) < fuel)%nat ->
  Forall (fun n => is_Some (xperms (adatum n))) (search_all fuel h node sp) ->
  collect_nodes fuel h node sp nl = Some (foldl record_slot nl (search_all fuel h node sp)).
Proof.
  revert node nl. induction fuel as [|fuel IH]; intros [n|] nl; cbn [search_all collect_nodes length].
  1,2: lia.
  - intros Hl [[x Hx] Hf]%Forall_cons. rewrite Hx. cbn [foldl].
    rewrite (record_node_slot _ _ _ Hx). apply IH; [lia|done].
  - done.
Qed.

(** The last node of an index wins. *)
Lemma foldl_record l nl j :
  (forall n i, n ∈ l -> xslot n = Some i -> (i < length nl)%nat) ->
  length (foldl record_slot nl l) = length nl /\
  ((exists n, n ∈ l /\ xslot n = Some j /\ nl_get (foldl record_slot nl l) j = Some (addr n)) \/
   (forall n, n ∈ l -> xslot n <> Some j) /\ nl_get (foldl record_slot nl l) j = nl_get nl j).
Proof.
  revert nl. induction l as [|n l IH]; intros nl Hb; cbn [foldl].
  { split; [done|]. right. split; [|done]. by intros n ?%elem_of_nil. }
  assert (Hl : length (record_slot nl n) = length nl).
  { unfold record_slot. destruct (xslot n); [apply length_insert|done]. }
  destruct (IH (record_slot nl n)) as [Hlen Hc].
  { intros m i Hm. rewrite Hl. apply Hb. by right. }
  split; [congruence|]. destruct Hc as [(m & Hm & Hs & Hg)|[Hno Hg]].
  { left. exists m. split_and!; [by right|done..]. }
  rewrite Hg. unfold record_slot. destruct (xslot n) as [i|] eqn:Hs.
  - rewrite nl_get_insert by (apply (Hb n); [by left|done]). case_decide as Hj.
    + subst. left. exists n. split_and!; [by left|done..].
    + right. split; [|done]. intros m [->|Hm]%elem_of_cons; [congruence|by apply Hno].
  - right. split; [|done]. intros m [->|Hm]%elem_of_cons; [congruence|by apply Hno].
Qed.

Lemma xkey_matches h key n :
  te_inv h -> xkey key -> n ∈ avtab_nodes h ->
  matches key (strip_enabled (specified key)) n = true <-> akey n = key.
Proof.
  intros [(_ & Hg & _) Hs] (Hr & Hsp & _) Hn. rewrite Forall_forall in Hg, Hs.
  destruct (Hg n Hn) as [Hk _]. rewrite matches_iff; [|by split; [|apply specs_ok]|done].
  rewrite !rule_id_specs by auto. done.
Qed.

Lemma xslot_range h n i : te_inv h -> n ∈ avtab_nodes h -> xslot n = Some i -> (i < 257)%nat.
Proof.
  intros [(_ & Hg & _) _] Hn. rewrite Forall_forall in Hg. destruct (Hg n Hn) as [_ [_ Hd]].
  unfold xslot. destruct (xperms (adatum n)) as [x|]; [|done]. destruct Hd as (_ & _ & Hdr & _).
  unfold DRIVER_NODE. repeat case_Z; intros [= <-]; lia.
Qed.

Lemma find_nodes_spec h key :
  xp_inv h -> xkey key -> exists nl, find_nodes h key = Some nl /\ nl_ok h key nl.
Proof.
  intros [Hi Hu] Hk. pose proof Hi as [Hinv _]. pose proof Hk as (Hr & Hsp & Hx).
  pose proof (search_all_spec h key (S (length (avtab_nodes h))) (proj1 Hinv)
    (specs_range _ Hsp) (Nat.lt_succ_diag_r _)) as Hall.
  set (l := List.filter _ _) in Hall.
  assert (Hl : forall n, n ∈ l <-> n ∈ avtab_nodes h /\ akey n = key).
  { intros n. unfold l. rewrite list_elem_of_In, List.filter_In, <-list_elem_of_In.
    split; intros [Hn Hm]; (split; [done|]); by apply (xkey_matches h key n). }
  unfold find_nodes. rewrite collect_nodes_foldl; rewrite Hall; cycle 1.
  { apply Nat.lt_succ_r, List.filter_length_le. }
  { apply Forall_forall. intros n [Hn <-]%Hl. destruct Hinv as (_ & Hg & _).
    rewrite Forall_forall in Hg. destruct (Hg n Hn) as [_ [_ Hd]].
    destruct (xperms (adatum n)); [done|congruence]. }
  eexists. split; [done|].
  assert (Hb : forall n i, n ∈ l -> xslot n = Some i -> (i < length (replicate 257 (@None Z)))%nat).
  { intros n i [Hn _]%Hl Hs. rewrite length_replicate. by eapply xslot_range. }
  split; [by destruct (foldl_record l _ 0 Hb)|]. intros j.
  destruct (foldl_record l _ j Hb) as [_ [(n & [Hn Hkn]%Hl & Hs & ->)|[Hno ->]]].
  - by rewrite (proj2 (slots_some h key j (addr n) (perms_of n) Hu)) by eauto 8.
  - destruct (slots h key j) as [[a p]|] eqn:E.
    + apply slots_some in E as (n & Hn & Hkn & Hs & _); [|done]. exfalso. apply (Hno n); [|done].
      by apply Hl.
    + unfold nl_get. destruct (replicate 257 None !! j) as [c|] eqn:Ej; [|done].
      by apply lookup_replicate in Ej as [-> _].
Qed.
