(* ===== verification/SepolicyXpermRules.v ===== *)
(** * [add_xperm_rule]: the ioctl commands a rule allows after the edit *)

From S2P Require Import Prelude Policyfile Ebitmap Hashtab Symtab Avtab AvtabSpec AvtabRules Policydb Sepolicy SepolicySpec SepolicyProps.
From S2P Require Import SepolicyXperm SepolicyXpermSpec.

#[local] Opaque avtab_hash u32 strip_enabled.

(** ** Composing steps *)

Lemma same_outside_trans P h1 h2 h3 :
  same_outside P h1 h2 -> same_outside P h2 h3 -> same_outside P h1 h3.
Proof. intros H1 H2 n Hn. rewrite (H2 n Hn). by apply H1. Qed.

Lemma xstep_refl key i h : xp_inv h -> xstep key i (slots h key i) h h.
Proof. intros Hx. split_and!; [done..|]. intros j. by case_decide; subst. Qed.

Lemma xstep_trans key i c c' h1 h2 h3 :
  xstep key i c h1 h2 -> xstep key i c' h2 h3 -> xstep key i c' h1 h3.
Proof.
  intros (_ & Hs1 & H1) (Hx & Hs2 & H2). split_and!; [done|by eapply same_outside_trans|].
  intros j. rewrite H2, H1. by case_decide.
Qed.

Lemma xstep_slot key i c h h' : xstep key i c h h' -> slots h' key i = c.
Proof. intros (_ & _ & H). rewrite H. by case_decide. Qed.

Lemma nl_ok_step key i c h h' nl :
  xstep key i c h h' -> fst <$> c = fst <$> slots h key i -> nl_ok h key nl -> nl_ok h' key nl.
Proof.
  intros (_ & _ & H) Hc [Hl Hnl]. split; [done|]. intros j. rewrite Hnl, H.
  by case_decide; subst.
Qed.

(** The map of an index; there is none before the node is created. *)
Definition slot_perms (h : avtab) (key : avtab_key) (i : nat) : list Z :=
  match slots h key i with Some (_, p) => p | None => perms_zero end.

Lemma slot_perms_ok h key i : xp_inv h -> perms_ok (slot_perms h key i).
Proof.
  intros Hx. unfold slot_perms. destruct (slots h key i) as [[a p]|] eqn:E.
  - by eapply slots_perms_ok.
  - auto with xperm.
Qed.

(** ** Getting a node *)

Section edit.
Context (key : avtab_key).
Hypothesis Hkey : xkey key.

Lemma get_driver_step h nl :
  xp_inv h -> nl_ok h key nl ->
  exists a h', get_driver_node h key nl [] = Some (a, h', []) /\
    xstep key DRIVER_NODE (Some (a, slot_perms h key DRIVER_NODE)) h h'.
Proof.
  intros Hx [_ Hnl]. unfold get_driver_node, slot_perms. rewrite Hnl.
  destruct (slots h key DRIVER_NODE) as [[a p]|] eqn:E; cbn [fmap option_fmap option_map fst].
  - exists a, h. split; [done|]. rewrite <-E. by apply xstep_refl.
  - by apply new_step.
Qed.

Lemma get_func_step h nl driver fill :
  xp_inv h -> nl_get nl (Z.to_nat driver) = fst <$> slots h key (Z.to_nat driver) ->
  0 <= driver < 256 -> perms_ok (fill perms_zero) ->
  exists a h', get_func_node h key nl driver fill [] = Some (a, h', []) /\
    xstep key (Z.to_nat driver)
      (Some (a, match slots h key (Z.to_nat driver) with
                | Some (_, p) => p
                | None => fill perms_zero
                end)) h h'.
Proof.
  intros Hx Hnl Hd Hf. unfold get_func_node. rewrite Hnl.
  destruct (slots h key (Z.to_nat driver)) as [[a p]|] eqn:E; cbn [fmap option_fmap option_map fst].
  - exists a, h. split; [done|]. rewrite <-E. by apply xstep_refl.
  - destruct (new_step h key (Z.to_nat driver) AVTAB_XPERMS_IOCTLFUNCTION driver)
      as (a & h1 & Hn & Hs1); try done.
    destruct (update_step h1 key (Z.to_nat driver) a perms_zero fill) as (h2 & Hu & Hs2);
      [by destruct Hs1|by eapply xstep_slot|done|].
    exists a, h2. unfold new_func_node. rewrite Hn, Hu. split; [done|]. by eapply xstep_trans.
Qed.

(** ** Resetting *)

Lemma reset_func_step h nl i :
  xp_inv h -> nl_ok h key nl -> (i < 257)%nat ->
  exists h' nl', reset_func i (h, nl) = Some (h', nl') /\ xstep key i None h h' /\
    nl_ok h' key nl'.
Proof.
  intros Hx Hok Hi. pose proof Hok as [Hl Hnl]. unfold reset_func. rewrite Hnl.
  destruct (slots h key i) as [[a p]|] eqn:E; cbn [fmap option_fmap option_map fst].
  - destruct (remove_step h key i a p Hx E) as (n & h' & -> & -> & Hs).
    exists h', (<[i := None]> nl). split; [done|]. split; [done|].
    split; [by rewrite length_insert|]. intros j. rewrite nl_get_insert by lia.
    destruct Hs as (_ & _ & ->). rewrite Hnl. by case_decide.
  - exists h, nl. split; [done|]. split; [|done]. rewrite <-E. by apply xstep_refl.
Qed.

Lemma reset_loop_spec l h nl :
  xp_inv h -> nl_ok h key nl -> Forall (fun i => (i < 257)%nat) l ->
  exists h' nl', for_each reset_func l (h, nl) = Some (h', nl') /\ xp_inv h' /\
    same_outside (eq key) h h' /\ nl_ok h' key nl' /\
    forall j, slots h' key j = if decide (j ∈ l) then None else slots h key j.
Proof.
  intros Hx Hok Hl. revert h nl Hx Hok. induction Hl as [|i l Hi Hl IH]; intros h nl Hx Hok;
    cbn [for_each]; [by exists h, nl|].
  destruct (reset_func_step h nl i Hx Hok Hi) as (h1 & nl1 & -> & (Hx1 & Hs1 & H1) & Hok1).
  destruct (IH h1 nl1 Hx1 Hok1) as (h' & nl' & -> & Hx' & Hs' & Hok' & H').
  exists h', nl'. split_and!; try done; [by eapply same_outside_trans|].
  intros j. rewrite H', H1. destruct (decide (j ∈ i :: l)) as [Hj|Hj];
    rewrite elem_of_cons in Hj; repeat case_decide; subst; tauto || done.
Qed.

Lemma reset_nodes_spec h nl :
  xp_inv h -> nl_ok h key nl ->
  exists h' nl', reset_nodes h nl = Some (h', nl') /\ xp_inv h' /\
    same_outside (eq key) h h' /\ nl_ok h' key nl' /\
    forall j, (j < 256)%nat -> slots h' key j = None.
Proof.
  intros Hx Hok. unfold reset_nodes.
  destruct (reset_loop_spec (seq 0 256) h nl Hx Hok) as (h1 & nl1 & -> & Hx1 & Hs1 & Hok1 & H1).
  { apply Forall_forall. intros i Hi%elem_of_seq. lia. }
  pose proof (proj2 Hok1) as Hnl1. rewrite Hnl1.
  assert (Hnone : forall j, (j < 256)%nat -> slots h1 key j = None).
  { intros j Hj. rewrite H1, decide_True; [done|]. apply elem_of_seq. lia. }
  destruct (slots h1 key DRIVER_NODE) as [[a p]|] eqn:E; cbn [fmap option_fmap option_map fst]; [|by exists h1, nl1].
  destruct (update_step h1 key DRIVER_NODE a p (fun _ => perms_zero) Hx1 E) as (h2 & -> & Hs2);
    [auto with xperm|].
  exists h2, nl1. split; [done|]. pose proof Hs2 as (Hx2 & Ho2 & H2). split_and!; try done.
  - by eapply same_outside_trans.
  - eapply nl_ok_step; [done| |done]. by rewrite E.
  - intros j Hj. rewrite H2, decide_False by (unfold DRIVER_NODE; lia). by apply Hnone.
Qed.

(** ** What the nodes allow *)

(** The commands a range stands for: whole drivers when its bounds are in different
    drivers. *)
Definition covered (p : xperm) (cmd : Z) : bool :=
  if ioctl_driver (low p) =? ioctl_driver (high p) then
    (ioctl_driver cmd =? ioctl_driver (low p)) &&
    ((ioctl_func (low p) <=? ioctl_func cmd) && (ioctl_func cmd <=? ioctl_func (high p)))
  else (ioctl_driver (low p) <=? ioctl_driver cmd) && (ioctl_driver cmd <=? ioctl_driver (high p)).

Definition slot_allowed (h : avtab) (cmd : Z) : bool :=
  perm_bit (slot_perms h key DRIVER_NODE) (ioctl_driver cmd) ||
  perm_bit (slot_perms h key (Z.to_nat (ioctl_driver cmd))) (ioctl_func cmd).

Lemma driver_range x : 0 <= ioctl_driver x < 256.
Proof. pose proof (land_le_r (Z.shiftr x 8) 0xFF). unfold ioctl_driver. lia. Qed.

Lemma func_range x : 0 <= ioctl_func x < 256.
Proof. pose proof (land_le_r x 0xFF). unfold ioctl_func. lia. Qed.

Lemma driver_index x : Z.to_nat (ioctl_driver x) <> DRIVER_NODE.
Proof. pose proof (driver_range x). unfold DRIVER_NODE. lia. Qed.

Lemma step_perms i a p h h' j :
  xstep key i (Some (a, p)) h h' ->
  slot_perms h' key j = if decide (j = i) then p else slot_perms h key j.
Proof. intros (_ & _ & H). unfold slot_perms. rewrite H. by case_decide. Qed.

(** The bits of a command are in range; the nodes it concerns are different ones. *)
Ltac bytes :=
  repeat match goal with
    | |- context [ioctl_driver ?x] =>
        lazymatch goal with
        | _ : 0 <= ioctl_driver x < 256 |- _ => fail
        | _ => pose proof (driver_range x)
        end
    | |- context [ioctl_func ?x] =>
        lazymatch goal with
        | _ : 0 <= ioctl_func x < 256 |- _ => fail
        | _ => pose proof (func_range x)
        end
    end.

Lemma extend_driver h nl lo hi :
  xp_inv h -> nl_ok h key nl -> 0 <= lo -> hi < 256 ->
  exists a h1 h', get_driver_node h key nl [] = Some (a, h1, []) /\
    update_perms h1 a (set_range lo hi) = Some h' /\
    xstep key DRIVER_NODE (Some (a, set_range lo hi (slot_perms h key DRIVER_NODE))) h h'.
Proof.
  intros Hx Hok Hlo Hhi. pose proof (slot_perms_ok h key DRIVER_NODE Hx).
  destruct (get_driver_step h nl Hx Hok) as (a & h1 & Hg & Hs1).
  destruct (update_step h1 key _ a _ (set_range lo hi) (proj1 Hs1) (xstep_slot _ _ _ _ _ Hs1))
    as (h2 & Hu & Hs2); [auto with xperm|].
  exists a, h1, h2. split_and!; [done..|]. by eapply xstep_trans.
Qed.

Lemma extend_func h nl driver lo hi :
  xp_inv h -> nl_ok h key nl -> 0 <= driver < 256 -> 0 <= lo -> hi < 256 ->
  exists a h1 h', get_func_node h key nl driver (fun perms => perms) [] = Some (a, h1, []) /\
    update_perms h1 a (set_range lo hi) = Some h' /\
    xstep key (Z.to_nat driver)
      (Some (a, set_range lo hi (slot_perms h key (Z.to_nat driver)))) h h'.
Proof.
  intros Hx Hok Hd Hlo Hhi. pose proof (slot_perms_ok h key (Z.to_nat driver) Hx).
  destruct (get_func_step h nl driver (fun perms => perms)) as (a & h1 & Hg & Hs1);
    [done|apply Hok|done|auto with xperm|].
  destruct (update_step h1 key _ a _ (set_range lo hi) (proj1 Hs1) (xstep_slot _ _ _ _ _ Hs1))
    as (h2 & Hu & Hs2); [auto with xperm|].
  exists a, h1, h2. split_and!; [done..|]. by eapply xstep_trans.
Qed.

Lemma extend_spec h nl p :
  xp_inv h -> nl_ok h key nl ->
  exists h', extend_xperms h key nl p [] = Some (h', []) /\ xp_inv h' /\
    same_outside (eq key) h h' /\
    forall cmd, slot_allowed h' cmd = slot_allowed h cmd || covered p cmd.
Proof.
  intros Hx Hok. unfold extend_xperms, covered, slot_allowed. bytes.
  destruct (Z.eqb_spec (ioctl_driver (low p)) (ioctl_driver (high p))) as [_|_]; cbn [negb].
  - destruct (extend_func h nl (ioctl_driver (low p)) (ioctl_func (low p)) (ioctl_func (high p)))
      as (a & h1 & h' & -> & -> & Hs); [done..|lia|lia|].
    exists h'. split; [done|]. split; [apply Hs|]. split; [apply Hs|]. intros cmd. bytes.
    rewrite !(step_perms _ _ _ _ _ _ Hs), decide_False by (symmetry; apply driver_index).
    rewrite <-orb_assoc. f_equal.
    destruct (Z.eqb_spec (ioctl_driver cmd) (ioctl_driver (low p))) as [->|Hne].
    + rewrite decide_True, set_range_at by (by apply slot_perms_ok || lia). apply orb_comm.
    + rewrite decide_False by lia. by rewrite orb_false_r.
  - destruct (extend_driver h nl (ioctl_driver (low p)) (ioctl_driver (high p)))
      as (a & h1 & h' & -> & -> & Hs); [done..|lia|lia|].
    exists h'. split; [done|]. split; [apply Hs|]. split; [apply Hs|]. intros cmd. bytes.
    rewrite !(step_perms _ _ _ _ _ _ Hs), decide_True, decide_False by (done || apply driver_index).
    rewrite set_range_at by (by apply slot_perms_ok || lia).
    by rewrite <-!orb_assoc, orb_comm, <-!orb_assoc.
Qed.

(** The driver map with every bit set. *)
Lemma fill_driver h nl :
  xp_inv h -> nl_ok h key nl ->
  exists a h1 h', get_driver_node h key nl [] = Some (a, h1, []) /\
    update_perms h1 a (fun _ => perms_full) = Some h' /\
    xstep key DRIVER_NODE (Some (a, perms_full)) h h'.
Proof.
  intros Hx Hok. destruct (get_driver_step h nl Hx Hok) as (a & h1 & Hg & Hs1).
  destruct (update_step h1 key _ a _ (fun _ => perms_full) (proj1 Hs1) (xstep_slot _ _ _ _ _ Hs1))
    as (h2 & Hu & Hs2); [auto with xperm|].
  exists a, h1, h2. split_and!; [done..|]. by eapply xstep_trans.
Qed.

(** One driver is taken out of the driver map and gets a map of its own. *)
Lemma split_driver h nl da driver lo hi :
  xp_inv h -> slots h key DRIVER_NODE = Some (da, perms_full) -> 0 <= driver < 256 ->
  slots h key (Z.to_nat driver) = None -> nl_get nl (Z.to_nat driver) = None ->
  0 <= lo -> hi < 256 ->
  exists a h1 h2 h', get_func_node h key nl driver (fun _ => perms_full) [] = Some (a, h1, []) /\
    update_perms h1 da (xperm_clear driver) = Some h2 /\
    update_perms h2 a (clear_range lo hi) = Some h' /\
    xp_inv h' /\ same_outside (eq key) h h' /\
    forall j, slot_perms h' key j =
      if decide (j = Z.to_nat driver) then clear_range lo hi perms_full
      else if decide (j = DRIVER_NODE) then xperm_clear driver perms_full else slot_perms h key j.
Proof.
  intros Hx Hda Hd Hno Hnl Hlo Hhi.
  assert (Hi : Z.to_nat driver <> DRIVER_NODE) by (unfold DRIVER_NODE; lia).
  destruct (get_func_step h nl driver (fun _ => perms_full)) as (a & h1 & Hg & Hs1);
    [done|by rewrite Hno|done|auto with xperm|].
  rewrite Hno in Hs1. pose proof Hs1 as (Hx1 & Ho1 & H1).
  destruct (update_step h1 key DRIVER_NODE da perms_full (xperm_clear driver) Hx1)
    as (h2 & Hu2 & Hs2); [by rewrite H1, decide_False|auto with xperm|].
  pose proof Hs2 as (Hx2 & Ho2 & H2).
  destruct (update_step h2 key (Z.to_nat driver) a perms_full (clear_range lo hi) Hx2)
    as (h3 & Hu3 & Hs3); [|auto with xperm|].
  { rewrite H2, decide_False by done. by eapply xstep_slot. }
  exists a, h1, h2, h3. split_and!; try done; [apply Hs3| |].
  - eapply same_outside_trans; [exact Ho1|]. eapply same_outside_trans; [exact Ho2|apply Hs3].
  - intros j. rewrite (step_perms _ _ _ _ _ _ Hs3), (step_perms _ _ _ _ _ _ Hs2).
    case_decide; [done|]. case_decide; [done|]. rewrite (step_perms _ _ _ _ _ _ Hs1).
    by case_decide.
Qed.

Lemma complement_spec h nl p :
  xp_inv h -> nl_ok h key nl -> (forall j, (j < 256)%nat -> slots h key j = None) ->
  exists h', complement_xperms h key nl p [] = Some (h', []) /\ xp_inv h' /\
    same_outside (eq key) h h' /\ forall cmd, slot_allowed h' cmd = negb (covered p cmd).
Proof.
  intros Hx Hok Hno. unfold complement_xperms, covered, slot_allowed. bytes.
  destruct (fill_driver h nl Hx Hok) as (da & h1 & h2 & -> & -> & Hs2).
  pose proof (xstep_slot _ _ _ _ _ Hs2) as Hd2. pose proof Hs2 as (Hx2 & Ho2 & Hsl2).
  destruct (Z.eqb_spec (ioctl_driver (low p)) (ioctl_driver (high p))) as [_|_]; cbn [negb].
  - destruct (split_driver h2 nl da (ioctl_driver (low p)) (ioctl_func (low p)) (ioctl_func (high p)))
      as (a & h3 & h4 & h' & -> & -> & -> & Hx' & Ho' & Hp'); [done..| | |lia|lia|].
    { rewrite Hsl2, decide_False by apply driver_index. apply Hno. lia. }
    { rewrite (proj2 Hok), Hno by lia. done. }
    exists h'. split; [done|]. split; [done|]. split; [by eapply same_outside_trans|].
    intros cmd. bytes. rewrite !Hp', (decide_False (P := DRIVER_NODE = _)), decide_True
      by (done || symmetry; apply driver_index). rewrite xperm_clear_full_at by lia.
    destruct (Z.eqb_spec (ioctl_driver cmd) (ioctl_driver (low p))) as [->|Hne]; [|done].
    rewrite decide_True by done. cbn [negb orb andb]. by rewrite clear_range_full_at by lia.
  - destruct (update_step h2 key DRIVER_NODE da perms_full
      (clear_range (ioctl_driver (low p)) (ioctl_driver (high p))) Hx2 Hd2) as (h3 & -> & Hs3).
    { apply clear_range_ok; [auto with xperm|lia..]. }
    pose proof (xstep_trans _ _ _ _ _ _ _ Hs2 Hs3) as Hs. exists h3. split; [done|].
    split; [apply Hs|]. split; [apply Hs|]. intros cmd. bytes.
    rewrite !(step_perms _ _ _ _ _ _ Hs), decide_True, decide_False by (done || apply driver_index).
    unfold slot_perms. rewrite Hno, (proj2 (perms_zero_bit _)), orb_false_r by lia.
    by rewrite clear_range_full_at by lia.
Qed.

(** The whole edit of one key. *)
Lemma edit_xperms_spec p db :
  xp_inv (te_avtab db) ->
  exists h', edit_xperms p key (db, []) = Some (set_te_avtab db h', []) /\ xp_inv h' /\
    same_outside (eq key) (te_avtab db) h' /\
    forall cmd, slot_allowed h' cmd =
      if reset p then negb (covered p cmd) else slot_allowed (te_avtab db) cmd || covered p cmd.
Proof.
  intros Hx. unfold edit_xperms. destruct (find_nodes_spec (te_avtab db) key Hx Hkey) as (nl & -> & Hok).
  destruct (reset p).
  - destruct (reset_nodes_spec (te_avtab db) nl Hx Hok) as (h1 & nl1 & -> & Hx1 & Ho1 & Hok1 & Hno).
    destruct (complement_spec h1 nl1 p Hx1 Hok1 Hno) as (h' & -> & Hx' & Ho' & Ha).
    exists h'. split_and!; try done. by eapply same_outside_trans.
  - destruct (extend_spec (te_avtab db) nl p Hx Hok) as (h' & -> & Hx' & Ho' & Ha). by exists h'.
Qed.

End edit.

(** ** All edits of a call *)

Lemma same_outside_slots P h h' k i :
  xp_inv h -> xp_inv h' -> same_outside P h h' -> ~ P k -> slots h' k i = slots h k i.
Proof.
  intros [_ Hu] [_ Hu'] Hs Hk. apply option_eq. intros [a p]. rewrite !slots_some by done.
  split; intros (n & Hn & <- & Hr); exists n; (split; [by apply (Hs n Hk)|done]).
Qed.

Lemma same_outside_allowed P h h' k cmd :
  xp_inv h -> xp_inv h' -> same_outside P h h' -> ~ P k ->
  slot_allowed k h' cmd = slot_allowed k h cmd.
Proof.
  intros Hx Hx' Hs Hk. unfold slot_allowed, slot_perms.
  by rewrite !(same_outside_slots P h h').
Qed.

Lemma for_each_xperms p ks db :
  xp_inv (te_avtab db) -> Forall xkey ks ->
  exists h', for_each (edit_xperms p) ks (db, []) = Some (set_te_avtab db h', []) /\
    xp_inv h' /\ same_outside (fun k => k ∈ ks) (te_avtab db) h' /\
    forall k cmd, k ∈ ks -> slot_allowed k h' cmd =
      if reset p then negb (covered p cmd) else slot_allowed k (te_avtab db) cmd || covered p cmd.
Proof.
  intros Hi Hf. revert db Hi. induction Hf as [|key ks Hk Hf IH]; intros db Hi; cbn [for_each].
  { exists (te_avtab db). split_and!; try done; [by destruct db|]. by intros k ? ?%elem_of_nil. }
  destruct (edit_xperms_spec key Hk p db Hi) as (h1 & -> & Hi1 & Hs1 & Ha1).
  destruct (IH (set_te_avtab db h1) Hi1) as (h' & -> & Hi' & Hs' & Ha').
  change (te_avtab (set_te_avtab db h1)) with h1 in *.
  exists h'. rewrite set_te_avtab_twice. split_and!; try done.
  - intros n Hn. rewrite elem_of_cons in Hn. rewrite (Hs' n) by tauto. apply Hs1.
    intros E. apply Hn. by left.
  - intros k cmd Hin. destruct (decide (k ∈ ks)) as [Hks|Hks].
    + rewrite Ha' by done. destruct (reset p); [done|].
      destruct (decide (k = key)) as [->|Hne].
      * by rewrite Ha1, <-orb_assoc, orb_diag.
      * by rewrite (same_outside_allowed (eq key) (te_avtab db) h1) by done.
    + apply elem_of_cons in Hin as [->|?]; [|done].
      rewrite (same_outside_allowed (fun k => k ∈ ks) h1 h'); done.
Qed.

(** Extended permissions are edited for the keys an [add_rule] without stripping would
    edit: an omitted type stands for the attributes. *)
Definition xrule (db : policydb) (s : state) : Prop :=
  same_symbols db s /\ policyvers s.1 = policyvers db.

Lemma edit_xperms_symbols p db0 key s s' :
  xrule db0 s -> edit_xperms p key s = Some s' -> xrule db0 s'.
Proof.
  destruct s as [db o]. unfold edit_xperms, xrule, same_symbols. intros Hs.
  destruct (find_nodes _ _) as [nl|]; [|done].
  destruct (if reset p then _ else _) as [[h nl']|]; [|done].
  destruct (if reset p then _ else _) as [[h' o']|]; [|done]. by intros [= <-].
Qed.

Lemma types_of_xperms db effect :
  effect <> AVTAB_AUDITDENY -> types_of db effect false = attrs (table (p_types db)).
Proof.
  intros He. unfold types_of, strip_av. by destruct (Z.eqb_spec effect AVTAB_AUDITDENY).
Qed.

Lemma add_xperm_rule_keys db src tgt cls p effect o :
  POLICYDB_VERSION_XPERMS_IOCTL <= policyvers db -> effect <> AVTAB_AUDITDENY ->
  add_xperm_rule src tgt cls p effect (db, o) =
  for_each (edit_xperms p) (rule_keys db src tgt cls effect false) (db, o).
Proof.
  intros Hv He. set (E := edit_xperms p).
  assert (Hver : forall st, xrule db st ->
            (policyvers st.1 <? POLICYDB_VERSION_XPERMS_IOCTL) = false).
  { intros st [_ ->]. apply Z.ltb_ge. lia. }
  assert (Hcls : forall s t st, xrule db st ->
    add_xperm_rule_cls s t cls p effect st =
    for_each E (map (rule_key effect s t) (choose cls (hashtab_data (table (p_classes db))))) st).
  { intros s t st Hst. unfold add_xperm_rule_cls. rewrite Hver, <-for_each_map by done.
    assert (Hone : forall c st, xrule db st ->
      add_xperm_rule_one s t c p effect st = E (rule_key effect s t c) st)
      by (intros c st' Hst'; unfold add_xperm_rule_one; by rewrite Hver).
    destruct cls as [c|]; cbn [choose].
    - rewrite (for_each_one (fun c => E (rule_key effect s t c))). by apply Hone.
    - rewrite (proj2 (proj1 Hst)). revert st Hst. induction (hashtab_data _) as [|c l IH]; intros st Hst;
        cbn [for_each]; [done|]. rewrite Hone by done.
      destruct (E (rule_key effect s t c) st) as [st'|] eqn:Est; [|done].
      apply IH. by eapply edit_xperms_symbols. }
  assert (Htgt : forall s st, xrule db st ->
    add_xperm_rule_tgt s tgt cls p effect st =
    for_each E (concat (map (fun t => map (rule_key effect s t)
      (choose cls (hashtab_data (table (p_classes db))))) (choose tgt (types_of db effect false)))) st).
  { intros s st Hst. unfold add_xperm_rule_tgt. rewrite Hver by done.
    destruct tgt as [t|]; cbn [choose].
    - simpl. rewrite app_nil_r. by apply Hcls.
    - rewrite types_of_xperms, (proj1 (proj1 Hst)) by done.
      apply (for_each_bind (xrule db)); [|intros; by apply Hcls|done].
      intros k s1 s2. apply edit_xperms_symbols. }
  unfold add_xperm_rule, rule_keys. rewrite (Hver (db, o)) by done. destruct src as [s|]; cbn [choose].
  - rewrite Htgt by done. simpl. by rewrite app_nil_r.
  - cbn [fst]. rewrite <-(types_of_xperms db effect) by done.
    apply (for_each_bind (xrule db)); [|intros; by apply Htgt|done].
    intros k s1 s2. apply edit_xperms_symbols.
Qed.

(** ** Commands a table allows *)

(** The decision for an ioctl command: some node of the key allows its driver, or its
    function of the driver. *)
Definition ioctl_allowed (h : avtab) (key : avtab_key) (cmd : Z) : Prop :=
  exists n x, n ∈ avtab_nodes h /\ akey n = key /\ xperms (adatum n) = Some x /\
    (x_specified x = AVTAB_XPERMS_IOCTLDRIVER /\ xperm_test (ioctl_driver cmd) (x_perms x) = 1 \/
     x_specified x = AVTAB_XPERMS_IOCTLFUNCTION /\ x_driver x = ioctl_driver cmd /\
       xperm_test (ioctl_func cmd) (x_perms x) = 1).

Lemma slot_bit_iff h key i y :
  xp_inv h ->
  perm_bit (slot_perms h key i) y = true <->
  exists n, n ∈ avtab_nodes h /\ akey n = key /\ xslot n = Some i /\ xperm_test y (perms_of n) = 1.
Proof.
  intros [_ Hu]. assert (Ht : forall p, perm_bit p y = true <-> xperm_test y p = 1).
  { intros p. rewrite xperm_test_bit. by destruct (perm_bit p y). }
  unfold slot_perms. destruct (slots h key i) as [[a p]|] eqn:E.
  - rewrite Ht. apply slots_some in E as E'; [|done].
    destruct E' as (n & Hn & Hk & Hs & <- & <-). split; [intros; by exists n|].
    intros (m & Hm & Hkm & Hsm & Hb). by rewrite (Hu n m i) by congruence.
  - rewrite (proj2 (perms_zero_bit _)). split; [done|]. intros (n & Hn & Hk & Hs & _).
    assert (slots h key i = Some (addr n, perms_of n)) by (apply slots_some; eauto 8). congruence.
Qed.

(** What the index of a node says. *)
Lemma xslot_index n x d :
  xperms (adatum n) = Some x -> 0 <= x_driver x < 256 -> 0 <= d < 256 ->
  (xslot n = Some DRIVER_NODE <-> x_specified x = AVTAB_XPERMS_IOCTLDRIVER) /\
  (xslot n = Some (Z.to_nat d) <-> x_specified x = AVTAB_XPERMS_IOCTLFUNCTION /\ x_driver x = d).
Proof.
  intros Hx Hr Hd. unfold xslot, DRIVER_NODE. rewrite Hx.
  split; (split; [repeat case_Z; intros Hs; simplify_eq; lia|]).
  - by intros ->.
  - by intros [-> ->].
Qed.

Lemma slot_allowed_iff h key cmd :
  xp_inv h -> slot_allowed key h cmd = true <-> ioctl_allowed h key cmd.
Proof.
  intros Hx. unfold slot_allowed. rewrite orb_true_iff, !slot_bit_iff by done.
  assert (Hr : forall n x, n ∈ avtab_nodes h -> xperms (adatum n) = Some x -> 0 <= x_driver x < 256).
  { intros n x Hn Ex. destruct Hx as [[(_ & Hg & _) _] _]. rewrite Forall_forall in Hg.
    destruct (Hg n Hn) as [_ [_ Hd]]. rewrite Ex in Hd. apply Hd. }
  pose proof (driver_range cmd) as Hc. split.
  - assert (Hsome : forall n i, xslot n = Some i -> exists x, xperms (adatum n) = Some x).
    { intros n i. unfold xslot. destruct (xperms (adatum n)); eauto. done. }
    intros [(n & Hn & Hk & Hs & Hb)|(n & Hn & Hk & Hs & Hb)];
      destruct (Hsome n _ Hs) as [x Ex]; unfold perms_of in Hb; rewrite Ex in Hb;
      destruct (xslot_index n x (ioctl_driver cmd) Ex (Hr n x Hn Ex) Hc) as [H1 H2];
      exists n, x; (split_and!; [done..|]).
    + left. by rewrite <-H1.
    + right. by destruct (proj1 H2 Hs).
  - intros (n & x & Hn & Hk & Ex & Hs).
    destruct (xslot_index n x (ioctl_driver cmd) Ex (Hr n x Hn Ex) Hc) as [H1 H2].
    destruct Hs as [[Hs Hb]|(Hs & Hd & Hb)]; [left|right]; exists n; unfold perms_of; rewrite Ex;
      (split_and!; try done); [by apply H1|by apply H2].
Qed.

(** ** Ranges *)

Lemma cmd_bytes x : 0 <= x < 2 ^ 16 -> x = ioctl_driver x * 256 + ioctl_func x.
Proof.
  intros Hx. unfold ioctl_driver, ioctl_func. change 0xFF with (Z.ones 8).
  rewrite !Z.land_ones, Z.shiftr_div_pow2 by lia.
  assert (0 <= x / 2 ^ 8 < 2 ^ 8).
  { split; [apply Z.div_pos; lia|apply Z.div_lt_upper_bound; lia]. }
  rewrite (Z.mod_small (x / 2 ^ 8)) by lia. pose proof (Z.div_mod x (2 ^ 8)). lia.
Qed.

(** The commands a range affects: those between its bounds when both have the same driver
    (the high byte), otherwise all commands of the drivers from the low to the high one,
    also those below the low and above the high bound. *)
Definition affected (p : xperm) (cmd : Z) : Prop :=
  if decide (low p / 256 = high p / 256) then low p <= cmd <= high p
  else low p / 256 <= cmd / 256 <= high p / 256.

Lemma driver_div x : 0 <= x < 2 ^ 16 -> ioctl_driver x = x / 256.
Proof. intros Hx. pose proof (cmd_bytes _ Hx). pose proof (func_range x). apply Z.div_unique with (ioctl_func x); lia. Qed.

Lemma covered_affected p cmd :
  0 <= low p < 2 ^ 16 -> 0 <= high p < 2 ^ 16 -> 0 <= cmd < 2 ^ 16 -> covered p cmd = true <-> affected p cmd.
Proof.
  intros Hl Hh Hc. pose proof (cmd_bytes _ Hl). pose proof (cmd_bytes _ Hh). pose proof (cmd_bytes _ Hc).
  pose proof (func_range (low p)). pose proof (func_range (high p)). pose proof (func_range cmd).
  unfold covered, affected. rewrite <-!driver_div by done.
  destruct (Z.eqb_spec (ioctl_driver (low p)) (ioctl_driver (high p))) as [E|E]; [rewrite decide_True by done|rewrite decide_False by done].
  - rewrite !andb_true_iff, Z.eqb_eq, !Z.leb_le. split; intros Hin; lia.
  - rewrite andb_true_iff, !Z.leb_le. done.
Qed.

(** * The properties of extended permission rules, with concrete instances *)

Lemma rule_keys_x db src tgt cls effect :
  effect ∈ [AVTAB_XPERMS_ALLOWED; AVTAB_XPERMS_AUDITALLOW; AVTAB_XPERMS_DONTAUDIT] ->
  effect <> AVTAB_AUDITDENY /\ Forall xkey (rule_keys db src tgt cls effect false).
Proof.
  intros He. split; [by intros ->; set_unfold in He; decompose [or] He|].
  apply Forall_forall. intros k (s & t & c & _ & _ & _ & ->)%elem_of_rule_keys.
  set_unfold in He. destruct He as [->|[->|[->|[]]]];
    (split; [split_and!; apply u16_range|]; split; [unfold specs; set_solver|done]).
Qed.

(** C5: what [add_xperm_rule] does to the ioctl commands.  With memory available it never
    follows a null or stale node pointer, although it frees function nodes while it holds
    pointers to others; each selected (source, target, class), where an omitted type ranges
    over the attributes and an omitted class over all, allows afterwards what it allowed and
    the commands the range affects, or, for a complement, exactly the commands the range
    does not affect; other rules keep their nodes.  At most one driver node and one function
    node per driver exist for a key, as the comment in the code claims, before and after.
    A range affects exactly the commands between its bounds only when both bounds have the
    same driver; a range over several drivers affects all commands of these drivers, also
    those outside of its bounds, although the help text describes a range as the permissions
    within its bounds. *)
Theorem add_xperm_rule_correct db src tgt cls p effect :
  xp_inv (te_avtab db) -> POLICYDB_VERSION_XPERMS_IOCTL <= policyvers db ->
  effect ∈ [AVTAB_XPERMS_ALLOWED; AVTAB_XPERMS_AUDITALLOW; AVTAB_XPERMS_DONTAUDIT] ->
  0 <= low p < 2 ^ 16 -> 0 <= high p < 2 ^ 16 ->
  let selected k := exists s t c,
    s ∈ choose src (attrs (table (p_types db))) /\ t ∈ choose tgt (attrs (table (p_types db))) /\
    c ∈ choose cls (hashtab_data (table (p_classes db))) /\ k = rule_key effect s t c in
  exists h', add_xperm_rule src tgt cls p effect (db, []) = Some (set_te_avtab db h', []) /\
    xp_inv h' /\
    (forall k cmd, selected k -> 0 <= cmd < 2 ^ 16 ->
       ioctl_allowed h' k cmd <->
       if reset p then ~ affected p cmd
       else ioctl_allowed (te_avtab db) k cmd \/ affected p cmd) /\
    same_outside selected (te_avtab db) h'.
Proof.
  intros Hi Hv He Hl Hh selected. destruct (rule_keys_x db src tgt cls effect He) as [Hne Hks].
  rewrite add_xperm_rule_keys by done.
  destruct (for_each_xperms p _ db Hi Hks) as (h' & He' & Hi' & Hs & Ha).
  pose proof (elem_of_rule_keys db src tgt cls effect false) as Hel.
  rewrite types_of_xperms in Hel by done. fold (selected) in Hel.
  exists h'. split; [exact He'|]. split_and!; try done.
  - intros k cmd Hk Hc. rewrite <-(slot_allowed_iff h'), Ha by (done || by apply Hel). pose proof (covered_affected p cmd Hl Hh Hc) as Hcov.
    destruct (reset p); [by rewrite negb_true_iff, <-not_true_iff_false, Hcov|by rewrite orb_true_iff, slot_allowed_iff, Hcov].
  - intros n Hn. apply Hs. by rewrite Hel.
Qed.

Lemma ex_te_xp : xp_inv ex_te.
Proof.
  split; [apply ex_te_inv|]. assert (Hn : avtab_nodes ex_te = []) by (vm_compute; reflexivity).
  rewrite Hn. intros a b i Ha. by apply elem_of_nil in Ha.
Qed.

(** Decides whether a concrete range affects a concrete command. *)
Ltac decide_affected :=
  unfold affected; cbn [low high];
  first [rewrite decide_True by (vm_compute; reflexivity) | rewrite decide_False by (vm_compute; congruence)];
  vm_compute; intuition congruence.

(** allowxperm s * f ioctl ~{ 0x8910-0x8926 }: for the attribute "d" the command 0x8927 is
    allowed and 0x8920 is not; with ~{ 0x8910-0x8A00 } the commands 0x8900 and 0x8AFF, which
    are outside of the bounds, are not allowed either. *)
Lemma add_xperm_rule_witness :
  (exists h', add_xperm_rule (Some (plain_type 1 1 TYPE_TYPE)) None (Some ex_class)
      (Xperm 0x8910 0x8926 true) AVTAB_XPERMS_ALLOWED (ex_db, []) = Some (set_te_avtab ex_db h', []) /\
    xp_inv h' /\ ioctl_allowed h' (AvKey 1 3 4 AVTAB_XPERMS_ALLOWED) 0x8927 /\
    ~ ioctl_allowed h' (AvKey 1 3 4 AVTAB_XPERMS_ALLOWED) 0x8920) /\
  (exists h', add_xperm_rule (Some (plain_type 1 1 TYPE_TYPE)) None (Some ex_class)
      (Xperm 0x8910 0x8A00 true) AVTAB_XPERMS_ALLOWED (ex_db, []) = Some (set_te_avtab ex_db h', []) /\
    ~ ioctl_allowed h' (AvKey 1 3 4 AVTAB_XPERMS_ALLOWED) 0x8900 /\
    ~ ioctl_allowed h' (AvKey 1 3 4 AVTAB_XPERMS_ALLOWED) 0x8AFF).
Proof.
  assert (Hk : exists s t c, s ∈ [plain_type 1 1 TYPE_TYPE] /\ t ∈ attrs (table (p_types ex_db)) /\
    c ∈ [ex_class] /\ AvKey 1 3 4 AVTAB_XPERMS_ALLOWED = rule_key AVTAB_XPERMS_ALLOWED s t c).
  { exists (plain_type 1 1 TYPE_TYPE), (plain_type 3 1 TYPE_ATTRIB), ex_class.
    split; [by left|]. split; [vm_compute; left|]. split; [by left|]. vm_compute. reflexivity. }
  pose proof (fun hi Hhi => add_xperm_rule_correct ex_db (Some (plain_type 1 1 TYPE_TYPE)) None (Some ex_class)
    (Xperm 0x8910 hi true) AVTAB_XPERMS_ALLOWED ex_te_xp ltac:(vm_compute; congruence)
    ltac:(by left) ltac:(simpl; lia) Hhi) as Hrule.
  split.
  - destruct (Hrule 0x8926 ltac:(simpl; lia)) as (h' & Hr & Hi & Ha & _).
    exists h'. split; [exact Hr|]. split; [exact Hi|]. split.
    + apply (Ha _ 0x8927 Hk ltac:(lia)). decide_affected.
    + intros Hx. apply (Ha _ 0x8920 Hk ltac:(lia)) in Hx. apply Hx. decide_affected.
  - destruct (Hrule 0x8A00 ltac:(simpl; lia)) as (h' & Hr & Hi & Ha & _). exists h'. split; [exact Hr|]. split.
    + intros Hx. apply (Ha _ 0x8900 Hk ltac:(lia)) in Hx. apply Hx. decide_affected.
    + intros Hx. apply (Ha _ 0x8AFF Hk ltac:(lia)) in Hx. apply Hx. decide_affected.
Defined.
