(* ===== verification/SepolicyFilename.v ===== *)
(** * Transitions for file names (native/src/sepolicy/sepolicy.cpp, libsepol/src/policydb.c)

    An entry of [filename_trans] maps a target type, class and file name to a chain of
    data, each of which gives an object type to the source types of its bitmap.
    [add_filename_trans] edits the chain; [filename_trans_check_datum] is the test a chain
    must pass when libsepol reads a policy. *)

From S2P Require Import Prelude Policyfile Ebitmap Hashtab Symtab Avtab Policydb Sepolicy.

Definition set_filename_trans (db : policydb)
    (h : option (hashtab_val filename_trans_key (list filename_trans_datum))) (count : Z) : policydb :=
  Policydb (policy_type db) (target_platform db) (policyvers db) (p_symtab db)
    (te_avtab db) h count (type_val_to_struct db) (type_attr_map db) (attr_type_map db)
    (permissive_map db) (p_mls db) (p_scope db) (p_global db) (p_index db) (p_genfs db).

(** A write through the pointer to the chain of a key, a no-op when the table has no such
    entry. *)
Definition write_chain (h : option (hashtab_val filename_trans_key (list filename_trans_datum)))
    (key : filename_trans_key) (c : list filename_trans_datum) :
    option (hashtab_val filename_trans_key (list filename_trans_datum)) :=
  (fun h => Hashtab (map (map (fun n => if keycmp key (hkey n) =? 0 then HNode (hkey n) c else n))
                       (htable h)) (hsize h) (nel h)) <$> h.

(** How the loop of [add_filename_trans] ends: at a datum of the source type, whose object
    type is replaced, or with [last] the end of [pre] and [trans] the head of [post]. *)
Inductive scan_result :=
  | Overwritten (c : list filename_trans_datum)
  | Stopped (pre post : list filename_trans_datum).

Fixpoint scan_chain (src def : Z) (c : list filename_trans_datum) : scan_result :=
  match c with
  | [] => Stopped [] []
  | trans :: c' =>
      if truthy (ebitmap_get_bit (stypes trans) (src - 1)) then
        Overwritten (FtDatum (stypes trans) def :: c')
      else if otype trans =? def then Stopped [] c
      else
        match scan_chain src def c' with
        | Overwritten c'' => Overwritten (trans :: c'')
        | Stopped pre post => Stopped (trans :: pre) post
        end
  end.

(** [if (last) ... else ...]: [trans] follows [last], or the key is allocated, its name
    duplicated, and the chain inserted; [None] is a dereference of [NULL]. *)
Definition link_chain (h : option (hashtab_val filename_trans_key (list filename_trans_datum)))
    (key : filename_trans_key) (pre chain : list filename_trans_datum) (o : oracle) :
    option (option (hashtab_val filename_trans_key (list filename_trans_datum)) * oracle) :=
  match pre with
  | _ :: _ => Some (h, o)
  | [] =>
      let (ok1, o) := malloc o in
      let (ok2, o) := malloc o in
      if ok1 && ok2 then
        let '(_, h, o) := hashtab_insert h key chain o in Some (h, o)
      else None
  end.

(** [add_filename_trans] for the data of the names. *)
Definition add_filename_trans_data (src : Z) (key : filename_trans_key) (def : Z) (s : state) :
    option (bool * state) :=
  let (db, o) := s in
  match scan_chain src def (default [] (hashtab_search (filename_trans db) key)) with
  | Overwritten c =>
      Some (true, (set_filename_trans db (write_chain (filename_trans db) key c)
                     (filename_trans_count db), o))
  | Stopped pre post =>
      (* trans == nullptr: calloc *)
      let '(ok, o) := match post with [] => malloc o | _ => (true, o) end in
      if negb ok then None
      else
        let '(trans, rest) :=
          match post with
          | [] => (FtDatum ebitmap_init def, [])
          | trans :: rest => (trans, rest)
          end in
        match link_chain (filename_trans db) key pre (trans :: rest) o with
        | None => None
        | Some (h, o) =>
            let '(rc, e, o) := ebitmap_set_bit (stypes trans) (src - 1) true o in
            Some (negb (truthy rc),
                  (set_filename_trans db
                     (write_chain h key (pre ++ FtDatum e (otype trans) :: rest))
                     (u32 (filename_trans_count db + 1)), o))
        end
  end.

Definition add_filename_trans (src tgt cls def obj : list Z) (s : state) : option (bool * state) :=
  let db := s.1 in
  match hashtab_find (table (p_types db)) src with
  | None => Some (false, s)
  | Some src =>
      match hashtab_find (table (p_types db)) tgt with
      | None => Some (false, s)
      | Some tgt =>
          match hashtab_find (table (p_classes db)) cls with
          | None => Some (false, s)
          | Some cls =>
              match hashtab_find (table (p_types db)) def with
              | None => Some (false, s)
              | Some def =>
                  add_filename_trans_data (ty_value src)
                    (FtKey (ty_value tgt) (cls_value cls) (c_str (take 255 obj))) (ty_value def) s
              end
          end
      end
  end.

(** ** The test of the reader *)

(** The loop of [filename_trans_check_datum]. *)
Fixpoint check_chain (c : list filename_trans_datum) (stypes_seen otypes : ebitmap) (o : oracle) :
    Z * oracle :=
  match c with
  | [] => (0, o)
  | datum :: c' =>
      if truthy (ebitmap_get_bit otypes (otype datum)) then (-1, o)
      else
        let '(rc, otypes, o) := ebitmap_set_bit otypes (otype datum) true o in
        if truthy rc then (-1, o)
        else if truthy (ebitmap_match_any stypes_seen (stypes datum)) then (-1, o)
        else
          let '(rc, stypes_seen, o) := ebitmap_union stypes_seen (stypes datum) o in
          if truthy rc then (-1, o) else check_chain c' stypes_seen otypes o
  end.

Definition filename_trans_check_datum (c : list filename_trans_datum) (o : oracle) : Z * oracle :=
  check_chain c ebitmap_init ebitmap_init o.
