(* ===== verification/SepolicyFilenameSpec.v ===== *)
(** * Transitions for file names: what [add_filename_trans] does to a chain *)

From stdpp Require Import countable.
From S2P Require Import Prelude Policyfile Ebitmap EbitmapSpec EbitmapQuery EbitmapUpdate Hashtab HashtabSpec Symtab Avtab Policydb Sepolicy.
From S2P Require Import SepolicySpec SepolicyFilename.

(** ** The table *)

#[export] Instance ft_key_eq_dec : EqDecision filename_trans_key.
Proof. solve_decision. Defined.

#[export] Instance ft_key_countable : Countable filename_trans_key.
Proof.
  apply (inj_countable' (fun k => (ttype k, tclass k, ft_name k)) (fun '(t, c, n) => FtKey t c n)).
  by intros [].
Defined.

Definition ft_key_ok (k : filename_trans_key) : Prop := cstring_ok (ft_name k).

Lemma spaceship_zero a b : spaceship_cmp a b = 0 <-> a = b.
Proof. unfold spaceship_cmp. repeat case_Z; lia. Qed.

Lemma spaceship_sign a b :
  (0 < spaceship_cmp a b <-> b < a) /\ (spaceship_cmp a b < 0 <-> a < b).
Proof. unfold spaceship_cmp. repeat case_Z; lia. Qed.

(** The comparison is lexicographic. *)
Lemma filenametr_cmp_lex k1 k2 :
  filenametr_cmp k1 k2 =
  if ttype k1 =? ttype k2 then
    if tclass k1 =? tclass k2 then strcmp (ft_name k1) (ft_name k2)
    else spaceship_cmp (tclass k1) (tclass k2)
  else spaceship_cmp (ttype k1) (ttype k2).
Proof.
  unfold filenametr_cmp, truthy. pose proof (spaceship_zero (ttype k1) (ttype k2)).
  pose proof (spaceship_zero (tclass k1) (tclass k2)).
  destruct (Z.eqb_spec (ttype k1) (ttype k2)), (Z.eqb_spec (tclass k1) (tclass k2));
    repeat case_Z; simpl; done || lia.
Qed.

#[export] Instance ftr_laws : HashLaws filename_trans_key ft_key_ok.
Proof.
  split; simpl; unfold ft_key_ok.
  - intros size k Hs. unfold filenametr_hash. rewrite (u32_small (size - 1)) by lia.
    pose proof (land_le_r (filenametr_loop (ft_name k) (Z.lxor (ttype k) (tclass k))) (size - 1)).
    rewrite u32_small; lia.
  - intros k1 k2 H1 H2. rewrite filenametr_cmp_lex.
    pose proof (spaceship_zero (ttype k1) (ttype k2)). pose proof (spaceship_zero (tclass k1) (tclass k2)).
    pose proof (strcmp_zero _ _ H1 H2) as Hn. destruct k1 as [t1 c1 n1], k2 as [t2 c2 n2]; simpl in *.
    repeat case_Z; subst.
    + rewrite Hn. split; congruence.
    + split; intros E; [lia|congruence].
    + split; intros E; [lia|congruence].
  - intros k1 k2 _ _. rewrite !filenametr_cmp_lex. rewrite (Z.eqb_sym (ttype k2)), (Z.eqb_sym (tclass k2)).
    destruct (spaceship_sign (ttype k1) (ttype k2)), (spaceship_sign (ttype k2) (ttype k1)).
    destruct (spaceship_sign (tclass k1) (tclass k2)), (spaceship_sign (tclass k2) (tclass k1)).
    rewrite (strcmp_flip (ft_name k1)). repeat case_Z; lia.
  - intros k1 k2 k3 H1 H2 H3. rewrite !filenametr_cmp_lex.
    destruct (spaceship_sign (ttype k1) (ttype k2)), (spaceship_sign (ttype k2) (ttype k3)),
      (spaceship_sign (ttype k1) (ttype k3)).
    destruct (spaceship_sign (tclass k1) (tclass k2)), (spaceship_sign (tclass k2) (tclass k3)),
      (spaceship_sign (tclass k1) (tclass k3)).
    pose proof (strcmp_trans _ _ _ H1 H2 H3). repeat case_Z; lia.
Qed.

Abbreviation ft_table := (hashtab_val filename_trans_key (list filename_trans_datum)).

Lemma write_chain_spec h key c :
  hashtab_wf ft_key_ok h -> ft_key_ok key -> is_Some (hashtab_model h !! key) ->
  exists h', write_chain (Some h) key c = Some h' /\ hashtab_wf ft_key_ok h' /\
    nel h' = nel h /\ hashtab_model h' = <[key := c]> (hashtab_model h).
Proof.
  intros Hw Hk [c0 Hin]. eexists. split; [reflexivity|].
  set (R := fun k (d d' : list filename_trans_datum) => d' = if bool_decide (k = key) then c else d).
  set (t' := map _ (htable h)).
  assert (HF : Forall2 (Forall2 (data_changed R)) (htable h) t').
  { apply Forall2_same_length_lookup_2; [by unfold t'; rewrite length_map|].
    intros i x y Hx Hy. unfold t' in Hy. change (map ?g ?l) with (g <$> l) in Hy.
    rewrite list_lookup_fmap, Hx in Hy. injection Hy as <-. apply Forall2_fmap_r, Forall_Forall2_diag.
    apply Forall_forall. intros n Hn. unfold compose.
    change (filenametr_cmp key (hkey n)) with (keycmp key (hkey n)).
    assert (Hok : ft_key_ok (hkey n)).
    { destruct Hw as [(_ & _ & Hc) _]. destruct (Hc i x Hx) as [_ Hf]. rewrite Forall_forall in Hf. by apply Hf. }
    pose proof (keycmp_zero (key_ok := ft_key_ok) key (hkey n) Hk Hok) as Hz.
    unfold data_changed, R. destruct (Z.eqb_spec (keycmp key (hkey n)) 0) as [E|E]; simpl.
    - apply Hz in E. by rewrite bool_decide_eq_true_2.
    - rewrite bool_decide_eq_false_2; [done|]. intros Ek. apply E, Hz. done. }
  destruct (table_changed ft_key_ok R h t' Hw HF) as [Hw' Hm]. split; [exact Hw'|]. split; [done|].
  apply map_eq. intros k. specialize (Hm k). unfold R in Hm. destruct (decide (k = key)) as [->|Hne].
  - rewrite lookup_insert_eq. rewrite Hin in Hm. inversion Hm as [? d' Hd'|]; subst.
    by rewrite bool_decide_eq_true_2.
  - rewrite lookup_insert_ne by done. rewrite bool_decide_eq_false_2 in Hm by done.
    inversion Hm as [? d' Hd'|]; congruence.
Qed.

(** ** Chains *)

(** The datum gives its object type to the source type. *)
Definition has (src : Z) (d : filename_trans_datum) : bool := ebitmap_mem (stypes d) (src - 1).

(** The object type of a source type: that of the first datum that has it. *)
Definition object_type (src : Z) (c : list filename_trans_datum) : option Z :=
  otype <$> List.find (has src) c.

Definition datum_wf (d : filename_trans_datum) : Prop :=
  ebitmap_wf (stypes d) /\ 0 <= otype d < 2 ^ 32 - MAPSIZE.

Lemma get_bit_has src d :
  ebitmap_wf (stypes d) -> truthy (ebitmap_get_bit (stypes d) (src - 1)) = has src d.
Proof.
  intros Hw. rewrite ebitmap_get_bit_correct by done. unfold has. by destruct (ebitmap_mem _ _).
Qed.

(** What the loop passes over. *)
Definition passed (src def : Z) (d : filename_trans_datum) : Prop :=
  has src d = false /\ otype d <> def.

Lemma scan_chain_spec src def c :
  Forall datum_wf c ->
  match scan_chain src def c with
  | Overwritten c' => exists pre d post, c = pre ++ d :: post /\ has src d = true /\
      Forall (passed src def) pre /\ c' = pre ++ FtDatum (stypes d) def :: post
  | Stopped pre post => c = pre ++ post /\ Forall (passed src def) pre /\
      (post = [] \/ exists d r, post = d :: r /\ has src d = false /\ otype d = def)
  end.
Proof.
  induction 1 as [|d c [Hw Hr] Hc IH]; cbn [scan_chain]; [by auto|].
  rewrite get_bit_has by done. destruct (has src d) eqn:Hh.
  { by exists [], d, c. }
  destruct (Z.eqb_spec (otype d) def) as [He|He].
  { split_and!; [done..|]. right. by exists d, c. }
  destruct (scan_chain src def c) as [c'|pre post].
  - destruct IH as (pre & e & post & -> & Hs & Hp & ->). exists (d :: pre), e, post.
    split_and!; try done. by constructor.
  - destruct IH as (-> & Hp & Hpost). split_and!; try done. by constructor.
Qed.

Lemma find_app {A} (f : A -> bool) l1 l2 :
  List.find f (l1 ++ l2) = match List.find f l1 with Some x => Some x | None => List.find f l2 end.
Proof. induction l1 as [|x l1 IH]; simpl; [done|]. by destruct (f x). Qed.

Lemma passed_find src def pre : Forall (passed src def) pre -> List.find (has src) pre = None.
Proof. induction 1 as [|d pre [Hh _] Hp IH]; simpl; [done|]. by rewrite Hh. Qed.

(** Changing one datum of a chain in a way other source types do not see. *)
Lemma object_type_replace other pre d d' post :
  has other d' = has other d -> (has other d = true -> otype d' = otype d) ->
  object_type other (pre ++ d' :: post) = object_type other (pre ++ d :: post).
Proof.
  intros Hh Ho. unfold object_type. rewrite !find_app. destruct (List.find (has other) pre); [done|].
  simpl. rewrite Hh. destruct (has other d); [simpl; by rewrite Ho|done].
Qed.

Lemma object_type_new other c d :
  has other d = false -> object_type other (c ++ [d]) = object_type other c.
Proof.
  intros Hh. unfold object_type. rewrite find_app. simpl. rewrite Hh. by destruct (List.find _ c).
Qed.

(** ** The chain after the edit *)

Definition set_source (src : Z) (d : filename_trans_datum) : filename_trans_datum :=
  FtDatum (ebitmap_set_bit (stypes d) (src - 1) true []).1.2 (otype d).

Definition edited_chain (src def : Z) (c : list filename_trans_datum) : list filename_trans_datum :=
  match scan_chain src def c with
  | Overwritten c' => c'
  | Stopped pre [] => pre ++ [set_source src (FtDatum ebitmap_init def)]
  | Stopped pre (d :: r) => pre ++ set_source src d :: r
  end.

(** [filename_trans_count] after the edit. *)
Definition edited_count (src def : Z) (c : list filename_trans_datum) (count : Z) : Z :=
  match scan_chain src def c with
  | Overwritten _ => count
  | Stopped _ _ => u32 (count + 1)
  end.

Lemma set_source_spec src d :
  datum_wf d -> 0 < src < 2 ^ 32 - MAPSIZE ->
  exists e, ebitmap_set_bit (stypes d) (src - 1) true [] = (0, e, []) /\
    set_source src d = FtDatum e (otype d) /\ datum_wf (set_source src d) /\
    forall other, has other (set_source src d) = (other =? src) || has other d.
Proof.
  intros [Hw Hr] Hs. unfold set_source.
  destruct (ebitmap_set_bit (stypes d) (src - 1) true []) as [[rc e] o] eqn:E.
  destruct (ebitmap_set_bit_spec (stypes d) (src - 1) true [] rc e o Hw ltac:(lia) E) as [Hwe [[-> Hm]|(_ & _ & _ & ?)]]; [|done].
  apply ebitmap_set_bit_memory in E as ->. exists e. split_and!; try done.
  intros other. unfold has. simpl. rewrite Hm.
  destruct (Z.eqb_spec (other - 1) (src - 1)), (Z.eqb_spec other src); lia || done.
Qed.

Lemma set_source_wf src d :
  datum_wf d -> 0 < src < 2 ^ 32 - MAPSIZE -> datum_wf (set_source src d).
Proof. intros Hd Hs. by destruct (set_source_spec src d Hd Hs) as (e & _ & _ & ? & _). Qed.

(** The datum of a new object type. *)
Lemma fresh_wf def : 0 <= def < 2 ^ 32 - MAPSIZE -> datum_wf (FtDatum ebitmap_init def).
Proof. intros Hd. split; [apply ebitmap_init_empty|done]. Qed.

Lemma edited_chain_wf src def c :
  Forall datum_wf c -> 0 < src < 2 ^ 32 - MAPSIZE -> 0 <= def < 2 ^ 32 - MAPSIZE ->
  Forall datum_wf (edited_chain src def c).
Proof.
  intros Hc Hs Hd. pose proof (scan_chain_spec src def c Hc) as H. unfold edited_chain.
  destruct (scan_chain src def c) as [c'|pre [|d r]].
  - destruct H as (pre & d & post & -> & _ & _ & ->). rewrite !Forall_app, !Forall_cons in *.
    destruct Hc as (? & [Hw _] & ?). by split_and!.
  - destruct H as (-> & _). rewrite app_nil_r in Hc. apply Forall_app. split; [done|]. constructor; [|done].
    apply set_source_wf; [by apply fresh_wf|done].
  - destruct H as (-> & _). rewrite !Forall_app, !Forall_cons in *. destruct Hc as (? & ? & ?).
    split; [done|]. split; [|done]. by apply set_source_wf.
Qed.

Lemma edited_chain_source src def c :
  Forall datum_wf c -> 0 < src < 2 ^ 32 - MAPSIZE -> 0 <= def < 2 ^ 32 - MAPSIZE ->
  object_type src (edited_chain src def c) = Some def.
Proof.
  intros Hc Hs Hd. pose proof (scan_chain_spec src def c Hc) as H. unfold edited_chain, object_type.
  destruct (scan_chain src def c) as [c'|pre [|d r]].
  - destruct H as (pre & d & post & -> & Hh & Hp & ->). rewrite find_app, (passed_find _ _ _ Hp). simpl.
    unfold has in Hh |- *. simpl. by rewrite Hh.
  - destruct H as (-> & Hp & _). rewrite find_app, (passed_find _ _ _ Hp). cbn [List.find].
    destruct (set_source_spec src (FtDatum ebitmap_init def)) as (e & _ & He & _ & Hb);
      [by apply fresh_wf|done|]. rewrite Hb, Z.eqb_refl. by rewrite He.
  - destruct H as (-> & Hp & [?|(d' & r' & [= -> ->] & _ & Ho)]); [done|].
    rewrite find_app, (passed_find _ _ _ Hp). cbn [List.find].
    rewrite Forall_app, Forall_cons in Hc. destruct Hc as (_ & Hd' & _).
    destruct (set_source_spec src d') as (e & _ & He & _ & Hb); [done..|].
    rewrite Hb, Z.eqb_refl. rewrite He. simpl. by rewrite Ho.
Qed.

(** A source type that shares no datum with the edited one keeps its object type. *)
Lemma edited_chain_other src def c other :
  Forall datum_wf c -> 0 < src < 2 ^ 32 - MAPSIZE -> 0 <= def < 2 ^ 32 - MAPSIZE -> other <> src ->
  Forall (fun d => has src d = true -> has other d = false) c ->
  object_type other (edited_chain src def c) = object_type other c.
Proof.
  intros Hc Hs Hd Hne Hsh. pose proof (scan_chain_spec src def c Hc) as H. unfold edited_chain.
  destruct (scan_chain src def c) as [c'|pre [|d r]].
  - destruct H as (pre & d & post & -> & Hh & _ & ->). apply object_type_replace; [done|].
    rewrite Forall_app, Forall_cons in Hsh. destruct Hsh as (_ & Hsh & _). by rewrite Hsh.
  - destruct H as (-> & _). rewrite app_nil_r. apply object_type_new.
    destruct (set_source_spec src (FtDatum ebitmap_init def)) as (e & _ & _ & _ & Hb);
      [by apply fresh_wf|done|]. rewrite Hb, (proj2 (Z.eqb_neq other src)) by done.
    apply ebitmap_init_empty.
  - destruct H as (-> & _). rewrite Forall_app, Forall_cons in Hc. destruct Hc as (_ & Hd' & _).
    destruct (set_source_spec src d) as (e & _ & He & _ & Hb); [done..|].
    apply object_type_replace; [by rewrite Hb, (proj2 (Z.eqb_neq other src)) by done|by rewrite He].
Qed.

(** A source type that shares the datum of the edited one changes with it. *)
Lemma edited_chain_shared src def pre d post other :
  Forall datum_wf (pre ++ d :: post) -> Forall (passed src def) pre -> has src d = true ->
  List.find (has other) pre = None -> has other d = true ->
  object_type other (edited_chain src def (pre ++ d :: post)) = Some def.
Proof.
  intros Hc Hp Hh Hno Ho.
  assert (scan_chain src def (pre ++ d :: post) = Overwritten (pre ++ FtDatum (stypes d) def :: post)) as Hs.
  { clear Hno. induction Hp as [|p pre [Hps Hpo] Hp IH]; cbn [app scan_chain];
      apply Forall_cons in Hc as [[Hw _] Hc]; rewrite get_bit_has by done.
    - by rewrite Hh.
    - rewrite Hps. destruct (Z.eqb_spec (otype p) def); [done|]. by rewrite IH. }
  unfold edited_chain, object_type. rewrite Hs, find_app, Hno. simpl.
  unfold has in Ho |- *. simpl. by rewrite Ho.
Qed.

(** ** The table after the edit *)

(** Inserting the chain leaves the key in the table. *)
Lemma insert_chain_spec h key c :
  hashtab_wf ft_key_ok h -> ft_key_ok key -> nel h < UINT32_MAX ->
  exists rc h', hashtab_insert (Some h) key c [] = (rc, Some h', []) /\ hashtab_wf ft_key_ok h' /\
    is_Some (hashtab_model h' !! key) /\
    forall d : list filename_trans_datum, <[key := d]> (hashtab_model h') = <[key := d]> (hashtab_model h).
Proof.
  intros Hw Hk Hn. destruct (hashtab_insert (Some h) key c []) as [[rc h'] o'] eqn:E.
  pose proof (hashtab_insert_memory ft_key_ok _ _ _ _ _ _ Hw E) as ->.
  destruct (hashtab_insert_spec ft_key_ok h key c [] rc h' [] Hw Hk E) as (t' & -> & Hw' & Hc).
  exists rc, t'. split_and!; try done.
  - destruct Hc as [(_ & _ & ->)|[(_ & Hs & ->)|(_ & [?|?] & _)]]; [|done|lia|done].
    by rewrite lookup_insert_eq.
  - intros d. destruct Hc as [(_ & _ & ->)|[(_ & _ & ->)|(_ & [?|?] & _)]]; [|done|lia|done].
    apply insert_insert_eq.
Qed.

Section table.
Context (db : policydb) (h : ft_table) (src def : Z) (key : filename_trans_key).
Hypothesis Hdb : filename_trans db = Some h.
Hypothesis Hw : hashtab_wf ft_key_ok h.
Hypothesis Hkey : ft_key_ok key.
Hypothesis Hnel : nel h < UINT32_MAX.
Hypothesis Hsrc : 0 < src < 2 ^ 32 - MAPSIZE.
Hypothesis Hdef : 0 <= def < 2 ^ 32 - MAPSIZE.

Let c := default [] (hashtab_model h !! key).
Hypothesis Hc : Forall datum_wf c.

Lemma chain_in_table : c <> [] -> is_Some (hashtab_model h !! key).
Proof. unfold c. by destruct (hashtab_model h !! key). Qed.

(** The last steps: the source type is set in [trans] through its pointer. *)
Lemma finish_chain h1 pre trans rest :
  hashtab_wf ft_key_ok h1 -> is_Some (hashtab_model h1 !! key) ->
  (forall d : list filename_trans_datum,
     <[key := d]> (hashtab_model h1) = <[key := d]> (hashtab_model h)) -> datum_wf trans ->
  exists h' e, ebitmap_set_bit (stypes trans) (src - 1) true [] = (0, e, []) /\
    write_chain (Some h1) key (pre ++ FtDatum e (otype trans) :: rest) = Some h' /\
    hashtab_wf ft_key_ok h' /\
    hashtab_model h' = <[key := pre ++ set_source src trans :: rest]> (hashtab_model h).
Proof.
  intros Hw1 Hin Hm Ht. destruct (set_source_spec src trans Ht Hsrc) as (e & He & Hs & _).
  destruct (write_chain_spec h1 key (pre ++ FtDatum e (otype trans) :: rest) Hw1 Hkey Hin)
    as (h' & Hwr & Hw' & _ & Hm').
  exists h', e. split_and!; try done. by rewrite Hm', Hm, Hs.
Qed.

Lemma add_filename_trans_data_spec :
  exists h', add_filename_trans_data src key def (db, []) =
      Some (true, (set_filename_trans db (Some h') (edited_count src def c (filename_trans_count db)), [])) /\
    hashtab_wf ft_key_ok h' /\
    hashtab_model h' = <[key := edited_chain src def c]> (hashtab_model h).
Proof.
  unfold add_filename_trans_data. rewrite Hdb, (hashtab_search_spec ft_key_ok h key Hw Hkey). fold c.
  pose proof (scan_chain_spec src def c Hc) as Hscan. pose proof chain_in_table as Hin.
  unfold edited_chain, edited_count. destruct (scan_chain src def c) as [c'|pre post].
  { destruct Hscan as (pre & d & post & E & _).
    destruct (write_chain_spec h key c' Hw Hkey) as (h' & -> & Hw' & _ & Hm);
      [apply Hin; rewrite E; by destruct pre|]. by exists h'. }
  destruct Hscan as [E _].
  assert (Hlink : forall chain, exists h1, link_chain (Some h) key pre chain [] = Some (Some h1, []) /\
    hashtab_wf ft_key_ok h1 /\ is_Some (hashtab_model h1 !! key) /\
    forall d : list filename_trans_datum,
      <[key := d]> (hashtab_model h1) = <[key := d]> (hashtab_model h)).
  { intros chain. unfold link_chain. destruct pre as [|p pre]; cbn [malloc andb].
    - destruct (insert_chain_spec h key chain Hw Hkey Hnel) as (rc & h1 & -> & H). by exists h1.
    - exists h. split_and!; try done. apply Hin. by rewrite E. }
  destruct post as [|trans rest]; cbn [malloc negb].
  - destruct (Hlink [FtDatum ebitmap_init def]) as (h1 & Hl & Hw1 & Hin1 & Hm1).
    destruct (finish_chain h1 pre (FtDatum ebitmap_init def) [] Hw1 Hin1 Hm1 (fresh_wf def Hdef))
      as (h' & e & He & Hwr & Hw' & Hm').
    rewrite Hl. cbn [stypes otype] in He, Hwr |- *. rewrite He, Hwr. by exists h'.
  - destruct (Hlink (trans :: rest)) as (h1 & Hl & Hw1 & Hin1 & Hm1).
    rewrite E, Forall_app, Forall_cons in Hc. destruct Hc as (_ & Ht & _).
    destruct (finish_chain h1 pre trans rest Hw1 Hin1 Hm1 Ht) as (h' & e & He & Hwr & Hw' & Hm').
    rewrite Hl, He, Hwr. by exists h'.
Qed.

End table.

(** ** The test of the reader *)

(** Two data of a chain have different object types and no source type in common. *)
Definition apart (d1 d2 : filename_trans_datum) : Prop :=
  otype d1 <> otype d2 /\ forall s, ~ (has s d1 = true /\ has s d2 = true).

Lemma match_any_bool e1 e2 : ebitmap_match_any e1 e2 = 0 \/ ebitmap_match_any e1 e2 = 1.
Proof.
  unfold ebitmap_match_any. generalize (node e2). induction (node e1) as [|a l IH]; intros l2.
  { destruct l2; by left. }
  induction l2 as [|b l2 IH2]; [by left|]. cbn [match_any_loop].
  repeat match goal with |- context [if ?b then _ else _] => destruct b end; auto.
Qed.

Lemma match_any_has e d :
  ebitmap_wf e -> ebitmap_wf (stypes d) ->
  truthy (ebitmap_match_any e (stypes d)) = false <->
  forall s, ~ (ebitmap_mem e (s - 1) = true /\ has s d = true).
Proof.
  intros He Hd. pose proof (ebitmap_match_any_correct e (stypes d) He Hd) as H.
  assert (Hv : ebitmap_match_any e (stypes d) = 0 \/ ebitmap_match_any e (stypes d) = 1).
  { apply match_any_bool. }
  split.
  - intros Ht s Hs. assert (ebitmap_match_any e (stypes d) = 1) as E by (apply H; by exists (s - 1)).
    by rewrite E in Ht.
  - intros Hno. destruct Hv as [->|E]; [done|]. exfalso. apply H in E as [b Hb].
    apply (Hno (b + 1)). unfold has. by replace (b + 1 - 1) with b by lia.
Qed.

(** A datum as the reader makes it; its object type may be one that no bitmap holds. *)
Definition datum_ok (d : filename_trans_datum) : Prop := ebitmap_wf (stypes d) /\ 0 <= otype d < 2 ^ 32.

Lemma datum_wf_ok d : datum_wf d -> datum_ok d.
Proof. intros [? ?]. split; [done|]. unfold MAPSIZE in *. lia. Qed.

Definition fits (d : filename_trans_datum) : Prop := otype d < 2 ^ 32 - MAPSIZE.

(** The datum is new to the loop: [seen] and [ots] hold what came before. *)
Definition unseen (seen ots : ebitmap) (d : filename_trans_datum) : Prop :=
  ebitmap_mem ots (otype d) = false /\
  forall s, ~ (ebitmap_mem seen (s - 1) = true /\ has s d = true).

(** A round of the loop moves the datum [d] to what came before. *)
Lemma unseen_round seen ots seen' ots' d c :
  (forall b, ebitmap_mem ots' b = if b =? otype d then true else ebitmap_mem ots b) ->
  (forall b, ebitmap_mem seen' b = ebitmap_mem seen b || ebitmap_mem (stypes d) b) ->
  Forall (unseen seen' ots') c <-> Forall (unseen seen ots) c /\ Forall (apart d) c.
Proof.
  intros Hm Hmem. rewrite <-Forall_and, !Forall_forall. unfold unseen, apart.
  split; intros H e He; specialize (H e He).
  - destruct H as [H1 H2]. rewrite Hm in H1. destruct (Z.eqb_spec (otype e) (otype d)) as [|Hne]; [done|].
    split; [split; [done|]|split; [done|]]; intros s [Ha Hb]; apply (H2 s); (split; [|done]);
      unfold has in *; rewrite Hmem, Ha; [done|apply orb_true_r].
  - destruct H as [[H1 H2] [H3 H4]]. split.
    + rewrite Hm. by destruct (Z.eqb_spec (otype e) (otype d)).
    + intros s [Ha Hb]. rewrite Hmem, orb_true_iff in Ha.
      destruct Ha as [Ha|Ha]; [by apply (H2 s)|by apply (H4 s)].
Qed.

Lemma check_chain_spec c seen ots o :
  Forall datum_ok c -> ebitmap_wf seen -> ebitmap_wf ots ->
  exists rc o', check_chain c seen ots o = (rc, o') /\ (rc = 0 \/ rc = -1) /\ (o = [] -> o' = []) /\
  let good := Forall fits c /\ Forall (unseen seen ots) c /\ StronglySorted apart c in
  (rc = 0 -> good) /\ (o = [] -> good -> rc = 0).
Proof.
  intros Hc. revert seen ots o. induction Hc as [|d c [Hw Hr] Hc IH]; intros seen ots o Hs Ho; cbn [check_chain].
  { exists 0, o. split_and!; try done; [by left|]. by repeat constructor. }
  rewrite ebitmap_get_bit_correct by done. destruct (ebitmap_mem ots (otype d)) eqn:Hd; cbn [truthy Z.eqb negb].
  { exists (-1), o. split_and!; try done; [by right|]. intros _ (_ & [[? _] _]%Forall_cons & _). congruence. }
  destruct (ebitmap_set_bit ots (otype d) true o) as [[rc ots'] o1] eqn:Es.
  assert (Hm1 : o = [] -> o1 = []) by (intros ->; by eapply ebitmap_set_bit_memory).
  destruct (decide (otype d < 2 ^ 32 - MAPSIZE)) as [Hfit|Hbig]; cycle 1.
  { rewrite ebitmap_set_bit_overflow in Es by lia. injection Es as <- <- <-. cbn [truthy Z.eqb negb].
    exists (-1), o. split_and!; try done; [by right|]. by intros _ ([? _]%Forall_cons & _). }
  destruct (ebitmap_set_bit_spec ots (otype d) true o rc ots' o1 Ho ltac:(lia) Es) as [Ho' [[-> Hm]|(-> & _ & _ & ?)]];
    [|exists (-1), o1; split_and!; try done; by right].
  cbn [truthy Z.eqb negb]. pose proof (match_any_has seen d Hs Hw) as Hma.
  destruct (truthy (ebitmap_match_any seen (stypes d))) eqn:Ema.
  { exists (-1), o1. split_and!; try done; [by right|]. intros _ (_ & [[_ Hno] _]%Forall_cons & _).
    by apply Hma in Hno. }
  pose proof (ebitmap_union_spec seen (stypes d) o1 Hs Hw) as Hu.
  pose proof (ebitmap_union_memory seen (stypes d)) as Hum.
  destruct (ebitmap_union seen (stypes d) o1) as [[rc seen'] o2] eqn:Eu.
  assert (Hm2 : o = [] -> o2 = []) by (intros H; rewrite (Hm1 H) in Eu; by rewrite Eu in Hum).
  destruct Hu as [Hs' [[-> Hmem]|(-> & _ & Hne)]];
    [|exists (-1), o2; split_and!; try done; [by right|intros H; by destruct (Hne (Hm1 H))]].
  cbn [truthy Z.eqb negb]. destruct (IH seen' ots' o2 Hs' Ho') as (rc & o3 & E & Hv & Hm3 & H1 & H2).
  exists rc, o3. split_and!; try done; [by intros H; apply Hm3, Hm2|..];
    rewrite (unseen_round seen ots seen' ots' d c Hm Hmem) in *; rewrite !Forall_cons.
  - intros Hrc. destruct (H1 Hrc) as (F & [U A] & S). assert (unseen seen ots d) by (split; [done|by apply Hma]).
    split_and!; try done. by constructor.
  - intros H ([_ F] & [_ U] & S). apply (H2 (Hm2 H)). by inversion S.
Qed.

(** Whatever the allocator does, a chain that passes the test has data that are apart. *)
Lemma check_datum_any c o o' :
  Forall datum_ok c -> filename_trans_check_datum c o = (0, o') ->
  Forall fits c /\ StronglySorted apart c.
Proof.
  intros Hc. unfold filename_trans_check_datum. destruct ebitmap_init_empty as [Hi _].
  destruct (check_chain_spec c ebitmap_init ebitmap_init o Hc Hi Hi) as (rc & o1 & -> & _ & _ & H & _).
  intros [= -> ->]. by destruct (H eq_refl) as (? & _ & ?).
Qed.

(** With memory available a chain passes the test exactly when its data are apart. *)
Lemma check_datum_spec c :
  Forall datum_wf c ->
  exists rc, filename_trans_check_datum c [] = (rc, []) /\ (rc = 0 \/ rc = -1) /\
    (rc = 0 <-> StronglySorted apart c).
Proof.
  intros Hc. destruct ebitmap_init_empty as [Hi Hm]. unfold filename_trans_check_datum.
  destruct (check_chain_spec c ebitmap_init ebitmap_init []) as (rc & o1 & -> & Hv & Ho & H1 & H2);
    [by eapply Forall_impl; [exact Hc|apply datum_wf_ok]|done..|]. rewrite (Ho eq_refl).
  exists rc. split_and!; try done. split; [by intros (_ & _ & ?)%H1|]. intros Hs. apply H2; [done|].
  split; [eapply Forall_impl; [exact Hc|]; by intros d [_ [_ ?]]|]. split; [|done].
  apply Forall_forall. intros d _. split; [done|]. by intros s [? _].
Qed.

Lemma check_datum_iff c :
  Forall datum_wf c -> filename_trans_check_datum c [] = (0, []) <-> StronglySorted apart c.
Proof.
  intros Hc. destruct (check_datum_spec c Hc) as (rc & -> & _ & <-). split; [by intros [= ->]|by intros ->].
Qed.

Lemma apart_app l1 l2 :
  StronglySorted apart (l1 ++ l2) <->
  StronglySorted apart l1 /\ StronglySorted apart l2 /\
  forall a b, a ∈ l1 -> b ∈ l2 -> apart a b.
Proof.
  split.
  - intros Hs. split_and!.
    + by eapply StronglySorted_app_1_l.
    + by eapply StronglySorted_app_1_r.
    + intros a b Ha Hb. by eapply StronglySorted_app_1_elem_of.
  - intros (H1 & H2 & H3). by apply StronglySorted_app_2.
Qed.

(** Adding a source type that no datum has keeps the data apart. *)
Lemma set_source_apart src d e :
  datum_wf d -> 0 < src < 2 ^ 32 - MAPSIZE -> has src e = false ->
  (apart d e -> apart (set_source src d) e) /\ (apart e d -> apart e (set_source src d)).
Proof.
  intros Hd Hs He. destruct (set_source_spec src d Hd Hs) as (b & _ & Hb & _ & Hh).
  assert (Ho : otype (set_source src d) = otype d) by (by rewrite Hb).
  unfold apart. rewrite Ho. split; intros [H1 H2]; (split; [exact H1|]).
  - intros s [Ha Hb']. rewrite Hh in Ha. destruct (Z.eqb_spec s src) as [E|]; [by rewrite E, He in *|]. by apply (H2 s).
  - intros s [Ha Hb']. rewrite Hh in Hb'. destruct (Z.eqb_spec s src) as [E|]; [by rewrite E, He in *|]. by apply (H2 s).
Qed.

Lemma edited_chain_check src def c :
  Forall datum_wf c -> 0 < src < 2 ^ 32 - MAPSIZE -> 0 <= def < 2 ^ 32 - MAPSIZE ->
  Forall (fun d => has src d = false) c ->
  StronglySorted apart c -> StronglySorted apart (edited_chain src def c).
Proof.
  intros Hc Hs Hd Hno Hap. pose proof (scan_chain_spec src def c Hc) as H. unfold edited_chain.
  destruct (scan_chain src def c) as [c'|pre [|d r]].
  - destruct H as (pre & d & post & -> & Hh & _). exfalso.
    rewrite Forall_app, Forall_cons in Hno. destruct Hno as (_ & ? & _). congruence.
  - destruct H as (-> & Hp & _). rewrite app_nil_r in *. apply apart_app. split_and!; [done|by repeat constructor|].
    intros a b Ha ->%list_elem_of_singleton. rewrite Forall_forall in Hp, Hno.
    apply set_source_apart; [by apply fresh_wf|done|by apply Hno|]. destruct (Hp a Ha) as [_ Ho].
    split; [done|]. intros s [_ Hb]. unfold has in Hb. simpl in Hb. by rewrite (proj2 ebitmap_init_empty) in Hb.
  - destruct H as (-> & _). rewrite Forall_app, Forall_cons in Hc, Hno.
    destruct Hc as (_ & Hdw & _), Hno as (Hn1 & _ & Hn2). apply apart_app in Hap as (Ha1 & Ha2 & Ha3).
    inversion Ha2 as [|? ? Ha2' Hf]; subst. rewrite Forall_forall in Hn1, Hn2, Hf.
    apply apart_app. split_and!; [done| |].
    + constructor; [done|]. apply Forall_forall. intros e He.
      apply set_source_apart; [done..|by apply Hn2|by apply Hf].
    + intros a b Ha [->|Hb]%elem_of_cons.
      * apply set_source_apart; [done..|by apply Hn1|]. apply Ha3; [done|by left].
      * apply Ha3; [done|by right].
Qed.

(** When the loop stops at the object type before it sees the datum of the source type,
    the source type is in two data. *)
Lemma edited_chain_overlap src def pre a mid b post :
  let c := pre ++ a :: mid ++ b :: post in
  Forall datum_wf c -> 0 < src < 2 ^ 32 - MAPSIZE -> Forall (passed src def) pre ->
  has src a = false -> otype a = def -> has src b = true ->
  ~ StronglySorted apart (edited_chain src def c).
Proof.
  intros c Hc Hs Hp Ha Ho Hb Hap.
  assert (Hscan : scan_chain src def c = Stopped pre (a :: mid ++ b :: post)).
  { unfold c in *. clear -Hc Hp Ha Ho. induction Hp as [|p pre [Hps Hpo] Hp IH]; cbn [app scan_chain] in *;
      apply Forall_cons in Hc as [[Hw _] Hc]; rewrite get_bit_has by done.
    - rewrite Ha. by rewrite Ho, Z.eqb_refl.
    - rewrite Hps. destruct (Z.eqb_spec (otype p) def); [done|]. by rewrite IH. }
  unfold edited_chain in Hap. rewrite Hscan in Hap. apply apart_app in Hap as (_ & Hap & _).
  inversion Hap as [|? ? _ Hf]; subst. rewrite Forall_app, Forall_cons in Hf.
  destruct Hf as (_ & [_ Hno] & _). apply (Hno src). split; [|done].
  unfold c in Hc. rewrite Forall_app, Forall_cons in Hc. destruct Hc as (_ & Haw & _).
  destruct (set_source_spec src a Haw Hs) as (e & _ & _ & _ & ->). by rewrite Z.eqb_refl.
Qed.
