(* ===== verification/SepolicyFilenameProps.v ===== *)
(** * The properties of transitions for file names, with concrete instances *)

From S2P Require Import Prelude Policyfile Ebitmap EbitmapSpec EbitmapQuery EbitmapUpdate Hashtab HashtabSpec Symtab Avtab Policydb Sepolicy.
From S2P Require Import SepolicySpec SepolicyProps SepolicyFilename SepolicyFilenameSpec.

(** The table of transitions is well formed, and so is every datum in it. *)
Definition ft_inv (h : ft_table) : Prop :=
  hashtab_wf ft_key_ok h /\ map_Forall (fun _ c => Forall datum_wf c) (hashtab_model h).

Definition type_values_ok (types : hashtab_val (list Z) type_datum) : Prop :=
  Forall (fun t => 0 < ty_value t < 2 ^ 32 - MAPSIZE) (hashtab_data (Some types)).

Lemma ft_inv_chain h key : ft_inv h -> Forall datum_wf (default [] (hashtab_model h !! key)).
Proof.
  intros [_ Hf]. destruct (hashtab_model h !! key) as [c|] eqn:E; [by apply (Hf key)|constructor].
Qed.

Lemma type_value_ok types name t :
  type_values_ok types -> hashtab_model types !! name = Some t -> 0 < ty_value t < 2 ^ 32 - MAPSIZE.
Proof.
  intros Hv E. unfold type_values_ok in Hv. rewrite Forall_forall in Hv. apply Hv. by eapply model_data.
Qed.

Section editor.
Context (db : policydb) (types : hashtab_val (list Z) type_datum).
Context (classes : hashtab_val (list Z) class_datum) (h : ft_table).
Context (src tgt cls def obj : list Z).
Hypothesis Hft : filename_trans db = Some h.
Hypothesis Hi : ft_inv h.
Hypothesis Hnel : nel h < UINT32_MAX.
Hypothesis Ht : table (p_types db) = Some types.
Hypothesis Hc : table (p_classes db) = Some classes.
Hypothesis Hwt : hashtab_wf cstring_ok types.
Hypothesis Hwc : hashtab_wf cstring_ok classes.
Hypothesis Hv : type_values_ok types.
Hypothesis Hsrc : name_ok src.
Hypothesis Htgt : name_ok tgt.
Hypothesis Hcls : name_ok cls.
Hypothesis Hdef : name_ok def.
Hypothesis Hobj : name_ok obj.

(** With the four names known, the chain of the key is edited. *)
Lemma add_filename_trans_found s t c d :
  hashtab_model types !! src = Some s -> hashtab_model types !! tgt = Some t ->
  hashtab_model classes !! cls = Some c -> hashtab_model types !! def = Some d ->
  let key := FtKey (ty_value t) (cls_value c) obj in
  let chain := default [] (hashtab_model h !! key) in
  let chain' := edited_chain (ty_value s) (ty_value d) chain in
  exists h', add_filename_trans src tgt cls def obj (db, []) =
      Some (true, (set_filename_trans db (Some h')
        (edited_count (ty_value s) (ty_value d) chain (filename_trans_count db)), [])) /\
    ft_inv h' /\ hashtab_model h' = <[key := chain']> (hashtab_model h).
Proof.
  intros Es Et Ec Ed key chain chain'. unfold add_filename_trans. cbn [fst].
  rewrite Ht, Hc, !hashtab_find_model, Es, Et, Ec, Ed, name_c_str by done. fold key.
  pose proof (type_value_ok _ _ _ Hv Es) as Hs. pose proof (type_value_ok _ _ _ Hv Ed) as Hd.
  pose proof (ft_inv_chain h key Hi) as Hch.
  destruct (add_filename_trans_data_spec db h (ty_value s) (ty_value d) key Hft (proj1 Hi) (proj1 Hobj)
    Hnel Hs ltac:(lia) Hch) as (h' & Hr & Hw' & Hm).
  exists h'. split; [exact Hr|]. split; [|exact Hm]. split; [exact Hw'|]. rewrite Hm.
  apply map_Forall_insert_2; [apply edited_chain_wf; [done..|lia]|apply Hi].
Qed.


(** [add_filename_trans] can make a policy that libsepol does not read.  The loop stops
    at the first datum with the wanted object type, before it has seen a later datum of the
    source type; the source type is then in two data of the chain, and
    [filename_trans_check_datum] fails, as the reader of the policy requires them to be
    disjoint. *)
Theorem add_filename_trans_overlap s t c d pre a mid b post :
  hashtab_model types !! src = Some s -> hashtab_model types !! tgt = Some t ->
  hashtab_model classes !! cls = Some c -> hashtab_model types !! def = Some d ->
  let key := FtKey (ty_value t) (cls_value c) obj in
  hashtab_model h !! key = Some (pre ++ a :: mid ++ b :: post) ->
  Forall (passed (ty_value s) (ty_value d)) pre -> has (ty_value s) a = false ->
  otype a = ty_value d -> has (ty_value s) b = true ->
  exists h' n chain', add_filename_trans src tgt cls def obj (db, []) =
      Some (true, (set_filename_trans db (Some h') n, [])) /\
    hashtab_model h' !! key = Some chain' /\ filename_trans_check_datum chain' [] = (-1, []).
Proof.
  intros Es Et Ec Ed key Hk Hp Ha Ho Hb.
  destruct (add_filename_trans_found s t c d Es Et Ec Ed) as (h' & Hr & Hi' & Hm). fold key in Hm.
  pose proof (ft_inv_chain h key Hi) as Hch. rewrite Hk in Hm, Hch. cbn [default] in Hm, Hch.
  pose proof (type_value_ok _ _ _ Hv Es) as Hs. pose proof (type_value_ok _ _ _ Hv Ed) as Hd.
  eexists h', _, _. split; [exact Hr|]. split; [rewrite Hm; apply lookup_insert_eq|].
  destruct (check_datum_spec _ (edited_chain_wf (ty_value s) (ty_value d) _ Hch Hs ltac:(lia)))
    as (rc & -> & [->| ->] & Hss); [|done].
  exfalso. apply (edited_chain_overlap (ty_value s) (ty_value d) pre a mid b post); try done. by apply Hss.
Qed.

End editor.

(** ** A table with two data for "x" of target 2 and class 4: types 3 and 1 *)

Definition sources (l : list Z) : ebitmap :=
  foldl (fun e b => (ebitmap_set_bit e b true []).1.2) ebitmap_init l.

(** Source types 2 and 3 get the object type 3, source type 1 gets 2. *)
Definition ex_chain : list filename_trans_datum := [FtDatum (sources [1; 2]) 3; FtDatum (sources [0]) 2].

Definition ex_ft_key : filename_trans_key := FtKey 2 4 [120].

Definition ex_ft : ft_table :=
  default (Hashtab [] 0 0)
    (hashtab_insert (hashtab_create 4 []).1 ex_ft_key ex_chain []).1.2.

Definition ex_ft_db : policydb := set_filename_trans ex_db (Some ex_ft) 1.

Lemma sources_wf l : Forall (fun b => 0 <= b < 2 ^ 32 - MAPSIZE) l -> ebitmap_wf (sources l).
Proof.
  unfold sources. generalize (proj1 ebitmap_init_empty). generalize ebitmap_init.
  induction l as [|b l IH]; intros e He Hl; cbn [foldl]; [done|]. apply Forall_cons in Hl as [Hb Hl].
  apply IH; [|done]. destruct (ebitmap_set_bit e b true []) as [[rc e'] o'] eqn:E.
  by destruct (ebitmap_set_bit_spec e b true [] rc e' o' He Hb E).
Qed.

Lemma ex_ft_wf : hashtab_wf ft_key_ok ex_ft /\ hashtab_model ex_ft = {[ex_ft_key := ex_chain]}.
Proof.
  assert (Hw : hashtab_wf ft_key_ok (Hashtab (replicate 4 []) 4 0 : ft_table)).
  { split_and!; simpl; try done. by apply (table_wf_empty ft_key_ok 4). }
  assert (Hk : ft_key_ok ex_ft_key) by (repeat constructor; simpl; lia).
  destruct (insert_chain_spec _ ex_ft_key ex_chain Hw Hk ltac:(done)) as (rc & h' & Hr & Hw' & Hin & Hm).
  assert (ex_ft = h') as ->.
  { unfold ex_ft. change (hashtab_create 4 []).1 with (Some (Hashtab (replicate 4 []) 4 0 : ft_table)).
    by rewrite Hr. }
  split; [exact Hw'|]. destruct (hashtab_insert_spec ft_key_ok _ _ _ _ _ _ _ Hw Hk Hr)
    as (t' & [= <-] & _ & [(_ & _ & ->)|[(_ & [? Hs] & _)|(_ & [?|?] & _)]]); try done.
Qed.

Lemma ex_ft_inv : ft_inv ex_ft.
Proof.
  destruct ex_ft_wf as [Hw Hm]. split; [exact Hw|]. rewrite Hm. apply map_Forall_singleton.
  apply Forall_forall. intros d Hd. unfold ex_chain in Hd. rewrite !elem_of_cons in Hd.
  assert (Hb : forall b, 0 <= b <= 3 -> 0 <= b < 2 ^ 32 - MAPSIZE) by (unfold MAPSIZE; lia).
  destruct Hd as [->|[->|Hd%elem_of_nil]]; [| |done];
    (split; [|apply Hb; simpl; lia]); apply sources_wf, Forall_forall; intros b Hl; apply Hb;
    rewrite !elem_of_cons, elem_of_nil in Hl; lia.
Qed.

Lemma ex_type_values types : table ex_types = Some types -> type_values_ok types.
Proof.
  unfold type_values_ok. intros <-. assert (E : hashtab_data (table ex_types) =
    [plain_type 3 1 TYPE_ATTRIB; plain_type 2 1 TYPE_TYPE; plain_type 1 1 TYPE_TYPE]) by (vm_compute; reflexivity).
  rewrite E. repeat constructor; simpl; lia.
Qed.

Lemma letter_ok c : 1 <= c < 2 ^ 8 -> name_ok [c].
Proof. intros Hc. split; [constructor; [lia|constructor]|simpl; lia]. Qed.


(** type_transition s t:f d "x": the datum of type 3 is the first one, that of source type
    1 the second.  The chain is accepted before and refused afterwards. *)
Lemma add_filename_trans_overlap_witness :
  filename_trans_check_datum ex_chain [] = (0, []) /\
  exists h' n c, add_filename_trans [115] [116] [102] [100] [120] (ex_ft_db, []) =
      Some (true, (set_filename_trans ex_ft_db (Some h') n, [])) /\
    hashtab_model h' !! ex_ft_key = Some c /\ filename_trans_check_datum c [] = (-1, []).
Proof.
  split; [vm_compute; reflexivity|].
  destruct ex_types_wf as (types & Ht & Hwt). destruct ex_classes_wf as (classes & Hc & Hwc).
  apply (add_filename_trans_overlap ex_ft_db types classes ex_ft [115] [116] [102] [100] [120]
    eq_refl ex_ft_inv ltac:(done) Ht Hc Hwt Hwc (ex_type_values types Ht) (letter_ok 115 ltac:(lia))
    (letter_ok 116 ltac:(lia)) (letter_ok 102 ltac:(lia)) (letter_ok 100 ltac:(lia))
    (letter_ok 120 ltac:(lia)) (plain_type 1 1 TYPE_TYPE) (plain_type 2 1 TYPE_TYPE) ex_class
    (plain_type 3 1 TYPE_ATTRIB) [] (FtDatum (sources [1; 2]) 3) [] (FtDatum (sources [0]) 2) []).
  1-4: rewrite <-hashtab_find_model by (exact Hwt || exact Hwc || (apply letter_ok; lia));
    rewrite <-?Ht, <-?Hc; vm_compute; reflexivity.
  - change (FtKey _ _ _) with ex_ft_key. rewrite (proj2 ex_ft_wf). apply lookup_singleton_eq.
  - apply Forall_nil. exact I.
  - vm_compute. reflexivity.
  - reflexivity.
  - vm_compute. reflexivity.
Defined.
