(* ===== verification/SepolicyFilenameIO.v ===== *)
(** * Transitions for file names in a binary policy (libsepol/src/policydb.c, write.c)

    Policies have two formats.  Before version 33 a record holds one transition, and the
    reader rebuilds the chains by [policydb_filetrans_insert]; from version 33 on a record
    holds the chain of a key. *)

From S2P Require Import Prelude Policyfile Ebitmap EbitmapSpec EbitmapQuery EbitmapUpdate EbitmapProps Hashtab HashtabSpec Symtab Codec Avtab.
From S2P Require Import Policydb Sepolicy SepolicyFilename SepolicyFilenameSpec.

Definition POLICYDB_VERSION_FILENAME_TRANS : Z := 25.
Definition POLICYDB_VERSION_COMP_FTRANS : Z := 33.

(** The table and [filename_trans_count]. *)
Definition ft_state : Type :=
  option (hashtab_val filename_trans_key (list filename_trans_datum)) * Z.

(** ** Inserting one transition *)

(** The loop of [policydb_filetrans_insert]: the object type the source type has, or
    [last] the end of [pre] and [datum] the head of [post]. *)
Inductive find_result :=
  | Present (present_otype : Z)
  | Place (pre post : list filename_trans_datum).

Fixpoint filetrans_find (stype otyp : Z) (c : list filename_trans_datum) : find_result :=
  match c with
  | [] => Place [] []
  | datum :: c' =>
      if truthy (ebitmap_get_bit (stypes datum) (stype - 1)) then Present (otype datum)
      else if otype datum =? otyp then Place [] c
      else
        match filetrans_find stype otyp c' with
        | Present t => Present t
        | Place pre post => Place (datum :: pre) post
        end
  end.

(** [policydb_filetrans_insert] with the name duplicated ([name_alloc] is [NULL]) or taken
    over; the second result is [*present_otype]. *)
Definition policydb_filetrans_insert (p : ft_state) (stype ttyp tcls : Z) (name : list Z)
    (name_alloc : bool) (otyp : Z) (o : oracle) : Z * option Z * ft_state * oracle :=
  let (h, count) := p in
  let key := FtKey ttyp tcls name in
  match filetrans_find stype otyp (default [] (hashtab_search h key)) with
  | Present t => (SEPOL_EEXIST, Some t, p, o)
  | Place pre post =>
      (* the datum, allocated and linked when there is none *)
      let '(rc, h, datum, rest, o) :=
        match post with
        | datum :: rest => (0, h, datum, rest, o)
        | [] =>
            let datum := FtDatum ebitmap_init otyp in
            let (ok, o) := malloc o in
            if negb ok then (SEPOL_ENOMEM, h, datum, [], o)
            else
              match pre with
              | _ :: _ => (0, h, datum, [], o)
              | [] =>
                  let (ok1, o) := if name_alloc then (true, o) else malloc o in
                  if negb ok1 then (SEPOL_ENOMEM, h, datum, [], o)
                  else
                    let (ok2, o) := malloc o in
                    if negb ok2 then (SEPOL_ENOMEM, h, datum, [], o)
                    else
                      let '(rc, h, o) := hashtab_insert h key [datum] o in
                      (if truthy rc then SEPOL_ENOMEM else 0, h, datum, [], o)
              end
        end in
      if truthy rc then (rc, None, (h, count), o)
      else
        let '(rc, e, o) := ebitmap_set_bit (stypes datum) (stype - 1) true o in
        (rc, None,
         (write_chain h key (pre ++ FtDatum e (otype datum) :: rest), u32 (count + 1)), o)
  end.

(** ** Reading *)

Definition filename_trans_read_one_compat (p : ft_state) : reader ft_state :=
  buf ← rd_entry 4;
  name ← str_read (le32_at buf 0);
  buf ← rd_entry 16;
  rd_require (negb (le32_at buf 0 =? 0));;
  rd_call (fun o =>
    let '(rc, _, p, o) :=
      policydb_filetrans_insert p (le32_at buf 0) (le32_at buf 1) (le32_at buf 2) name true
        (le32_at buf 3) o in
    (if rc =? SEPOL_EEXIST then 0 else rc, p, o)).

(** A round of the loop over the data of a key: the chain so far and the count. *)
Definition read_ft_datum (s : list filename_trans_datum * Z) : reader (list filename_trans_datum * Z) :=
  let (chain, count) := s in
  rd_alloc;;
  e ← rd_ebitmap;
  buf ← rd_entry 4;
  mret (chain ++ [FtDatum e (le32_at buf 0)], u32 (count + ebitmap_cardinality e)).

Definition filename_trans_read_one (p : ft_state) : reader ft_state :=
  let (h, count) := p in
  buf ← rd_entry 4;
  name ← str_read (le32_at buf 0);
  buf ← rd_entry 12;
  let ndatum := le32_at buf 2 in
  rd_require (negb (ndatum =? 0));;
  '(chain, count) ← rd_loop (Z.to_nat ndatum) read_ft_datum ([], count);
  rd_call (fun o =>
    if 1 <? ndatum then let (rc, o) := filename_trans_check_datum chain o in (rc, (), o)
    else (0, (), o));;
  rd_alloc;;
  h ← rd_call (hashtab_insert h (FtKey (le32_at buf 0) (le32_at buf 1) name) chain);
  mret (h, count).

Definition filename_trans_read (vers : Z) (p : ft_state) : reader ft_state :=
  buf ← rd_entry 4;
  rd_loop (Z.to_nat (le32_at buf 0))
    (if vers <? POLICYDB_VERSION_COMP_FTRANS then filename_trans_read_one_compat
     else filename_trans_read_one) p.

(** ** Writing *)

Open Scope writer_scope.

(** The body of the loop of [filename_write_one_compat] over the bits of a datum. *)
Definition write_transition (ft : filename_trans_key) (datum : filename_trans_datum) (bit : Z) : writer :=
  wr_words [Z.of_nat (length (ft_name ft))];;;
  wr_put 1 (Z.of_nat (length (ft_name ft))) (ft_name ft);;;
  wr_words [bit + 1; ttype ft; tclass ft; otype datum].

Definition write_transitions (ft : filename_trans_key) (datum : filename_trans_datum) : writer :=
  match ebitmap_positive_bits (stypes datum) with
  | None => fun _ => None
  | Some bits => wr_each (write_transition ft datum) bits
  end.

(** Both functions run their loop on [NULL] when the chain is empty. *)
Definition filename_write_one_compat (ft : filename_trans_key) (data : list filename_trans_datum) : writer :=
  match data with
  | [] => fun _ => None
  | _ => wr_each (write_transitions ft) data
  end.

Definition write_ft_datum (datum : filename_trans_datum) : writer :=
  wr_ebitmap (stypes datum);;; wr_words [otype datum].

Definition filename_write_one (ft : filename_trans_key) (data : list filename_trans_datum) : writer :=
  match data with
  | [] => fun _ => None
  | _ =>
      wr_words [Z.of_nat (length (ft_name ft))];;;
      wr_put 1 (Z.of_nat (length (ft_name ft))) (ft_name ft);;;
      wr_words [ttype ft; tclass ft; Z.of_nat (length data)];;;
      wr_each write_ft_datum data
  end.

Definition filename_trans_write (vers : Z) (p : ft_state) : writer :=
  let (h, count) := p in
  if vers <? POLICYDB_VERSION_FILENAME_TRANS then wr_ret
  else if vers <? POLICYDB_VERSION_COMP_FTRANS then
    wr_words [count];;; wr_map filename_write_one_compat h
  else
    match h with
    | None => fun _ => None
    | Some t => wr_words [nel t];;; wr_map filename_write_one h
    end.

(** * Transitions for file names: what the reader accepts *)

(** The tables a reader builds; [Q] is what holds of the chains. *)
Definition ft_table_ok (Q : list filename_trans_datum -> Prop) (h : ft_table) : Prop :=
  hashtab_wf ft_key_ok h /\
  map_Forall (fun _ c => c <> [] /\ Forall datum_ok c /\ Q c) (hashtab_model h).

Definition ft_ok (Q : list filename_trans_datum -> Prop) (p : ft_state) : Prop :=
  exists h, p.1 = Some h /\ ft_table_ok Q h.

(** ** The format from version 33 on *)

Lemma accepts_datum s :
  Forall datum_ok s.1 ->
  accepts (read_ft_datum s) (fun s' => length s'.1 = S (length s.1) /\ Forall datum_ok s'.1).
Proof.
  intros Hs. destruct s as [chain count]. unfold read_ft_datum. cbn [fst] in *.
  eapply accepts_bind; [apply accepts_alloc|]. intros _ _.
  eapply accepts_bind; [apply accepts_ebitmap|]. intros e He.
  eapply accepts_bind; [apply accepts_entry|]. intros buf Hb. apply accepts_ret. cbn.
  rewrite length_app. split; [simpl; lia|]. apply Forall_app. split; [done|].
  constructor; [|done]. split; [done|]. exact (le32_bytes buf 0 Hb).
Qed.

Lemma accepts_data n s :
  Forall datum_ok s.1 ->
  accepts (rd_loop n read_ft_datum s) (fun s' => length s'.1 = (n + length s.1)%nat /\ Forall datum_ok s'.1).
Proof.
  intros Hs. apply (accepts_rounds _ (fun i s' => length s'.1 = (i + length s.1)%nat /\ Forall datum_ok s'.1)); [done|].
  intros i s1 [Hl H1]. eapply accepts_weaken; [by apply accepts_datum|]. intros s2 [Hl2 H2]. split; [lia|done].
Qed.

(** Whatever the allocator does, inserting a chain under a new key keeps the table. *)
Lemma insert_ok Q h key c o h' o' :
  ft_table_ok Q h -> ft_key_ok key -> c <> [] -> Forall datum_ok c -> Q c ->
  hashtab_insert (Some h) key c o = (0, h', o') -> exists t, h' = Some t /\ ft_table_ok Q t.
Proof.
  intros [Hw Hf] Hk Hne Hd Hq E.
  destruct (hashtab_insert_spec ft_key_ok h key c o 0 h' o' Hw Hk E) as (t & -> & Hw' & Hc).
  exists t. split; [done|]. split; [done|]. destruct Hc as [(_ & _ & ->)|[(? & _)|(? & _)]]; [|done|done].
  by apply map_Forall_insert_2.
Qed.

Lemma accepts_read_one p :
  ft_ok (StronglySorted apart) p ->
  accepts (filename_trans_read_one p) (ft_ok (StronglySorted apart)).
Proof.
  intros (h & Hp & Hok). destruct p as [h0 count]. cbn [fst] in Hp. subst h0. unfold filename_trans_read_one.
  eapply accepts_bind; [apply accepts_entry|]. intros lbuf _.
  eapply accepts_bind; [apply accepts_str|]. intros name Hname.
  eapply accepts_bind; [apply accepts_entry|]. intros buf Hbuf.
  eapply accepts_bind; [apply accepts_require|]. intros [] Hn. apply negb_true_iff, Z.eqb_neq in Hn.
  pose proof (le32_bytes buf 2 Hbuf) as Hr.
  eapply accepts_bind; [apply (accepts_data _ ([], count)); constructor|].
  intros [chain count'] [Hl Hd]. cbn [fst length] in Hl, Hd.
  eapply accepts_bind; [apply (accepts_call _ (fun _ => StronglySorted apart chain))|].
  { intros o u o' E. destruct (Z.ltb_spec 1 (le32_at buf 2)) as [Hgt|Hle].
    - destruct (filename_trans_check_datum chain o) as [rc o1] eqn:Ec. injection E as -> _ _.
      by eapply check_datum_any.
    - destruct chain as [|d [|d2 chain]]; [constructor|by repeat constructor|simpl in Hl; lia]. }
  intros [] Hs. eapply accepts_bind; [apply accepts_alloc|]. intros _ _.
  eapply accepts_bind; [apply (accepts_call _ (fun t => exists x, t = Some x /\ ft_table_ok (StronglySorted apart) x))|].
  - intros o t o' E. eapply insert_ok; [exact Hok| | |exact Hd|exact Hs|exact E]; [done|].
    intros ->. simpl in Hl. lia.
  - intros t (x & -> & Hx). apply accepts_ret. by exists x.
Qed.

(** ** The older format *)

(** What the loop of [policydb_filetrans_insert] finds. *)
Lemma filetrans_find_spec s t c :
  Forall datum_ok c ->
  match filetrans_find s t c with
  | Present t' => object_type s c = Some t'
  | Place pre post => c = pre ++ post /\ Forall (passed s t) pre /\
      (post = [] \/ exists d r, post = d :: r /\ has s d = false /\ otype d = t)
  end.
Proof.
  induction 1 as [|d c [Hw Hr] Hc IH]; cbn [filetrans_find]; [by auto|].
  rewrite get_bit_has by done. unfold object_type. cbn [List.find]. destruct (has s d) eqn:Hh; [done|].
  destruct (Z.eqb_spec (otype d) t) as [He|He].
  { split_and!; [done..|]. right. by exists d, c. }
  destruct (filetrans_find s t c) as [t'|pre post]; [done|].
  destruct IH as (-> & Hp & Hpost). split_and!; try done. by constructor.
Qed.

Lemma set_bit_codes e b o rc e' o' :
  ebitmap_wf e -> 0 <= b < 2 ^ 32 -> ebitmap_set_bit e b true o = (rc, e', o') ->
  rc = 0 \/ rc = - ENOMEM \/ rc = - EINVAL.
Proof.
  intros Hw Hb E. destruct (decide (b < 2 ^ 32 - MAPSIZE)) as [Hlt|Hge].
  - destruct (ebitmap_set_bit_spec e b true o rc e' o' Hw ltac:(lia) E) as [_ [[? _]|(? & _)]]; auto.
  - rewrite ebitmap_set_bit_overflow in E by lia. injection E as <- _ _. auto.
Qed.

Lemma set_bit_ok d s o e o' :
  datum_ok d -> 0 < s < 2 ^ 32 -> ebitmap_set_bit (stypes d) (s - 1) true o = (0, e, o') ->
  datum_ok (FtDatum e (otype d)).
Proof.
  intros [Hw Hr] Hs E. split; [|done]. cbn. destruct (decide (s - 1 < 2 ^ 32 - MAPSIZE)) as [Hlt|Hge].
  - by destruct (ebitmap_set_bit_spec (stypes d) (s - 1) true o 0 e o' Hw ltac:(lia) E).
  - by rewrite ebitmap_set_bit_overflow in E by lia.
Qed.

Lemma write_chain_ok h key c :
  ft_table_ok (fun _ => True) h -> ft_key_ok key -> is_Some (hashtab_model h !! key) ->
  c <> [] -> Forall datum_ok c ->
  exists t, write_chain (Some h) key c = Some t /\ ft_table_ok (fun _ => True) t.
Proof.
  intros [Hw Hf] Hk Hin Hne Hc. destruct (write_chain_spec h key c Hw Hk Hin) as (t & E & Hw' & _ & Hm).
  exists t. split; [done|]. split; [done|]. rewrite Hm. by apply map_Forall_insert_2.
Qed.

Lemma chain_ok Q h key : ft_table_ok Q h -> Forall datum_ok (default [] (hashtab_model h !! key)).
Proof.
  intros [_ Hf]. destruct (hashtab_model h !! key) as [c|] eqn:E; [by destruct (Hf key c E) as (_ & ? & _)|constructor].
Qed.

Lemma chain_found (h : ft_table) key : default [] (hashtab_model h !! key) <> [] -> is_Some (hashtab_model h !! key).
Proof. by destruct (hashtab_model h !! key). Qed.

(** Whatever the allocator does, a successful insertion keeps the table. *)
Lemma filetrans_insert_ok h count s ttyp tcls name t o rc x p' o' :
  ft_table_ok (fun _ => True) h -> Forall (fun c => 1 <= c < 2 ^ 8) name ->
  0 < s < 2 ^ 32 -> 0 <= t < 2 ^ 32 ->
  policydb_filetrans_insert (Some h, count) s ttyp tcls name true t o = (rc, x, p', o') ->
  rc = 0 \/ rc = SEPOL_EEXIST -> ft_ok (fun _ => True) p'.
Proof.
  intros Hok Hk Hs Ht. pose proof Hok as [Hw Hf]. set (key := FtKey ttyp tcls name).
  assert (Hkey : ft_key_ok key) by exact Hk.
  unfold policydb_filetrans_insert. fold key. rewrite (hashtab_search_spec ft_key_ok h key Hw Hkey).
  pose proof (chain_ok _ h key Hok) as Hc. pose proof (chain_found h key) as Hin.
  pose proof (filetrans_find_spec s t _ Hc) as Hfind.
  destruct (filetrans_find s t (default [] (hashtab_model h !! key))) as [t'|pre post].
  { intros [= <- <- <- <-] _. by exists h. }
  destruct Hfind as (E & _ & _). rewrite E in Hc, Hin. apply Forall_app in Hc as [Hpre Hpost].
  (* the bit is set in a datum that the table [h1] holds *)
  assert (Hfin : forall h1 d r o1, ft_table_ok (fun _ => True) h1 -> is_Some (hashtab_model h1 !! key) ->
    datum_ok d -> Forall datum_ok r ->
    (let '(rc, e, o) := ebitmap_set_bit (stypes d) (s - 1) true o1 in
     (rc, None, (write_chain (Some h1) key (pre ++ FtDatum e (otype d) :: r), u32 (count + 1)), o)) =
      (rc, x, p', o') -> rc = 0 \/ rc = SEPOL_EEXIST -> ft_ok (fun _ => True) p').
  { intros h1 d r o1 H1 Hin1 Hd Hr. destruct (ebitmap_set_bit (stypes d) (s - 1) true o1) as [[rc1 e] o2] eqn:Es.
    intros [= <- <- <- <-] [->|Hrc];
      [|destruct (set_bit_codes (stypes d) (s - 1) o1 rc1 e o2 (proj1 Hd) ltac:(lia) Es) as [?|[?|?]]; by subst].
    destruct (write_chain_ok h1 key (pre ++ FtDatum e (otype d) :: r)) as (h2 & Ew & H2); try done.
    - by destruct pre.
    - apply Forall_app. split; [done|]. constructor; [by eapply set_bit_ok|done].
    - exists h2. split; [exact Ew|done]. }
  destruct post as [|d r]; [|apply Forall_cons in Hpost as [Hd Hr]; cbn [truthy Z.eqb negb]; by apply Hfin; [|apply Hin; by destruct pre|..]].
  assert (Hd : datum_ok (FtDatum ebitmap_init t)) by (split; [apply ebitmap_init_empty|done]).
  destruct (malloc o) as [[|] o1]; cbn [negb]; [|by intros [= <- _ _ _] [?|?]].
  destruct pre as [|p0 pre]; [|cbn [truthy Z.eqb negb]; apply Hfin; try done; by apply Hin].
  destruct (malloc o1) as [[|] o2]; cbn [negb]; [|by intros [= <- _ _ _] [?|?]].
  destruct (hashtab_insert (Some h) key [FtDatum ebitmap_init t] o2) as [[rc1 h1] o3] eqn:Ei.
  destruct (truthy rc1) eqn:Er; [by intros [= <- _ _ _] [?|?]|]. apply truthy_false in Er as ->.
  cbn [truthy Z.eqb negb]. destruct (insert_ok (fun _ => True) h key [FtDatum ebitmap_init t] o2 h1 o3) as (t1 & -> & H1); try done.
  { by constructor. }
  apply Hfin; try done.
  destruct (hashtab_insert_spec ft_key_ok h key _ o2 0 (Some t1) o3 Hw Hkey Ei) as (t2 & [= <-] & _ & [(_ & _ & ->)|[(? & _)|(? & _)]]); try done.
  by rewrite lookup_insert_eq.
Qed.

Lemma accepts_read_one_compat p :
  ft_ok (fun _ => True) p -> accepts (filename_trans_read_one_compat p) (ft_ok (fun _ => True)).
Proof.
  intros (h & Hp & Hok). destruct p as [h0 count]. cbn [fst] in Hp. subst h0.
  unfold filename_trans_read_one_compat.
  eapply accepts_bind; [apply accepts_entry|]. intros lbuf _.
  eapply accepts_bind; [apply accepts_str|]. intros name Hname.
  eapply accepts_bind; [apply accepts_entry|]. intros buf Hbuf.
  eapply accepts_bind; [apply accepts_require|]. intros [] Hn. apply negb_true_iff, Z.eqb_neq in Hn.
  pose proof (le32_bytes buf 0 Hbuf). pose proof (le32_bytes buf 3 Hbuf).
  apply accepts_call. intros o p' o' E.
  destruct (policydb_filetrans_insert _ _ _ _ _ _ _ o) as [[[rc x] p1] o1] eqn:Ei.
  injection E as Hrc -> ->. eapply filetrans_insert_ok; [exact Hok|done|..|exact Ei|]; [lia..|].
  destruct (Z.eqb_spec rc SEPOL_EEXIST); auto.
Qed.

(** The tables both readers build. *)
Definition chain_shape (vers : Z) (c : list filename_trans_datum) : Prop :=
  POLICYDB_VERSION_COMP_FTRANS <= vers -> StronglySorted apart c.

Lemma ft_ok_weaken (Q Q' : list filename_trans_datum -> Prop) p :
  (forall c, Q c -> Q' c) -> ft_ok Q p -> ft_ok Q' p.
Proof.
  intros HQ (h & E & Hw & Hf). exists h. split; [done|]. split; [done|].
  eapply map_Forall_impl; [exact Hf|]. intros k c (? & ? & ?). auto.
Qed.

Lemma accepts_filename_trans vers p :
  ft_ok (chain_shape vers) p -> accepts (filename_trans_read vers p) (ft_ok (chain_shape vers)).
Proof.
  intros Hp. unfold filename_trans_read. eapply accepts_bind; [apply accepts_entry|]. intros buf _.
  destruct (Z.ltb_spec vers POLICYDB_VERSION_COMP_FTRANS) as [Hlt|Hge].
  - eapply accepts_weaken; [apply accepts_loop; [|apply accepts_read_one_compat]|].
    + by eapply ft_ok_weaken.
    + intros p'. apply ft_ok_weaken. intros c _ ?. lia.
  - eapply accepts_weaken; [apply accepts_loop; [|apply accepts_read_one]|].
    + eapply ft_ok_weaken; [|exact Hp]. intros c Hc. by apply Hc.
    + intros p'. apply ft_ok_weaken. by intros c Hc _.
Qed.
