(* ===== verification/SepolicyFilenameCompat.v ===== *)
(** * Transitions for file names: the bytes of a table, and reading them back *)

From S2P Require Import Prelude Policyfile Ebitmap EbitmapSpec EbitmapQuery EbitmapUpdate EbitmapProps Hashtab HashtabSpec Symtab Codec Avtab.
From S2P Require Import Policydb Sepolicy SepolicySpec SepolicyFilename SepolicyFilenameSpec SepolicyFilenameIO.

(** ** The entries a policy can hold *)

Record entry_ok (k : filename_trans_key) (c : list filename_trans_datum) : Prop := {
  en_name : ft_key_ok k;
  en_nonempty : ft_name k <> [];
  en_length : Z.of_nat (length (ft_name k)) < 2 ^ 32;
  en_ttype : 0 <= ttype k < 2 ^ 32;
  en_tclass : 0 <= tclass k < 2 ^ 32;
  en_chain : c <> [];
  en_count : Z.of_nat (length c) < 2 ^ 32;
  en_data : Forall datum_wf c
}.

Definition name_bytes (k : filename_trans_key) : list Z :=
  words [Z.of_nat (length (ft_name k))] ++ ft_name k.

(** The number of transitions of a chain. *)
Definition chain_size (c : list filename_trans_datum) : Z :=
  foldr (fun d n => ebitmap_cardinality (stypes d) + n) 0 c.

(** ** From version 33 on *)

Definition ft_datum_bytes (d : filename_trans_datum) : list Z := ebitmap_bytes (stypes d) ++ words [otype d].

Definition chain_record (k : filename_trans_key) (c : list filename_trans_datum) : list Z :=
  words [Z.of_nat (length (ft_name k))] ++ ft_name k ++
  words [ttype k; tclass k; Z.of_nat (length c)] ++ concat (map ft_datum_bytes c).

Lemma emits_name s : Z.of_nat (length s) < 2 ^ 32 -> emits (wr_put 1 (Z.of_nat (length s)) s) s.
Proof. intros Hl. apply emits_put; lia. Qed.

Lemma emits_chain k c : entry_ok k c -> emits (filename_write_one k c) (chain_record k c).
Proof.
  intros [Hk Hne Hl Ht Hcl Hc Hn Hd]. unfold filename_write_one, chain_record.
  destruct c as [|d c]; [done|]. apply emits_seq; [apply emits_words; simpl; lia|].
  apply emits_seq; [by apply emits_name|]. apply emits_seq; [apply emits_words; simpl; lia|].
  apply emits_each. eapply Forall_impl; [exact Hd|]. intros e [He _].
  apply emits_seq; [by apply emits_ebitmap|apply emits_words; simpl; lia].
Qed.

Lemma decodes_datum chain count d :
  datum_wf d -> decodes (read_ft_datum (chain, count)) (ft_datum_bytes d)
    (chain ++ [d], u32 (count + ebitmap_cardinality (stypes d))).
Proof.
  intros [Hw Hr]. unfold read_ft_datum, ft_datum_bytes. eapply decodes_step; [apply decodes_alloc|].
  eapply decodes_bind; [by apply decodes_ebitmap|]. rewrite <-(app_nil_r (words [otype d])).
  eapply decodes_bind; [by apply (decodes_words 1)|]. rewrite le32_first by (unfold MAPSIZE in *; lia).
  destruct d. apply decodes_ret.
Qed.

Lemma u32_add_l a b : u32 (u32 a + b) = u32 (a + b).
Proof. unfold u32. by rewrite Z.add_mod_idemp_l. Qed.

Lemma decodes_data c count :
  Forall datum_wf c ->
  decodes (rd_loop (length c) read_ft_datum ([], u32 count)) (concat (map ft_datum_bytes c))
    (c, u32 (count + chain_size c)).
Proof.
  intros Hc. destruct (decodes_loop read_ft_datum ft_datum_bytes
    (fun pre s => s = (pre, u32 (count + chain_size pre))) c ([], u32 count)) as (s & Hd & ->).
  - simpl. by rewrite Z.add_0_r.
  - intros pre d post s -> ->. apply Forall_app in Hc as [_ [Hd _]%Forall_cons].
    eexists. split; [by apply decodes_datum|]. f_equal. rewrite u32_add_l. f_equal.
    unfold chain_size. rewrite foldr_app. simpl. clear. induction pre as [|e pre IH]; simpl; lia.
  - exact Hd.
Qed.

Lemma decodes_chain h count k c :
  hashtab_wf ft_key_ok h -> hashtab_model h !! k = None -> nel h < UINT32_MAX ->
  entry_ok k c -> StronglySorted apart c ->
  exists h', decodes (filename_trans_read_one (Some h, u32 count)) (chain_record k c)
      (Some h', u32 (count + chain_size c)) /\
    hashtab_wf ft_key_ok h' /\ hashtab_model h' = <[k := c]> (hashtab_model h).
Proof.
  intros Hw Hnone Hnel [Hk Hne Hl Ht Hcl Hc Hn Hd] Hs.
  destruct (hashtab_insert_new ft_key_ok h k c Hw Hk Hnone Hnel) as (h' & E & Hw' & Hm).
  exists h'. split; [|done]. unfold filename_trans_read_one, chain_record.
  eapply decodes_bind; [by apply (decodes_words 1)|]. rewrite le32_first by lia.
  eapply decodes_bind; [by apply decodes_str|].
  eapply decodes_bind; [by apply (decodes_words 3)|]. rewrite !le32_next, !le32_first by lia.
  assert (Hpos : (0 < length c)%nat) by (destruct c; [done|simpl; lia]).
  eapply decodes_step; [apply decodes_require; case_Z; [lia|done]|].
  rewrite Nat2Z.id, <-(app_nil_r (concat _)). eapply decodes_bind; [by apply decodes_data|].
  eapply decodes_step; [apply (decodes_call _ ())|].
  { case_Z; [|done]. by rewrite (proj2 (check_datum_iff c Hd) Hs). }
  eapply decodes_step; [apply decodes_alloc|].
  eapply decodes_step; [apply decodes_call; destruct k; exact E|]. apply decodes_ret.
Qed.

(** ** Tables *)

Abbreviation ft_node := (hashtab_node filename_trans_key (list filename_trans_datum)).

(** The transitions of all entries, counted. *)
Definition total_size (l : list ft_node) : Z := foldr (fun n s => chain_size (hdatum n) + s) 0 l.

Lemma total_size_app l1 l2 : total_size (l1 ++ l2) = total_size l1 + total_size l2.
Proof. unfold total_size. induction l1 as [|n l1 IH]; simpl; lia. Qed.

(** The state after the entries [l] were read into an empty table. *)
Definition holds (l : list ft_node) (p : ft_state) : Prop :=
  exists h, p = (Some h, u32 (total_size l)) /\ hashtab_wf ft_key_ok h /\
    hashtab_model h = list_to_map (pairs l).

Lemma holds_nel (l : list ft_node) h : hashtab_wf ft_key_ok h -> hashtab_model h = list_to_map (pairs l) ->
  NoDup (hkey <$> l) -> nel h = Z.of_nat (length l).
Proof.
  intros Hw Hm Hnd. rewrite (nel_size ft_key_ok), Hm, map_size_list_to_map by (done || by rewrite pairs_keys).
  unfold pairs. by rewrite length_fmap.
Qed.

Lemma decodes_chains (l : list ft_node) p :
  NoDup (hkey <$> l) -> Z.of_nat (length l) <= UINT32_MAX -> holds [] p ->
  Forall (fun n => entry_ok (hkey n) (hdatum n) /\ StronglySorted apart (hdatum n)) l ->
  exists p', decodes (rd_loop (length l) filename_trans_read_one p) (entries_bytes chain_record l) p' /\
    holds l p'.
Proof.
  intros Hnd Hlen Hp Hl. apply (decodes_loop filename_trans_read_one (fun n => chain_record (hkey n) (hdatum n)) holds); [done|].
  intros pre n post s Hsplit (h & -> & Hw & Hm). rewrite Hsplit in Hl, Hnd, Hlen.
  apply Forall_app in Hl as [_ [[He Hs] _]%Forall_cons].
  replace (pre ++ n :: post) with ((pre ++ [n]) ++ post) in Hnd, Hlen by (by rewrite <-app_assoc).
  rewrite fmap_app in Hnd. apply NoDup_app in Hnd as (Hnd & _ & _). rewrite !length_app in Hlen. simpl in Hlen.
  destruct (pairs_snoc pre n Hnd) as [Hnone Hins]. rewrite <-Hm in Hnone, Hins.
  assert (Hnel : nel h < UINT32_MAX).
  { rewrite (holds_nel pre h Hw Hm); [lia|]. rewrite fmap_app in Hnd. by apply NoDup_app in Hnd as (? & _). }
  destruct (decodes_chain h (total_size pre) (hkey n) (hdatum n) Hw Hnone Hnel He Hs) as (h' & Hd & Hw' & Hm').
  eexists. split; [exact Hd|]. exists h'. split; [|split; [done|by rewrite Hm', Hins]].
  do 2 f_equal. rewrite total_size_app. simpl. lia.
Qed.

(** * Transitions for file names before version 33: one record per transition *)

(** ** The number of transitions *)

Lemma set_source_size s d :
  datum_wf d -> 0 < s < 2 ^ 32 - MAPSIZE -> has s d = false ->
  ebitmap_cardinality (stypes (set_source s d)) = ebitmap_cardinality (stypes d) + 1.
Proof.
  intros Hd Hs Hh. destruct (set_source_spec s d Hd Hs) as (e & _ & _ & [Hw _] & Hm).
  pose proof Hd as [Hwd _]. rewrite !ebitmap_cardinality_correct by done.
  assert (ebitmap_bits (stypes (set_source s d)) ≡ₚ (s - 1) :: ebitmap_bits (stypes d)) as ->; [|simpl; lia].
  apply NoDup_Permutation; [apply bits_NoDup| |].
  - apply NoDup_cons. split; [|apply bits_NoDup]. rewrite elem_of_bits by done.
    unfold has in Hh. congruence.
  - intros b. rewrite elem_of_cons, !elem_of_bits by done.
    specialize (Hm (b + 1)). unfold has in Hm. replace (b + 1 - 1) with b in Hm by lia. rewrite Hm.
    rewrite orb_true_iff, Z.eqb_eq. split; intros [?|?]; auto; left; lia.
Qed.

Lemma chain_size_app c1 c2 : chain_size (c1 ++ c2) = chain_size c1 + chain_size c2.
Proof. unfold chain_size. induction c1 as [|d c1 IH]; simpl; lia. Qed.

(** Adding a source type that no datum has. *)
Definition placed (s t : Z) (pre post : list filename_trans_datum) : list filename_trans_datum :=
  match post with
  | [] => pre ++ [set_source s (FtDatum ebitmap_init t)]
  | d :: r => pre ++ set_source s d :: r
  end.

Lemma placed_edited s t c pre post :
  scan_chain s t c = Stopped pre post -> edited_chain s t c = placed s t pre post.
Proof. intros E. unfold edited_chain. rewrite E. by destruct post. Qed.

Lemma init_cardinality : ebitmap_cardinality ebitmap_init = 0.
Proof. reflexivity. Qed.

Lemma placed_size s t c pre post :
  Forall datum_wf c -> 0 < s < 2 ^ 32 - MAPSIZE -> 0 <= t < 2 ^ 32 - MAPSIZE ->
  c = pre ++ post -> (forall d r, post = d :: r -> has s d = false) ->
  chain_size (placed s t pre post) = chain_size c + 1.
Proof.
  intros Hc Hs Ht -> Hd. apply Forall_app in Hc as [_ Hp]. destruct post as [|d r]; simpl.
  - rewrite app_nil_r, chain_size_app. cbn [chain_size foldr].
    rewrite set_source_size; [cbn [stypes]; rewrite init_cardinality; lia|by apply fresh_wf|done|apply ebitmap_init_empty].
  - apply Forall_cons in Hp as [Hd' _]. rewrite !chain_size_app. cbn [chain_size foldr].
    rewrite set_source_size; [lia|done|done|]. by apply (Hd d r).
Qed.

(** [scan_chain] and [filetrans_find] stop at the same place. *)
Lemma find_scan s t c pre post :
  filetrans_find s t c = Place pre post <-> scan_chain s t c = Stopped pre post.
Proof.
  revert pre post. induction c as [|d c IH]; intros pre post; cbn [filetrans_find scan_chain].
  { split; by intros [= <- <-]. }
  destruct (truthy _); [done|]. destruct (otype d =? t); [split; by intros [= <- <-]|].
  destruct (filetrans_find s t c) as [t'|p q], (scan_chain s t c) as [c'|p' q']; try done.
  - discriminate (proj2 (IH p' q') eq_refl).
  - discriminate (proj1 (IH p q) eq_refl).
  - injection (proj1 (IH p q) eq_refl) as -> ->. split; by intros [= <- <-].
Qed.

(** ** Inserting a transition, with memory available *)

(** The datum that is made when there is none is linked to the chain. *)
Definition linked (h : ft_table) k (pre : list filename_trans_datum) d (o : oracle) :
    Z * option ft_table * filename_trans_datum * list filename_trans_datum * oracle :=
  match pre with
  | _ :: _ => (0, Some h, d, [], o)
  | [] => let '(rc, h1, o) := hashtab_insert (Some h) k [d] o in
          (if truthy rc then SEPOL_ENOMEM else 0, h1, d, [], o)
  end.

Lemma linked_spec h k pre d :
  hashtab_wf ft_key_ok h -> ft_key_ok k -> hashtab_model h !! k <> Some [] ->
  (hashtab_model h !! k = None -> nel h < UINT32_MAX) ->
  (default [] (hashtab_model h !! k) = pre) ->
  exists h1, linked h k pre d [] = (0, Some h1, d, [], []) /\
    hashtab_wf ft_key_ok h1 /\ is_Some (hashtab_model h1 !! k) /\
    forall c : list filename_trans_datum, <[k := c]> (hashtab_model h1) = <[k := c]> (hashtab_model h).
Proof.
  intros Hw Hk Hne Hnel Hpre. destruct (hashtab_model h !! k) as [c|] eqn:E; simpl in Hpre; subst pre.
  - destruct c as [|p c]; [done|]. exists h. by rewrite E.
  - unfold linked. destruct (hashtab_insert_new ft_key_ok h k [d] Hw Hk E (Hnel eq_refl)) as (h' & Hi & Hw' & Hm).
    exists h'. rewrite Hi. split_and!; try done; rewrite Hm; [by rewrite lookup_insert_eq|]. intros c. apply insert_insert_eq.
Qed.

Lemma filetrans_insert_spec h count s k t :
  hashtab_wf ft_key_ok h -> ft_key_ok k -> hashtab_model h !! k <> Some [] ->
  (hashtab_model h !! k = None -> nel h < UINT32_MAX) ->
  0 < s < 2 ^ 32 - MAPSIZE -> 0 <= t < 2 ^ 32 - MAPSIZE ->
  let c := default [] (hashtab_model h !! k) in
  Forall datum_wf c ->
  let r := policydb_filetrans_insert (Some h, count) s (ttype k) (tclass k) (ft_name k) true t [] in
  match filetrans_find s t c with
  | Present t' => r = (SEPOL_EEXIST, Some t', (Some h, count), [])
  | Place pre post =>
      exists h', r = (0, None, (Some h', u32 (count + 1)), []) /\ hashtab_wf ft_key_ok h' /\
        hashtab_model h' = <[k := placed s t pre post]> (hashtab_model h)
  end.
Proof.
  intros Hw Hk Hne Hnel Hs Ht c Hc. cbn zeta. unfold policydb_filetrans_insert.
  replace (FtKey (ttype k) (tclass k) (ft_name k)) with k by (by destruct k).
  rewrite (hashtab_search_spec ft_key_ok h k Hw Hk). fold c.
  assert (Hcok : Forall datum_ok c) by (eapply Forall_impl; [exact Hc|apply datum_wf_ok]).
  pose proof (filetrans_find_spec s t c Hcok) as Hfind.
  destruct (filetrans_find s t c) as [t'|pre post]; [done|]. destruct Hfind as (E & _ & _).
  (* the bit is set in the datum [d] of the table [h1] *)
  assert (Hfin : forall h1 d r, hashtab_wf ft_key_ok h1 -> is_Some (hashtab_model h1 !! k) ->
    (forall x : list filename_trans_datum, <[k := x]> (hashtab_model h1) = <[k := x]> (hashtab_model h)) -> datum_wf d ->
    exists h', (let '(rc, e, o) := ebitmap_set_bit (stypes d) (s - 1) true [] in
      (rc, @None Z, (write_chain (Some h1) k (pre ++ FtDatum e (otype d) :: r), u32 (count + 1)), o)) =
        (0, None, (Some h', u32 (count + 1)), []) /\ hashtab_wf ft_key_ok h' /\
      hashtab_model h' = <[k := pre ++ set_source s d :: r]> (hashtab_model h)).
  { intros h1 d r Hw1 Hin1 Hm1 Hd.
    destruct (finish_chain h s k Hk Hs h1 pre d r Hw1 Hin1 Hm1 Hd) as (h' & e & He & Hwr & Hw' & Hm').
    exists h'. rewrite He, Hwr. done. }
  destruct post as [|d r]; cbn [malloc negb].
  - rewrite app_nil_r in E. change (match pre with [] => _ | _ :: _ => _ end) with
      (linked h k pre (FtDatum ebitmap_init t) []).
    destruct (linked_spec h k pre (FtDatum ebitmap_init t) Hw Hk Hne Hnel E) as (h1 & -> & Hw1 & Hin1 & Hm1).
    apply Hfin; done.
  - rewrite E in Hc. apply Forall_app in Hc as [_ [Hd _]%Forall_cons].
    apply Hfin; try done. apply chain_found. fold c. rewrite E. by destruct pre.
Qed.

(** ** The chain that a list of records makes *)

(** The object type the records give to a source type: the first one counts. *)
Definition first_of (R : list (Z * Z)) (s : Z) : option Z := snd <$> List.find (fun r => r.1 =? s) R.

Lemma first_of_app R1 R2 s :
  first_of (R1 ++ R2) s = match first_of R1 s with Some t => Some t | None => first_of R2 s end.
Proof. unfold first_of. rewrite find_app. by destruct (List.find _ R1). Qed.

Lemma first_of_None R s : first_of R s = None <-> s ∉ R.*1.
Proof.
  unfold first_of. induction R as [|[a t] R IH]; simpl; [split; [by intros _ ?%elem_of_nil|done]|].
  rewrite not_elem_of_cons. destruct (Z.eqb_spec a s) as [->|Hne]; simpl.
  - split; [done|]. by intros [? _].
  - rewrite IH. split; [auto|by intros [_ ?]].
Qed.

(** Records of the same object type are next to each other. *)
Definition grouped (R : list (Z * Z)) : Prop :=
  forall pre r post, R = pre ++ r :: post -> r.2 ∈ pre.*2 -> last pre.*2 = Some r.2.

Definition record_ok (r : Z * Z) : Prop := 0 < r.1 < 2 ^ 32 - MAPSIZE /\ 0 <= r.2 < 2 ^ 32 - MAPSIZE.

(** The chain [c] was made from the records [R]. *)
Record made (R : list (Z * Z)) (c : list filename_trans_datum) : Prop := {
  mk_wf : Forall datum_wf c;
  mk_apart : StronglySorted apart c;
  mk_first : forall s, object_type s c = first_of R s;
  mk_types : forall t, t ∈ (otype <$> c) -> t ∈ R.*2
}.

(** The datum of the last record is the last of the chain, if there is one. *)
Definition ends (R : list (Z * Z)) (c : list filename_trans_datum) : Prop :=
  forall t, last R.*2 = Some t -> t ∈ (otype <$> c) -> last (otype <$> c) = Some t.

(** What the insertion makes of a chain. *)
Definition inserted (s t : Z) (c : list filename_trans_datum) : list filename_trans_datum :=
  match filetrans_find s t c with
  | Present _ => c
  | Place pre post => placed s t pre post
  end.

Lemma object_type_None s c : object_type s c = None <-> Forall (fun d => has s d = false) c.
Proof.
  unfold object_type. induction c as [|d c IH]; simpl; [done|]. rewrite Forall_cons.
  destruct (has s d); simpl; [split; [done|by intros [? _]]|]. rewrite IH. tauto.
Qed.

Lemma apart_otypes c : StronglySorted apart c -> NoDup (otype <$> c).
Proof.
  induction 1 as [|d c Hs IH Hf]; simpl; [constructor|]. constructor; [|done].
  intros (e & He & Hin)%list_elem_of_fmap. rewrite Forall_forall in Hf. by destruct (Hf e Hin) as [? _].
Qed.

Lemma made_find R c s t :
  made R c ->
  match filetrans_find s t c with
  | Present t' => first_of R s = Some t'
  | Place pre post => c = pre ++ post /\ Forall (passed s t) pre /\
      (post = [] \/ exists d r, post = d :: r /\ has s d = false /\ otype d = t)
  end.
Proof.
  intros [Hw _ Hf _]. rewrite <-Hf. apply filetrans_find_spec.
  eapply Forall_impl; [exact Hw|apply datum_wf_ok].
Qed.

(** When the loop of the insertion stops before the end of the chain, the source type is
    not behind that place either. *)
Lemma place_new R c s t pre post :
  made R c -> s ∉ R.*1 \/ ends R c /\ (t ∈ R.*2 -> last R.*2 = Some t) ->
  filetrans_find s t c = Place pre post -> Forall (fun d => has s d = false) c.
Proof.
  intros Hm Hok E. pose proof (made_find R c s t Hm) as Hs. rewrite E in Hs.
  destruct Hs as (-> & Hp & Hpost), Hm as [Hw Ha Hf Ht].
  assert (Hpre : Forall (fun d => has s d = false) pre)
    by (eapply Forall_impl; [exact Hp|by intros d [? _]]).
  destruct Hok as [Hnew|[Hl Hgr]]; [by apply object_type_None; rewrite Hf; apply first_of_None|].
  destruct Hpost as [->|(d & r & -> & Hd & Ho)]; [by rewrite app_nil_r|].
  assert (Hin : t ∈ (otype <$> pre ++ d :: r)).
  { rewrite fmap_app, fmap_cons, Ho. apply elem_of_app. right. by left. }
  specialize (Hl t (Hgr (Ht t Hin)) Hin). apply apart_otypes in Ha.
  rewrite fmap_app, fmap_cons in Hl, Ha. apply NoDup_app in Ha as (_ & _ & Hnd).
  apply NoDup_cons in Hnd as [Hni _]. destruct r as [|e r].
  - apply Forall_app. split; [done|]. by constructor.
  - exfalso. rewrite fmap_cons, last_app_cons, last_cons_cons in Hl. apply Hni. rewrite Ho.
    by apply last_Some_elem_of.
Qed.

Lemma placed_otypes s t pre post :
  (post = [] \/ exists d r, post = d :: r /\ has s d = false /\ otype d = t) ->
  (otype <$> placed s t pre post) =
    match post with [] => (otype <$> pre) ++ [t] | _ => otype <$> pre ++ post end.
Proof.
  intros Hp. unfold placed. destruct post as [|d r]; rewrite !fmap_app; [done|].
  by destruct Hp as [?|(d' & r' & [= -> ->] & _ & <-)].
Qed.

Lemma made_nil : made [] [] /\ ends [] [].
Proof. split; [|done]. split; try done; try constructor. Qed.

Lemma made_step R c s t :
  made R c -> record_ok (s, t) -> s ∉ R.*1 \/ ends R c /\ (t ∈ R.*2 -> last R.*2 = Some t) ->
  made (R ++ [(s, t)]) (inserted s t c).
Proof.
  intros Hm [Hs Ht0] Hok. cbn [fst snd] in Hs, Ht0. pose proof (made_find R c s t Hm) as Hfind. unfold inserted.
  destruct (filetrans_find s t c) as [t'|pre post] eqn:E; destruct Hm as [Hw Ha Hf Ht] eqn:Em.
  - split; try done.
    + intros s0. rewrite Hf, first_of_app. destruct (first_of R s0) eqn:E0; [done|].
      unfold first_of. simpl. destruct (Z.eqb_spec s s0) as [->|]; [congruence|done].
    + intros t0 Hin. rewrite fmap_app. apply elem_of_app. left. by apply Ht.
  - clear Em. assert (Hnew : Forall (fun d => has s d = false) c) by (eapply place_new; by try done; split).
    rewrite <-(placed_edited s t c pre post) by (by apply find_scan). split.
    + apply edited_chain_wf; done || lia.
    + apply edited_chain_check; done || lia.
    + intros s0. rewrite first_of_app, <-Hf. destruct (decide (s0 = s)) as [->|Hne].
      * rewrite edited_chain_source by (done || lia). rewrite (proj2 (object_type_None s c) Hnew).
        unfold first_of. simpl. by rewrite Z.eqb_refl.
      * rewrite edited_chain_other; [|done..|lia|done|eapply Forall_impl; [exact Hnew|]; intros d Hd; cbn; congruence].
        destruct (object_type s0 c); [done|]. unfold first_of. simpl. by rewrite (proj2 (Z.eqb_neq s s0)).
    + intros t0. rewrite (placed_edited s t c pre post) by (by apply find_scan).
      destruct Hfind as (-> & _ & Hpost). rewrite placed_otypes by done. intros Hin.
      rewrite (fmap_app snd). apply elem_of_app. destruct post as [|d r]; [|left; by apply Ht].
      rewrite app_nil_r in Ht. apply elem_of_app in Hin as [Hin|Hin]; [left; by apply Ht|by right].
Qed.

Lemma ends_step R c s t :
  made R c -> ends R c -> (t ∈ R.*2 -> last R.*2 = Some t) ->
  ends (R ++ [(s, t)]) (inserted s t c).
Proof.
  intros Hm He Hgr t0. rewrite fmap_app. change ([(s, t)].*2) with [t]. rewrite last_snoc. intros [= <-]. pose proof (made_find R c s t Hm) as Hfind.
  pose proof (mk_types _ _ Hm) as Ht. unfold inserted. destruct (filetrans_find s t c) as [t'|pre post].
  - intros Hin. apply He; [|done]. by apply Hgr, Ht.
  - destruct Hfind as (-> & _ & Hpost). rewrite placed_otypes by done. cbn [snd].
    destruct post as [|d r]; [intros _; by rewrite last_snoc|].
    intros Hin. apply He; [|done]. by apply Hgr, Ht.
Qed.

(** ** The records of a chain *)

Definition datum_transitions (d : filename_trans_datum) : list (Z * Z) :=
  map (fun b => (b + 1, otype d)) (ebitmap_bits (stypes d)).

Definition chain_transitions (c : list filename_trans_datum) : list (Z * Z) :=
  concat (map datum_transitions c).

Lemma first_datum s d :
  datum_wf d -> first_of (datum_transitions d) s = if has s d then Some (otype d) else None.
Proof.
  intros [Hw _]. destruct (first_of (datum_transitions d) s) as [t|] eqn:E.
  - unfold first_of in E. destruct (List.find _ _) as [[s' t']|] eqn:Ef; [|done]. simplify_eq/=.
    apply List.find_some in Ef as [Hin Heq]. cbn in Heq. apply Z.eqb_eq in Heq. subst s'.
    apply in_map_iff in Hin as (b & [= <- <-] & Hb). apply list_elem_of_In, elem_of_bits in Hb; [|done].
    unfold has. by replace (b + 1 - 1) with b by lia; rewrite Hb.
  - destruct (has s d) eqn:Hh; [|done]. exfalso. apply first_of_None in E. apply E.
    unfold datum_transitions. apply list_elem_of_fmap. exists (s, otype d). split; [done|].
    apply list_elem_of_fmap. exists (s - 1). split; [f_equal; lia|]. by apply elem_of_bits.
Qed.

Lemma first_transitions s c :
  Forall datum_wf c -> first_of (chain_transitions c) s = object_type s c.
Proof.
  induction 1 as [|d c Hd Hc IH]; [done|]. cbn [chain_transitions map concat].
  fold (chain_transitions c). rewrite first_of_app, first_datum by done.
  unfold object_type. cbn [List.find]. destruct (has s d); [done|]. apply IH.
Qed.

Lemma size_transitions c :
  Forall datum_wf c -> Z.of_nat (length (chain_transitions c)) = chain_size c.
Proof.
  induction 1 as [|d c [Hw _] Hc IH]; [done|]. cbn [chain_transitions map concat chain_size foldr].
  fold (chain_transitions c). fold (chain_size c). rewrite length_app, Nat2Z.inj_add, IH.
  unfold datum_transitions. by rewrite length_map, ebitmap_cardinality_correct.
Qed.

(** Chains that the records describe: with distinct object types, or with no source type
    in two data. *)
Record storable (c : list filename_trans_datum) : Prop := {
  st_some : chain_transitions c <> [];
  st_range : Forall record_ok (chain_transitions c);
  st_order : NoDup (otype <$> c) \/ NoDup (chain_transitions c).*1
}.

Lemma grouped_transitions c : NoDup (otype <$> c) -> grouped (chain_transitions c).
Proof.
  induction c as [|d c IH] using rev_ind; intros Hnd pre r post E.
  { by destruct pre. }
  rewrite fmap_app in Hnd. apply NoDup_app in Hnd as (Hnd & Hd & _).
  unfold chain_transitions in E. rewrite map_app, concat_app in E. cbn [map concat] in E.
  rewrite app_nil_r in E. fold (chain_transitions c) in E.
  assert (Htypes : forall x, x ∈ (chain_transitions c).*2 -> x ∈ (otype <$> c)).
  { clear. intros x (r & -> & Hr)%list_elem_of_fmap. apply list_elem_of_In in Hr.
    apply in_concat in Hr as (l & Hl & Hr). apply in_map_iff in Hl as (e & <- & He).
    apply in_map_iff in Hr as (b & <- & _). apply list_elem_of_fmap. exists e.
    split; [done|]. by apply list_elem_of_In. }
  assert (Hsame : forall x, x ∈ datum_transitions d -> x.2 = otype d).
  { intros x (b & -> & _)%list_elem_of_fmap. done. }
  intros Hin. apply app_eq_inv in E as [(k & E1 & E2)|(k & E1 & E2)].
  - destruct k as [|x k].
    + rewrite app_nil_r in E1. subst pre. cbn [app] in E2.
      assert (r.2 = otype d) as Hr by (apply Hsame; rewrite <-E2; by left).
      exfalso. apply (Hd (otype d)); [|by left]. apply Htypes. by rewrite <-Hr.
    + injection E2 as <- E2. apply (IH Hnd pre r k); [|done]. by rewrite E1.
  - assert (Hr : r.2 = otype d) by (apply Hsame; rewrite E2; apply elem_of_app; right; by left).
    rewrite E1, fmap_app in Hin |- *. destruct k as [|x k _] using rev_ind.
    + rewrite app_nil_r in Hin. exfalso. apply (Hd (otype d)); [|by left]. apply Htypes. by rewrite <-Hr.
    + rewrite fmap_app. cbn [fmap list_fmap]. rewrite app_assoc, last_snoc. f_equal. rewrite Hr.
      apply Hsame. rewrite E2, !elem_of_app. left. right. by left.
Qed.

(** The records as bytes. *)
Definition transition_record (k : filename_trans_key) (r : Z * Z) : list Z :=
  words [Z.of_nat (length (ft_name k))] ++ ft_name k ++ words [r.1; ttype k; tclass k; r.2].

Definition chain_records (k : filename_trans_key) (c : list filename_trans_datum) : list Z :=
  concat (map (transition_record k) (chain_transitions c)).

Lemma emits_records k c : entry_ok k c -> emits (filename_write_one_compat k c) (chain_records k c).
Proof.
  intros [Hk Hne Hl Ht Hcl Hc Hn Hd]. unfold filename_write_one_compat. destruct c as [|d0 c0]; [done|].
  assert (chain_records k (d0 :: c0) =
    concat (map (fun d => concat (map (transition_record k) (datum_transitions d))) (d0 :: c0))) as ->.
  { unfold chain_records, chain_transitions. generalize (d0 :: c0). clear.
    induction l as [|d l IH]; [done|]. cbn [map concat]. by rewrite map_app, concat_app, IH. }
  apply emits_each. eapply Forall_impl; [exact Hd|]. intros d [Hw _]. unfold write_transitions.
  rewrite ebitmap_positive_bits_correct by done. unfold datum_transitions. rewrite map_map.
  apply emits_each. apply Forall_forall. intros b _. unfold write_transition, transition_record.
  apply emits_seq; [apply emits_words; simpl; lia|]. apply emits_seq; [by apply emits_name|].
  apply emits_words; simpl; lia.
Qed.

(** ** Reading the records of a key *)

(** The key fits the format, whatever its chain is. *)
Definition key_fits (k : filename_trans_key) : Prop :=
  ft_key_ok k /\ ft_name k <> [] /\ Z.of_nat (length (ft_name k)) < 2 ^ 32 /\
  0 <= ttype k < 2 ^ 32 /\ 0 <= tclass k < 2 ^ 32.

Section block.
Context (h0 : ft_table) (count : Z) (k : filename_trans_key).
Hypothesis Hw0 : hashtab_wf ft_key_ok h0.
Hypothesis Hnone : hashtab_model h0 !! k = None.
Hypothesis Hnel : nel h0 < UINT32_MAX.
Hypothesis Hkey : key_fits k.

(** The table has the chain [c] for the key, and is as it was otherwise. *)
Definition with_chain (c : list filename_trans_datum) (p : ft_state) : Prop :=
  exists h, p = (Some h, u32 (count + chain_size c)) /\ hashtab_wf ft_key_ok h /\
    (c = [] /\ h = h0 \/ c <> [] /\ hashtab_model h = <[k := c]> (hashtab_model h0)).

Lemma inserted_size s t c :
  Forall datum_wf c -> record_ok (s, t) ->
  match filetrans_find s t c with
  | Present _ => True
  | Place pre post => placed s t pre post <> [] /\ chain_size (placed s t pre post) = chain_size c + 1
  end.
Proof.
  intros Hc [Hs Ht]. pose proof (filetrans_find_spec s t c) as Hf.
  destruct (filetrans_find s t c) as [t'|pre post]; [done|].
  destruct Hf as (E & _ & Hp); [eapply Forall_impl; [exact Hc|apply datum_wf_ok]|]. split.
  - unfold placed. destruct post; by destruct pre.
  - eapply placed_size; try done; [cbn in *; lia..|].
    intros d r ->. by destruct Hp as [?|(d' & r' & [= -> ->] & ? & _)].
Qed.

Lemma decodes_record s t c p :
  with_chain c p -> Forall datum_wf c -> record_ok (s, t) ->
  exists p', decodes (filename_trans_read_one_compat p) (transition_record k (s, t)) p' /\
    with_chain (inserted s t c) p'.
Proof.
  intros (h & -> & Hw & Hc) Hwf Hr. pose proof Hr as [Hs Ht]. cbn [fst snd] in Hs, Ht.
  destruct Hkey as (Hk & Hne & Hl & Htt & Htc).
  assert (Hcur : default [] (hashtab_model h !! k) = c /\ hashtab_model h !! k <> Some [] /\
    (hashtab_model h !! k = None -> nel h < UINT32_MAX)).
  { destruct Hc as [[-> ->]|[Hcne Hm]]; [by rewrite Hnone|]. rewrite Hm, lookup_insert_eq. split_and!; done || congruence. }
  destruct Hcur as (Hcur & Hnn & Hn').
  pose proof (filetrans_insert_spec h (u32 (count + chain_size c)) s k t Hw Hk Hnn Hn' Hs Ht) as Hins.
  cbn zeta in Hins. rewrite Hcur in Hins. specialize (Hins Hwf).
  pose proof (inserted_size s t c Hwf Hr) as Hsize. unfold inserted.
  assert (Hread : forall p' rc x, policydb_filetrans_insert (Some h, u32 (count + chain_size c)) s (ttype k)
      (tclass k) (ft_name k) true t [] = (rc, x, p', []) -> rc = 0 \/ rc = SEPOL_EEXIST ->
    decodes (filename_trans_read_one_compat (Some h, u32 (count + chain_size c))) (transition_record k (s, t)) p').
  { intros p' rc x E Hrc. unfold filename_trans_read_one_compat, transition_record. cbn [fst snd].
    eapply decodes_bind; [by apply (decodes_words 1)|]. rewrite le32_first by lia.
    eapply decodes_bind; [by apply decodes_str|]. rewrite <-(app_nil_r (words _)).
    eapply decodes_bind; [by apply (decodes_words 4)|].
    rewrite !le32_next, !le32_first by (unfold MAPSIZE in *; lia).
    eapply decodes_step; [apply decodes_require; case_Z; [lia|done]|].
    apply decodes_call. rewrite E. by destruct Hrc as [->| ->]. }
  destruct (filetrans_find s t c) as [t'|pre post].
  - eexists. split; [eapply Hread; [exact Hins|by right]|]. by exists h.
  - destruct Hins as (h' & E & Hw' & Hm'), Hsize as [Hpn Hps].
    eexists. split; [eapply Hread; [exact E|by left]|]. exists h'. split.
    + rewrite Hps, u32_add_l. do 2 f_equal. lia.
    + split; [done|]. right. split; [done|]. rewrite Hm'.
      destruct Hc as [[-> ->]|[_ ->]]; [done|apply insert_insert_eq].
Qed.

Lemma decodes_records R :
  Forall record_ok R -> grouped R \/ NoDup R.*1 ->
  exists p' c, decodes (rd_loop (length R) filename_trans_read_one_compat (Some h0, u32 count))
      (concat (map (transition_record k) R)) p' /\
    with_chain c p' /\ made R c.
Proof.
  intros Hok Hord.
  destruct (decodes_loop filename_trans_read_one_compat (transition_record k)
    (fun pre p => exists c, with_chain c p /\ made pre c /\ (grouped R -> ends pre c)) R (Some h0, u32 count))
    as (p' & Hd & c & Hwc & Hm & _).
  - exists []. split; [exists h0; split; [simpl; by rewrite Z.add_0_r|by auto]|].
    by destruct made_nil.
  - intros pre [s t] post p HR (c & Hwc & Hm & He).
    assert (Hr : record_ok (s, t)) by (rewrite HR in Hok; by apply Forall_app in Hok as [_ [? _]%Forall_cons]).
    destruct (decodes_record s t c p Hwc (mk_wf _ _ Hm) Hr) as (p' & Hd & Hwc').
    exists p'. split; [exact Hd|]. exists (inserted s t c). split; [done|]. split.
    + apply made_step; try done. destruct Hord as [Hg|Hnd].
      * right. split; [by apply He|]. by apply (Hg pre (s, t) post).
      * left. rewrite HR, fmap_app in Hnd. apply NoDup_app in Hnd as (_ & Hn & _).
        intros Hin. apply (Hn s Hin). by left.
    + intros Hg. apply ends_step; [done|by apply He|]. by apply (Hg pre (s, t) post).
  - by exists p', c.
Qed.
End block.

(** ** Reading the records of a table *)

Lemma rd_loop_app {S} (body : S -> reader S) n m s fp o :
  rd_loop (n + m) body s fp o = (rd_loop n body s ≫= rd_loop m body) fp o.
Proof.
  revert s fp o. induction n as [|n IH]; intros s fp o; cbn [Nat.add rd_loop]; [done|].
  unfold mbind, reader_bind. destruct (body s fp o) as [[[s1 fp1] o1]|]; [|done]. apply IH.
Qed.

Lemma decodes_app {S} (body : S -> reader S) n m s bs1 bs2 s1 s2 :
  decodes (rd_loop n body s) bs1 s1 -> decodes (rd_loop m body s1) bs2 s2 ->
  decodes (rd_loop (n + m) body s) (bs1 ++ bs2) s2.
Proof.
  intros H1 H2 fp fp' Hr. rewrite rd_loop_app. revert fp fp' Hr. by apply decodes_bind with s1.
Qed.

(** An entry of the table that was read stands for the entry that was written. *)
Definition reread (n n' : ft_node) : Prop :=
  hkey n' = hkey n /\ hdatum n' <> [] /\ Forall datum_wf (hdatum n') /\
  StronglySorted apart (hdatum n') /\
  forall s, object_type s (hdatum n') = object_type s (hdatum n).

Definition records (l : list ft_node) : nat :=
  foldr (fun n s => (length (chain_transitions (hdatum n)) + s)%nat) 0%nat l.

Lemma decodes_tables (l : list ft_node) : forall pre p,
  NoDup (hkey <$> pre ++ l) -> Z.of_nat (length (pre ++ l)) <= UINT32_MAX -> holds pre p ->
  Forall (fun n => entry_ok (hkey n) (hdatum n) /\ storable (hdatum n)) l ->
  exists p' l', decodes (rd_loop (records l) filename_trans_read_one_compat p)
      (entries_bytes chain_records l) p' /\
    Forall2 reread l l' /\ holds (pre ++ l') p'.
Proof.
  induction l as [|n l IH]; intros pre p Hnd Hlen Hp Hl.
  { exists p, []. rewrite app_nil_r. split; [apply decodes_ret|]. by split. }
  apply Forall_cons in Hl as [[He Hst] Hl]. destruct Hp as (h & -> & Hw & Hm).
  assert (Hpre : NoDup (hkey <$> pre ++ [n])).
  { replace (pre ++ n :: l) with ((pre ++ [n]) ++ l) in Hnd by (by rewrite <-app_assoc).
    rewrite fmap_app in Hnd. by apply NoDup_app in Hnd as (? & _). }
  destruct (pairs_snoc pre n Hpre) as [Hnone _]. rewrite <-Hm in Hnone.
  assert (Hnel : nel h < UINT32_MAX).
  { rewrite (holds_nel pre h Hw Hm); [rewrite length_app in Hlen; simpl in Hlen; lia|].
    rewrite fmap_app in Hpre. by apply NoDup_app in Hpre as (? & _). }
  destruct He as [Hk Hne Hl0 Ht Hcl Hc Hn Hd], Hst as [Hsome Hrange Hord].
  destruct (decodes_records h (total_size pre) (hkey n) Hw Hnone Hnel
    (conj Hk (conj Hne (conj Hl0 (conj Ht Hcl))))
    (chain_transitions (hdatum n)) Hrange) as (p1 & c & Hd1 & (h1 & -> & Hw1 & Hc1) & Hmade).
  { destruct Hord as [Ho|Ho]; [left; by apply grouped_transitions|by right]. }
  assert (Hcne : c <> []).
  { intros ->. destruct (chain_transitions (hdatum n)) as [|[s t] R] eqn:E; [done|].
    pose proof (mk_first _ _ Hmade s) as Hf. rewrite <-E in Hf. unfold first_of in Hf.
    rewrite E in Hf. simpl in Hf. by rewrite Z.eqb_refl in Hf. }
  destruct Hc1 as [[? _]|[_ Hm1]]; [done|]. pose (n' := HNode (hkey n) c : ft_node).
  assert (Hre : reread n n').
  { split_and!; [done|done|apply Hmade|apply Hmade|]. intros s. rewrite <-(first_transitions s (hdatum n)) by done.
    apply Hmade. }
  assert (Hpre' : NoDup (hkey <$> pre ++ [n'])) by (rewrite fmap_app in Hpre |- *; exact Hpre).
  destruct (pairs_snoc pre n' Hpre') as [_ Hins].
  destruct (IH (pre ++ [n']) (Some h1, u32 (total_size pre + chain_size c))) as (p' & l' & Hd2 & HF & Hh).
  - rewrite <-app_assoc. rewrite fmap_app in Hnd |- *. exact Hnd.
  - rewrite <-app_assoc. rewrite length_app in Hlen |- *. exact Hlen.
  - exists h1. split; [|split; [done|by rewrite Hm1, Hins, Hm]].
    do 2 f_equal. rewrite total_size_app. simpl. lia.
  - done.
  - exists p', (n' :: l'). split; [|split; [by constructor|by rewrite <-app_assoc in Hh]].
    cbn [records foldr entries_bytes map concat]. by eapply decodes_app.
Qed.
