(* ===== verification/SepolicyFilenameIOProps.v ===== *)
(** * Transitions for file names: the table in a policy, before and after an edit *)

From S2P Require Import Prelude Policyfile Ebitmap EbitmapSpec EbitmapQuery EbitmapUpdate EbitmapProps Hashtab HashtabSpec Symtab Codec Avtab.
From S2P Require Import Policydb Sepolicy SepolicySpec SepolicyProps SepolicyFilename SepolicyFilenameSpec SepolicyFilenameProps SepolicyFilenameIO SepolicyFilenameCompat.

Abbreviation ft_map := (gmap filename_trans_key (list filename_trans_datum)).

(** ** The number of transitions of a table *)

Definition ft_total (m : ft_map) : Z := map_fold (fun _ c n => chain_size c + n) 0 m.

Lemma ft_total_insert m k c :
  ft_total (<[k := c]> m) = ft_total m - chain_size (default [] (m !! k)) + chain_size c.
Proof.
  assert (Hnew : forall m c, m !! k = None -> ft_total (<[k := c]> m) = chain_size c + ft_total m).
  { intros m0 c0 Hn. apply (map_fold_insert_L (fun _ c n => chain_size c + n)); [intros; lia|done]. }
  destruct (m !! k) as [c0|] eqn:E.
  - rewrite <-insert_delete_eq, Hnew by apply lookup_delete_eq.
    rewrite <-(insert_id m k c0 E) at 2. rewrite <-insert_delete_eq, Hnew by apply lookup_delete_eq.
    simpl. lia.
  - rewrite Hnew by done. simpl. lia.
Qed.

Lemma ft_total_nodes (l : list ft_node) :
  NoDup (hkey <$> l) -> ft_total (list_to_map (pairs l)) = total_size l.
Proof.
  induction l as [|n l IH]; intros Hnd; [done|]. rewrite fmap_cons in Hnd. apply NoDup_cons in Hnd as [Hn Hnd].
  change (pairs (n :: l)) with ((hkey n, hdatum n) :: pairs l). rewrite list_to_map_cons, ft_total_insert.
  rewrite not_elem_of_list_to_map_1 by (by rewrite pairs_keys). rewrite IH by done. simpl. lia.
Qed.

Lemma total_size_table (h : ft_table) :
  hashtab_wf ft_key_ok h -> total_size (concat (htable h)) = ft_total (hashtab_model h).
Proof.
  intros [Hw _]. symmetry. apply ft_total_nodes. by eapply (table_keys_NoDup ft_key_ok).
Qed.

Lemma records_size (l : list ft_node) :
  Forall (fun n => entry_ok (hkey n) (hdatum n)) l -> Z.of_nat (records l) = total_size l.
Proof.
  induction 1 as [|n l Hn Hl IH]; [done|]. cbn [records total_size foldr].
  fold (records l). fold (total_size l). rewrite Nat2Z.inj_add, IH, size_transitions; [done|apply Hn].
Qed.

(** ** Reading into an empty table *)

Lemma holds_empty h0 : hashtab_wf ft_key_ok h0 -> hashtab_model h0 = ∅ -> holds [] (Some h0, 0).
Proof. intros Hw Hm. by exists h0. Qed.

Lemma reread_model (l l' : list ft_node) k :
  Forall2 reread l l' ->
  option_Forall2 (fun c c' => c' <> [] /\ Forall datum_wf c' /\ StronglySorted apart c' /\
      forall s, object_type s c' = object_type s c)
    ((list_to_map (pairs l) : ft_map) !! k) ((list_to_map (pairs l') : ft_map) !! k).
Proof.
  induction 1 as [|n n' l l' (Hk & H) HF IH]; [constructor|].
  change (pairs (n :: l)) with ((hkey n, hdatum n) :: pairs l).
  change (pairs (n' :: l')) with ((hkey n', hdatum n') :: pairs l').
  rewrite !list_to_map_cons, Hk. destruct (decide (k = hkey n)) as [->|Hne].
  - rewrite !lookup_insert_eq. by constructor.
  - by rewrite !lookup_insert_ne.
Qed.

(** ** Tables as bytes *)

Definition new_table_bytes (h : ft_table) : list Z :=
  words [nel h] ++ entries_bytes chain_record (concat (htable h)).

Definition old_table_bytes (h : ft_table) (count : Z) : list Z :=
  words [count] ++ entries_bytes chain_records (concat (htable h)).

Section new_format.
Context (vers : Z) (h : ft_table).
Hypothesis Hvers : POLICYDB_VERSION_COMP_FTRANS <= vers.
Hypothesis Hw : hashtab_wf ft_key_ok h.

Lemma emits_new count :
  map_Forall entry_ok (hashtab_model h) -> emits (filename_trans_write vers (Some h, count)) (new_table_bytes h).
Proof.
  intros Hf. unfold filename_trans_write, POLICYDB_VERSION_FILENAME_TRANS, POLICYDB_VERSION_COMP_FTRANS in *.
  case_Z; [lia|]. case_Z; [lia|]. apply emits_seq; [apply emits_words; simpl; lia|].
  apply emits_map. eapply Forall_impl; [by apply (table_nodes ft_key_ok _ h Hw Hf)|]. intros n. apply emits_chain.
Qed.

Lemma decodes_new h0 :
  map_Forall (fun k c => entry_ok k c /\ StronglySorted apart c) (hashtab_model h) ->
  hashtab_wf ft_key_ok h0 -> hashtab_model h0 = ∅ ->
  exists h', decodes (filename_trans_read vers (Some h0, 0)) (new_table_bytes h)
      (Some h', u32 (ft_total (hashtab_model h))) /\
    hashtab_wf ft_key_ok h' /\ hashtab_model h' = hashtab_model h.
Proof.
  intros Hf Hw0 Hm0. destruct (table_length ft_key_ok h Hw) as [Hl Hn].
  destruct (decodes_chains (concat (htable h)) (Some h0, 0)) as (p' & Hd & h' & -> & Hw' & Hm').
  - eapply (table_keys_NoDup ft_key_ok), Hw.
  - lia.
  - by apply holds_empty.
  - by apply (table_nodes ft_key_ok (fun k c => entry_ok k c /\ StronglySorted apart c)).
  - exists h'. rewrite <-(total_size_table h Hw). split; [|done]. unfold filename_trans_read, new_table_bytes.
    eapply decodes_bind; [by apply (decodes_words 1)|]. destruct Hw as (_ & _ & ?).
    rewrite le32_first by lia. case_Z; [lia|]. rewrite <-Hl, Nat2Z.id. exact Hd.
Qed.
End new_format.

(** What a source type gets when a file is made: the object type for a key. *)
Definition transition (h : ft_table) (k : filename_trans_key) (s : Z) : option Z :=
  object_type s (default [] (hashtab_model h !! k)).

Section old_format.
Context (vers : Z) (h : ft_table).
Hypothesis Hvers : POLICYDB_VERSION_FILENAME_TRANS <= vers < POLICYDB_VERSION_COMP_FTRANS.
Hypothesis Hw : hashtab_wf ft_key_ok h.

Lemma emits_old count :
  map_Forall entry_ok (hashtab_model h) -> emits (filename_trans_write vers (Some h, count)) (old_table_bytes h count).
Proof.
  intros Hf. unfold filename_trans_write. case_Z; [lia|]. case_Z; [|lia].
  apply emits_seq; [apply emits_words; simpl; lia|].
  apply emits_map. eapply Forall_impl; [by apply (table_nodes ft_key_ok _ h Hw Hf)|]. intros n. apply emits_records.
Qed.

Lemma decodes_old h0 :
  map_Forall (fun k c => entry_ok k c /\ storable c) (hashtab_model h) ->
  ft_total (hashtab_model h) < 2 ^ 32 ->
  hashtab_wf ft_key_ok h0 -> hashtab_model h0 = ∅ ->
  exists h' n, decodes (filename_trans_read vers (Some h0, 0)) (old_table_bytes h (ft_total (hashtab_model h)))
      (Some h', n) /\
    hashtab_wf ft_key_ok h' /\ map_Forall (fun _ => StronglySorted apart) (hashtab_model h') /\
    forall k, (is_Some (hashtab_model h' !! k) <-> is_Some (hashtab_model h !! k)) /\
      forall s, transition h' k s = transition h k s.
Proof.
  intros Hf Ht Hw0 Hm0. destruct (table_length ft_key_ok h Hw) as [Hl Hn].
  pose proof (table_nodes ft_key_ok (fun k c => entry_ok k c /\ storable c) h Hw Hf) as Hnodes.
  assert (Hrec : Z.of_nat (records (concat (htable h))) = ft_total (hashtab_model h)).
  { rewrite <-(total_size_table h Hw). apply records_size. eapply Forall_impl; [exact Hnodes|]. by intros n []. }
  destruct (decodes_tables (concat (htable h)) [] (Some h0, 0)) as (p' & l' & Hd & HF & h' & -> & Hw' & Hm').
  - eapply (table_keys_NoDup ft_key_ok), Hw.
  - cbn [app]. lia.
  - by apply holds_empty.
  - exact Hnodes.
  - eexists h', _. split.
    { unfold filename_trans_read, old_table_bytes. eapply decodes_bind; [by apply (decodes_words 1)|].
      rewrite le32_first by lia. case_Z; [|lia]. rewrite <-Hrec, Nat2Z.id. exact Hd. }
    split; [done|]. cbn [app] in Hm'.
    assert (Hk : forall k, option_Forall2 (fun c c' => c' <> [] /\ Forall datum_wf c' /\ StronglySorted apart c' /\
      forall s, object_type s c' = object_type s c) (hashtab_model h !! k) (hashtab_model h' !! k)).
    { intros k. rewrite Hm'. by apply reread_model. }
    split.
    + intros k c' Hc'. specialize (Hk k). rewrite Hc' in Hk. by inversion Hk as [? ? (_ & _ & ? & _)|].
    + intros k. specialize (Hk k). unfold transition. destruct Hk as [c c' (_ & _ & _ & Ho)|]; [|done].
      split; [|done]. split; intros _; by eexists.
Qed.
End old_format.

(** ** Edited chains *)

Lemma elem_transitions r c :
  Forall datum_wf c -> r ∈ chain_transitions c <-> exists d, d ∈ c /\ has r.1 d = true /\ otype d = r.2.
Proof.
  intros Hc. rewrite Forall_forall in Hc. unfold chain_transitions. rewrite list_elem_of_In, in_concat. split.
  - intros (l & (d & <- & Hd)%in_map_iff & (b & <- & Hb)%in_map_iff). apply list_elem_of_In in Hd, Hb.
    exists d. split; [done|]. split; [|done]. apply elem_of_bits in Hb; [|by apply Hc].
    unfold has. cbn. by replace (b + 1 - 1) with b by lia.
  - intros (d & Hd & Hh & Ho). exists (datum_transitions d). split; [apply in_map_iff; exists d; split; [done|by apply list_elem_of_In]|].
    apply in_map_iff. exists (r.1 - 1). split; [destruct r; cbn in *; f_equal; [lia|done]|].
    apply list_elem_of_In, elem_of_bits; [by apply Hc|done].
Qed.

Lemma elem_sources s c :
  Forall datum_wf c -> s ∈ (chain_transitions c).*1 <-> exists d, d ∈ c /\ has s d = true.
Proof.
  intros Hc. rewrite list_elem_of_fmap. split.
  - intros (r & -> & (d & ? & ? & _)%elem_transitions); [|done]. by exists d.
  - intros (d & Hd & Hh). exists (s, otype d). split; [done|]. apply elem_transitions; [done|]. by exists d.
Qed.

Lemma sources_apart c :
  Forall datum_wf c -> StronglySorted apart c -> NoDup (chain_transitions c).*1.
Proof.
  intros Hc. induction 1 as [|d c Hs IH Hf]; [constructor|]. apply Forall_cons in Hc as [Hd Hc].
  cbn [chain_transitions map concat]. fold (chain_transitions c). rewrite fmap_app. apply NoDup_app.
  split; [|split; [|by apply IH]].
  - unfold datum_transitions. change (map ?f ?l) with (f <$> l). rewrite <-list_fmap_compose.
    apply NoDup_fmap_2; [intros x y; cbn; lia|apply bits_NoDup].
  - intros s Hin (e & He & Hh)%elem_sources; [|done]. rewrite Forall_forall in Hf.
    destruct (Hf e He) as [_ Hno]. apply (Hno s). split; [|done].
    assert (Hin' : s ∈ (chain_transitions [d]).*1) by (cbn; by rewrite app_nil_r).
    apply elem_sources in Hin' as (x & ->%list_elem_of_singleton & ?); [done|by constructor].
Qed.

Section edited.
Context (src def : Z) (c : list filename_trans_datum).
Hypothesis Hc : Forall datum_wf c.
Hypothesis Hsrc : 0 < src < 2 ^ 32 - MAPSIZE.
Hypothesis Hdef : 0 <= def < 2 ^ 32 - MAPSIZE.

(** [filename_trans_count] stays the number of transitions. *)
Lemma edited_size total :
  0 <= total -> total + 1 < 2 ^ 32 -> edited_count src def c total = total - chain_size c + chain_size (edited_chain src def c).
Proof.
  intros H0 Ht. pose proof (scan_chain_spec src def c Hc) as H. unfold edited_count.
  destruct (scan_chain src def c) as [c'|pre post] eqn:E.
  - unfold edited_chain. rewrite E. destruct H as (pre & d & post & -> & _ & _ & ->).
    rewrite !chain_size_app. cbn [chain_size foldr stypes]. lia.
  - rewrite (placed_edited _ _ _ _ _ E), (placed_size src def c pre post); try done.
    + rewrite u32_small; lia.
    + by destruct H as [-> _].
    + intros d r ->. by destruct H as (_ & _ & [?|(d' & r' & [= -> ->] & ? & _)]).
Qed.

Lemma edited_length : (length (edited_chain src def c) <= S (length c))%nat /\ edited_chain src def c <> [].
Proof.
  pose proof (scan_chain_spec src def c Hc) as H. unfold edited_chain.
  destruct (scan_chain src def c) as [c'|pre [|d r]].
  - destruct H as (pre & d & post & -> & _ & _ & ->). rewrite !length_app. split; [simpl; lia|by destruct pre].
  - destruct H as [-> _]. rewrite !length_app. split; [simpl; lia|by destruct pre].
  - destruct H as [-> _]. rewrite !length_app. split; [simpl; lia|by destruct pre].
Qed.

Lemma edited_sources d s :
  d ∈ edited_chain src def c -> has s d = true -> s = src \/ exists e, e ∈ c /\ has s e = true.
Proof.
  pose proof (scan_chain_spec src def c Hc) as H. unfold edited_chain.
  destruct (scan_chain src def c) as [c'|pre [|e r]].
  - destruct H as (pre & e & post & -> & _ & _ & ->). rewrite elem_of_app, elem_of_cons. intros Hd Hh. right.
    setoid_rewrite elem_of_app. setoid_rewrite elem_of_cons. destruct Hd as [Hd|[->|Hd]]; eauto.
  - destruct H as [-> _]. rewrite elem_of_app, list_elem_of_singleton, app_nil_r. intros [Hd| ->] Hh; [right; by exists d|].
    destruct (set_source_spec src (FtDatum ebitmap_init def) (fresh_wf def Hdef) Hsrc) as (x & _ & _ & _ & Hx).
    rewrite Hx, orb_true_iff, Z.eqb_eq in Hh. destruct Hh as [?|Hh]; [by left|].
    change (ebitmap_mem ebitmap_init (s - 1) = true) in Hh. by rewrite (proj2 ebitmap_init_empty) in Hh.
  - destruct H as [-> _]. rewrite Forall_app, Forall_cons in Hc. destruct Hc as (_ & He & _).
    rewrite elem_of_app, elem_of_cons. intros Hd Hh. setoid_rewrite elem_of_app. setoid_rewrite elem_of_cons.
    destruct Hd as [Hd|[->|Hd]]; [by eauto| |by eauto 6].
    destruct (set_source_spec src e He Hsrc) as (x & _ & _ & _ & Hx).
    rewrite Hx, orb_true_iff, Z.eqb_eq in Hh. destruct Hh as [?|Hh]; [by left|]. right. exists e. auto.
Qed.

(** The edit keeps the chain one that the old format holds: it changes an object type and
    no source type, or it adds a source type and repeats no object type. *)
Lemma edited_storable :
  Forall record_ok (chain_transitions c) -> StronglySorted apart c -> storable (edited_chain src def c).
Proof.
  intros Hr Hap. pose proof (edited_chain_wf src def c Hc Hsrc Hdef) as Hwf. split.
  - intros E. pose proof (first_transitions src _ Hwf) as Hf.
    rewrite E, edited_chain_source in Hf by done. discriminate Hf.
  - apply Forall_forall. intros r (d & Hd & Hh & Ho)%elem_transitions; [|done]. split.
    + destruct (edited_sources d r.1 Hd Hh) as [->|(e & He & Hh')]; [done|].
      rewrite Forall_forall in Hr. apply (Hr (r.1, otype e)). apply elem_transitions; [done|]. by exists e.
    + rewrite <-Ho. rewrite Forall_forall in Hwf. apply (Hwf d Hd).
  - pose proof (scan_chain_spec src def c Hc) as H. pose proof (apart_otypes c Hap) as Hnd.
    pose proof (sources_apart c Hc Hap) as Hns. destruct (scan_chain src def c) as [c'|pre post] eqn:E.
    + right. unfold edited_chain. rewrite E. destruct H as (pre & d & post & -> & _ & _ & ->).
      unfold chain_transitions in *. rewrite map_app, concat_app, fmap_app in *. cbn [map concat] in *.
      rewrite fmap_app in *. unfold datum_transitions at 2 in Hns. unfold datum_transitions at 2. cbn [stypes].
      change (map ?f ?l) with (f <$> l) in *. rewrite <-list_fmap_compose in *. exact Hns.
    + left. rewrite (placed_edited _ _ _ _ _ E). destruct H as (-> & Hp & Hpost). rewrite placed_otypes by done.
      destruct post as [|d r]; [|done]. rewrite app_nil_r in Hnd. apply NoDup_app. split_and!; [done| |by apply NoDup_singleton].
      intros t (d & -> & Hd)%list_elem_of_fmap Ht%list_elem_of_singleton. rewrite Forall_forall in Hp.
      by destruct (Hp d Hd) as [_ ?].
Qed.
End edited.

(** ** Consistent tables *)

(** What an entry of a policy with source types below the limit of bitmaps has. *)
Definition entry_consistent (k : filename_trans_key) (c : list filename_trans_datum) : Prop :=
  entry_ok k c /\ chain_transitions c <> [] /\ Forall record_ok (chain_transitions c) /\ StronglySorted apart c.

Definition ft_consistent (h : ft_table) (count : Z) : Prop :=
  hashtab_wf ft_key_ok h /\ map_Forall entry_consistent (hashtab_model h) /\ count = ft_total (hashtab_model h).

Lemma entry_storable k c : entry_consistent k c -> storable c.
Proof. intros (_ & Hs & Hr & Ha). split; [done..|]. left. by apply apart_otypes. Qed.

(** Data that are apart are fewer than the object types a bitmap holds. *)
Lemma apart_length c :
  Forall datum_wf c -> StronglySorted apart c -> Z.of_nat (length c) <= 2 ^ 32 - MAPSIZE.
Proof.
  intros Hc Ha%apart_otypes.
  assert (Hin : (otype <$> c) ⊆+ seqZ 0 (2 ^ 32 - MAPSIZE)).
  { apply NoDup_submseteq; [done|]. intros t (d & -> & Hd)%list_elem_of_fmap. apply elem_of_seqZ.
    rewrite Forall_forall in Hc. destruct (Hc d Hd) as [_ Hr]. lia. }
  apply submseteq_length in Hin. rewrite length_fmap, length_seqZ in Hin. unfold MAPSIZE in *. lia.
Qed.

Lemma chain_size_nonneg c : Forall datum_wf c -> 0 <= chain_size c.
Proof. intros Hc. rewrite <-size_transitions by done. lia. Qed.

Lemma ft_total_nonneg m : map_Forall entry_ok m -> 0 <= ft_total m.
Proof.
  induction m as [|k c m Hn IH] using map_ind; intros Hf; [done|]. rewrite ft_total_insert, Hn. simpl.
  apply map_Forall_insert in Hf as [He Hf]; [|done]. specialize (IH Hf).
  pose proof (chain_size_nonneg c (en_data _ _ He)). lia.
Qed.

(** The edit of a consistent table gives one that the old format holds. *)
Lemma edited_table h count src def key h' :
  ft_consistent h count -> count + 1 < 2 ^ 32 ->
  0 < src < 2 ^ 32 - MAPSIZE -> 0 <= def < 2 ^ 32 - MAPSIZE -> key_fits key ->
  let c := default [] (hashtab_model h !! key) in
  hashtab_model h' = <[key := edited_chain src def c]> (hashtab_model h) ->
  map_Forall (fun k c => entry_ok k c /\ storable c) (hashtab_model h') /\
  edited_count src def c count = ft_total (hashtab_model h').
Proof.
  intros (Hw & Hf & ->) Ht Hs Hd Hk c Hm.
  assert (Hc : Forall datum_wf c /\ StronglySorted apart c /\ Forall record_ok (chain_transitions c)).
  { unfold c. destruct (hashtab_model h !! key) as [c0|] eqn:E; [|by repeat constructor].
    destruct (Hf key c0 E) as (He & _ & Hr & Ha). split; [apply He|by split]. }
  destruct Hc as (Hc & Ha & Hr). rewrite Hm. split.
  - apply map_Forall_insert_2.
    + split; [|by apply edited_storable]. destruct (edited_length src def c Hc) as [Hl Hne].
      pose proof (apart_length c Hc Ha) as Hb. unfold MAPSIZE in Hb. destruct Hk as (? & ? & ? & ? & ?).
      split; try done; [lia|]. by apply edited_chain_wf.
    + eapply map_Forall_impl; [exact Hf|]. intros k c0 Hcons. split; [apply Hcons|by eapply entry_storable].
  - rewrite ft_total_insert. fold c. apply edited_size; try done. apply ft_total_nonneg. eapply map_Forall_impl; [eassumption|]. by intros ? ? [? _].
Qed.

(** * The properties of transitions for file names in a binary policy *)

(** C23: whatever bytes a policy holds and whichever allocations fail, a table of
    transitions that [filename_trans_read] accepts is a well-formed hash table without
    empty chains, its bitmaps are well formed, and from version 33 on the chains pass
    [filename_trans_check_datum]: no two data of a chain have the same object type or a
    source type in common. *)
Theorem filename_trans_read_safe vers h0 count fp o :
  pf_bytes fp -> hashtab_wf ft_key_ok h0 -> hashtab_model h0 = ∅ ->
  match filename_trans_read vers (Some h0, count) fp o with
  | None => True
  | Some ((h, _), _, _) =>
      exists t, h = Some t /\ hashtab_wf ft_key_ok t /\
        map_Forall (fun _ c => c <> [] /\ Forall datum_ok c /\
          (POLICYDB_VERSION_COMP_FTRANS <= vers -> StronglySorted apart c)) (hashtab_model t)
  end.
Proof.
  intros Hb Hw Hm. destruct (filename_trans_read vers (Some h0, count) fp o) as [[[[h n] fp'] o']|] eqn:E; [|done].
  assert (Hp : ft_ok (chain_shape vers) (Some h0, count)).
  { exists h0. split; [done|]. split; [done|]. rewrite Hm. apply map_Forall_empty. }
  destruct (accepts_filename_trans vers _ Hp fp o _ fp' o' Hb E) as [_ (t & Ht & Hok)]. by exists t.
Qed.

(** Round trip of the transitions from version 33 on.  [filename_trans_write] of a
    table whose chains pass the test of the reader succeeds on a stream with room, and
    [filename_trans_read] of what it wrote succeeds, consumes exactly those bytes and
    builds a table with the same chains under the same keys, in the same order within a
    chain, and counts the transitions. *)
Theorem filename_trans_roundtrip vers h count fp :
  POLICYDB_VERSION_COMP_FTRANS <= vers -> hashtab_wf ft_key_ok h ->
  map_Forall (fun k c => entry_ok k c /\ filename_trans_check_datum c [] = (0, [])) (hashtab_model h) ->
  can_put fp (Z.of_nat (length (new_table_bytes h))) ->
  exists bs fp', filename_trans_write vers (Some h, count) fp = Some fp' /\ wrote fp bs fp' /\
    forall h0 fr fr', hashtab_wf ft_key_ok h0 -> hashtab_model h0 = ∅ -> reads fr bs fr' ->
      exists h', filename_trans_read vers (Some h0, 0) fr [] =
          Some (Some h', u32 (ft_total (hashtab_model h)), fr', []) /\
        hashtab_wf ft_key_ok h' /\ hashtab_model h' = hashtab_model h.
Proof.
  intros Hv Hw Hf Hc. destruct (emits_new vers h Hv Hw count) with fp as (fp' & Hwr & Hb); [|done|].
  { eapply map_Forall_impl; [exact Hf|]. by intros k c [? _]. }
  exists (new_table_bytes h), fp'. split; [done|]. split; [done|]. intros h0 fr fr' Hw0 Hm0 Hr.
  destruct (decodes_new vers h Hv Hw h0) as (h' & Hd & H); [|done..|].
  { eapply map_Forall_impl; [exact Hf|]. intros k c [He Hz]. split; [done|].
    by apply check_datum_iff in Hz; [|apply He]. }
  exists h'. split; [by apply Hd|done].
Qed.

Section editor.
Context (db : policydb) (types : hashtab_val (list Z) type_datum).
Context (classes : hashtab_val (list Z) class_datum) (h : ft_table).
Context (src tgt cls def obj : list Z).
Hypothesis Hft : filename_trans db = Some h.
Hypothesis Hcons : ft_consistent h (filename_trans_count db).
Hypothesis Hcount : filename_trans_count db + 1 < 2 ^ 32.
Hypothesis Hnel : nel h < UINT32_MAX.
Hypothesis Ht : table (p_types db) = Some types.
Hypothesis Hc : table (p_classes db) = Some classes.
Hypothesis Hwt : hashtab_wf cstring_ok types.
Hypothesis Hwc : hashtab_wf cstring_ok classes.
Hypothesis Hv : type_values_ok types.
Hypothesis Hsrc : name_ok src.
Hypothesis Htgt : name_ok tgt.
Hypothesis Hcls : name_ok cls.
Hypothesis Hdef : name_ok def.
Hypothesis Hobj : name_ok obj.
Hypothesis Hnonempty : obj <> [].

End editor.

(** ** The table of three transitions in both formats *)

Definition ex_empty : ft_table := Hashtab (replicate 4 []) 4 0.

Definition ex_stdio : policy_file := PolicyFile PF_USE_STDIO [] 0 [].

Lemma ex_empty_ok : hashtab_wf ft_key_ok ex_empty /\ hashtab_model ex_empty = ∅.
Proof.
  split; [|vm_compute; reflexivity]. split_and!; simpl; try done. by apply (table_wf_empty ft_key_ok 4).
Qed.

Lemma ex_entry_ok : entry_ok ex_ft_key ex_chain.
Proof.
  destruct ex_ft_inv as [_ Hf]. specialize (Hf ex_ft_key ex_chain). rewrite (proj2 ex_ft_wf) in Hf.
  split; simpl; try lia; try done; [|by apply Hf, lookup_singleton_eq].
  unfold ft_key_ok, cstring_ok. repeat constructor; simpl; lia.
Qed.

Lemma ex_chain_apart : StronglySorted apart ex_chain.
Proof. apply check_datum_iff; [apply ex_entry_ok|]. vm_compute. reflexivity. Qed.

Lemma ex_ft_consistent : ft_consistent ex_ft 3.
Proof.
  destruct ex_ft_wf as [Hw Hm]. split; [exact Hw|]. rewrite Hm. split.
  - apply map_Forall_singleton. split; [exact ex_entry_ok|].
    assert (E : chain_transitions ex_chain = [(2, 3); (3, 3); (1, 2)]) by (vm_compute; reflexivity).
    rewrite E. split; [done|]. split; [|exact ex_chain_apart].
    repeat constructor; cbn; unfold MAPSIZE; lia.
  - vm_compute. reflexivity.
Qed.

(** The bytes of the table in the later format. *)
Definition ex_new_stream : policy_file := PolicyFile PF_USE_STDIO (new_table_bytes ex_ft) 0 [].

Lemma filename_trans_read_safe_witness :
  exists t n fp', filename_trans_read 33 (Some ex_empty, 0) ex_new_stream [] = Some (Some t, n, fp', []) /\
    hashtab_wf ft_key_ok t /\ hashtab_model t !! ex_ft_key = Some ex_chain /\ StronglySorted apart ex_chain.
Proof.
  assert (Hb : pf_bytes ex_new_stream).
  { unfold pf_bytes, ex_new_stream. cbn [pf_data].
    assert (E : new_table_bytes ex_ft = ltac:(let l := eval vm_compute in (new_table_bytes ex_ft) in exact l))
      by (vm_compute; reflexivity).
    rewrite E. repeat constructor; unfold is_byte; lia. }
  pose proof (filename_trans_read_safe 33 ex_empty 0 ex_new_stream [] Hb (proj1 ex_empty_ok) (proj2 ex_empty_ok)) as H.
  destruct (filename_trans_read 33 (Some ex_empty, 0) ex_new_stream []) as [[[[h n] fp'] o']|] eqn:E;
    vm_compute in E; [|discriminate E]. injection E as Eh En Ef Eo.
  destruct H as (t & -> & Hw & Hf). exists t, n, fp'. injection Eh as Et.
  split; [by rewrite Eo|]. split; [exact Hw|].
  assert (Hl : hashtab_model t !! ex_ft_key = Some ex_chain) by (rewrite <-Et; vm_compute; reflexivity).
  split; [exact Hl|]. destruct (Hf _ _ Hl) as (_ & _ & Ha). apply Ha. vm_compute. discriminate.
Defined.

Lemma filename_trans_roundtrip_witness :
  exists bs fp', filename_trans_write 33 (Some ex_ft, 3) ex_stdio = Some fp' /\ wrote ex_stdio bs fp' /\
    forall h0 fr fr', hashtab_wf ft_key_ok h0 -> hashtab_model h0 = ∅ -> reads fr bs fr' ->
      exists h', filename_trans_read 33 (Some h0, 0) fr [] = Some (Some h', 3, fr', []) /\
        hashtab_wf ft_key_ok h' /\ hashtab_model h' = {[ex_ft_key := ex_chain]}.
Proof.
  destruct ex_ft_wf as [Hw Hm].
  destruct (filename_trans_roundtrip 33 ex_ft 3 ex_stdio) as (bs & fp' & H1 & H2 & H3);
    [vm_compute; discriminate|exact Hw| |by left|].
  { rewrite Hm. apply map_Forall_singleton. split; [exact ex_entry_ok|vm_compute; reflexivity]. }
  exists bs, fp'. split; [exact H1|]. split; [exact H2|]. intros h0 fr fr' Hw0 Hm0 Hr.
  destruct (H3 h0 fr fr' Hw0 Hm0 Hr) as (h' & Hd & Hw' & Hm'). exists h'. rewrite Hm' in *. rewrite Hm in Hd |- *.
  split; [exact Hd|by split].
Defined.

(** type_transition s t:f d "x", for which the later format fails. *)
Definition ex_count_db : policydb := set_filename_trans ex_db (Some ex_ft) 3.

