(* ===== verification/SepolicyAttr.v ===== *)
(** * Attributes of types (native/src/sepolicy/sepolicy.cpp, libsepol/src/policydb.c, write.c)

    [add_typeattribute] makes a type a member of an attribute: in the two attribute maps,
    which are arrays of bitmaps indexed by symbol value, and in the constraints of every
    class, whose expressions hold the types an attribute stands for.  The results of
    [ebitmap_set_bit] are not tested; [None] is an access outside of an array or through
    [NULL].  The end of the file holds the parts of [policydb_read] and [policydb_write]
    that carry the two maps; of the maps only [type_attr_map] is stored. *)

From S2P Require Import Prelude Policyfile Ebitmap EbitmapSpec EbitmapQuery EbitmapUpdate EbitmapProps Hashtab HashtabSpec Symtab Avtab Policydb.
From S2P Require Import Sepolicy SepolicySpec.

Definition set_attributes (db : policydb) (type_attr attr_type : list ebitmap)
    (classes : option (hashtab_val (list Z) class_datum)) : policydb :=
  let st := p_symtab db in
  Policydb (policy_type db) (target_platform db) (policyvers db)
    (Symtabs (sym_commons st) (Symtab classes (nprim (sym_classes st))) (sym_roles st)
       (sym_types st) (sym_users st) (sym_bools st) (sym_levels st) (sym_cats st))
    (te_avtab db) (filename_trans db)
    (filename_trans_count db) (type_val_to_struct db) type_attr attr_type (permissive_map db)
    (p_mls db) (p_scope db) (p_global db) (p_index db) (p_genfs db).

(** A loop that writes to the elements it visits and may crash. *)
Fixpoint traverse {A} (f : A -> oracle -> option (A * oracle)) (l : list A) (o : oracle) :
    option (list A * oracle) :=
  match l with
  | [] => Some ([], o)
  | a :: l' =>
      match f a o with
      | None => None
      | Some (a, o) =>
          match traverse f l' o with
          | None => None
          | Some (l', o) => Some (a :: l', o)
          end
      end
  end.

(** [ebitmap_set_bit(&map[i], bit, 1)] with its result. *)
Definition set_in_map (m : list ebitmap) (i bit : Z) (o : oracle) :
    option (Z * list ebitmap * oracle) :=
  if i <? 0 then None
  else
    match m !! Z.to_nat i with
    | None => None
    | Some e => let '(rc, e, o) := ebitmap_set_bit e bit true o in Some (rc, <[Z.to_nat i := e]> m, o)
    end.

Section attribute.
Context (type attr : type_datum).

(** The body of the loop over the expressions of a constraint. *)
Definition edit_expr (e : constraint_expr) (o : oracle) : option (constraint_expr * oracle) :=
  if expr_type e =? CEXPR_NAMES then
    match type_names e with
    | None => None
    | Some ts =>
        if truthy (ebitmap_get_bit (ts_types ts) (ty_value attr - 1)) then
          let '(_, b, o) := ebitmap_set_bit (names e) (ty_value type - 1) true o in
          Some (ConstraintExpr (expr_type e) (cx_attr e) (cx_op e) b (type_names e), o)
        else Some (e, o)
    end
  else Some (e, o).

Definition edit_node (n : constraint_node) (o : oracle) : option (constraint_node * oracle) :=
  '(l, o) ← traverse edit_expr (expr n) o; Some (ConstraintNode (permissions n) l, o).

Definition edit_class (c : class_datum) (o : oracle) : option (class_datum * oracle) :=
  '(l, o) ← traverse edit_node (constraints c) o;
  Some (ClassDatum (cls_value c) (comkey c) (comdatum c) (cls_permissions c) l (validatetrans c)
          (default_user c) (default_role c) (default_type c) (default_range c), o).

Definition edit_entry (n : hashtab_node (list Z) class_datum) (o : oracle) :
    option (hashtab_node (list Z) class_datum * oracle) :=
  '(c, o) ← edit_class (hdatum n) o; Some (HNode (hkey n) c, o).

(** [hashtab_for_each] over the classes. *)
Definition edit_classes (h : option (hashtab_val (list Z) class_datum)) (o : oracle) :
    option (option (hashtab_val (list Z) class_datum) * oracle) :=
  match h with
  | None => Some (None, o)
  | Some h =>
      '(t, o) ← traverse (traverse edit_entry) (htable h) o;
      Some (Some (Hashtab t (hsize h) (nel h)), o)
  end.

Definition add_typeattribute_data (s : state) : option state :=
  let (db, o) := s in
  '(_, m1, o) ← set_in_map (type_attr_map db) (ty_value type - 1) (ty_value attr - 1) o;
  '(_, m2, o) ← set_in_map (attr_type_map db) (ty_value attr - 1) (ty_value type - 1) o;
  '(h, o) ← edit_classes (table (p_classes db)) o;
  Some (set_attributes db m1 m2 h, o).

End attribute.

Definition add_typeattribute (type attr : list Z) (s : state) : option (bool * state) :=
  match hashtab_find (table (p_types s.1)) type with
  | None => Some (false, s)
  | Some type_d =>
      if ty_flavor type_d =? TYPE_ATTRIB then Some (false, s)
      else
        match hashtab_find (table (p_types s.1)) attr with
        | None => Some (false, s)
        | Some attr_d =>
            if negb (ty_flavor attr_d =? TYPE_ATTRIB) then Some (false, s)
            else s ← add_typeattribute_data type_d attr_d s; Some (true, s)
        end
  end.

(** ** The attribute maps of a binary policy *)

(** The loop of [policydb_read] over the bits of [type_attr_map[i]]; [None] is
    [goto bad], after which the policy is discarded. *)
Fixpoint mark_attrs (nprim i : Z) (bits : list Z) (attr_type : list ebitmap) (o : oracle) :
    option (list ebitmap * oracle) :=
  match bits with
  | [] => Some (attr_type, o)
  | j :: bits' =>
      if i =? j then mark_attrs nprim i bits' attr_type o
      else if nprim <=? j then None
      else
        '(rc, attr_type, o) ← set_in_map attr_type j i o;
        if truthy rc then None else mark_attrs nprim i bits' attr_type o
  end.

Record maps_reader := MapsReader {
  r_type_attr : list ebitmap;
  r_attr_type : list ebitmap;
  r_fp : policy_file;
  r_oracle : oracle
}.

(** The first part of the body of the loop over [i]: the row of the file. *)
Definition read_row (vers nprim i : Z) (r : maps_reader) : option maps_reader :=
  if POLICYDB_VERSION_AVTAB <=? vers then
    let '(rc, e, fp, o) := ebitmap_read (r_fp r) (r_oracle r) in
    if truthy rc then None
    else
      bits ← ebitmap_positive_bits e;
      '(attr_type, o) ← mark_attrs nprim i bits (r_attr_type r) o;
      Some (MapsReader (<[Z.to_nat i := e]> (r_type_attr r)) attr_type fp o)
  else Some r.

(** The second part: the type itself as the degenerate case. *)
Definition mark_self (structs : list (option type_datum)) (i : Z) (r : maps_reader) :
    option maps_reader :=
  match default None (structs !! Z.to_nat i) with
  | None => Some r
  | Some t =>
      '(rc, type_attr, o) ← set_in_map (r_type_attr r) i i (r_oracle r);
      if truthy rc then None
      else if ty_flavor t =? TYPE_ATTRIB then Some (MapsReader type_attr (r_attr_type r) (r_fp r) o)
      else
        '(rc, attr_type, o) ← set_in_map (r_attr_type r) i i o;
        if truthy rc then None else Some (MapsReader type_attr attr_type (r_fp r) o)
  end.

Fixpoint read_maps_loop (count : nat) (vers nprim : Z) (structs : list (option type_datum)) (i : Z)
    (r : maps_reader) : option maps_reader :=
  match count with
  | O => Some r
  | S count' =>
      r ← read_row vers nprim i r;
      r ← mark_self structs i r;
      read_maps_loop count' vers nprim structs (i + 1) r
  end.

(** The maps are allocated with [calloc]: every row is the empty bitmap.  [calloc] is
    called for both before either is tested. *)
Definition read_attr_maps (vers nprim : Z) (structs : list (option type_datum)) (fp : policy_file)
    (o : oracle) : option maps_reader :=
  let (ok1, o) := malloc o in
  let (ok2, o) := malloc o in
  if ok1 && ok2 then
    let rows := replicate (Z.to_nat nprim) ebitmap_init in
    read_maps_loop (Z.to_nat nprim) vers nprim structs 0 (MapsReader rows rows fp o)
  else None.

(** The loop of [policydb_write] over [type_attr_map]. *)
Fixpoint write_rows (rows : list ebitmap) (fp : policy_file) : Z * policy_file :=
  match rows with
  | [] => (POLICYDB_SUCCESS, fp)
  | e :: rows' =>
      let '(rc, fp) := ebitmap_write e fp in
      if rc =? -1 then (POLICYDB_ERROR, fp) else write_rows rows' fp
  end.

Definition write_attr_maps (vers : Z) (type_attr : list ebitmap) (fp : policy_file) :
    Z * policy_file :=
  if POLICYDB_VERSION_AVTAB <=? vers then write_rows type_attr fp else (POLICYDB_SUCCESS, fp).

(** * Attributes of types: what [add_typeattribute] writes *)

(** With memory available a loop changes its elements one by one. *)
Lemma traverse_spec {A} (f : A -> oracle -> option (A * oracle)) (R : A -> A -> Prop) l :
  Forall (fun a => exists a', f a [] = Some (a', []) /\ R a a') l ->
  exists l', traverse f l [] = Some (l', []) /\ Forall2 R l l'.
Proof.
  induction 1 as [|a l (a' & Ha & HR) _ (l' & Hl & HF)]; cbn [traverse]; [by exists []|].
  rewrite Ha, Hl. eexists. split; [done|]. by constructor.
Qed.

(** The bitmaps of a map, as a relation. *)
Definition map_mem (m : list ebitmap) (i b : Z) : bool :=
  match m !! Z.to_nat i with Some e => ebitmap_mem e b | None => false end.

Lemma set_bit_memory e bit :
  ebitmap_wf e -> 0 <= bit < 2 ^ 32 - MAPSIZE ->
  exists e', ebitmap_set_bit e bit true [] = (0, e', []) /\ ebitmap_wf e' /\
    forall b, ebitmap_mem e' b = (b =? bit) || ebitmap_mem e b.
Proof.
  intros Hw Hb. destruct (ebitmap_set_bit e bit true []) as [[rc e'] o'] eqn:E.
  destruct (ebitmap_set_bit_spec e bit true [] rc e' o' Hw Hb E) as [Hw' [[-> Hm]|(_ & _ & _ & ?)]]; [|done].
  apply ebitmap_set_bit_memory in E as ->. exists e'. by split_and!.
Qed.

Lemma map_mem_insert m i e j b :
  0 <= i < Z.of_nat (length m) -> 0 <= j ->
  map_mem (<[Z.to_nat i := e]> m) j b = if j =? i then ebitmap_mem e b else map_mem m j b.
Proof.
  intros Hi Hj. unfold map_mem. destruct (Z.eqb_spec j i) as [->|Hne].
  - by rewrite list_lookup_insert_eq by lia.
  - by rewrite list_lookup_insert_ne by lia.
Qed.

(** Success or not, the rows stay well formed. *)
Lemma set_in_map_any m i bit o rc m' o' :
  Forall ebitmap_wf m -> 0 <= bit < 2 ^ 32 - MAPSIZE -> set_in_map m i bit o = Some (rc, m', o') ->
  0 <= i < Z.of_nat (length m) /\ Forall ebitmap_wf m' /\ length m' = length m /\
  (truthy rc = false -> forall j b, 0 <= j -> map_mem m' j b = (j =? i) && (b =? bit) || map_mem m j b).
Proof.
  intros Hm Hb. unfold set_in_map. case_Z; [done|]. destruct (m !! Z.to_nat i) as [e|] eqn:He; [|done].
  pose proof (lookup_lt_Some _ _ _ He) as Hlt. assert (Hw : ebitmap_wf e) by (by eapply Forall_lookup_1).
  destruct (ebitmap_set_bit e bit true o) as [[rc0 e'] o0] eqn:E. intros [= <- <- <-].
  destruct (ebitmap_set_bit_spec e bit true o rc0 e' o0 Hw Hb E) as [Hw' Hc].
  split; [lia|]. split; [by apply Forall_insert|]. split; [apply length_insert|].
  intros Hrc j b Hj. rewrite map_mem_insert by lia. destruct Hc as [[-> Hmem]|(-> & _)]; [|done].
  destruct (Z.eqb_spec j i) as [->|]; [|done]. unfold map_mem. by rewrite He, Hmem.
Qed.

Lemma set_in_map_total m i bit :
  Forall ebitmap_wf m -> 0 <= i < Z.of_nat (length m) -> 0 <= bit < 2 ^ 32 - MAPSIZE ->
  exists m', set_in_map m i bit [] = Some (0, m', []).
Proof.
  intros Hm Hi Hb. unfold set_in_map. case_Z; [lia|].
  destruct (lookup_lt_is_Some_2 m (Z.to_nat i)) as [e He]; [lia|]. rewrite He.
  assert (Hw : ebitmap_wf e) by (by eapply Forall_lookup_1).
  destruct (set_bit_memory e bit Hw Hb) as (e' & -> & _). by eexists.
Qed.

Lemma set_in_map_spec m i bit :
  Forall ebitmap_wf m -> 0 <= i < Z.of_nat (length m) -> 0 <= bit < 2 ^ 32 - MAPSIZE ->
  exists m', set_in_map m i bit [] = Some (0, m', []) /\ Forall ebitmap_wf m' /\ length m' = length m /\
    forall j b, 0 <= j -> map_mem m' j b = (j =? i) && (b =? bit) || map_mem m j b.
Proof.
  intros Hm Hi Hb. destruct (set_in_map_total m i bit Hm Hi Hb) as [m' E]. exists m'.
  destruct (set_in_map_any m i bit [] 0 m' [] Hm Hb E) as (_ & ? & ? & H). split_and!; try done.
  by apply H.
Qed.

Section attribute.
Context (type attr : type_datum).
Hypothesis Htype : 0 < ty_value type < 2 ^ 32 - MAPSIZE.

(** What the code relies on: the bitmaps of a constraint are well formed, and an
    expression over names has a type set. *)
Definition expr_ok (e : constraint_expr) : Prop :=
  ebitmap_wf (names e) /\
  (expr_type e = CEXPR_NAMES -> exists ts, type_names e = Some ts /\ ebitmap_wf (ts_types ts)).

Definition class_ok (c : class_datum) : Prop := Forall (fun n => Forall expr_ok (expr n)) (constraints c).

(** The expression names the attribute. *)
Definition mentions (a : Z) (e : constraint_expr) : bool :=
  (expr_type e =? CEXPR_NAMES) &&
  match type_names e with Some ts => ebitmap_mem (ts_types ts) (a - 1) | None => false end.

(** The types the expression lists grow by the type when it names the attribute; nothing
    else changes. *)
Definition expr_changed (e e' : constraint_expr) : Prop :=
  expr_type e' = expr_type e /\ cx_attr e' = cx_attr e /\ cx_op e' = cx_op e /\
  type_names e' = type_names e /\ expr_ok e' /\
  forall b, ebitmap_mem (names e') b =
    mentions (ty_value attr) e && (b =? ty_value type - 1) || ebitmap_mem (names e) b.

Definition node_changed (n n' : constraint_node) : Prop :=
  permissions n' = permissions n /\ Forall2 expr_changed (expr n) (expr n').

Definition class_changed (c c' : class_datum) : Prop :=
  c' = ClassDatum (cls_value c) (comkey c) (comdatum c) (cls_permissions c) (constraints c') (validatetrans c)
         (default_user c) (default_role c) (default_type c) (default_range c) /\
  class_ok c' /\ Forall2 node_changed (constraints c) (constraints c').

Lemma edit_expr_spec e :
  expr_ok e -> exists e', edit_expr type attr e [] = Some (e', []) /\ expr_changed e e'.
Proof.
  intros He. pose proof He as [Hw Hn]. unfold edit_expr, expr_changed, mentions.
  destruct (Z.eqb_spec (expr_type e) CEXPR_NAMES) as [E|E]; [|by exists e].
  destruct (Hn E) as (ts & Hts & Hwt). rewrite Hts, ebitmap_get_bit_correct by done.
  destruct (ebitmap_mem (ts_types ts) (ty_value attr - 1)) eqn:Em; cbn [andb truthy Z.eqb negb].
  - destruct (set_bit_memory (names e) (ty_value type - 1) Hw ltac:(lia)) as (b & -> & Hwb & Hm).
    eexists. split; [reflexivity|]. cbn. split_and!; try done. split; [done|]. cbn. eauto.
  - exists e. split_and!; try done. 
Qed.

Lemma edit_node_spec n :
  Forall expr_ok (expr n) -> exists n', edit_node type attr n [] = Some (n', []) /\ node_changed n n'.
Proof.
  intros Hn. destruct (traverse_spec (edit_expr type attr) expr_changed (expr n)) as (l & Hl & HF).
  { eapply Forall_impl; [exact Hn|]. apply edit_expr_spec. }
  unfold edit_node. rewrite Hl. eexists. split; [reflexivity|]. by split.
Qed.

Lemma edit_class_spec c :
  class_ok c -> exists c', edit_class type attr c [] = Some (c', []) /\ class_changed c c'.
Proof.
  intros Hc. destruct (traverse_spec (edit_node type attr) node_changed (constraints c)) as (l & Hl & HF).
  { eapply Forall_impl; [exact Hc|]. intros n. apply edit_node_spec. }
  unfold edit_class. rewrite Hl. eexists. split; [reflexivity|]. unfold class_changed, class_ok. cbn.
  split_and!; try done. clear -HF. induction HF as [|n n' k k' [_ Hn] _ IH]; constructor; [|done].
  induction Hn as [|e e' m m' He _ IHn]; constructor; [apply He|done].
Qed.

Lemma edit_classes_spec h :
  hashtab_wf cstring_ok h -> map_Forall (fun _ => class_ok) (hashtab_model h) ->
  exists h', edit_classes type attr (Some h) [] = Some (Some h', []) /\ hashtab_wf cstring_ok h' /\
    forall k, option_Forall2 class_changed (hashtab_model h !! k) (hashtab_model h' !! k).
Proof.
  intros Hw Hok. set (R := fun (_ : list Z) => class_changed).
  destruct (traverse_spec (traverse (edit_entry type attr)) (Forall2 (data_changed R)) (htable h))
    as (t & Ht & HF).
  - apply Forall_forall. intros c Hc. apply traverse_spec, Forall_forall. intros n Hn.
    assert (Hcls : class_ok (hdatum n)).
    { apply (Hok (hkey n)). unfold hashtab_model. apply elem_of_list_to_map.
      - rewrite pairs_keys. apply (table_keys_NoDup cstring_ok (hsize h)), Hw.
      - apply elem_of_pairs. destruct n. apply elem_of_concat.
        apply list_elem_of_lookup in Hc as [i Hi]. by exists i, c. }
    destruct (edit_class_spec (hdatum n) Hcls) as (c' & Hc' & Hch).
    unfold edit_entry. rewrite Hc'. eexists. split; [reflexivity|]. by split.
  - destruct (table_changed cstring_ok R h t Hw HF) as [Hw' Hm].
    unfold edit_classes. rewrite Ht. eexists. split; [reflexivity|]. by split.
Qed.

End attribute.
