(* ===== verification/SepolicyAttrProps.v ===== *)
(** * The attribute maps: consistency, and the round trip through a binary policy *)

From S2P Require Import Prelude Policyfile Ebitmap EbitmapSpec EbitmapQuery EbitmapUpdate EbitmapProps Hashtab HashtabSpec Symtab Avtab Policydb.
From S2P Require Import Sepolicy SepolicySpec SepolicyProps SepolicyFilenameProps SepolicyAttr.

(** The value is that of a type which is no attribute. *)
Definition known_type (structs : list (option type_datum)) (t : Z) : bool :=
  match default None (structs !! Z.to_nat t) with
  | None => false
  | Some d => negb (ty_flavor d =? TYPE_ATTRIB)
  end.

Definition known (structs : list (option type_datum)) (t : Z) : bool :=
  match default None (structs !! Z.to_nat t) with None => false | Some _ => true end.

(** What holds when the rows below [k] have been read and the degenerate cases below [i]
    are marked: [attr_type] is the inverse of [type_attr] except on the diagonal, where both
    hold the degenerate case. *)
Record maps_upto (nprim : Z) (structs : list (option type_datum)) (i k : Z)
    (type_attr attr_type : list ebitmap) : Prop := {
  mu_wf1 : Forall ebitmap_wf type_attr;
  mu_wf2 : Forall ebitmap_wf attr_type;
  mu_len1 : Z.of_nat (length type_attr) = nprim;
  mu_len2 : Z.of_nat (length attr_type) = nprim;
  mu_rest : forall t a, k <= t -> map_mem type_attr t a = false;
  mu_inverse : forall t a, 0 <= t -> 0 <= a -> t <> a -> map_mem attr_type a t = map_mem type_attr t a;
  mu_range : forall t a, 0 <= t -> map_mem type_attr t a = true -> 0 <= a < nprim;
  mu_self1 : forall t, 0 <= t < i -> known structs t = true -> map_mem type_attr t t = true;
  mu_self2 : forall t, 0 <= t -> map_mem attr_type t t = (t <? i) && known_type structs t
}.

(** The maps of a policy are consistent. *)
Definition attr_maps_ok (nprim : Z) (structs : list (option type_datum))
    (type_attr attr_type : list ebitmap) : Prop :=
  maps_upto nprim structs nprim nprim type_attr attr_type.

Lemma map_mem_out m t a : Z.of_nat (length m) <= t -> map_mem m t a = false.
Proof. intros Ht. unfold map_mem. by rewrite lookup_ge_None_2 by lia. Qed.

Lemma mem_nonneg e b : ebitmap_wf e -> ebitmap_mem e b = true -> 0 <= b.
Proof.
  intros Hw Hm. assert (Hb : b ∈ ebitmap_bits e) by (by rewrite <-nodes_bits_filter, elem_of_nodes_bits).
  unfold ebitmap_bits in Hb. apply list_elem_of_filter in Hb as [_ Hb]. apply elem_of_seqZ in Hb. lia.
Qed.

Lemma map_mem_init n t a : map_mem (replicate n ebitmap_init) t a = false.
Proof.
  unfold map_mem. destruct (replicate n ebitmap_init !! Z.to_nat t) eqn:E; [|done].
  by apply lookup_replicate in E as [-> _].
Qed.

Lemma maps_ext l l' :
  Forall ebitmap_wf l -> Forall ebitmap_wf l' -> length l = length l' ->
  (forall t b, 0 <= t < Z.of_nat (length l) -> 0 <= b -> map_mem l t b = map_mem l' t b) -> l = l'.
Proof.
  intros W W' Hl Hm. apply (list_eq_same_length _ _ (length l)); [done..|].
  intros k e e' Hk He He'. assert (We : ebitmap_wf e) by (by eapply (Forall_lookup_1 _ l)).
  assert (We' : ebitmap_wf e') by (by eapply (Forall_lookup_1 _ l')). apply ebitmap_ext; [done..|]. intros b.
  destruct (decide (0 <= b)) as [Hb|Hb].
  - specialize (Hm (Z.of_nat k) b ltac:(lia) Hb). unfold map_mem in Hm. by rewrite Nat2Z.id, He, He' in Hm.
  - destruct (ebitmap_mem e b) eqn:E; [by destruct Hb; apply (mem_nonneg e)|].
    destruct (ebitmap_mem e' b) eqn:E'; [by destruct Hb; apply (mem_nonneg e')|done].
Qed.

(** ** The inner loop *)

Lemma in_cons_other (x y : Z) l :
  x <> y -> bool_decide (x ∈ y :: l) = bool_decide (x ∈ l).
Proof. intros Hne. apply bool_decide_ext. rewrite elem_of_cons. tauto. Qed.

Lemma mark_attrs_any nprim i bits m o m' o' :
  Forall ebitmap_wf m -> Z.of_nat (length m) = nprim -> 0 <= i < 2 ^ 32 - MAPSIZE ->
  mark_attrs nprim i bits m o = Some (m', o') ->
  Forall ebitmap_wf m' /\ Z.of_nat (length m') = nprim /\ Forall (fun j => j = i \/ j < nprim) bits /\
  forall j b, 0 <= j ->
    map_mem m' j b = negb (j =? i) && (b =? i) && bool_decide (j ∈ bits) || map_mem m j b.
Proof.
  intros Hw Hl Hi. revert m o Hw Hl. induction bits as [|k bits IH]; intros m o Hw Hl; cbn [mark_attrs].
  { intros [= <- <-]. split_and!; try done. intros j b _. by rewrite andb_false_r. }
  destruct (Z.eqb_spec i k) as [<-|Hne].
  - intros E. destruct (IH m o Hw Hl E) as (? & ? & Hf & Hm). split_and!; try done; [constructor; auto|].
    intros j b Hj. rewrite Hm by done. destruct (Z.eqb_spec j i) as [->|Hji]; [done|].
    by rewrite in_cons_other.
  - case_Z; [done|]. destruct (set_in_map m k i o) as [[[rc m1] o1]|] eqn:E1; [|done]. cbn [mbind option_bind].
    destruct (set_in_map_any m k i o rc m1 o1 Hw Hi E1) as (Hk & Hw1 & Hl1 & Hm1).
    destruct (truthy rc) eqn:Erc; [done|]. intros E.
    destruct (IH m1 o1 Hw1 ltac:(lia) E) as (? & ? & Hf & Hm). split_and!; try done; [constructor; [lia|done]|].
    intros j b Hj. rewrite Hm, Hm1 by done. destruct (Z.eqb_spec j k) as [->|Hjk].
    + rewrite (bool_decide_eq_true_2 (k ∈ k :: bits)) by (by left).
      destruct (Z.eqb_spec k i); [congruence|]. by destruct (b =? i), (bool_decide (k ∈ bits)).
    + by rewrite in_cons_other.
Qed.

Lemma mark_attrs_total nprim i bits m :
  Forall ebitmap_wf m -> Z.of_nat (length m) = nprim -> 0 <= i < 2 ^ 32 - MAPSIZE ->
  Forall (fun j => 0 <= j < nprim) bits -> exists m', mark_attrs nprim i bits m [] = Some (m', []).
Proof.
  intros Hw Hl Hi Hf. revert m Hw Hl. induction Hf as [|k bits Hk Hf IH]; intros m Hw Hl; cbn [mark_attrs].
  { by eexists. }
  case_Z; [by apply IH|]. case_Z; [lia|].
  destruct (set_in_map_spec m k i Hw ltac:(lia) Hi) as (m1 & -> & Hw1 & Hl1 & _).
  apply IH; [done|lia].
Qed.

(** ** A round of the outer loop *)

Section reader.
Context (vers nprim : Z) (structs : list (option type_datum)).
Hypothesis Hnprim : 0 <= nprim <= 2 ^ 32 - MAPSIZE.

Definition reader_ok (i k : Z) (r : maps_reader) : Prop :=
  pf_bytes (r_fp r) /\ maps_upto nprim structs i k (r_type_attr r) (r_attr_type r).

Lemma row_read i e m1 m2 m2' :
  0 <= i < nprim -> maps_upto nprim structs i i m1 m2 -> ebitmap_wf e ->
  Forall ebitmap_wf m2' -> Z.of_nat (length m2') = nprim ->
  Forall (fun j => j = i \/ j < nprim) (ebitmap_bits e) ->
  (forall j b, 0 <= j ->
     map_mem m2' j b = negb (j =? i) && (b =? i) && bool_decide (j ∈ ebitmap_bits e) || map_mem m2 j b) ->
  maps_upto nprim structs i (i + 1) (<[Z.to_nat i := e]> m1) m2'.
Proof.
  intros Hi [W1 W2 L1 L2 Rest Inv Rng S1 S2] He W2' L2' Hf Hm.
  assert (Hrow : forall j b, 0 <= j -> map_mem (<[Z.to_nat i := e]> m1) j b =
    if j =? i then ebitmap_mem e b else map_mem m1 j b) by (intros; apply map_mem_insert; lia).
  split; try done.
  - by apply Forall_insert.
  - by rewrite length_insert.
  - intros t a Ht. rewrite Hrow by lia. case_Z; [lia|]. apply Rest. lia.
  - intros t a Ht Ha Hne. rewrite Hm, Hrow, Inv by done. destruct (Z.eqb_spec t i) as [->|Hti].
    + rewrite (proj2 (Z.eqb_neq a i)), (Rest i a), orb_false_r by (lia || done). simpl.
      destruct (ebitmap_mem e a) eqn:E; [apply bool_decide_eq_true_2|apply bool_decide_eq_false_2];
        rewrite elem_of_bits by done; congruence.
    + by rewrite andb_false_r.
  - intros t a Ht Hta. rewrite Hrow in Hta by done. destruct (Z.eqb_spec t i); [|by apply (Rng t)].
    split; [by apply (mem_nonneg e)|]. rewrite Forall_forall in Hf.
    destruct (Hf a) as [->|?]; [by apply elem_of_bits|lia|done].
  - intros t Ht Hk. rewrite Hrow by lia. case_Z; [lia|]. apply S1; [lia|done].
  - intros t Ht. rewrite Hm, S2 by done. by destruct (Z.eqb_spec t i).
Qed.

Lemma read_row_any i r r' :
  0 <= i < nprim -> reader_ok i i r -> read_row vers nprim i r = Some r' -> reader_ok i (i + 1) r'.
Proof.
  intros Hi [Hb Hmu]. unfold read_row. destruct (POLICYDB_VERSION_AVTAB <=? vers).
  - destruct (ebitmap_read (r_fp r) (r_oracle r)) as [[[rc e] fp] o] eqn:Er.
    destruct (truthy rc); [done|]. destruct (ebitmap_read_wf _ _ _ _ _ _ Hb Er) as [He _].
    rewrite ebitmap_positive_bits_correct by done. cbn [mbind option_bind].
    destruct (mark_attrs nprim i (ebitmap_bits e) (r_attr_type r) o) as [[m2 o2]|] eqn:Em; [|done].
    intros [= <-]. pose proof Hmu as [_ W2 _ L2 _ _ _ _ _].
    destruct (mark_attrs_any nprim i _ _ _ _ _ W2 L2 ltac:(lia) Em) as (W2' & L2' & Hf & Hm).
    split; cbn; [by eapply ebitmap_read_bytes|]. by eapply row_read.
  - intros [= <-]. split; [done|]. destruct Hmu as [W1 W2 L1 L2 Rest Inv Rng S1 S2].
    split; try done. intros t a Ht. apply Rest. lia.
Qed.

Lemma self_marked i m1 m2 m1' m2' :
  0 <= i < nprim -> maps_upto nprim structs i (i + 1) m1 m2 ->
  Forall ebitmap_wf m1' -> Forall ebitmap_wf m2' ->
  Z.of_nat (length m1') = nprim -> Z.of_nat (length m2') = nprim ->
  (forall j b, 0 <= j -> map_mem m1' j b = known structs i && (j =? i) && (b =? i) || map_mem m1 j b) ->
  (forall j b, 0 <= j -> map_mem m2' j b = known_type structs i && (j =? i) && (b =? i) || map_mem m2 j b) ->
  maps_upto nprim structs (i + 1) (i + 1) m1' m2'.
Proof.
  intros Hi [W1 W2 L1 L2 Rest Inv Rng S1 S2] W1' W2' L1' L2' H1 H2. split; try done.
  - intros t a Ht. rewrite H1, Rest by lia. by rewrite (proj2 (Z.eqb_neq t i)), andb_false_r by lia.
  - intros t a Ht Ha Hne. rewrite H1, H2, Inv by done.
    destruct (Z.eqb_spec a i), (Z.eqb_spec t i); rewrite ?andb_false_r; simpl; done || lia.
  - intros t a Ht. rewrite H1 by done. destruct (map_mem m1 t a) eqn:E; [by intros _; apply (Rng t)|].
    rewrite orb_false_r, !andb_true_iff, !Z.eqb_eq. lia.
  - intros t Ht Hk. rewrite H1 by lia. destruct (Z.eqb_spec t i) as [->|Hne]; [by rewrite Hk|].
    rewrite S1 by (lia || done). apply orb_true_r.
  - intros t Ht. rewrite H2, S2 by done. destruct (Z.eqb_spec t i) as [->|Hne].
    + rewrite Z.ltb_irrefl, (proj2 (Z.ltb_lt i (i + 1))) by lia. by destruct (known_type structs i).
    + rewrite !andb_false_r. simpl. f_equal. destruct (Z.ltb_spec t i), (Z.ltb_spec t (i + 1)); done || lia.
Qed.

Lemma mark_self_any i r r' :
  0 <= i < nprim -> reader_ok i (i + 1) r -> mark_self structs i r = Some r' ->
  reader_ok (i + 1) (i + 1) r' /\
  forall j b, 0 <= j -> map_mem (r_type_attr r') j b =
    known structs i && (j =? i) && (b =? i) || map_mem (r_type_attr r) j b.
Proof.
  intros Hi [Hb Hmu] Hs. pose proof Hmu as [W1 W2 L1 L2 _ _ _ _ _].
  assert (Hbit : 0 <= i < 2 ^ 32 - MAPSIZE) by lia.
  cut (pf_bytes (r_fp r') /\ Forall ebitmap_wf (r_type_attr r') /\ Forall ebitmap_wf (r_attr_type r') /\
    Z.of_nat (length (r_type_attr r')) = nprim /\ Z.of_nat (length (r_attr_type r')) = nprim /\
    (forall j b, 0 <= j -> map_mem (r_type_attr r') j b =
       known structs i && (j =? i) && (b =? i) || map_mem (r_type_attr r) j b) /\
    (forall j b, 0 <= j -> map_mem (r_attr_type r') j b =
       known_type structs i && (j =? i) && (b =? i) || map_mem (r_attr_type r) j b)).
  { intros (? & ? & ? & ? & ? & ? & ?). split; [|done]. split; [done|]. by eapply self_marked. }
  revert Hs. unfold mark_self, known, known_type.
  destruct (default None (structs !! Z.to_nat i)) as [t|]; [|by intros [= <-]].
  destruct (set_in_map (r_type_attr r) i i (r_oracle r)) as [[[rc m1] o1]|] eqn:E1; [|done].
  destruct (set_in_map_any _ _ _ _ _ _ _ W1 Hbit E1) as (_ & W1' & L1' & H1).
  cbn [mbind option_bind]. destruct (truthy rc) eqn:Erc; [done|]. specialize (H1 eq_refl).
  destruct (ty_flavor t =? TYPE_ATTRIB); [intros [= <-]; cbn; split_and!; done || lia|].
  destruct (set_in_map (r_attr_type r) i i o1) as [[[rc2 m2] o2]|] eqn:E2; [|done].
  destruct (set_in_map_any _ _ _ _ _ _ _ W2 Hbit E2) as (_ & W2' & L2' & H2).
  cbn [mbind option_bind]. destruct (truthy rc2) eqn:Erc2; [done|]. specialize (H2 eq_refl).
  intros [= <-]. cbn. split_and!; done || lia.
Qed.

Lemma read_maps_loop_any count i r r' :
  0 <= i -> i + Z.of_nat count = nprim -> reader_ok i i r ->
  read_maps_loop count vers nprim structs i r = Some r' -> reader_ok nprim nprim r'.
Proof.
  revert i r. induction count as [|count IH]; intros i r Hi Hc Hr; cbn [read_maps_loop].
  { intros [= <-]. by replace nprim with i by lia. }
  destruct (read_row vers nprim i r) as [r1|] eqn:E1; [|done]. cbn [mbind option_bind].
  destruct (mark_self structs i r1) as [r2|] eqn:E2; [|done]. cbn [mbind option_bind].
  apply read_row_any in E1; [|lia|done]. apply mark_self_any in E2 as [E2 _]; [|lia|done].
  apply IH; [lia|lia|done].
Qed.

Lemma initial_maps fp o :
  pf_bytes fp ->
  let rows := replicate (Z.to_nat nprim) ebitmap_init in reader_ok 0 0 (MapsReader rows rows fp o).
Proof.
  intros Hb rows. split; [done|]. cbn.
  assert (Hw : Forall ebitmap_wf rows) by (apply Forall_replicate, ebitmap_init_wf).
  assert (Hl : Z.of_nat (length rows) = nprim) by (unfold rows; rewrite length_replicate; lia).
  split; try done; unfold rows; intros; rewrite ?map_mem_init in *; try done; [lia|].
  case_Z; [lia|done].
Qed.

(** Whatever the stream and the allocator do, the maps that are read are consistent. *)
Lemma read_attr_maps_any fp o r :
  pf_bytes fp -> read_attr_maps vers nprim structs fp o = Some r ->
  attr_maps_ok nprim structs (r_type_attr r) (r_attr_type r).
Proof.
  intros Hb. unfold read_attr_maps. destruct (malloc o) as [ok1 o1], (malloc o1) as [ok2 o2].
  destruct (ok1 && ok2); [|done]. cbn zeta. intros E.
  apply read_maps_loop_any in E; [apply E|lia|lia|by apply initial_maps].
Qed.

(** ** The round trip *)

Lemma mark_self_total i r :
  0 <= i < nprim -> reader_ok i (i + 1) r -> r_oracle r = [] ->
  exists r', mark_self structs i r = Some r' /\ r_fp r' = r_fp r /\ r_oracle r' = [].
Proof.
  intros Hi [_ [W1 W2 L1 L2 _ _ _ _ _]] Ho. assert (Hbit : 0 <= i < 2 ^ 32 - MAPSIZE) by lia.
  unfold mark_self. destruct (default None (structs !! Z.to_nat i)) as [t|]; [|by exists r].
  destruct (set_in_map_total (r_type_attr r) i i W1 ltac:(lia) Hbit) as [m1 E1].
  rewrite Ho, E1. cbn [mbind option_bind truthy Z.eqb negb]. destruct (_ =? _); [by eexists|].
  destruct (set_in_map_total (r_attr_type r) i i W2 ltac:(lia) Hbit) as [m2 E2].
  rewrite E2. cbn [mbind option_bind truthy Z.eqb negb]. by eexists.
Qed.

Definition rows_bytes (rows : list ebitmap) : list Z := concat (map ebitmap_bytes rows).

Context (m1 m2 : list ebitmap).
Hypothesis Hvers : POLICYDB_VERSION_AVTAB <= vers.
Hypothesis Hok : attr_maps_ok nprim structs m1 m2.

(** The rows below [i] are those of [m1]. *)
Definition agrees (i : Z) (r : maps_reader) : Prop :=
  forall t b, 0 <= t < i -> map_mem (r_type_attr r) t b = map_mem m1 t b.

Lemma read_row_total i r e fp1 :
  0 <= i < nprim -> reader_ok i i r -> r_oracle r = [] -> m1 !! Z.to_nat i = Some e ->
  reads (r_fp r) (ebitmap_bytes e) fp1 -> agrees i r ->
  exists r', read_row vers nprim i r = Some r' /\ r_fp r' = fp1 /\ r_oracle r' = [] /\ agrees (i + 1) r'.
Proof.
  intros Hi [_ [_ W2 L1 L2 _ _ _ _ _]] Ho He Hr Ha. pose proof Hok as [M1 _ _ _ _ _ Rng _ _].
  assert (Hw : ebitmap_wf e) by (by eapply Forall_lookup_1).
  assert (Hm : forall b, map_mem m1 i b = ebitmap_mem e b) by (intros b; unfold map_mem; by rewrite He).
  unfold read_row. rewrite (proj2 (Z.leb_le _ _) Hvers), Ho.
  rewrite (ebitmap_read_roundtrip e _ fp1 Hw Hr). cbn [truthy Z.eqb negb].
  rewrite ebitmap_positive_bits_correct by done. cbn [mbind option_bind].
  destruct (mark_attrs_total nprim i (ebitmap_bits e) (r_attr_type r) W2 L2 ltac:(lia)) as [m2' ->].
  { apply Forall_forall. intros j Hj. apply (Rng i); [lia|]. rewrite Hm. by apply elem_of_bits. }
  eexists. split; [reflexivity|]. cbn. split_and!; try done.
  intros t b Ht. cbn. rewrite map_mem_insert by lia. destruct (Z.eqb_spec t i) as [->|]; [by rewrite Hm|].
  apply Ha. lia.
Qed.

Lemma read_maps_loop_total count i r fp' :
  0 <= i -> i + Z.of_nat count = nprim -> reader_ok i i r -> r_oracle r = [] -> agrees i r ->
  reads (r_fp r) (rows_bytes (drop (Z.to_nat i) m1)) fp' ->
  exists r', read_maps_loop count vers nprim structs i r = Some r' /\ r_fp r' = fp' /\
    r_oracle r' = [] /\ agrees nprim r'.
Proof.
  pose proof Hok as [_ _ ML _ _ _ _ S1 _].
  revert i r. induction count as [|count IH]; intros i r Hi Hc Hr Ho Ha Hrd; cbn [read_maps_loop].
  { exists r. replace nprim with i by lia. split_and!; try done.
    rewrite drop_ge in Hrd by lia. by apply reads_nil in Hrd. }
  destruct (lookup_lt_is_Some_2 m1 (Z.to_nat i)) as [e He]; [lia|].
  rewrite (drop_S _ _ _ He) in Hrd. unfold rows_bytes in Hrd. cbn [map concat] in Hrd.
  apply reads_app in Hrd as (fp1 & Hr1 & Hr2).
  destruct (read_row_total i r e fp1) as (r1 & E1 & F1 & O1 & A1); [lia|done..|].
  assert (K1 : reader_ok i (i + 1) r1) by (eapply read_row_any; [|done..]; lia).
  destruct (mark_self_total i r1) as (r2 & E2 & F2 & O2); [lia|done..|].
  destruct (mark_self_any i r1 r2 ltac:(lia) K1 E2) as [K2 H2].
  rewrite E1. cbn [mbind option_bind]. rewrite E2. cbn [mbind option_bind].
  apply IH; [lia|lia|done|done| |by rewrite F2, F1; replace (Z.to_nat (i + 1)) with (S (Z.to_nat i)) by lia].
  intros t b Ht. rewrite H2, A1 by lia. destruct (known structs i) eqn:Ek; [|done].
  destruct (Z.eqb_spec t i) as [->|]; [|done]. destruct (Z.eqb_spec b i) as [->|]; [|done].
  simpl. symmetry. apply S1; [lia|done].
Qed.

(** The map that is not stored is rebuilt. *)
Lemma read_attr_maps_roundtrip fr fr' :
  pf_bytes fr -> reads fr (rows_bytes m1) fr' ->
  read_attr_maps vers nprim structs fr [] = Some (MapsReader m1 m2 fr' []).
Proof.
  intros Hb Hr. unfold read_attr_maps. cbn [malloc andb].
  set (rows := replicate (Z.to_nat nprim) ebitmap_init).
  destruct (read_maps_loop_total (Z.to_nat nprim) 0 (MapsReader rows rows fr []) fr')
    as (r' & E & F & O & A); [lia|lia|by apply initial_maps|done|intros t b ?; lia|done|].
  pose proof E as [_ [W1 W2 L1 L2 _ I _ _ D]]%read_maps_loop_any; [|lia|lia|by apply initial_maps].
  pose proof Hok as [M1 M2 ML1 ML2 _ MI _ _ MD].
  rewrite E. f_equal. destruct r' as [a b fp o]. cbn in *. subst fp o.
  assert (a = m1) as -> by (apply maps_ext; [done..|lia|intros t c ? ?; apply A; lia]).
  assert (b = m2) as ->; [|done]. apply maps_ext; [done..|lia|]. intros t c Ht Hc.
  destruct (decide (c = t)) as [->|Hne]; [by rewrite D, MD by lia|by rewrite I, MI by (lia || done)].
Qed.

End reader.

Lemma write_rows_wrote rows fp :
  Forall ebitmap_wf rows -> can_put fp (Z.of_nat (length (rows_bytes rows))) ->
  exists fp', write_rows rows fp = (POLICYDB_SUCCESS, fp') /\ wrote fp (rows_bytes rows) fp'.
Proof.
  intros Hw. revert fp. induction Hw as [|e rows He Hw IH]; intros fp Hc; cbn [write_rows].
  { exists fp. split; [done|]. apply wrote_nil. }
  unfold rows_bytes in Hc. cbn [map concat] in Hc. rewrite length_app in Hc.
  destruct (ebitmap_write_wrote e fp He) as (fp1 & -> & W1).
  { eapply can_put_le; [exact Hc|]. rewrite length_ebitmap_bytes. lia. }
  destruct (IH fp1) as (fp2 & E & W2).
  { eapply can_put_after; [exact W1|]. by rewrite <-Nat2Z.inj_add. }
  change (POLICYDB_SUCCESS =? -1) with false. cbv beta iota. rewrite E. exists fp2. split; [done|].
  exact (wrote_app _ _ _ _ _ W1 W2).
Qed.

(** ** The editor *)

(** Setting one pair in both maps keeps them consistent. *)
Lemma attr_maps_add nprim structs m1 m2 m1' m2' t a :
  attr_maps_ok nprim structs m1 m2 -> 0 <= t < nprim -> 0 <= a < nprim -> t <> a ->
  Forall ebitmap_wf m1' -> Forall ebitmap_wf m2' -> length m1' = length m1 -> length m2' = length m2 ->
  (forall j b, 0 <= j -> map_mem m1' j b = (j =? t) && (b =? a) || map_mem m1 j b) ->
  (forall j b, 0 <= j -> map_mem m2' j b = (j =? a) && (b =? t) || map_mem m2 j b) ->
  attr_maps_ok nprim structs m1' m2'.
Proof.
  intros [W1 W2 L1 L2 Rest Inv Rng S1 S2] Ht Ha Hne W1' W2' L1' L2' H1 H2. split; try done; try lia.
  - intros j b Hj. apply map_mem_out. lia.
  - intros j b Hj Hb Hjb. rewrite H1, H2, Inv by done. by rewrite (andb_comm (b =? a)).
  - intros j b Hj. rewrite H1 by done. destruct (map_mem m1 j b) eqn:E; [by intros _; apply (Rng j)|].
    rewrite orb_false_r, andb_true_iff, !Z.eqb_eq. lia.
  - intros j Hj Hk. rewrite H1, S1 by (lia || done). apply orb_true_r.
  - intros j Hj. rewrite H2, S2 by done. destruct (Z.eqb_spec j a), (Z.eqb_spec j t); done || lia.
Qed.

(** * The properties of attributes, with concrete instances *)

(** ** The attribute maps in a binary policy *)

(** C22: whatever bytes a policy holds and whichever allocations fail, attribute maps that
    [policydb_read] accepts are consistent: no row has a type beyond the symbol table,
    [attr_type_map] is the inverse of [type_attr_map], each known type has its own bit in
    its row, and each type that is no attribute its own bit in the inverse map. *)
Theorem read_attr_maps_consistent vers nprim structs fp o :
  pf_bytes fp -> 0 <= nprim <= 2 ^ 32 - MAPSIZE ->
  match read_attr_maps vers nprim structs fp o with
  | None => True
  | Some r =>
      let type_attr := r_type_attr r in
      let attr_type := r_attr_type r in
      Forall ebitmap_wf type_attr /\ Forall ebitmap_wf attr_type /\
      Z.of_nat (length type_attr) = nprim /\ Z.of_nat (length attr_type) = nprim /\
      (forall t a, 0 <= t -> map_mem type_attr t a = true -> 0 <= a < nprim) /\
      (forall t a, 0 <= t -> 0 <= a -> t <> a -> map_mem attr_type a t = map_mem type_attr t a) /\
      (forall t, 0 <= t < nprim -> known structs t = true -> map_mem type_attr t t = true) /\
      (forall t, 0 <= t < nprim -> map_mem attr_type t t = known_type structs t)
  end.
Proof.
  intros Hb Hn. destruct (read_attr_maps vers nprim structs fp o) as [r|] eqn:E; [|done].
  destruct (read_attr_maps_any vers nprim structs Hn fp o r Hb E) as [W1 W2 L1 L2 _ I R S1 S2].
  cbn zeta. split_and!; try done. intros t Ht. rewrite S2 by lia. by rewrite (proj2 (Z.ltb_lt t nprim)) by lia.
Qed.

(** Round trip of the attribute maps.  Only [type_attr_map] is written; from what was
    written [policydb_read] gives back both maps of a policy with consistent maps, and
    stops right after them. *)
Theorem attr_maps_roundtrip vers nprim structs type_attr attr_type fp :
  POLICYDB_VERSION_AVTAB <= vers -> 0 <= nprim <= 2 ^ 32 - MAPSIZE ->
  attr_maps_ok nprim structs type_attr attr_type ->
  can_put fp (Z.of_nat (length (rows_bytes type_attr))) ->
  exists bs fp', write_attr_maps vers type_attr fp = (POLICYDB_SUCCESS, fp') /\ wrote fp bs fp' /\
    forall fr fr', pf_bytes fr -> reads fr bs fr' ->
      read_attr_maps vers nprim structs fr [] = Some (MapsReader type_attr attr_type fr' []).
Proof.
  intros Hv Hn Hok Hc. unfold write_attr_maps. rewrite (proj2 (Z.leb_le _ _) Hv).
  destruct (write_rows_wrote type_attr fp (mu_wf1 _ _ _ _ _ _ Hok) Hc) as (fp' & Hw & Hb).
  exists (rows_bytes type_attr), fp'. split; [exact Hw|]. split; [exact Hb|].
  intros fr fr' Hf Hr. by apply read_attr_maps_roundtrip.
Qed.

(** ** The editor *)

(** Each symbol has a value of the table, and the datum of the value is an attribute
    exactly when the symbol is. *)
Definition types_indexed (nprim : Z) (structs : list (option type_datum))
    (types : hashtab_val (list Z) type_datum) : Prop :=
  map_Forall (fun _ t => 0 < ty_value t <= nprim /\
    known_type structs (ty_value t - 1) = negb (ty_flavor t =? TYPE_ATTRIB)) (hashtab_model types).

(** C8: [add_typeattribute] makes a type a member of an attribute.  It returns false and
    changes nothing exactly when the type does not exist or is an attribute, or the
    attribute does not exist or is none.  Otherwise, with memory available, the pair is
    added to both attribute maps and nothing else in them changes, they stay consistent,
    and in the constraints of every class exactly the expressions that name the attribute
    get the type. *)
Theorem add_typeattribute_correct db types classes type attr nprim :
  table (p_types db) = Some types -> table (p_classes db) = Some classes ->
  hashtab_wf cstring_ok types -> hashtab_wf cstring_ok classes -> name_ok type -> name_ok attr ->
  map_Forall (fun _ => class_ok) (hashtab_model classes) ->
  nprim < 2 ^ 32 - MAPSIZE -> types_indexed nprim (type_val_to_struct db) types ->
  attr_maps_ok nprim (type_val_to_struct db) (type_attr_map db) (attr_type_map db) ->
  match hashtab_model types !! type, hashtab_model types !! attr with
  | Some t, Some a =>
      if (ty_flavor t =? TYPE_ATTRIB) || negb (ty_flavor a =? TYPE_ATTRIB)
      then add_typeattribute type attr (db, []) = Some (false, (db, []))
      else
        exists m1 m2 h', add_typeattribute type attr (db, []) =
            Some (true, (set_attributes db m1 m2 (Some h'), [])) /\
          attr_maps_ok nprim (type_val_to_struct db) m1 m2 /\
          (forall i b, 0 <= i -> map_mem m1 i b =
             (i =? ty_value t - 1) && (b =? ty_value a - 1) || map_mem (type_attr_map db) i b) /\
          hashtab_wf cstring_ok h' /\
          forall k, option_Forall2 (class_changed t a) (hashtab_model classes !! k) (hashtab_model h' !! k)
  | _, _ => add_typeattribute type attr (db, []) = Some (false, (db, []))
  end.
Proof.
  intros Ht Hc Hwt Hwc Hn1 Hn2 Hcl Hn Hix Hok. unfold add_typeattribute. cbn [fst].
  rewrite Ht, !hashtab_find_model by done.
  destruct (hashtab_model types !! type) as [t|] eqn:Et; [|done].
  destruct (hashtab_model types !! attr) as [a|] eqn:Ea; [|by destruct (_ =? _)].
  destruct (ty_flavor t =? TYPE_ATTRIB) eqn:Ft; [done|].
  destruct (ty_flavor a =? TYPE_ATTRIB) eqn:Fa; [|done]. cbn [negb orb].
  destruct (Hix _ _ Et) as [Vt Kt], (Hix _ _ Ea) as [Va Ka]. rewrite Ft in Kt. rewrite Fa in Ka.
  assert (Hne : ty_value t - 1 <> ty_value a - 1) by (intros E; by rewrite E, Ka in Kt).
  pose proof Hok as [W1 W2 L1 L2 _ _ _ _ _]. unfold add_typeattribute_data.
  destruct (set_in_map_spec (type_attr_map db) (ty_value t - 1) (ty_value a - 1) W1 ltac:(lia) ltac:(lia))
    as (m1 & -> & W1' & L1' & H1).
  destruct (set_in_map_spec (attr_type_map db) (ty_value a - 1) (ty_value t - 1) W2 ltac:(lia) ltac:(lia))
    as (m2 & E2 & W2' & L2' & H2).
  destruct (edit_classes_spec t a ltac:(lia) classes Hwc Hcl) as (h' & Eh & Hw' & Hch).
  cbn [mbind option_bind]. rewrite E2. cbn [mbind option_bind]. rewrite Hc, Eh. cbn [mbind option_bind].
  exists m1, m2, h'. split; [reflexivity|]. split; [|done].
  eapply attr_maps_add; [exact Hok|..]; try done; lia.
Qed.

(** ** A policy where type 1 has the attribute 3 *)

Definition ex_structs : list (option type_datum) :=
  [Some (plain_type 1 1 TYPE_TYPE); Some (plain_type 2 1 TYPE_TYPE); Some (plain_type 3 1 TYPE_ATTRIB)].

(** The stored rows. *)
Definition ex_stream : policy_file :=
  let bs := rows_bytes [sources [2]; ebitmap_init; ebitmap_init] in
  PolicyFile PF_USE_MEMORY bs (Z.of_nat (length bs)) [].

Lemma ex_stream_bytes : pf_bytes ex_stream.
Proof. unfold pf_bytes. apply (bool_decide_unpack _). vm_compute. exact I. Qed.

Definition ex_type_attr : list ebitmap := [sources [0; 2]; sources [1]; sources [2]].
Definition ex_attr_type : list ebitmap := [sources [0]; sources [1]; sources [0]].

Lemma ex_stream_read :
  read_attr_maps 30 3 ex_structs ex_stream [] =
  Some (MapsReader ex_type_attr ex_attr_type (PolicyFile PF_USE_MEMORY [] 0 []) []).
Proof. vm_compute. reflexivity. Qed.

Lemma ex_maps_ok : attr_maps_ok 3 ex_structs ex_type_attr ex_attr_type.
Proof.
  apply (read_attr_maps_any 30 3 ex_structs ltac:(unfold MAPSIZE; lia) ex_stream [] _ ex_stream_bytes ex_stream_read).
Qed.

Lemma read_attr_maps_witness :
  exists r, read_attr_maps 30 3 ex_structs ex_stream [] = Some r /\
    map_mem (r_type_attr r) 0 2 = true /\ map_mem (r_attr_type r) 2 0 = true.
Proof.
  pose proof (read_attr_maps_consistent 30 3 ex_structs ex_stream [] ex_stream_bytes ltac:(unfold MAPSIZE; lia)) as H.
  rewrite ex_stream_read in *. eexists. split; [reflexivity|]. cbn zeta in H.
  destruct H as (_ & _ & _ & _ & _ & Hinv & _). split; [vm_compute; reflexivity|].
  rewrite (Hinv 0 2) by lia. vm_compute. reflexivity.
Defined.

Lemma attr_maps_roundtrip_witness :
  exists bs fp', write_attr_maps 30 ex_type_attr (PolicyFile PF_USE_STDIO [] 0 []) = (POLICYDB_SUCCESS, fp') /\
    wrote (PolicyFile PF_USE_STDIO [] 0 []) bs fp' /\
    forall fr fr', pf_bytes fr -> reads fr bs fr' ->
      read_attr_maps 30 3 ex_structs fr [] = Some (MapsReader ex_type_attr ex_attr_type fr' []).
Proof.
  apply (attr_maps_roundtrip 30 3 ex_structs ex_type_attr ex_attr_type);
    [done|unfold MAPSIZE; lia|exact ex_maps_ok|by left].
Defined.

(** Class "f" with a constraint on the attribute. *)
Definition ex_constraint : constraint_expr :=
  ConstraintExpr CEXPR_NAMES 4 1 (sources [0]) (Some (TypeSet (sources [2]) ebitmap_init 0)).
Definition ex_attr_class : class_datum :=
  plain_class 4 (mk_symtab []) [ConstraintNode 1 [ex_constraint]].
Definition ex_attr_classes : symtab class_datum := mk_symtab [([102], ex_attr_class)].

Definition ex_attr_db : policydb :=
  Policydb POLICY_KERN SEPOL_TARGET_SELINUX 30 (plain_symtabs ex_types ex_attr_classes) ex_te None 0 ex_structs
    ex_type_attr ex_attr_type ebitmap_init 0 [] [] no_indexes [].

Lemma ex_class_ok : class_ok ex_attr_class.
Proof.
  assert (Hw : forall b, 0 <= b <= 3 -> ebitmap_wf (sources [b])).
  { intros b Hb. apply sources_wf. constructor; [unfold MAPSIZE; lia|constructor]. }
  constructor; [|constructor]. constructor; [|constructor].
  split; [apply Hw; lia|]. intros _. eexists. split; [reflexivity|]. apply Hw. lia.
Qed.

(** typeattribute t d: type 2 gets the attribute 3. *)
Lemma add_typeattribute_witness :
  exists m1 m2 h', add_typeattribute [116] [100] (ex_attr_db, []) =
      Some (true, (set_attributes ex_attr_db m1 m2 (Some h'), [])) /\
    attr_maps_ok 3 ex_structs m1 m2 /\ map_mem m1 1 2 = true /\ map_mem m2 2 1 = true.
Proof.
  destruct ex_types_wf as (types & Ht & Hwt).
  assert (Hcw : exists h, table ex_attr_classes = Some h /\ hashtab_wf cstring_ok h)
    by (apply mk_symtab_wf; repeat constructor; simpl; lia).
  destruct Hcw as (classes & Hc & Hwc).
  assert (Hcl : map_Forall (fun _ => class_ok) (hashtab_model classes)).
  { intros k c E. apply model_data in E. rewrite <-Hc in E.
    assert (Ed : hashtab_data (table ex_attr_classes) = [ex_attr_class]) by (vm_compute; reflexivity).
    rewrite Ed in E. apply list_elem_of_singleton in E as ->. exact ex_class_ok. }
  assert (Hix : types_indexed 3 ex_structs types).
  { intros k t E. apply model_data in E. rewrite <-Ht in E.
    assert (Ed : hashtab_data (table ex_types) =
      [plain_type 3 1 TYPE_ATTRIB; plain_type 2 1 TYPE_TYPE; plain_type 1 1 TYPE_TYPE]) by (vm_compute; reflexivity).
    rewrite Ed in E. rewrite !elem_of_cons, elem_of_nil in E. destruct E as [->|[->|[->|[]]]];
      (split; [simpl; lia|vm_compute; reflexivity]). }
  pose proof (add_typeattribute_correct ex_attr_db types classes [116] [100] 3 Ht Hc Hwt Hwc
    (letter_ok 116 ltac:(lia)) (letter_ok 100 ltac:(lia)) Hcl ltac:(unfold MAPSIZE; lia) Hix ex_maps_ok) as H.
  rewrite <-!hashtab_find_model in H by (exact Hwt || (apply letter_ok; lia)). rewrite <-Ht in H.
  assert (E1 : hashtab_find (table ex_types) [116] = Some (plain_type 2 1 TYPE_TYPE)) by (vm_compute; reflexivity).
  assert (E2 : hashtab_find (table ex_types) [100] = Some (plain_type 3 1 TYPE_ATTRIB)) by (vm_compute; reflexivity).
  rewrite E1, E2 in H. destruct H as (m1 & m2 & h' & Hr & Hok & Hm & _).
  assert (Hset : map_mem m1 1 2 = true) by (rewrite Hm by lia; reflexivity).
  exists m1, m2, h'. split; [exact Hr|]. split; [exact Hok|]. split; [exact Hset|].
  destruct Hok as [_ _ _ _ _ Hinv _ _ _]. by rewrite (Hinv 1 2) by lia.
Defined.
