(* ===== verification/Symbols.v ===== *)
(** * The symbols of a binary policy (libsepol/src/policydb.c, conditional.c, write.c)

    The readers and writers of the eight kinds of symbols and the part of [policydb_read]
    and [policydb_write] that goes through the symbol tables.  [kind] and [vers] are the
    fields [policy_type] and [policyvers] of the policy; they decide which parts of a
    record exist.  A [char] is taken as unsigned, as on ARM. *)

From S2P Require Import Prelude Policyfile Ebitmap EbitmapProps Hashtab Symtab Codec Policydb.

Definition POLICY_BASE : Z := 1.
Definition POLICY_MOD : Z := 2.

Definition POLICYDB_VERSION_VALIDATETRANS : Z := 19.
Definition POLICYDB_VERSION_MLS : Z := 19.
Definition POLICYDB_VERSION_BOUNDARY : Z := 24.
Definition POLICYDB_VERSION_NEW_OBJECT_DEFAULTS : Z := 27.
Definition POLICYDB_VERSION_DEFAULT_TYPE : Z := 28.
Definition POLICYDB_VERSION_CONSTRAINT_NAMES : Z := 29.
Definition POLICYDB_VERSION_GLBLUB : Z := 32.

Definition MOD_POLICYDB_VERSION_VALIDATETRANS : Z := 5.
Definition MOD_POLICYDB_VERSION_MLS : Z := 5.
Definition MOD_POLICYDB_VERSION_MLS_USERS : Z := 6.
Definition MOD_POLICYDB_VERSION_PERMISSIVE : Z := 8.
Definition MOD_POLICYDB_VERSION_BOUNDARY : Z := 9.
Definition MOD_POLICYDB_VERSION_BOUNDARY_ALIAS : Z := 10.
Definition MOD_POLICYDB_VERSION_ROLEATTRIB : Z := 13.
Definition MOD_POLICYDB_VERSION_TUNABLE_SEP : Z := 14.
Definition MOD_POLICYDB_VERSION_NEW_OBJECT_DEFAULTS : Z := 15.
Definition MOD_POLICYDB_VERSION_DEFAULT_TYPE : Z := 16.
Definition MOD_POLICYDB_VERSION_GLBLUB : Z := 20.

Definition PERM_SYMTAB_SIZE : Z := 32.
Definition DEFAULT_GLBLUB : Z := 7.

Definition CEXPR_NOT : Z := 1.
Definition CEXPR_AND : Z := 2.
Definition CEXPR_OR : Z := 3.
Definition CEXPR_ATTR : Z := 4.
Definition CEXPR_XTARGET : Z := 16.
Definition CEXPR_MAXDEPTH : Z := 5.

Definition TYPEDATUM_PROPERTY_PRIMARY : Z := 1.
Definition TYPEDATUM_PROPERTY_ATTRIBUTE : Z := 2.
Definition TYPEDATUM_PROPERTY_ALIAS : Z := 4.
Definition TYPEDATUM_PROPERTY_PERMISSIVE : Z := 8.
Definition TYPE_FLAGS_PERMISSIVE : Z := 1.

(** "object_r" *)
Definition OBJECT_R : list Z := [111; 98; 106; 101; 99; 116; 95; 114].
Definition OBJECT_R_VAL : Z := 1.

Abbreviation symbols D := (option (hashtab_val (list Z) D)).

Definition type_set_init : type_set := TypeSet ebitmap_init ebitmap_init 0.
Definition role_set_init : role_set := RoleSet ebitmap_init 0.

Definition value_isvalid (value nprim : Z) : bool := negb ((value =? 0) || (nprim <? value)).

(** ** Permissions and sets *)

Definition perm_read (nprim : Z) (h : symbols perm_datum) : reader (symbols perm_datum) :=
  rd_alloc;;
  buf ← rd_entry 8;
  key ← str_read (le32_at buf 0);
  rd_require (value_isvalid (le32_at buf 1) nprim);;
  rd_call (hashtab_insert h key (PermDatum (le32_at buf 1))).

Definition type_set_read : reader type_set :=
  types ← rd_ebitmap;
  negset ← rd_ebitmap;
  buf ← rd_entry 4;
  mret (TypeSet types negset (le32_at buf 0)).

Definition role_set_read : reader role_set :=
  roles ← rd_ebitmap;
  buf ← rd_entry 4;
  mret (RoleSet roles (le32_at buf 0)).

Open Scope writer_scope.

Definition wr_key (key : list Z) : writer := wr_put 1 (Z.of_nat (length key)) key.

Definition wr_fail : writer := fun _ => None.

Definition perm_write (key : list Z) (perdatum : perm_datum) : writer :=
  wr_words [Z.of_nat (length key); perm_value perdatum];;; wr_key key.

Definition type_set_write (x : type_set) : writer :=
  wr_ebitmap (ts_types x);;; wr_ebitmap (negset x);;; wr_words [ts_flags x].

Definition role_set_write (x : role_set) : writer :=
  wr_ebitmap (rs_roles x);;; wr_words [rs_flags x].

(** ** Commons *)

Definition common_read (h : symbols common_datum) : reader (symbols common_datum) :=
  rd_alloc;;
  buf ← rd_entry 16;
  key ← str_read (le32_at buf 0);
  s ← rd_call (symtab_init (Symtab None 0) PERM_SYMTAB_SIZE);
  let nprim := le32_at buf 2 in
  rd_require (negb (PERM_SYMTAB_SIZE <? nprim));;
  t ← rd_loop (Z.to_nat (le32_at buf 3)) (perm_read nprim) (table s);
  rd_call (hashtab_insert h key (CommonDatum (le32_at buf 1) (Symtab t nprim))).

(** [comdatum->permissions.table] is dereferenced. *)
Definition common_write (key : list Z) (comdatum : common_datum) : writer :=
  match table (com_permissions comdatum) with
  | None => wr_fail
  | Some t =>
      wr_words [Z.of_nat (length key); com_value comdatum; nprim (com_permissions comdatum); nel t];;;
      wr_key key;;;
      wr_map perm_write (Some t)
  end.

Section format.
Context (kind vers : Z).

Definition kern : bool := kind =? POLICY_KERN.

(** A feature of kernel policies from version [k] and of base modules from [m] on. *)
Definition kern_or_base (k m : Z) : bool :=
  kern && (k <=? vers) || (kind =? POLICY_BASE) && (m <=? vers).

Definition policydb_has_boundary_feature : bool :=
  kern && (POLICYDB_VERSION_BOUNDARY <=? vers) ||
  negb kern && (MOD_POLICYDB_VERSION_BOUNDARY <=? vers).

(** ** Classes and constraints *)

(** The type set that follows the names of an expression. *)
Definition has_type_names : bool := negb kern || (POLICYDB_VERSION_CONSTRAINT_NAMES <=? vers).

(** The body of the loop over the expressions of a constraint, with the expressions so
    far and [depth]. *)
Definition read_cons_expr (allowxtarget : bool) (s : list constraint_expr * Z) :
    reader (list constraint_expr * Z) :=
  let (l, depth) := s in
  rd_alloc;; rd_alloc;;
  buf ← rd_entry 12;
  let type := le32_at buf 0 in
  let attr := le32_at buf 1 in
  let op := le32_at buf 2 in
  let e := ConstraintExpr type attr op ebitmap_init (Some type_set_init) in
  if type =? CEXPR_NOT then rd_require (negb (depth <? 0));; mret (l ++ [e], depth)
  else if (type =? CEXPR_AND) || (type =? CEXPR_OR) then
    rd_require (negb (depth <? 1));; mret (l ++ [e], depth - 1)
  else if type =? CEXPR_ATTR then
    rd_require (negb (depth =? CEXPR_MAXDEPTH - 1));; mret (l ++ [e], depth + 1)
  else if type =? CEXPR_NAMES then
    rd_require (allowxtarget || negb (truthy (Z.land attr CEXPR_XTARGET)));;
    rd_require (negb (depth =? CEXPR_MAXDEPTH - 1));;
    names ← rd_ebitmap;
    ts ← (if has_type_names then type_set_read else mret type_set_init);
    mret (l ++ [ConstraintExpr type attr op names (Some ts)], depth + 1)
  else rd_fail.

Definition read_cons (allowxtarget : bool) (l : list constraint_node) : reader (list constraint_node) :=
  rd_alloc;;
  buf ← rd_entry 8;
  '(es, depth) ← rd_loop (Z.to_nat (le32_at buf 1)) (read_cons_expr allowxtarget) ([], -1);
  rd_require (depth =? 0);;
  mret (l ++ [ConstraintNode (le32_at buf 0) es]).

Definition read_cons_helper (ncons : Z) (allowxtarget : bool) : reader (list constraint_node) :=
  rd_loop (Z.to_nat ncons) (read_cons allowxtarget) [].

Definition write_cons_expr (allowxtarget : bool) (e : constraint_expr) : writer :=
  wr_words [expr_type e; cx_attr e; cx_op e];;;
  if expr_type e =? CEXPR_NAMES then
    if negb allowxtarget && truthy (Z.land (cx_attr e) CEXPR_XTARGET) then wr_fail
    else
      wr_ebitmap (names e);;;
      (if has_type_names then match type_names e with Some ts => type_set_write ts | None => wr_fail end
       else wr_ret)
  else wr_ret.

Definition write_cons_helper (node : list constraint_node) (allowxtarget : bool) : writer :=
  wr_each (fun c =>
    wr_words [permissions c; Z.of_nat (length (expr c))];;;
    wr_each (write_cons_expr allowxtarget) (expr c)) node.

(** The parts of a class that a record may lack. *)
Definition read_comkey (commons : symbols common_datum) (len2 : Z) :
    reader (option (list Z) * option common_datum) :=
  if truthy len2 then
    comkey ← str_read len2;
    match hashtab_search commons comkey with
    | None => rd_fail
    | Some comdatum => mret (Some comkey, Some comdatum)
    end
  else mret (None, None).

Definition read_validatetrans : reader (list constraint_node) :=
  if kern_or_base POLICYDB_VERSION_VALIDATETRANS MOD_POLICYDB_VERSION_VALIDATETRANS then
    buf ← rd_entry 4;
    read_cons_helper (le32_at buf 0) true
  else mret [].

(** The defaults are stored as [char], which is unsigned on ARM. *)
Definition read_defaults : reader (Z * Z * Z) :=
  if kern_or_base POLICYDB_VERSION_NEW_OBJECT_DEFAULTS MOD_POLICYDB_VERSION_NEW_OBJECT_DEFAULTS then
    buf ← rd_entry 12;
    mret (u8 (le32_at buf 0), u8 (le32_at buf 1), u8 (le32_at buf 2))
  else mret (0, 0, 0).

Definition read_default_type : reader Z :=
  if kern_or_base POLICYDB_VERSION_DEFAULT_TYPE MOD_POLICYDB_VERSION_DEFAULT_TYPE then
    buf ← rd_entry 4;
    mret (u8 (le32_at buf 0))
  else mret 0.

Definition class_read (commons : symbols common_datum) (h : symbols class_datum) :
    reader (symbols class_datum) :=
  rd_alloc;;
  buf ← rd_entry 24;
  key ← str_read (le32_at buf 0);
  let value := le32_at buf 2 in
  rd_require (negb (2 ^ 16 - 1 <? value));;
  s ← rd_call (symtab_init (Symtab None 0) PERM_SYMTAB_SIZE);
  let nprim := le32_at buf 3 in
  rd_require (negb (PERM_SYMTAB_SIZE <? nprim));;
  com ← read_comkey commons (le32_at buf 1);
  t ← rd_loop (Z.to_nat (le32_at buf 4)) (perm_read nprim) (table s);
  cons ← read_cons_helper (le32_at buf 5) false;
  validatetrans ← read_validatetrans;
  defaults ← read_defaults;
  type ← read_default_type;
  rd_call (hashtab_insert h key
    (ClassDatum value com.1 com.2 (Symtab t nprim) cons validatetrans
       defaults.1.1 defaults.1.2 type defaults.2)).

Definition glblub_version : bool := kern_or_base POLICYDB_VERSION_GLBLUB MOD_POLICYDB_VERSION_GLBLUB.

Definition class_write (key : list Z) (c : class_datum) : writer :=
  wr_words [Z.of_nat (length key);
            match comkey c with Some k => Z.of_nat (length k) | None => 0 end;
            cls_value c; nprim (cls_permissions c);
            match table (cls_permissions c) with Some t => nel t | None => 0 end;
            Z.of_nat (length (constraints c))];;;
  wr_key key;;;
  (match comkey c with Some k => wr_key k | None => wr_ret end);;;
  wr_map perm_write (table (cls_permissions c));;;
  write_cons_helper (constraints c) false;;;
  (if kern_or_base POLICYDB_VERSION_VALIDATETRANS MOD_POLICYDB_VERSION_VALIDATETRANS then
     wr_words [Z.of_nat (length (validatetrans c))];;;
     write_cons_helper (validatetrans c) true
   else wr_ret);;;
  (if kern_or_base POLICYDB_VERSION_NEW_OBJECT_DEFAULTS MOD_POLICYDB_VERSION_NEW_OBJECT_DEFAULTS then
     let range := if negb glblub_version && (default_range c =? DEFAULT_GLBLUB) then 0 else default_range c in
     wr_words [default_user c; default_role c; range]
   else wr_ret);;;
  (if kern_or_base POLICYDB_VERSION_DEFAULT_TYPE MOD_POLICYDB_VERSION_DEFAULT_TYPE then
     wr_words [default_type c]
   else wr_ret).

(** ** Roles *)

Definition read_role_types : reader type_set :=
  if kern then types ← rd_ebitmap; mret (TypeSet types ebitmap_init 0) else type_set_read.

Definition read_role_flavor : reader (Z * ebitmap) :=
  if negb kern && (MOD_POLICYDB_VERSION_ROLEATTRIB <=? vers) then
    buf ← rd_entry 4;
    roles ← rd_ebitmap;
    mret (le32_at buf 0, roles)
  else mret (0, ebitmap_init).

Definition role_read (h : symbols role_datum) : reader (symbols role_datum) :=
  rd_alloc;;
  buf ← rd_entry (if policydb_has_boundary_feature then 12 else 8);
  key ← str_read (le32_at buf 0);
  let value := le32_at buf 1 in
  let bounds := if policydb_has_boundary_feature then le32_at buf 2 else 0 in
  dominates ← rd_ebitmap;
  types ← read_role_types;
  flavor ← read_role_flavor;
  if strcmp key OBJECT_R =? 0 then rd_require (value =? OBJECT_R_VAL);; mret h
  else rd_call (hashtab_insert h key (RoleDatum value dominates types ebitmap_init bounds flavor.1 flavor.2)).

(** Role attributes are not stored. *)
Definition role_skipped (role : role_datum) : bool :=
  (ro_flavor role =? ROLE_ATTRIB) && (kern || negb kern && (vers <? MOD_POLICYDB_VERSION_ROLEATTRIB)).

Definition role_write (key : list Z) (role : role_datum) : writer :=
  if role_skipped role then wr_ret
  else
    wr_words ([Z.of_nat (length key); ro_value role] ++
              if policydb_has_boundary_feature then [ro_bounds role] else []);;;
    wr_key key;;;
    wr_ebitmap (dominates role);;;
    (if kern then
       if ro_value role =? OBJECT_R_VAL then wr_ebitmap ebitmap_init
       else wr_ebitmap (ts_types (ro_types role))
     else type_set_write (ro_types role));;;
    (if negb kern && (MOD_POLICYDB_VERSION_ROLEATTRIB <=? vers) then
       wr_words [ro_flavor role];;; wr_ebitmap (ro_roles role)
     else wr_ret).

(** ** Types *)

Definition boundary_alias : bool := negb kern && (MOD_POLICYDB_VERSION_BOUNDARY_ALIAS <=? vers).

Definition to_read : nat :=
  if policydb_has_boundary_feature then if boundary_alias then 5 else 4
  else if kern then 3
  else if MOD_POLICYDB_VERSION_PERMISSIVE <=? vers then 5
  else 4.

(** The datum from the numbers of a record. *)
Definition read_typdatum (buf : list Z) (types : ebitmap) : type_datum :=
  let value := le32_at buf 1 in
  if policydb_has_boundary_feature then
    let '(primary, properties, bounds) :=
      if boundary_alias then (le32_at buf 2, le32_at buf 3, le32_at buf 4)
      else
        let properties := le32_at buf 2 in
        (if truthy (Z.land properties TYPEDATUM_PROPERTY_PRIMARY) then 1 else 0, properties, le32_at buf 3) in
    let flavor := if truthy (Z.land properties TYPEDATUM_PROPERTY_ATTRIBUTE) then TYPE_ATTRIB else TYPE_TYPE in
    let flavor := if truthy (Z.land properties TYPEDATUM_PROPERTY_ALIAS) && negb kern then TYPE_ALIAS else flavor in
    let flags := if truthy (Z.land properties TYPEDATUM_PROPERTY_PERMISSIVE) && negb kern
                 then TYPE_FLAGS_PERMISSIVE else 0 in
    TypeDatum value primary flavor types flags bounds
  else if kern then TypeDatum value (le32_at buf 2) TYPE_TYPE types 0 0
  else TypeDatum value (le32_at buf 2) (le32_at buf 3) types
         (if MOD_POLICYDB_VERSION_PERMISSIVE <=? vers then le32_at buf 4 else 0) 0.

Definition type_read (h : symbols type_datum) : reader (symbols type_datum) :=
  rd_alloc;;
  buf ← rd_entry (4 * to_read);
  types ← (if kern then mret ebitmap_init else rd_ebitmap);
  key ← str_read (le32_at buf 0);
  rd_call (hashtab_insert h key (read_typdatum buf types)).

(** Attributes are not stored in kernel policies before version 24. *)
Definition type_skipped (t : type_datum) : bool :=
  kern && (vers <? POLICYDB_VERSION_BOUNDARY) && (ty_flavor t =? TYPE_ATTRIB).

Definition write_properties (t : type_datum) : Z :=
  let properties := if truthy (ty_primary t) then TYPEDATUM_PROPERTY_PRIMARY else 0 in
  let properties :=
    if ty_flavor t =? TYPE_ATTRIB then Z.lor properties TYPEDATUM_PROPERTY_ATTRIBUTE
    else if (ty_flavor t =? TYPE_ALIAS) && negb kern then Z.lor properties TYPEDATUM_PROPERTY_ALIAS
    else properties in
  if truthy (Z.land (ty_flags t) TYPE_FLAGS_PERMISSIVE) && negb kern
  then Z.lor properties TYPEDATUM_PROPERTY_PERMISSIVE else properties.

Definition type_items (key : list Z) (t : type_datum) : list Z :=
  [Z.of_nat (length key); ty_value t] ++
  (if policydb_has_boundary_feature then
     (if boundary_alias then [ty_primary t] else []) ++ [write_properties t; ty_bounds t]
   else
     [ty_primary t] ++
     (if negb kern then
        [ty_flavor t] ++ (if MOD_POLICYDB_VERSION_PERMISSIVE <=? vers then [ty_flags t] else [])
      else [])).

Definition type_write (key : list Z) (t : type_datum) : writer :=
  if type_skipped t then wr_ret
  else
    wr_words (type_items key t);;;
    (if kern then wr_ret else wr_ebitmap (ty_types t));;;
    wr_key key.
End format.

(** * Levels, categories, booleans and users, and the loop over the symbol tables
    (libsepol/src/policydb.c, conditional.c, write.c) *)

Open Scope writer_scope.

(** ** Levels and ranges *)

Definition mls_level_init : mls_level := MlsLevel 0 ebitmap_init.
Definition mls_range_init : mls_range := MlsRange mls_level_init mls_level_init.
Definition mls_semantic_level_init : mls_semantic_level := SemanticLevel [] 0.
Definition mls_semantic_range_init : mls_semantic_range :=
  SemanticRange mls_semantic_level_init mls_semantic_level_init.

Definition mls_level_eq (l1 l2 : mls_level) : bool :=
  (sens l1 =? sens l2) && truthy (ebitmap_cmp (cat l1) (cat l2)).

(** With no item, [buf] still holds the number of items. *)
Definition mls_read_range_helper : reader mls_range :=
  hd ← rd_entry 4;
  let items := le32_at hd 0 in
  rd_require (negb (2 <? items));;
  buf ← rd_entry (4 * Z.to_nat items);
  let sens0 := le32_at (if items =? 0 then hd else buf) 0 in
  low ← rd_ebitmap;
  high ← (if 1 <? items then rd_ebitmap else rd_call (ebitmap_cpy low));
  mret (MlsRange (MlsLevel sens0 low) (MlsLevel (if 1 <? items then le32_at buf 1 else sens0) high)).

Definition mls_read_level : reader mls_level :=
  buf ← rd_entry 4;
  cat ← rd_ebitmap;
  mret (MlsLevel (le32_at buf 0) cat).

Definition mls_write_level (l : mls_level) : writer := wr_words [sens l];;; wr_ebitmap (cat l).

Definition mls_write_range_helper (r : mls_range) : writer :=
  let eq := mls_level_eq (level_high r) (level_low r) in
  wr_words (if eq then [1; sens (level_low r)] else [2; sens (level_low r); sens (level_high r)]);;;
  wr_ebitmap (cat (level_low r));;;
  (if eq then wr_ret else wr_ebitmap (cat (level_high r))).

(** Semantic levels, of modules; a category that is read goes to the front. *)
Definition read_semantic_cat (l : list mls_semantic_cat) : reader (list mls_semantic_cat) :=
  rd_alloc;;
  buf ← rd_entry 8;
  mret (SemanticCat (le32_at buf 0) (le32_at buf 1) :: l).

Definition mls_read_semantic_level_helper : reader mls_semantic_level :=
  buf ← rd_entry 8;
  l ← rd_loop (Z.to_nat (le32_at buf 1)) read_semantic_cat [];
  mret (SemanticLevel l (le32_at buf 0)).

Definition mls_read_semantic_range_helper : reader mls_semantic_range :=
  low ← mls_read_semantic_level_helper;
  high ← mls_read_semantic_level_helper;
  mret (SemanticRange low high).

Definition mls_write_semantic_level_helper (l : mls_semantic_level) : writer :=
  wr_words [sem_sens l; Z.of_nat (length (sem_cat l))];;;
  wr_each (fun c => wr_words [cat_low c; cat_high c]) (sem_cat l).

Definition mls_write_semantic_range_helper (r : mls_semantic_range) : writer :=
  mls_write_semantic_level_helper (sem_low r);;; mls_write_semantic_level_helper (sem_high r).

(** The loop of [mls_level_to_semantic] over all bits of a bitmap; [open] says that the
    first of [cats] is [open_cat].  [None] is lack of fuel, the first result -1 a failed
    allocation. *)
Definition close_cat (cats : list mls_semantic_cat) (i : Z) : list mls_semantic_cat :=
  match cats with
  | c :: cats' => SemanticCat (cat_low c) i :: cats'
  | [] => []
  end.

Fixpoint semantic_loop (fuel : nat) (e : ebitmap) (n : list ebitmap_node) (i : Z)
    (cats : list mls_semantic_cat) (open : bool) (o : oracle) :
    option (Z * list mls_semantic_cat * oracle) :=
  if negb (i <? ebitmap_length e) then Some (0, if open then close_cat cats i else cats, o)
  else
    match fuel with
    | O => None
    | S fuel' =>
        let '(n', i') := ebitmap_next n i in
        if ebitmap_node_get_bit n i then
          if open then semantic_loop fuel' e n' i' cats open o
          else
            let (ok, o) := malloc o in
            if ok then semantic_loop fuel' e n' i' (SemanticCat (u32 (i + 1)) 0 :: cats) true o
            else Some (-1, cats, o)
        else semantic_loop fuel' e n' i' (if open then close_cat cats i else cats) false o
    end.

Definition mls_level_to_semantic (l : mls_level) : reader mls_semantic_level := fun fp o =>
  match semantic_loop (length (node (cat l)) * 64) (cat l) (node (cat l)) (ebitmap_startbit (cat l)) [] false o with
  | Some (0, cats, o) => Some (SemanticLevel cats (sens l), fp, o)
  | _ => None
  end.

Definition mls_range_to_semantic (r : mls_range) : reader mls_semantic_range :=
  low ← mls_level_to_semantic (level_low r);
  high ← mls_level_to_semantic (level_high r);
  mret (SemanticRange low high).

(** ** Sensitivities and categories *)

Definition sens_read (h : symbols level_datum) : reader (symbols level_datum) :=
  rd_alloc;;
  buf ← rd_entry 8;
  key ← str_read (le32_at buf 0);
  rd_alloc;;
  l ← mls_read_level;
  rd_call (hashtab_insert h key (LevelDatum (Some l) (u8 (le32_at buf 1)) 0)).

Definition sens_write (key : list Z) (levdatum : level_datum) : writer :=
  wr_words [Z.of_nat (length key); lev_isalias levdatum];;;
  wr_key key;;;
  (match level levdatum with Some l => mls_write_level l | None => wr_fail end).

Definition cat_read (h : symbols cat_datum) : reader (symbols cat_datum) :=
  rd_alloc;;
  buf ← rd_entry 12;
  key ← str_read (le32_at buf 0);
  rd_call (hashtab_insert h key (CatDatum (le32_at buf 1) (u8 (le32_at buf 2)))).

Definition cat_write (key : list Z) (catdatum : cat_datum) : writer :=
  wr_words [Z.of_nat (length key); cat_value catdatum; cat_isalias catdatum];;; wr_key key.

Section format.
Context (kind vers : Z).

(** ** Booleans *)

Definition bool_isvalid (state : Z) : bool := (state =? 0) || (state =? 1).

Definition has_tunables : bool := negb (kern kind) && (MOD_POLICYDB_VERSION_TUNABLE_SEP <=? vers).

Definition read_bool_flags : reader Z :=
  if has_tunables then buf ← rd_entry 4; mret (le32_at buf 0) else mret 0.

Definition cond_read_bool (h : symbols cond_bool_datum) : reader (symbols cond_bool_datum) :=
  rd_alloc;;
  buf ← rd_entry 12;
  rd_require (bool_isvalid (le32_at buf 1));;
  key ← str_read (le32_at buf 2);
  flags ← read_bool_flags;
  rd_call (hashtab_insert h key (BoolDatum (le32_at buf 0) (le32_at buf 1) flags)).

Definition cond_write_bool (key : list Z) (booldatum : cond_bool_datum) : writer :=
  wr_words [bool_value booldatum; bool_state booldatum; Z.of_nat (length key)];;;
  wr_key key;;;
  (if has_tunables then wr_words [bool_flags booldatum] else wr_ret).

(** ** Users *)

Definition read_user_roles : reader role_set :=
  if kern kind then roles ← rd_ebitmap; mret (RoleSet roles 0) else role_set_read.

(** Which form of levels the policy has. *)
Definition module_between (a b : Z) : bool :=
  ((kind =? POLICY_MOD) || (kind =? POLICY_BASE)) && (a <=? vers) && (vers <? b).

Definition expanded_levels : bool :=
  kern kind && (POLICYDB_VERSION_MLS <=? vers) ||
  module_between MOD_POLICYDB_VERSION_MLS MOD_POLICYDB_VERSION_MLS_USERS.

Definition semantic_levels : bool :=
  ((kind =? POLICY_MOD) || (kind =? POLICY_BASE)) && (MOD_POLICYDB_VERSION_MLS_USERS <=? vers).

(** [range], [dfltlevel], [exp_range] and [exp_dfltlevel]. *)
Definition read_user_levels : reader (mls_semantic_range * mls_semantic_level * mls_range * mls_level) :=
  if expanded_levels then
    range ← mls_read_range_helper;
    level ← mls_read_level;
    if kern kind then mret (mls_semantic_range_init, mls_semantic_level_init, range, level)
    else
      srange ← mls_range_to_semantic range;
      slevel ← mls_level_to_semantic level;
      mret (srange, slevel, range, level)
  else if semantic_levels then
    srange ← mls_read_semantic_range_helper;
    slevel ← mls_read_semantic_level_helper;
    mret (srange, slevel, mls_range_init, mls_level_init)
  else mret (mls_semantic_range_init, mls_semantic_level_init, mls_range_init, mls_level_init).

Definition user_read (h : symbols user_datum) : reader (symbols user_datum) :=
  let boundary := policydb_has_boundary_feature kind vers in
  rd_alloc;;
  buf ← rd_entry (if boundary then 12 else 8);
  key ← str_read (le32_at buf 0);
  roles ← read_user_roles;
  levels ← read_user_levels;
  let '(srange, slevel, range, level) := levels in
  rd_call (hashtab_insert h key
    (UserDatum (le32_at buf 1) roles srange slevel ebitmap_init range level
       (if boundary then le32_at buf 2 else 0))).

Definition user_write (key : list Z) (u : user_datum) : writer :=
  wr_words ([Z.of_nat (length key); us_value u] ++
            if policydb_has_boundary_feature kind vers then [us_bounds u] else []);;;
  wr_key key;;;
  (if kern kind then wr_ebitmap (rs_roles (us_roles u)) else role_set_write (us_roles u));;;
  (if expanded_levels then mls_write_range_helper (exp_range u);;; mls_write_level (exp_dfltlevel u)
   else if semantic_levels then
     mls_write_semantic_range_helper (us_range u);;; mls_write_semantic_level_helper (dfltlevel u)
   else wr_ret).

(** ** The symbol tables *)

(** A table: its numbers, then its symbols. *)
Definition rd_available (n size : Z) : reader unit := fun fp o =>
  if (n =? UINT32_MAX) || exceeds_available_bytes fp n size then None else Some ((), fp, o).

Definition read_symtab {D} (read_f : symbols D -> reader (symbols D)) (s : symtab D) : reader (symtab D) :=
  buf ← rd_entry 8;
  let nprim := le32_at buf 0 in
  rd_available nprim 12;;
  let nel := le32_at buf 1 in
  rd_require (negb (truthy nel && negb (truthy nprim)));;
  t ← rd_loop (Z.to_nat nel) read_f (table s);
  mret (Symtab t nprim).

(** [uncount] is the function given to [hashtab_map] that counts down for each datum that
    is not stored. *)
Definition uncount {D} (skipped : D -> bool) (h : symbols D) (nel : Z) : Z :=
  (hashtab_map h (fun _ d n => (0, if skipped d then u32 (n - 1) else n)) nel).2.

Definition write_symtab {D} (skipped : D -> bool) (write_f : list Z -> D -> writer) (s : symtab D) : writer :=
  match table s with
  | None => wr_fail
  | Some t => wr_words [nprim s; uncount skipped (Some t) (nel t)];;; wr_map write_f (Some t)
  end.

(** [read_f[i]] and [write_f[i]] for the [i] below [info->sym_num]. *)
Definition rd_table {D} (sym_num i : nat) (read_f : symbols D -> reader (symbols D)) (s : symtab D) :
    reader (symtab D) :=
  if (i <? sym_num)%nat then read_symtab read_f s else mret s.

Definition wr_table {D} (sym_num i : nat) (skipped : D -> bool) (write_f : list Z -> D -> writer)
    (s : symtab D) : writer :=
  if (i <? sym_num)%nat then write_symtab skipped write_f s else wr_ret.

Definition read_symtabs (sym_num : nat) (st : symtabs) : reader symtabs :=
  commons ← rd_table sym_num 0 common_read (sym_commons st);
  classes ← rd_table sym_num 1 (class_read kind vers (table commons)) (sym_classes st);
  roles ← rd_table sym_num 2 (role_read kind vers) (sym_roles st);
  types ← rd_table sym_num 3 (type_read kind vers) (sym_types st);
  users ← rd_table sym_num 4 user_read (sym_users st);
  bools ← rd_table sym_num 5 cond_read_bool (sym_bools st);
  levels ← rd_table sym_num 6 sens_read (sym_levels st);
  cats ← rd_table sym_num 7 cat_read (sym_cats st);
  mret (Symtabs commons classes roles types users bools levels cats).

Definition write_symtabs (sym_num : nat) (st : symtabs) : writer :=
  wr_table sym_num 0 (fun _ => false) common_write (sym_commons st);;;
  wr_table sym_num 1 (fun _ => false) (class_write kind vers) (sym_classes st);;;
  wr_table sym_num 2 (role_skipped kind vers) (role_write kind vers) (sym_roles st);;;
  wr_table sym_num 3 (type_skipped kind vers) (type_write kind vers) (sym_types st);;;
  wr_table sym_num 4 (fun _ => false) user_write (sym_users st);;;
  wr_table sym_num 5 (fun _ => false) cond_write_bool (sym_bools st);;;
  wr_table sym_num 6 (fun _ => false) sens_write (sym_levels st);;;
  wr_table sym_num 7 (fun _ => false) cat_write (sym_cats st).
End format.
