(* ===== verification/CodecTable.v ===== *)
(** * Hash tables as records: reading the entries of a table one after the other

    The records of a table are read by a loop whose body reads one record and inserts it.
    The lemmas relate the table that was written and the table that was read entry by
    entry, by a relation on data: a datum may hold tables of its own, whose arrays differ
    although they have the same entries. *)

From S2P Require Import Prelude Policyfile Hashtab HashtabSpec Symtab Codec Policydb Symbols.

(** ** Streams with enough bytes *)

Lemma reads_length fp bs fp' :
  reads fp bs fp' -> pf_type fp = PF_USE_MEMORY -> Z.of_nat (length bs) <= pf_len fp.
Proof.
  intros (rest & Hd & _ & _ & _ & [[Ht _]|(_ & -> & _)]) Hm; [by rewrite Ht in Hm|]. rewrite Hd, length_app. lia.
Qed.

Lemma decodes_available {A} n size (r : reader A) bs a :
  0 <= n < UINT32_MAX -> 0 <= size < 2 ^ 32 -> n * size <= Z.of_nat (length bs) ->
  decodes r bs a -> decodes (rd_available n size;; r) bs a.
Proof.
  intros Hn Hs Hl Hr fp fp' Hrd. unfold mbind, reader_bind, rd_available.
  destruct (Z.eqb_spec n UINT32_MAX); [lia|]. unfold exceeds_available_bytes.
  destruct (Z.eqb_spec (pf_type fp) PF_USE_MEMORY) as [Hm|]; cbn [negb orb]; [|by apply Hr].
  pose proof (reads_length _ _ _ Hrd Hm). unfold UINT32_MAX in *.
  destruct (Z.leb_spec (2 ^ 64) (n * size)); [nia|]. case_Z; [lia|]. by apply Hr.
Qed.

Lemma accepts_available n size : accepts (rd_available n size) (fun _ => True).
Proof. intros fp o a fp' o' Hb. unfold rd_available. destruct (_ || _); [done|]. by intros [= <- <- <-]. Qed.

(** ** The entries of a table *)

Section table.
Context {K D : Type} {ops : HashOps K} (key_ok : K -> Prop) {laws : HashLaws K key_ok}.
Context `{Countable K}.
Abbreviation hnode := (hashtab_node K D).
Abbreviation hashtab := (hashtab_val K D).

(** [read] reads a record and inserts it; records of keys that are not [kept] leave the
    table as it is.  [R] relates a datum and the one that is read. *)
Context (read : option hashtab -> reader (option hashtab)) (bytes : K -> D -> list Z).
Context (ok : K -> D -> Prop) (kept : K -> bool) (R : D -> D -> Prop).

Hypothesis read_kept : forall h k d,
  hashtab_wf key_ok h -> hashtab_model h !! k = None -> nel h < UINT32_MAX -> ok k d -> kept k = true ->
  exists h' d', decodes (read (Some h)) (bytes k d) (Some h') /\ R d d' /\
    hashtab_wf key_ok h' /\ hashtab_model h' = <[k := d']> (hashtab_model h).

Hypothesis read_dropped : forall h k d,
  hashtab_wf key_ok h -> ok k d -> kept k = false -> decodes (read (Some h)) (bytes k d) (Some h).

Definition reread_node (n n' : hnode) : Prop := hkey n' = hkey n /\ R (hdatum n) (hdatum n').

Abbreviation kept_nodes l := (filter (fun n => Is_true (kept (hkey n))) l).

Lemma nel_union (h : hashtab) (l : list hnode) m0 :
  hashtab_wf key_ok h -> hashtab_model h = list_to_map (pairs l) ∪ m0 ->
  nel h <= Z.of_nat (length l) + Z.of_nat (size m0).
Proof.
  intros Hw Hm. rewrite (nel_size key_ok h Hw), Hm.
  assert (Hs : forall m1 m2 : gmap K D, (size (m1 ∪ m2) <= size m1 + size m2)%nat).
  { intros m1 m2. induction m1 as [|k d m1 Hk IH] using map_ind; [by rewrite (left_id_L ∅ (∪))|].
    rewrite <-insert_union_l, map_size_insert, map_size_insert_None by done.
    destruct ((m1 ∪ m2) !! k); simpl; lia. }
  specialize (Hs (list_to_map (pairs l)) m0).
  assert (Hl : (size (list_to_map (pairs l) : gmap K D) <= length l)%nat).
  { clear. induction l as [|n l IH]; [cbn; by rewrite map_size_empty|].
    change (pairs (n :: l)) with ((hkey n, hdatum n) :: pairs l). rewrite list_to_map_cons, map_size_insert.
    destruct (_ !! _); simpl; unfold id; lia. }
  lia.
Qed.

Lemma decodes_entries (l : list hnode) (h0 : hashtab) :
  hashtab_wf key_ok h0 -> NoDup (hkey <$> l) ->
  (forall n, n ∈ l -> kept (hkey n) = true -> hashtab_model h0 !! hkey n = None) ->
  Z.of_nat (length l) + nel h0 <= UINT32_MAX ->
  Forall (fun n => ok (hkey n) (hdatum n)) l ->
  exists h' l', decodes (rd_loop (length l) read (Some h0)) (entries_bytes bytes l) (Some h') /\
    hashtab_wf key_ok h' /\ Forall2 reread_node (kept_nodes l) l' /\
    hashtab_model h' = list_to_map (pairs l') ∪ hashtab_model h0.
Proof.
  intros Hw0 Hnd Hnew Hlen Hok. rewrite (nel_size key_ok h0 Hw0) in Hlen.
  destruct (decodes_loop read (fun n => bytes (hkey n) (hdatum n))
    (fun pre s => exists h l', s = Some h /\ hashtab_wf key_ok h /\ Forall2 reread_node (kept_nodes pre) l' /\
       hashtab_model h = list_to_map (pairs l') ∪ hashtab_model h0) l (Some h0)) as (s & Hd & h & l' & -> & Hw & HF & Hm).
  - exists h0, []. split_and!; try done. change (list_to_map (pairs [])) with (∅ : gmap K D). by rewrite (left_id_L ∅ (∪)).
  - intros pre n post s Hl (h & l' & -> & Hw & HF & Hm). rewrite Hl in Hnd, Hnew, Hlen, Hok.
    apply Forall_app in Hok as [_ [Hn _]%Forall_cons]. rewrite filter_app, filter_cons.
    destruct (kept (hkey n)) eqn:Hk.
    + assert (Hkeys : hkey <$> l' = hkey <$> kept_nodes pre).
      { clear -HF. induction HF as [|a b la lb [Hab _] HF IH]; [done|]. by rewrite !fmap_cons, Hab, IH. }
      assert (Hni : hkey n ∉ (hkey <$> l')).
      { rewrite Hkeys. intros (a & Ha & [_ Hin]%list_elem_of_filter)%list_elem_of_fmap.
        rewrite fmap_app, NoDup_app in Hnd. destruct Hnd as (_ & Hd & _).
        apply (Hd (hkey n)); [rewrite Ha; by apply list_elem_of_fmap_2|by left]. }
      assert (Hnone : hashtab_model h !! hkey n = None).
      { rewrite Hm. apply lookup_union_None. split.
        - apply not_elem_of_list_to_map_1. by rewrite pairs_keys.
        - apply Hnew; [|done]. apply elem_of_app. right. by left. }
      assert (Hlt : nel h < UINT32_MAX).
      { pose proof (nel_union h l' _ Hw Hm) as Hb. apply Forall2_length in HF.
        pose proof (length_filter (fun n => Is_true (kept (hkey n))) pre) as Hf.
        rewrite length_app in Hlen. simpl in Hlen. lia. }
      destruct (read_kept h (hkey n) (hdatum n) Hw Hnone Hlt Hn Hk) as (h' & d' & Hd & HR & Hw' & Hm').
      exists (Some h'). split; [exact Hd|]. exists h', (l' ++ [HNode (hkey n) d']). split_and!; try done.
      * rewrite decide_True by exact I. rewrite filter_nil. apply Forall2_app; [done|]. by repeat constructor.
      * rewrite Hm', Hm. destruct (pairs_snoc l' (HNode (hkey n) d')) as [_ ->].
        { rewrite fmap_app. apply NoDup_app. split_and!; [|by intros x Hx ->%list_elem_of_singleton|by apply NoDup_singleton].
          rewrite Hkeys. rewrite fmap_app, NoDup_app in Hnd. destruct Hnd as (Hnd & _).
          eapply sublist_NoDup; [exact Hnd|]. apply (fmap_sublist hkey), sublist_filter. }
        by rewrite insert_union_l.
    + exists (Some h). split; [by apply read_dropped|]. exists h, l'. split_and!; try done.
      rewrite decide_False by (intros []). by rewrite filter_nil, app_nil_r.
  - by exists h, l'.
Qed.
End table.

(** ** Symbol tables *)

Lemma hashtab_map_fold {K D A} (f : K -> D -> A -> Z * A) (h : hashtab_val K D) a :
  (forall k d a, (f k d a).1 = 0) ->
  hashtab_map (Some h) f a = (0, foldl (fun a n => (f (hkey n) (hdatum n) a).2) a (concat (htable h))).
Proof.
  intros Hf. cbn [hashtab_map].
  assert (Hc : forall c a, map_chain f c a = (0, foldl (fun a n => (f (hkey n) (hdatum n) a).2) a c)).
  { induction c as [|n c IH]; intros b; cbn [map_chain foldl]; [done|].
    specialize (Hf (hkey n) (hdatum n) b). destruct (f (hkey n) (hdatum n) b) as [rc b']. cbn in Hf. subst rc. apply IH. }
  revert a. induction (htable h) as [|c t IH]; intros a; cbn [map_table concat]; [done|].
  rewrite Hc. cbn. by rewrite IH, foldl_app.
Qed.

Lemma uncount_none {D} (skipped : D -> bool) (h : hashtab_val (list Z) D) n :
  Forall (fun x => skipped (hdatum x) = false) (concat (htable h)) -> uncount skipped (Some h) n = n.
Proof.
  intros Hf. unfold uncount. rewrite hashtab_map_fold by done. cbn [snd].
  induction Hf as [|x l Hx Hl IH]; cbn [foldl]; [done|]. by rewrite Hx.
Qed.

(** The symbols a policy can hold have a name. *)
Definition key_fits32 (k : list Z) : Prop := cstring_ok k /\ k <> [] /\ Z.of_nat (length k) < 2 ^ 32.

(** Each entry of [t] has its counterpart in [t']. *)
Definition table_rel {D D'} (R : D -> D' -> Prop) (t : hashtab_val (list Z) D) (t' : hashtab_val (list Z) D') : Prop :=
  forall k, option_Forall2 R (hashtab_model t !! k) (hashtab_model t' !! k).

Section symtab.
Context {D : Type} (read : symbols D -> reader (symbols D)) (write : list Z -> D -> writer).
Context (bytes : list Z -> D -> list Z) (ok : list Z -> D -> Prop).
Context (kept : list Z -> bool) (R : D -> D -> Prop) (skipped : D -> bool).

Record symbol_codec : Prop := {
  sc_key : forall k d, ok k d -> cstring_ok k;
  sc_size : forall k d, ok k d -> 12 <= Z.of_nat (length (bytes k d));
  sc_stored : forall k d, ok k d -> skipped d = false;
  sc_emits : forall k d, ok k d -> emits (write k d) (bytes k d);
  sc_kept : forall h k d, hashtab_wf cstring_ok h -> hashtab_model h !! k = None -> nel h < UINT32_MAX ->
    ok k d -> kept k = true ->
    exists h' d', decodes (read (Some h)) (bytes k d) (Some h') /\ R d d' /\
      hashtab_wf cstring_ok h' /\ hashtab_model h' = <[k := d']> (hashtab_model h);
  sc_dropped : forall h k d, hashtab_wf cstring_ok h -> ok k d -> kept k = false ->
    decodes (read (Some h)) (bytes k d) (Some h)
}.
Hypothesis Hcodec : symbol_codec.

(** A table whose symbols can be stored and that has a symbol for each value. *)
Definition symtab_ok (s : symtab D) : Prop :=
  exists h, table s = Some h /\ hashtab_wf cstring_ok h /\ map_Forall ok (hashtab_model h) /\
    0 <= nprim s <= nel h /\ nel h < UINT32_MAX /\ (nprim s = 0 -> nel h = 0).

Definition symtab_bytes (s : symtab D) : list Z :=
  match table s with
  | None => []
  | Some h => words [nprim s; nel h] ++ entries_bytes bytes (concat (htable h))
  end.

(** [s'] was read from what was written for [s], into the table [h0]. *)
Definition symtab_read (h0 : hashtab_val (list Z) D) (s s' : symtab D) : Prop :=
  nprim s' = nprim s /\
  exists h h', table s = Some h /\ table s' = Some h' /\ hashtab_wf cstring_ok h' /\
    forall k, if kept k then option_Forall2 R (hashtab_model h !! k) (hashtab_model h' !! k)
              else hashtab_model h' !! k = hashtab_model h0 !! k.

Lemma emits_symtab s : symtab_ok s -> emits (write_symtab skipped write s) (symtab_bytes s).
Proof.
  intros (h & Ht & Hw & Hok & _). unfold write_symtab, symtab_bytes. rewrite Ht.
  pose proof (table_nodes cstring_ok ok h Hw Hok) as Hn. rewrite uncount_none.
  - apply emits_seq; [apply emits_words; simpl; lia|]. apply emits_map.
    eapply Forall_impl; [exact Hn|]. intros n. apply (sc_emits Hcodec).
  - eapply Forall_impl; [exact Hn|]. intros n. apply (sc_stored Hcodec).
Qed.

Lemma length_entries (l : list (hashtab_node (list Z) D)) :
  Forall (fun n => ok (hkey n) (hdatum n)) l ->
  12 * Z.of_nat (length l) <= Z.of_nat (length (entries_bytes bytes l)).
Proof.
  unfold entries_bytes. induction 1 as [|n l Hn Hl IH]; [done|]. cbn [map concat length].
  rewrite length_app. pose proof (sc_size Hcodec _ _ Hn). lia.
Qed.

Lemma kept_model (l l' : list (hashtab_node (list Z) D)) (m0 : gmap (list Z) D) k :
  NoDup (hkey <$> l) -> (forall k', kept k' = true -> m0 !! k' = None) ->
  Forall2 (reread_node R) (filter (fun n => Is_true (kept (hkey n))) l) l' ->
  if kept k then option_Forall2 R ((list_to_map (pairs l) : gmap (list Z) D) !! k) ((list_to_map (pairs l') ∪ m0) !! k)
  else (list_to_map (pairs l') ∪ m0) !! k = m0 !! k.
Proof.
  intros Hnd Hm0. revert l'. induction l as [|n l IH]; intros l' HF.
  { inversion HF; subst. change (list_to_map (pairs [])) with (∅ : gmap (list Z) D).
    rewrite (left_id_L ∅ (∪)). destruct (kept k) eqn:Hk; [|done]. rewrite Hm0 by done. constructor. }
  rewrite fmap_cons in Hnd. apply NoDup_cons in Hnd as [Hn Hnd]. rewrite filter_cons in HF.
  change (pairs (n :: l)) with ((hkey n, hdatum n) :: pairs l). rewrite list_to_map_cons.
  destruct (kept (hkey n)) eqn:Hkn.
  - rewrite decide_True in HF by exact I. inversion HF as [|? n' ? l1 [Hkey HR] HF1]; subst.
    change (pairs (n' :: l1)) with ((hkey n', hdatum n') :: pairs l1).
    rewrite list_to_map_cons, Hkey, <-insert_union_l. specialize (IH Hnd l1 HF1).
    destruct (decide (k = hkey n)) as [->|Hne].
    + rewrite Hkn, !lookup_insert_eq. by constructor.
    + by rewrite !lookup_insert_ne.
  - rewrite decide_False in HF by (intros []). specialize (IH Hnd l' HF).
    destruct (kept k) eqn:Hk; [|done]. rewrite lookup_insert_ne; [done|]. congruence.
Qed.

Lemma decodes_symtab s s0 h0 :
  symtab_ok s -> table s0 = Some h0 -> hashtab_wf cstring_ok h0 ->
  (forall k, kept k = true -> hashtab_model h0 !! k = None) ->
  (forall h, table s = Some h -> nel h + nel h0 <= UINT32_MAX) ->
  exists s', decodes (read_symtab read s0) (symtab_bytes s) s' /\ symtab_read h0 s s'.
Proof.
  intros (h & Ht & Hw & Hok & Hnp & Hnel & Hz) Ht0 Hw0 Hm0 Hsum. specialize (Hsum h Ht).
  pose proof (table_nodes cstring_ok ok h Hw Hok) as Hn. destruct (table_length cstring_ok h Hw) as [Hl _].
  assert (Hnd : NoDup (hkey <$> concat (htable h))) by (eapply (table_keys_NoDup cstring_ok), Hw).
  destruct (decodes_entries cstring_ok read bytes ok kept R (sc_kept Hcodec) (sc_dropped Hcodec)
    (concat (htable h)) h0 Hw0 Hnd) as (h' & l' & Hd & Hw' & HF & Hm'); [|lia|done|].
  { intros n _ Hk. by apply Hm0. }
  unfold read_symtab, symtab_bytes. rewrite Ht, Ht0. exists (Symtab (Some h') (nprim s)). split.
  - unfold UINT32_MAX in *. eapply decodes_bind; [by apply (decodes_words 2)|].
    rewrite le32_next, !le32_first by lia. cbn zeta. pose proof (length_entries _ Hn).
    apply decodes_available; [unfold UINT32_MAX; lia|lia|lia|].
    eapply decodes_step; [apply decodes_require|].
    { unfold truthy. destruct (Z.eqb_spec (nel h) 0), (Z.eqb_spec (nprim s) 0); simpl; lia || done. }
    rewrite <-(app_nil_r (entries_bytes _ _)). rewrite <-Hl, Nat2Z.id.
    eapply decodes_bind; [exact Hd|]. apply decodes_ret.
  - split; [done|]. exists h, h'. split_and!; try done. intros k. rewrite Hm'. by apply kept_model.
Qed.
End symtab.
