(* ===== verification/SymbolsCodec.v ===== *)
(** * The symbols of a kernel policy: their bytes, and reading them back *)

From S2P Require Import Prelude Policyfile Ebitmap EbitmapSpec EbitmapQuery EbitmapUpdate EbitmapProps Hashtab HashtabSpec Symtab Codec Policydb.
From S2P Require Import Symbols CodecTable.

Definition word (x : Z) : Prop := 0 <= x < 2 ^ 32.

Definition every {K} (_ : K) : bool := true.
Definition none {D} (_ : D) : bool := false.

(** ** Shared steps *)

Lemma emits_key k : key_fits32 k -> emits (wr_key k) k.
Proof. intros (_ & _ & Hl). apply emits_put; lia. Qed.

Lemma decodes_key k : key_fits32 k -> decodes (str_read (Z.of_nat (length k))) k k.
Proof. intros (Hk & Hne & Hl). by apply decodes_str. Qed.

Lemma key_length k : key_fits32 k -> 0 < Z.of_nat (length k) < 2 ^ 32.
Proof. intros (_ & Hne & Hl). split; [|done]. destruct k; [done|simpl; lia]. Qed.

(** Inserting under a new name. *)
Lemma decodes_insert {D} (h : hashtab_val (list Z) D) k d :
  hashtab_wf cstring_ok h -> cstring_ok k -> hashtab_model h !! k = None -> nel h < UINT32_MAX ->
  exists h', decodes (rd_call (hashtab_insert (Some h) k d)) [] (Some h') /\
    hashtab_wf cstring_ok h' /\ hashtab_model h' = <[k := d]> (hashtab_model h).
Proof.
  intros Hw Hk Hn Hl. destruct (hashtab_insert_new cstring_ok h k d Hw Hk Hn Hl) as (h' & E & Hw' & Hm).
  exists h'. split; [by apply decodes_call|done].
Qed.

(** ** Permissions *)

Definition perm_ok (np : Z) (k : list Z) (d : perm_datum) : Prop :=
  key_fits32 k /\ 1 <= perm_value d <= np.

Definition perm_bytes (k : list Z) (d : perm_datum) : list Z :=
  words [Z.of_nat (length k); perm_value d] ++ k.

Lemma emits_perm np k d : perm_ok np k d -> emits (perm_write k d) (perm_bytes k d).
Proof. intros [Hk _]. apply emits_seq; [apply emits_words; simpl; lia|by apply emits_key]. Qed.

Lemma decodes_perm np h k d :
  np < 2 ^ 32 -> hashtab_wf cstring_ok h -> hashtab_model h !! k = None -> nel h < UINT32_MAX -> perm_ok np k d ->
  exists h', decodes (perm_read np (Some h)) (perm_bytes k d) (Some h') /\
    hashtab_wf cstring_ok h' /\ hashtab_model h' = <[k := d]> (hashtab_model h).
Proof.
  intros Hnp Hw Hn Hl [Hk Hv]. pose proof (key_length k Hk).
  destruct (decodes_insert h k d Hw (proj1 Hk) Hn Hl) as (h' & Hd & H'). exists h'. split; [|done].
  unfold perm_read, perm_bytes. eapply decodes_step; [apply decodes_alloc|].
  eapply decodes_bind; [by apply (decodes_words 2)|]. rewrite le32_next, !le32_first by lia.
  rewrite <-(app_nil_r k) at 2. eapply decodes_bind; [by apply decodes_key|].
  eapply decodes_step; [apply decodes_require; unfold value_isvalid; repeat case_Z; lia || done|].
  by destruct d.
Qed.

(** Tables of permissions that have the same symbols. *)
Definition perms_ok (s : symtab perm_datum) : Prop :=
  exists t, table s = Some t /\ hashtab_wf cstring_ok t /\ map_Forall (perm_ok (nprim s)) (hashtab_model t) /\
    0 <= nprim s <= PERM_SYMTAB_SIZE.

Definition perms_same (s s' : symtab perm_datum) : Prop :=
  nprim s' = nprim s /\ exists t t', table s = Some t /\ table s' = Some t' /\
    hashtab_wf cstring_ok t' /\ hashtab_model t' = hashtab_model t.

Definition perms_bytes (t : hashtab_val (list Z) perm_datum) : list Z :=
  entries_bytes perm_bytes (concat (htable t)).

Lemma emits_perms np t :
  hashtab_wf cstring_ok t -> map_Forall (perm_ok np) (hashtab_model t) ->
  emits (wr_map perm_write (Some t)) (perms_bytes t).
Proof.
  intros Hw Hok. apply emits_map. eapply Forall_impl; [by apply (table_nodes cstring_ok _ t Hw Hok)|].
  intros n. apply emits_perm.
Qed.

Lemma symtab_init_spec {D} : exists t : hashtab_val (list Z) D,
  symtab_init (Symtab None 0) PERM_SYMTAB_SIZE [] = (0, Symtab (Some t) 0, []) /\
  hashtab_wf cstring_ok t /\ hashtab_model t = ∅ /\ nel t = 0.
Proof.
  exists (Hashtab (replicate 32 []) 32 0). split; [reflexivity|]. split_and!.
  - split_and!; simpl; try done. by apply (table_wf_empty cstring_ok 32).
  - reflexivity.
  - done.
Qed.

Lemma decodes_perms np t t0 :
  np < 2 ^ 32 -> hashtab_wf cstring_ok t -> map_Forall (perm_ok np) (hashtab_model t) ->
  hashtab_wf cstring_ok t0 -> hashtab_model t0 = ∅ -> nel t0 = 0 ->
  exists t', decodes (rd_loop (Z.to_nat (nel t)) (perm_read np) (Some t0)) (perms_bytes t) (Some t') /\
    hashtab_wf cstring_ok t' /\ hashtab_model t' = hashtab_model t.
Proof.
  intros Hnp Hw Hok Hw0 Hm0 Hn0. destruct (table_length cstring_ok t Hw) as [Hl Hlt].
  destruct (decodes_entries cstring_ok (perm_read np) perm_bytes (perm_ok np) every eq) with (l := concat (htable t)) (h0 := t0)
    as (t' & l' & Hd & Hw' & HF & Hm').
  - intros h k d Hwh Hn Hnel Hk _. destruct (decodes_perm np h k d Hnp Hwh Hn Hnel Hk) as (h' & ? & ? & ?). by exists h', d.
  - done.
  - done.
  - eapply (table_keys_NoDup cstring_ok), Hw.
  - intros n _ _. by rewrite Hm0, lookup_empty.
  - lia.
  - by apply (table_nodes cstring_ok).
  - exists t'. rewrite <-Hl, Nat2Z.id. split_and!; [done|done|]. rewrite Hm', Hm0. apply map_eq. intros k.
    assert (Hk : option_Forall2 eq (hashtab_model t !! k) ((list_to_map (pairs l') ∪ ∅ : gmap (list Z) perm_datum) !! k)).
    { apply (kept_model every eq (concat (htable t)) l' ∅ k); [eapply (table_keys_NoDup cstring_ok), Hw|done|done]. }
    by destruct Hk as [d d' ->|].
Qed.

Lemma nel_perms (t : hashtab_val (list Z) perm_datum) : hashtab_wf cstring_ok t -> 0 <= nel t < 2 ^ 32.
Proof. intros (_ & Hn & Hlt). lia. Qed.

(** ** Commons *)

Definition common_ok (k : list Z) (c : common_datum) : Prop :=
  key_fits32 k /\ word (com_value c) /\ perms_ok (com_permissions c).

Definition common_rel (c c' : common_datum) : Prop :=
  com_value c' = com_value c /\ perms_same (com_permissions c) (com_permissions c').

Definition common_bytes (k : list Z) (c : common_datum) : list Z :=
  match table (com_permissions c) with
  | None => []
  | Some t =>
      words [Z.of_nat (length k); com_value c; nprim (com_permissions c); nel t] ++ k ++ perms_bytes t
  end.

Lemma common_codec : symbol_codec common_read common_write common_bytes common_ok every common_rel none.
Proof.
  split.
  - by intros k c ((? & _) & _).
  - intros k c (Hk & _ & t & Ht & _). unfold common_bytes. rewrite Ht, length_app, length_words_bytes. simpl length. lia.
  - done.
  - intros k c (Hk & Hv & t & Ht & Hw & Hok & _). unfold common_write, common_bytes. rewrite Ht.
    apply emits_seq; [apply emits_words; simpl; lia|]. apply emits_seq; [by apply emits_key|]. by eapply emits_perms.
  - intros h k c Hw Hn Hnel (Hk & Hv & t & Ht & Hwt & Hok & Hnp) _.
    destruct (@symtab_init_spec perm_datum) as (t0 & Ei & Hw0 & Hm0 & Hn0).
    unfold PERM_SYMTAB_SIZE in Hnp. unfold word in Hv.
    destruct (decodes_perms (nprim (com_permissions c)) t t0) as (t' & Hd & Hw' & Hm'); [lia|done..|].
    destruct (decodes_insert h k (CommonDatum (com_value c) (Symtab (Some t') (nprim (com_permissions c)))) Hw (proj1 Hk) Hn Hnel)
      as (h' & Hi & Hwh & Hmh).
    exists h', (CommonDatum (com_value c) (Symtab (Some t') (nprim (com_permissions c)))).
    split; [|split; [split; [done|]; split; [done|]; by exists t, t'|split; [exact Hwh|exact Hmh]]].
    unfold common_read, common_bytes. rewrite Ht. pose proof (key_length k Hk). pose proof (nel_perms t Hwt).
    eapply decodes_step; [apply decodes_alloc|]. eapply decodes_bind; [by apply (decodes_words 4)|].
    rewrite !le32_next, !le32_first by lia. eapply decodes_bind; [by apply decodes_key|].
    eapply decodes_step; [apply decodes_call; exact Ei|].
    eapply decodes_step; [apply decodes_require; unfold PERM_SYMTAB_SIZE; case_Z; lia || done|].
    rewrite <-(app_nil_r (perms_bytes t)). eapply decodes_bind; [exact Hd|exact Hi].
  - done.
Qed.

(** * Constraints: postfix expressions, their bytes, and reading them back

    A constraint is a list of expressions in postfix order.  The reader follows the depth
    of the stack on which they would be evaluated; the lists it accepts are exactly the
    postfix forms of trees that need no more than [CEXPR_MAXDEPTH] places. *)

(** ** Expression trees *)

Inductive cexpr :=
  | CLeaf (e : constraint_expr)
  | CNot (e : constraint_expr) (t : cexpr)
  | CBin (e : constraint_expr) (t1 t2 : cexpr).

Fixpoint postfix (t : cexpr) : list constraint_expr :=
  match t with
  | CLeaf e => [e]
  | CNot e t => postfix t ++ [e]
  | CBin e t1 t2 => postfix t1 ++ postfix t2 ++ [e]
  end.

(** Places of the stack that the evaluation needs. *)
Fixpoint stack_size (t : cexpr) : Z :=
  match t with
  | CLeaf _ => 1
  | CNot _ t => stack_size t
  | CBin _ t1 t2 => Z.max (stack_size t1) (1 + stack_size t2)
  end.

Fixpoint cexpr_wf (t : cexpr) : Prop :=
  match t with
  | CLeaf e => expr_type e = CEXPR_ATTR \/ expr_type e = CEXPR_NAMES
  | CNot e t => expr_type e = CEXPR_NOT /\ cexpr_wf t
  | CBin e t1 t2 => (expr_type e = CEXPR_AND \/ expr_type e = CEXPR_OR) /\ cexpr_wf t1 /\ cexpr_wf t2
  end.

Definition cons_valid (es : list constraint_expr) : Prop :=
  exists t, es = postfix t /\ cexpr_wf t /\ stack_size t <= CEXPR_MAXDEPTH.

(** The depth after an expression; [None] where the reader stops. *)
Definition depth_step (depth : Z) (type : Z) : option Z :=
  if type =? CEXPR_NOT then if depth <? 0 then None else Some depth
  else if (type =? CEXPR_AND) || (type =? CEXPR_OR) then if depth <? 1 then None else Some (depth - 1)
  else if (type =? CEXPR_ATTR) || (type =? CEXPR_NAMES) then
    if depth =? CEXPR_MAXDEPTH - 1 then None else Some (depth + 1)
  else None.

Definition depth_after (es : list constraint_expr) (depth : Z) : option Z :=
  foldl (fun d e => d ≫= fun d => depth_step d (expr_type e)) (Some depth) es.

Lemma depth_after_app es1 es2 d : depth_after (es1 ++ es2) d = depth_after es1 d ≫= depth_after es2.
Proof.
  unfold depth_after. rewrite foldl_app. destruct (foldl _ (Some d) es1); [done|].
  simpl. induction es2 as [|e es2 IH]; simpl; [done|exact IH].
Qed.

Lemma depth_after_one e d : depth_after [e] d = depth_step d (expr_type e).
Proof. done. Qed.

Lemma stack_size_pos t : 1 <= stack_size t.
Proof. induction t; simpl; lia. Qed.

Lemma postfix_depth t d :
  cexpr_wf t -> -1 <= d -> d + stack_size t < CEXPR_MAXDEPTH -> depth_after (postfix t) d = Some (d + 1).
Proof.
  revert d. induction t as [e|e t IH|e t1 IH1 t2 IH2]; cbn [postfix cexpr_wf stack_size]; intros d Hw Hd Hs;
    unfold CEXPR_MAXDEPTH in *.
  - rewrite depth_after_one. unfold depth_step, CEXPR_MAXDEPTH. destruct Hw as [-> | ->]; cbn; case_Z; lia || done.
  - destruct Hw as [He Hw]. rewrite depth_after_app, IH by done. cbn [mbind option_bind].
    rewrite depth_after_one, He. unfold depth_step. cbn. case_Z; lia || done.
  - destruct Hw as (He & Hw1 & Hw2). pose proof (stack_size_pos t2).
    rewrite depth_after_app, IH1 by (done || lia). cbn [mbind option_bind].
    rewrite depth_after_app, IH2 by (done || lia). cbn [mbind option_bind]. rewrite depth_after_one.
    unfold depth_step. destruct He as [-> | ->]; cbn; (case_Z; [lia|f_equal; lia]).
Qed.

(** The trees on the stack, the last one on top. *)
Definition stack_of (es : list constraint_expr) (ts : list cexpr) : Prop :=
  es = concat (map postfix ts) /\ Forall cexpr_wf ts /\
  forall i t, ts !! i = Some t -> Z.of_nat i + stack_size t <= CEXPR_MAXDEPTH.

Lemma stack_of_snoc es ts t es' :
  stack_of es ts -> es' = postfix t -> cexpr_wf t ->
  Z.of_nat (length ts) + stack_size t <= CEXPR_MAXDEPTH -> stack_of (es ++ es') (ts ++ [t]).
Proof.
  intros (-> & Hw & Hs) -> Ht Hl. split_and!.
  - rewrite map_app, concat_app. simpl. by rewrite app_nil_r.
  - apply Forall_app. by split; [|constructor].
  - intros i u Hu. apply lookup_app_Some in Hu as [Hu|[Hi Hu]]; [by apply Hs|].
    apply list_lookup_singleton_Some in Hu as [Hz <-]. by replace i with (length ts) by lia.
Qed.

Lemma stack_of_inv es ts t :
  stack_of es (ts ++ [t]) ->
  exists es0, es = es0 ++ postfix t /\ stack_of es0 ts /\ cexpr_wf t /\
    Z.of_nat (length ts) + stack_size t <= CEXPR_MAXDEPTH.
Proof.
  intros (-> & Hw & Hs). apply Forall_app in Hw as [Hw [Ht _]%Forall_cons].
  exists (concat (map postfix ts)). split; [rewrite map_app, concat_app; simpl; by rewrite app_nil_r|].
  split; [split; [done|split; [done|]]|split; [done|]].
  - intros i u Hu. apply Hs. by apply lookup_app_l_Some.
  - apply Hs. by apply list_lookup_middle.
Qed.

Lemma depth_stack es d :
  depth_after es (-1) = Some d -> exists ts, stack_of es ts /\ Z.of_nat (length ts) = d + 1.
Proof.
  revert d. induction es as [|e es IH] using rev_ind; intros d.
  { intros [= <-]. exists []. split; [|done]. by split_and!. }
  rewrite depth_after_app. destruct (depth_after es (-1)) as [d0|]; [|done]. cbn [mbind option_bind].
  rewrite depth_after_one. destruct (IH d0 eq_refl) as (ts & Hts & Hl). clear IH. unfold depth_step.
  destruct (Z.eqb_spec (expr_type e) CEXPR_NOT) as [Hn|_].
  { case_Z; [done|]. intros [= <-]. destruct ts as [|t ts _] using rev_ind; [simpl in Hl; lia|].
    apply stack_of_inv in Hts as (es0 & -> & H0 & Ht & Hb). rewrite length_app in Hl.
    exists (ts ++ [CNot e t]). split; [|by rewrite length_app]. rewrite <-app_assoc. by apply stack_of_snoc. }
  destruct ((expr_type e =? CEXPR_AND) || (expr_type e =? CEXPR_OR)) eqn:Hb.
  { case_Z; [done|]. intros [= <-]. destruct ts as [|t2 ts _] using rev_ind; [simpl in Hl; lia|].
    destruct ts as [|t1 ts _] using rev_ind; [simpl in Hl; lia|]. rewrite !length_app in Hl. simpl in Hl.
    apply stack_of_inv in Hts as (es2 & -> & H2 & Ht2 & Hb2).
    apply stack_of_inv in H2 as (es1 & -> & H1 & Ht1 & Hb1). rewrite length_app in Hb2. simpl in Hb2.
    exists (ts ++ [CBin e t1 t2]). split; [|rewrite length_app; simpl; lia].
    rewrite <-!app_assoc. apply stack_of_snoc; try done.
    - split_and!; try done. apply orb_true_iff in Hb as [?%Z.eqb_eq|?%Z.eqb_eq]; auto.
    - cbn [stack_size]. lia. }
  destruct ((expr_type e =? CEXPR_ATTR) || (expr_type e =? CEXPR_NAMES)) eqn:Hl'; [|done].
  destruct (Z.eqb_spec d0 (CEXPR_MAXDEPTH - 1)) as [|Hd]; [done|]. intros [= <-].
  assert (Hdeep : Z.of_nat (length ts) <= CEXPR_MAXDEPTH).
  { destruct ts as [|t ts _] using rev_ind; [done|]. apply stack_of_inv in Hts as (_ & _ & _ & _ & Hb').
    pose proof (stack_size_pos t). rewrite length_app. simpl. lia. }
  exists (ts ++ [CLeaf e]). split; [|rewrite length_app; simpl; lia].
  apply stack_of_snoc; try done; [|cbn [stack_size]; lia].
  apply orb_true_iff in Hl' as [?%Z.eqb_eq|?%Z.eqb_eq]; [by left|by right].
Qed.

(** The test of the reader. *)
Lemma depth_valid es : depth_after es (-1) = Some 0 <-> cons_valid es.
Proof.
  split.
  - intros (ts & (-> & Hw & Hs) & Hl)%depth_stack. destruct ts as [|t [|]]; simpl in Hl; try lia.
    exists t. simpl. rewrite app_nil_r. apply Forall_cons in Hw as [Hw _]. split_and!; try done.
    specialize (Hs 0%nat t eq_refl). lia.
  - intros (t & -> & Hw & Hs). rewrite postfix_depth; [done|done|lia|]. unfold CEXPR_MAXDEPTH in *. lia.
Qed.

(** ** Constraints in a policy *)

Definition type_set_ok (ts : type_set) : Prop :=
  ebitmap_wf (ts_types ts) /\ ebitmap_wf (negset ts) /\ word (ts_flags ts).

Definition type_set_bytes (ts : type_set) : list Z :=
  ebitmap_bytes (ts_types ts) ++ ebitmap_bytes (negset ts) ++ words [ts_flags ts].

Lemma emits_type_set ts : type_set_ok ts -> emits (type_set_write ts) (type_set_bytes ts).
Proof.
  intros (H1 & H2 & _). apply emits_seq; [by apply emits_ebitmap|].
  apply emits_seq; [by apply emits_ebitmap|apply emits_words; simpl; lia].
Qed.

Lemma decodes_type_set ts : type_set_ok ts -> decodes type_set_read (type_set_bytes ts) ts.
Proof.
  intros (H1 & H2 & H3). unfold type_set_read, type_set_bytes.
  eapply decodes_bind; [by apply decodes_ebitmap|]. eapply decodes_bind; [by apply decodes_ebitmap|].
  rewrite <-(app_nil_r (words _)). eapply decodes_bind; [by apply (decodes_words 1)|].
  rewrite le32_first by done. destruct ts. apply decodes_ret.
Qed.

Lemma accepts_type_set : accepts type_set_read type_set_ok.
Proof.
  unfold type_set_read. eapply accepts_bind; [apply accepts_ebitmap|]. intros t Ht.
  eapply accepts_bind; [apply accepts_ebitmap|]. intros n Hn.
  eapply accepts_bind; [apply accepts_entry|]. intros buf Hb. apply accepts_ret. split_and!; try done.
  exact (le32_bytes buf 0 Hb).
Qed.

Lemma type_set_init_ok : type_set_ok type_set_init.
Proof. by split_and!. Qed.

Section format.
Context (kind vers : Z).
Abbreviation type_names_stored := (has_type_names kind vers).

Definition names_ok (allowxtarget : bool) (e : constraint_expr) : Prop :=
  if expr_type e =? CEXPR_NAMES then
    ebitmap_wf (names e) /\ (allowxtarget || negb (truthy (Z.land (cx_attr e) CEXPR_XTARGET))) = true
  else names e = ebitmap_init.

Definition type_names_ok (e : constraint_expr) : Prop :=
  if (expr_type e =? CEXPR_NAMES) && type_names_stored
  then exists ts, type_names e = Some ts /\ type_set_ok ts
  else type_names e = Some type_set_init.

Definition expr_ok (allowxtarget : bool) (e : constraint_expr) : Prop :=
  (word (expr_type e) /\ word (cx_attr e) /\ word (cx_op e)) /\ names_ok allowxtarget e /\ type_names_ok e.

Definition expr_bytes (e : constraint_expr) : list Z :=
  words [expr_type e; cx_attr e; cx_op e] ++
  if expr_type e =? CEXPR_NAMES then
    ebitmap_bytes (names e) ++
    (if type_names_stored then match type_names e with Some ts => type_set_bytes ts | None => [] end else [])
  else [].

Lemma emits_expr ax e : expr_ok ax e -> emits (write_cons_expr kind vers ax e) (expr_bytes e).
Proof.
  intros (_ & Hn & Ht). unfold write_cons_expr, expr_bytes. apply emits_seq; [apply emits_words; simpl; lia|].
  unfold names_ok, type_names_ok in *. destruct (expr_type e =? CEXPR_NAMES); [|apply emits_ret].
  destruct Hn as [Hn Hx]. cbn [andb] in Ht.
  assert (negb ax && truthy (Z.land (cx_attr e) CEXPR_XTARGET) = false) as ->.
  { destruct ax; [done|]. cbn in Hx |- *. by apply negb_true_iff. }
  apply emits_seq; [by apply emits_ebitmap|]. destruct type_names_stored; [|apply emits_ret].
  destruct Ht as (ts & -> & Hts). by apply emits_type_set.
Qed.

Lemma decodes_expr ax e l d d' :
  expr_ok ax e -> depth_step d (expr_type e) = Some d' ->
  decodes (read_cons_expr kind vers ax (l, d)) (expr_bytes e) (l ++ [e], d').
Proof.
  intros ((Hty & Hat & Hop) & Hn & Ht) Hd. unfold read_cons_expr, expr_bytes.
  do 2 (eapply decodes_step; [apply decodes_alloc|]). eapply decodes_bind; [by apply (decodes_words 3)|].
  rewrite !le32_next, !le32_first by done. unfold names_ok, type_names_ok, depth_step in *.
  assert (Hplain : expr_type e <> CEXPR_NAMES ->
    e = ConstraintExpr (expr_type e) (cx_attr e) (cx_op e) ebitmap_init (Some type_set_init)).
  { intros Hne. apply Z.eqb_neq in Hne. rewrite Hne in Hn, Ht. destruct e; cbn in *. congruence. }
  cbn zeta. destruct (Z.eqb_spec (expr_type e) CEXPR_NOT) as [He|_].
  { rewrite <-Hplain by (by rewrite He). rewrite He. destruct (d <? 0) eqn:E; [done|]. injection Hd as <-.
    eapply decodes_step; [by apply decodes_require|apply decodes_ret]. }
  destruct ((expr_type e =? CEXPR_AND) || (expr_type e =? CEXPR_OR)) eqn:Hb.
  { assert (Hne : expr_type e <> CEXPR_NAMES) by (apply orb_true_iff in Hb as [->%Z.eqb_eq| ->%Z.eqb_eq]; done).
    rewrite <-Hplain by done. rewrite (proj2 (Z.eqb_neq _ _) Hne). destruct (d <? 1) eqn:E; [done|]. injection Hd as <-.
    eapply decodes_step; [by apply decodes_require|apply decodes_ret]. }
  destruct (Z.eqb_spec (expr_type e) CEXPR_ATTR) as [He|_]; cbn [orb] in Hd.
  { rewrite <-Hplain by (by rewrite He). rewrite He. destruct (d =? CEXPR_MAXDEPTH - 1) eqn:E; [done|]. injection Hd as <-.
    eapply decodes_step; [by apply decodes_require|apply decodes_ret]. }
  destruct (expr_type e =? CEXPR_NAMES); [|done]. destruct (d =? CEXPR_MAXDEPTH - 1) eqn:E; [done|].
  injection Hd as <-. destruct Hn as [Hn Hx]. cbn [andb] in Ht.
  eapply decodes_step; [by apply decodes_require|]. eapply decodes_step; [by apply decodes_require|].
  eapply decodes_bind; [by apply decodes_ebitmap|].
  destruct e as [ty at_ op nm tn]; cbn [expr_type cx_attr cx_op names type_names] in *. destruct type_names_stored.
  - destruct Ht as (ts & -> & Hts). rewrite <-(app_nil_r (type_set_bytes ts)).
    eapply decodes_bind; [by apply decodes_type_set|apply decodes_ret].
  - rewrite Ht. eapply decodes_step; [apply decodes_ret|apply decodes_ret].
Qed.

Lemma accepts_expr ax s :
  Forall (expr_ok ax) s.1 -> depth_after s.1 (-1) = Some s.2 ->
  accepts (read_cons_expr kind vers ax s)
    (fun s' => Forall (expr_ok ax) s'.1 /\ depth_after s'.1 (-1) = Some s'.2 /\ length s'.1 = S (length s.1)).
Proof.
  destruct s as [l d]. cbn [fst snd]. intros Hl Hd. unfold read_cons_expr.
  do 2 (eapply accepts_bind; [apply accepts_alloc|]; intros _ _).
  eapply accepts_bind; [apply accepts_entry|]. intros buf Hb. cbn zeta.
  pose proof (le32_bytes buf 0 Hb) as H0. pose proof (le32_bytes buf 1 Hb) as H1. pose proof (le32_bytes buf 2 Hb) as H2.
  set (ty := le32_at buf 0) in *. set (at_ := le32_at buf 1) in *. set (op := le32_at buf 2) in *.
  (* the state after an expression that the depth allows *)
  assert (Hret : forall e d', expr_type e = ty -> cx_attr e = at_ -> cx_op e = op -> names_ok ax e -> type_names_ok e ->
    depth_step d ty = Some d' -> accepts (mret (l ++ [e], d'))
      (fun s' => Forall (expr_ok ax) s'.1 /\ depth_after s'.1 (-1) = Some s'.2 /\ length s'.1 = S (length l))).
  { intros e d' Ety Eat Eop Hn Ht Hs. apply accepts_ret. cbn [fst snd]. split; [|split].
    - apply Forall_app. split; [done|]. constructor; [|done]. by rewrite <-Ety, <-Eat, <-Eop in *.
    - rewrite depth_after_app, Hd. cbn [mbind option_bind]. by rewrite depth_after_one, Ety.
    - rewrite length_app. simpl. lia. }
  assert (Hplain : ty <> CEXPR_NAMES -> let e := ConstraintExpr ty at_ op ebitmap_init (Some type_set_init) in
    names_ok ax e /\ type_names_ok e).
  { intros Hne%Z.eqb_neq. cbn zeta. unfold names_ok, type_names_ok. cbn [expr_type names type_names]. by rewrite Hne. }
  unfold depth_step in Hret. destruct (Z.eqb_spec ty CEXPR_NOT) as [He|_].
  { destruct Hplain as [? ?]; [by rewrite He|]. eapply accepts_bind; [apply accepts_require|]. intros [] Hr.
    apply Hret; try done. by apply negb_true_iff in Hr as ->. }
  destruct ((ty =? CEXPR_AND) || (ty =? CEXPR_OR)) eqn:Hbin.
  { destruct Hplain as [? ?]; [apply orb_true_iff in Hbin as [->%Z.eqb_eq| ->%Z.eqb_eq]; done|].
    eapply accepts_bind; [apply accepts_require|]. intros [] Hr.
    apply Hret; try done. by apply negb_true_iff in Hr as ->. }
  destruct (Z.eqb_spec ty CEXPR_ATTR) as [He|_]; cbn [orb] in Hret.
  { destruct Hplain as [? ?]; [by rewrite He|]. eapply accepts_bind; [apply accepts_require|]. intros [] Hr.
    apply Hret; try done. by apply negb_true_iff in Hr as ->. }
  destruct (ty =? CEXPR_NAMES) eqn:Hna; [|by intros fp o a fp' o' _ E].
  eapply accepts_bind; [apply accepts_require|]. intros [] Hx.
  eapply accepts_bind; [apply accepts_require|]. intros [] Hr.
  eapply accepts_bind; [apply accepts_ebitmap|]. intros nm Hnm.
  eapply (accepts_bind _ _ (fun ts => if type_names_stored then type_set_ok ts else ts = type_set_init)).
  { destruct type_names_stored; [apply accepts_type_set|by apply accepts_ret]. }
  intros ts Hts. apply Hret; try done.
  - unfold names_ok. cbn [expr_type names cx_attr]. by rewrite Hna.
  - unfold type_names_ok. cbn [expr_type type_names]. rewrite Hna. cbn [andb]. destruct type_names_stored; [by exists ts|by rewrite Hts].
  - by apply negb_true_iff in Hr as ->.
Qed.

(** Whole constraints. *)
Definition cons_ok (ax : bool) (c : constraint_node) : Prop :=
  word (permissions c) /\ Z.of_nat (length (expr c)) < 2 ^ 32 /\ Forall (expr_ok ax) (expr c) /\ cons_valid (expr c).

Definition cons_bytes (c : constraint_node) : list Z :=
  words [permissions c; Z.of_nat (length (expr c))] ++ concat (map expr_bytes (expr c)).

Definition all_cons_bytes (l : list constraint_node) : list Z := concat (map cons_bytes l).

Lemma emits_cons ax l : Forall (cons_ok ax) l -> emits (write_cons_helper kind vers l ax) (all_cons_bytes l).
Proof.
  intros Hl. apply emits_each. eapply Forall_impl; [exact Hl|]. intros c (_ & _ & He & _).
  apply emits_seq; [apply emits_words; simpl; lia|]. apply emits_each.
  eapply Forall_impl; [exact He|]. intros e. apply emits_expr.
Qed.

Lemma decodes_exprs ax es :
  Forall (expr_ok ax) es -> cons_valid es ->
  decodes (rd_loop (length es) (read_cons_expr kind vers ax) ([], -1)) (concat (map expr_bytes es)) (es, 0).
Proof.
  intros He Hv%depth_valid.
  destruct (decodes_loop (read_cons_expr kind vers ax) expr_bytes
    (fun pre s => s.1 = pre /\ depth_after pre (-1) = Some s.2) es ([], -1)) as ([l d] & Hd & Hl & Ha).
  - done.
  - intros pre e post [l d] Hs [Hl Ha]. cbn [fst snd] in Hl, Ha. subst l. rewrite Hs in He, Hv.
    apply Forall_app in He as [_ [He _]%Forall_cons].
    replace (pre ++ e :: post) with ((pre ++ [e]) ++ post) in Hv by (by rewrite <-app_assoc).
    rewrite !depth_after_app, Ha in Hv. cbn [mbind option_bind] in Hv. rewrite depth_after_one in Hv.
    destruct (depth_step d (expr_type e)) as [d'|] eqn:E; [|done].
    exists (pre ++ [e], d'). split; [by apply decodes_expr|]. cbn [fst snd]. split; [done|].
    rewrite depth_after_app, Ha. cbn [mbind option_bind]. by rewrite depth_after_one.
  - cbn [fst snd] in Hl, Ha. subst l. rewrite Hv in Ha. by injection Ha as <-.
Qed.

Lemma decodes_cons ax l c : cons_ok ax c -> decodes (read_cons kind vers ax l) (cons_bytes c) (l ++ [c]).
Proof.
  intros (Hp & Hl & He & Hv). unfold read_cons, cons_bytes. eapply decodes_step; [apply decodes_alloc|].
  eapply decodes_bind; [by apply (decodes_words 2)|]. unfold word in Hp. rewrite !le32_next, !le32_first by lia.
  rewrite Nat2Z.id, <-(app_nil_r (concat _)). eapply decodes_bind; [by apply decodes_exprs|].
  eapply decodes_step; [by apply decodes_require|]. destruct c. apply decodes_ret.
Qed.

Lemma decodes_cons_helper ax l :
  Forall (cons_ok ax) l ->
  decodes (read_cons_helper kind vers (Z.of_nat (length l)) ax) (all_cons_bytes l) l.
Proof.
  intros Hl. unfold read_cons_helper. rewrite Nat2Z.id.
  destruct (decodes_loop (read_cons kind vers ax) cons_bytes (fun pre s => s = pre) l []) as (s & Hd & ->); [done| |exact Hd].
  intros pre c post s Hs ->. rewrite Hs in Hl. apply Forall_app in Hl as [_ [Hc _]%Forall_cons].
  eexists. split; [by apply decodes_cons|done].
Qed.

Lemma accepts_exprs ax n :
  accepts (rd_loop n (read_cons_expr kind vers ax) ([], -1))
    (fun s => Forall (expr_ok ax) s.1 /\ depth_after s.1 (-1) = Some s.2 /\ length s.1 = n).
Proof.
  apply (accepts_rounds _ (fun i s => Forall (expr_ok ax) s.1 /\ depth_after s.1 (-1) = Some s.2 /\ length s.1 = i)); [done|].
  intros i s (Hf & Hd & Hl). eapply accepts_weaken; [by apply accepts_expr|]. intros s' (? & ? & ?).
  split_and!; try done. lia.
Qed.

Lemma accepts_cons ax l : Forall (cons_ok ax) l -> accepts (read_cons kind vers ax l) (Forall (cons_ok ax)).
Proof.
  intros Hl. unfold read_cons. eapply accepts_bind; [apply accepts_alloc|]. intros _ _.
  eapply accepts_bind; [apply accepts_entry|]. intros buf Hb.
  pose proof (le32_bytes buf 0 Hb). pose proof (le32_bytes buf 1 Hb).
  eapply accepts_bind; [apply accepts_exprs|]. intros [es d] (He & Hd & Hlen). cbn [fst snd] in *.
  eapply accepts_bind; [apply accepts_require|]. intros [] ->%Z.eqb_eq. apply accepts_ret.
  apply Forall_app. split; [done|]. constructor; [|done]. split; [done|]. cbn [expr permissions].
  split; [lia|]. split; [done|]. by apply depth_valid.
Qed.

Lemma accepts_cons_helper ax n : accepts (read_cons_helper kind vers n ax) (Forall (cons_ok ax)).
Proof. apply accepts_loop; [done|]. intros l. apply accepts_cons. Qed.
End format.
