(* ===== verification/SymbolsKinds.v ===== *)
(** * The classes of a kernel policy: their bytes, and reading them back *)

From S2P Require Import Prelude Policyfile Ebitmap EbitmapSpec EbitmapQuery EbitmapUpdate EbitmapProps Hashtab HashtabSpec Symtab Codec Policydb.
From S2P Require Import Symbols CodecTable SymbolsCodec.

Section classes.
Context (vers : Z) (commons commons' : hashtab_val (list Z) common_datum).
Hypothesis Hvers : POLICYDB_VERSION_BOUNDARY <= vers.

(** The commons that were written and those that were read. *)
Hypothesis Hcommons : table_rel common_rel commons commons'.
Hypothesis Hwf : hashtab_wf cstring_ok commons'.

Lemma kern_or_base_kern k m : kern_or_base POLICY_KERN vers k m = (k <=? vers).
Proof. unfold kern_or_base. cbn. by rewrite orb_false_r. Qed.

Definition byte (x : Z) : Prop := 0 <= x < 2 ^ 8.

Definition comkey_ok (c : class_datum) : Prop :=
  match comkey c with
  | None => comdatum c = None
  | Some k => key_fits32 k /\ exists cd, hashtab_model commons !! k = Some cd /\ comdatum c = Some cd
  end.

(** The defaults that the version of the policy has; the others are 0. *)
Definition defaults_ok (c : class_datum) : Prop :=
  (byte (default_user c) /\ byte (default_role c) /\ byte (default_range c) /\ byte (default_type c)) /\
  (vers < POLICYDB_VERSION_NEW_OBJECT_DEFAULTS -> default_user c = 0 /\ default_role c = 0 /\ default_range c = 0) /\
  (vers < POLICYDB_VERSION_DEFAULT_TYPE -> default_type c = 0) /\
  (vers < POLICYDB_VERSION_GLBLUB -> default_range c <> DEFAULT_GLBLUB).

Record class_ok (k : list Z) (c : class_datum) : Prop := {
  cl_key : key_fits32 k;
  cl_value : 0 <= cls_value c < 2 ^ 16;
  cl_perms : perms_ok (cls_permissions c);
  cl_common : comkey_ok c;
  cl_cons : Forall (cons_ok POLICY_KERN vers false) (constraints c);
  cl_ncons : Z.of_nat (length (constraints c)) < 2 ^ 32;
  cl_trans : Forall (cons_ok POLICY_KERN vers true) (validatetrans c);
  cl_ntrans : Z.of_nat (length (validatetrans c)) < 2 ^ 32;
  cl_defaults : defaults_ok c
}.

Record class_rel (c c' : class_datum) : Prop := {
  cr_value : cls_value c' = cls_value c;
  cr_comkey : comkey c' = comkey c;
  cr_common : option_Forall2 common_rel (comdatum c) (comdatum c');
  cr_perms : perms_same (cls_permissions c) (cls_permissions c');
  cr_cons : constraints c' = constraints c;
  cr_trans : validatetrans c' = validatetrans c;
  cr_defaults : (default_user c', default_role c', default_type c', default_range c') =
                (default_user c, default_role c, default_type c, default_range c)
}.

Definition comkey_bytes (c : class_datum) : list Z := match comkey c with Some k => k | None => [] end.

Definition trans_bytes (c : class_datum) : list Z :=
  words [Z.of_nat (length (validatetrans c))] ++ all_cons_bytes POLICY_KERN vers (validatetrans c).

Definition defaults_bytes (c : class_datum) : list Z :=
  if POLICYDB_VERSION_NEW_OBJECT_DEFAULTS <=? vers
  then words [default_user c; default_role c; default_range c] else [].

Definition default_type_bytes (c : class_datum) : list Z :=
  if POLICYDB_VERSION_DEFAULT_TYPE <=? vers then words [default_type c] else [].

Definition class_bytes (k : list Z) (c : class_datum) : list Z :=
  match table (cls_permissions c) with
  | None => []
  | Some t =>
      words [Z.of_nat (length k); Z.of_nat (length (comkey_bytes c)); cls_value c; nprim (cls_permissions c); nel t;
             Z.of_nat (length (constraints c))] ++
      k ++ comkey_bytes c ++ perms_bytes t ++ all_cons_bytes POLICY_KERN vers (constraints c) ++
      trans_bytes c ++ defaults_bytes c ++ default_type_bytes c
  end.

Lemma emits_class k c : class_ok k c -> emits (class_write POLICY_KERN vers k c) (class_bytes k c).
Proof.
  intros [Hk Hv (t & Ht & Hw & Hp & Hnp) Hcom Hc Hnc Htr Hnt (Hb & Hd1 & Hd2 & Hd3)].
  unfold class_write, class_bytes. rewrite Ht, !kern_or_base_kern.
  assert (match comkey c with Some k0 => Z.of_nat (length k0) | None => 0 end = Z.of_nat (length (comkey_bytes c))) as ->.
  { unfold comkey_bytes. by destruct (comkey c). }
  apply emits_seq; [apply emits_words; simpl; lia|]. apply emits_seq; [by apply emits_key|]. apply emits_seq.
  { unfold comkey_bytes, comkey_ok in *. destruct (comkey c); [|apply emits_ret]. apply emits_key, Hcom. }
  apply emits_seq; [by eapply emits_perms|]. apply emits_seq; [by apply emits_cons|]. apply emits_seq.
  { unfold POLICYDB_VERSION_VALIDATETRANS, POLICYDB_VERSION_BOUNDARY in *. case_Z; [|lia].
    apply emits_seq; [apply emits_words; simpl; lia|by apply emits_cons]. }
  apply emits_seq.
  - unfold defaults_bytes. destruct (_ <=? vers); [|apply emits_ret]. unfold glblub_version. rewrite kern_or_base_kern.
    assert (negb (POLICYDB_VERSION_GLBLUB <=? vers) && (default_range c =? DEFAULT_GLBLUB) = false) as ->.
    { destruct (Z.leb_spec POLICYDB_VERSION_GLBLUB vers); [done|]. cbn. by apply Z.eqb_neq, Hd3. }
    apply emits_words; simpl; lia.
  - unfold default_type_bytes. case_Z; [apply emits_words; simpl; lia|apply emits_ret].
Qed.

(** ** Reading *)

Lemma decodes_comkey c :
  comkey_ok c ->
  exists cd, decodes (read_comkey (Some commons') (Z.of_nat (length (comkey_bytes c)))) (comkey_bytes c) (comkey c, cd) /\
    option_Forall2 common_rel (comdatum c) cd.
Proof.
  unfold comkey_ok, comkey_bytes, read_comkey. destruct (comkey c) as [k|].
  - intros (Hk & cd & Hm & ->). pose proof (Hcommons k) as Hr. rewrite Hm in Hr. inversion Hr as [? cd' Hcd E1 E2|]; subst.
    exists (Some cd'). split; [|by constructor]. pose proof (key_length k Hk).
    unfold truthy. destruct (Z.eqb_spec (Z.of_nat (length k)) 0); [lia|]. cbn [negb].
    rewrite <-(app_nil_r k) at 2. eapply decodes_bind; [by apply decodes_key|].
    rewrite (hashtab_search_spec cstring_ok commons' k Hwf (proj1 Hk)), <-E2. apply decodes_ret.
  - intros ->. exists None. split; [apply decodes_ret|constructor].
Qed.

Lemma decodes_trans c :
  Forall (cons_ok POLICY_KERN vers true) (validatetrans c) -> Z.of_nat (length (validatetrans c)) < 2 ^ 32 ->
  decodes (read_validatetrans POLICY_KERN vers) (trans_bytes c) (validatetrans c).
Proof.
  intros Ht Hl. unfold read_validatetrans, trans_bytes. rewrite kern_or_base_kern.
  unfold POLICYDB_VERSION_VALIDATETRANS, POLICYDB_VERSION_BOUNDARY in *. case_Z; [|lia].
  eapply decodes_bind; [by apply (decodes_words 1)|]. rewrite le32_first by lia. by apply decodes_cons_helper.
Qed.

Lemma u8_byte x : byte x -> u8 x = x.
Proof. intros Hx. unfold u8. by apply Z.mod_small. Qed.

Lemma decodes_defaults c :
  defaults_ok c -> decodes (read_defaults POLICY_KERN vers) (defaults_bytes c) (default_user c, default_role c, default_range c).
Proof.
  intros ((Hu & Hr & Hg & Ht) & Hd1 & _). unfold read_defaults, defaults_bytes. rewrite kern_or_base_kern.
  unfold byte in *. case_Z.
  - rewrite <-(app_nil_r (words _)). eapply decodes_bind; [by apply (decodes_words 3)|].
    rewrite !le32_next, !le32_first by lia. rewrite !u8_byte by done. apply decodes_ret.
  - destruct Hd1 as (-> & -> & ->); [done|]. apply decodes_ret.
Qed.

Lemma decodes_default_type c :
  defaults_ok c -> decodes (read_default_type POLICY_KERN vers) (default_type_bytes c) (default_type c).
Proof.
  intros ((Hu & Hr & Hg & Ht) & _ & Hd2 & _). unfold read_default_type, default_type_bytes. rewrite kern_or_base_kern.
  unfold byte in *. case_Z.
  - rewrite <-(app_nil_r (words _)). eapply decodes_bind; [by apply (decodes_words 1)|].
    rewrite le32_first by lia. rewrite u8_byte by done. apply decodes_ret.
  - rewrite Hd2 by done. apply decodes_ret.
Qed.

Lemma decodes_class h k c :
  hashtab_wf cstring_ok h -> hashtab_model h !! k = None -> nel h < UINT32_MAX -> class_ok k c ->
  exists h' c', decodes (class_read POLICY_KERN vers (Some commons') (Some h)) (class_bytes k c) (Some h') /\ class_rel c c' /\
    hashtab_wf cstring_ok h' /\ hashtab_model h' = <[k := c']> (hashtab_model h).
Proof.
  intros Hw Hn Hnel [Hk Hv (t & Ht & Hwt & Hp & Hnp) Hcom Hc Hnc Htr Hnt Hd].
  destruct (@symtab_init_spec perm_datum) as (t0 & Ei & Hw0 & Hm0 & Hn0). unfold PERM_SYMTAB_SIZE in Hnp.
  destruct (decodes_perms (nprim (cls_permissions c)) t t0) as (t' & Hdt & Hw' & Hm'); [lia|done..|].
  destruct (decodes_comkey c Hcom) as (cd & Hdc & Hrel).
  set (c' := ClassDatum (cls_value c) (comkey c) cd (Symtab (Some t') (nprim (cls_permissions c))) (constraints c)
    (validatetrans c) (default_user c) (default_role c) (default_type c) (default_range c)).
  destruct (decodes_insert h k c' Hw (proj1 Hk) Hn Hnel) as (h' & Hi & Hwh & Hmh).
  exists h', c'. split; [|split; [split; try done; split; [done|]; by exists t, t'|by split]].
  unfold class_read, class_bytes. rewrite Ht. pose proof (key_length k Hk). pose proof (nel_perms t Hwt).
  assert (Hlen : Z.of_nat (length (comkey_bytes c)) < 2 ^ 32).
  { unfold comkey_bytes, comkey_ok in *. destruct (comkey c); [|done]. by destruct Hcom as [(_ & _ & ?) _]. }
  eapply decodes_step; [apply decodes_alloc|]. eapply decodes_bind; [by apply (decodes_words 6)|].
  rewrite !le32_next, !le32_first by lia. eapply decodes_bind; [by apply decodes_key|]. cbn zeta.
  eapply decodes_step; [apply decodes_require; case_Z; lia || done|].
  eapply decodes_step; [apply decodes_call; exact Ei|].
  eapply decodes_step; [apply decodes_require; unfold PERM_SYMTAB_SIZE; case_Z; lia || done|].
  eapply decodes_bind; [exact Hdc|]. eapply decodes_bind; [exact Hdt|].
  eapply decodes_bind; [by apply decodes_cons_helper|]. eapply decodes_bind; [by apply decodes_trans|].
  eapply decodes_bind; [by apply decodes_defaults|]. rewrite <-(app_nil_r (default_type_bytes c)).
  eapply decodes_bind; [by apply decodes_default_type|]. exact Hi.
Qed.

Lemma class_codec :
  symbol_codec (class_read POLICY_KERN vers (Some commons')) (class_write POLICY_KERN vers) class_bytes class_ok
    every class_rel none.
Proof.
  split.
  - intros k c Hc. apply (cl_key _ _ Hc).
  - intros k c Hc. destruct (cl_perms _ _ Hc) as (t & Ht & _). unfold class_bytes.
    rewrite Ht, length_app, length_words_bytes. simpl length. lia.
  - done.
  - intros k c. apply emits_class.
  - intros h k c Hw Hn Hl Hc _. by apply decodes_class.
  - done.
Qed.
End classes.

(** * Roles, types, users, booleans, levels and categories of a kernel policy: their bytes,
    and reading them back *)

(** ** Levels and ranges *)

Definition level_ok (l : mls_level) : Prop := word (sens l) /\ ebitmap_wf (cat l).

Definition level_bytes (l : mls_level) : list Z := words [sens l] ++ ebitmap_bytes (cat l).

Lemma emits_level l : level_ok l -> emits (mls_write_level l) (level_bytes l).
Proof. intros [_ Hc]. apply emits_seq; [apply emits_words; simpl; lia|by apply emits_ebitmap]. Qed.

Lemma decodes_level l : level_ok l -> decodes mls_read_level (level_bytes l) l.
Proof.
  intros [Hs Hc]. unfold mls_read_level, level_bytes. eapply decodes_bind; [by apply (decodes_words 1)|].
  rewrite le32_first by done. rewrite <-(app_nil_r (ebitmap_bytes _)).
  eapply decodes_bind; [by apply decodes_ebitmap|]. destruct l. apply decodes_ret.
Qed.

Definition range_ok (r : mls_range) : Prop := level_ok (level_low r) /\ level_ok (level_high r).

Definition range_bytes (r : mls_range) : list Z :=
  if mls_level_eq (level_high r) (level_low r)
  then words [1; sens (level_low r)] ++ ebitmap_bytes (cat (level_low r))
  else words [2; sens (level_low r); sens (level_high r)] ++ ebitmap_bytes (cat (level_low r)) ++
       ebitmap_bytes (cat (level_high r)).

Lemma emits_range r : range_ok r -> emits (mls_write_range_helper r) (range_bytes r).
Proof.
  intros [[_ Hl] [_ Hh]]. unfold mls_write_range_helper, range_bytes. destruct (mls_level_eq _ _).
  - apply emits_seq; [apply emits_words; simpl; lia|]. rewrite <-(app_nil_r (ebitmap_bytes _)).
    apply emits_seq; [by apply emits_ebitmap|apply emits_ret].
  - apply emits_seq; [apply emits_words; simpl; lia|].
    apply emits_seq; by apply emits_ebitmap.
Qed.

Lemma level_eq_same l1 l2 : mls_level_eq l1 l2 = true -> l1 = l2.
Proof.
  unfold mls_level_eq, ebitmap_cmp. rewrite andb_true_iff, Z.eqb_eq, cmp_loop_eq.
  destruct l1 as [s1 [n1 h1]], l2 as [s2 [n2 h2]]; cbn. intros [-> Hc].
  destruct (Z.eqb_spec h1 h2) as [->|]; cbn in Hc; [|done]. by case_decide as E; [rewrite E|].
Qed.

Lemma ebitmap_cpy_ok e : ebitmap_cpy e [] = (0, e, []).
Proof.
  unfold ebitmap_cpy. destruct (cpy_loop_total (node e)) as [l E]. pose proof (cpy_loop_spec _ _ _ _ E) as ->.
  rewrite E. by destruct e.
Qed.

Lemma decodes_range r : range_ok r -> decodes mls_read_range_helper (range_bytes r) r.
Proof.
  intros [[Hs1 Hl] [Hs2 Hh]]. unfold mls_read_range_helper, range_bytes. unfold word in *.
  destruct (mls_level_eq (level_high r) (level_low r)) eqn:E.
  - apply level_eq_same in E. change [1; sens (level_low r)] with ([1] ++ [sens (level_low r)]). rewrite words_app, <-app_assoc.
    eapply decodes_bind; [by apply (decodes_words 1)|]. rewrite le32_first by lia. cbn [Z.ltb Z.compare Z.eqb].
    eapply decodes_step; [by apply decodes_require|]. eapply decodes_bind; [by apply (decodes_words 1)|].
    rewrite le32_first by lia. rewrite <-(app_nil_r (ebitmap_bytes _)).
    eapply decodes_bind; [by apply decodes_ebitmap|].
    eapply decodes_step; [apply decodes_call, ebitmap_cpy_ok|].
    destruct r as [[s1 c1] h]; cbn in *. subst h. apply decodes_ret.
  - change (2 :: ?l) with ([2] ++ l). rewrite words_app, <-app_assoc.
    eapply decodes_bind; [by apply (decodes_words 1)|]. rewrite le32_first by lia. cbn [Z.ltb Z.compare Z.eqb].
    eapply decodes_step; [by apply decodes_require|]. eapply decodes_bind; [by apply (decodes_words 2)|].
    rewrite le32_next, !le32_first by lia. eapply decodes_bind; [by apply decodes_ebitmap|].
    rewrite <-(app_nil_r (ebitmap_bytes _)). eapply decodes_bind; [by apply decodes_ebitmap|].
    destruct r as [[s1 c1] [s2 c2]]. apply decodes_ret.
Qed.

(** ** Sensitivities and categories *)

Definition sens_ok (k : list Z) (d : level_datum) : Prop :=
  key_fits32 k /\ byte (lev_isalias d) /\ notdefined d = 0 /\ exists l, level d = Some l /\ level_ok l.

Definition sens_bytes (k : list Z) (d : level_datum) : list Z :=
  words [Z.of_nat (length k); lev_isalias d] ++ k ++ match level d with Some l => level_bytes l | None => [] end.

Lemma length_level_bytes l : (4 <= length (level_bytes l))%nat.
Proof. unfold level_bytes. rewrite length_app, length_words_bytes. simpl. lia. Qed.

Lemma sens_codec : symbol_codec sens_read sens_write sens_bytes sens_ok every eq none.
Proof.
  split.
  - by intros k d ((? & _) & _).
  - intros k d (Hk & _ & _ & l & Hl & _). unfold sens_bytes. rewrite !length_app, length_words_bytes, Hl.
    pose proof (length_level_bytes l). simpl length. lia.
  - done.
  - intros k d (Hk & _ & _ & l & Hl & Hok). unfold sens_write, sens_bytes. rewrite Hl.
    apply emits_seq; [apply emits_words; simpl; lia|]. apply emits_seq; [by apply emits_key|by apply emits_level].
  - intros h k d Hw Hn Hnel (Hk & Ha & Hnd & l & Hl & Hok) _.
    destruct (decodes_insert h k d Hw (proj1 Hk) Hn Hnel) as (h' & Hi & H'). exists h', d. split; [|split; done].
    unfold sens_read, sens_bytes. rewrite Hl. pose proof (key_length k Hk). unfold byte in Ha.
    eapply decodes_step; [apply decodes_alloc|]. eapply decodes_bind; [by apply (decodes_words 2)|].
    rewrite le32_next, !le32_first by lia. eapply decodes_bind; [by apply decodes_key|].
    eapply decodes_step; [apply decodes_alloc|]. rewrite <-(app_nil_r (level_bytes l)).
    eapply decodes_bind; [by apply decodes_level|]. rewrite u8_byte by done.
    destruct d; cbn in *. by subst.
  - done.
Qed.

Definition cat_ok (k : list Z) (d : cat_datum) : Prop :=
  key_fits32 k /\ word (cat_value d) /\ byte (cat_isalias d).

Definition cat_bytes (k : list Z) (d : cat_datum) : list Z :=
  words [Z.of_nat (length k); cat_value d; cat_isalias d] ++ k.

Lemma cat_codec : symbol_codec cat_read cat_write cat_bytes cat_ok every eq none.
Proof.
  split.
  - by intros k d ((? & _) & _).
  - intros k d _. unfold cat_bytes. rewrite length_app, length_words_bytes. simpl length. lia.
  - done.
  - intros k d (Hk & _). apply emits_seq; [apply emits_words; simpl; lia|by apply emits_key].
  - intros h k d Hw Hn Hnel (Hk & Hv & Ha) _.
    destruct (decodes_insert h k d Hw (proj1 Hk) Hn Hnel) as (h' & Hi & H'). exists h', d. split; [|split; done].
    unfold cat_read, cat_bytes. pose proof (key_length k Hk). unfold byte, word in *.
    eapply decodes_step; [apply decodes_alloc|]. eapply decodes_bind; [by apply (decodes_words 3)|].
    rewrite !le32_next, !le32_first by lia. rewrite <-(app_nil_r k) at 2.
    eapply decodes_bind; [by apply decodes_key|]. rewrite u8_byte by done. by destruct d.
  - done.
Qed.

Section format.
Context (vers : Z).
Hypothesis Hvers : POLICYDB_VERSION_BOUNDARY <= vers.

Lemma kernel_boundary : policydb_has_boundary_feature POLICY_KERN vers = true.
Proof. unfold policydb_has_boundary_feature. cbn. rewrite orb_false_r. by apply Z.leb_le. Qed.

(** ** Booleans *)

Definition bool_ok (k : list Z) (d : cond_bool_datum) : Prop :=
  key_fits32 k /\ word (bool_value d) /\ (bool_state d = 0 \/ bool_state d = 1) /\ bool_flags d = 0.

Definition bool_bytes (k : list Z) (d : cond_bool_datum) : list Z :=
  words [bool_value d; bool_state d; Z.of_nat (length k)] ++ k.

Lemma bool_codec :
  symbol_codec (cond_read_bool POLICY_KERN vers) (cond_write_bool POLICY_KERN vers) bool_bytes bool_ok every eq none.
Proof.
  split.
  - by intros k d ((? & _) & _).
  - intros k d _. unfold bool_bytes. rewrite length_app, length_words_bytes. simpl length. lia.
  - done.
  - intros k d (Hk & _). unfold cond_write_bool, bool_bytes. cbn [has_tunables kern Z.eqb negb andb].
    apply emits_seq; [apply emits_words; simpl; lia|]. rewrite <-(app_nil_r k) at 2.
    apply emits_seq; [by apply emits_key|apply emits_ret].
  - intros h k d Hw Hn Hnel (Hk & Hv & Hs & Hf) _.
    destruct (decodes_insert h k d Hw (proj1 Hk) Hn Hnel) as (h' & Hi & H'). exists h', d. split; [|split; done].
    unfold cond_read_bool, bool_bytes. pose proof (key_length k Hk). unfold word in *.
    eapply decodes_step; [apply decodes_alloc|]. eapply decodes_bind; [by apply (decodes_words 3)|].
    rewrite !le32_next, !le32_first by lia.
    eapply decodes_step; [apply decodes_require; by destruct Hs as [-> | ->]|]. rewrite <-(app_nil_r k) at 2.
    eapply decodes_bind; [by apply decodes_key|]. eapply decodes_step; [apply (decodes_ret 0)|].
    destruct d; cbn in *. by subst.
  - done.
Qed.

(** ** Types *)

Definition type_ok (k : list Z) (d : type_datum) : Prop :=
  key_fits32 k /\ word (ty_value d) /\ word (ty_bounds d) /\ (ty_primary d = 0 \/ ty_primary d = 1) /\
  (ty_flavor d = TYPE_TYPE \/ ty_flavor d = TYPE_ATTRIB) /\ ty_types d = ebitmap_init /\ ty_flags d = 0.

Definition type_bytes (k : list Z) (d : type_datum) : list Z :=
  words [Z.of_nat (length k); ty_value d; write_properties POLICY_KERN d; ty_bounds d] ++ k.

Lemma kernel_to_read : to_read POLICY_KERN vers = 4%nat.
Proof. unfold to_read. by rewrite kernel_boundary. Qed.

Lemma kernel_stored d : type_skipped POLICY_KERN vers d = false.
Proof. unfold type_skipped. cbn. by rewrite (proj2 (Z.ltb_ge _ _)). Qed.

(** The properties say what the datum is. *)
Lemma properties_word k d : type_ok k d -> word (write_properties POLICY_KERN d).
Proof.
  intros (_ & _ & _ & Hp & Hf & _ & Hfl). unfold write_properties. rewrite Hfl.
  by destruct Hp as [-> | ->], Hf as [-> | ->].
Qed.

Lemma read_type_properties k d buf :
  type_ok k d -> le32_at buf 1 = ty_value d -> le32_at buf 2 = write_properties POLICY_KERN d ->
  le32_at buf 3 = ty_bounds d -> read_typdatum POLICY_KERN vers buf ebitmap_init = d.
Proof.
  intros (_ & _ & _ & Hp & Hf & Ht & Hfl) H1 H2 H3. unfold read_typdatum. rewrite kernel_boundary.
  cbn [boundary_alias kern Z.eqb negb andb]. rewrite H1, H2, H3. unfold write_properties. rewrite Hfl.
  destruct d; cbn in *. by destruct Hp as [-> | ->], Hf as [-> | ->]; subst.
Qed.

Lemma type_codec :
  symbol_codec (type_read POLICY_KERN vers) (type_write POLICY_KERN vers) type_bytes type_ok every eq
    (type_skipped POLICY_KERN vers).
Proof.
  split.
  - by intros k d ((? & _) & _).
  - intros k d _. unfold type_bytes. rewrite length_app, length_words_bytes. simpl length. lia.
  - intros k d _. apply kernel_stored.
  - intros k d (Hk & _). unfold type_write, type_bytes. rewrite kernel_stored. unfold type_items. rewrite kernel_boundary.
    cbn [kern Z.eqb]. apply emits_seq; [apply emits_words; simpl; lia|]. change k with ([] ++ k) at 2.
    apply emits_seq; [apply emits_ret|by apply emits_key].
  - intros h k d Hw Hn Hnel Hok _. pose proof Hok as (Hk & Hv & Hb & _).
    destruct (decodes_insert h k d Hw (proj1 Hk) Hn Hnel) as (h' & Hi & H'). exists h', d. split; [|split; done].
    unfold type_read, type_bytes. rewrite kernel_to_read. pose proof (key_length k Hk). pose proof (properties_word k d Hok).
    unfold word in *. eapply decodes_step; [apply decodes_alloc|]. eapply decodes_bind; [by apply (decodes_words 4)|].
    eapply decodes_step; [apply (decodes_ret ebitmap_init)|]. rewrite le32_first by lia.
    rewrite (read_type_properties k d); [|done|rewrite !le32_next, le32_first by lia; done..].
    rewrite <-(app_nil_r k) at 2. eapply decodes_bind; [by apply decodes_key|done].
  - done.
Qed.

(** ** Roles *)

Definition role_kept (k : list Z) : bool := negb (strcmp k OBJECT_R =? 0).

Record role_ok (k : list Z) (d : role_datum) : Prop := {
  rl_key : key_fits32 k;
  rl_value : word (ro_value d);
  rl_object : ro_value d = OBJECT_R_VAL <-> k = OBJECT_R;
  rl_dominates : ebitmap_wf (dominates d);
  rl_types : exists ts, ro_types d = TypeSet ts ebitmap_init 0 /\ ebitmap_wf ts;
  rl_bounds : word (ro_bounds d);
  rl_flavor : ro_flavor d = ROLE_ROLE;
  rl_roles : ro_roles d = ebitmap_init
}.

(** The cache is not stored. *)
Definition role_rel (d d' : role_datum) : Prop :=
  d' = RoleDatum (ro_value d) (dominates d) (ro_types d) ebitmap_init (ro_bounds d) (ro_flavor d) (ro_roles d).

Definition role_types_stored (d : role_datum) : ebitmap :=
  if ro_value d =? OBJECT_R_VAL then ebitmap_init else ts_types (ro_types d).

Definition role_bytes (k : list Z) (d : role_datum) : list Z :=
  words [Z.of_nat (length k); ro_value d; ro_bounds d] ++ k ++ ebitmap_bytes (dominates d) ++
  ebitmap_bytes (role_types_stored d).

Lemma object_r_ok : cstring_ok OBJECT_R.
Proof. repeat constructor; lia. Qed.

Lemma role_kept_iff k : cstring_ok k -> role_kept k = true <-> k <> OBJECT_R.
Proof.
  intros Hk. unfold role_kept. rewrite negb_true_iff, Z.eqb_neq. by rewrite (strcmp_zero k OBJECT_R Hk object_r_ok).
Qed.

Lemma role_types_wf k d : role_ok k d -> ebitmap_wf (role_types_stored d).
Proof.
  intros Hok. destruct (rl_types _ _ Hok) as (ts & Ht & Hw). unfold role_types_stored. rewrite Ht.
  destruct (_ =? _); [apply ebitmap_init_empty|done].
Qed.

Lemma emits_role k d : role_ok k d -> emits (role_write POLICY_KERN vers k d) (role_bytes k d).
Proof.
  intros Hok. unfold role_write, role_bytes, role_skipped. rewrite (rl_flavor _ _ Hok), kernel_boundary.
  cbn [Z.eqb ROLE_ROLE ROLE_ATTRIB kern negb andb app]. apply emits_seq; [apply emits_words; simpl; lia|].
  apply emits_seq; [apply emits_key, Hok|]. apply emits_seq; [apply emits_ebitmap, Hok|].
  rewrite <-(app_nil_r (ebitmap_bytes (role_types_stored d))). apply emits_seq; [|apply emits_ret].
  pose proof (role_types_wf k d Hok) as Hw. unfold role_types_stored in *. by destruct (_ =? _); apply emits_ebitmap.
Qed.

(** Reading a role up to the test of its name. *)
Lemma decodes_role k d h h' :
  role_ok k d ->
  decodes (if strcmp k OBJECT_R =? 0 then rd_require (ro_value d =? OBJECT_R_VAL);; mret h
           else rd_call (hashtab_insert h k (RoleDatum (ro_value d) (dominates d)
             (TypeSet (role_types_stored d) ebitmap_init 0) ebitmap_init (ro_bounds d) 0 ebitmap_init))) [] h' ->
  decodes (role_read POLICY_KERN vers h) (role_bytes k d) h'.
Proof.
  intros Hok Hd. pose proof Hok as [Hk Hv _ Hdom _ Hb _ _]. pose proof (key_length k Hk). unfold word in *.
  unfold role_read, role_bytes. rewrite kernel_boundary. eapply decodes_step; [apply decodes_alloc|].
  eapply decodes_bind; [by apply (decodes_words 3)|]. rewrite !le32_next, !le32_first by lia.
  eapply decodes_bind; [by apply decodes_key|]. eapply decodes_bind; [by apply decodes_ebitmap|].
  rewrite <-(app_nil_r (ebitmap_bytes (role_types_stored d))).
  eapply decodes_bind; [|eapply decodes_step; [apply decodes_ret|exact Hd]].
  unfold read_role_types. cbn [kern Z.eqb]. rewrite <-(app_nil_r (ebitmap_bytes (role_types_stored d))).
  eapply decodes_bind; [by apply decodes_ebitmap; eapply role_types_wf|apply decodes_ret].
Qed.

Lemma role_codec :
  symbol_codec (role_read POLICY_KERN vers) (role_write POLICY_KERN vers) role_bytes role_ok role_kept role_rel
    (role_skipped POLICY_KERN vers).
Proof.
  split.
  - intros k d Hok. apply (rl_key _ _ Hok).
  - intros k d _. unfold role_bytes. rewrite length_app, length_words_bytes. simpl length. lia.
  - intros k d Hok. unfold role_skipped. by rewrite (rl_flavor _ _ Hok).
  - apply emits_role.
  - intros h k d Hw Hn Hnel Hok Hkept. pose proof Hok as [Hk _ Hobj _ (ts & Ht & _) _ Hf Hr].
    set (d' := RoleDatum (ro_value d) (dominates d) (ro_types d) ebitmap_init (ro_bounds d) (ro_flavor d) (ro_roles d)).
    destruct (decodes_insert h k d' Hw (proj1 Hk) Hn Hnel) as (h' & Hi & H'). exists h', d'. split; [|split; done].
    apply decodes_role; [done|]. unfold role_kept in Hkept. apply negb_true_iff in Hkept as Hz. rewrite Hz.
    assert (Hne : ro_value d <> OBJECT_R_VAL).
    { intros Hv%Hobj. apply (role_kept_iff k (proj1 Hk)); [exact Hkept|done]. }
    unfold role_types_stored. rewrite (proj2 (Z.eqb_neq _ _) Hne). unfold d' in Hi. rewrite Hf, Hr, Ht in Hi. rewrite Ht.
    exact Hi.
  - intros h k d Hw Hok Hkept. pose proof Hok as [Hk _ Hobj _ _ _ _ _]. apply decodes_role; [done|].
    unfold role_kept in Hkept. apply negb_false_iff in Hkept. rewrite Hkept.
    apply Z.eqb_eq in Hkept. rewrite (strcmp_zero k OBJECT_R (proj1 Hk) object_r_ok) in Hkept. apply Hobj in Hkept.
    rewrite Hkept. eapply decodes_step; [by apply decodes_require|apply decodes_ret].
Qed.

(** ** Users *)

Record user_ok (k : list Z) (u : user_datum) : Prop := {
  ur_key : key_fits32 k;
  ur_value : word (us_value u);
  ur_bounds : word (us_bounds u);
  ur_roles : exists r, us_roles u = RoleSet r 0 /\ ebitmap_wf r;
  ur_range : range_ok (exp_range u);
  ur_level : level_ok (exp_dfltlevel u)
}.

(** The cache and the semantic levels are not stored. *)
Definition user_rel (u u' : user_datum) : Prop :=
  u' = UserDatum (us_value u) (us_roles u) mls_semantic_range_init mls_semantic_level_init ebitmap_init
         (exp_range u) (exp_dfltlevel u) (us_bounds u).

Definition user_bytes (k : list Z) (u : user_datum) : list Z :=
  words [Z.of_nat (length k); us_value u; us_bounds u] ++ k ++ ebitmap_bytes (rs_roles (us_roles u)) ++
  range_bytes (exp_range u) ++ level_bytes (exp_dfltlevel u).

Lemma kernel_levels : expanded_levels POLICY_KERN vers = true.
Proof.
  unfold expanded_levels, POLICYDB_VERSION_BOUNDARY, POLICYDB_VERSION_MLS in *. cbn. case_Z; [done|lia].
Qed.

Lemma user_codec :
  symbol_codec (user_read POLICY_KERN vers) (user_write POLICY_KERN vers) user_bytes user_ok every user_rel none.
Proof.
  split.
  - intros k u Hok. apply (ur_key _ _ Hok).
  - intros k u _. unfold user_bytes. rewrite length_app, length_words_bytes. simpl length. lia.
  - done.
  - intros k u [Hk _ _ (r & Hr & Hw) Hra Hl]. unfold user_write, user_bytes. rewrite kernel_boundary, kernel_levels, Hr.
    cbn [kern Z.eqb app rs_roles]. apply emits_seq; [apply emits_words; simpl; lia|].
    apply emits_seq; [by apply emits_key|]. apply emits_seq; [by apply emits_ebitmap|].
    apply emits_seq; [by apply emits_range|by apply emits_level].
  - intros h k u Hw Hn Hnel [Hk Hv Hb (r & Hr & Hwr) Hra Hl] _.
    set (u' := UserDatum (us_value u) (us_roles u) mls_semantic_range_init mls_semantic_level_init ebitmap_init
      (exp_range u) (exp_dfltlevel u) (us_bounds u)).
    destruct (decodes_insert h k u' Hw (proj1 Hk) Hn Hnel) as (h' & Hi & H'). exists h', u'. split; [|split; done].
    unfold user_read, user_bytes. rewrite kernel_boundary. pose proof (key_length k Hk). unfold word in *.
    eapply decodes_step; [apply decodes_alloc|]. eapply decodes_bind; [by apply (decodes_words 3)|].
    rewrite !le32_next, !le32_first by lia. eapply decodes_bind; [by apply decodes_key|].
    eapply (decodes_bind _ _ _ _ (us_roles u)).
    { unfold read_user_roles. cbn [kern Z.eqb]. rewrite Hr. cbn [rs_roles]. rewrite <-(app_nil_r (ebitmap_bytes r)).
      eapply decodes_bind; [by apply decodes_ebitmap|apply decodes_ret]. }
    rewrite <-(app_nil_r (_ ++ level_bytes _)).
    eapply (decodes_bind _ _ _ _ (mls_semantic_range_init, mls_semantic_level_init, exp_range u, exp_dfltlevel u)); [|exact Hi].
    unfold read_user_levels. rewrite kernel_levels. cbn [kern Z.eqb]. eapply decodes_bind; [by apply decodes_range|].
    rewrite <-(app_nil_r (level_bytes _)). eapply decodes_bind; [by apply decodes_level|apply decodes_ret].
  - done.
Qed.
End format.
