(* ===== verification/SymbolsTrip.v ===== *)
(** * The symbol tables of a kernel policy: the bytes of all eight, and reading them back *)

From S2P Require Import Prelude Policyfile Ebitmap EbitmapSpec EbitmapQuery EbitmapUpdate EbitmapProps Hashtab HashtabSpec Symtab Codec Policydb.
From S2P Require Import Symbols CodecTable SymbolsCodec SymbolsKinds.

Section trip.
Context (vers : Z).
Hypothesis Hvers : POLICYDB_VERSION_BOUNDARY <= vers.

(** Symbol tables that a policy of the version can hold; classes refer to the commons. *)
Record symtabs_ok (st : symtabs) (commons : hashtab_val (list Z) common_datum) : Prop := {
  so_table : table (sym_commons st) = Some commons;
  so_commons : symtab_ok common_ok (sym_commons st);
  so_classes : symtab_ok (class_ok vers commons) (sym_classes st);
  so_roles : symtab_ok role_ok (sym_roles st);
  so_types : symtab_ok type_ok (sym_types st);
  so_users : symtab_ok user_ok (sym_users st);
  so_bools : symtab_ok bool_ok (sym_bools st);
  so_levels : symtab_ok sens_ok (sym_levels st);
  so_cats : symtab_ok cat_ok (sym_cats st)
}.

Definition symtabs_bytes (st : symtabs) : list Z :=
  symtab_bytes common_bytes (sym_commons st) ++
  symtab_bytes (class_bytes vers) (sym_classes st) ++
  symtab_bytes role_bytes (sym_roles st) ++
  symtab_bytes type_bytes (sym_types st) ++
  symtab_bytes user_bytes (sym_users st) ++
  symtab_bytes bool_bytes (sym_bools st) ++
  symtab_bytes sens_bytes (sym_levels st) ++
  symtab_bytes cat_bytes (sym_cats st).

(** A table as [policydb_init] leaves it: no symbol, or only "object_r" for roles. *)
Definition fresh {D} (kept : list Z -> bool) (s : symtab D) : Prop :=
  exists h, table s = Some h /\ hashtab_wf cstring_ok h /\ nel h <= 1 /\
    forall k, kept k = true -> hashtab_model h !! k = None.

Record symtabs_fresh (st : symtabs) : Prop := {
  sf_commons : fresh every (sym_commons st);
  sf_classes : fresh every (sym_classes st);
  sf_roles : fresh role_kept (sym_roles st);
  sf_types : fresh every (sym_types st);
  sf_users : fresh every (sym_users st);
  sf_bools : fresh every (sym_bools st);
  sf_levels : fresh every (sym_levels st);
  sf_cats : fresh every (sym_cats st)
}.

(** [s'] has the symbols of [s] with related data. *)
Definition symtab_rel {D} (kept : list Z -> bool) (R : D -> D -> Prop) (s s' : symtab D) : Prop :=
  nprim s' = nprim s /\ exists h h', table s = Some h /\ table s' = Some h' /\ hashtab_wf cstring_ok h' /\
    forall k, kept k = true -> option_Forall2 R (hashtab_model h !! k) (hashtab_model h' !! k).

Record symtabs_rel (st st' : symtabs) : Prop := {
  sr_commons : symtab_rel every common_rel (sym_commons st) (sym_commons st');
  sr_classes : symtab_rel every class_rel (sym_classes st) (sym_classes st');
  sr_roles : symtab_rel role_kept role_rel (sym_roles st) (sym_roles st');
  sr_types : symtab_rel every eq (sym_types st) (sym_types st');
  sr_users : symtab_rel every user_rel (sym_users st) (sym_users st');
  sr_bools : symtab_rel every eq (sym_bools st) (sym_bools st');
  sr_levels : symtab_rel every eq (sym_levels st) (sym_levels st');
  sr_cats : symtab_rel every eq (sym_cats st) (sym_cats st')
}.

(** Symbols that are not stored are those of the table that was read into. *)
Definition symtab_left {D} (kept : list Z -> bool) (s0 s' : symtab D) : Prop :=
  exists h0 h', table s0 = Some h0 /\ table s' = Some h' /\ forall k, kept k = false -> hashtab_model h' !! k = hashtab_model h0 !! k.

(** One table. *)
Lemma decodes_fresh {D} read write bytes ok kept R skipped (s s0 : symtab D) i :
  symbol_codec read write bytes ok kept R skipped -> (i < 8)%nat -> symtab_ok ok s -> fresh kept s0 ->
  exists s', decodes (rd_table 8 i read s0) (symtab_bytes bytes s) s' /\ symtab_rel kept R s s' /\ symtab_left kept s0 s'.
Proof.
  intros Hc Hi Hok (h0 & Ht0 & Hw0 & Hn0 & Hm0). unfold rd_table. rewrite (proj2 (Nat.ltb_lt i 8) Hi).
  destruct (decodes_symtab read write bytes ok kept R skipped Hc s s0 h0 Hok Ht0 Hw0 Hm0) as (s' & Hd & Hnp & h & h' & Hs).
  { intros h Ht. destruct Hok as (t & Ht' & _ & _ & _ & Hlt & _). unfold UINT32_MAX in *. assert (t = h) by congruence. subst. lia. }
  exists s'. split; [exact Hd|]. destruct Hs as (H1 & H2 & H3 & H4). unfold symtab_rel.
  split.
  - split; [exact Hnp|]. exists h, h'. split_and!; try done. intros k Hk. specialize (H4 k). by rewrite Hk in H4.
  - exists h0, h'. split; [done|]. split; [done|]. intros k Hk. specialize (H4 k). by rewrite Hk in H4.
Qed.

Lemma emits_table {D} read write bytes ok kept R skipped (s : symtab D) i :
  symbol_codec read write bytes ok kept R skipped -> (i < 8)%nat -> symtab_ok ok s ->
  emits (wr_table 8 i skipped write s) (symtab_bytes bytes s).
Proof.
  intros Hc Hi Hok. unfold wr_table. rewrite (proj2 (Nat.ltb_lt i 8) Hi).
  by apply (emits_symtab read write bytes ok kept R).
Qed.

Lemma table_rel_self (t : hashtab_val (list Z) common_datum) :
  map_Forall common_ok (hashtab_model t) -> hashtab_wf cstring_ok t -> table_rel common_rel t t.
Proof.
  intros Hok Hw k. destruct (hashtab_model t !! k) as [c|] eqn:E; [|constructor]. constructor. split; [done|]. split; [done|].
  destruct (Hok k c E) as (_ & _ & p & Hp & Hwp & _). by exists p, p.
Qed.

Lemma emits_symtabs st commons :
  symtabs_ok st commons -> emits (write_symtabs POLICY_KERN vers 8 st) (symtabs_bytes st).
Proof.
  intros [Ht Hcom Hcls Hrol Htyp Husr Hbol Hlev Hcat]. unfold write_symtabs, symtabs_bytes.
  pose proof Hcom as (t & Ht' & Hw & Hok & _). assert (t = commons) by congruence. subst t.
  repeat apply emits_seq.
  - eapply emits_table; [apply common_codec|lia|done].
  - eapply emits_table; [apply (class_codec vers commons commons)|lia|done]; try done. by apply table_rel_self.
  - eapply emits_table; [by apply role_codec|lia|done].
  - eapply emits_table; [by apply type_codec|lia|done].
  - eapply emits_table; [by apply user_codec|lia|done].
  - eapply emits_table; [apply bool_codec|lia|done].
  - eapply emits_table; [apply sens_codec|lia|done].
  - eapply emits_table; [apply cat_codec|lia|done].
Qed.

Lemma decodes_symtabs_roles st st0 commons :
  symtabs_ok st commons -> symtabs_fresh st0 ->
  exists st', decodes (read_symtabs POLICY_KERN vers 8 st0) (symtabs_bytes st) st' /\ symtabs_rel st st' /\
    symtab_left role_kept (sym_roles st0) (sym_roles st').
Proof.
  intros [Ht Hcom Hcls Hrol Htyp Husr Hbol Hlev Hcat] [F1 F2 F3 F4 F5 F6 F7 F8].
  destruct (decodes_fresh _ _ _ _ _ _ _ _ _ 0 common_codec ltac:(lia) Hcom F1) as (s1 & D1 & R1 & L1).
  pose proof R1 as (_ & h & h1 & Eh & E1 & W1 & Hrel). assert (h = commons) by congruence. subst h.
  assert (Hr1 : table_rel common_rel commons h1) by (intros k; by apply Hrel).
  destruct (decodes_fresh _ _ _ _ _ _ _ _ _ 1 (class_codec vers commons h1 Hvers Hr1 W1) ltac:(lia) Hcls F2) as (s2 & D2 & R2 & L2).
  destruct (decodes_fresh _ _ _ _ _ _ _ _ _ 2 (role_codec vers Hvers) ltac:(lia) Hrol F3) as (s3 & D3 & R3 & L3).
  destruct (decodes_fresh _ _ _ _ _ _ _ _ _ 3 (type_codec vers Hvers) ltac:(lia) Htyp F4) as (s4 & D4 & R4 & L4).
  destruct (decodes_fresh _ _ _ _ _ _ _ _ _ 4 (user_codec vers Hvers) ltac:(lia) Husr F5) as (s5 & D5 & R5 & L5).
  destruct (decodes_fresh _ _ _ _ _ _ _ _ _ 5 (bool_codec vers) ltac:(lia) Hbol F6) as (s6 & D6 & R6 & L6).
  destruct (decodes_fresh _ _ _ _ _ _ _ _ _ 6 sens_codec ltac:(lia) Hlev F7) as (s7 & D7 & R7 & L7).
  destruct (decodes_fresh _ _ _ _ _ _ _ _ _ 7 cat_codec ltac:(lia) Hcat F8) as (s8 & D8 & R8 & L8).
  exists (Symtabs s1 s2 s3 s4 s5 s6 s7 s8). split; [|split; [by split|exact L3]].
  unfold read_symtabs, symtabs_bytes. eapply decodes_bind; [exact D1|]. rewrite E1.
  eapply decodes_bind; [exact D2|]. eapply decodes_bind; [exact D3|]. eapply decodes_bind; [exact D4|].
  eapply decodes_bind; [exact D5|]. eapply decodes_bind; [exact D6|]. eapply decodes_bind; [exact D7|].
  rewrite <-(app_nil_r (symtab_bytes cat_bytes _)). eapply decodes_bind; [exact D8|apply decodes_ret].
Qed.

Lemma decodes_symtabs st st0 commons :
  symtabs_ok st commons -> symtabs_fresh st0 ->
  exists st', decodes (read_symtabs POLICY_KERN vers 8 st0) (symtabs_bytes st) st' /\ symtabs_rel st st'.
Proof. intros Hok Hf. destruct (decodes_symtabs_roles st st0 commons Hok Hf) as (st' & Hd & Hr & _). by exists st'. Qed.
End trip.

(** * The symbol tables of a policy: what the reader accepts *)

(** A table whose data have a property. *)
Definition tab_ok {D} (P : D -> Prop) (t : symbols D) : Prop :=
  exists h, t = Some h /\ hashtab_wf cstring_ok h /\ map_Forall (fun _ => P) (hashtab_model h).

(** Whatever the allocator does, an insertion that succeeds keeps the property. *)
Lemma accepts_insert {D} (P : D -> Prop) t k d :
  tab_ok P t -> cstring_ok k -> P d -> accepts (rd_call (hashtab_insert t k d)) (tab_ok P).
Proof.
  intros (h & -> & Hw & Hf) Hk Hd. apply accepts_call. intros o a o' E.
  destruct (hashtab_insert_spec cstring_ok h k d o 0 a o' Hw Hk E) as (h' & -> & Hw' & Hc). exists h'. split_and!; try done.
  destruct Hc as [(_ & _ & ->)|[(? & _)|(? & _)]]; [|done|done]. by apply map_Forall_insert_2.
Qed.

Lemma accepts_name len : accepts (str_read len) cstring_ok.
Proof. apply accepts_str. Qed.

Lemma accepts_init {D} (P : D -> Prop) :
  accepts (rd_call (symtab_init (Symtab None 0) PERM_SYMTAB_SIZE)) (fun s => tab_ok P (table s)).
Proof.
  apply accepts_call. intros o s o'. unfold symtab_init. destruct (hashtab_create PERM_SYMTAB_SIZE o) as [[h|] o1] eqn:E; [|done].
  assert (h = Hashtab (replicate 32 []) 32 0) as -> by (unfold hashtab_create in E; by alloc_inv).
  intros [= <- _]. eexists. split; [reflexivity|]. split.
  - split_and!; simpl; try done. by apply (table_wf_empty cstring_ok 32).
  - change (hashtab_model _) with (∅ : gmap (list Z) D). apply map_Forall_empty.
Qed.

(** A loop that inserts into a table, and a whole symbol table. *)
Lemma accepts_table {D} (P : D -> Prop) (read : symbols D -> reader (symbols D)) n t :
  tab_ok P t -> (forall t, tab_ok P t -> accepts (read t) (tab_ok P)) -> accepts (rd_loop n read t) (tab_ok P).
Proof. intros Ht Hr. by apply accepts_loop. Qed.

Definition sym_ok {D} (P : D -> Prop) (s : symtab D) : Prop := tab_ok P (table s).

Lemma accepts_rd_table {D} (P : D -> Prop) sym_num i (read : symbols D -> reader (symbols D)) s :
  sym_ok P s -> (forall t, tab_ok P t -> accepts (read t) (tab_ok P)) ->
  accepts (rd_table sym_num i read s) (sym_ok P).
Proof.
  intros Hs Hr. unfold rd_table. destruct (_ <? _)%nat; [|by apply accepts_ret]. unfold read_symtab.
  eapply accepts_bind; [apply accepts_entry|]. intros buf _. cbn zeta.
  eapply accepts_bind; [apply accepts_available|]. intros _ _.
  eapply accepts_bind; [apply accepts_require|]. intros [] _.
  eapply accepts_bind; [by apply accepts_table|]. intros t Ht. by apply accepts_ret.
Qed.

(** ** Permissions, commons and classes *)

Definition perm_valid (np : Z) (d : perm_datum) : Prop := 1 <= perm_value d <= np.

(** At most 32 permissions, each with a bit of its own range. *)
Definition perms_valid (s : symtab perm_datum) : Prop :=
  0 <= nprim s <= PERM_SYMTAB_SIZE /\ tab_ok (perm_valid (nprim s)) (table s).

Definition common_valid (c : common_datum) : Prop := word (com_value c) /\ perms_valid (com_permissions c).

Lemma accepts_perm np t :
  tab_ok (perm_valid np) t -> accepts (perm_read np t) (tab_ok (perm_valid np)).
Proof.
  intros Ht. unfold perm_read. eapply accepts_bind; [apply accepts_alloc|]. intros _ _.
  eapply accepts_bind; [apply accepts_entry|]. intros buf Hb.
  eapply accepts_bind; [apply accepts_name|]. intros key Hk.
  eapply accepts_bind; [apply accepts_require|]. intros [] Hv. pose proof (le32_bytes buf 1 Hb).
  apply accepts_insert; [done|done|]. unfold value_isvalid in Hv. apply negb_true_iff, orb_false_iff in Hv as [H1%Z.eqb_neq H2%Z.ltb_ge].
  unfold perm_valid. cbn [perm_value]. lia.
Qed.

Lemma perms_valid_intro t np :
  0 <= np < 2 ^ 32 -> negb (PERM_SYMTAB_SIZE <? np) = true -> tab_ok (perm_valid np) t -> perms_valid (Symtab t np).
Proof. intros H0 Hn%negb_true_iff%Z.ltb_ge Ht. split; [cbn [nprim]; lia|done]. Qed.

Lemma accepts_common t : tab_ok common_valid t -> accepts (common_read t) (tab_ok common_valid).
Proof.
  intros Ht. unfold common_read. eapply accepts_bind; [apply accepts_alloc|]. intros _ _.
  eapply accepts_bind; [apply accepts_entry|]. intros buf Hb.
  eapply accepts_bind; [apply accepts_name|]. intros key Hk.
  eapply accepts_bind; [apply (accepts_init (perm_valid (le32_at buf 2)))|]. intros s Hs. cbn zeta.
  eapply accepts_bind; [apply accepts_require|]. intros [] Hn.
  eapply accepts_bind; [apply accepts_table; [exact Hs|apply accepts_perm]|]. intros p Hp.
  pose proof (le32_bytes buf 1 Hb). pose proof (le32_bytes buf 2 Hb).
  apply accepts_insert; [done|done|]. split; [done|]. by apply perms_valid_intro.
Qed.

Section format.
Context (kind vers : Z).

(** Classes have values of 16 bits, and constraints that are expressions. *)
Definition class_valid (c : class_datum) : Prop :=
  0 <= cls_value c < 2 ^ 16 /\ perms_valid (cls_permissions c) /\
  (forall cd, comdatum c = Some cd -> common_valid cd) /\
  Forall (cons_ok kind vers false) (constraints c) /\ Forall (cons_ok kind vers true) (validatetrans c).

Lemma accepts_comkey commons len :
  tab_ok common_valid commons ->
  accepts (read_comkey commons len) (fun com => forall cd, com.2 = Some cd -> common_valid cd).
Proof.
  intros (h & -> & Hw & Hf). unfold read_comkey. destruct (truthy len); [|by apply accepts_ret].
  eapply accepts_bind; [apply accepts_name|]. intros k Hk. rewrite (hashtab_search_spec cstring_ok h k Hw Hk).
  destruct (hashtab_model h !! k) as [cd|] eqn:E; [|by intros fp o a fp' o' _ ?].
  apply accepts_ret. intros cd' [= <-]. by apply (Hf k).
Qed.

Lemma accepts_trans : accepts (read_validatetrans kind vers) (Forall (cons_ok kind vers true)).
Proof.
  unfold read_validatetrans. destruct (kern_or_base _ _ _ _); [|by apply accepts_ret].
  eapply accepts_bind; [apply accepts_entry|]. intros buf _. apply accepts_cons_helper.
Qed.

Lemma accepts_class commons t :
  tab_ok common_valid commons -> tab_ok class_valid t -> accepts (class_read kind vers commons t) (tab_ok class_valid).
Proof.
  intros Hc Ht. unfold class_read. eapply accepts_bind; [apply accepts_alloc|]. intros _ _.
  eapply accepts_bind; [apply accepts_entry|]. intros buf Hb.
  eapply accepts_bind; [apply accepts_name|]. intros key Hk. cbn zeta.
  eapply accepts_bind; [apply accepts_require|]. intros [] Hv%negb_true_iff%Z.ltb_ge.
  eapply accepts_bind; [apply (accepts_init (perm_valid (le32_at buf 3)))|]. intros s Hs.
  eapply accepts_bind; [apply accepts_require|]. intros [] Hn.
  eapply accepts_bind; [by apply accepts_comkey|]. intros com Hcom.
  eapply accepts_bind; [apply accepts_table; [exact Hs|apply accepts_perm]|]. intros p Hp.
  eapply accepts_bind; [apply accepts_cons_helper|]. intros cons Hcons.
  eapply accepts_bind; [apply accepts_trans|]. intros trans Htrans.
  eapply (accepts_bind _ _ (fun _ => True)).
  { unfold read_defaults. destruct (kern_or_base _ _ _ _); [|by apply accepts_ret].
    eapply accepts_bind; [apply accepts_entry|]. intros b _. by apply accepts_ret. }
  intros defaults _. eapply (accepts_bind _ _ (fun _ => True)).
  { unfold read_default_type. destruct (kern_or_base _ _ _ _); [|by apply accepts_ret].
    eapply accepts_bind; [apply accepts_entry|]. intros b _. by apply accepts_ret. }
  intros type _. pose proof (le32_bytes buf 2 Hb). pose proof (le32_bytes buf 3 Hb).
  apply accepts_insert; [done|done|]. split; [cbn [cls_value]; lia|]. split; [by apply perms_valid_intro|by split].
Qed.

(** ** The other kinds *)

Definition role_valid (d : role_datum) : Prop := ebitmap_wf (dominates d) /\ type_set_ok (ro_types d) /\ ebitmap_wf (ro_roles d).

Lemma accepts_role t : tab_ok role_valid t -> accepts (role_read kind vers t) (tab_ok role_valid).
Proof.
  intros Ht. unfold role_read. eapply accepts_bind; [apply accepts_alloc|]. intros _ _.
  eapply accepts_bind; [apply accepts_entry|]. intros buf _.
  eapply accepts_bind; [apply accepts_name|]. intros key Hk. cbn zeta.
  eapply accepts_bind; [apply accepts_ebitmap|]. intros dom Hdom.
  eapply (accepts_bind _ _ type_set_ok).
  { unfold read_role_types. destruct (kern kind); [|apply accepts_type_set].
    eapply accepts_bind; [apply accepts_ebitmap|]. intros ts Hts. by apply accepts_ret. }
  intros ts Hts. eapply (accepts_bind _ _ (fun f => ebitmap_wf f.2)).
  { unfold read_role_flavor. destruct (_ && _); [|by apply accepts_ret].
    eapply accepts_bind; [apply accepts_entry|]. intros b _.
    eapply accepts_bind; [apply accepts_ebitmap|]. intros r Hr. by apply accepts_ret. }
  intros f Hf. destruct (strcmp key OBJECT_R =? 0).
  - eapply accepts_bind; [apply accepts_require|]. intros [] _. by apply accepts_ret.
  - by apply accepts_insert.
Qed.

Definition type_valid (d : type_datum) : Prop := word (ty_value d) /\ ebitmap_wf (ty_types d).

Lemma accepts_type t : tab_ok type_valid t -> accepts (type_read kind vers t) (tab_ok type_valid).
Proof.
  intros Ht. unfold type_read. eapply accepts_bind; [apply accepts_alloc|]. intros _ _.
  eapply accepts_bind; [apply accepts_entry|]. intros buf Hb.
  eapply (accepts_bind _ _ ebitmap_wf).
  { destruct (kern kind); [by apply accepts_ret|apply accepts_ebitmap]. }
  intros ts Hts. eapply accepts_bind; [apply accepts_name|]. intros key Hk. pose proof (le32_bytes buf 1 Hb).
  apply accepts_insert; [done|done|]. unfold read_typdatum. by repeat case_match.
Qed.

Definition level_valid (l : mls_level) : Prop := word (sens l) /\ ebitmap_wf (cat l).

Lemma accepts_level : accepts mls_read_level level_valid.
Proof.
  unfold mls_read_level. eapply accepts_bind; [apply accepts_entry|]. intros buf Hb.
  eapply accepts_bind; [apply accepts_ebitmap|]. intros c Hc. apply accepts_ret. split; [|done].
  exact (le32_bytes buf 0 Hb).
Qed.

Lemma accepts_range :
  accepts mls_read_range_helper (fun r => level_valid (level_low r) /\ level_valid (level_high r)).
Proof.
  unfold mls_read_range_helper. eapply accepts_bind; [apply accepts_entry|]. intros hd Hh. cbn zeta.
  eapply accepts_bind; [apply accepts_require|]. intros [] _.
  eapply accepts_bind; [apply accepts_entry|]. intros buf Hb.
  eapply accepts_bind; [apply accepts_ebitmap|]. intros low Hl.
  eapply (accepts_bind _ _ ebitmap_wf).
  { destruct (1 <? _); [apply accepts_ebitmap|]. apply accepts_call. intros o e o' E.
    pose proof (ebitmap_cpy_spec low o) as H. rewrite E in H. by destruct H as [[_ ->]|(? & _)]. }
  intros high Hhi. apply accepts_ret. unfold level_valid. cbn [level_low level_high sens cat].
  split; (split; [|done]); repeat case_match; apply le32_bytes; done.
Qed.

Definition sens_valid (d : level_datum) : Prop := exists l, level d = Some l /\ level_valid l.

Lemma accepts_sens t : tab_ok sens_valid t -> accepts (sens_read t) (tab_ok sens_valid).
Proof.
  intros Ht. unfold sens_read. eapply accepts_bind; [apply accepts_alloc|]. intros _ _.
  eapply accepts_bind; [apply accepts_entry|]. intros buf _.
  eapply accepts_bind; [apply accepts_name|]. intros key Hk.
  eapply accepts_bind; [apply accepts_alloc|]. intros _ _.
  eapply accepts_bind; [apply accepts_level|]. intros l Hl. apply accepts_insert; [done|done|]. by exists l.
Qed.

Lemma accepts_cat t : tab_ok (fun d => word (cat_value d)) t -> accepts (cat_read t) (tab_ok (fun d => word (cat_value d))).
Proof.
  intros Ht. unfold cat_read. eapply accepts_bind; [apply accepts_alloc|]. intros _ _.
  eapply accepts_bind; [apply accepts_entry|]. intros buf Hb.
  eapply accepts_bind; [apply accepts_name|]. intros key Hk. apply accepts_insert; [done|done|].
  exact (le32_bytes buf 1 Hb).
Qed.

Definition bool_valid (d : cond_bool_datum) : Prop := bool_state d = 0 \/ bool_state d = 1.

Lemma accepts_bool t : tab_ok bool_valid t -> accepts (cond_read_bool kind vers t) (tab_ok bool_valid).
Proof.
  intros Ht. unfold cond_read_bool. eapply accepts_bind; [apply accepts_alloc|]. intros _ _.
  eapply accepts_bind; [apply accepts_entry|]. intros buf _.
  eapply accepts_bind; [apply accepts_require|]. intros [] Hs.
  eapply accepts_bind; [apply accepts_name|]. intros key Hk.
  eapply (accepts_bind _ _ (fun _ => True)).
  { unfold read_bool_flags. destruct (has_tunables _ _); [|by apply accepts_ret].
    eapply accepts_bind; [apply accepts_entry|]. intros b _. by apply accepts_ret. }
  intros flags _. apply accepts_insert; [done|done|].
  unfold bool_isvalid in Hs. apply orb_true_iff in Hs as [?%Z.eqb_eq|?%Z.eqb_eq]; [by left|by right].
Qed.

Definition range_valid (r : mls_range) : Prop := level_valid (level_low r) /\ level_valid (level_high r).

Definition user_valid (u : user_datum) : Prop :=
  ebitmap_wf (rs_roles (us_roles u)) /\ range_valid (exp_range u) /\ level_valid (exp_dfltlevel u).

Lemma accepts_any {A} (r : reader A) :
  (forall fp o a fp' o', r fp o = Some (a, fp', o') -> fp' = fp) -> accepts r (fun _ => True).
Proof. intros Hr fp o a fp' o' Hb E. by rewrite (Hr _ _ _ _ _ E). Qed.

Lemma accepts_to_semantic l : accepts (mls_level_to_semantic l) (fun _ => True).
Proof. apply accepts_any. intros fp o a fp' o'. unfold mls_level_to_semantic. repeat case_match; congruence. Qed.

Lemma accepts_semantic_level : accepts mls_read_semantic_level_helper (fun _ => True).
Proof.
  unfold mls_read_semantic_level_helper. eapply accepts_bind; [apply accepts_entry|]. intros buf _.
  eapply accepts_bind; [apply (accepts_loop _ (fun _ => True)); [done|]|intros l _; by apply accepts_ret].
  intros l _. unfold read_semantic_cat. eapply accepts_bind; [apply accepts_alloc|]. intros _ _.
  eapply accepts_bind; [apply accepts_entry|]. intros b _. by apply accepts_ret.
Qed.

Lemma level_init_valid : level_valid mls_level_init.
Proof. split; [done|apply ebitmap_init_empty]. Qed.

Lemma accepts_user_levels :
  accepts (read_user_levels kind vers) (fun ls => range_valid ls.1.2 /\ level_valid ls.2).
Proof.
  pose proof level_init_valid as Hi. unfold read_user_levels. destruct (expanded_levels _ _); [|destruct (semantic_levels _ _); [|by apply accepts_ret]].
  - eapply accepts_bind; [apply accepts_range|]. intros r Hr. eapply accepts_bind; [apply accepts_level|]. intros l Hl.
    destruct (kern kind); [by apply accepts_ret|].
    eapply (accepts_bind _ _ (fun _ => True)).
    { unfold mls_range_to_semantic. do 2 (eapply accepts_bind; [apply accepts_to_semantic|]; intros ? _). by apply accepts_ret. }
    intros sr _. eapply accepts_bind; [apply accepts_to_semantic|]. intros sl _. by apply accepts_ret.
  - eapply (accepts_bind _ _ (fun _ => True)).
    { unfold mls_read_semantic_range_helper. do 2 (eapply accepts_bind; [apply accepts_semantic_level|]; intros ? _). by apply accepts_ret. }
    intros sr _. eapply accepts_bind; [apply accepts_semantic_level|]. intros sl _. by apply accepts_ret.
Qed.

Lemma accepts_user t : tab_ok user_valid t -> accepts (user_read kind vers t) (tab_ok user_valid).
Proof.
  intros Ht. unfold user_read. cbn zeta. eapply accepts_bind; [apply accepts_alloc|]. intros _ _.
  eapply accepts_bind; [apply accepts_entry|]. intros buf _.
  eapply accepts_bind; [apply accepts_name|]. intros key Hk.
  eapply (accepts_bind _ _ (fun r => ebitmap_wf (rs_roles r))).
  { unfold read_user_roles, role_set_read. destruct (kern kind).
    - eapply accepts_bind; [apply accepts_ebitmap|]. intros r Hr. by apply accepts_ret.
    - eapply accepts_bind; [apply accepts_ebitmap|]. intros r Hr.
      eapply accepts_bind; [apply accepts_entry|]. intros b _. by apply accepts_ret. }
  intros r Hr. eapply accepts_bind; [apply accepts_user_levels|]. intros [[[sr sl] range] lev] [Hra Hle].
  by apply accepts_insert.
Qed.

(** ** All tables *)

Record symtabs_valid (st : symtabs) : Prop := {
  sv_commons : sym_ok common_valid (sym_commons st);
  sv_classes : sym_ok class_valid (sym_classes st);
  sv_roles : sym_ok role_valid (sym_roles st);
  sv_types : sym_ok type_valid (sym_types st);
  sv_users : sym_ok user_valid (sym_users st);
  sv_bools : sym_ok bool_valid (sym_bools st);
  sv_levels : sym_ok sens_valid (sym_levels st);
  sv_cats : sym_ok (fun d => word (cat_value d)) (sym_cats st)
}.

Lemma accepts_symtabs sym_num st : symtabs_valid st -> accepts (read_symtabs kind vers sym_num st) symtabs_valid.
Proof.
  intros [H1 H2 H3 H4 H5 H6 H7 H8]. unfold read_symtabs.
  eapply accepts_bind; [apply (accepts_rd_table _ _ _ _ _ H1), accepts_common|]. intros s1 G1.
  eapply accepts_bind; [apply (accepts_rd_table _ _ _ _ _ H2); intros t; by apply accepts_class|]. intros s2 G2.
  eapply accepts_bind; [apply (accepts_rd_table _ _ _ _ _ H3), accepts_role|]. intros s3 G3.
  eapply accepts_bind; [apply (accepts_rd_table _ _ _ _ _ H4), accepts_type|]. intros s4 G4.
  eapply accepts_bind; [apply (accepts_rd_table _ _ _ _ _ H5), accepts_user|]. intros s5 G5.
  eapply accepts_bind; [apply (accepts_rd_table _ _ _ _ _ H6), accepts_bool|]. intros s6 G6.
  eapply accepts_bind; [apply (accepts_rd_table _ _ _ _ _ H7), accepts_sens|]. intros s7 G7.
  eapply accepts_bind; [apply (accepts_rd_table _ _ _ _ _ H8), accepts_cat|]. intros s8 G8.
  apply accepts_ret. by split.
Qed.
End format.
