(* ===== verification/SymbolsProps.v ===== *)
(** * The properties of the symbols of a policy, with concrete instances *)

From S2P Require Import Prelude Policyfile Ebitmap EbitmapSpec EbitmapQuery EbitmapUpdate EbitmapProps Hashtab HashtabSpec Symtab Codec Avtab.
From S2P Require Import Policydb SepolicyProps Symbols CodecTable SymbolsCodec SymbolsKinds SymbolsTrip.

(** C18: round trip of the symbols of a kernel policy from version 24 on.
    [policydb_write] puts out the eight symbol tables of a policy whose symbols the
    version can hold, and from these bytes [policydb_read] builds tables with the same
    names and values: types, booleans, levels and categories are equal, roles and users
    are equal but for their caches, commons and classes have the same permissions, and
    classes the same constraints, defaults and common; it stops right after them. *)
Theorem symtabs_roundtrip vers st commons fp :
  POLICYDB_VERSION_BOUNDARY <= vers -> symtabs_ok vers st commons ->
  can_put fp (Z.of_nat (length (symtabs_bytes vers st))) ->
  exists bs fp', write_symtabs POLICY_KERN vers 8 st fp = Some fp' /\ wrote fp bs fp' /\
    forall st0 fr fr', symtabs_fresh st0 -> reads fr bs fr' ->
      exists st', read_symtabs POLICY_KERN vers 8 st0 fr [] = Some (st', fr', []) /\ symtabs_rel st st'.
Proof.
  intros Hv Hok Hc. destruct (emits_symtabs vers Hv st commons Hok fp Hc) as (fp' & Hw & Hb).
  exists (symtabs_bytes vers st), fp'. split; [exact Hw|]. split; [exact Hb|]. intros st0 fr fr' Hf Hr.
  destruct (decodes_symtabs vers Hv st st0 commons Hok Hf) as (st' & Hd & Hrel). exists st'.
  split; [by apply Hd|exact Hrel].
Qed.

(** C19: whatever bytes a policy or module of any version holds and whichever allocations
    fail, symbol tables that the reader accepts are well formed: every permission has a
    value from 1 to the number of permissions of its table, at most 32; classes have
    16-bit values; every constraint is an expression in postfix form that is evaluated on
    a stack of [CEXPR_MAXDEPTH] places; booleans are 0 or 1; all bitmaps and hash tables
    are well formed. *)
Theorem read_symtabs_safe kind vers sym_num st fp o :
  pf_bytes fp -> symtabs_valid kind vers st ->
  match read_symtabs kind vers sym_num st fp o with
  | None => True
  | Some (st', fp', _) => pf_bytes fp' /\ symtabs_valid kind vers st'
  end.
Proof.
  intros Hb Hv. destruct (read_symtabs kind vers sym_num st fp o) as [[[st' fp'] o']|] eqn:E; [|done].
  by eapply (accepts_symtabs kind vers sym_num st Hv).
Qed.

(** C21: the depth test of [read_cons_helper] is exact.  A constraint whose expressions
    are well formed each is read back from its bytes exactly when its expressions are the
    postfix form of one tree of "not", "and", "or" and comparisons whose evaluation needs
    at most [CEXPR_MAXDEPTH] places of the stack. *)
Theorem read_cons_exact kind vers allowxtarget c fp fp' :
  word (permissions c) -> Z.of_nat (length (expr c)) < 2 ^ 32 -> Forall (expr_ok kind vers allowxtarget) (expr c) ->
  pf_bytes fp -> reads fp (cons_bytes kind vers c) fp' ->
  read_cons kind vers allowxtarget [] fp [] = Some ([c], fp', []) <->
  exists t, expr c = postfix t /\ cexpr_wf t /\ stack_size t <= CEXPR_MAXDEPTH.
Proof.
  intros Hp Hl He Hb Hr. split.
  - intros E. destruct (accepts_cons kind vers allowxtarget [] (Forall_nil_2 _) fp [] _ _ _ Hb E) as [_ Hf].
    apply Forall_cons in Hf as [(_ & _ & _ & Hv) _]. exact Hv.
  - intros Hv. by apply (decodes_cons kind vers allowxtarget []).
Qed.

(** ** A policy with symbols of every kind *)

Definition one (b : Z) : ebitmap := (ebitmap_set_bit ebitmap_init b true []).1.2.

Definition ex_perms : symtab perm_datum := mk_symtab [([114], PermDatum 1); ([119], PermDatum 2)].
Definition ex_common : common_datum := CommonDatum 1 ex_perms.

(** "source type is 0 or source role equals target role" *)
Definition ex_names : constraint_expr := ConstraintExpr CEXPR_NAMES 4 1 (one 0) (Some (TypeSet (one 0) ebitmap_init 0)).
Definition ex_attr : constraint_expr := ConstraintExpr CEXPR_ATTR 2 1 ebitmap_init (Some type_set_init).
Definition ex_or : constraint_expr := ConstraintExpr CEXPR_OR 0 0 ebitmap_init (Some type_set_init).
Definition ex_cons : constraint_node := ConstraintNode 3 [ex_names; ex_attr; ex_or].

Definition ex_sym_class : class_datum :=
  ClassDatum 1 (Some [99]) (Some ex_common) ex_perms [ex_cons] [] 1 0 2 3.

Definition ex_role (v : Z) : role_datum := RoleDatum v (one 0) (TypeSet (if v =? 1 then ebitmap_init else one 0) ebitmap_init 0) ebitmap_init 0 ROLE_ROLE ebitmap_init.

Definition ex_level : mls_level := MlsLevel 1 (one 0).

Definition ex_user : user_datum :=
  UserDatum 1 (RoleSet (one 1) 0) mls_semantic_range_init mls_semantic_level_init ebitmap_init
    (MlsRange (MlsLevel 1 ebitmap_init) ex_level) ex_level 0.

Definition ex_symtabs : symtabs :=
  Symtabs (mk_symtab [([99], ex_common)]) (mk_symtab [([102], ex_sym_class)])
    (mk_symtab [(OBJECT_R, ex_role 1); ([114], ex_role 2)])
    (mk_symtab [([116], plain_type 1 1 TYPE_TYPE); ([97], plain_type 2 1 TYPE_ATTRIB)])
    (mk_symtab [([117], ex_user)]) (mk_symtab [([98], BoolDatum 1 1 0)])
    (mk_symtab [([115], LevelDatum (Some ex_level) 0 0)]) (mk_symtab [([99], CatDatum 1 0)]).

(** Tables as [policydb_init] makes them, with other sizes. *)
Definition ex_fresh_symtabs : symtabs :=
  Symtabs (mk_symtab []) (mk_symtab []) (mk_symtab [(OBJECT_R, ex_role 1)]) (mk_symtab []) (mk_symtab [])
    (mk_symtab []) (mk_symtab []) (mk_symtab []).

Definition holds_symbols {D} (l : list (list Z * D)) (t : symbols D) : Prop :=
  exists h, t = Some h /\ hashtab_wf cstring_ok h /\ hashtab_model h = list_to_map l /\ nel h = Z.of_nat (length l).

Lemma insert_symbols {D} (l pre : list (list Z * D)) t :
  holds_symbols pre t -> Forall (fun kd => cstring_ok kd.1) (pre ++ l) -> NoDup (pre ++ l).*1 ->
  (length (pre ++ l) < 1000)%nat ->
  holds_symbols (pre ++ l) (foldl (fun h kd => (hashtab_insert h kd.1 kd.2 []).1.2) t l).
Proof.
  revert pre t. induction l as [|[k d] l IH]; intros pre t Ht Hl Hnd Hlen; cbn [foldl].
  { by rewrite app_nil_r. }
  replace (pre ++ (k, d) :: l) with ((pre ++ [(k, d)]) ++ l) in * by (by rewrite <-app_assoc).
  apply IH; try done. destruct Ht as (h & -> & Hw & Hm & Hn). cbn [fst snd].
  apply Forall_app in Hl as [Hl _]. apply Forall_app in Hl as [_ [Hk _]%Forall_cons].
  assert (Hni : k ∉ pre.*1).
  { rewrite !fmap_app in Hnd. apply NoDup_app in Hnd as (Hnd & _). apply NoDup_app in Hnd as (_ & Hd & _).
    intros Hin. apply (Hd k Hin). by left. }
  assert (Hnone : hashtab_model h !! k = None) by (rewrite Hm; by apply not_elem_of_list_to_map_1).
  destruct (hashtab_insert_new cstring_ok h k d Hw Hk Hnone) as (h' & E & Hw' & Hm').
  { rewrite Hn. rewrite !length_app in Hlen. unfold UINT32_MAX. lia. }
  exists h'. rewrite E. split; [done|]. split; [done|]. split.
  - rewrite Hm', Hm. symmetry. by apply list_to_map_snoc.
  - rewrite (nel_size cstring_ok h' Hw'), Hm', map_size_insert_None by done.
    rewrite (nel_size cstring_ok h Hw) in Hn. rewrite length_app. simpl. lia.
Qed.

Lemma mk_symtab_holds {D} (l : list (list Z * D)) :
  Forall (fun kd => cstring_ok kd.1) l -> NoDup l.*1 -> (length l < 1000)%nat -> holds_symbols l (table (mk_symtab l)).
Proof.
  intros Hl Hnd Hlen. apply (insert_symbols l []); [|done..]. exists (Hashtab [[]; []] 2 0).
  split; [reflexivity|]. split; [|done]. split_and!; simpl; try done. by apply (table_wf_empty cstring_ok 2).
Qed.

Lemma mk_symtab_ok {D} (ok : list Z -> D -> Prop) (l : list (list Z * D)) :
  Forall (fun kd => cstring_ok kd.1 /\ ok kd.1 kd.2) l -> NoDup l.*1 -> (0 < length l < 1000)%nat ->
  symtab_ok ok (mk_symtab l).
Proof.
  intros Hl Hnd Hlen. destruct (mk_symtab_holds l) as (h & Ht & Hw & Hm & Hn); [|done|lia|].
  { eapply Forall_impl; [exact Hl|]. by intros kd []. }
  exists h. split; [done|]. split; [done|]. rewrite Hn. cbn [mk_symtab nprim]. unfold UINT32_MAX.
  split; [|lia]. rewrite Hm. intros k d Hk%elem_of_list_to_map_2.
  rewrite Forall_forall in Hl. by apply (Hl (k, d)).
Qed.

Lemma mk_symtab_fresh {D} (kept : list Z -> bool) (l : list (list Z * D)) :
  Forall (fun kd => cstring_ok kd.1 /\ kept kd.1 = false) l -> NoDup l.*1 -> (length l <= 1)%nat ->
  fresh kept (mk_symtab l).
Proof.
  intros Hl Hnd Hlen. destruct (mk_symtab_holds l) as (h & Ht & Hw & Hm & Hn); [|done|lia|].
  { eapply Forall_impl; [exact Hl|]. by intros kd []. }
  exists h. split_and!; try done; [lia|]. intros k Hk. rewrite Hm. apply not_elem_of_list_to_map_1.
  intros ([k' d] & -> & Hin)%list_elem_of_fmap. rewrite Forall_forall in Hl. destruct (Hl _ Hin) as [_ Hf].
  cbn in Hk, Hf. congruence.
Qed.

(** ** Its symbols can be stored *)

Lemma one_wf b : 0 <= b < 2 ^ 32 - MAPSIZE -> ebitmap_wf (one b).
Proof.
  intros Hb. unfold one. destruct (ebitmap_set_bit ebitmap_init b true []) as [[rc e] o] eqn:E.
  by destruct (ebitmap_set_bit_spec ebitmap_init b true [] rc e o (proj1 ebitmap_init_empty) Hb E).
Qed.

Ltac small := unfold word, byte, MAPSIZE; cbn; lia.

Lemma short_key k : cstring_ok k -> k <> [] -> (length k < 1000)%nat -> key_fits32 k.
Proof. intros Hk Hne Hl. split_and!; try done. lia. Qed.

Lemma letter_key c : 1 <= c < 2 ^ 8 -> key_fits32 [c].
Proof. intros Hc. apply short_key; [by repeat constructor; lia|done|simpl; lia]. Qed.

Lemma ex_perms_ok : perms_ok ex_perms.
Proof.
  destruct (mk_symtab_holds [([114], PermDatum 1); ([119], PermDatum 2)]) as (h & Ht & Hw & Hm & _).
  - repeat constructor; cbn; lia.
  - apply NoDup_cons. split; [by intros ?%list_elem_of_singleton|apply NoDup_singleton].
  - simpl. lia.
  - exists h. split; [exact Ht|]. split; [exact Hw|]. split; [|cbn; unfold PERM_SYMTAB_SIZE; lia].
    rewrite Hm. intros k d Hk%elem_of_list_to_map_2. rewrite !elem_of_cons, elem_of_nil in Hk.
    destruct Hk as [[= -> ->]|[[= -> ->]|[]]]; (split; [apply letter_key; lia|small]).
Qed.

Lemma ex_cons_ok : cons_ok POLICY_KERN 30 false ex_cons.
Proof.
  split; [small|]. split; [small|]. split.
  - assert (Hw : ebitmap_wf (one 0)) by (apply one_wf; small).
    repeat constructor; try small; try done. eexists. split; [reflexivity|]. by split_and!.
  - apply depth_valid. vm_compute. reflexivity.
Qed.

(** The conditions of [mk_symtab_ok] for tables of one or two symbols. *)
Lemma one_symbol_ok {D} (ok : list Z -> D -> Prop) k d :
  key_fits32 k -> ok k d -> symtab_ok ok (mk_symtab [(k, d)]).
Proof.
  intros (Hk & _) Hd. apply mk_symtab_ok; [by constructor|apply NoDup_singleton|simpl; lia].
Qed.

Lemma two_symbols_ok {D} (ok : list Z -> D -> Prop) k1 d1 k2 d2 :
  key_fits32 k1 -> key_fits32 k2 -> k1 <> k2 -> ok k1 d1 -> ok k2 d2 -> symtab_ok ok (mk_symtab [(k1, d1); (k2, d2)]).
Proof.
  intros (Hk1 & _) (Hk2 & _) Hne H1 H2. apply mk_symtab_ok; [by repeat constructor| |simpl; lia].
  apply NoDup_cons. split; [by intros ?%list_elem_of_singleton|apply NoDup_singleton].
Qed.

Lemma ex_role_ok k v : key_fits32 k -> (v = 1 <-> k = OBJECT_R) -> 0 <= v < 100 -> role_ok k (ex_role v).
Proof.
  intros Hk Hv Hr. assert (Hw : ebitmap_wf (one 0)) by (apply one_wf; small).
  split; try done; try small. cbn. destruct (v =? 1); eexists; (split; [reflexivity|]); [apply ebitmap_init_empty|done].
Qed.

Lemma ex_level_ok : level_ok ex_level.
Proof. split; [small|]. apply one_wf. small. Qed.

Lemma ex_user_ok : user_ok [117] ex_user.
Proof.
  split; [apply letter_key; lia|small|small| |split; [|exact ex_level_ok]|exact ex_level_ok].
  - eexists. split; [reflexivity|]. apply one_wf. small.
  - split; [small|apply ebitmap_init_empty].
Qed.

Lemma object_r_fits : key_fits32 OBJECT_R.
Proof. apply short_key; [exact object_r_ok|done|simpl; lia]. Qed.

Lemma ex_symtabs_ok : exists commons, symtabs_ok 30 ex_symtabs commons.
Proof.
  destruct (mk_symtab_holds [([99], ex_common)]) as (commons & Ht & Hw & Hm & _);
    [repeat constructor; cbn; lia|apply NoDup_singleton|simpl; lia|].
  assert (Hc : common_ok [99] ex_common) by (split; [apply letter_key; lia|split; [small|exact ex_perms_ok]]).
  assert (Hcl : class_ok 30 commons [102] ex_sym_class).
  { split; [apply letter_key; lia|small|exact ex_perms_ok| |apply Forall_singleton, ex_cons_ok|small|constructor|small|].
    - split; [apply letter_key; lia|]. exists ex_common. rewrite Hm. split; [apply lookup_insert_eq|done].
    - split; [by split_and!; small|]. unfold POLICYDB_VERSION_NEW_OBJECT_DEFAULTS, POLICYDB_VERSION_DEFAULT_TYPE, POLICYDB_VERSION_GLBLUB.
      split; [lia|]. split; [lia|done]. }
  exists commons. split; [exact Ht|..].
  - apply one_symbol_ok; [apply letter_key; lia|exact Hc].
  - apply one_symbol_ok; [apply letter_key; lia|exact Hcl].
  - apply two_symbols_ok; [exact object_r_fits|apply letter_key; lia|done|..]; apply ex_role_ok; try done; try lia;
      [exact object_r_fits|apply letter_key; lia].
  - apply two_symbols_ok; [apply letter_key; lia..|done| |]; (split; [apply letter_key; lia|]); split_and!; try small; auto.
  - apply one_symbol_ok; [apply letter_key; lia|exact ex_user_ok].
  - apply one_symbol_ok; [apply letter_key; lia|]. split; [apply letter_key; lia|]. split_and!; small.
  - apply one_symbol_ok; [apply letter_key; lia|]. split; [apply letter_key; lia|]. split_and!; try small.
    exists ex_level. split; [done|exact ex_level_ok].
  - apply one_symbol_ok; [apply letter_key; lia|]. split; [apply letter_key; lia|]. split; small.
Qed.

Lemma no_symbols_fresh {D} (kept : list Z -> bool) : fresh kept (mk_symtab (@nil (list Z * D))).
Proof. apply mk_symtab_fresh; [constructor..|simpl; lia]. Qed.

Lemma ex_fresh_ok : symtabs_fresh ex_fresh_symtabs.
Proof.
  split; [apply no_symbols_fresh|apply no_symbols_fresh| |apply no_symbols_fresh|apply no_symbols_fresh|apply no_symbols_fresh|apply no_symbols_fresh|apply no_symbols_fresh].
  apply mk_symtab_fresh; [|apply NoDup_singleton|simpl; lia].
  constructor; [split; [exact object_r_ok|reflexivity]|constructor].
Qed.

Lemma symtabs_roundtrip_witness :
  exists bs fp', write_symtabs POLICY_KERN 30 8 ex_symtabs (PolicyFile PF_USE_STDIO [] 0 []) = Some fp' /\
    wrote (PolicyFile PF_USE_STDIO [] 0 []) bs fp' /\
    forall fr fr', reads fr bs fr' ->
      exists st', read_symtabs POLICY_KERN 30 8 ex_fresh_symtabs fr [] = Some (st', fr', []) /\ symtabs_rel ex_symtabs st'.
Proof.
  destruct ex_symtabs_ok as [commons Hok].
  destruct (symtabs_roundtrip 30 ex_symtabs commons (PolicyFile PF_USE_STDIO [] 0 [])) as (bs & fp' & H1 & H2 & H3);
    [vm_compute; discriminate|exact Hok|by left|].
  exists bs, fp'. split; [exact H1|]. split; [exact H2|]. intros fr fr' Hr. exact (H3 _ fr fr' ex_fresh_ok Hr).
Defined.

(** The bytes of the example. *)
Definition ex_stream : policy_file := PolicyFile PF_USE_STDIO (symtabs_bytes 30 ex_symtabs) 0 [].

Lemma no_symbols_ok {D} (P : D -> Prop) : sym_ok P (mk_symtab []).
Proof.
  exists (Hashtab [[]; []] 2 0). split; [reflexivity|]. split; [split_and!; simpl; try done; by apply (table_wf_empty cstring_ok 2)|].
  change (hashtab_model _) with (∅ : gmap (list Z) D). apply map_Forall_empty.
Qed.

Definition ex_empty_symtabs : symtabs :=
  Symtabs (mk_symtab []) (mk_symtab []) (mk_symtab []) (mk_symtab []) (mk_symtab []) (mk_symtab []) (mk_symtab []) (mk_symtab []).

Lemma ex_empty_valid : symtabs_valid POLICY_KERN 30 ex_empty_symtabs.
Proof. split; apply no_symbols_ok. Qed.

Lemma ex_symbols_bytes : pf_bytes ex_stream.
Proof.
  unfold pf_bytes, ex_stream. cbn [pf_data].
  assert (E : symtabs_bytes 30 ex_symtabs = ltac:(let l := eval vm_compute in (symtabs_bytes 30 ex_symtabs) in exact l))
    by (vm_compute; reflexivity).
  rewrite E. repeat constructor; unfold is_byte; lia.
Qed.

Lemma read_symtabs_safe_witness :
  exists st', (read_symtabs POLICY_KERN 30 8 ex_empty_symtabs ex_stream []) ≫= (fun r => Some r.1.1) = Some st' /\
    symtabs_valid POLICY_KERN 30 st'.
Proof.
  pose proof (read_symtabs_safe POLICY_KERN 30 8 ex_empty_symtabs ex_stream [] ex_symbols_bytes ex_empty_valid) as H.
  assert (E : match read_symtabs POLICY_KERN 30 8 ex_empty_symtabs ex_stream [] with Some _ => true | None => false end = true)
    by (vm_compute; reflexivity).
  destruct (read_symtabs POLICY_KERN 30 8 ex_empty_symtabs ex_stream []) as [[[st' fp'] o']|];
    [|discriminate E].
  exists st'. split; [reflexivity|]. exact (proj2 H).
Defined.

Lemma read_cons_exact_witness :
  exists fp', read_cons POLICY_KERN 30 false [] (PolicyFile PF_USE_STDIO (cons_bytes POLICY_KERN 30 ex_cons) 0 []) [] =
    Some ([ex_cons], fp', []).
Proof.
  destruct ex_cons_ok as (Hp & Hl & He & Hv). exists (PolicyFile PF_USE_STDIO [] 0 []).
  apply (read_cons_exact POLICY_KERN 30 false ex_cons); [exact Hp|exact Hl|exact He| | |].
  - unfold pf_bytes. cbn [pf_data].
    assert (E : cons_bytes POLICY_KERN 30 ex_cons = ltac:(let l := eval vm_compute in (cons_bytes POLICY_KERN 30 ex_cons) in exact l))
      by (vm_compute; reflexivity).
    rewrite E. repeat constructor; unfold is_byte; lia.
  - exists []. cbn [pf_data pf_type pf_out pf_len]. rewrite app_nil_r. split_and!; try done. by left.
  - exists (CBin ex_or (CLeaf ex_names) (CLeaf ex_attr)). split; [reflexivity|].
    split; [cbn; auto|]. vm_compute. discriminate.
Defined.
