(* ===== verification/PolicyIndex.v ===== *)
(** * Arrays indexed by value, and the caches of roles and users
    (libsepol/src/policydb.c, conditional.c, expand.c)

    [policydb_index_classes], [policydb_index_decls] and [policydb_index_others] rebuild the
    arrays from the symbol tables; the last also expands the type sets of roles and the
    role sets of users into their caches.  A step takes the policy and the allocator to a
    return code and the new state, with what was written before a failure; [None] is a
    crash: an access outside of an array, through [NULL], or a failed [assert]. *)

From S2P Require Import Prelude Policyfile Ebitmap Hashtab Symtab Avtab Policydb Sepolicy SepolicyAttr Symbols.

Definition TYPE_STAR : Z := 1.
Definition TYPE_COMP : Z := 2.
Definition ROLE_STAR : Z := 1.
Definition ROLE_COMP : Z := 2.
Definition TYPE_FLAGS_EXPAND_ATTR_TRUE : Z := 2.

Definition SYM_COMMONS : nat := 0.
Definition SYM_CLASSES : nat := 1.
Definition SYM_ROLES : nat := 2.
Definition SYM_TYPES : nat := 3.
Definition SYM_USERS : nat := 4.
Definition SYM_BOOLS : nat := 5.
Definition SYM_LEVELS : nat := 6.
Definition SYM_CATS : nat := 7.

(** ** Steps *)

Definition step : Type := state -> option (Z * state).

(** [if (s1) return rc; s2]. *)
Definition step_seq (s1 s2 : step) : step := fun s =>
  match s1 s with
  | Some (rc, s) => if truthy rc then Some (rc, s) else s2 s
  | None => None
  end.

Declare Scope step_scope.
Notation "s1 ;> s2" := (step_seq s1 s2) (at level 60, right associativity) : step_scope.
Open Scope step_scope.

(** [calloc] of an array of [n] pointers that is stored by [put]; [NULL] is []. *)
Definition step_calloc {A} (n : Z) (put : list (option A) -> policydb -> policydb) : step := fun s =>
  let (db, o) := s in
  let (ok, o) := malloc o in
  if ok then Some (0, (put (replicate (Z.to_nat n) None) db, o)) else Some (-1, (put [] db, o)).

(** ** Writing fields *)

Definition set_symtab (st : symtabs) (db : policydb) : policydb :=
  Policydb (policy_type db) (target_platform db) (policyvers db) st (te_avtab db) (filename_trans db)
    (filename_trans_count db) (type_val_to_struct db) (type_attr_map db) (attr_type_map db)
    (permissive_map db) (p_mls db) (p_scope db) (p_global db) (p_index db) (p_genfs db).

Definition set_roles (h : symbols role_datum) (st : symtabs) : symtabs :=
  Symtabs (sym_commons st) (sym_classes st) (Symtab h (nprim (sym_roles st))) (sym_types st) (sym_users st)
    (sym_bools st) (sym_levels st) (sym_cats st).

Definition set_users (h : symbols user_datum) (st : symtabs) : symtabs :=
  Symtabs (sym_commons st) (sym_classes st) (sym_roles st) (sym_types st) (Symtab h (nprim (sym_users st)))
    (sym_bools st) (sym_levels st) (sym_cats st).

Definition set_type_structs (l : list (option type_datum)) (db : policydb) : policydb :=
  Policydb (policy_type db) (target_platform db) (policyvers db) (p_symtab db) (te_avtab db) (filename_trans db)
    (filename_trans_count db) l (type_attr_map db) (attr_type_map db)
    (permissive_map db) (p_mls db) (p_scope db) (p_global db) (p_index db) (p_genfs db).

Definition set_index (ix : indexes) (db : policydb) : policydb :=
  Policydb (policy_type db) (target_platform db) (policyvers db) (p_symtab db) (te_avtab db) (filename_trans db)
    (filename_trans_count db) (type_val_to_struct db) (type_attr_map db) (attr_type_map db)
    (permissive_map db) (p_mls db) (p_scope db) (p_global db) ix (p_genfs db).

(** The array of names of one symbol table, and the arrays of structures. *)
Definition names_of (i : nat) (db : policydb) : list (option (list Z)) :=
  default [] (sym_val_to_name (p_index db) !! i).

Definition set_names (i : nat) (l : list (option (list Z))) (db : policydb) : policydb :=
  let ix := p_index db in
  set_index (Indexes (<[i := l]> (sym_val_to_name ix)) (class_val_to_struct ix) (role_val_to_struct ix)
    (user_val_to_struct ix) (bool_val_to_struct ix) (decl_val_to_struct ix)) db.

Definition set_class_structs (l : list (option (list Z))) (db : policydb) : policydb :=
  let ix := p_index db in
  set_index (Indexes (sym_val_to_name ix) l (role_val_to_struct ix)
    (user_val_to_struct ix) (bool_val_to_struct ix) (decl_val_to_struct ix)) db.

Definition set_role_structs (l : list (option (list Z))) (db : policydb) : policydb :=
  let ix := p_index db in
  set_index (Indexes (sym_val_to_name ix) (class_val_to_struct ix) l
    (user_val_to_struct ix) (bool_val_to_struct ix) (decl_val_to_struct ix)) db.

Definition set_user_structs (l : list (option (list Z))) (db : policydb) : policydb :=
  let ix := p_index db in
  set_index (Indexes (sym_val_to_name ix) (class_val_to_struct ix) (role_val_to_struct ix)
    l (bool_val_to_struct ix) (decl_val_to_struct ix)) db.

Definition set_bool_structs (l : list (option (list Z))) (db : policydb) : policydb :=
  let ix := p_index db in
  set_index (Indexes (sym_val_to_name ix) (class_val_to_struct ix) (role_val_to_struct ix)
    (user_val_to_struct ix) l (decl_val_to_struct ix)) db.

Definition set_decl_structs (l : list (option Z)) (db : policydb) : policydb :=
  let ix := p_index db in
  set_index (Indexes (sym_val_to_name ix) (class_val_to_struct ix) (role_val_to_struct ix)
    (user_val_to_struct ix) (bool_val_to_struct ix) l) db.

(** ** The index functions *)

(** The test and the write that all index functions share; the array has [nprim] elements. *)
Definition index_put {A} (value nprim : Z) (a : A) (l : list (option A)) : Z * list (option A) :=
  if negb (value_isvalid value nprim) then (- EINVAL, l)
  else
    match l !! Z.to_nat (value - 1) with
    | Some None => (0, <[Z.to_nat (value - 1) := Some a]> l)
    | _ => (- EINVAL, l)
    end.

(** The same with the array of structures, which is written without a test. *)
Definition index_put2 {A} (value nprim : Z) (key : list Z) (a : A)
    (l : list (option (list Z)) * list (option A)) : Z * (list (option (list Z)) * list (option A)) :=
  let (rc, names) := index_put value nprim key l.1 in
  if truthy rc then (rc, l) else (0, (names, <[Z.to_nat (value - 1) := Some a]> l.2)).

Definition common_index (nprim : Z) (key : list Z) (d : common_datum) l := index_put (com_value d) nprim key l.
Definition class_index (nprim : Z) (key : list Z) (d : class_datum) l := index_put2 (cls_value d) nprim key key l.
Definition role_index (nprim : Z) (key : list Z) (d : role_datum) l := index_put2 (ro_value d) nprim key key l.
Definition user_index (nprim : Z) (key : list Z) (d : user_datum) l := index_put2 (us_value d) nprim key key l.
Definition cond_index_bool (nprim : Z) (key : list Z) (d : cond_bool_datum) l :=
  index_put2 (bool_value d) nprim key key l.

Definition type_index (nprim : Z) (key : list Z) (d : type_datum) l :=
  if truthy (ty_primary d) then index_put2 (ty_value d) nprim key d l else (0, l).

Definition cat_index (nprim : Z) (key : list Z) (d : cat_datum) l :=
  if truthy (cat_isalias d) then (0, l) else index_put (cat_value d) nprim key l.

(** [levdatum->level] is dereferenced: the state becomes [None]. *)
Definition sens_index (nprim : Z) (key : list Z) (d : level_datum) (l : option (list (option (list Z)))) :
    Z * option (list (option (list Z))) :=
  if truthy (lev_isalias d) then (0, l)
  else
    match level d, l with
    | Some lev, Some l => let (rc, l) := index_put (sens lev) nprim key l in (rc, Some l)
    | _, _ => (-1, None)
    end.

(** [hashtab_map(p->symtab[i].table, index_f[i], p)] on arrays that are read by [get] and
    written by [put]; any failure is -1. *)
Definition step_map {D A} (h : symbols D) (f : list Z -> D -> A -> Z * A) (get : policydb -> A)
    (put : A -> policydb -> policydb) : step := fun s =>
  let (rc, a) := hashtab_map h f (get s.1) in
  Some (if truthy rc then -1 else 0, (put a s.1, s.2)).

Definition policydb_index_classes : step := fun s =>
  let st := p_symtab s.1 in
  (step_calloc (nprim (sym_commons st)) (set_names SYM_COMMONS) ;>
   step_map (table (sym_commons st)) (common_index (nprim (sym_commons st))) (names_of SYM_COMMONS)
     (set_names SYM_COMMONS) ;>
   step_calloc (nprim (sym_classes st)) set_class_structs ;>
   step_calloc (nprim (sym_classes st)) (set_names SYM_CLASSES) ;>
   step_map (table (sym_classes st)) (class_index (nprim (sym_classes st)))
     (fun db => (names_of SYM_CLASSES db, class_val_to_struct (p_index db)))
     (fun l db => set_class_structs l.2 (set_names SYM_CLASSES l.1 db))) s.

(** The loop over the declarations of all blocks. *)
Fixpoint index_decls (num_decls : Z) (decls : list avrule_decl) (l : list (option Z)) : Z * list (option Z) :=
  match decls with
  | [] => (0, l)
  | d :: decls' =>
      let (rc, l) := index_put (decl_id d) num_decls (decl_id d) l in
      if truthy rc then (-1, l) else index_decls num_decls decls' l
  end.

Definition policydb_index_decls : step := fun s =>
  let decls := concat (branch_list <$> p_global s.1) in
  let num_decls := u32 (Z.of_nat (length decls)) in
  (step_calloc num_decls set_decl_structs ;>
   (fun s => let (rc, l) := index_decls num_decls decls (decl_val_to_struct (p_index s.1)) in
             Some (rc, (set_decl_structs l s.1, s.2)))) s.

Definition cond_init_bool_indexes : step := fun s =>
  step_calloc (nprim (sym_bools (p_symtab s.1))) set_bool_structs s.

(** ** Expanded sets *)

Section expand.
Context (nprim : Z) (structs : list (option type_datum)).

(** [p->type_val_to_struct[i] && p->type_val_to_struct[i]->flavor == TYPE_ATTRIB]. *)
Definition is_attr (i : Z) : option bool :=
  match structs !! Z.to_nat i with
  | None => None
  | Some None => Some false
  | Some (Some type) => Some (ty_flavor type =? TYPE_ATTRIB)
  end.

(** The loop over [set->types]. *)
Fixpoint expand_types (expand : bool) (bits : list Z) (types : ebitmap) (o : oracle) :
    option (Z * ebitmap * oracle) :=
  match bits with
  | [] => Some (0, types, o)
  | i :: bits' =>
      if nprim <=? i then Some (-1, types, o)
      else
        match structs !! Z.to_nat i with
        | None => None
        | Some None => Some (-1, types, o)
        | Some (Some type) =>
            let '(rc, types, o) :=
              if (ty_flavor type =? TYPE_ATTRIB) &&
                 (expand || truthy (Z.land (ty_flags type) TYPE_FLAGS_EXPAND_ATTR_TRUE))
              then ebitmap_union types (ty_types type) o
              else ebitmap_set_bit types i true o in
            if truthy rc then Some (-1, types, o) else expand_types expand bits' types o
        end
  end.

(** The loop over [set->negset], whose bits are not compared with [nprim]. *)
Fixpoint expand_negset (bits : list Z) (neg_types : ebitmap) (o : oracle) : option (Z * ebitmap * oracle) :=
  match bits with
  | [] => Some (0, neg_types, o)
  | i :: bits' =>
      match structs !! Z.to_nat i with
      | None => None
      | Some type =>
          let '(rc, neg_types, o) :=
            match type with
            | Some type =>
                if ty_flavor type =? TYPE_ATTRIB then ebitmap_union neg_types (ty_types type) o
                else ebitmap_set_bit neg_types i true o
            | None => ebitmap_set_bit neg_types i true o
            end in
          if truthy rc then Some (-1, neg_types, o) else expand_negset bits' neg_types o
      end
  end.

(** The loops that write to [t]: all types that are not in [neg_types], [types] without
    [neg_types], and the complement. *)
Fixpoint expand_star (bits : list Z) (neg_types t : ebitmap) (o : oracle) : option (Z * ebitmap * oracle) :=
  match bits with
  | [] => Some (0, t, o)
  | i :: bits' =>
      if truthy (ebitmap_get_bit neg_types i) then expand_star bits' neg_types t o
      else
        attr ← is_attr i;
        if (attr : bool) then expand_star bits' neg_types t o
        else
          let '(rc, t, o) := ebitmap_set_bit t i true o in
          if truthy rc then Some (-1, t, o) else expand_star bits' neg_types t o
  end.

Fixpoint expand_minus (bits : list Z) (neg_types t : ebitmap) (o : oracle) : Z * ebitmap * oracle :=
  match bits with
  | [] => (0, t, o)
  | i :: bits' =>
      if truthy (ebitmap_get_bit neg_types i) then expand_minus bits' neg_types t o
      else
        let '(rc, t, o) := ebitmap_set_bit t i true o in
        if truthy rc then (-1, t, o) else expand_minus bits' neg_types t o
  end.

Fixpoint expand_comp (bits : list Z) (t : ebitmap) (o : oracle) : option (Z * ebitmap * oracle) :=
  match bits with
  | [] => Some (0, t, o)
  | i :: bits' =>
      attr ← is_attr i;
      if (attr : bool) then
        if truthy (ebitmap_get_bit t i) then None else expand_comp bits' t o
      else
        let '(rc, t, o) := ebitmap_set_bit t i (negb (truthy (ebitmap_get_bit t i))) o in
        if truthy rc then Some (-1, t, o) else expand_comp bits' t o
  end.

(** With the new [*t]. *)
Definition type_set_expand (set : type_set) (alwaysexpand : bool) (o : oracle) : option (Z * ebitmap * oracle) :=
  let expand := alwaysexpand || (match node (negset set) with [] => false | _ => true end) ||
                truthy (ts_flags set) in
  bits ← ebitmap_positive_bits (ts_types set);
  '(rc, types, o) ← expand_types expand bits ebitmap_init o;
  if truthy rc then Some (-1, ebitmap_init, o)
  else
    bits ← ebitmap_positive_bits (negset set);
    '(rc, neg_types, o) ← expand_negset bits ebitmap_init o;
    if truthy rc then Some (-1, ebitmap_init, o)
    else if truthy (Z.land (ts_flags set) TYPE_STAR) then
      expand_star (seqZ 0 nprim) neg_types ebitmap_init o
    else
      bits ← ebitmap_positive_bits types;
      let '(rc, t, o) := expand_minus bits neg_types ebitmap_init o in
      if truthy rc then Some (-1, t, o)
      else if truthy (Z.land (ts_flags set) TYPE_COMP) then expand_comp (seqZ 0 nprim) t o
      else Some (0, t, o).
End expand.

(** [role_set_expand] with [base] and [rolemap] [NULL]; [nprim] is that of the roles. *)
Fixpoint set_bits (bits : list Z) (r : ebitmap) (o : oracle) : Z * ebitmap * oracle :=
  match bits with
  | [] => (0, r, o)
  | i :: bits' =>
      let '(rc, r, o) := ebitmap_set_bit r i true o in
      if truthy rc then (-1, r, o) else set_bits bits' r o
  end.

Fixpoint flip_bits (bits : list Z) (r : ebitmap) (o : oracle) : Z * ebitmap * oracle :=
  match bits with
  | [] => (0, r, o)
  | i :: bits' =>
      let '(rc, r, o) := ebitmap_set_bit r i (negb (truthy (ebitmap_get_bit r i))) o in
      if truthy rc then (-1, r, o) else flip_bits bits' r o
  end.

Definition role_set_expand (nprim : Z) (x : role_set) (o : oracle) : option (Z * ebitmap * oracle) :=
  if truthy (Z.land (rs_flags x) ROLE_STAR) then Some (set_bits (seqZ 0 nprim) ebitmap_init o)
  else
    let '(rc, mapped_roles, o) := ebitmap_cpy (rs_roles x) o in
    if truthy rc then Some (-1, ebitmap_init, o)
    else
      bits ← ebitmap_positive_bits mapped_roles;
      let '(rc, r, o) := set_bits bits ebitmap_init o in
      if truthy rc then Some (-1, r, o)
      else if truthy (Z.land (rs_flags x) ROLE_COMP) then Some (flip_bits (seqZ 0 nprim) r o)
      else Some (0, r, o).

(** [mls_level_dom], and the expansion of semantic levels and ranges. *)
Definition mls_level_dom (l1 l2 : mls_level) : bool :=
  (sens l2 <=? sens l1) && truthy (ebitmap_contains (cat l1) (cat l2)).

Fixpoint expand_cats (bits : list Z) (known r : ebitmap) (o : oracle) : Z * ebitmap * oracle :=
  match bits with
  | [] => (0, r, o)
  | i :: bits' =>
      if negb (truthy (ebitmap_get_bit known i)) then (-1, r, o)
      else
        let '(rc, r, o) := ebitmap_set_bit r i true o in
        if truthy rc then (-1, r, o) else expand_cats bits' known r o
  end.

Fixpoint expand_sem_cats (cats : list mls_semantic_cat) (known r : ebitmap) (o : oracle) : Z * ebitmap * oracle :=
  match cats with
  | [] => (0, r, o)
  | c :: cats' =>
      if (cat_low c =? 0) || (cat_high c <? cat_low c) then (-1, r, o)
      else
        let '(rc, r, o) := expand_cats (seqZ (cat_low c - 1) (cat_high c - (cat_low c - 1))) known r o in
        if truthy rc then (-1, r, o) else expand_sem_cats cats' known r o
  end.

(** [None] is a crash: the level of the sensitivity is dereferenced when there are
    categories. *)
Definition mls_semantic_level_expand (db : policydb) (sl : mls_semantic_level) (o : oracle) :
    option (Z * mls_level * oracle) :=
  let st := p_symtab db in
  if (p_mls db =? 0) || (sem_sens sl =? 0) then Some (0, mls_level_init, o)
  else if nprim (sym_levels st) <? sem_sens sl then Some (-1, mls_level_init, o)
  else
    match names_of SYM_LEVELS db !! Z.to_nat (sem_sens sl - 1) with
    | None => None
    | Some None => Some (-1, mls_level_init, o)
    | Some (Some key) =>
        let l := MlsLevel (sem_sens sl) ebitmap_init in
        match hashtab_search (table (sym_levels st)) key with
        | None => Some (-1, l, o)
        | Some levdatum =>
            match sem_cat sl, level levdatum with
            | [], _ => Some (0, l, o)
            | c :: _, None => if (cat_low c =? 0) || (cat_high c <? cat_low c) then Some (-1, l, o) else None
            | cats, Some lev =>
                let '(rc, r, o) := expand_sem_cats cats (cat lev) ebitmap_init o in
                Some (rc, MlsLevel (sem_sens sl) r, o)
            end
        end
    end.

Definition mls_semantic_range_expand (db : policydb) (sr : mls_semantic_range) (o : oracle) :
    option (Z * mls_range * oracle) :=
  '(rc, low, o) ← mls_semantic_level_expand db (sem_low sr) o;
  if truthy rc then Some (-1, MlsRange low mls_level_init, o)
  else
    '(rc, high, o) ← mls_semantic_level_expand db (sem_high sr) o;
    if truthy rc then Some (-1, MlsRange mls_level_init high, o)
    else if negb (mls_level_dom high low) then Some (-1, mls_range_init, o)
    else Some (0, MlsRange low high, o).

(** ** The caches *)

(** [hashtab_map] with a callback that writes to the data. *)
Fixpoint visit {A} (f : A -> oracle -> option (Z * A * oracle)) (l : list A) (o : oracle) :
    option (Z * list A * oracle) :=
  match l with
  | [] => Some (0, [], o)
  | a :: l' =>
      '(rc, a, o) ← f a o;
      if truthy rc then Some (rc, a :: l', o)
      else '(rc, l', o) ← visit f l' o; Some (rc, a :: l', o)
  end.

Definition visit_node {D} (f : D -> oracle -> option (Z * D * oracle)) (n : hashtab_node (list Z) D) (o : oracle) :
    option (Z * hashtab_node (list Z) D * oracle) :=
  '(rc, d, o) ← f (hdatum n) o; Some (rc, HNode (hkey n) d, o).

Definition visit_table {D} (f : D -> oracle -> option (Z * D * oracle)) (h : symbols D) (o : oracle) :
    option (Z * symbols D * oracle) :=
  match h with
  | None => Some (0, None, o)
  | Some h =>
      '(rc, t, o) ← visit (visit (visit_node f)) (htable h) o;
      Some (rc, Some (Hashtab t (hsize h) (nel h)), o)
  end.

Definition set_cache (e : ebitmap) (role : role_datum) : role_datum :=
  RoleDatum (ro_value role) (dominates role) (ro_types role) e (ro_bounds role) (ro_flavor role) (ro_roles role).

Definition policydb_role_cache (db : policydb) (role : role_datum) (o : oracle) :
    option (Z * role_datum * oracle) :=
  '(rc, e, o) ← type_set_expand (nprim (p_types db)) (type_val_to_struct db) (ro_types role) true o;
  Some (if truthy rc then -1 else 0, set_cache e role, o).

(** The semantic levels are expanded in base policies only. *)
Definition policydb_user_cache (db : policydb) (user : user_datum) (o : oracle) :
    option (Z * user_datum * oracle) :=
  '(rc, e, o) ← role_set_expand (nprim (sym_roles (p_symtab db))) (us_roles user) o;
  let user := UserDatum (us_value user) (us_roles user) (us_range user) (dfltlevel user) e (exp_range user)
                (exp_dfltlevel user) (us_bounds user) in
  if truthy rc then Some (-1, user, o)
  else if (policy_type db =? POLICY_KERN) || (policy_type db =? POLICY_MOD) then Some (0, user, o)
  else
    '(rc, r, o) ← mls_semantic_range_expand db (us_range user) o;
    let user := UserDatum (us_value user) (us_roles user) (us_range user) (dfltlevel user) e r
                  (exp_dfltlevel user) (us_bounds user) in
    if truthy rc then Some (-1, user, o)
    else
      '(rc, l, o) ← mls_semantic_level_expand db (dfltlevel user) o;
      Some (if truthy rc then -1 else 0,
            UserDatum (us_value user) (us_roles user) (us_range user) (dfltlevel user) e r l (us_bounds user), o).

Definition cache_roles : step := fun s =>
  '(rc, h, o) ← visit_table (policydb_role_cache s.1) (table (sym_roles (p_symtab s.1))) s.2;
  Some (if truthy rc then -1 else 0, (set_symtab (set_roles h (p_symtab s.1)) s.1, o)).

Definition cache_users : step := fun s =>
  '(rc, h, o) ← visit_table (policydb_user_cache s.1) (table (sym_users (p_symtab s.1))) s.2;
  Some (if truthy rc then -1 else 0, (set_symtab (set_users h (p_symtab s.1)) s.1, o)).

(** ** [policydb_index_others] *)

(** One round of the loop over the symbol tables. *)
Definition index_table (i : nat) (nprim : Z) (map : step) : step := fun s =>
  let s := (set_names i [] s.1, s.2) in
  if truthy nprim then (step_calloc nprim (set_names i) ;> map) s else Some (0, s).

(** [index_f[i]] with the array of structures it writes. *)
Definition map_struct {D} (i : nat) (h : symbols D) f get (put : list (option (list Z)) -> policydb -> policydb) : step :=
  step_map h f (fun db => (names_of i db, get (p_index db)))
    (fun l db => put l.2 (set_names i l.1 db)).

Definition map_types (t : symtab type_datum) : step :=
  step_map (table t) (type_index (nprim t)) (fun db => (names_of SYM_TYPES db, type_val_to_struct db))
    (fun l db => set_type_structs l.2 (set_names SYM_TYPES l.1 db)).

(** [None] when a level is dereferenced through [NULL]. *)
Definition map_levels (t : symtab level_datum) : step := fun s =>
  match hashtab_map (table t) (sens_index (nprim t)) (Some (names_of SYM_LEVELS s.1)) with
  | (rc, Some l) => Some (if truthy rc then -1 else 0, (set_names SYM_LEVELS l s.1, s.2))
  | (_, None) => None
  end.

Definition policydb_index_others : step := fun s =>
  let st := p_symtab s.1 in
  (step_calloc (nprim (sym_roles st)) set_role_structs ;>
   step_calloc (nprim (sym_users st)) set_user_structs ;>
   step_calloc (nprim (sym_types st)) set_type_structs ;>
   cond_init_bool_indexes ;>
   index_table SYM_ROLES (nprim (sym_roles st))
     (map_struct SYM_ROLES (table (sym_roles st)) (role_index (nprim (sym_roles st))) role_val_to_struct set_role_structs) ;>
   index_table SYM_TYPES (nprim (sym_types st)) (map_types (sym_types st)) ;>
   index_table SYM_USERS (nprim (sym_users st))
     (map_struct SYM_USERS (table (sym_users st)) (user_index (nprim (sym_users st))) user_val_to_struct set_user_structs) ;>
   index_table SYM_BOOLS (nprim (sym_bools st))
     (map_struct SYM_BOOLS (table (sym_bools st)) (cond_index_bool (nprim (sym_bools st))) bool_val_to_struct set_bool_structs) ;>
   index_table SYM_LEVELS (nprim (sym_levels st)) (map_levels (sym_levels st)) ;>
   index_table SYM_CATS (nprim (sym_cats st))
     (step_map (table (sym_cats st)) (cat_index (nprim (sym_cats st))) (names_of SYM_CATS) (set_names SYM_CATS)) ;>
   cache_roles ;>
   cache_users) s.
