(* ===== verification/PolicyIndexSpec.v ===== *)
(** * Expanded type and role sets: what the caches of roles and users hold *)

From S2P Require Import Prelude Policyfile Ebitmap EbitmapSpec EbitmapQuery EbitmapUpdate Hashtab HashtabSpec Symtab Avtab Policydb Sepolicy.
From S2P Require Import SepolicySpec SepolicyAttr SepolicyAttrProps Symbols PolicyIndex.

(** ** Bits, with memory available *)

Lemma write_bit_memory e bit value :
  ebitmap_wf e -> 0 <= bit < 2 ^ 32 - MAPSIZE ->
  exists e', ebitmap_set_bit e bit value [] = (0, e', []) /\ ebitmap_wf e' /\
    forall b, ebitmap_mem e' b = if b =? bit then value else ebitmap_mem e b.
Proof.
  intros Hw Hb. destruct (ebitmap_set_bit e bit value []) as [[rc e'] o'] eqn:E.
  destruct (ebitmap_set_bit_spec e bit value [] rc e' o' Hw Hb E) as [Hw' [[-> Hm]|(_ & _ & _ & ?)]]; [|done].
  apply ebitmap_set_bit_memory in E as ->. by exists e'.
Qed.

Lemma union_memory e1 e2 :
  ebitmap_wf e1 -> ebitmap_wf e2 ->
  exists e', ebitmap_union e1 e2 [] = (0, e', []) /\ ebitmap_wf e' /\
    forall b, ebitmap_mem e' b = ebitmap_mem e1 b || ebitmap_mem e2 b.
Proof.
  intros H1 H2. pose proof (ebitmap_union_spec e1 e2 [] H1 H2) as Hs. pose proof (ebitmap_union_memory e1 e2) as Ho.
  destruct (ebitmap_union e1 e2 []) as [[rc e'] o']. cbn in Ho. subst o'.
  destruct Hs as [Hw [[-> Hm]|(_ & _ & ?)]]; [|done]. by exists e'.
Qed.

Lemma bit_in (b : Z) l : existsb (Z.eqb b) l = true <-> b ∈ l.
Proof.
  rewrite existsb_exists. split.
  - intros (x & Hx & ->%Z.eqb_eq). by apply list_elem_of_In.
  - intros Hb. exists b. rewrite Z.eqb_refl. by rewrite <-list_elem_of_In.
Qed.

(** The bits of a bitmap, in a list. *)
Lemma bits_mem e b : ebitmap_wf e -> existsb (Z.eqb b) (ebitmap_bits e) = ebitmap_mem e b.
Proof. intros Hw. apply eq_true_iff_eq. by rewrite bit_in, elem_of_bits. Qed.

Lemma set_bits_spec bits r :
  ebitmap_wf r -> Forall (fun i => 0 <= i < 2 ^ 32 - MAPSIZE) bits ->
  exists r', set_bits bits r [] = (0, r', []) /\ ebitmap_wf r' /\
    forall b, ebitmap_mem r' b = ebitmap_mem r b || existsb (Z.eqb b) bits.
Proof.
  intros Hw Hb. revert r Hw. induction Hb as [|i bits Hi _ IH]; intros r Hw; cbn [set_bits existsb].
  { exists r. split_and!; try done. intros b. by rewrite orb_false_r. }
  destruct (write_bit_memory r i true Hw Hi) as (r1 & -> & Hw1 & H1). cbn [truthy Z.eqb negb].
  destruct (IH r1 Hw1) as (r2 & -> & Hw2 & H2). exists r2. split_and!; try done.
  intros b. rewrite H2, H1. by destruct (b =? i), (ebitmap_mem r b).
Qed.

(** ** Type sets *)

Section expand.
Context (nprim : Z) (structs : list (option type_datum)).
Hypothesis Hnprim : nprim <= 2 ^ 32 - MAPSIZE.

(** The value [i + 1] is that of a symbol. *)
Definition type_known (i : Z) : Prop := 0 <= i < nprim /\ exists t, structs !! Z.to_nat i = Some (Some t).

Definition type_at (i : Z) : option type_datum := default None (structs !! Z.to_nat i).

Definition expanded (expand : bool) (t : type_datum) : bool :=
  (ty_flavor t =? TYPE_ATTRIB) && (expand || truthy (Z.land (ty_flags t) TYPE_FLAGS_EXPAND_ATTR_TRUE)).

(** What the type or attribute [i] stands for. *)
Definition stands_for (expand : bool) (i b : Z) : bool :=
  match type_at i with
  | Some t => if expanded expand t then ebitmap_mem (ty_types t) b else b =? i
  | None => false
  end.

Lemma stands_for_at expand i t b :
  structs !! Z.to_nat i = Some (Some t) ->
  stands_for expand i b = if expanded expand t then ebitmap_mem (ty_types t) b else b =? i.
Proof. intros Ht. unfold stands_for, type_at. by rewrite Ht. Qed.

Hypothesis Htypes : forall i t, structs !! Z.to_nat i = Some (Some t) -> ebitmap_wf (ty_types t).

Lemma expand_types_spec expand bits types :
  ebitmap_wf types -> Forall type_known bits ->
  exists types', expand_types nprim structs expand bits types [] = Some (0, types', []) /\ ebitmap_wf types' /\
    forall b, ebitmap_mem types' b = ebitmap_mem types b || existsb (fun i => stands_for expand i b) bits.
Proof.
  intros Hw Hb. revert types Hw. induction Hb as [|i bits [Hi (t & Ht)] _ IH]; intros types Hw; cbn [expand_types existsb].
  { exists types. split_and!; try done. intros b. by rewrite orb_false_r. }
  case_Z; [lia|]. rewrite Ht. fold (expanded expand t).
  assert (Hc : exists e, (if expanded expand t then ebitmap_union types (ty_types t) [] else ebitmap_set_bit types i true []) =
    (0, e, []) /\ ebitmap_wf e /\ forall b, ebitmap_mem e b = ebitmap_mem types b || stands_for expand i b).
  { destruct (expanded expand t) eqn:Ex.
    - destruct (union_memory types (ty_types t) Hw (Htypes i t Ht)) as (e & -> & Hwe & He). exists e.
      split_and!; try done. intros b. by rewrite He, (stands_for_at _ _ _ _ Ht), Ex.
    - destruct (write_bit_memory types i true Hw ltac:(lia)) as (e & -> & Hwe & He). exists e. split_and!; try done.
      intros b. rewrite He, (stands_for_at _ _ _ _ Ht), Ex.
      destruct (b =? i); [by rewrite orb_true_r|by rewrite orb_false_r]. }
  destruct Hc as (e & -> & Hwe & He). cbn [truthy Z.eqb negb]. destruct (IH e Hwe) as (r & -> & Hwr & Hr).
  exists r. split_and!; try done. intros b. by rewrite Hr, He, orb_assoc.
Qed.

Lemma expand_minus_spec bits neg t :
  ebitmap_wf neg -> ebitmap_wf t -> Forall (fun i => 0 <= i < 2 ^ 32 - MAPSIZE) bits ->
  exists t', expand_minus bits neg t [] = (0, t', []) /\ ebitmap_wf t' /\
    forall b, ebitmap_mem t' b = ebitmap_mem t b || existsb (Z.eqb b) bits && negb (ebitmap_mem neg b).
Proof.
  intros Hn Hw Hb. revert t Hw. induction Hb as [|i bits Hi _ IH]; intros t Hw; cbn [expand_minus existsb].
  { exists t. split_and!; try done. intros b. by rewrite orb_false_r. }
  rewrite ebitmap_get_bit_correct by done. destruct (ebitmap_mem neg i) eqn:En; cbn [truthy Z.eqb negb].
  - destruct (IH t Hw) as (r & -> & Hwr & Hr). exists r. split_and!; try done. intros b. rewrite Hr.
    destruct (Z.eqb_spec b i) as [->|]; [|done]. by rewrite En, !andb_false_r.
  - destruct (write_bit_memory t i true Hw Hi) as (e & -> & Hwe & He). cbn [truthy Z.eqb negb].
    destruct (IH e Hwe) as (r & -> & Hwr & Hr). exists r. split_and!; try done. intros b. rewrite Hr, He.
    destruct (Z.eqb_spec b i) as [->|]; [|done]. by rewrite En, orb_true_r.
Qed.

(** A set of types without complement, as kernel policies have it. *)
Lemma type_set_expand_plain ts always :
  ebitmap_wf ts -> (forall i, ebitmap_mem ts i = true -> type_known i) ->
  (forall i t b, structs !! Z.to_nat i = Some (Some t) -> ebitmap_mem (ty_types t) b = true -> 0 <= b < 2 ^ 32 - MAPSIZE) ->
  exists t, type_set_expand nprim structs (TypeSet ts ebitmap_init 0) always [] = Some (0, t, []) /\ ebitmap_wf t /\
    forall b, ebitmap_mem t b = existsb (fun i => stands_for always i b) (ebitmap_bits ts).
Proof.
  intros Hw Hk Hr. unfold type_set_expand. cbn [ts_types negset ts_flags node ebitmap_init].
  change (truthy 0) with false. rewrite !orb_false_r, (ebitmap_positive_bits_correct ts Hw). cbn [mbind option_bind].
  assert (Hb : Forall type_known (ebitmap_bits ts)).
  { apply Forall_forall. intros i Hi. apply Hk. by apply elem_of_bits. }
  destruct (expand_types_spec always (ebitmap_bits ts) ebitmap_init ebitmap_init_wf Hb) as (e & -> & Hwe & He).
  cbn [mbind option_bind truthy Z.eqb negb]. rewrite (ebitmap_positive_bits_correct ebitmap_init ebitmap_init_wf).
  change (ebitmap_bits ebitmap_init) with (@nil Z). cbn -[ebitmap_positive_bits expand_minus ebitmap_mem].
  rewrite ebitmap_positive_bits_correct by done. cbn [mbind option_bind].
  assert (He' : forall b, ebitmap_mem e b = existsb (fun i => stands_for always i b) (ebitmap_bits ts)) by exact He.
  destruct (expand_minus_spec (ebitmap_bits e) ebitmap_init ebitmap_init ebitmap_init_wf ebitmap_init_wf) as (t & -> & Hwt & Ht).
  { apply Forall_forall. intros b Hin%elem_of_bits; [|done]. rewrite He' in Hin.
    apply existsb_exists in Hin as (i & Hi%list_elem_of_In & Hs).
    rewrite Forall_forall in Hb. destruct (Hb i Hi) as [Hri (ty & Hty)]. rewrite (stands_for_at _ _ _ _ Hty) in Hs.
    destruct (expanded always ty); [by eapply Hr|]. apply Z.eqb_eq in Hs. lia. }
  cbn [truthy Z.eqb negb]. exists t. split; [done|]. split; [done|].
  intros b. rewrite Ht, bits_mem by done. cbn [ebitmap_mem negb]. rewrite andb_true_r. apply He'.
Qed.
End expand.

(** ** Role sets *)

Lemma role_set_expand_plain n r :
  ebitmap_wf r -> (forall i, ebitmap_mem r i = true -> i < 2 ^ 32 - MAPSIZE) ->
  role_set_expand n (RoleSet r 0) [] = Some (0, r, []).
Proof.
  intros Hw Hr. unfold role_set_expand. cbn [rs_flags rs_roles].
  pose proof (ebitmap_cpy_spec r []) as Hc.
  assert (Ho : (ebitmap_cpy r []).2 = []) by (unfold ebitmap_cpy; by destruct (cpy_loop_total (node r)) as [l ->]).
  destruct (ebitmap_cpy r []) as [[rc e] o]. cbn in Ho. subst o. destruct Hc as [[-> ->]|(_ & _ & ?)]; [|done].
  cbn [truthy Z.eqb negb Z.land]. rewrite ebitmap_positive_bits_correct by done. cbn [mbind option_bind].
  destruct (set_bits_spec (ebitmap_bits r) ebitmap_init ebitmap_init_wf) as (r' & -> & Hw' & Hm).
  { apply Forall_forall. intros b Hb%elem_of_bits; [|done]. specialize (Hr b Hb).
    pose proof (mem_nonneg r b Hw Hb). lia. }
  cbn [truthy Z.eqb negb]. do 2 f_equal. f_equal. apply ebitmap_ext; try done. intros b.
  rewrite Hm, bits_mem by done. done.
Qed.

(** ** Visiting the data of a table *)

Lemma visit_spec {A} (f : A -> oracle -> option (Z * A * oracle)) (R : A -> A -> Prop) l :
  Forall (fun a => exists a', f a [] = Some (0, a', []) /\ R a a') l ->
  exists l', visit f l [] = Some (0, l', []) /\ Forall2 R l l'.
Proof.
  induction 1 as [|a l (a' & Ha & HR) _ (l' & Hl & HF)]; cbn [visit]; [by exists []|].
  rewrite Ha. cbn [mbind option_bind truthy Z.eqb negb]. rewrite Hl. eexists. split; [reflexivity|]. by constructor.
Qed.

Lemma visit_table_spec {D} (f : D -> oracle -> option (Z * D * oracle)) (R : list Z -> D -> D -> Prop) h :
  hashtab_wf cstring_ok h ->
  map_Forall (fun k d => exists d', f d [] = Some (0, d', []) /\ R k d d') (hashtab_model h) ->
  exists h', visit_table f (Some h) [] = Some (0, Some h', []) /\ hashtab_wf cstring_ok h' /\ nel h' = nel h /\
    forall k, option_Forall2 (R k) (hashtab_model h !! k) (hashtab_model h' !! k).
Proof.
  intros Hw Hf. pose proof (table_nodes cstring_ok _ h Hw Hf) as Hn.
  destruct (visit_spec (visit (visit_node f)) (Forall2 (data_changed R)) (htable h)) as (t & Ht & HF).
  - apply Forall_forall. intros c Hc. apply visit_spec, Forall_forall. intros n Hin.
    rewrite Forall_forall in Hn. destruct (Hn n) as (d & Hd & HR).
    { apply list_elem_of_lookup in Hc as [i Hi]. apply elem_of_concat. by exists i, c. }
    unfold visit_node. rewrite Hd. eexists. split; [reflexivity|]. by split.
  - destruct (table_changed cstring_ok R h t Hw HF) as [Hw' Hm].
    unfold visit_table. rewrite Ht. eexists. split; [reflexivity|]. by split_and!.
Qed.

(** * Arrays indexed by value: what the index functions build *)

(** ** Arrays with entries *)

Definition filled {A} (n : Z) (es : list (Z * A)) (l : list (option A)) : Prop :=
  Z.of_nat (length l) = n /\
  forall v a, 1 <= v -> l !! Z.to_nat (v - 1) = Some (Some a) <-> (v, a) ∈ es.

Lemma filled_init {A} n : 0 <= n -> filled n [] (replicate (Z.to_nat n) (@None A)).
Proof.
  intros Hn. split; [rewrite length_replicate; lia|]. intros v a _. split.
  - intros [? _]%lookup_replicate. done.
  - by intros ?%elem_of_nil.
Qed.

Lemma filled_insert {A} n (es : list (Z * A)) l v a :
  filled n es l -> 1 <= v <= n -> v ∉ es.*1 -> filled n (es ++ [(v, a)]) (<[Z.to_nat (v - 1) := Some a]> l).
Proof.
  intros [Hl He] Hv Hni. split; [by rewrite length_insert|]. intros w b Hw.
  rewrite elem_of_app, list_elem_of_singleton. destruct (decide (w = v)) as [->|Hne].
  - rewrite list_lookup_insert_eq by lia. split.
    + intros [= ->]. by right.
    + intros [Hin|[= ->]]; [|done]. destruct Hni. by apply (list_elem_of_fmap_2 fst _ (v, b)).
  - rewrite list_lookup_insert_ne by lia. rewrite He by done. split; [by left|]. intros [?|[= ? ?]]; done.
Qed.

Lemma filled_free {A} n (es : list (Z * A)) l v :
  filled n es l -> 1 <= v <= n -> v ∉ es.*1 -> l !! Z.to_nat (v - 1) = Some None.
Proof.
  intros [Hl He] Hv Hni. destruct (lookup_lt_is_Some_2 l (Z.to_nat (v - 1))) as [[a|] Ha]; [lia| |done].
  destruct Hni. apply (list_elem_of_fmap_2 fst _ (v, a)). by apply He; [lia|].
Qed.

Lemma valid_value v n : value_isvalid v n = true <-> v <> 0 /\ v <= n.
Proof. unfold value_isvalid. rewrite negb_true_iff, orb_false_iff, Z.eqb_neq, Z.ltb_ge. done. Qed.

Lemma index_put_filled {A} n (es : list (Z * A)) l v a :
  filled n es l -> 1 <= v <= n -> v ∉ es.*1 ->
  index_put v n a l = (0, <[Z.to_nat (v - 1) := Some a]> l).
Proof.
  intros Hf Hv Hni. unfold index_put. rewrite (proj2 (valid_value v n)) by lia.
  by rewrite (filled_free n es l v).
Qed.

(** ** Symbols and their values *)

Section index.
Context {D A : Type} (val : D -> option Z) (ptr : list Z -> D -> A).

Definition entry (n : hashtab_node (list Z) D) : option (Z * A) :=
  v ← val (hdatum n); Some (v, ptr (hkey n) (hdatum n)).

Definition index_entries (c : list (hashtab_node (list Z) D)) : list (Z * A) := omap entry c.

Lemma elem_of_entries c v a :
  (v, a) ∈ index_entries c <-> exists n, n ∈ c /\ val (hdatum n) = Some v /\ a = ptr (hkey n) (hdatum n).
Proof.
  unfold index_entries. rewrite list_elem_of_omap. split; intros (n & Hn & He); exists n; (split; [done|]).
  - unfold entry in He. destruct (val (hdatum n)) as [w|]; [|done]. cbn in He. by simplify_eq.
  - unfold entry. destruct He as [-> ->]. done.
Qed.

(** The values are distinct and in range. *)
Definition values_ok (n : Z) (m : gmap (list Z) D) : Prop :=
  map_Forall (fun _ d => forall v, val d = Some v -> 1 <= v <= n) m /\
  forall k1 k2 d1 d2 v, m !! k1 = Some d1 -> m !! k2 = Some d2 -> val d1 = Some v -> val d2 = Some v -> k1 = k2.

(** The array holds, for each value, the symbol that has it. *)
Definition indexed (n : Z) (m : gmap (list Z) D) (l : list (option A)) : Prop :=
  Z.of_nat (length l) = n /\
  forall v a, 1 <= v ->
    l !! Z.to_nat (v - 1) = Some (Some a) <-> exists k d, m !! k = Some d /\ val d = Some v /\ a = ptr k d.

Context (h : hashtab_val (list Z) D) (n : Z).
Hypothesis Hwf : hashtab_wf cstring_ok h.
Hypothesis Hval : values_ok n (hashtab_model h).

Lemma node_model x : x ∈ concat (htable h) -> hashtab_model h !! hkey x = Some (hdatum x).
Proof.
  intros Hx. apply elem_of_list_to_map_1.
  - rewrite pairs_keys. apply (table_keys_NoDup cstring_ok (hsize h)), Hwf.
  - apply elem_of_pairs. by destruct x.
Qed.

Lemma model_node k d : hashtab_model h !! k = Some d -> HNode k d ∈ concat (htable h).
Proof. intros E. by apply elem_of_pairs, elem_of_list_to_map_2. Qed.

(** A node that has not been visited has a value that is not in the array. *)
Lemma entry_fresh pre x post v :
  concat (htable h) = pre ++ x :: post -> val (hdatum x) = Some v -> 1 <= v <= n /\ v ∉ (index_entries pre).*1.
Proof.
  intros Hc Hv. assert (Hx : x ∈ concat (htable h)) by (rewrite Hc, elem_of_app; right; by left).
  split; [by apply (proj1 Hval (hkey x) (hdatum x) (node_model x Hx))|].
  intros ([w a] & -> & Hin)%list_elem_of_fmap. cbn in Hv. apply elem_of_entries in Hin as (y & Hy & Hvy & _).
  assert (Hyc : y ∈ concat (htable h)) by (rewrite Hc, elem_of_app; by left).
  pose proof (proj2 Hval _ _ _ _ w (node_model x Hx) (node_model y Hyc) Hv Hvy) as Hk.
  pose proof (table_keys_NoDup cstring_ok (hsize h) (htable h) (proj1 Hwf)) as Hnd.
  rewrite Hc, fmap_app, fmap_cons in Hnd. apply NoDup_app in Hnd as (_ & Hd & _).
  apply (Hd (hkey y)); [by apply (list_elem_of_fmap_2 hkey)|]. rewrite <-Hk. by left.
Qed.

Lemma filled_indexed l : filled n (index_entries (concat (htable h))) l -> indexed n (hashtab_model h) l.
Proof.
  intros [Hl He]. split; [done|]. intros v a Hv. rewrite He, elem_of_entries by done. split.
  - intros (x & Hx & Hvx & ->). exists (hkey x), (hdatum x). by rewrite (node_model x Hx).
  - intros (k & d & Hk & Hvd & ->). exists (HNode k d). split; [by apply model_node|done].
Qed.

Lemma entries_snoc pre x :
  index_entries (pre ++ [x]) =
  index_entries pre ++ match val (hdatum x) with Some v => [(v, ptr (hkey x) (hdatum x))] | None => [] end.
Proof. unfold index_entries. rewrite omap_app. f_equal. cbn. unfold entry. by destruct (val (hdatum x)). Qed.

(** A callback that indexes the symbols that have a value. *)
Lemma map_index f :
  0 <= n ->
  (forall k d l, f k d l = match val d with Some v => index_put v n (ptr k d) l | None => (0, l) end) ->
  exists l, hashtab_map (Some h) f (replicate (Z.to_nat n) None) = (0, l) /\ indexed n (hashtab_model h) l.
Proof.
  intros Hn Hf. destruct (hashtab_map_invariant f (fun pre l => filled n (index_entries pre) l) h
    (replicate (Z.to_nat n) None)) as (l & Hl & HI).
  - by apply filled_init.
  - intros pre x post l Hc HI. rewrite Hf. rewrite entries_snoc. destruct (val (hdatum x)) as [v|] eqn:Hv.
    + destruct (entry_fresh pre x post v Hc Hv) as [Hr Hni]. eexists.
      split; [by apply (index_put_filled n (index_entries pre))|by apply filled_insert].
    + exists l. by rewrite app_nil_r.
  - exists l. split; [done|]. by apply filled_indexed.
Qed.
End index.

(** The same for a table whose symbols have a structure. *)
Lemma map_index2 {D A} (val : D -> option Z) (ptr : list Z -> D -> A) h n f :
  hashtab_wf cstring_ok h -> values_ok val n (hashtab_model h) -> 0 <= n ->
  (forall k d l, f k d l = match val d with Some v => index_put2 v n k (ptr k d) l | None => (0, l) end) ->
  exists l1 l2, hashtab_map (Some h) f (replicate (Z.to_nat n) None, replicate (Z.to_nat n) None) = (0, (l1, l2)) /\
    indexed val (fun k _ => k) n (hashtab_model h) l1 /\ indexed val ptr n (hashtab_model h) l2.
Proof.
  intros Hw Hval Hn Hf.
  destruct (hashtab_map_invariant f (fun pre l => filled n (index_entries val (fun k _ => k) pre) l.1 /\
    filled n (index_entries val ptr pre) l.2) h (replicate (Z.to_nat n) None, replicate (Z.to_nat n) None))
    as ([l1 l2] & Hl & H1 & H2).
  - split; by apply filled_init.
  - intros pre x post [l1 l2] Hc [H1 H2]. rewrite Hf, !entries_snoc. destruct (val (hdatum x)) as [v|] eqn:Hv.
    + destruct (entry_fresh val (fun k _ => k) h n Hw Hval pre x post v Hc Hv) as [Hr Hni].
      destruct (entry_fresh val ptr h n Hw Hval pre x post v Hc Hv) as [_ Hni2].
      unfold index_put2. cbn [fst snd] in *. rewrite (index_put_filled n _ l1 v (hkey x) H1 Hr Hni). cbn.
      eexists. split; [reflexivity|]. cbn [fst snd]. by split; apply filled_insert.
    + exists (l1, l2). cbn [fst snd] in *. by rewrite !app_nil_r.
  - exists l1, l2. split; [done|]. by split; apply filled_indexed.
Qed.

(** Values of the symbols of each kind; aliases have none. *)
Definition common_val (d : common_datum) : option Z := Some (com_value d).
Definition class_val (d : class_datum) : option Z := Some (cls_value d).
Definition role_val (d : role_datum) : option Z := Some (ro_value d).
Definition user_val (d : user_datum) : option Z := Some (us_value d).
Definition bool_val (d : cond_bool_datum) : option Z := Some (bool_value d).
Definition type_val (d : type_datum) : option Z := if truthy (ty_primary d) then Some (ty_value d) else None.
Definition cat_val (d : cat_datum) : option Z := if truthy (cat_isalias d) then None else Some (cat_value d).
Definition sens_val (d : level_datum) : option Z :=
  if truthy (lev_isalias d) then None else sens <$> level d.

Lemma map_index_sens h n :
  hashtab_wf cstring_ok h -> values_ok sens_val n (hashtab_model h) -> 0 <= n ->
  map_Forall (fun _ d => exists l, level d = Some l) (hashtab_model h) ->
  exists l, hashtab_map (Some h) (sens_index n) (Some (replicate (Z.to_nat n) None)) = (0, Some l) /\
    indexed sens_val (fun k _ => k) n (hashtab_model h) l.
Proof.
  intros Hw Hval Hn Hl.
  destruct (hashtab_map_invariant (sens_index n) (fun pre a => exists l, a = Some l /\
    filled n (index_entries sens_val (fun k _ => k) pre) l) h (Some (replicate (Z.to_nat n) None)))
    as (a & Ha & l & -> & HI).
  - eexists. split; [done|]. by apply filled_init.
  - intros pre x post a Hc (l & -> & HI). assert (Hx : x ∈ concat (htable h)) by (rewrite Hc, elem_of_app; right; by left).
    destruct (Hl _ _ (node_model h Hw x Hx)) as [lev Hlev]. unfold sens_index. rewrite entries_snoc, Hlev.
    destruct (truthy (lev_isalias (hdatum x))) eqn:Ea.
    + assert (sens_val (hdatum x) = None) as -> by (unfold sens_val; by rewrite Ea).
      eexists. split; [done|]. exists l. by rewrite app_nil_r.
    + assert (Hv : sens_val (hdatum x) = Some (sens lev)) by (unfold sens_val; by rewrite Ea, Hlev).
      destruct (entry_fresh sens_val (fun k _ => k) h n Hw Hval pre x post _ Hc Hv) as [Hr Hni]. rewrite Hv.
      rewrite (index_put_filled n _ l _ (hkey x) HI Hr Hni). eexists. split; [reflexivity|]. eexists. split; [done|].
      by apply filled_insert.
  - exists l. split; [done|]. by apply filled_indexed.
Qed.

(** ** The steps *)

Open Scope step_scope.

Lemma seq_ok (s1 s2 : step) s s' : s1 s = Some (0, s') -> (s1 ;> s2) s = s2 s'.
Proof. unfold step_seq. by intros ->. Qed.

Lemma map_ok {D A} (h : symbols D) f (get : policydb -> A) put db a :
  hashtab_map h f (get db) = (0, a) -> step_map h f get put (db, []) = Some (0, (put a db, [])).
Proof. unfold step_map. cbn [fst snd]. by intros ->. Qed.

Definition names_in (ix : indexes) (i : nat) : list (option (list Z)) := default [] (sym_val_to_name ix !! i).

Lemma names_insert (L : list (list (option (list Z)))) (i j : nat) l :
  (i < length L)%nat -> default [] (<[i := l]> L !! j) = if (j =? i)%nat then l else default [] (L !! j).
Proof.
  intros Hi. destruct (Nat.eqb_spec j i) as [->|Hne].
  - by rewrite list_lookup_insert_eq.
  - by rewrite list_lookup_insert_ne.
Qed.

Lemma names_of_set i j l db :
  length (sym_val_to_name (p_index db)) = 8%nat -> (i < 8)%nat ->
  names_of j (set_names i l db) = if (j =? i)%nat then l else names_of j db.
Proof. intros Hl Hi. unfold names_of. cbn. apply names_insert. lia. Qed.

Lemma set_names_twice i l l' db : set_names i l (set_names i l' db) = set_names i l db.
Proof. unfold set_names, set_index. cbn [p_index sym_val_to_name]. by rewrite list_insert_insert_eq. Qed.

Lemma names_class_structs i l c db : set_names i l (set_class_structs c db) = set_class_structs c (set_names i l db).
Proof. reflexivity. Qed.

Lemma class_structs_twice c c' db : set_class_structs c (set_class_structs c' db) = set_class_structs c db.
Proof. reflexivity. Qed.

(** A symbol table with distinct values in range. *)
Definition symtab_values {D} (val : D -> option Z) (s : symtab D) : Prop :=
  exists h, table s = Some h /\ hashtab_wf cstring_ok h /\ 0 <= nprim s /\ values_ok val (nprim s) (hashtab_model h).

Definition symtab_indexed {D A} (val : D -> option Z) (ptr : list Z -> D -> A) (s : symtab D) (l : list (option A)) : Prop :=
  exists h, table s = Some h /\ indexed val ptr (nprim s) (hashtab_model h) l.

Abbreviation the_key := (fun k _ => k).

(** The arrays of names after a round of the loop over the tables, with the arrays of
    structures that are allocated before the loop. *)
Lemma index_names_ok {D} (val : D -> option Z) (s : symtab D) i f db :
  symtab_values val s -> (i < 8)%nat -> length (sym_val_to_name (p_index db)) = 8%nat ->
  (forall k d l, f k d l = match val d with Some v => index_put v (nprim s) k l | None => (0, l) end) ->
  exists l, index_table i (nprim s) (step_map (table s) f (names_of i) (set_names i)) (db, []) =
      Some (0, (set_names i l db, [])) /\ symtab_indexed val the_key s l.
Proof.
  intros (h & Ht & Hw & Hn & Hv) Hi Hl Hf. rewrite Ht.
  destruct (map_index val the_key h (nprim s) Hw Hv f Hn Hf) as (l & Hm & HI).
  exists l. split; [|by exists h]. unfold index_table. cbn [fst snd]. destruct (truthy (nprim s)) eqn:E.
  - (erewrite seq_ok; [|reflexivity]). erewrite map_ok; [|rewrite names_of_set, Nat.eqb_refl by (done || (cbn; by rewrite length_insert)); exact Hm].
    by rewrite set_names_twice, set_names_twice.
  - apply truthy_false in E. rewrite E in HI. destruct HI as [Hlen _]. by destruct l.
Qed.

Lemma index_struct_ok {D} (val : D -> option Z) (s : symtab D) i f get put db :
  symtab_values val s -> (i < 8)%nat -> length (sym_val_to_name (p_index db)) = 8%nat ->
  (forall k d l, f k d l = match val d with Some v => index_put2 v (nprim s) k k l | None => (0, l) end) ->
  (forall l db, get (p_index (set_names i l db)) = get (p_index db)) ->
  (forall l db, put (get (p_index db)) (set_names i l db) = set_names i l db) ->
  get (p_index db) = replicate (Z.to_nat (nprim s)) None ->
  (forall n m k db, put n (set_names i m (set_names i k db)) = put n (set_names i m db)) ->
  exists l1 l2, index_table i (nprim s) (map_struct i (table s) f get put) (db, []) =
      Some (0, (put l2 (set_names i l1 db), [])) /\
    symtab_indexed val the_key s l1 /\ symtab_indexed val the_key s l2.
Proof.
  intros (h & Ht & Hw & Hn & Hv) Hi Hl Hf Hget Hput Hinit Hset. rewrite Ht.
  destruct (map_index2 val the_key h (nprim s) f Hw Hv Hn Hf) as (l1 & l2 & Hm & H1 & H2).
  exists l1, l2. split; [|split; by exists h]. unfold index_table. cbn [fst snd]. destruct (truthy (nprim s)) eqn:E.
  - (erewrite seq_ok; [|reflexivity]). unfold map_struct. erewrite map_ok.
    2: { rewrite names_of_set, Nat.eqb_refl by (done || (cbn; by rewrite length_insert)). rewrite !Hget, Hinit. exact Hm. }
    cbn [fst snd]. by rewrite !Hset.
  - apply truthy_false in E. rewrite E in H1, H2, Hinit. destruct H1 as [Hl1 _], H2 as [Hl2 _].
    destruct l1; [|done]. destruct l2; [|done]. change (replicate (Z.to_nat 0) None) with (@nil (option (list Z))) in Hinit.
    by rewrite <-Hinit, Hput.
Qed.

(** The conditions of [names_of_set]. *)
Ltac in_names := first [done | apply Nat.ltb_lt; reflexivity | cbn; by rewrite ?length_insert].

Lemma index_types_ok (s : symtab type_datum) db :
  symtab_values type_val s -> length (sym_val_to_name (p_index db)) = 8%nat ->
  type_val_to_struct db = replicate (Z.to_nat (nprim s)) None ->
  exists l1 l2, index_table SYM_TYPES (nprim s) (map_types s) (db, []) =
      Some (0, (set_type_structs l2 (set_names SYM_TYPES l1 db), [])) /\
    symtab_indexed type_val the_key s l1 /\ symtab_indexed type_val (fun _ d => d) s l2.
Proof.
  intros (h & Ht & Hw & Hn & Hv) Hl Hinit.
  destruct (map_index2 type_val (fun _ d => d) h (nprim s) (type_index (nprim s)) Hw Hv Hn) as (l1 & l2 & Hm & H1 & H2).
  { intros k d l. unfold type_index, type_val. by destruct (truthy (ty_primary d)). }
  exists l1, l2. split; [|split; by exists h]. unfold index_table. cbn [fst snd]. destruct (truthy (nprim s)) eqn:E.
  - erewrite seq_ok; [|reflexivity]. unfold map_types. rewrite Ht. erewrite map_ok.
    2: { rewrite names_of_set, Nat.eqb_refl by in_names.
         cbn [set_names set_index type_val_to_struct]. rewrite Hinit. exact Hm. }
    by rewrite set_names_twice, set_names_twice.
  - apply truthy_false in E. rewrite E in H1, H2, Hinit. destruct H1 as [Hl1 _], H2 as [Hl2 _].
    destruct l1; [|done]. destruct l2; [|done]. destruct db. cbn in Hinit. by subst.
Qed.

Lemma index_levels_ok (s : symtab level_datum) db :
  symtab_values sens_val s -> length (sym_val_to_name (p_index db)) = 8%nat ->
  (forall h, table s = Some h -> map_Forall (fun _ d => exists l, level d = Some l) (hashtab_model h)) ->
  exists l, index_table SYM_LEVELS (nprim s) (map_levels s) (db, []) =
      Some (0, (set_names SYM_LEVELS l db, [])) /\ symtab_indexed sens_val the_key s l.
Proof.
  intros (h & Ht & Hw & Hn & Hv) Hl Hlev.
  destruct (map_index_sens h (nprim s) Hw Hv Hn (Hlev h Ht)) as (l & Hm & HI).
  exists l. split; [|by exists h]. unfold index_table. cbn [fst snd]. destruct (truthy (nprim s)) eqn:E.
  - erewrite seq_ok; [|reflexivity]. unfold map_levels. cbn [fst snd]. rewrite Ht.
    rewrite names_of_set, Nat.eqb_refl by in_names. rewrite Hm. cbn [truthy Z.eqb negb].
    by rewrite set_names_twice, set_names_twice.
  - apply truthy_false in E. rewrite E in HI. destruct HI as [Hlen _]. by destruct l.
Qed.

(** *** Classes *)

Lemma index_classes_ok db :
  symtab_values common_val (sym_commons (p_symtab db)) -> symtab_values class_val (sym_classes (p_symtab db)) ->
  length (sym_val_to_name (p_index db)) = 8%nat ->
  exists l0 l1 lc, policydb_index_classes (db, []) =
      Some (0, (set_class_structs lc (set_names SYM_CLASSES l1 (set_names SYM_COMMONS l0 db)), [])) /\
    symtab_indexed common_val the_key (sym_commons (p_symtab db)) l0 /\
    symtab_indexed class_val the_key (sym_classes (p_symtab db)) l1 /\
    symtab_indexed class_val the_key (sym_classes (p_symtab db)) lc.
Proof.
  intros (h0 & Ht0 & Hw0 & Hn0 & Hv0) (h1 & Ht1 & Hw1 & Hn1 & Hv1) Hl. unfold policydb_index_classes. cbn [fst].
  destruct (map_index common_val the_key h0 _ Hw0 Hv0 (common_index (nprim (sym_commons (p_symtab db)))) Hn0)
    as (l0 & Hm0 & H0); [done|].
  destruct (map_index2 class_val the_key h1 _ (class_index (nprim (sym_classes (p_symtab db)))) Hw1 Hv1 Hn1)
    as (l1 & lc & Hm1 & H1 & Hc); [done|].
  exists l0, l1, lc. split; [|by split_and!; eexists].
  erewrite seq_ok; [|reflexivity]. erewrite seq_ok.
  2: { apply map_ok. rewrite names_of_set, Nat.eqb_refl by in_names. rewrite Ht0. exact Hm0. }
  erewrite seq_ok; [|reflexivity]. erewrite seq_ok; [|reflexivity]. rewrite Ht1. erewrite map_ok.
  2: { rewrite names_of_set, Nat.eqb_refl by in_names.
       cbn [set_names set_class_structs set_index p_index class_val_to_struct]. exact Hm1. }
  cbn [fst snd]. rewrite set_names_twice, names_class_structs, class_structs_twice. by rewrite set_names_twice.
Qed.

(** *** Declarations *)

Lemma index_decls_ok n decls es l :
  filled n es l -> Forall (fun d => 1 <= decl_id d <= n) decls -> NoDup (es.*1 ++ (decl_id <$> decls)) ->
  exists l', index_decls n decls l = (0, l') /\ filled n (es ++ ((fun d => (decl_id d, decl_id d)) <$> decls)) l'.
Proof.
  revert es l. induction decls as [|d decls IH]; intros es l Hf Hr Hnd; cbn [index_decls]; [exists l; by rewrite app_nil_r|].
  apply Forall_cons in Hr as [Hd Hr]. rewrite fmap_cons in Hnd.
  assert (Hni : decl_id d ∉ es.*1).
  { apply NoDup_app in Hnd as (_ & Hx & _). intros Hin. apply (Hx _ Hin). by left. }
  rewrite (index_put_filled n es l (decl_id d) (decl_id d) Hf Hd Hni). cbn [truthy Z.eqb negb].
  rewrite fmap_cons, cons_middle, app_assoc.
  eapply IH; [by apply filled_insert|done|]. rewrite fmap_app, <-app_assoc. exact Hnd.
Qed.

(** Declarations with distinct identifiers. *)
Definition decls_ok (global : list avrule_block) : Prop :=
  let decls := concat (branch_list <$> global) in
  NoDup (decl_id <$> decls) /\ Forall (fun d => 1 <= decl_id d <= Z.of_nat (length decls)) decls /\
  Z.of_nat (length decls) < 2 ^ 32.

(** The array of the declarations, an element of which is the identifier of the declaration
    it points to. *)
Definition decls_indexed (global : list avrule_block) (l : list (option Z)) : Prop :=
  let decls := concat (branch_list <$> global) in
  filled (Z.of_nat (length decls)) ((fun d => (decl_id d, decl_id d)) <$> decls) l.

Lemma policydb_index_decls_ok db :
  decls_ok (p_global db) -> exists l, policydb_index_decls (db, []) = Some (0, (set_decl_structs l db, [])) /\
    decls_indexed (p_global db) l.
Proof.
  intros (Hnd & Hr & Hlt). unfold policydb_index_decls. cbn [fst].
  destruct (index_decls_ok (Z.of_nat (length (concat (branch_list <$> p_global db)))) _ []
    (replicate (Z.to_nat (Z.of_nat (length (concat (branch_list <$> p_global db))))) None)
    (filled_init _ (Nat2Z.is_nonneg _)) Hr Hnd) as (l & Hl & Hf).
  exists l. split; [|exact Hf]. erewrite seq_ok; [|reflexivity]. cbn -[index_decls]. rewrite u32_small by lia. by rewrite Hl.
Qed.
