(* ===== verification/PolicyOthersSpec.v ===== *)
(** * [policydb_index_others] on kernel policies *)

From S2P Require Import Prelude Policyfile Ebitmap EbitmapSpec EbitmapQuery EbitmapUpdate Hashtab HashtabSpec Symtab Avtab Policydb Sepolicy.
From S2P Require Import SepolicyAttr Symbols PolicyIndex PolicyIndexSpec.

Open Scope step_scope.

(** The type set of a role as kernel policies have it: its members are symbols. *)
Definition role_types_ok (types : gmap (list Z) type_datum) (role : role_datum) : Prop :=
  exists ts, ro_types role = TypeSet ts ebitmap_init 0 /\ ebitmap_wf ts /\
    forall i, ebitmap_mem ts i = true -> exists k d, types !! k = Some d /\ type_val d = Some (i + 1).

Definition user_roles_ok (u : user_datum) : Prop :=
  exists r, us_roles u = RoleSet r 0 /\ ebitmap_wf r /\ forall i, ebitmap_mem r i = true -> i < 2 ^ 32 - MAPSIZE.

(** Types without a bitmap of their own, as they are read from kernel policies. *)
Definition plain_types (types : gmap (list Z) type_datum) : Prop :=
  map_Forall (fun _ d => ty_types d = ebitmap_init /\ ty_flags d = 0) types.

(** The new caches. *)
Definition role_cached (structs : list (option type_datum)) (r r' : role_datum) : Prop :=
  exists e, r' = set_cache e r /\ ebitmap_wf e /\
    forall b, ebitmap_mem e b = existsb (fun i => stands_for structs true i b) (ebitmap_bits (ts_types (ro_types r))).

Definition user_cached (u u' : user_datum) : Prop :=
  u' = UserDatum (us_value u) (us_roles u) (us_range u) (dfltlevel u) (rs_roles (us_roles u)) (exp_range u)
         (exp_dfltlevel u) (us_bounds u).

(** What the loop over the tables relies on. *)
Record others_ok (db : policydb) (types : hashtab_val (list Z) type_datum)
    (roles : hashtab_val (list Z) role_datum) (users : hashtab_val (list Z) user_datum) : Prop := {
  oo_kern : policy_type db = POLICY_KERN;
  oo_names : length (sym_val_to_name (p_index db)) = 8%nat;
  oo_ttab : table (sym_types (p_symtab db)) = Some types;
  oo_rtab : table (sym_roles (p_symtab db)) = Some roles;
  oo_utab : table (sym_users (p_symtab db)) = Some users;
  oo_types : symtab_values type_val (sym_types (p_symtab db));
  oo_roles : symtab_values role_val (sym_roles (p_symtab db));
  oo_users : symtab_values user_val (sym_users (p_symtab db));
  oo_bools : symtab_values bool_val (sym_bools (p_symtab db));
  oo_levels : symtab_values sens_val (sym_levels (p_symtab db));
  oo_cats : symtab_values cat_val (sym_cats (p_symtab db));
  oo_level : forall h, table (sym_levels (p_symtab db)) = Some h ->
    map_Forall (fun _ d => exists l, level d = Some l) (hashtab_model h);
  oo_bound : nprim (sym_types (p_symtab db)) <= 2 ^ 32 - MAPSIZE;
  oo_plain : plain_types (hashtab_model types);
  oo_role_types : map_Forall (fun _ => role_types_ok (hashtab_model types)) (hashtab_model roles);
  oo_user_roles : map_Forall (fun _ => user_roles_ok) (hashtab_model users)
}.

(** The arrays that were built. *)
Record others_indexed (st : symtabs) (ix : indexes) (structs : list (option type_datum)) : Prop := {
  oi_names : length (sym_val_to_name ix) = 8%nat;
  oi_roles : symtab_indexed role_val the_key (sym_roles st) (names_in ix SYM_ROLES);
  oi_types : symtab_indexed type_val the_key (sym_types st) (names_in ix SYM_TYPES);
  oi_users : symtab_indexed user_val the_key (sym_users st) (names_in ix SYM_USERS);
  oi_bools : symtab_indexed bool_val the_key (sym_bools st) (names_in ix SYM_BOOLS);
  oi_levels : symtab_indexed sens_val the_key (sym_levels st) (names_in ix SYM_LEVELS);
  oi_cats : symtab_indexed cat_val the_key (sym_cats st) (names_in ix SYM_CATS);
  oi_role : symtab_indexed role_val the_key (sym_roles st) (role_val_to_struct ix);
  oi_user : symtab_indexed user_val the_key (sym_users st) (user_val_to_struct ix);
  oi_bool : symtab_indexed bool_val the_key (sym_bools st) (bool_val_to_struct ix);
  oi_struct : symtab_indexed type_val (fun _ d => d) (sym_types st) structs
}.

(** ** The caches *)

Section cache.
Context (types : hashtab_val (list Z) type_datum) (nprim : Z) (structs : list (option type_datum)).
Hypothesis Hbound : nprim <= 2 ^ 32 - MAPSIZE.
Hypothesis Hplain : plain_types (hashtab_model types).
Hypothesis Hindexed : indexed type_val (fun _ d => d) nprim (hashtab_model types) structs.

Lemma structs_plain i t : structs !! Z.to_nat i = Some (Some t) -> ty_types t = ebitmap_init /\ ty_flags t = 0.
Proof.
  intros Ht. destruct (Z_le_gt_dec 0 i).
  - destruct (proj1 (proj2 Hindexed (i + 1) t ltac:(lia))) as (k & d & Hk & _ & ->); [by replace (i + 1 - 1) with i by lia|].
    by apply (Hplain k).
  - replace (Z.to_nat i) with (Z.to_nat (1 - 1)) in Ht by lia.
    destruct (proj1 (proj2 Hindexed 1 t ltac:(lia)) Ht) as (k & d & Hk & _ & ->). by apply (Hplain k).
Qed.

Lemma symbol_known i :
  0 <= i -> (exists k d, hashtab_model types !! k = Some d /\ type_val d = Some (i + 1)) -> type_known nprim structs i.
Proof.
  intros Hi (k & d & Hk & Hv).
  pose proof (proj2 (proj2 Hindexed (i + 1) d ltac:(lia)) ltac:(eauto)) as Hs. replace (i + 1 - 1) with i in Hs by lia.
  pose proof (lookup_lt_Some _ _ _ Hs). destruct Hindexed as [Hl _]. split; [lia|by exists d].
Qed.

(** Both ways to expand a type set of a kernel policy. *)
Lemma expand_role ts always :
  ebitmap_wf ts ->
  (forall i, ebitmap_mem ts i = true -> exists k d, hashtab_model types !! k = Some d /\ type_val d = Some (i + 1)) ->
  exists t, type_set_expand nprim structs (TypeSet ts ebitmap_init 0) always [] = Some (0, t, []) /\ ebitmap_wf t /\
    forall b, ebitmap_mem t b = existsb (fun i => stands_for structs always i b) (ebitmap_bits ts).
Proof.
  intros Hw Hk. apply type_set_expand_plain; [done| |done| |].
  - intros i t Ht. destruct (structs_plain i t Ht) as [-> _]. apply ebitmap_init_wf.
  - intros i Hi. apply symbol_known; [|by apply Hk]. by apply (SepolicyAttrProps.mem_nonneg ts).
  - intros i t b Ht. destruct (structs_plain i t Ht) as [-> _]. done.
Qed.

(** Without expansion the cache is the set itself. *)
Lemma expand_role_same ts :
  ebitmap_wf ts ->
  (forall i, ebitmap_mem ts i = true -> exists k d, hashtab_model types !! k = Some d /\ type_val d = Some (i + 1)) ->
  type_set_expand nprim structs (TypeSet ts ebitmap_init 0) false [] = Some (0, ts, []).
Proof.
  intros Hw Hk. destruct (expand_role ts false Hw Hk) as (t & -> & Hwt & Ht). do 3 f_equal.
  apply ebitmap_ext; [done|done|]. intros b. rewrite Ht, <-(bits_mem ts b Hw). apply eq_true_iff_eq.
  rewrite !existsb_exists. split; intros (i & Hi & Hs); exists i; (split; [done|]).
  all: destruct (symbol_known i) as [_ (d & Hd)];
    [apply (SepolicyAttrProps.mem_nonneg ts i Hw), elem_of_bits; [done|by apply list_elem_of_In]
    |apply Hk, elem_of_bits; [done|by apply list_elem_of_In]|].
  all: rewrite (stands_for_at structs false i d b Hd) in *; destruct (structs_plain i d Hd) as [_ Hfl];
    unfold expanded in *; rewrite Hfl, andb_false_r in *; done.
Qed.
End cache.

(** ** All tables *)

Lemma index_tables_ok db types roles users :
  others_ok db types roles users ->
  let st := p_symtab db in
  exists ix structs,
    (forall k : step,
      (step_calloc (nprim (sym_roles st)) set_role_structs ;>
       step_calloc (nprim (sym_users st)) set_user_structs ;>
       step_calloc (nprim (sym_types st)) set_type_structs ;>
       cond_init_bool_indexes ;>
       index_table SYM_ROLES (nprim (sym_roles st))
         (map_struct SYM_ROLES (table (sym_roles st)) (role_index (nprim (sym_roles st))) role_val_to_struct set_role_structs) ;>
       index_table SYM_TYPES (nprim (sym_types st)) (map_types (sym_types st)) ;>
       index_table SYM_USERS (nprim (sym_users st))
         (map_struct SYM_USERS (table (sym_users st)) (user_index (nprim (sym_users st))) user_val_to_struct set_user_structs) ;>
       index_table SYM_BOOLS (nprim (sym_bools st))
         (map_struct SYM_BOOLS (table (sym_bools st)) (cond_index_bool (nprim (sym_bools st))) bool_val_to_struct set_bool_structs) ;>
       index_table SYM_LEVELS (nprim (sym_levels st)) (map_levels (sym_levels st)) ;>
       index_table SYM_CATS (nprim (sym_cats st))
         (step_map (table (sym_cats st)) (cat_index (nprim (sym_cats st))) (names_of SYM_CATS) (set_names SYM_CATS)) ;>
       k) (db, []) = k (set_type_structs structs (set_index ix db), [])) /\
    others_indexed st ix structs /\ class_val_to_struct ix = class_val_to_struct (p_index db) /\
    decl_val_to_struct ix = decl_val_to_struct (p_index db) /\
    names_in ix SYM_COMMONS = names_in (p_index db) SYM_COMMONS /\
    names_in ix SYM_CLASSES = names_in (p_index db) SYM_CLASSES.
Proof.
  intros [Hk Hl Htt Hrt Hut Ht Hr Hu Hb Hs Hc Hlev _ _ _ _] st.
  set (db1 := set_bool_structs (replicate (Z.to_nat (nprim (sym_bools st))) None)
    (set_type_structs (replicate (Z.to_nat (nprim (sym_types st))) None)
      (set_user_structs (replicate (Z.to_nat (nprim (sym_users st))) None)
        (set_role_structs (replicate (Z.to_nat (nprim (sym_roles st))) None) db)))).
  destruct (index_struct_ok role_val (sym_roles st) SYM_ROLES (role_index (nprim (sym_roles st)))
    role_val_to_struct set_role_structs db1) as (r1 & r2 & Er & Ir1 & Ir2);
    [done|in_names|in_names|done|done|done|done|intros; by rewrite set_names_twice|].
  set (db2 := set_role_structs r2 (set_names SYM_ROLES r1 db1)) in *.
  destruct (index_types_ok (sym_types st) db2) as (t1 & t2 & Et & It1 & It2); [done|in_names|done|].
  set (db3 := set_type_structs t2 (set_names SYM_TYPES t1 db2)) in *.
  destruct (index_struct_ok user_val (sym_users st) SYM_USERS (user_index (nprim (sym_users st)))
    user_val_to_struct set_user_structs db3) as (u1 & u2 & Eu & Iu1 & Iu2);
    [done|in_names|in_names|done|done|done|done|intros; by rewrite set_names_twice|].
  set (db4 := set_user_structs u2 (set_names SYM_USERS u1 db3)) in *.
  destruct (index_struct_ok bool_val (sym_bools st) SYM_BOOLS (cond_index_bool (nprim (sym_bools st)))
    bool_val_to_struct set_bool_structs db4) as (b1 & b2 & Eb & Ib1 & Ib2);
    [done|in_names|in_names|done|done|done|done|intros; by rewrite set_names_twice|].
  set (db5 := set_bool_structs b2 (set_names SYM_BOOLS b1 db4)) in *.
  destruct (index_levels_ok (sym_levels st) db5) as (s1 & Es & Is); [done|in_names|done|].
  set (db6 := set_names SYM_LEVELS s1 db5) in *.
  destruct (index_names_ok cat_val (sym_cats st) SYM_CATS (cat_index (nprim (sym_cats st))) db6)
    as (c1 & Ec & Ic); [done|in_names|in_names| |].
  { intros k d l. unfold cat_index, cat_val. by destruct (truthy (cat_isalias d)). }
  exists (p_index (set_names SYM_CATS c1 db6)), t2. split.
  - intros k. erewrite seq_ok; [|reflexivity]. erewrite seq_ok; [|reflexivity]. erewrite seq_ok; [|reflexivity].
    erewrite seq_ok; [|reflexivity]. change (set_bool_structs _ _) with db1.
    rewrite (seq_ok _ _ _ _ Er), (seq_ok _ _ _ _ Et), (seq_ok _ _ _ _ Eu), (seq_ok _ _ _ _ Eb), (seq_ok _ _ _ _ Es).
    rewrite (seq_ok _ _ _ _ Ec). reflexivity.
  - assert (Hlen : length (sym_val_to_name (p_index (set_names SYM_CATS c1 db6))) = 8%nat) by in_names.
    assert (Hn : forall i, names_in (p_index (set_names SYM_CATS c1 db6)) i =
      if (i =? 7)%nat then c1 else if (i =? 6)%nat then s1 else if (i =? 5)%nat then b1 else
      if (i =? 4)%nat then u1 else if (i =? 3)%nat then t1 else if (i =? 2)%nat then r1 else names_in (p_index db) i).
    { intros i. unfold names_in.
      change (sym_val_to_name (p_index (set_names SYM_CATS c1 db6))) with
        (<[SYM_CATS := c1]> (<[SYM_LEVELS := s1]> (<[SYM_BOOLS := b1]> (<[SYM_USERS := u1]> (<[SYM_TYPES := t1]>
          (<[SYM_ROLES := r1]> (sym_val_to_name (p_index db)))))))).
      rewrite !names_insert by (rewrite ?length_insert, Hl; apply Nat.ltb_lt; reflexivity). done. }
    split_and!; try done; try (rewrite Hn; done).
    split; try done; try (rewrite Hn; done).
Qed.

Lemma cache_roles_ok db types roles :
  table (sym_roles (p_symtab db)) = Some roles -> hashtab_wf cstring_ok roles ->
  nprim (p_types db) <= 2 ^ 32 - MAPSIZE -> plain_types (hashtab_model types) ->
  indexed type_val (fun _ d => d) (nprim (p_types db)) (hashtab_model types) (type_val_to_struct db) ->
  map_Forall (fun _ => role_types_ok (hashtab_model types)) (hashtab_model roles) ->
  exists h', cache_roles (db, []) = Some (0, (set_symtab (set_roles (Some h') (p_symtab db)) db, [])) /\
    hashtab_wf cstring_ok h' /\ nel h' = nel roles /\
    forall k, option_Forall2 (role_cached (type_val_to_struct db)) (hashtab_model roles !! k) (hashtab_model h' !! k).
Proof.
  intros Ht Hw Hb Hp Hi Hr. unfold cache_roles. cbn [fst snd]. rewrite Ht.
  destruct (visit_table_spec (policydb_role_cache db) (fun _ => role_cached (type_val_to_struct db)) roles Hw)
    as (h' & -> & Hw' & Hn & Hc).
  - intros k r Hk. destruct (Hr k r Hk) as (ts & Hts & Hwt & Hin).
    destruct (expand_role types (nprim (p_types db)) (type_val_to_struct db) Hb Hp Hi ts true Hwt Hin) as (e & Ee & Hwe & He).
    unfold policydb_role_cache. rewrite Hts, Ee. cbn [mbind option_bind truthy Z.eqb negb].
    eexists. split; [reflexivity|]. exists e. rewrite Hts. by split_and!.
  - exists h'. by split_and!.
Qed.

Lemma cache_users_ok db users :
  policy_type db = POLICY_KERN -> table (sym_users (p_symtab db)) = Some users -> hashtab_wf cstring_ok users ->
  map_Forall (fun _ => user_roles_ok) (hashtab_model users) ->
  exists h', cache_users (db, []) = Some (0, (set_symtab (set_users (Some h') (p_symtab db)) db, [])) /\
    hashtab_wf cstring_ok h' /\ nel h' = nel users /\
    forall k, option_Forall2 user_cached (hashtab_model users !! k) (hashtab_model h' !! k).
Proof.
  intros Hk Ht Hw Hr. unfold cache_users. cbn [fst snd]. rewrite Ht.
  destruct (visit_table_spec (policydb_user_cache db) (fun _ => user_cached) users Hw) as (h' & -> & Hw' & Hn & Hc).
  - intros k u Hu. destruct (Hr k u Hu) as (r & Hur & Hwr & Hb). unfold policydb_user_cache.
    rewrite Hur, role_set_expand_plain by done. cbn [mbind option_bind truthy Z.eqb negb]. rewrite Hk. cbn [Z.eqb orb POLICY_KERN].
    eexists. split; [reflexivity|]. unfold user_cached. by rewrite Hur.
  - exists h'. by split_and!.
Qed.

(** With memory available the arrays and the caches are rebuilt. *)
Lemma policydb_index_others_ok db types roles users :
  others_ok db types roles users ->
  exists ix structs hr hu,
    policydb_index_others (db, []) =
      Some (0, (set_symtab (set_users (Some hu) (set_roles (Some hr) (p_symtab db)))
                  (set_type_structs structs (set_index ix db)), [])) /\
    others_indexed (p_symtab db) ix structs /\ class_val_to_struct ix = class_val_to_struct (p_index db) /\
    decl_val_to_struct ix = decl_val_to_struct (p_index db) /\
    names_in ix SYM_COMMONS = names_in (p_index db) SYM_COMMONS /\
    names_in ix SYM_CLASSES = names_in (p_index db) SYM_CLASSES /\
    hashtab_wf cstring_ok hr /\ nel hr = nel roles /\ hashtab_wf cstring_ok hu /\ nel hu = nel users /\
    (forall k, option_Forall2 (role_cached structs) (hashtab_model roles !! k) (hashtab_model hr !! k)) /\
    forall k, option_Forall2 user_cached (hashtab_model users !! k) (hashtab_model hu !! k).
Proof.
  intros Hok. destruct (index_tables_ok db types roles users Hok) as (ix & structs & Hrun & Hix & Hcl & Hd & H0 & H1).
  pose proof Hok as [Hk Hl Htt Hrt Hut _ (r & Er & Hwr & _) (u & Eu & Hwu & _) _ _ _ _ Hb Hp Hrty Hur].
  assert (r = roles) by congruence. assert (u = users) by congruence. subst r u.
  pose proof (oi_struct _ _ _ Hix) as (t & Et & Hi). assert (t = types) by congruence. subst t.
  destruct (cache_roles_ok (set_type_structs structs (set_index ix db)) types roles) as (hr & Ehr & Hwhr & Hnr & Hcr); try done.
  destruct (cache_users_ok (set_symtab (set_roles (Some hr) (p_symtab db)) (set_type_structs structs (set_index ix db))) users)
    as (hu & Ehu & Hwhu & Hnu & Hcu); try done.
  exists ix, structs, hr, hu. unfold policydb_index_others. cbn [fst]. rewrite Hrun, (seq_ok _ _ _ _ Ehr).
  split; [exact Ehu|]. by split_and!.
Qed.
