(* ===== verification/SepolicyType.v ===== *)
(** * New types and attributes (native/src/sepolicy/sepolicy.cpp, libsepol/src/policydb.c, util.c)

    [add_type] declares a symbol by [symtab_insert], grows the attribute maps, rebuilds the
    arrays indexed by value and adds the type to every role.  The datum of a new symbol is
    written through its pointer after it is in the table: a write to the entry of its key.
    [None] is a crash, as in the other operations of the editor. *)

From S2P Require Import Prelude Policyfile Ebitmap EbitmapSpec EbitmapQuery EbitmapUpdate Hashtab HashtabSpec Symtab Codec Avtab Policydb.
From S2P Require Import Sepolicy SepolicySpec SepolicyAttr SepolicyAttrProps Symbols CodecTable SymbolsKinds SymbolsTrip PolicyIndex PolicyIndexSpec PolicyOthersSpec.

Definition SCOPE_REQ : Z := 1.
Definition SCOPE_DECL : Z := 2.

(** [add_i_to_a]; an array of length 0 is [NULL]. *)
Definition add_i_to_a (i : Z) (a : list Z) (o : oracle) : Z * list Z * oracle :=
  if Z.of_nat (length a) =? UINT32_MAX then (-1, a, o)
  else
    let (ok, o) := malloc o in
    if ok then (0, a ++ [i], o) else (-1, a, o).

(** A write through the pointer to a datum, which is known by its key. *)
Definition write_symbol {D} (h : symbols D) (key : list Z) (f : D -> D) : symbols D :=
  match h with
  | None => None
  | Some h =>
      Some (Hashtab (map (map (fun n => if bool_decide (hkey n = key) then HNode (hkey n) (f (hdatum n)) else n))
                       (htable h)) (hsize h) (nel h))
  end.

(** The end of [symtab_insert]: the declaration is added to those of the symbol. *)
Definition add_decl (key : list Z) (d : scope_datum) (scope avrule_decl_id retval : Z)
    (scp : symbols scope_datum) (o : oracle) : Z * symbols scope_datum * oracle :=
  if existsb (Z.eqb avrule_decl_id) (decl_ids d) then (retval, scp, o)
  else
    let '(rc, ids, o) := add_i_to_a avrule_decl_id (decl_ids d) o in
    if rc =? -1 then (- ENOMEM, scp, o)
    else
      let put ids := write_symbol scp key (fun d => ScopeDatum (sc_scope d) ids) in
      if (sc_scope d =? SCOPE_DECL) && (scope =? SCOPE_REQ) then
        let len := length ids in
        if (len <? 2)%nat then (-1, put ids, o)
        else
          (retval,
           put (take (len - 2) ids ++ [default 0 (ids !! (len - 1)%nat); default 0 (ids !! (len - 2)%nat)]), o)
      else (retval, put ids, o).

(** The scope of a symbol: found or created ([inl]), or an error ([inr]). *)
Definition find_scope (key : list Z) (scope : Z) (scp : symbols scope_datum) (o : oracle) :
    (scope_datum + Z) * symbols scope_datum * oracle :=
  match hashtab_search scp key with
  | Some d => (inl d, scp, o)
  | None =>
      let (ok, o) := malloc o in
      if negb ok then (inr (- ENOMEM), scp, o)
      else
        let (ok, o) := malloc o in
        if negb ok then (inr (- ENOMEM), scp, o)
        else
          let '(rc, scp, o) := hashtab_insert scp key (ScopeDatum scope []) o in
          (if truthy rc then inr rc else inl (ScopeDatum scope []), scp, o)
  end.

(** [symtab_insert] on a symbol table and the table of scopes; [regular] says that a datum
    is a role which is no attribute.  [*value] is the new [nprim] when the symbol was added. *)
Definition symtab_insert {D} (sym : nat) (regular : D -> bool) (key : list Z) (datum : D) (scope avrule_decl_id : Z)
    (tab : symtab D) (scp : symbols scope_datum) (o : oracle) :
    Z * symtab D * symbols scope_datum * oracle :=
  let '(rc, t, o) := hashtab_insert (table tab) key datum o in
  if negb ((rc =? SEPOL_OK) || (rc =? SEPOL_EEXIST)) then (rc, Symtab t (nprim tab), scp, o)
  else
    let tab := Symtab t (if rc =? SEPOL_OK then u32 (nprim tab + 1) else nprim tab) in
    let retval := if rc =? SEPOL_OK then 0 else 1 in
    let existed := match hashtab_search scp key with Some _ => true | None => false end in
    match find_scope key scope scp o with
    | (inr rc, scp, o) => (rc, tab, scp, o)
    | (inl d, scp, o) =>
        if existed && (sc_scope d =? SCOPE_DECL) && (scope =? SCOPE_DECL) then
          if negb ((sym =? SYM_ROLES)%nat || (sym =? SYM_USERS)%nat) then (-2, tab, scp, o)
          else if (sym =? SYM_ROLES)%nat &&
                  negb (match hashtab_search (table tab) key with Some b => regular b | None => false end && regular datum)
          then (-2, tab, scp, o)
          else
            let '(rc, scp, o) := add_decl key d scope avrule_decl_id retval scp o in (rc, tab, scp, o)
        else if existed && (sc_scope d =? SCOPE_REQ) && (scope =? SCOPE_DECL) then
          let scp := write_symbol scp key (fun d => ScopeDatum SCOPE_DECL (decl_ids d)) in
          let '(rc, scp, o) := add_decl key (ScopeDatum SCOPE_DECL (decl_ids d)) scope avrule_decl_id retval scp o in
          (rc, tab, scp, o)
        else
          let '(rc, scp, o) := add_decl key d scope avrule_decl_id retval scp o in (rc, tab, scp, o)
    end.

(** ** [add_type] *)

Definition set_types (t : symtab type_datum) (st : symtabs) : symtabs :=
  Symtabs (sym_commons st) (sym_classes st) (sym_roles st) t (sym_users st)
    (sym_bools st) (sym_levels st) (sym_cats st).

Definition set_scope (l : list (symtab scope_datum)) (db : policydb) : policydb :=
  Policydb (policy_type db) (target_platform db) (policyvers db) (p_symtab db) (te_avtab db) (filename_trans db)
    (filename_trans_count db) (type_val_to_struct db) (type_attr_map db) (attr_type_map db)
    (permissive_map db) (p_mls db) l (p_global db) (p_index db) (p_genfs db).

Definition set_global (l : list avrule_block) (db : policydb) : policydb :=
  Policydb (policy_type db) (target_platform db) (policyvers db) (p_symtab db) (te_avtab db) (filename_trans db)
    (filename_trans_count db) (type_val_to_struct db) (type_attr_map db) (attr_type_map db)
    (permissive_map db) (p_mls db) (p_scope db) l (p_index db) (p_genfs db).

Definition set_maps (m1 m2 : list ebitmap) (db : policydb) : policydb :=
  Policydb (policy_type db) (target_platform db) (policyvers db) (p_symtab db) (te_avtab db) (filename_trans db)
    (filename_trans_count db) (type_val_to_struct db) m1 m2
    (permissive_map db) (p_mls db) (p_scope db) (p_global db) (p_index db) (p_genfs db).

(** [dup_str]; the copy of a failed [malloc] is written to. *)
Definition dup_str (s : list Z) (o : oracle) : option (list Z * oracle) :=
  let (ok, o) := malloc o in if ok then Some (c_str s, o) else None.

(** [ebitmap_set_bit(&db->global->branch_list->declared.p_types_scope, bit, 1)]. *)
Definition declare_type (bit : Z) (s : state) : option state :=
  match p_global s.1 with
  | AvruleBlock (d :: ds) :: blocks =>
      match declared d !! SYM_TYPES with
      | Some e =>
          let '(_, e, o) := ebitmap_set_bit e bit true s.2 in
          let d := AvruleDecl (decl_id d) (<[SYM_TYPES := e]> (declared d)) in
          Some (set_global (AvruleBlock (d :: ds) :: blocks) s.1, o)
      | None => None
      end
  | _ => None
  end.

(** [realloc] of an attribute map to [nprim] rows and the initialization of the last; the
    other new rows would not be initialized. *)
Definition grow_map (nprim : Z) (m : list ebitmap) (o : oracle) : option (list ebitmap * oracle) :=
  let (ok, o) := malloc o in
  if ok && (nprim - 1 <=? Z.of_nat (length m)) then Some (take (Z.to_nat (nprim - 1)) m ++ [ebitmap_init], o)
  else None.

Definition grow_maps (value : Z) (s : state) : option state :=
  let (db, o) := s in
  let nprim := nprim (p_types db) in
  '(m1, o) ← grow_map nprim (type_attr_map db) o;
  '(m2, o) ← grow_map nprim (attr_type_map db) o;
  '(_, m1, o) ← set_in_map m1 (value - 1) (value - 1) o;
  Some (set_maps m1 m2 db, o).

(** The body of the loop over the roles. *)
Definition add_to_role (nprim : Z) (structs : list (option type_datum)) (bit : Z) (role : role_datum) (o : oracle) :
    option (role_datum * oracle) :=
  let ts := ro_types role in
  let '(_, neg, o) := ebitmap_set_bit (negset ts) bit false o in
  let '(_, types, o) := ebitmap_set_bit (ts_types ts) bit true o in
  let ts := TypeSet types neg (ts_flags ts) in
  '(_, cache, o) ← type_set_expand nprim structs ts false o;
  Some (RoleDatum (ro_value role) (dominates role) ts cache (ro_bounds role) (ro_flavor role) (ro_roles role), o).

(** [role_val_to_struct[i]] for each [i]. *)
Fixpoint add_to_roles (bit : Z) (roles : list (option (list Z))) (s : state) : option state :=
  match roles with
  | [] => Some s
  | None :: _ => None
  | Some key :: roles' =>
      let (db, o) := s in
      let h := table (sym_roles (p_symtab db)) in
      match hashtab_search h key with
      | None => None
      | Some role =>
          '(role, o) ← add_to_role (nprim (p_types db)) (type_val_to_struct db) bit role o;
          add_to_roles bit roles' (set_symtab (set_roles (write_symbol h key (fun _ => role)) (p_symtab db)) db, o)
      end
  end.

(** [SCOPE_DECL] in the declaration 1; without a table of scopes there is no [scope[sym]]. *)
Definition insert_type (key : list Z) (datum : type_datum) (s : state) : Z * state :=
  let (db, o) := s in
  let st := p_symtab db in
  let scp := default (Symtab None 0) (p_scope db !! SYM_TYPES) in
  let '(rc, tab, t, o) :=
    symtab_insert SYM_TYPES (fun _ => false) key datum SCOPE_DECL 1 (sym_types st) (table scp) o in
  (rc, (set_scope (<[SYM_TYPES := Symtab t (nprim scp)]> (p_scope db)) (set_symtab (set_types tab st) db), o)).

(** [type->s.value = value]. *)
Definition set_type_value (key : list Z) (value : Z) (db : policydb) : policydb :=
  let st := p_symtab db in
  let f d := TypeDatum value (ty_primary d) (ty_flavor d) (ty_types d) (ty_flags d) (ty_bounds d) in
  set_symtab (set_types (Symtab (write_symbol (table (sym_types st)) key f) (nprim (sym_types st))) st) db.

Definition add_type (type_name : list Z) (flavor : Z) (s : state) : option (bool * state) :=
  let (db, o) := s in
  match hashtab_find (table (p_types db)) type_name with
  | Some _ => Some (true, s)
  | None =>
      let (ok, o) := malloc o in
      if negb ok then None
      else
        '(ty_name, o) ← dup_str type_name o;
        let type := TypeDatum 0 1 flavor ebitmap_init 0 0 in
        let '(rc, s) := insert_type ty_name type (db, o) in
        if truthy rc then Some (false, s)
        else
          let value := nprim (p_types s.1) in
          s ← declare_type (value - 1) (set_type_value ty_name value s.1, s.2);
          s ← grow_maps value s;
          '(rc, s) ← (policydb_index_decls ;> policydb_index_classes ;> policydb_index_others) s;
          if truthy rc then Some (false, s)
          else
            s ← add_to_roles (value - 1)
                  (take (Z.to_nat (nprim (sym_roles (p_symtab s.1)))) (role_val_to_struct (p_index s.1))) s;
            Some (true, s)
  end.

(** * New types: what each part of [add_type] does *)

(** ** Writing to a symbol *)

Lemma option_Forall2_fun {A B} (g : A -> B) x y : option_Forall2 (fun a b => b = g a) x y -> y = g <$> x.
Proof. by intros [? ? ->|]. Qed.

Lemma write_symbol_spec {D} (h : hashtab_val (list Z) D) key f :
  hashtab_wf cstring_ok h ->
  exists h', write_symbol (Some h) key f = Some h' /\ hashtab_wf cstring_ok h' /\ nel h' = nel h /\
    hashtab_model h' = alter f key (hashtab_model h).
Proof.
  intros Hw. set (R := fun (k : list Z) (d d' : D) => d' = if bool_decide (k = key) then f d else d).
  set (g := fun n : hashtab_node (list Z) D => if bool_decide (hkey n = key) then HNode (hkey n) (f (hdatum n)) else n).
  destruct (table_changed cstring_ok R h (map (map g) (htable h)) Hw) as [Hw' Hm].
  { apply Forall2_fmap_r, Forall_Forall2_diag, Forall_true. intros c.
    apply Forall2_fmap_r, Forall_Forall2_diag, Forall_true. intros n. unfold g, data_changed, R, compose.
    destruct (bool_decide (hkey n = key)); done. }
  exists (Hashtab (map (map g) (htable h)) (hsize h) (nel h)). split; [reflexivity|]. split; [exact Hw'|]. split; [done|].
  apply map_eq. intros k. specialize (Hm k). unfold R in Hm. rewrite (option_Forall2_fun _ _ _ Hm).
  destruct (decide (k = key)) as [->|Hne].
  - rewrite lookup_alter_eq. by rewrite bool_decide_eq_true_2.
  - rewrite lookup_alter_ne, bool_decide_eq_false_2 by done. apply option_fmap_id.
Qed.

(** ** The new symbol *)

Lemma symtab_insert_new {D} sym regular key (datum : D) tab h scp :
  table tab = Some h -> hashtab_wf cstring_ok h -> hashtab_wf cstring_ok scp -> cstring_ok key ->
  hashtab_model h !! key = None -> hashtab_model scp !! key = None ->
  nel h < UINT32_MAX -> nel scp < UINT32_MAX -> 0 <= nprim tab < UINT32_MAX ->
  exists h' scp', symtab_insert sym regular key datum SCOPE_DECL 1 tab (Some scp) [] =
      (0, Symtab (Some h') (nprim tab + 1), Some scp', []) /\
    hashtab_wf cstring_ok h' /\ nel h' = nel h + 1 /\ hashtab_model h' = <[key := datum]> (hashtab_model h) /\
    hashtab_wf cstring_ok scp' /\ hashtab_model scp' = <[key := ScopeDatum SCOPE_DECL [1]]> (hashtab_model scp).
Proof.
  intros Ht Hw Hws Hk Hn Hns Hnel Hnels Hp.
  destruct (hashtab_insert_new cstring_ok h key datum Hw Hk Hn Hnel) as (h' & Eh & Hw' & Hm').
  destruct (hashtab_insert_new cstring_ok scp key (ScopeDatum SCOPE_DECL []) Hws Hk Hns Hnels) as (s1 & Es & Hw1 & Hm1).
  unfold symtab_insert. rewrite Ht, Eh. cbn [Z.eqb SEPOL_OK orb negb]. unfold find_scope.
  rewrite (hashtab_search_spec cstring_ok scp key Hws Hk), Hns. cbn [malloc negb]. rewrite Es. cbn [truthy Z.eqb negb andb].
  unfold add_decl, add_i_to_a. cbn [decl_ids existsb length malloc]. change (Z.of_nat 0 =? UINT32_MAX) with false. cbv iota.
  rewrite andb_false_r. change (0 =? -1) with false. cbv iota.
  destruct (write_symbol_spec s1 key (fun d => ScopeDatum (sc_scope d) ([] ++ [1])) Hw1) as (s2 & -> & Hw2 & _ & Hm2).
  exists h', s2. unfold UINT32_MAX in *. rewrite u32_small by lia. split; [reflexivity|]. split; [done|]. split.
  { rewrite (nel_size cstring_ok h' Hw'), Hm', map_size_insert_None, (nel_size cstring_ok h Hw) by done. lia. }
  split; [done|]. split; [done|]. rewrite Hm2, Hm1, alter_insert_eq. done.
Qed.

(** ** Attribute maps *)

Lemma grow_map_ok n m :
  0 < n -> Z.of_nat (length m) = n - 1 -> grow_map n m [] = Some (m ++ [ebitmap_init], []).
Proof.
  intros Hn Hl. unfold grow_map. cbn [malloc andb]. rewrite (proj2 (Z.leb_le _ _)) by lia.
  by rewrite firstn_all2 by lia.
Qed.

Lemma map_mem_snoc m e i b :
  0 <= i -> map_mem (m ++ [e]) i b = if i =? Z.of_nat (length m) then ebitmap_mem e b else map_mem m i b.
Proof.
  intros Hi. unfold map_mem. destruct (Z.eqb_spec i (Z.of_nat (length m))) as [->|Hne].
  - rewrite Nat2Z.id, list_lookup_middle by done. done.
  - destruct (decide (Z.to_nat i < length m)%nat) as [Hlt|Hge].
    + by rewrite lookup_app_l.
    + rewrite (lookup_ge_None_2 m) by lia. rewrite lookup_ge_None_2; [done|]. rewrite length_app. simpl. lia.
Qed.

Lemma grow_maps_ok db v :
  nprim (p_types db) = v -> 0 < v < 2 ^ 32 - MAPSIZE ->
  Forall ebitmap_wf (type_attr_map db) -> Forall ebitmap_wf (attr_type_map db) ->
  Z.of_nat (length (type_attr_map db)) = v - 1 -> Z.of_nat (length (attr_type_map db)) = v - 1 ->
  exists m1, grow_maps v (db, []) = Some (set_maps m1 (attr_type_map db ++ [ebitmap_init]) db, []) /\
    Forall ebitmap_wf m1 /\ Z.of_nat (length m1) = v /\
    forall i b, 0 <= i -> map_mem m1 i b = (i =? v - 1) && (b =? v - 1) || map_mem (type_attr_map db) i b.
Proof.
  intros Hn Hv W1 W2 L1 L2. unfold grow_maps. rewrite Hn, (grow_map_ok _ (type_attr_map db)) by lia. cbn [mbind option_bind].
  rewrite (grow_map_ok _ (attr_type_map db)) by lia. cbn [mbind option_bind].
  destruct (set_in_map_spec (type_attr_map db ++ [ebitmap_init]) (v - 1) (v - 1)) as (m1 & -> & W & L & H).
  - apply Forall_app. split; [done|]. apply Forall_singleton, ebitmap_init_wf.
  - rewrite length_app. simpl. lia.
  - lia.
  - cbn [mbind option_bind]. exists m1. split; [reflexivity|]. split; [done|]. rewrite length_app in L. split; [simpl in L; lia|].
    intros i b Hi. rewrite H, map_mem_snoc by done. f_equal. destruct (Z.eqb_spec i (Z.of_nat (length (type_attr_map db)))) as [->|]; [|done].
    by rewrite map_mem_out.
Qed.

(** ** Roles *)

(** The role is authorized for one more type, and its cache says so. *)
Definition role_gains (bit : Z) (r r' : role_datum) : Prop :=
  exists ts, ebitmap_wf ts /\ (forall b, ebitmap_mem ts b = (b =? bit) || ebitmap_mem (ts_types (ro_types r)) b) /\
    r' = RoleDatum (ro_value r) (dominates r) (TypeSet ts ebitmap_init 0) ts (ro_bounds r) (ro_flavor r) (ro_roles r).

Section roles.
Context (types : hashtab_val (list Z) type_datum) (n : Z) (structs : list (option type_datum)) (bit : Z).
Hypothesis Hbound : n <= 2 ^ 32 - MAPSIZE.
Hypothesis Hplain : plain_types (hashtab_model types).
Hypothesis Hindexed : indexed type_val (fun _ d => d) n (hashtab_model types) structs.
Hypothesis Hbit : 0 <= bit < 2 ^ 32 - MAPSIZE.
Hypothesis Hnew : exists k d, hashtab_model types !! k = Some d /\ type_val d = Some (bit + 1).

Lemma add_to_role_ok r :
  role_types_ok (hashtab_model types) r ->
  exists r', add_to_role n structs bit r [] = Some (r', []) /\ role_gains bit r r'.
Proof.
  intros (ts & Hts & Hw & Hk). unfold add_to_role. rewrite Hts. cbn [negset ts_types ts_flags].
  destruct (write_bit_memory ebitmap_init bit false ebitmap_init_wf Hbit) as (e0 & -> & Hw0 & H0).
  assert (e0 = ebitmap_init) as ->.
  { apply ebitmap_ext; [done|apply ebitmap_init_wf|]. intros b. rewrite H0. by destruct (b =? bit). }
  destruct (set_bit_memory ts bit Hw Hbit) as (e & -> & Hwe & He).
  rewrite (expand_role_same types n structs Hbound Hplain Hindexed e Hwe).
  - cbn [mbind option_bind]. eexists. split; [reflexivity|]. exists e. split; [done|]. split; [by rewrite Hts|done].
  - intros i. rewrite He. destruct (Z.eqb_spec i bit) as [->|]; [by intros _|]. apply Hk.
Qed.

Lemma add_to_roles_ok ks db roles :
  table (sym_roles (p_symtab db)) = Some roles -> hashtab_wf cstring_ok roles -> nprim (p_types db) = n ->
  type_val_to_struct db = structs -> NoDup ks ->
  Forall (fun k => exists r, hashtab_model roles !! k = Some r /\ role_types_ok (hashtab_model types) r) ks ->
  exists h', add_to_roles bit (Some <$> ks) (db, []) =
      Some (set_symtab (set_roles (Some h') (p_symtab db)) db, []) /\
    hashtab_wf cstring_ok h' /\ nel h' = nel roles /\
    forall k, option_Forall2 (fun r r' => if bool_decide (k ∈ ks) then role_gains bit r r' else r' = r)
                (hashtab_model roles !! k) (hashtab_model h' !! k).
Proof.
  revert db roles. induction ks as [|key ks IH]; intros db roles Ht Hw Hn Hs Hnd Hks.
  { exists roles. split.
    - cbn. do 2 f_equal. destruct db as [? ? ? [? ? [] ? ? ? ? ?] ? ? ? ? ? ? ? ? ? ? ?]. cbn in *. by subst.
    - split_and!; try done. intros k. rewrite bool_decide_eq_false_2 by (by intros ?%elem_of_nil).
      by destruct (hashtab_model roles !! k); constructor. }
  apply NoDup_cons in Hnd as [Hni Hnd]. apply Forall_cons in Hks as [(r & Hr & Hrt) Hks].
  rewrite fmap_cons. cbn [add_to_roles]. rewrite Ht.
  assert (Hkey : cstring_ok key).
  { apply (table_keys_ok cstring_ok (hsize roles) (htable roles)); [apply Hw|].
    rewrite <-pairs_keys. apply (list_elem_of_fmap_2 fst _ (key, r)), elem_of_list_to_map_2, Hr. }
  rewrite (hashtab_search_spec cstring_ok roles key Hw Hkey), Hr, Hn, Hs.
  destruct (add_to_role_ok r Hrt) as (r' & -> & Hg). cbn [mbind option_bind].
  destruct (write_symbol_spec roles key (fun _ => r') Hw) as (h1 & -> & Hw1 & Hn1 & Hm1).
  destruct (IH (set_symtab (set_roles (Some h1) (p_symtab db)) db) h1) as (h' & E' & Hw' & Hn' & Hm'); try done.
  { rewrite Forall_forall in Hks |- *. intros k Hin. destruct (Hks k Hin) as (rk & Hrk & Hok). exists rk. split; [|done].
    rewrite Hm1, lookup_alter_ne; [done|]. by intros ->. }
  exists h'. split; [exact E'|]. split; [done|]. split; [congruence|]. intros k. specialize (Hm' k). rewrite Hm1 in Hm'.
  destruct (decide (k = key)) as [->|Hne].
  - rewrite lookup_alter_eq, Hr in Hm'. cbn in Hm'. rewrite bool_decide_eq_false_2 in Hm' by done.
    inversion Hm' as [? ? Heq|]; subst. rewrite Hr. constructor. rewrite bool_decide_eq_true_2 by (by left). done.
  - rewrite lookup_alter_ne in Hm' by done. rewrite (bool_decide_ext (k ∈ key :: ks) (k ∈ ks)); [done|].
    rewrite elem_of_cons. naive_solver.
Qed.
End roles.
