(* ===== verification/SepolicyTypeInv.v ===== *)
(** * The kernel policies the editor works on, and the step of [add_type] between them *)

From S2P Require Import Prelude Policyfile Ebitmap EbitmapSpec EbitmapQuery EbitmapUpdate Hashtab HashtabSpec Symtab Codec Avtab Policydb.
From S2P Require Import Sepolicy SepolicySpec SepolicyAttr SepolicyAttrProps Symbols CodecTable SymbolsCodec SymbolsKinds SymbolsTrip PolicyIndex PolicyIndexSpec PolicyOthersSpec.
From S2P Require Import SepolicyType.

(** A loaded kernel policy: its symbols can be stored again, values are distinct and in
    range, every role value has a role, type sets and attribute maps are over the types of
    the policy, and the types that were declared exist. *)
Record kernel_policy (vers : Z) (db : policydb) : Prop := {
  kp_kern : policy_type db = POLICY_KERN;
  kp_symbols : exists commons, symtabs_ok vers (p_symtab db) commons;
  kp_commons : symtab_values common_val (sym_commons (p_symtab db));
  kp_classes : symtab_values class_val (sym_classes (p_symtab db));
  kp_roles : symtab_values role_val (sym_roles (p_symtab db));
  kp_types : symtab_values type_val (sym_types (p_symtab db));
  kp_users : symtab_values user_val (sym_users (p_symtab db));
  kp_bools : symtab_values bool_val (sym_bools (p_symtab db));
  kp_levels : symtab_values sens_val (sym_levels (p_symtab db));
  kp_cats : symtab_values cat_val (sym_cats (p_symtab db));
  kp_names : length (sym_val_to_name (p_index db)) = 8%nat;
  kp_all_roles : forall h v, table (sym_roles (p_symtab db)) = Some h -> 1 <= v <= nprim (sym_roles (p_symtab db)) ->
    exists k r, hashtab_model h !! k = Some r /\ ro_value r = v;
  kp_role_types : forall h t, table (sym_roles (p_symtab db)) = Some h -> table (sym_types (p_symtab db)) = Some t ->
    map_Forall (fun _ => role_types_ok (hashtab_model t)) (hashtab_model h);
  kp_user_roles : forall h, table (sym_users (p_symtab db)) = Some h ->
    map_Forall (fun _ => user_roles_ok) (hashtab_model h);
  kp_bound : nprim (p_types db) < 2 ^ 32 - MAPSIZE;
  kp_scope : exists s h, p_scope db !! SYM_TYPES = Some s /\ table s = Some h /\ hashtab_wf cstring_ok h /\
    forall t, table (sym_types (p_symtab db)) = Some t -> dom (hashtab_model h) ⊆ dom (hashtab_model t);
  kp_decls : decls_ok (p_global db);
  kp_declared : exists d ds blocks e, p_global db = AvruleBlock (d :: ds) :: blocks /\
    declared d !! SYM_TYPES = Some e /\ ebitmap_wf e;
  kp_map1 : Forall ebitmap_wf (type_attr_map db) /\ Z.of_nat (length (type_attr_map db)) = nprim (p_types db);
  kp_map2 : Forall ebitmap_wf (attr_type_map db) /\ Z.of_nat (length (attr_type_map db)) = nprim (p_types db)
}.

(** The arrays that [policydb_index_classes] and [policydb_index_decls] build. *)
Record classes_indexed (st : symtabs) (global : list avrule_block) (ix : indexes) : Prop := {
  ci_commons : symtab_indexed common_val the_key (sym_commons st) (names_in ix SYM_COMMONS);
  ci_classes : symtab_indexed class_val the_key (sym_classes st) (names_in ix SYM_CLASSES);
  ci_class : symtab_indexed class_val the_key (sym_classes st) (class_val_to_struct ix);
  ci_decl : decls_indexed global (decl_val_to_struct ix)
}.

(** What [add_type] changes, with the value of the new symbol. *)
Record type_added (name : list Z) (flavor v : Z) (db db' : policydb) : Prop := {
  ta_types : exists t t', table (p_types db) = Some t /\ table (p_types db') = Some t' /\
    hashtab_model t' = <[name := TypeDatum v 1 flavor ebitmap_init 0 0]> (hashtab_model t) /\
    nprim (p_types db') = v;
  ta_struct : type_val_to_struct db' !! Z.to_nat (v - 1) = Some (Some (TypeDatum v 1 flavor ebitmap_init 0 0));
  ta_index : others_indexed (p_symtab db') (p_index db') (type_val_to_struct db');
  ta_classes : classes_indexed (p_symtab db') (p_global db') (p_index db');
  ta_scope : exists s h h', p_scope db !! SYM_TYPES = Some s /\ table s = Some h /\
    p_scope db' = <[SYM_TYPES := Symtab (Some h') (nprim s)]> (p_scope db) /\
    hashtab_model h' = <[name := ScopeDatum SCOPE_DECL [1]]> (hashtab_model h);
  ta_declared : exists d ds blocks e e', p_global db = AvruleBlock (d :: ds) :: blocks /\ declared d !! SYM_TYPES = Some e /\
    p_global db' = AvruleBlock (AvruleDecl (decl_id d) (<[SYM_TYPES := e']> (declared d)) :: ds) :: blocks /\
    forall i, ebitmap_mem e' i = (i =? v - 1) || ebitmap_mem e i;
  ta_roles : exists r r', table (sym_roles (p_symtab db)) = Some r /\ table (sym_roles (p_symtab db')) = Some r' /\
    nprim (sym_roles (p_symtab db')) = nprim (sym_roles (p_symtab db)) /\
    forall k, option_Forall2 (role_gains (v - 1)) (hashtab_model r !! k) (hashtab_model r' !! k);
  ta_users : exists u u', table (sym_users (p_symtab db)) = Some u /\ table (sym_users (p_symtab db')) = Some u' /\
    nprim (sym_users (p_symtab db')) = nprim (sym_users (p_symtab db)) /\
    forall k, option_Forall2 user_cached (hashtab_model u !! k) (hashtab_model u' !! k);
  ta_map1 : forall i b, 0 <= i ->
    map_mem (type_attr_map db') i b = (i =? v - 1) && (b =? v - 1) || map_mem (type_attr_map db) i b;
  ta_map2 : attr_type_map db' = attr_type_map db ++ [ebitmap_init];
  ta_symbols : let st := p_symtab db in let st' := p_symtab db' in
    sym_commons st' = sym_commons st /\ sym_classes st' = sym_classes st /\ sym_bools st' = sym_bools st /\
    sym_levels st' = sym_levels st /\ sym_cats st' = sym_cats st;
  ta_frame : te_avtab db' = te_avtab db /\ filename_trans db' = filename_trans db /\
    filename_trans_count db' = filename_trans_count db /\ permissive_map db' = permissive_map db /\
    p_mls db' = p_mls db /\ p_genfs db' = p_genfs db /\ policyvers db' = policyvers db
}.

(** ** Arrays and changed tables *)

Lemma indexed_changed {D A} (val : D -> option Z) (f : list Z -> A) n m m' l :
  (forall k, option_Forall2 (fun d d' => val d' = val d) (m !! k) (m' !! k)) ->
  indexed val (fun k _ => f k) n m l -> indexed val (fun k _ => f k) n m' l.
Proof.
  intros Hc [Hl Hi]. split; [done|]. intros v a Hv. rewrite (Hi v a Hv).
  split; intros (k & d & Hk & Hd & ->); specialize (Hc k); rewrite Hk in Hc; inversion Hc as [x y Hxy E1 E2|]; subst.
  - exists k, y. split_and!; try done. congruence.
  - exists k, x. split_and!; try done. congruence.
Qed.

Lemma values_changed {D} (val : D -> option Z) n m m' :
  (forall k, option_Forall2 (fun d d' => val d' = val d) (m !! k) (m' !! k)) ->
  values_ok val n m -> values_ok val n m'.
Proof.
  intros Hc [H1 H2].
  assert (Hb : forall k d', m' !! k = Some d' -> exists d, m !! k = Some d /\ val d' = val d).
  { intros k d' Hk. specialize (Hc k). rewrite Hk in Hc. inversion Hc as [x y Hxy E1 E2|]; subst. by exists x. }
  split.
  - intros k d' Hk v Hv. destruct (Hb k d' Hk) as (d & Hd & E). apply (H1 k d Hd). congruence.
  - intros k1 k2 d1 d2 v Hk1 Hk2 Hv1 Hv2. destruct (Hb _ _ Hk1) as (x1 & E1 & V1), (Hb _ _ Hk2) as (x2 & E2 & V2).
    eapply (H2 k1 k2 x1 x2 v); congruence.
Qed.

(** The keys of the roles, from the array. *)
Lemma role_keys (n : Z) (m : gmap (list Z) role_datum) (l : list (option (list Z))) :
  values_ok role_val n m -> indexed role_val the_key n m l ->
  (forall v, 1 <= v <= n -> exists k r, m !! k = Some r /\ ro_value r = v) ->
  exists ks, l = Some <$> ks /\ NoDup ks /\ forall k, k ∈ ks <-> is_Some (m !! k).
Proof.
  intros [Hr Hu] [Hl Hi] Hall.
  assert (Hs : Forall (fun x => exists k, x = Some k) l).
  { apply Forall_lookup. intros i x Hx. pose proof (lookup_lt_Some _ _ _ Hx).
    destruct (Hall (Z.of_nat i + 1)) as (k & r & Hk & Hv); [lia|].
    pose proof (proj2 (Hi (Z.of_nat i + 1) k ltac:(lia))) as Hx'. rewrite Z.add_simpl_r, Nat2Z.id, Hx in Hx'.
    exists k. apply (inj Some), Hx'. exists k, r. unfold role_val. by rewrite Hv. }
  exists (omap id l). assert (El : l = Some <$> omap id l).
  { clear -Hs. induction Hs as [|x l (k & ->) _ IH]; [done|]. cbn. by rewrite <-IH. }
  assert (Hlk : forall i k, omap id l !! i = Some k <-> l !! i = Some (Some k)).
  { intros i k. rewrite El at 2. rewrite list_lookup_fmap. destruct (omap id l !! i); cbn; naive_solver. }
  assert (Hent : forall i k, l !! i = Some (Some k) <-> exists r, m !! k = Some r /\ ro_value r = Z.of_nat i + 1).
  { intros i k. pose proof (Hi (Z.of_nat i + 1) k ltac:(lia)) as H. rewrite Z.add_simpl_r, Nat2Z.id in H. rewrite H.
    unfold role_val. split; [intros (k' & r & ? & [= ?] & ->); eauto|intros (r & ? & <-); eauto]. }
  split; [exact El|]. split.
  - apply NoDup_alt. intros i j k Hik%Hlk%Hent Hjk%Hlk%Hent. destruct Hik as (r & Hk & Hv), Hjk as (r' & Hk' & Hv').
    rewrite Hk in Hk'. simplify_eq. lia.
  - intros k. rewrite list_elem_of_lookup. split.
    + intros (i & Hik%Hlk%Hent). destruct Hik as (r & Hk & _). by exists r.
    + intros (r & Hk). pose proof (Hr k r Hk (ro_value r) eq_refl). exists (Z.to_nat (ro_value r - 1)). apply Hlk, Hent.
      exists r. split; [done|]. lia.
Qed.

(** ** Policies that differ in the arrays only *)

Definition index_of (db0 db : policydb) : Prop :=
  exists ix, db = set_index ix db0 /\ length (sym_val_to_name ix) = 8%nat.

Lemma index_of_self db : length (sym_val_to_name (p_index db)) = 8%nat -> index_of db db.
Proof. intros Hl. exists (p_index db). split; [by destruct db|done]. Qed.

Lemma index_of_names db0 db i l : index_of db0 db -> index_of db0 (set_names i l db).
Proof. intros (ix & -> & Hl). eexists. split; [reflexivity|]. cbn. by rewrite length_insert. Qed.

Lemma index_of_classes db0 db l : index_of db0 db -> index_of db0 (set_class_structs l db).
Proof. intros (ix & -> & Hl). eexists. split; [reflexivity|done]. Qed.

Lemma index_of_decls db0 db l : index_of db0 db -> index_of db0 (set_decl_structs l db).
Proof. intros (ix & -> & Hl). eexists. split; [reflexivity|done]. Qed.

Lemma set_index_twice ix ix' db : set_index ix (set_index ix' db) = set_index ix db.
Proof. done. Qed.

Lemma p_symtab_index ix db : p_symtab (set_index ix db) = p_symtab db.
Proof. done. Qed.

(** ** The symbol and the maps *)

Lemma decls_ok_head d d' ds blocks :
  decl_id d' = decl_id d -> decls_ok (AvruleBlock (d :: ds) :: blocks) -> decls_ok (AvruleBlock (d' :: ds) :: blocks).
Proof.
  unfold decls_ok. cbn. intros E (Hn & Hf & Hl). rewrite E. split; [done|]. split; [|done].
  apply Forall_cons in Hf as [Hd Hf]. constructor; [by rewrite E|done].
Qed.

Section add.
Context (vers : Z) (db : policydb) (name : list Z) (flavor : Z) (t : hashtab_val (list Z) type_datum).
Hypothesis Hkp : kernel_policy vers db.
Hypothesis Ht : table (p_types db) = Some t.
Hypothesis Hnew : hashtab_model t !! name = None.
Hypothesis Hname : key_fits32 name.
Hypothesis Hflavor : flavor = TYPE_TYPE \/ flavor = TYPE_ATTRIB.
Hypothesis Hbound : nprim (p_types db) + 1 < 2 ^ 32 - MAPSIZE.
Hypothesis Hnel : nel t + 1 < UINT32_MAX.

Abbreviation v := (nprim (p_types db) + 1).
Abbreviation datum := (TypeDatum v 1 flavor ebitmap_init 0 0).

(** The policy with the symbol declared and the maps grown. *)
Definition grown (t' : hashtab_val (list Z) type_datum) (sc : list (symtab scope_datum)) (g : list avrule_block)
    (m1 : list ebitmap) : policydb :=
  set_maps m1 (attr_type_map db ++ [ebitmap_init])
    (set_global g (set_scope sc (set_symtab (set_types (Symtab (Some t') v) (p_symtab db)) db))).

Record grown_ok (t' : hashtab_val (list Z) type_datum) (sc : list (symtab scope_datum)) (g : list avrule_block)
    (m1 : list ebitmap) : Prop := {
  go_wf : hashtab_wf cstring_ok t';
  go_nel : nel t' = nel t + 1;
  go_model : hashtab_model t' = <[name := datum]> (hashtab_model t);
  go_scope : exists s h h', p_scope db !! SYM_TYPES = Some s /\ table s = Some h /\
    sc = <[SYM_TYPES := Symtab (Some h') (nprim s)]> (p_scope db) /\ hashtab_wf cstring_ok h' /\
    hashtab_model h' = <[name := ScopeDatum SCOPE_DECL [1]]> (hashtab_model h) /\
    dom (hashtab_model h') ⊆ dom (hashtab_model t');
  go_decls : decls_ok g;
  go_declared : exists d ds blocks e e', p_global db = AvruleBlock (d :: ds) :: blocks /\ declared d !! SYM_TYPES = Some e /\
    g = AvruleBlock (AvruleDecl (decl_id d) (<[SYM_TYPES := e']> (declared d)) :: ds) :: blocks /\ ebitmap_wf e' /\
    forall i, ebitmap_mem e' i = (i =? v - 1) || ebitmap_mem e i;
  go_wf1 : Forall ebitmap_wf m1;
  go_len1 : Z.of_nat (length m1) = v;
  go_mem1 : forall i b, 0 <= i -> map_mem m1 i b = (i =? v - 1) && (b =? v - 1) || map_mem (type_attr_map db) i b
}.

Lemma types_table : hashtab_wf cstring_ok t /\ 0 <= nprim (p_types db).
Proof.
  destruct (kp_types vers db Hkp) as (t0 & E & Hw & Hn & _). unfold p_types in *. by simplify_eq.
Qed.

(** The scopes hold no more symbols than the table. *)
Lemma scope_table :
  exists s h, p_scope db !! SYM_TYPES = Some s /\ table s = Some h /\ hashtab_wf cstring_ok h /\
    hashtab_model h !! name = None /\ nel h < UINT32_MAX /\ dom (hashtab_model h) ⊆ dom (hashtab_model t).
Proof.
  destruct types_table as [Hw _]. destruct (kp_scope vers db Hkp) as (s & h & Hs & Hh & Hwh & Hsub). specialize (Hsub t Ht).
  exists s, h. split_and!; try done.
  - apply not_elem_of_dom. intros Hin%Hsub. apply elem_of_dom in Hin as [d Hd]. congruence.
  - apply subseteq_size in Hsub. rewrite !size_dom in Hsub.
    rewrite (nel_size cstring_ok h Hwh). rewrite (nel_size cstring_ok t Hw) in Hnel. lia.
Qed.

Lemma grow_ok :
  exists t' sc g m1 s s1,
    insert_type name (TypeDatum 0 1 flavor ebitmap_init 0 0) (db, []) = (0, s) /\ nprim (p_types s.1) = v /\
    declare_type (v - 1) (set_type_value name v s.1, s.2) = Some s1 /\
    grow_maps v s1 = Some (grown t' sc g m1, []) /\ grown_ok t' sc g m1.
Proof.
  destruct types_table as [Hw Hn]. destruct scope_table as (s & scp & Hs & Hscp & Hws & Hns & Hnels & Hsub).
  pose proof Hname as (Hk & _). unfold UINT32_MAX in *.
  destruct (symtab_insert_new SYM_TYPES (fun _ => false) name (TypeDatum 0 1 flavor ebitmap_init 0 0) (sym_types (p_symtab db)) t scp)
    as (t1 & scp1 & Ei & Hw1 & Hn1 & Hm1 & Hws1 & Hms1); try done; try (unfold p_types, UINT32_MAX, MAPSIZE in *; lia).
  destruct (write_symbol_spec t1 name
    (fun d => TypeDatum v (ty_primary d) (ty_flavor d) (ty_types d) (ty_flags d) (ty_bounds d)) Hw1) as (t' & Et & Hw' & Hn' & Hm').
  destruct (kp_declared vers db Hkp) as (d & ds & blocks & e & Hg & He & Hwe).
  destruct (set_bit_memory e (v - 1) Hwe) as (e' & Ee & Hwe' & Hme'); [unfold MAPSIZE in *; lia|].
  set (g := AvruleBlock (AvruleDecl (decl_id d) (<[SYM_TYPES := e']> (declared d)) :: ds) :: blocks).
  set (sc := <[SYM_TYPES := Symtab (Some scp1) (nprim s)]> (p_scope db)).
  destruct (kp_map1 vers db Hkp) as [W1 L1], (kp_map2 vers db Hkp) as [W2 L2].
  destruct (grow_maps_ok (set_global g (set_scope sc (set_symtab (set_types (Symtab (Some t') v) (p_symtab db)) db))) v)
    as (m1 & Em & Wm & Lm & Hm); [done|unfold MAPSIZE in *; lia|done|done|cbn; lia|cbn; lia|].
  exists t', sc, g, m1. eexists. exists (set_global g (set_scope sc (set_symtab (set_types (Symtab (Some t') v) (p_symtab db)) db)), []).
  split.
  { unfold insert_type. rewrite Hs. cbn [default]. unfold id. rewrite Hscp, Ei. reflexivity. }
  split; [reflexivity|]. split.
  { unfold declare_type, set_type_value. cbn [fst snd set_symtab set_scope p_global p_symtab set_types sym_types table nprim].
    rewrite Hg, He, Ee, Et. reflexivity. }
  split; [exact Em|]. split; try done.
  - congruence.
  - rewrite Hm', Hm1, alter_insert_eq. done.
  - exists s, scp, scp1. split_and!; try done. rewrite Hms1, Hm', Hm1, dom_alter_L, !dom_insert_L. set_solver.
  - pose proof (kp_decls vers db Hkp) as Hd. rewrite Hg in Hd. by apply (decls_ok_head d).
  - by exists d, ds, blocks, e, e'.
Qed.

(** ** The arrays and the roles *)

Lemma types_plain (types : hashtab_val (list Z) type_datum) : map_Forall type_ok (hashtab_model types) -> plain_types (hashtab_model types).
Proof. intros H k d Hk. destruct (H k d Hk) as (_ & _ & _ & _ & _ & ? & ?). done. Qed.

Lemma old_types_ok : map_Forall type_ok (hashtab_model t) /\ 0 <= nprim (p_types db) <= nel t.
Proof.
  destruct (kp_symbols vers db Hkp) as (commons & Hst). destruct (so_types _ _ _ Hst) as (t0 & E & _ & Hok & Hn & _).
  unfold p_types in *. by simplify_eq.
Qed.

Lemma new_type_ok : type_ok name datum.
Proof.
  destruct types_table as [_ Hn]. unfold MAPSIZE in *. split; [done|]. unfold word. cbn. split_and!; try lia; auto.
Qed.

Section grown.
Context (t' : hashtab_val (list Z) type_datum) (sc : list (symtab scope_datum)) (g : list avrule_block) (m1 : list ebitmap).
Hypothesis Hg : grown_ok t' sc g m1.

Lemma new_types_ok : map_Forall type_ok (hashtab_model t').
Proof.
  rewrite (go_model _ _ _ _ Hg). apply map_Forall_insert_2; [exact new_type_ok|apply old_types_ok].
Qed.

Lemma new_types_values : symtab_values type_val (Symtab (Some t') v).
Proof.
  destruct (kp_types vers db Hkp) as (t0 & E & _ & Hn & Hr & Hu). unfold p_types in *. simplify_eq.
  exists t'. cbn [table nprim]. split; [done|]. split; [apply Hg|]. split; [lia|]. rewrite (go_model _ _ _ _ Hg). split.
  - apply map_Forall_insert_2.
    + intros w. cbn. intros [= <-]. unfold p_types; lia.
    + eapply map_Forall_impl; [exact Hr|]. intros k d Hd w Hw. specialize (Hd w Hw). cbn in Hd. unfold p_types. lia.
  - assert (Hold : forall k d w, hashtab_model t !! k = Some d -> type_val d = Some w -> w <> nprim (sym_types (p_symtab db)) + 1).
    { intros k d w Hk Hw ->. specialize (Hr k d Hk _ Hw). lia. }
    intros k1 k2 d1 d2 w. destruct (decide (k1 = name)) as [->|N1], (decide (k2 = name)) as [->|N2];
      rewrite ?lookup_insert_eq, ?lookup_insert_ne by done; try done.
    + intros [= <-] H2 [= <-] Hw2. by destruct (Hold k2 d2 _ H2 Hw2).
    + intros H1 [= <-] Hw1 [= <-]. by destruct (Hold k1 d1 _ H1 Hw1).
    + by apply Hu.
Qed.

Lemma types_grow : hashtab_model t ⊆ hashtab_model t'.
Proof. rewrite (go_model _ _ _ _ Hg). by apply insert_subseteq. Qed.

Lemma role_types_grow (m m' : gmap (list Z) type_datum) r : m ⊆ m' -> role_types_ok m r -> role_types_ok m' r.
Proof.
  intros Hs (ts & H1 & H2 & H3). exists ts. split_and!; try done. intros i Hi. destruct (H3 i Hi) as (k & d & Hk & Hd).
  exists k, d. split; [|done]. by eapply lookup_weaken.
Qed.

(** The new symbol is the one with the new value. *)
Lemma new_known : exists k d, hashtab_model t' !! k = Some d /\ type_val d = Some (v - 1 + 1).
Proof.
  exists name, datum. rewrite (go_model _ _ _ _ Hg), lookup_insert_eq. split; [done|]. cbn. f_equal. lia.
Qed.

Lemma level_datums h :
  table (sym_levels (p_symtab db)) = Some h -> map_Forall (fun _ d => exists l, level d = Some l) (hashtab_model h).
Proof.
  intros Hh. destruct (kp_symbols vers db Hkp) as (commons & Hst). destruct (so_levels _ _ _ Hst) as (h0 & E & _ & Hok & _).
  assert (h0 = h) by congruence. subst. intros k d Hk. destruct (Hok k d Hk) as (_ & _ & _ & l & Hl & _). by exists l.
Qed.

Lemma grown_others db1 roles users :
  index_of (grown t' sc g m1) db1 ->
  table (sym_roles (p_symtab db)) = Some roles -> table (sym_users (p_symtab db)) = Some users ->
  others_ok db1 t' roles users.
Proof.
  intros (ix & Hdb & Hl) Hr Hu. assert (Hst : p_symtab db1 = set_types (Symtab (Some t') v) (p_symtab db) /\
    policy_type db1 = policy_type db /\ p_index db1 = ix) by (by rewrite Hdb). clear Hdb. destruct Hst as (Hst & Hk & Hix).
  split; rewrite ?Hst, ?Hk, ?Hix; cbn [set_types sym_types sym_roles sym_users sym_bools sym_levels sym_cats table]; try done;
    try (apply Hkp; done).
  - apply new_types_values.
  - apply level_datums.
  - cbn [nprim]. lia.
  - apply types_plain, new_types_ok.
  - eapply map_Forall_impl; [by apply (kp_role_types vers db Hkp roles t)|]. intros k r. apply role_types_grow, types_grow.
Qed.

(** The arrays are rebuilt from the grown policy. *)
Lemma reindex_ok roles users :
  table (sym_roles (p_symtab db)) = Some roles -> table (sym_users (p_symtab db)) = Some users ->
  let st := set_types (Symtab (Some t') v) (p_symtab db) in
  exists ix structs hr hu,
    (policydb_index_decls ;> policydb_index_classes ;> policydb_index_others) (grown t' sc g m1, []) =
      Some (0, (set_symtab (set_users (Some hu) (set_roles (Some hr) st))
                  (set_type_structs structs (set_index ix (grown t' sc g m1))), [])) /\
    others_indexed st ix structs /\ classes_indexed st g ix /\
    hashtab_wf cstring_ok hr /\ nel hr = nel roles /\ hashtab_wf cstring_ok hu /\ nel hu = nel users /\
    (forall k, option_Forall2 (role_cached structs) (hashtab_model roles !! k) (hashtab_model hr !! k)) /\
    forall k, option_Forall2 user_cached (hashtab_model users !! k) (hashtab_model hu !! k).
Proof.
  intros Hr Hu st. destruct (policydb_index_decls_ok (grown t' sc g m1) (go_decls _ _ _ _ Hg)) as (ld & Ed & Hld).
  assert (H0 : index_of (grown t' sc g m1) (set_decl_structs ld (grown t' sc g m1))).
  { apply index_of_decls, index_of_self, Hkp. }
  destruct H0 as (ix0 & E0 & Hl0). pose proof (f_equal (fun d => decl_val_to_struct (p_index d)) E0) as D0. cbn in D0. rewrite E0 in Ed.
  destruct (index_classes_ok (set_index ix0 (grown t' sc g m1))) as (l0 & l1 & lc & Ec & Hc0 & Hc1 & Hcc);
    [apply Hkp|apply Hkp|exact Hl0|].
  remember (set_class_structs lc (set_names SYM_CLASSES l1 (set_names SYM_COMMONS l0 (set_index ix0 (grown t' sc g m1))))) as db1 eqn:E1.
  assert (Hix1 : class_val_to_struct (p_index db1) = lc /\ decl_val_to_struct (p_index db1) = ld /\
    names_in (p_index db1) SYM_COMMONS = l0 /\ names_in (p_index db1) SYM_CLASSES = l1).
  { rewrite E1. split; [done|]. split; [by cbn|]. split.
    - change (names_in (p_index (set_class_structs lc ?x)) ?i) with (names_of i x). by rewrite !names_of_set by in_names.
    - change (names_in (p_index (set_class_structs lc ?x)) ?i) with (names_of i x). by rewrite !names_of_set by in_names. }
  assert (H1 : index_of (grown t' sc g m1) db1).
  { rewrite E1. apply index_of_classes, index_of_names, index_of_names. by exists ix0. }
  rewrite (seq_ok _ _ _ _ Ed), (seq_ok _ _ _ _ Ec). clear Ed Ec E1. destruct H1 as (ix1 & -> & Hl1).
  destruct (policydb_index_others_ok (set_index ix1 (grown t' sc g m1)) t' roles users)
    as (ix & structs & hr & hu & Eo & Hix & X1 & X2 & X3 & X4 & Hrest).
  { apply grown_others; try done. by exists ix1. }
  rewrite p_symtab_index, set_index_twice in Eo. rewrite p_symtab_index in Hix.
  exists ix, structs, hr, hu. split; [exact Eo|]. split; [exact Hix|]. split; [|exact Hrest].
  destruct Hix1 as (Y1 & Y2 & Y3 & Y4). split; [rewrite X3, Y3; exact Hc0|rewrite X4, Y4; exact Hc1|rewrite X1, Y1; exact Hcc|].
  rewrite X2, Y2. exact Hld.
Qed.

(** The policy at the end. *)
Definition final_symtabs (hr : hashtab_val (list Z) role_datum) (hu : hashtab_val (list Z) user_datum) : symtabs :=
  let st := p_symtab db in
  Symtabs (sym_commons st) (sym_classes st) (Symtab (Some hr) (nprim (sym_roles st))) (Symtab (Some t') v)
    (Symtab (Some hu) (nprim (sym_users st))) (sym_bools st) (sym_levels st) (sym_cats st).

Definition final (ix : indexes) (structs : list (option type_datum)) (hr : hashtab_val (list Z) role_datum)
    (hu : hashtab_val (list Z) user_datum) : policydb :=
  set_symtab (final_symtabs hr hu) (set_type_structs structs (set_index ix (grown t' sc g m1))).

Lemma gains_cached structs r r1 r2 : role_cached structs r r1 -> role_gains (v - 1) r1 r2 -> role_gains (v - 1) r r2.
Proof. intros (e & -> & _ & _) (ts & H1 & H2 & ->). by exists ts. Qed.

Lemma final_ok roles users :
  table (sym_roles (p_symtab db)) = Some roles -> table (sym_users (p_symtab db)) = Some users ->
  exists ix structs hr hu s,
    (policydb_index_decls ;> policydb_index_classes ;> policydb_index_others) (grown t' sc g m1, []) = Some (0, s) /\
    add_to_roles (v - 1) (take (Z.to_nat (nprim (sym_roles (p_symtab s.1)))) (role_val_to_struct (p_index s.1))) s =
      Some (final ix structs hr hu, []) /\
    others_indexed (set_types (Symtab (Some t') v) (p_symtab db)) ix structs /\
    classes_indexed (set_types (Symtab (Some t') v) (p_symtab db)) g ix /\
    hashtab_wf cstring_ok hr /\ nel hr = nel roles /\ hashtab_wf cstring_ok hu /\ nel hu = nel users /\
    (forall k, option_Forall2 (role_gains (v - 1)) (hashtab_model roles !! k) (hashtab_model hr !! k)) /\
    forall k, option_Forall2 user_cached (hashtab_model users !! k) (hashtab_model hu !! k).
Proof.
  intros Hr Hu. destruct (reindex_ok roles users Hr Hu) as (ix & structs & hr & hu & Ei & Hix & Hcx & Hwr & Hnr & Hwu & Hnu & Hcr & Hcu).
  destruct (kp_roles vers db Hkp) as (r0 & Er0 & _ & _ & Hvr). assert (r0 = roles) by congruence. subst r0.
  pose proof (oi_role _ _ _ Hix) as (r0 & Er1 & Hir). assert (r0 = roles) by (cbn in Er1; congruence). subst r0. clear Er0 Er1.
  destruct (role_keys _ _ _ Hvr Hir (fun w => kp_all_roles vers db Hkp roles w Hr)) as (ks & Eks & Hnd & Hks).
  pose proof (oi_struct _ _ _ Hix) as (t0 & Et0 & Hit). cbn in Et0, Hit. injection Et0 as <-.
  destruct types_table as [_ Hn0].
  destruct (add_to_roles_ok t' v structs (v - 1) ltac:(lia) (types_plain _ new_types_ok) Hit ltac:(lia) new_known ks
    (set_symtab (set_users (Some hu) (set_roles (Some hr) (set_types (Symtab (Some t') v) (p_symtab db))))
                  (set_type_structs structs (set_index ix (grown t' sc g m1)))) hr) as (hr2 & E2 & Hw2 & Hn2 & H2); try done.
  { apply Forall_forall. intros k Hk%Hks. destruct Hk as [r Hrk]. specialize (Hcr k). rewrite Hrk in Hcr.
    inversion Hcr as [? r1 (e & -> & _) |]; subst. eexists. split; [done|].
    destruct (kp_role_types vers db Hkp roles t Hr Ht k r Hrk) as (ts & H1 & H2' & H3). exists ts. split_and!; try done.
    intros i Hi. destruct (H3 i Hi) as (kt & d & Hkt & Hd). exists kt, d. split; [|done]. eapply lookup_weaken; [done|apply types_grow]. }
  exists ix, structs, hr2, hu. eexists. split; [exact Ei|]. cbn [fst]. split.
  { etransitivity; [|exact E2]. f_equal. rewrite <-Eks. apply take_ge. destruct Hir as [Hlen _].
    change (nprim (sym_roles _)) with (nprim (sym_roles (p_symtab db))). cbn in Hlen. lia. }
  split; [done|]. split; [done|]. split; [done|]. split; [congruence|]. split; [done|]. split; [done|]. split; [|done].
  intros k. specialize (H2 k). specialize (Hcr k). specialize (Hks k). destruct (hashtab_model roles !! k) as [r|] eqn:Ek.
  - inversion Hcr as [? r1 Hc E1 E1'|]; subst. rewrite <-E1' in H2. inversion H2 as [? r2 Hg2 E3 E3'|]; subst. constructor.
    rewrite bool_decide_eq_true_2 in Hg2 by (apply Hks; eauto). by eapply gains_cached.
  - inversion Hcr as [|E1 E1']; subst. rewrite <-E1' in H2. inversion H2. constructor.
Qed.

(** ** The invariant at the end *)

Lemma role_gains_ok k r r' : role_ok k r -> role_gains (v - 1) r r' -> role_ok k r'.
Proof. intros [H1 H2 H3 H4 H5 H6 H7 H8] (ts & Hw & _ & ->). split; try done. by exists ts. Qed.

Lemma user_cached_ok k u u' : user_ok k u -> user_cached u u' -> user_ok k u'.
Proof. intros [H1 H2 H3 H4 H5 H6] ->. by split. Qed.

(** A table whose data were changed one by one. *)
Lemma map_Forall_changed {D} (P Q : list Z -> D -> Prop) (R : D -> D -> Prop) (m m' : gmap (list Z) D) :
  (forall k d d', P k d -> R d d' -> Q k d') -> map_Forall P m ->
  (forall k, option_Forall2 R (m !! k) (m' !! k)) -> map_Forall Q m'.
Proof.
  intros HPQ HP HR k d' Hk. specialize (HR k). rewrite Hk in HR. inversion HR as [d ? Hd E1 E2|]; subst.
  eapply HPQ; [|done]. by apply HP.
Qed.

Lemma symtab_changed {D} (ok : list Z -> D -> Prop) (R : D -> D -> Prop) (s : symtab D) h h' :
  table s = Some h -> (forall k d d', ok k d -> R d d' -> ok k d') -> hashtab_wf cstring_ok h' -> nel h' = nel h ->
  (forall k, option_Forall2 R (hashtab_model h !! k) (hashtab_model h' !! k)) ->
  symtab_ok ok s -> symtab_ok ok (Symtab (Some h') (nprim s)).
Proof.
  intros E HR Hw Hn Hm (h0 & E0 & _ & Hok & Hrest). assert (h0 = h) by congruence. subst h0.
  exists h'. cbn [table nprim]. rewrite Hn. split_and!; try done; try apply Hrest. by eapply map_Forall_changed.
Qed.

Lemma values_table_changed {D} (val : D -> option Z) (R : D -> D -> Prop) (s : symtab D) h h' :
  table s = Some h -> (forall d d', R d d' -> val d' = val d) -> hashtab_wf cstring_ok h' ->
  (forall k, option_Forall2 R (hashtab_model h !! k) (hashtab_model h' !! k)) ->
  symtab_values val s -> symtab_values val (Symtab (Some h') (nprim s)).
Proof.
  intros E HR Hw Hm (h0 & E0 & _ & Hn & Hv). assert (h0 = h) by congruence. subst h0.
  exists h'. cbn [table nprim]. split_and!; try done. eapply values_changed; [|exact Hv].
  intros k. destruct (Hm k); constructor. by apply HR.
Qed.

Lemma indexed_table_changed {D} (val : D -> option Z) (R : D -> D -> Prop) (s : symtab D) h h' l :
  table s = Some h -> (forall d d', R d d' -> val d' = val d) ->
  (forall k, option_Forall2 R (hashtab_model h !! k) (hashtab_model h' !! k)) ->
  symtab_indexed val the_key s l -> symtab_indexed val the_key (Symtab (Some h') (nprim s)) l.
Proof.
  intros E HR Hm (h0 & E0 & Hi). assert (h0 = h) by congruence. subst h0. exists h'. split; [done|]. cbn [nprim].
  eapply (indexed_changed val (fun k => k)); [|exact Hi]. intros k. destruct (Hm k); constructor. by apply HR.
Qed.

Lemma gains_value r r' : role_gains (v - 1) r r' -> role_val r' = role_val r.
Proof. by intros (ts & _ & _ & ->). Qed.

Lemma cached_value u u' : user_cached u u' -> user_val u' = user_val u.
Proof. by intros ->. Qed.

Section final.
Context (ix : indexes) (structs : list (option type_datum)) (hr roles : hashtab_val (list Z) role_datum)
  (hu users : hashtab_val (list Z) user_datum).
Hypothesis Hr : table (sym_roles (p_symtab db)) = Some roles.
Hypothesis Hu : table (sym_users (p_symtab db)) = Some users.
Hypothesis Hix : others_indexed (set_types (Symtab (Some t') v) (p_symtab db)) ix structs.
Hypothesis Hcx : classes_indexed (set_types (Symtab (Some t') v) (p_symtab db)) g ix.
Hypothesis Hwr : hashtab_wf cstring_ok hr.
Hypothesis Hnr : nel hr = nel roles.
Hypothesis Hwu : hashtab_wf cstring_ok hu.
Hypothesis Hnu : nel hu = nel users.
Hypothesis Hgr : forall k, option_Forall2 (role_gains (v - 1)) (hashtab_model roles !! k) (hashtab_model hr !! k).
Hypothesis Hgu : forall k, option_Forall2 user_cached (hashtab_model users !! k) (hashtab_model hu !! k).

Lemma final_symtabs_ok commons : symtabs_ok vers (p_symtab db) commons -> symtabs_ok vers (final_symtabs hr hu) commons.
Proof.
  intros [S0 S1 S2 S3 S4 S5 S6 S7 S8]. split; try done.
  - by apply (symtab_changed role_ok (role_gains (v - 1)) _ roles hr Hr role_gains_ok).
  - destruct S4 as (t0 & E & Hw & Hok & Hn & Hlt & Hz). unfold p_types in *. assert (t0 = t) by congruence. subst t0.
    exists t'. cbn [table nprim]. rewrite (go_nel _ _ _ _ Hg). split; [done|]. split; [apply Hg|].
    split; [exact new_types_ok|]. cbn [final_symtabs sym_types nprim]. unfold p_types. split; [lia|]. split; lia.
  - by apply (symtab_changed user_ok user_cached _ users hu Hu user_cached_ok).
Qed.

Lemma final_role_types : map_Forall (fun _ => role_types_ok (hashtab_model t')) (hashtab_model hr).
Proof.
  eapply (map_Forall_changed (fun _ => role_types_ok (hashtab_model t)) _ (role_gains (v - 1))); [| |exact Hgr].
  - intros k r r' (ts & Hts & Hw & Hin) (ts' & Hw' & Hm & ->). exists ts'. split_and!; try done. intros i Hi.
    rewrite Hm, Hts in Hi. cbn [ts_types] in Hi. apply orb_true_iff in Hi as [->%Z.eqb_eq|Hi]; [exact new_known|].
    destruct (Hin i Hi) as (kt & d & Hkt & Hd). exists kt, d. split; [|done]. eapply lookup_weaken; [done|apply types_grow].
  - by apply (kp_role_types vers db Hkp).
Qed.

Lemma final_kernel : kernel_policy vers (final ix structs hr hu).
Proof.
  destruct Hkp as [K1 K2 K3 K4 K5 K6 K7 K8 K9 K10 K11 K12 K13 K14 K15 K16 K17 K18 K19 K20].
  split; cbn [final set_symtab p_symtab p_index p_scope p_global type_attr_map attr_type_map final_symtabs
    sym_commons sym_classes sym_roles sym_types sym_users sym_bools sym_levels sym_cats policy_type p_types]; try done.
  - destruct K2 as [commons Hst]. exists commons. by apply final_symtabs_ok.
  - by apply (values_table_changed role_val (role_gains (v - 1)) _ roles hr Hr gains_value).
  - apply new_types_values.
  - by apply (values_table_changed user_val user_cached _ users hu Hu cached_value).
  - apply Hix.
  - intros h w [= <-] Hw. destruct (K12 roles w Hr Hw) as (k & r & Hk & Hv). pose proof (Hgr k) as Hc. rewrite Hk in Hc.
    inversion Hc as [? r' (ts & _ & _ & ->) E1 E2|]; subst. eauto.
  - intros h t0 [= <-] [= <-]. exact final_role_types.
  - intros h [= <-]. eapply (map_Forall_changed (fun _ => user_roles_ok) _ user_cached); [|by apply K14|exact Hgu].
    by intros k u u' Hok ->.
  - destruct (go_scope _ _ _ _ Hg) as (s & h & h' & H1 & H2 & H3 & H4 & H5 & H6). exists (Symtab (Some h') (nprim s)), h'.
    split; [cbn; rewrite H3; apply list_lookup_insert_eq; by eapply lookup_lt_Some|]. split_and!; try done. by intros ? [= <-].
  - apply Hg.
  - destruct (go_declared _ _ _ _ Hg) as (d & ds & blocks & e & e' & H1 & H2 & H3 & H4 & _).
    exists (AvruleDecl (decl_id d) (<[SYM_TYPES := e']> (declared d))), ds, blocks, e'. split; [done|]. split; [|done].
    apply list_lookup_insert_eq. by eapply lookup_lt_Some.
  - split; apply Hg.
  - cbn. destruct K20 as [W L]. split; [apply Forall_app; split; [done|]; apply Forall_singleton, ebitmap_init_wf|].
    rewrite length_app. simpl. lia.
Qed.

Lemma final_added : type_added name flavor v db (final ix structs hr hu).
Proof.
  assert (Hf : others_indexed (final_symtabs hr hu) ix structs).
  { destruct Hix as [N I1 I2 I3 I4 I5 I6 I7 I8 I9 I10]. split; try done.
    - by apply (indexed_table_changed role_val (role_gains (v - 1)) (sym_roles (p_symtab db)) roles hr _ Hr gains_value).
    - by apply (indexed_table_changed user_val user_cached (sym_users (p_symtab db)) users hu _ Hu cached_value).
    - by apply (indexed_table_changed role_val (role_gains (v - 1)) (sym_roles (p_symtab db)) roles hr _ Hr gains_value).
    - by apply (indexed_table_changed user_val user_cached (sym_users (p_symtab db)) users hu _ Hu cached_value). }
  split; try done.
  - exists t, t'. split_and!; try done. apply Hg.
  - destruct (oi_struct _ _ _ Hix) as (t0 & E0 & _ & Hi). cbn in E0, Hi. injection E0 as <-. destruct types_table as [_ Hn0].
    apply Hi; [lia|]. exists name, datum. by rewrite (go_model _ _ _ _ Hg), lookup_insert_eq.
  - by destruct Hcx as [C1 C2 C3 C4]; split.
  - destruct (go_scope _ _ _ _ Hg) as (s & h & h' & H1 & H2 & H3 & H4 & H5 & H6). by exists s, h, h'.
  - destruct (go_declared _ _ _ _ Hg) as (d & ds & blocks & e & e' & H1 & H2 & H3 & H4 & H5). by exists d, ds, blocks, e, e'.
  - exists roles, hr. by split_and!.
  - exists users, hu. by split_and!.
  - apply Hg.
Qed.
End final.
End grown.

(** [add_type] of a name that does not exist. *)
Lemma add_type_new :
  hashtab_find (Some t) name = None ->
  exists db', add_type name flavor (db, []) = Some (true, (db', [])) /\ type_added name flavor v db db' /\ kernel_policy vers db'.
Proof.
  intros Hfind. destruct grow_ok as (t' & sc & g & m1 & s & s1 & Ei & Hv & Ed & Em & Hg).
  destruct (kp_roles vers db Hkp) as (roles & Hr & _). destruct (kp_users vers db Hkp) as (users & Hu & _).
  destruct (final_ok t' sc g m1 Hg roles users Hr Hu) as (ix & structs & hr & hu & s2 & E1 & E2 & Hix & Hcx & H1 & H2 & H3 & H4 & H5 & H6).
  exists (final t' sc g m1 ix structs hr hu). split; [|split; [by eapply final_added|by eapply final_kernel]].
  unfold add_type. rewrite Ht, Hfind. cbn [malloc negb]. unfold dup_str. cbn [malloc mbind option_bind].
  rewrite c_str_id by (by destruct Hname).
  match goal with |- context [insert_type ?a ?b ?c] => replace (insert_type a b c) with (0, s) by (symmetry; exact Ei) end. cbn [truthy Z.eqb negb]. rewrite Hv, Ed. cbn [mbind option_bind].
  rewrite Em. cbn [mbind option_bind]. rewrite E1. cbn [mbind option_bind truthy Z.eqb negb]. by rewrite E2.
Qed.
End add.
