(* ===== verification/SepolicyTypeProps.v ===== *)
(** * The properties of [add_type], with concrete instances *)

From S2P Require Import Prelude Policyfile Ebitmap EbitmapSpec EbitmapQuery EbitmapUpdate EbitmapProps Hashtab HashtabSpec Symtab Codec Avtab.
From S2P Require Import Policydb Sepolicy SepolicyProps Symbols CodecTable SymbolsCodec SymbolsKinds SymbolsTrip SymbolsProps PolicyIndex PolicyIndexSpec PolicyOthersSpec.
From S2P Require Import SepolicyType SepolicyTypeInv.

(** A name that does not exist fits into a policy file. *)
Lemma name_fits name : name_ok name -> name <> [] -> key_fits32 name.
Proof. intros [Hc Hl] Hne. apply short_key; [done..|lia]. Qed.

(** C9: [add_type] in a kernel policy.  A name that exists leaves the policy as it is.
    Otherwise the type or attribute gets the next value, is declared in the first block and
    entered into the scopes; every array indexed by value (of the commons, classes, roles,
    types, users, booleans, sensitivities, categories and declarations) is rebuilt and
    describes the symbol tables; every role gains the type and nothing else, and its cache
    is its set of types; users keep all but their caches; the attribute maps have one row
    more, in which type_attr_map has the type itself and attr_type_map nothing; rules,
    transitions, permissive types and genfs contexts stay; and the policy is a kernel policy
    again, so that types can be added one after the other. *)
Theorem add_type_correct vers db t name flavor :
  kernel_policy vers db -> table (p_types db) = Some t -> name_ok name -> name <> [] ->
  flavor = TYPE_TYPE \/ flavor = TYPE_ATTRIB ->
  nprim (p_types db) + 1 < 2 ^ 32 - MAPSIZE -> nel t + 1 < UINT32_MAX ->
  match hashtab_model t !! name with
  | Some _ => add_type name flavor (db, []) = Some (true, (db, []))
  | None =>
      exists db', add_type name flavor (db, []) = Some (true, (db', [])) /\
        type_added name flavor (nprim (p_types db) + 1) db db' /\ kernel_policy vers db'
  end.
Proof.
  intros Hkp Ht Hn Hne Hf Hb Hnel. destruct (kp_types vers db Hkp) as (t0 & Et & Hw & _).
  unfold p_types in Ht. assert (t0 = t) by congruence. subst t0.
  pose proof (hashtab_find_model t name Hw Hn) as E. destruct (hashtab_model t !! name) as [d|] eqn:Em.
  - unfold add_type, p_types. by rewrite Ht, E.
  - apply (add_type_new vers db name flavor t); try done. by apply name_fits.
Qed.

(** A role that has gained a type. *)
Definition role_extended (bit : Z) (r r' : role_datum) : Prop :=
  ro_value r' = ro_value r /\ dominates r' = dominates r /\ ro_bounds r' = ro_bounds r /\ ro_flavor r' = ro_flavor r /\
  ro_roles r' = ro_roles r /\
  forall b, ebitmap_mem (ts_types (ro_types r')) b = (b =? bit) || ebitmap_mem (ts_types (ro_types r)) b.

(** The symbols [st] and one type more. *)
Record symbols_with (name : list Z) (datum : type_datum) (st st' : symtabs) : Prop := {
  sw_commons : symtab_rel every common_rel (sym_commons st) (sym_commons st');
  sw_classes : symtab_rel every class_rel (sym_classes st) (sym_classes st');
  sw_roles : symtab_rel role_kept (role_extended (ty_value datum - 1)) (sym_roles st) (sym_roles st');
  sw_types : nprim (sym_types st') = ty_value datum /\ exists t t', table (sym_types st) = Some t /\
    table (sym_types st') = Some t' /\ hashtab_wf cstring_ok t' /\ hashtab_model t' = <[name := datum]> (hashtab_model t);
  sw_users : symtab_rel every user_rel (sym_users st) (sym_users st');
  sw_bools : symtab_rel every eq (sym_bools st) (sym_bools st');
  sw_levels : symtab_rel every eq (sym_levels st) (sym_levels st');
  sw_cats : symtab_rel every eq (sym_cats st) (sym_cats st')
}.

(** Reading back after a change. *)
Lemma symtab_rel_trans {D} kept (R S T : D -> D -> Prop) (s s1 s2 : symtab D) h h1 :
  table s = Some h -> table s1 = Some h1 -> nprim s1 = nprim s ->
  (forall k, option_Forall2 R (hashtab_model h !! k) (hashtab_model h1 !! k)) ->
  (forall x y z, R x y -> S y z -> T x z) -> symtab_rel kept S s1 s2 -> symtab_rel kept T s s2.
Proof.
  intros E E1 En HR HT (Hn & h1' & h2 & E1' & E2 & Hw & HS). assert (h1' = h1) by congruence. subst h1'.
  split; [congruence|]. exists h, h2. split_and!; try done. intros k Hk. specialize (HR k). specialize (HS k Hk).
  destruct HR as [x y Hxy|]; inversion HS; subst; constructor. by eapply HT.
Qed.

Lemma added_symbols name flavor v db db' st' :
  type_added name flavor v db db' -> symtabs_rel (p_symtab db') st' ->
  symbols_with name (TypeDatum v 1 flavor ebitmap_init 0 0) (p_symtab db) st'.
Proof.
  intros Ha [R0 R1 R2 R3 R4 R5 R6 R7]. destruct (ta_symbols _ _ _ _ _ Ha) as (S0 & S1 & S5 & S6 & S7).
  rewrite S0 in R0. rewrite S1 in R1. rewrite S5 in R5. rewrite S6 in R6. rewrite S7 in R7. split; try done.
  - destruct (ta_roles _ _ _ _ _ Ha) as (r & r1 & E & E1 & En & Hg). eapply symtab_rel_trans; [exact E|exact E1|exact En|exact Hg| |exact R2].
    intros x y z (ts & _ & Hm & ->) ->. by split_and!.
  - destruct (ta_types _ _ _ _ _ Ha) as (t & t1 & H1 & H2 & H3 & H4). destruct R3 as (Hn & h & t' & Hh & Ht' & Hw' & Hmt).
    unfold p_types in *. assert (t1 = h) by congruence. subst t1. split; [cbn; congruence|]. exists t, t'. split_and!; try done.
    rewrite <-H3. apply map_eq. intros k. by destruct (Hmt k eq_refl) as [x y ->|].
  - destruct (ta_users _ _ _ _ _ Ha) as (u & u1 & E & E1 & En & Hg). eapply symtab_rel_trans; [exact E|exact E1|exact En|exact Hg| |exact R4].
    by intros x y z -> ->.
Qed.

(** C10: a type that [add_type] added is in the policy that is saved.  The symbols of
    the edited policy, written by [policydb_write] and read by [policydb_read], are those of
    the policy before the edit: all commons, classes, booleans, levels and categories, the
    users without their caches and semantic levels, the types with the new one, which has its value and flavor,
    and all roles, each with the types it had and the new one.  The role object_r is the
    exception: the reader skips its record. *)
Theorem add_type_persists vers db t name flavor :
  POLICYDB_VERSION_BOUNDARY <= vers ->
  kernel_policy vers db -> table (p_types db) = Some t -> name_ok name -> name <> [] ->
  flavor = TYPE_TYPE \/ flavor = TYPE_ATTRIB ->
  nprim (p_types db) + 1 < 2 ^ 32 - MAPSIZE -> nel t + 1 < UINT32_MAX -> hashtab_model t !! name = None ->
  exists db', add_type name flavor (db, []) = Some (true, (db', [])) /\
    forall fp, can_put fp (Z.of_nat (length (symtabs_bytes vers (p_symtab db')))) ->
    exists bs fp', write_symtabs POLICY_KERN vers 8 (p_symtab db') fp = Some fp' /\ wrote fp bs fp' /\
      forall st0 fr fr', symtabs_fresh st0 -> reads fr bs fr' ->
      exists st', read_symtabs POLICY_KERN vers 8 st0 fr [] = Some (st', fr', []) /\
        symbols_with name (TypeDatum (nprim (p_types db) + 1) 1 flavor ebitmap_init 0 0) (p_symtab db) st' /\
        (forall k, cstring_ok k -> role_kept k = true <-> k <> OBJECT_R).
Proof.
  intros Hv Hkp Ht Hn Hne Hf Hb Hnel Hnone. destruct (kp_types vers db Hkp) as (t0 & Et & Hw & _).
  unfold p_types in Ht. assert (t0 = t) by congruence. subst t0.
  destruct (add_type_new vers db name flavor t) as (db' & E & Ha & Hkp'); try done; [by apply name_fits| |].
  { by rewrite hashtab_find_model. }
  exists db'. split; [exact E|]. intros fp Hc. destruct (kp_symbols vers db' Hkp') as [commons Hok].
  destruct (emits_symtabs vers Hv _ commons Hok fp Hc) as (fp' & Hwr & Hbs).
  exists (symtabs_bytes vers (p_symtab db')), fp'. split; [exact Hwr|]. split; [exact Hbs|]. intros st0 fr fr' Hfr Hr.
  destruct (decodes_symtabs vers Hv _ st0 commons Hok Hfr) as (st' & Hd & Hrel). exists st'. split; [by apply Hd|].
  split; [by apply (added_symbols name flavor _ db db')|exact role_kept_iff].
Qed.

(** ** A policy in which types can be added *)

Definition ex_kernel : policydb :=
  Policydb POLICY_KERN 0 30 ex_symtabs ex_te None 0 [] [ebitmap_init; ebitmap_init] [ebitmap_init; ebitmap_init]
    ebitmap_init 1 (replicate 8 (mk_symtab [])) [AvruleBlock [AvruleDecl 1 (replicate 8 ebitmap_init)]]
    (Indexes (replicate 8 []) [] [] [] [] []) [].

(** The symbols of a concrete table are its list. *)
Lemma mk_symtab_values {D} (val : D -> option Z) (l : list (list Z * D)) :
  Forall (fun kd => cstring_ok kd.1) l -> NoDup l.*1 -> (length l < 1000)%nat ->
  Forall (fun kd => forall v, val kd.2 = Some v -> 1 <= v <= Z.of_nat (length l)) l ->
  NoDup (omap val l.*2) -> symtab_values val (mk_symtab l).
Proof.
  intros Hl Hnd Hlen Hr Hv. destruct (mk_symtab_holds l Hl Hnd Hlen) as (h & Ht & Hw & Hm & _). exists h.
  split; [done|]. split; [done|]. split; [cbn; lia|]. rewrite Hm. split.
  - intros k d Hk%elem_of_list_to_map_2. rewrite Forall_forall in Hr. by apply (Hr (k, d)).
  - intros k1 k2 d1 d2 v H1%elem_of_list_to_map_2 H2%elem_of_list_to_map_2 E1 E2. clear -H1 H2 E1 E2 Hv.
    induction l as [|[k d] l IH]; [by apply elem_of_nil in H1|]. cbn in Hv.
    assert (Hin : forall k' d', (k', d') ∈ l -> val d' = Some v -> v ∈ omap val l.*2).
    { intros k' d' Hi E. apply list_elem_of_omap. exists d'. split; [|done]. apply list_elem_of_fmap. by exists (k', d'). }
    apply elem_of_cons in H1 as [[= -> ->]|H1]; apply elem_of_cons in H2 as [[= -> ->]|H2]; try done.
    + rewrite E1 in Hv. apply NoDup_cons in Hv as [Hv _]. destruct Hv. by apply (Hin k2 d2).
    + rewrite E2 in Hv. apply NoDup_cons in Hv as [Hv _]. destruct Hv. by apply (Hin k1 d1).
    + apply IH; try done. destruct (val d); [by apply NoDup_cons in Hv as [_ Hv]|done].
Qed.

Lemma ex_symbols {D} (l : list (list Z * D)) h :
  Forall (fun kd => cstring_ok kd.1) l -> NoDup l.*1 -> (length l < 1000)%nat ->
  table (mk_symtab l) = Some h -> forall k d, hashtab_model h !! k = Some d <-> (k, d) ∈ l.
Proof.
  intros Hl Hnd Hlen Ht k d. destruct (mk_symtab_holds l Hl Hnd Hlen) as (h' & Ht' & _ & Hm & _).
  assert (h' = h) by congruence. subst h'. rewrite Hm. symmetry. by apply elem_of_list_to_map.
Qed.

Definition ex_role_list : list (list Z * role_datum) := [(OBJECT_R, ex_role 1); ([114], ex_role 2)].
Definition ex_type_list : list (list Z * type_datum) := [([116], plain_type 1 1 TYPE_TYPE); ([97], plain_type 2 1 TYPE_ATTRIB)].

Lemma two_keys {D} (l : list (list Z * D)) k1 k2 :
  l.*1 = [k1; k2] -> cstring_ok k1 -> cstring_ok k2 -> k1 <> k2 -> Forall (fun kd => cstring_ok kd.1) l /\ NoDup l.*1 /\ (length l < 1000)%nat.
Proof.
  intros E H1 H2 Hne. rewrite E. split_and!; [|apply NoDup_cons; split; [by intros ?%list_elem_of_singleton|apply NoDup_singleton]|].
  - apply (Forall_fmap fst cstring_ok l). rewrite E. by repeat constructor.
  - apply (f_equal length) in E. rewrite length_fmap in E. simpl in E. lia.
Qed.

Lemma one_value {D} (val : D -> option Z) k d :
  cstring_ok k -> val d = Some 1 -> symtab_values val (mk_symtab [(k, d)]).
Proof.
  intros Hk E. apply mk_symtab_values; cbn; rewrite ?E; [by constructor|apply NoDup_singleton|lia| |apply NoDup_singleton].
  apply Forall_singleton. cbn. rewrite E. intros ? [= <-]. lia.
Qed.

Lemma two_values {D} (val : D -> option Z) k1 d1 k2 d2 :
  cstring_ok k1 -> cstring_ok k2 -> k1 <> k2 -> val d1 = Some 1 -> val d2 = Some 2 ->
  symtab_values val (mk_symtab [(k1, d1); (k2, d2)]).
Proof.
  intros H1 H2 Hne E1 E2. destruct (two_keys [(k1, d1); (k2, d2)] k1 k2 eq_refl H1 H2 Hne) as (Hf & Hnd & Hl).
  apply mk_symtab_values; [done..| |].
  - apply Forall_cons; split; [|apply Forall_singleton]; cbn; rewrite ?E1, ?E2; intros ? [= <-]; lia.
  - cbn. rewrite E1, E2. apply NoDup_cons. split; [by intros ?%list_elem_of_singleton|apply NoDup_singleton].
Qed.

Lemma ex_role_mem h : table (sym_roles ex_symtabs) = Some h ->
  forall k r, hashtab_model h !! k = Some r <-> (k, r) ∈ ex_role_list.
Proof.
  destruct (two_keys ex_role_list OBJECT_R [114] eq_refl object_r_ok) as (H1 & H2 & H3); [by repeat constructor; lia|done|].
  apply (ex_symbols ex_role_list h H1 H2 H3).
Qed.

Lemma ex_type_mem h : table (sym_types ex_symtabs) = Some h ->
  forall k r, hashtab_model h !! k = Some r <-> (k, r) ∈ ex_type_list.
Proof.
  destruct (two_keys ex_type_list [116] [97] eq_refl) as (H1 & H2 & H3); [by repeat constructor; lia..|done|].
  apply (ex_symbols ex_type_list h H1 H2 H3).
Qed.

Lemma one_mem b i : 0 <= b < 2 ^ 32 - MAPSIZE -> ebitmap_mem (one b) i = (i =? b).
Proof.
  intros Hb. unfold one. destruct (ebitmap_set_bit ebitmap_init b true []) as [[rc e] o] eqn:E.
  destruct (ebitmap_set_bit_spec ebitmap_init b true [] rc e o (proj1 ebitmap_init_empty) Hb E) as [_ [[_ Hm]|(_ & _ & _ & ?)]]; [|done].
  cbn [fst snd]. rewrite Hm. by destruct (i =? b).
Qed.

Lemma ex_kernel_ok : kernel_policy 30 ex_kernel.
Proof.
  assert (Hc : forall c, 1 <= c < 2 ^ 8 -> cstring_ok [c]) by (intros c Hc; by repeat constructor; lia).
  split.
  - reflexivity.
  - exact ex_symtabs_ok.
  - apply one_value; [by apply Hc|reflexivity].
  - apply one_value; [by apply Hc|reflexivity].
  - apply two_values; [exact object_r_ok|by apply Hc|done|reflexivity..].
  - apply two_values; [by apply Hc..|done|reflexivity|reflexivity].
  - apply one_value; [by apply Hc|reflexivity].
  - apply one_value; [by apply Hc|reflexivity].
  - apply one_value; [by apply Hc|reflexivity].
  - apply one_value; [by apply Hc|reflexivity].
  - reflexivity.
  - intros h v Ht Hv. cbn in Hv. pose proof (ex_role_mem h Ht) as Hm.
    assert (v = 1 \/ v = 2) as [->| ->] by lia.
    + exists OBJECT_R, (ex_role 1). split; [apply Hm; by left|reflexivity].
    + exists [114], (ex_role 2). split; [apply Hm; right; by left|reflexivity].
  - intros h t Ht Htt k r Hk. apply (ex_role_mem h Ht) in Hk. unfold ex_role_list in Hk. rewrite !elem_of_cons, elem_of_nil in Hk.
    destruct Hk as [[= -> ->]|[[= -> ->]|[]]]; eexists; (split; [reflexivity|]).
    + split; [apply ebitmap_init_empty|]. intros i Hi. cbn in Hi. discriminate.
    + split; [apply one_wf; small|]. intros i Hi. change (ebitmap_mem (one 0) i = true) in Hi.
      rewrite one_mem in Hi by small. apply Z.eqb_eq in Hi as ->.
      exists [116], (plain_type 1 1 TYPE_TYPE). split; [apply (ex_type_mem t Htt); by left|reflexivity].
  - intros h Ht k u Hk. apply (ex_symbols [([117], ex_user)] h) in Hk; [|by repeat constructor; lia|apply NoDup_singleton|simpl; lia|exact Ht].
    apply list_elem_of_singleton in Hk as [= -> ->]. exists (one 1). split; [reflexivity|]. split; [apply one_wf; small|].
    intros i Hi. rewrite one_mem in Hi by small. apply Z.eqb_eq in Hi as ->. small.
  - small.
  - destruct (mk_symtab_holds (@nil (list Z * scope_datum))) as (h & Ht & Hw & Hm & _); [constructor..|simpl; lia|].
    exists (mk_symtab []), h. split_and!; try done. intros t _. rewrite Hm. change (list_to_map []) with (∅ : gmap (list Z) scope_datum). set_solver.
  - split; [apply NoDup_singleton|]. split; [repeat constructor; cbn; lia|cbn; lia].
  - do 4 eexists. split; [reflexivity|]. split; [reflexivity|apply ebitmap_init_empty].
  - split; [|reflexivity]. repeat constructor; apply ebitmap_init_empty.
  - split; [|reflexivity]. repeat constructor; apply ebitmap_init_empty.
Qed.

(** "ne" as a type of the example. *)
Lemma ex_name_ok : name_ok [110; 101].
Proof. split; [by repeat constructor; lia|simpl; lia]. Qed.

Lemma ex_types_table : exists t, table (p_types ex_kernel) = Some t /\ hashtab_model t !! [110; 101] = None /\ nel t + 1 < UINT32_MAX.
Proof.
  destruct (two_keys ex_type_list [116] [97] eq_refl) as (H1 & H2 & H3); [by repeat constructor; lia..|done|].
  destruct (mk_symtab_holds ex_type_list H1 H2 H3) as (h & Ht & _ & Hm & Hn). exists h. split; [exact Ht|]. split.
  - rewrite Hm. apply not_elem_of_list_to_map_1. cbn. rewrite !elem_of_cons, elem_of_nil. by intros [[=]|[[=]|[]]].
  - rewrite Hn. unfold UINT32_MAX. cbn. lia.
Qed.

Lemma add_type_correct_witness :
  exists db', add_type [110; 101] TYPE_TYPE (ex_kernel, []) = Some (true, (db', [])) /\
    type_added [110; 101] TYPE_TYPE 3 ex_kernel db' /\ kernel_policy 30 db'.
Proof.
  destruct ex_types_table as (t & Ht & Hn & Hnel).
  pose proof (add_type_correct 30 ex_kernel t [110; 101] TYPE_TYPE ex_kernel_ok Ht ex_name_ok ltac:(done) ltac:(by left)
    ltac:(small) Hnel) as H.
  rewrite Hn in H. exact H.
Defined.

Lemma add_type_persists_witness :
  exists db' bs fp', add_type [110; 101] TYPE_TYPE (ex_kernel, []) = Some (true, (db', [])) /\
    write_symtabs POLICY_KERN 30 8 (p_symtab db') (PolicyFile PF_USE_STDIO [] 0 []) = Some fp' /\
    wrote (PolicyFile PF_USE_STDIO [] 0 []) bs fp' /\
    forall fr fr', reads fr bs fr' ->
    exists st' t' r, read_symtabs POLICY_KERN 30 8 ex_fresh_symtabs fr [] = Some (st', fr', []) /\
      table (sym_types st') = Some t' /\ hashtab_model t' !! [110; 101] = Some (TypeDatum 3 1 TYPE_TYPE ebitmap_init 0 0) /\
      hashtab_search (table (sym_roles st')) [114] = Some r /\ ebitmap_mem (ts_types (ro_types r)) 2 = true.
Proof.
  destruct ex_types_table as (t & Ht & Hn & Hnel).
  destruct (add_type_persists 30 ex_kernel t [110; 101] TYPE_TYPE ltac:(vm_compute; discriminate) ex_kernel_ok Ht ex_name_ok
    ltac:(done) ltac:(by left) ltac:(small) Hnel Hn) as (db' & E & H).
  destruct (H (PolicyFile PF_USE_STDIO [] 0 [])) as (bs & fp' & Hw & Hb & Hr); [by left|].
  exists db', bs, fp'. split; [exact E|]. split; [exact Hw|]. split; [exact Hb|]. intros fr fr' Hrd.
  destruct (Hr _ fr fr' ex_fresh_ok Hrd) as (st' & H1 & H2 & Hkept).
  destruct (sw_types _ _ _ _ H2) as (_ & t0 & t' & _ & Et' & _ & Em). destruct (sw_roles _ _ _ _ H2) as (_ & hr & hr' & Er & Er' & Hwr & Hm).
  assert (Hk : cstring_ok [114]) by (by repeat constructor; lia).
  specialize (Hm [114] (proj2 (Hkept _ Hk) ltac:(done))).
  rewrite (proj2 (ex_role_mem hr Er [114] (ex_role 2))) in Hm by (right; by left).
  inversion Hm as [x r Hx E1 E2|]; subst. exists st', t', r. split; [exact H1|]. split; [exact Et'|].
  split; [rewrite Em; apply lookup_insert_eq|]. split.
  - rewrite Er', (hashtab_search_spec cstring_ok hr' [114] Hwr Hk). symmetry. exact E2.
  - destruct Hx as (_ & _ & _ & _ & _ & Hx). rewrite Hx. reflexivity.
Defined.
