(* ===== verification/Context.v ===== *)
(** * Security contexts and their text (libsepol/src/context.c, context_record.c, mls.c)

    A context is written user:role:type and, in policies with MLS, :low-high, where a level
    is a sensitivity and a list of categories and ranges of categories.  The model has the
    parser, the test of validity and the printer.

    A computation has one of three ends: a crash (a pointer that is [NULL], an access
    outside of an array or a buffer), a failure that the caller is told, or a result; the
    last two with what is left of the outcomes of [malloc]. *)

From S2P Require Import Prelude Policyfile Ebitmap Hashtab Symtab Avtab Policydb Sepolicy Symbols PolicyIndex.

(** ** Computations *)

Inductive outcome (A : Type) : Type :=
| Crash
| Fails (o : oracle)
| Done (a : A) (o : oracle).
Arguments Crash {A}.
Arguments Fails {A} o.
Arguments Done {A} a o.

Definition comp (A : Type) : Type := oracle -> outcome A.

#[export] Instance comp_ret : MRet comp := fun A a o => Done a o.

#[export] Instance comp_bind : MBind comp := fun A B k c o =>
  match c o with
  | Crash => Crash
  | Fails o => Fails o
  | Done a o => k a o
  end.

Definition crash {A} : comp A := fun _ => Crash.
Definition failed {A} : comp A := fun o => Fails o.

(** [if (!b) goto err]. *)
Definition require (b : bool) : comp unit := if b then mret () else failed.

(** A pointer that is tested, and one that is followed without a test. *)
Definition found {A} (x : option A) : comp A := match x with Some a => mret a | None => failed end.
Definition follow {A} (x : option A) : comp A := match x with Some a => mret a | None => crash end.

Definition allocate : comp unit := fun o => let (ok, o) := malloc o in if ok then Done () o else Fails o.

(** Several allocations of which all are made before they are tested. *)
Fixpoint allocate_all (n : nat) : comp unit := fun o =>
  match n with
  | O => Done () o
  | S n' =>
      let (ok, o) := malloc o in
      match allocate_all n' o with
      | Done _ o => if ok then Done () o else Fails o
      | r => r
      end
  end.

(** A call whose result code is tested. *)
Definition attempt {A} (f : oracle -> Z * A * oracle) : comp A := fun o =>
  let '(rc, a, o) := f o in if truthy rc then Fails o else Done a o.

(** ** Text *)

Definition COLON : Z := 58.
Definition DASH : Z := 45.
Definition COMMA : Z := 44.
Definition DOT : Z := 46.

(** Reads up to a delimiter and replaces it by 0: what was read, the delimiter (0 at the
    end of the string) and the string after it. *)
Fixpoint scan (stop : list Z) (s : list Z) : list Z * Z * list Z :=
  match s with
  | [] => ([], 0, [])
  | c :: s' =>
      if existsb (Z.eqb c) stop then ([], c, s')
      else let '(t, delim, rest) := scan stop s' in (c :: t, delim, rest)
  end.

(** [sepol_context_t]. *)
Record sepol_context := SepolContext {
  ctx_user : list Z;
  ctx_role : list Z;
  ctx_type : list Z;
  ctx_mls : option (list Z)
}.

(** "<<none>>" *)
Definition NONE : list Z := [60; 60; 110; 111; 110; 101; 62; 62].

(** The record is [NULL] for "<<none>>".  [strchr] finds no ':' when [scan] gives no
    delimiter. *)
Definition sepol_context_from_string (str : list Z) : comp (option sepol_context) :=
  if strcmp str NONE =? 0 then mret None
  else
    allocate;;
    allocate;;
    let '(user, delim, low) := scan [COLON] str in
    require (truthy delim);;
    allocate;;
    let '(role, delim, low) := scan [COLON] low in
    require (truthy delim);;
    allocate;;
    let '(type, delim, low) := scan [COLON] low in
    allocate;;
    if truthy delim then allocate;; mret (Some (SepolContext user role type (Some low)))
    else mret (Some (SepolContext user role type None)).

(** ** Levels *)

(** The loop over the categories of a level; [None] for lack of fuel is a crash. *)
Fixpoint parse_cats (fuel : nat) (cats : symbols cat_datum) (p : list Z) (e : ebitmap) :
    comp (ebitmap * Z * list Z) :=
  match fuel with
  | O => crash
  | S fuel' =>
      let '(scontextp, delim, p) := scan [COMMA; DASH] p in
      let '(name, dot, rng) := scan [DOT] scontextp in
      catdatum ← found (hashtab_search cats name);
      e ← attempt (ebitmap_set_bit e (u32 (cat_value catdatum - 1)) true);
      e ← (if truthy dot then
             rngdatum ← found (hashtab_search cats rng);
             require (cat_value catdatum <? cat_value rngdatum);;
             attempt (set_bits (seqZ (cat_value catdatum) (cat_value rngdatum - cat_value catdatum)) e)
           else mret e : comp ebitmap);
      if delim =? COMMA then parse_cats fuel' cats p e else mret (e, delim, p)
  end.

(** One round of the loop over the two levels: the sensitivity [name], and the categories
    when [delim] is ':'. *)
Definition parse_level (db : policydb) (name : list Z) (delim : Z) (p : list Z) (l : mls_level) :
    comp (mls_level * Z * list Z) :=
  levdatum ← found (hashtab_search (table (sym_levels (p_symtab db))) name);
  lev ← follow (level levdatum);
  if delim =? COLON then
    '(e, delim, p) ← parse_cats (S (length p)) (table (sym_cats (p_symtab db))) p (cat l);
    mret (MlsLevel (sens lev) e, delim, p)
  else mret (MlsLevel (sens lev) (cat l), delim, p).

(** The range that is written to the context; [mls_from_string] does not use the end of
    the text, and what follows the high level is not looked at. *)
Definition mls_context_to_sid (db : policydb) (oldc : Z) (scontext : list Z) (r : mls_range) : comp mls_range :=
  if p_mls db =? 0 then mret r
  else
    require (truthy oldc);;
    let '(name, delim, p) := scan [COLON; DASH] scontext in
    '(low, delim, p) ← parse_level db name delim p (level_low r);
    if delim =? DASH then
      let '(name, delim, p) := scan [COLON] p in
      '(high, _, _) ← parse_level db name delim p (level_high r);
      mret (MlsRange low high)
    else
      e ← attempt (ebitmap_cpy (cat low));
      mret (MlsRange low (MlsLevel (sens low) e)).

(** With '$' for the character before the text. *)
Definition mls_from_string (db : policydb) (str : list Z) (r : mls_range) : comp mls_range :=
  allocate;;
  mls_context_to_sid db 36 str r.

(** ** Validity *)

Definition mls_range_contains (r1 r2 : mls_range) : bool :=
  mls_level_dom (level_low r2) (level_low r1) && mls_level_dom (level_high r1) (level_high r2).

Fixpoint check_cats (nprim : Z) (levdatum : level_datum) (bits : list Z) : option bool :=
  match bits with
  | [] => Some true
  | i :: bits' =>
      if nprim <? i then Some false
      else
        lev ← level levdatum;
        if truthy (ebitmap_get_bit (cat lev) i) then check_cats nprim levdatum bits' else Some false
  end.

(** One round of the loop over the two levels. *)
Definition level_isvalid (db : policydb) (l : mls_level) : option bool :=
  let st := p_symtab db in
  if (sens l =? 0) || (nprim (sym_levels st) <? sens l) then Some false
  else
    match names_of SYM_LEVELS db !! Z.to_nat (sens l - 1) with
    | None => None
    | Some None => Some false
    | Some (Some key) =>
        match hashtab_search (table (sym_levels st)) key with
        | None => Some false
        | Some levdatum => bits ← ebitmap_positive_bits (cat l); check_cats (nprim (sym_cats st)) levdatum bits
        end
    end.

(** The datum that an element of an array of structures points to. *)
Definition struct_at {D} (h : symbols D) (l : list (option (list Z))) (value : Z) : option (option D) :=
  match l !! Z.to_nat (value - 1) with
  | None => None
  | Some None => Some None
  | Some (Some key) => Some <$> hashtab_search h key
  end.

Definition mls_context_isvalid (db : policydb) (c : context_struct) : option bool :=
  let st := p_symtab db in
  if p_mls db =? 0 then Some true
  else if negb (mls_level_dom (level_high (c_range c)) (level_low (c_range c))) then Some false
  else
    low ← level_isvalid db (level_low (c_range c));
    if negb low then Some false
    else
      high ← level_isvalid db (level_high (c_range c));
      if negb high then Some false
      else if c_role c =? OBJECT_R_VAL then Some true
      else if (c_user c =? 0) || (nprim (sym_users st) <? c_user c) then Some false
      else
        usrdatum ← struct_at (table (sym_users st)) (user_val_to_struct (p_index db)) (c_user c);
        match usrdatum with
        | None => Some false
        | Some usrdatum => Some (mls_range_contains (exp_range usrdatum) (c_range c))
        end.

(** [true] when the test of the role is passed. *)
Definition role_isvalid (db : policydb) (c : context_struct) : option bool :=
  let st := p_symtab db in
  role ← struct_at (table (sym_roles st)) (role_val_to_struct (p_index db)) (c_role c);
  match role with
  | None => Some false
  | Some role =>
      if negb (truthy (ebitmap_get_bit (ro_cache role) (c_type c - 1))) then Some false
      else
        usrdatum ← struct_at (table (sym_users st)) (user_val_to_struct (p_index db)) (c_user c);
        match usrdatum with
        | None => Some false
        | Some usrdatum => Some (truthy (ebitmap_get_bit (us_cache usrdatum) (c_role c - 1)))
        end
  end.

Definition context_is_valid (db : policydb) (c : context_struct) : option bool :=
  let st := p_symtab db in
  if (c_role c =? 0) || (nprim (sym_roles st) <? c_role c) then Some false
  else if (c_user c =? 0) || (nprim (sym_users st) <? c_user c) then Some false
  else if (c_type c =? 0) || (nprim (sym_types st) <? c_type c) then Some false
  else
    authorized ← (if c_role c =? OBJECT_R_VAL then Some true else role_isvalid db c);
    if negb authorized then Some false else mls_context_isvalid db c.

(** ** From text to contexts *)

Definition context_from_record (db : policydb) (record : option sepol_context) : comp context_struct :=
  let st := p_symtab db in
  record ← follow record;
  allocate_all 4;;
  usrdatum ← found (hashtab_search (table (sym_users st)) (ctx_user record));
  roldatum ← found (hashtab_search (table (sym_roles st)) (ctx_role record));
  typdatum ← found (hashtab_search (table (sym_types st)) (ctx_type record));
  require (negb (ty_flavor typdatum =? TYPE_ATTRIB));;
  range ← match ctx_mls record with
          | Some mls => require (negb (p_mls db =? 0));; mls_from_string db mls mls_range_init
          | None => require (p_mls db =? 0);; mret mls_range_init
          end;
  let c := ContextStruct (us_value usrdatum) (ro_value roldatum) (ty_value typdatum) range in
  valid ← follow (context_is_valid db c);
  require valid;;
  mret c.

(** The length is not 0 and not the largest one; the copy ends at the first 0. *)
Definition context_from_string (db : policydb) (con_str : list Z) : comp context_struct :=
  let len := Z.of_nat (length con_str) in
  require (negb ((len =? 0) || (len =? 2 ^ 64 - 1)));;
  allocate;;
  record ← sepol_context_from_string (c_str con_str);
  context_from_record db record.

(** ** From contexts to text *)

(** The bits for which the body of [ebitmap_for_each_bit] runs, with the bit, and the
    value of the counter at the end. *)
Fixpoint each_bit_loop (fuel : nat) (e : ebitmap) (n : list ebitmap_node) (bit : Z) : option (list (Z * bool) * Z) :=
  if negb (bit <? ebitmap_length e) then Some ([], bit)
  else
    match fuel with
    | O => None
    | S fuel' =>
        let '(n', bit') := ebitmap_next n bit in
        '(l, last) ← each_bit_loop fuel' e n' bit';
        Some ((bit, ebitmap_node_get_bit n bit) :: l, last)
    end.

Definition ebitmap_each_bit (e : ebitmap) : option (list (Z * bool) * Z) :=
  each_bit_loop (length (node e) * 64) e (node e) (ebitmap_startbit e).

(** [p_*_val_to_name[i]], which is followed. *)
Definition name_at (names : list (option (list Z))) (i : Z) : option (list Z) :=
  if i <? 0 then None else name ← names !! Z.to_nat i; name.

Section print.
Context (names : list (option (list Z))).

(** The loop of [mls_compute_context_len]. *)
Fixpoint cats_len (bits : list (Z * bool)) (last range : Z) : option Z :=
  match bits with
  | [] => if 1 <? range then (fun s => Z.of_nat (length s) + 1) <$> name_at names (last - 1) else Some 0
  | (i, true) :: bits' =>
      if truthy range then cats_len bits' last (range + 1)
      else
        s ← name_at names i;
        len ← cats_len bits' last 1;
        Some (Z.of_nat (length s) + 1 + len)
  | (i, false) :: bits' =>
      n ← (if 1 <? range then (fun s => Z.of_nat (length s) + 1) <$> name_at names (i - 1) else Some 0);
      len ← cats_len bits' last 0;
      Some (n + len)
  end.

(** The end of a range of two or more categories. *)
Definition print_end (range i : Z) : option (list Z) :=
  if 1 <? range then s ← name_at names (i - 1); Some ((if 2 <? range then DOT else COMMA) :: s) else Some [].

(** The loop of [mls_sid_to_context]. *)
Fixpoint print_cats (bits : list (Z * bool)) (last range : Z) (wrote_sep : bool) : option (list Z) :=
  match bits with
  | [] => print_end range last
  | (i, true) :: bits' =>
      if truthy range then print_cats bits' last (range + 1) wrote_sep
      else
        s ← name_at names i;
        text ← print_cats bits' last 1 true;
        Some ((if wrote_sep then COMMA else COLON) :: s ++ text)
  | (i, false) :: bits' =>
      s ← print_end range i;
      text ← print_cats bits' last 0 wrote_sep;
      Some (s ++ text)
  end.
End print.

Definition level_len (db : policydb) (l : mls_level) : option Z :=
  s ← name_at (names_of SYM_LEVELS db) (sens l - 1);
  '(bits, last) ← ebitmap_each_bit (cat l);
  len ← cats_len (names_of SYM_CATS db) bits last 0;
  Some (Z.of_nat (length s) + len).

Definition print_level (db : policydb) (l : mls_level) : option (list Z) :=
  s ← name_at (names_of SYM_LEVELS db) (sens l - 1);
  '(bits, last) ← ebitmap_each_bit (cat l);
  text ← print_cats (names_of SYM_CATS db) bits last 0 false;
  Some (s ++ text).

(** [len] is unsigned and returned as an [int], which its caller adds to a [size_t]. *)
Definition to_int (x : Z) : Z := if u32 x <? 2 ^ 31 then u32 x else u32 x - 2 ^ 32.

Definition mls_compute_context_len (db : policydb) (c : context_struct) : option Z :=
  if p_mls db =? 0 then Some 0
  else
    low ← level_len db (level_low (c_range c));
    if mls_level_eq (level_low (c_range c)) (level_high (c_range c)) then Some (to_int (1 + low))
    else
      high ← level_len db (level_high (c_range c));
      Some (to_int (1 + low + 1 + high)).

Definition mls_sid_to_context (db : policydb) (c : context_struct) : option (list Z) :=
  if p_mls db =? 0 then Some []
  else
    low ← print_level db (level_low (c_range c));
    if mls_level_eq (level_low (c_range c)) (level_high (c_range c)) then Some (COLON :: low)
    else
      high ← print_level db (level_high (c_range c));
      Some (COLON :: low ++ DASH :: high).

(** The text and its final 0 are written to a buffer of the size computed first. *)
Definition context_to_string (db : policydb) (c : context_struct) : comp (list Z) :=
  user ← follow (name_at (names_of SYM_USERS db) (c_user c - 1));
  role ← follow (name_at (names_of SYM_ROLES db) (c_role c - 1));
  type ← follow (name_at (names_of SYM_TYPES db) (c_type c - 1));
  n ← follow (mls_compute_context_len db c);
  let scontext_len := usz (Z.of_nat (length user) + 1 + (Z.of_nat (length role) + 1) + Z.of_nat (length type) + n + 1) in
  allocate;;
  mls ← follow (mls_sid_to_context db c);
  let text := user ++ COLON :: role ++ COLON :: type ++ mls in
  if Z.of_nat (length text) + 1 <=? scontext_len then mret text else crash.
