(* ===== verification/ContextText.v ===== *)
(** * The text of sets of categories

    [mls_sid_to_context] prints the set bits of a bitmap as items: single categories and
    ranges.  The items cover exactly the set when no run of set bits ends at the last bit of
    a node that is not followed by the next one, and [mls_context_to_sid] reads them back. *)

From S2P Require Import Prelude Policyfile Ebitmap EbitmapSpec EbitmapQuery EbitmapUpdate Hashtab HashtabSpec Symtab Avtab Policydb Sepolicy.
From S2P Require Import Symbols PolicyIndex PolicyIndexSpec Context.

(** ** Delimiters *)

Definition clean (stop s : list Z) : Prop := Forall (fun c => existsb (Z.eqb c) stop = false) s.

Lemma scan_end stop s : clean stop s -> scan stop s = (s, 0, []).
Proof. induction 1 as [|c s Hc _ IH]; [done|]. cbn [scan]. by rewrite Hc, IH. Qed.

Lemma scan_stop stop s c rest : clean stop s -> existsb (Z.eqb c) stop = true -> scan stop (s ++ c :: rest) = (s, c, rest).
Proof. intros Hs Hc. induction Hs as [|x s Hx _ IH]; cbn [app scan]; [by rewrite Hc|]. by rewrite Hx, IH. Qed.

Lemma clean_app stop s t : clean stop s -> clean stop t -> clean stop (s ++ t).
Proof. intros. by apply Forall_app. Qed.

Lemma clean_cons stop c t : existsb (Z.eqb c) stop = false -> clean stop t -> clean stop (c :: t).
Proof. intros. by constructor. Qed.

(** ** The bits that are visited *)

(** The bits of a node from [bit] on, with their values. *)
Definition node_visits (a : ebitmap_node) (bit : Z) : list (Z * bool) :=
  (fun i => (i, node_bit a i)) <$> seqZ bit (startbit a + MAPSIZE - bit).

Definition visits (n : list ebitmap_node) : list (Z * bool) :=
  concat ((fun a => node_visits a (startbit a)) <$> n).

Lemma node_visits_step a bit :
  bit < startbit a + MAPSIZE -> node_visits a bit = (bit, node_bit a bit) :: node_visits a (bit + 1).
Proof.
  intros Hb. unfold node_visits. rewrite seqZ_cons by lia. cbn [fmap list_fmap].
  by replace (Z.pred (startbit a + MAPSIZE - bit)) with (startbit a + MAPSIZE - (bit + 1)) by lia.
Qed.

Lemma node_visits_end a bit : startbit a + MAPSIZE <= bit -> node_visits a bit = [].
Proof. intros. unfold node_visits. by rewrite seqZ_nil by lia. Qed.

Lemma each_bit_spec fuel e a n bit :
  node e <> [] -> nodes_ok (a :: n) -> highbit e = last_highbit (a :: n) ->
  startbit a <= bit < startbit a + MAPSIZE ->
  (Z.to_nat (startbit a + MAPSIZE - bit) + 64 * length n <= fuel)%nat ->
  each_bit_loop fuel e (a :: n) bit = Some (node_visits a bit ++ visits n, highbit e).
Proof.
  intros Hne. revert a n bit. induction fuel as [|fuel IH]; intros a n bit Hok Hh Hb Hf; [lia|].
  assert (ebitmap_length e = highbit e) as Hlen by (unfold ebitmap_length; by destruct (node e)).
  pose proof Hok as (Ha & Hab & Hl). pose proof Ha as [].
  assert (startbit a + MAPSIZE <= highbit e) as Hend.
  { rewrite Hh. apply last_highbit_bound; [done|]. rewrite word_at_cons, Z.eqb_refl. lia. }
  cbn [each_bit_loop]. rewrite Hlen. destruct (Z.ltb_spec bit (highbit e)); [cbn [negb]|lia].
  cbn [ebitmap_node_get_bit]. rewrite mask_at_node by done. rewrite node_visits_step by lia.
  assert (u32 (bit + 1) = bit + 1) as Hu by (apply u32_small; unfold MAPSIZE in *; lia).
  destruct (decide (bit + 1 < startbit a + MAPSIZE)) as [Hin|Hout].
  - assert (ebitmap_next (a :: n) bit = (a :: n, bit + 1)) as ->.
    { unfold ebitmap_next. destruct n; [by rewrite Hu|].
      rewrite usz_small by (unfold MAPSIZE in *; lia). case_Z; [lia|by rewrite Hu]. }
    by rewrite IH by (done || lia).
  - rewrite (node_visits_end a (bit + 1)) by lia. destruct n as [|b n].
    + assert (ebitmap_next [a] bit = ([a], bit + 1)) as -> by (cbn; by rewrite Hu).
      rewrite (last_highbit_some [a] a) in Hh by done.
      assert (each_bit_loop fuel e [a] (bit + 1) = Some ([], highbit e)) as ->.
      { assert (bit + 1 = highbit e) as -> by lia.
        destruct fuel; cbn [each_bit_loop]; rewrite Hlen, Z.ltb_irrefl; done. }
      done.
    + assert (ebitmap_next (a :: b :: n) bit = (b :: n, startbit b)) as ->.
      { unfold ebitmap_next. rewrite usz_small by (unfold MAPSIZE in *; lia). case_Z; [done|lia]. }
      rewrite last_highbit_cons in Hh by done. unfold MAPSIZE in *. cbn [length] in Hf.
      by rewrite IH by (done || unfold MAPSIZE; lia).
Qed.

Lemma ebitmap_each_bit_ok e :
  ebitmap_wf e -> ebitmap_each_bit e = Some (visits (node e), ebitmap_length e).
Proof.
  intros [Hl Hh]. unfold ebitmap_each_bit, ebitmap_startbit. destruct (node e) as [|a n] eqn:E.
  - cbn. unfold ebitmap_length. by rewrite E.
  - rewrite each_bit_spec; [|by rewrite E|done|done|unfold MAPSIZE; lia|unfold MAPSIZE; cbn [length]; lia].
    unfold ebitmap_length. by rewrite E.
Qed.

(** After a set bit the next bit that is visited, or the end, is the next bit. *)
Fixpoint linked (bits : list (Z * bool)) (last : Z) : Prop :=
  match bits with
  | [] => True
  | (i, b) :: bits' =>
      (b = true -> match bits' with (j, _) :: _ => j = i + 1 | [] => last = i + 1 end) /\ linked bits' last
  end.

(** A node whose last bit is set is the last one or is followed by the next one. *)
Fixpoint no_gap (n : list ebitmap_node) : Prop :=
  match n with
  | a :: ((b :: _) as n') => (Z.testbit (nmap a) (MAPSIZE - 1) = true -> startbit b = startbit a + MAPSIZE) /\ no_gap n'
  | _ => True
  end.

Lemma node_bit_last a : node_bit a (startbit a + MAPSIZE - 1) = true -> Z.testbit (nmap a) (MAPSIZE - 1) = true.
Proof.
  unfold node_bit. rewrite andb_true_iff. intros [_ H]. by replace (startbit a + MAPSIZE - 1 - startbit a) with (MAPSIZE - 1) in H by lia.
Qed.

Lemma linked_node a bit tail last :
  startbit a <= bit -> linked tail last ->
  (node_bit a (startbit a + MAPSIZE - 1) = true ->
     match tail with (j, _) :: _ => j = startbit a + MAPSIZE | [] => last = startbit a + MAPSIZE end) ->
  linked (node_visits a bit ++ tail) last.
Proof.
  intros Hb Ht Hend. remember (Z.to_nat (startbit a + MAPSIZE - bit)) as k eqn:Ek. revert bit Hb Ek.
  induction k as [|k IH]; intros bit Hb Ek; [by rewrite node_visits_end by lia|].
  rewrite node_visits_step by lia. cbn [app linked]. split; [|apply IH; lia].
  intros Hbit. destruct (decide (bit + 1 < startbit a + MAPSIZE)) as [Hin|Hout].
  - by rewrite (node_visits_step a (bit + 1)).
  - assert (bit = startbit a + MAPSIZE - 1) as -> by lia. rewrite node_visits_end by lia. cbn [app].
    specialize (Hend Hbit). destruct tail as [|[j ?] ?]; lia.
Qed.

Lemma visits_head b n : exists l, visits (b :: n) = (startbit b, node_bit b (startbit b)) :: l.
Proof.
  unfold visits. cbn [fmap list_fmap concat]. rewrite node_visits_step by (unfold MAPSIZE; lia). by eexists.
Qed.

Lemma linked_visits n : nodes_ok n -> no_gap n -> linked (visits n) (last_highbit n).
Proof.
  induction n as [|a n IH]; [done|]. intros (Ha & Hab & Hn) Hg.
  change (visits (a :: n)) with (node_visits a (startbit a) ++ visits n).
  destruct n as [|b n].
  - rewrite (last_highbit_some [a] a) by done. apply linked_node; [lia|done|done].
  - rewrite last_highbit_cons by done. destruct Hg as [Hb Hg]. apply linked_node; [lia|by apply IH|].
    intros Hl%node_bit_last%Hb. by destruct (visits_head b n) as [l ->].
Qed.

Lemma elem_of_visits n b : (b, true) ∈ visits n <-> nodes_bit n b = true.
Proof.
  induction n as [|a n IH]; [by cbn; rewrite elem_of_nil|].
  change (visits (a :: n)) with (node_visits a (startbit a) ++ visits n). cbn [nodes_bit existsb].
  rewrite elem_of_app, orb_true_iff, IH. apply or_iff_compat_r. unfold node_visits. rewrite list_elem_of_fmap. split.
  - intros (i & [= -> Hi] & _). done.
  - intros Hb. exists b. rewrite Hb. split; [done|]. apply elem_of_seqZ. revert Hb. unfold node_bit.
    rewrite andb_true_iff, bool_decide_eq_true. lia.
Qed.

(** ** Items *)

Inductive item : Type :=
| Single (i : Z)
| Range (i j : Z).

Definition item_text (names : list (option (list Z))) (it : item) : option (list Z) :=
  match it with
  | Single i => name_at names i
  | Range i j => s ← name_at names i; t ← name_at names j; Some (s ++ DOT :: t)
  end.

Definition covers (it : item) (b : Z) : bool :=
  match it with
  | Single i => b =? i
  | Range i j => (i <=? b) && (b <=? j)
  end.

(** A run of [r] set bits from [lo] that ends at [hi]. *)
Definition run_items (lo r hi : Z) : list item :=
  if r =? 1 then [Single lo] else if r =? 2 then [Single lo; Single hi] else [Range lo hi].

(** The items of the bits, with the run that is open. *)
Fixpoint cat_items (bits : list (Z * bool)) (last : Z) (run : option (Z * Z)) : list item :=
  match bits, run with
  | [], None => []
  | [], Some (lo, r) => run_items lo r (last - 1)
  | (i, true) :: bits', None => cat_items bits' last (Some (i, 1))
  | (_, true) :: bits', Some (lo, r) => cat_items bits' last (Some (lo, r + 1))
  | (_, false) :: bits', None => cat_items bits' last None
  | (i, false) :: bits', Some (lo, r) => run_items lo r (i - 1) ++ cat_items bits' last None
  end.

Fixpoint print_items (names : list (option (list Z))) (wrote_sep : bool) (its : list item) : option (list Z) :=
  match its with
  | [] => Some []
  | it :: its' =>
      s ← item_text names it;
      t ← print_items names true its';
      Some ((if wrote_sep then COMMA else COLON) :: s ++ t)
  end.

Lemma print_run names lo r i (wrote : bool) (k : option (list Z)) its :
  1 <= r -> print_items names true its = k ->
  (s ← name_at names lo; e ← print_end names r i; t ← k; Some ((if wrote then COMMA else COLON) :: s ++ e ++ t)) =
  print_items names wrote (run_items lo r (i - 1) ++ its).
Proof.
  intros Hr Hk. unfold print_end, run_items. destruct (Z.ltb_spec 1 r), (Z.eqb_spec r 1); try lia.
  - destruct (Z.ltb_spec 2 r), (Z.eqb_spec r 2); try lia; cbn [app print_items item_text]; rewrite ?Hk;
      destruct (name_at names lo) as [s|]; cbn; try done; destruct (name_at names (i - 1)) as [s2|]; cbn; try done;
      destruct k; cbn; try done; by rewrite <-?app_assoc.
  - cbn [app print_items item_text]. rewrite Hk. by destruct (name_at names lo).
Qed.

(** What is printed are the items. *)
Lemma print_cats_items names bits last :
  (forall wrote, print_cats names bits last 0 wrote = print_items names wrote (cat_items bits last None)) /\
  (forall (wrote : bool) lo r, 1 <= r ->
     (s ← name_at names lo; t ← print_cats names bits last r true; Some ((if wrote then COMMA else COLON) :: s ++ t)) =
     print_items names wrote (cat_items bits last (Some (lo, r)))).
Proof.
  induction bits as [|[i b] bits [IH0 IH1]].
  - split; [done|]. intros wrote lo r Hr. cbn [print_cats cat_items].
    pose proof (print_run names lo r last wrote (Some []) [] Hr eq_refl) as H. rewrite app_nil_r in H. rewrite <-H.
    destruct (name_at names lo); cbn; [|done]. destruct (print_end names r last); cbn; [by rewrite app_nil_r|done].
  - destruct b; cbn [print_cats cat_items].
    + split; [intros wrote; cbn [truthy Z.eqb negb]; by apply IH1|]. intros wrote lo r Hr.
      replace (truthy r) with true by (symmetry; apply truthy_true; lia). by apply IH1; lia.
    + split; [intros wrote; cbn; rewrite IH0; by destruct (print_items _ _ _)|]. intros wrote lo r Hr.
      rewrite <-(print_run names lo r i wrote (print_cats names bits last 0 true)) by (done || by rewrite IH0).
      destruct (name_at names lo); cbn; [|done]. destruct (print_end names r i); cbn; [|done].
      by destruct (print_cats names bits last 0 true).
Qed.

(** The length that is computed first. *)
Lemma cats_len_text names bits last range wrote text :
  print_cats names bits last range wrote = Some text -> cats_len names bits last range = Some (Z.of_nat (length text)).
Proof.
  assert (Hend : forall r i e, print_end names r i = Some e ->
    (if 1 <? r then (fun s => Z.of_nat (length s) + 1) <$> name_at names (i - 1) else Some 0) = Some (Z.of_nat (length e))).
  { intros r i e. unfold print_end. destruct (1 <? r); [|by intros [= <-]].
    destruct (name_at names (i - 1)); cbn; [|done]. intros [= <-]. cbn. f_equal. lia. }
  revert range wrote text. induction bits as [|[i b] bits IH]; intros range wrote text; cbn [print_cats cats_len]; [apply Hend|].
  destruct b.
  - destruct (truthy range); [by apply IH|]. destruct (name_at names i) as [s|]; cbn; [|done].
    destruct (print_cats names bits last 1 true) as [t|] eqn:E; cbn; [|done]. intros [= <-]. rewrite (IH _ _ _ E). cbn.
    rewrite length_app. f_equal. lia.
  - destruct (print_end names range i) as [e|] eqn:Ee; cbn; [|done].
    destruct (print_cats names bits last 0 wrote) as [t|] eqn:E; cbn; [|done]. intros [= <-]. rewrite (Hend _ _ _ Ee). cbn.
    rewrite (IH _ _ _ E). cbn. rewrite length_app. f_equal. lia.
Qed.

(** ** What the items cover *)

Definition cats_covered (its : list item) (b : Z) : bool := existsb (fun it => covers it b) its.

Definition item_ok (it : item) : Prop := match it with Single _ => True | Range i j => i < j end.

Lemma run_covered lo r b : 1 <= r -> cats_covered (run_items lo r (lo + r - 1)) b = true <-> lo <= b < lo + r.
Proof.
  intros Hr. unfold run_items, cats_covered. destruct (Z.eqb_spec r 1); [|destruct (Z.eqb_spec r 2)]; cbn;
    rewrite ?orb_false_r, ?orb_true_iff, ?andb_true_iff, ?Z.eqb_eq, ?Z.leb_le; lia.
Qed.

Lemma run_ok lo r : 1 <= r -> Forall item_ok (run_items lo r (lo + r - 1)).
Proof.
  intros Hr. unfold run_items. destruct (Z.eqb_spec r 1); [|destruct (Z.eqb_spec r 2)]; repeat constructor; cbn; lia.
Qed.

Definition next_bit (bits : list (Z * bool)) (last : Z) : Z := match bits with (j, _) :: _ => j | [] => last end.

Lemma items_cover bits last :
  linked bits last ->
  (Forall item_ok (cat_items bits last None) /\
   forall b, cats_covered (cat_items bits last None) b = true <-> (b, true) ∈ bits) /\
  (forall lo r, 1 <= r -> next_bit bits last = lo + r ->
     Forall item_ok (cat_items bits last (Some (lo, r))) /\
     forall b, cats_covered (cat_items bits last (Some (lo, r))) b = true <-> lo <= b < lo + r \/ (b, true) ∈ bits).
Proof.
  induction bits as [|[i v] bits IH]; intros Hl.
  - split; [split; [constructor|]; intros b; cbn; by rewrite elem_of_nil|]. intros lo r Hr Hn. cbn [next_bit] in Hn. cbn [cat_items]. rewrite Hn.
    split; [by apply run_ok|]. intros b. rewrite run_covered, elem_of_nil by done. tauto.
  - destruct Hl as [Hv Hl]. destruct (IH Hl) as [[IHo IHc] IHr]. destruct v.
    + assert (Hj : next_bit bits last = i + 1) by (specialize (Hv eq_refl); by destruct bits as [|[]]). cbn [cat_items]. split.
      * destruct (IHr i 1 ltac:(lia) Hj) as [H1 H2]. split; [done|]. intros b. rewrite H2, elem_of_cons. split.
        -- intros [?|?]; [left; f_equal; lia|by right].
        -- intros [[= ->]|?]; [left; lia|by right].
      * intros lo r Hr Hn. cbn in Hn. subst i. destruct (IHr lo (r + 1) ltac:(lia) ltac:(lia)) as [H1 H2].
        split; [done|]. intros b. rewrite H2, elem_of_cons. split.
        -- intros [?|?]; [|by right; right]. destruct (decide (b = lo + r)) as [->|]; [by right; left|left; lia].
        -- intros [?|[[= ->]|?]]; [left; lia|left; lia|by right].
    + cbn [cat_items]. split.
      * split; [done|]. intros b. rewrite IHc, elem_of_cons. split; [by right|]. by intros [[=]|?].
      * intros lo r Hr Hn. cbn in Hn. subst i. split; [apply Forall_app; split; [by apply run_ok|done]|]. intros b.
        unfold cats_covered. rewrite existsb_app, orb_true_iff. fold (cats_covered (run_items lo r (lo + r - 1)) b).
        fold (cats_covered (cat_items bits last None) b). rewrite run_covered, IHc, elem_of_cons by done.
        split; [intros [?|?]; [by left|by right; right]|]. intros [?|[[=]|?]]; [by left|by right].
Qed.

(** ** Reading the items *)

Section parse.
Context (names : list (option (list Z))) (cats : symbols cat_datum).

(** The names of the array are those of the categories, and hold no delimiter. *)
Definition cats_named : Prop :=
  forall i s, name_at names i = Some s ->
    0 <= i < 2 ^ 32 - MAPSIZE /\ clean [COMMA; DASH; DOT] s /\ exists d, hashtab_search cats s = Some d /\ cat_value d = i + 1.

Hypothesis Hnamed : cats_named.

Lemma clean_name s : clean [COMMA; DASH; DOT] s -> clean [COMMA; DASH] s /\ clean [DOT] s.
Proof.
  intros Hs. split; (eapply Forall_impl; [exact Hs|]); intros c; cbn; rewrite !orb_false_iff; tauto.
Qed.

(** What is after an item: nothing, the next item or the high level. *)
Definition after (t : list Z) (delim : Z) (p : list Z) : Prop :=
  t = [] /\ delim = 0 /\ p = [] \/ t = delim :: p /\ (delim = COMMA \/ delim = DASH).

Lemma scan_after stop s t delim p :
  clean stop s -> after t delim p -> stop = [COMMA; DASH] -> scan stop (s ++ t) = (s, delim, p).
Proof.
  intros Hs Ha ->. destruct Ha as [(-> & -> & ->)|[-> [-> | ->]]]; [rewrite app_nil_r; by apply scan_end| |]; by apply scan_stop.
Qed.

(** One item. *)
Lemma parse_item fuel it s t delim p e :
  item_ok it -> item_text names it = Some s -> after t delim p -> ebitmap_wf e ->
  exists e', ebitmap_wf e' /\ (forall b, ebitmap_mem e' b = ebitmap_mem e b || covers it b) /\
    parse_cats (S fuel) cats (s ++ t) e [] =
    (if delim =? COMMA then parse_cats fuel cats p e' [] else Done (e', delim, p) []).
Proof.
  intros Hit Hs Ha Hw. cbn [parse_cats].
  assert (Hset : forall i d, 0 <= i < 2 ^ 32 - MAPSIZE -> cat_value d = i + 1 ->
    exists e1, attempt (ebitmap_set_bit e (u32 (cat_value d - 1)) true) [] = Done e1 [] /\ ebitmap_wf e1 /\
      forall b, ebitmap_mem e1 b = if b =? i then true else ebitmap_mem e b).
  { intros i d Hi Hd. rewrite Hd, u32_small by (unfold MAPSIZE in *; lia). replace (i + 1 - 1) with i by lia.
    destruct (write_bit_memory e i true Hw Hi) as (e1 & E & Hw1 & Hm). exists e1. unfold attempt. by rewrite E. }
  destruct it as [i|i j]; cbn [item_text] in Hs.
  - destruct (Hnamed i s Hs) as (Hi & Hc & d & Hd & Hv).
    rewrite (scan_after _ s t delim p); [|by apply clean_name|done|done].
    rewrite (scan_end [DOT] s) by (by apply clean_name).
    destruct (Hset i d Hi Hv) as (e1 & E1 & Hw1 & Hm1). exists e1. split; [done|]. split.
    { intros b. rewrite Hm1. cbn. destruct (b =? i); [by rewrite orb_true_r|by rewrite orb_false_r]. }
    rewrite Hd. unfold mbind, comp_bind, found, mret, comp_ret. rewrite E1. cbn. by destruct (delim =? COMMA).
  - destruct (name_at names i) as [s1|] eqn:E1; [|done]. destruct (name_at names j) as [s2|] eqn:E2; [|done].
    cbn in Hs. injection Hs as <-. destruct (Hnamed i s1 E1) as (Hi & Hc1 & d1 & Hd1 & Hv1).
    destruct (Hnamed j s2 E2) as (Hj & Hc2 & d2 & Hd2 & Hv2).
    rewrite (scan_after _ (s1 ++ DOT :: s2) t delim p); [|apply clean_app; [|apply clean_cons; [done|]];
      by apply clean_name|done|done].
    rewrite (scan_stop [DOT] s1 DOT s2); [|by apply clean_name|done].
    destruct (Hset i d1 Hi Hv1) as (e1 & Ee1 & Hw1 & Hm1).
    destruct (set_bits_spec (seqZ (cat_value d1) (cat_value d2 - cat_value d1)) e1 Hw1) as (e2 & Ee2 & Hw2 & Hm2).
    { apply Forall_forall. intros x Hx%elem_of_seqZ. lia. }
    exists e2. split; [done|]. cbn in Hit. split.
    { intros b. rewrite Hm2, Hm1. cbn [covers]. apply eq_true_iff_eq. rewrite !orb_true_iff, andb_true_iff, !Z.leb_le.
      rewrite existsb_exists. setoid_rewrite <-list_elem_of_In. setoid_rewrite elem_of_seqZ. setoid_rewrite Z.eqb_eq.
      destruct (Z.eqb_spec b i) as [->|Hne].
      - split; [intros _; right; lia|by left].
      - split; [intros [?|(x & Hx & ->)]; [by left|right; lia]|]. intros [?|?]; [by left|right; exists b; lia]. }
    rewrite Hd1. unfold mbind, comp_bind, found, mret, comp_ret. rewrite Ee1. cbn [DOT truthy Z.eqb negb].
    rewrite Hd2. replace (require (cat_value d1 <? cat_value d2)) with (require true) by (by rewrite (proj2 (Z.ltb_lt _ _)) by lia).
    cbn [require mret comp_ret]. unfold attempt. rewrite Ee2. cbn. by destruct (delim =? COMMA).
Qed.

(** All items of a level. *)
Lemma parse_items fuel it its s t delim p e :
  Forall item_ok (it :: its) -> print_items names true (it :: its) = Some (COMMA :: s) ->
  after t delim p -> delim <> COMMA -> ebitmap_wf e -> (length its < fuel)%nat ->
  exists e', parse_cats fuel cats (s ++ t) e [] = Done (e', delim, p) [] /\ ebitmap_wf e' /\
    forall b, ebitmap_mem e' b = ebitmap_mem e b || cats_covered (it :: its) b.
Proof.
  revert fuel it s e. induction its as [|it2 its IH]; intros fuel it s e Hok Hs Ha Hd Hw Hf;
    (destruct fuel as [|fuel]; [simpl in Hf; lia|]); apply Forall_cons in Hok as [Hit Hok]; cbn [print_items] in Hs;
    destruct (item_text names it) as [s1|] eqn:E1; cbn in Hs; try done.
  - injection Hs as <-. rewrite app_nil_r.
    destruct (parse_item fuel it s1 t delim p e Hit E1 Ha Hw) as (e1 & Hw1 & Hm1 & ->). exists e1.
    rewrite (proj2 (Z.eqb_neq _ _) Hd). split; [done|]. split; [done|]. intros b. rewrite Hm1. unfold cats_covered. cbn [existsb]. by rewrite orb_false_r.
  - destruct (item_text names it2) as [s2|] eqn:E2; cbn in Hs; [|done].
    destruct (print_items names true its) as [s3|] eqn:E3; cbn in Hs; [|done]. injection Hs as <-.
    rewrite <-app_assoc.
    destruct (parse_item fuel it s1 (COMMA :: (s2 ++ s3) ++ t) COMMA ((s2 ++ s3) ++ t) e Hit E1) as (e1 & Hw1 & Hm1 & E);
      [by right; split; [|left]|done|].
    destruct (IH fuel it2 (s2 ++ s3) e1 Hok) as (e2 & E' & Hw2 & Hm2); [|done..|simpl in Hf; lia|].
    { cbn [print_items]. rewrite E2. cbn. by rewrite E3. }
    exists e2. split; [exact (eq_trans E E')|]. split; [done|]. intros b. rewrite Hm2, Hm1. unfold cats_covered. cbn [existsb]. by rewrite !orb_assoc.
Qed.
End parse.
