(* ===== verification/ContextSpec.v ===== *)
(** * Contexts that are printed are read back *)

From S2P Require Import Prelude Policyfile Ebitmap EbitmapSpec EbitmapQuery EbitmapUpdate Hashtab HashtabSpec Symtab Codec Avtab Policydb.
From S2P Require Import Sepolicy SepolicySpec SepolicyAttr SepolicyAttrProps Symbols CodecTable SymbolsKinds PolicyIndex PolicyIndexSpec PolicyOthersSpec Context ContextText.

(** ** Names *)

(** A symbol table whose names hold none of the delimiters. *)
Definition keys_clean {D} (stop : list Z) (s : symtab D) : Prop :=
  exists h, table s = Some h /\ hashtab_wf cstring_ok h /\ map_Forall (fun k _ => clean stop k) (hashtab_model h).

(** A value that a symbol has. *)
Definition has_symbol {D} (val : D -> option Z) (s : symtab D) (v : Z) (k : list Z) (d : D) : Prop :=
  exists h, table s = Some h /\ hashtab_model h !! k = Some d /\ val d = Some v.

Lemma name_at_symbol {D} (val : D -> option Z) (s : symtab D) l v k :
  symtab_indexed val the_key s l -> 1 <= v -> name_at l (v - 1) = Some k <-> exists d, has_symbol val s v k d.
Proof.
  intros (h & Ht & _ & Hi) Hv. unfold name_at. destruct (Z.ltb_spec (v - 1) 0); [lia|]. specialize (Hi v k Hv).
  transitivity (l !! Z.to_nat (v - 1) = Some (Some k)).
  - destruct (l !! Z.to_nat (v - 1)) as [[x|]|]; cbn; split; congruence.
  - rewrite Hi. split.
    + intros (k' & d & Hk & Hd & ->). exists d, h. done.
    + intros (d & h' & Ht' & Hk & Hd). assert (h' = h) by congruence. subst h'. by exists k, d.
Qed.

Lemma model_key_ok {D} (h : hashtab_val (list Z) D) k d :
  hashtab_wf cstring_ok h -> hashtab_model h !! k = Some d -> cstring_ok k.
Proof.
  intros [Hw _] Hk. apply (table_keys_ok cstring_ok (hsize h) (htable h)); [done|].
  apply elem_of_list_to_map_2, elem_of_pairs in Hk. apply list_elem_of_fmap. by exists (HNode k d).
Qed.

Lemma search_symbol {D} (val : D -> option Z) stop (s : symtab D) v k d :
  keys_clean stop s -> has_symbol val s v k d -> hashtab_search (table s) k = Some d /\ clean stop k /\ cstring_ok k.
Proof.
  intros (h & Ht & Hw & Hc) (h' & Ht' & Hk & _). assert (h' = h) by congruence. subst h'.
  assert (Hck : cstring_ok k) by (by eapply model_key_ok).
  split; [|split; [by apply (Hc k d)|done]]. rewrite Ht. by rewrite (hashtab_search_spec cstring_ok).
Qed.

(** The policies whose contexts have a text: the arrays of names are those of the symbols,
    and the names can be told apart in it. *)
Record names_ok (db : policydb) : Prop := {
  no_index : others_indexed (p_symtab db) (p_index db) (type_val_to_struct db);
  no_users : keys_clean [COLON] (sym_users (p_symtab db));
  no_roles : keys_clean [COLON] (sym_roles (p_symtab db));
  no_types : keys_clean [COLON] (sym_types (p_symtab db));
  no_levels : keys_clean [COLON; DASH] (sym_levels (p_symtab db));
  no_cats : keys_clean [COMMA; DASH; DOT] (sym_cats (p_symtab db));
  no_bound : nprim (sym_cats (p_symtab db)) <= 2 ^ 32 - MAPSIZE
}.

Section levels.
Context (db : policydb).
Hypothesis Hdb : names_ok db.

Let cat_names := names_of SYM_CATS db.
Let cats := table (sym_cats (p_symtab db)).

Lemma cats_are_named : cats_named cat_names cats.
Proof.
  intros i s Hs. assert (Hi : 0 <= i).
  { unfold name_at in Hs. destruct (Z.ltb_spec i 0); [done|lia]. }
  replace i with (i + 1 - 1) in Hs by lia. pose proof (oi_cats _ _ _ (no_index _ Hdb)) as Hix.
  assert (Hlen : i < nprim (sym_cats (p_symtab db))).
  { destruct Hix as (h & _ & Hlen & _). change (names_in (p_index db) SYM_CATS) with cat_names in Hlen. revert Hs. unfold name_at.
    destruct (Z.ltb_spec (i + 1 - 1) 0); [lia|]. destruct (cat_names !! _) as [x|] eqn:E; [|done]. apply lookup_lt_Some in E. lia. }
  apply (name_at_symbol _ _ _ _ _ Hix) in Hs as [d Hd]; [|lia].
  destruct (search_symbol _ _ _ _ _ _ (no_cats _ Hdb) Hd) as (H1 & H2 & _). pose proof (no_bound _ Hdb).
  split; [lia|]. split; [done|]. exists d. split; [done|]. destruct Hd as (_ & _ & _ & Hd). unfold cat_val in Hd.
  destruct (truthy (cat_isalias d)); [done|]. congruence.
Qed.

(** A level of symbols of the policy. *)
Definition level_named (l : mls_level) : Prop :=
  (exists k d, 1 <= sens l /\ has_symbol sens_val (sym_levels (p_symtab db)) (sens l) k d) /\
  ebitmap_wf (cat l) /\ no_gap (node (cat l)) /\
  forall b, ebitmap_mem (cat l) b = true -> exists k d, has_symbol cat_val (sym_cats (p_symtab db)) (b + 1) k d.

Lemma items_print its wrote :
  Forall item_ok its -> (forall b, cats_covered its b = true -> exists s, name_at cat_names b = Some s) ->
  exists text, print_items cat_names wrote its = Some text.
Proof.
  intros Hok. revert wrote. induction Hok as [|it its Hit Hok IH]; intros wrote Hc; [by exists []|].
  destruct (IH true) as [t Ht]; [intros b Hb; apply Hc; unfold cats_covered in *; cbn; by rewrite Hb, orb_true_r|].
  assert (Hi : exists s, item_text cat_names it = Some s).
  { destruct it as [i|i j]; cbn in Hit |- *.
    - apply Hc. cbn. by rewrite Z.eqb_refl.
    - destruct (Hc i) as [s1 E1]; [cbn; by rewrite Z.leb_refl, (proj2 (Z.leb_le i j)) by lia|].
      destruct (Hc j) as [s2 E2]; [cbn; by rewrite Z.leb_refl, (proj2 (Z.leb_le i j)) by lia|].
      rewrite E1, E2. cbn. eauto. }
  destruct Hi as [s Hs]. exists ((if wrote then COMMA else COLON) :: s ++ t). cbn [print_items]. rewrite Hs. cbn. by rewrite Ht.
Qed.

Lemma length_items it its s : print_items cat_names true (it :: its) = Some (COMMA :: s) -> (length its <= length s)%nat.
Proof.
  revert it s. induction its as [|it2 its IH]; intros it s Hs; [simpl; lia|]. cbn [print_items] in Hs.
  destruct (item_text cat_names it) as [s1|]; cbn in Hs; [|done].
  destruct (item_text cat_names it2) as [s2|] eqn:E2; cbn in Hs; [|done].
  destruct (print_items cat_names true its) as [s3|] eqn:E3; cbn in Hs; [|done]. injection Hs as <-.
  specialize (IH it2 (s2 ++ s3)). cbn [print_items] in IH. rewrite E2 in IH. cbn in IH. rewrite E3 in IH. specialize (IH eq_refl).
  rewrite length_app. simpl length. lia.
Qed.

(** The text of a level: its sensitivity, and its items behind ':'. *)
Lemma level_text l :
  level_named l ->
  exists k d its t, has_symbol sens_val (sym_levels (p_symtab db)) (sens l) k d /\ print_level db l = Some (k ++ t) /\
    level_len db l = Some (Z.of_nat (length (k ++ t))) /\ print_items cat_names false its = Some t /\ Forall item_ok its /\
    forall b, cats_covered its b = ebitmap_mem (cat l) b.
Proof.
  intros ((k & d & Hs1 & Hs) & Hw & Hg & Hc). pose proof (linked_visits _ (wf_nodes _ Hw) Hg) as Hl.
  assert (Hlast : ebitmap_length (cat l) = last_highbit (node (cat l))).
  { unfold ebitmap_length. rewrite (wf_highbit _ Hw). by destruct (node (cat l)). }
  destruct (items_cover _ _ Hl) as [[Hok Hcov] _]. set (its := cat_items _ _ _) in *.
  assert (Hcov' : forall b, cats_covered its b = ebitmap_mem (cat l) b).
  { intros b. apply eq_true_iff_eq. by rewrite Hcov, elem_of_visits. }
  destruct (items_print its false Hok) as [t Ht].
  { intros b Hb. rewrite Hcov' in Hb. destruct (Hc b Hb) as (k' & d' & H'). exists k'.
    replace b with (b + 1 - 1) by lia. apply (name_at_symbol _ _ _ _ _ (oi_cats _ _ _ (no_index _ Hdb))); [|eauto].
    pose proof (mem_nonneg _ _ Hw Hb). lia. }
  assert (Hk : name_at (names_of SYM_LEVELS db) (sens l - 1) = Some k).
  { apply (name_at_symbol _ _ _ _ _ (oi_levels _ _ _ (no_index _ Hdb))); eauto. }
  assert (Hp : print_cats cat_names (visits (node (cat l))) (ebitmap_length (cat l)) 0 false = Some t).
  { rewrite (proj1 (print_cats_items _ _ _)), Hlast. exact Ht. }
  exists k, d, its, t. split; [done|]. unfold print_level, level_len. rewrite Hk, ebitmap_each_bit_ok by done. cbn.
  fold cat_names. rewrite Hp. cbn. rewrite (cats_len_text _ _ _ _ _ _ Hp). cbn. rewrite length_app.
  split_and!; try done. f_equal. lia.
Qed.

(** What follows a level is nothing or '-' and the high level. *)
Definition level_end (stop : list Z) (t : list Z) (delim : Z) (p : list Z) : Prop :=
  t = [] /\ delim = 0 /\ p = [] \/ t = DASH :: p /\ delim = DASH /\ stop = [COLON; DASH].

(** A level is read back from its text. *)
Lemma parse_level_text l stop text t delim p :
  level_named l -> print_level db l = Some text -> stop = [COLON; DASH] \/ stop = [COLON] -> level_end stop t delim p ->
  let '(name, d0, p0) := scan stop (text ++ t) in
  parse_level db name d0 p0 mls_level_init [] = Done (l, delim, p) [].
Proof.
  intros Hl Hp Hstop Hend. destruct (level_text l Hl) as (k & d & its & ct & Hk & Hp' & _ & Hi & Hok & Hcov).
  rewrite Hp in Hp'. injection Hp' as ->. destruct (search_symbol _ _ _ _ _ _ (no_levels _ Hdb) Hk) as (Hs & Hc & _).
  assert (Hcs : clean stop k).
  { destruct Hstop as [-> | ->]; [done|]. eapply Forall_impl; [exact Hc|]. intros c. cbn. rewrite !orb_false_iff. tauto. }
  assert (Hlev : exists lev, level d = Some lev /\ sens lev = sens l).
  { destruct Hk as (_ & _ & _ & Hv). unfold sens_val in Hv. destruct (truthy (lev_isalias d)); [done|].
    destruct (level d) as [lev|]; [|done]. exists lev. split; [done|]. cbn in Hv. congruence. }
  destruct Hlev as (lev & El & Es). unfold parse_level. destruct Hl as (_ & Hw & _ & _).
  destruct its as [|it its]; cbn [print_items] in Hi.
  - injection Hi as <-. rewrite app_nil_r.
    assert (Hcat : cat l = ebitmap_init).
    { apply ebitmap_ext; [done|apply ebitmap_init_empty|]. intros b. by rewrite <-Hcov, (proj2 ebitmap_init_empty). }
    assert (E : scan stop (k ++ t) = (k, delim, p)).
    { destruct Hend as [(-> & -> & ->)|(-> & -> & ->)]; [rewrite app_nil_r; by apply scan_end|by apply scan_stop]. }
    rewrite E, Hs. unfold mbind, comp_bind, found, follow, mret, comp_ret. rewrite El.
    replace (delim =? COLON) with false by (by destruct Hend as [(_ & -> & _)|(_ & -> & _)]).
    rewrite Es. cbn [mls_level_init cat]. destruct l. cbn in *. by rewrite Hcat.
  - destruct (item_text cat_names it) as [s1|] eqn:E1; cbn in Hi; [|done].
    destruct (print_items cat_names true its) as [s2|] eqn:E2; cbn in Hi; [|done]. injection Hi as <-.
    assert (Hps : print_items cat_names true (it :: its) = Some (COMMA :: s1 ++ s2)).
    { cbn [print_items]. rewrite E1. cbn. by rewrite E2. }
    rewrite <-app_assoc. cbn [app].
    rewrite (scan_stop stop k COLON ((s1 ++ s2) ++ t) Hcs) by (by destruct Hstop as [-> | ->]).
    rewrite Hs. unfold mbind, comp_bind, found, follow, mret, comp_ret. rewrite El. cbn [Z.eqb].
    destruct (parse_items cat_names cats cats_are_named (S (length ((s1 ++ s2) ++ t))) it its (s1 ++ s2) t delim p ebitmap_init Hok Hps)
      as (e & Ee & He & Hm).
    { destruct Hend as [?|(-> & -> & _)]; [by left|right; by split; [|right]]. }
    { by destruct Hend as [(_ & -> & _)|(_ & -> & _)]. }
    { apply ebitmap_init_empty. }
    { pose proof (length_items it its _ Hps). rewrite (length_app (s1 ++ s2)). lia. }
    replace (COLON =? COLON) with true by done. change (cat mls_level_init) with ebitmap_init. unfold cats in Ee. rewrite Ee.
    assert (He' : e = cat l).
    { apply ebitmap_ext; [done|done|]. intros b. by rewrite Hm, (proj2 ebitmap_init_empty), Hcov. }
    rewrite Es, He'. by destruct l.
Qed.
End levels.

(** ** Ranges *)

Lemma print_level_cstring db l text : names_ok db -> level_named db l -> print_level db l = Some text -> cstring_ok text.
Proof.
  intros Hdb Hl Hp. destruct (level_text db Hdb l Hl) as (k & d & its & ct & Hk & Hp' & _ & Hi & _ & _).
  rewrite Hp in Hp'. injection Hp' as ->. destruct (search_symbol _ _ _ _ _ _ (no_levels _ Hdb) Hk) as (_ & _ & Hc).
  apply Forall_app. split; [done|]. revert Hi. generalize false. generalize ct. clear - Hdb.
  assert (Hname : forall i s, name_at (names_of SYM_CATS db) i = Some s -> cstring_ok s).
  { intros i s Hs. assert (Hi : 0 <= i) by (unfold name_at in Hs; destruct (Z.ltb_spec i 0); [done|lia]).
    replace i with (i + 1 - 1) in Hs by lia. apply (name_at_symbol _ _ _ _ _ (oi_cats _ _ _ (no_index _ Hdb))) in Hs as [d Hd]; [|lia].
    by destruct (search_symbol _ _ _ _ _ _ (no_cats _ Hdb) Hd) as (_ & _ & ?). }
  induction its as [|it its IH]; intros ct w Hi; cbn [print_items] in Hi; [injection Hi as <-; constructor|].
  destruct (item_text _ it) as [s|] eqn:E; cbn in Hi; [|done].
  destruct (print_items _ true its) as [t|] eqn:E2; cbn in Hi; [|done]. injection Hi as <-.
  constructor; [destruct w; unfold COMMA, COLON; lia|]. apply Forall_app. split; [|by eapply IH].
  destruct it as [i|i j]; cbn in E; [by eapply Hname|].
  destruct (name_at _ i) as [s1|] eqn:E3; cbn in E; [|done]. destruct (name_at _ j) as [s2|] eqn:E4; cbn in E; [|done].
  injection E as <-. apply Forall_app. split; [by eapply Hname|]. constructor; [unfold DOT; lia|by eapply Hname].
Qed.

(** The range of a context in a policy with MLS, or no range. *)
Definition range_named (db : policydb) (r : mls_range) : Prop :=
  if p_mls db =? 0 then r = mls_range_init else level_named db (level_low r) /\ level_named db (level_high r).

Lemma attempt_cpy e : attempt (ebitmap_cpy e) [] = Done e [].
Proof. unfold attempt. by rewrite ebitmap_cpy_ok. Qed.

(** The range is printed within the length that was computed, and read back. *)
Lemma range_text db c :
  names_ok db -> range_named db (c_range c) -> p_mls db <> 0 ->
  exists text, mls_sid_to_context db c = Some (COLON :: text) /\
    mls_compute_context_len db c = Some (to_int (1 + Z.of_nat (length text))) /\ cstring_ok text /\
    mls_from_string db text mls_range_init [] = Done (c_range c) [].
Proof.
  intros Hdb Hr Hmls. unfold range_named in Hr. apply Z.eqb_neq in Hmls. rewrite Hmls in Hr. destruct Hr as [Hlow Hhigh].
  destruct (c_range c) as [low high] eqn:Er. cbn [level_low level_high] in *.
  destruct (level_text db Hdb low Hlow) as (k1 & d1 & its1 & t1 & _ & P1 & L1 & _).
  destruct (level_text db Hdb high Hhigh) as (k2 & d2 & its2 & t2 & _ & P2 & L2 & _).
  assert (Hfrom : forall text, mls_from_string db text mls_range_init [] = mls_context_to_sid db 36 text mls_range_init []) by done.
  unfold mls_sid_to_context, mls_compute_context_len. rewrite Hmls, Er. cbn [level_low level_high].
  rewrite P1, L1. cbn [mbind option_bind]. destruct (mls_level_eq low high) eqn:Eq.
  - apply level_eq_same in Eq as <-.
    exists (k1 ++ t1). split; [done|]. split; [done|]. split; [by eapply print_level_cstring|].
    pose proof (parse_level_text db Hdb low [COLON; DASH] (k1 ++ t1) [] 0 [] Hlow P1 (or_introl eq_refl) ltac:(by left)) as Hp.
    rewrite Hfrom. unfold mls_context_to_sid. rewrite Hmls. rewrite app_nil_r in Hp. destruct (scan _ _) as [[name d0] p0].
    cbn [truthy Z.eqb negb require]. unfold mbind, comp_bind, mret, comp_ret in *.
    change (level_low mls_range_init) with mls_level_init. rewrite Hp. cbn [Z.eqb DASH].
    rewrite attempt_cpy. by destruct low.
  - rewrite P2, L2. cbn [mbind option_bind]. exists ((k1 ++ t1) ++ DASH :: k2 ++ t2). split; [done|].
    split; [do 2 f_equal; rewrite (length_app (k1 ++ t1)); simpl; lia|].
    split.
    { apply Forall_app. split; [by eapply (print_level_cstring db low)|]. constructor; [unfold DASH; lia|by eapply (print_level_cstring db high)]. }
    pose proof (parse_level_text db Hdb low [COLON; DASH] (k1 ++ t1) (DASH :: k2 ++ t2) DASH (k2 ++ t2) Hlow P1 (or_introl eq_refl)
      ltac:(by right)) as Hp1.
    pose proof (parse_level_text db Hdb high [COLON] (k2 ++ t2) [] 0 [] Hhigh P2 (or_intror eq_refl) ltac:(by left)) as Hp2.
    rewrite Hfrom. unfold mls_context_to_sid. rewrite Hmls. rewrite app_nil_r in Hp2. destruct (scan [COLON; DASH] _) as [[name d0] p0].
    cbn [truthy Z.eqb negb require]. unfold mbind, comp_bind, mret, comp_ret in *.
    change (level_low mls_range_init) with mls_level_init. rewrite Hp1. replace (DASH =? DASH) with true by done.
    destruct (scan [COLON] _) as [[name2 d2'] p2]. change (level_high mls_range_init) with mls_level_init. by rewrite Hp2.
Qed.

(** ** Contexts *)

(** A context of symbols of the policy. *)
Record context_named (db : policydb) (c : context_struct) : Prop := {
  cn_user : exists k d, 1 <= c_user c /\ has_symbol user_val (sym_users (p_symtab db)) (c_user c) k d;
  cn_role : exists k d, 1 <= c_role c /\ has_symbol role_val (sym_roles (p_symtab db)) (c_role c) k d;
  cn_type : exists k d, 1 <= c_type c /\ has_symbol type_val (sym_types (p_symtab db)) (c_type c) k d /\ ty_flavor d <> TYPE_ATTRIB;
  cn_range : range_named db (c_range c)
}.

(** The text of a context, and the range behind its type. *)
Record has_text (db : policydb) (c : context_struct) (user role type mls : list Z) : Prop := {
  ht_user : exists d, has_symbol user_val (sym_users (p_symtab db)) (c_user c) user d;
  ht_role : exists d, has_symbol role_val (sym_roles (p_symtab db)) (c_role c) role d;
  ht_type : exists d, has_symbol type_val (sym_types (p_symtab db)) (c_type c) type d /\ ty_flavor d <> TYPE_ATTRIB;
  ht_mls : if p_mls db =? 0 then mls = [] /\ c_range c = mls_range_init
           else exists t, mls = COLON :: t /\ cstring_ok t /\ mls_from_string db t mls_range_init [] = Done (c_range c) []
}.

Abbreviation text_of user role type mls := (user ++ COLON :: role ++ COLON :: type ++ mls).

Definition context_text (db : policydb) (c : context_struct) : option (list Z) :=
  user ← name_at (names_of SYM_USERS db) (c_user c - 1);
  role ← name_at (names_of SYM_ROLES db) (c_role c - 1);
  type ← name_at (names_of SYM_TYPES db) (c_type c - 1);
  mls ← mls_sid_to_context db c;
  Some (text_of user role type mls).

Lemma to_int_small x : 0 <= x < 2 ^ 31 -> to_int x = x.
Proof. intros Hx. unfold to_int. rewrite u32_small by lia. destruct (Z.ltb_spec x (2 ^ 31)); lia. Qed.

(** The buffer is large enough. *)
Lemma context_to_string_ok db c :
  names_ok db -> context_named db c ->
  exists user role type mls, has_text db c user role type mls /\ context_text db c = Some (text_of user role type mls) /\
    (Z.of_nat (length (text_of user role type mls)) < 2 ^ 31 ->
     context_to_string db c [] = Done (text_of user role type mls) []).
Proof.
  intros Hdb [(user & du & Hu1 & Hu) (role & dr & Hr1 & Hr) (type & dt & Ht1 & Ht & Hfl) Hrg].
  assert (Hn : name_at (names_of SYM_USERS db) (c_user c - 1) = Some user /\ name_at (names_of SYM_ROLES db) (c_role c - 1) = Some role /\
    name_at (names_of SYM_TYPES db) (c_type c - 1) = Some type).
  { split_and!; [apply (name_at_symbol _ _ _ _ _ (oi_users _ _ _ (no_index _ Hdb)))
    |apply (name_at_symbol _ _ _ _ _ (oi_roles _ _ _ (no_index _ Hdb)))|apply (name_at_symbol _ _ _ _ _ (oi_types _ _ _ (no_index _ Hdb)))]; eauto. }
  destruct Hn as (Nu & Nr & Nt).
  assert (Hm : exists mls, mls_sid_to_context db c = Some mls /\ (if p_mls db =? 0 then mls = [] /\ c_range c = mls_range_init
      else exists t, mls = COLON :: t /\ cstring_ok t /\ mls_from_string db t mls_range_init [] = Done (c_range c) []) /\
    exists n, mls_compute_context_len db c = Some n /\ (Z.of_nat (length mls) < 2 ^ 31 -> n = Z.of_nat (length mls))).
  { destruct (p_mls db =? 0) eqn:E.
    - exists []. unfold mls_sid_to_context, mls_compute_context_len, range_named in *. rewrite E in *. split_and!; eauto.
    - destruct (range_text db c Hdb Hrg (proj1 (Z.eqb_neq _ _) E)) as (t & H1 & H2 & H3 & H4). exists (COLON :: t).
      split; [done|]. split; [eauto|]. eexists. split; [exact H2|]. simpl length. intros Hlt. rewrite to_int_small by lia. lia. }
  destruct Hm as (mls & Hs & Hif & n & Hl & Hn). exists user, role, type, mls. split; [split; eauto|].
  split; [unfold context_text; rewrite Nu, Nr, Nt; cbn; by rewrite Hs|]. intros Hlen.
  unfold context_to_string. rewrite Nu, Nr, Nt, Hl, Hs. unfold mbind, comp_bind, follow, mret, comp_ret. cbn [allocate malloc].
  rewrite !length_app in Hlen. cbn [length] in Hlen. rewrite !length_app in Hlen. cbn [length] in Hlen. rewrite length_app in Hlen.
  rewrite Hn by lia. rewrite usz_small by lia.
  destruct (Z.leb_spec (Z.of_nat (length (text_of user role type mls)) + 1)
    (Z.of_nat (length user) + 1 + (Z.of_nat (length role) + 1) + Z.of_nat (length type) + Z.of_nat (length mls) + 1)) as [_|Hgt]; [done|].
  rewrite length_app in Hgt. cbn [length] in Hgt. rewrite length_app in Hgt. cbn [length] in Hgt. rewrite length_app in Hgt. lia.
Qed.

Lemma text_cstring db c user role type mls :
  names_ok db -> has_text db c user role type mls -> cstring_ok (text_of user role type mls).
Proof.
  intros Hdb [[du Hu] [dr Hr] (dt & Ht & _) Hm].
  destruct (search_symbol _ _ _ _ _ _ (no_users _ Hdb) Hu) as (_ & _ & H1).
  destruct (search_symbol _ _ _ _ _ _ (no_roles _ Hdb) Hr) as (_ & _ & H2).
  destruct (search_symbol _ _ _ _ _ _ (no_types _ Hdb) Ht) as (_ & _ & H3).
  assert (Hc : 1 <= COLON < 2 ^ 8) by (unfold COLON; lia).
  apply Forall_app. split; [done|]. constructor; [done|]. apply Forall_app. split; [done|]. constructor; [done|].
  apply Forall_app. split; [done|]. destruct (p_mls db =? 0); [destruct Hm as [-> _]; constructor|].
  destruct Hm as (t & -> & Hcs & _). by constructor.
Qed.

(** The text is taken apart again. *)
Lemma record_of_text db c user role type mls :
  names_ok db -> has_text db c user role type mls ->
  sepol_context_from_string (text_of user role type mls) [] =
  Done (Some (SepolContext user role type (if p_mls db =? 0 then None else Some (drop 1 mls)))) [].
Proof.
  intros Hdb Ht. pose proof (text_cstring db c _ _ _ _ Hdb Ht) as Hcs. destruct Ht as [[du Hu] [dr Hr] (dt & Ht & _) Hm].
  destruct (search_symbol _ _ _ _ _ _ (no_users _ Hdb) Hu) as (_ & H1 & _).
  destruct (search_symbol _ _ _ _ _ _ (no_roles _ Hdb) Hr) as (_ & H2 & _).
  destruct (search_symbol _ _ _ _ _ _ (no_types _ Hdb) Ht) as (_ & H3 & _).
  unfold sepol_context_from_string. destruct (Z.eqb_spec (strcmp (text_of user role type mls) NONE) 0) as [E|_].
  { apply strcmp_zero in E; [|done|by repeat constructor; lia].
    assert (Hin : COLON ∈ NONE) by (rewrite <-E; apply elem_of_app; right; by left).
    apply list_elem_of_In in Hin. cbn in Hin. unfold COLON in Hin. lia. }
  rewrite (scan_stop [COLON] user COLON) by done. rewrite (scan_stop [COLON] role COLON) by done.
  destruct (p_mls db =? 0).
  - destruct Hm as [-> _]. rewrite app_nil_r, (scan_end [COLON] type) by done. reflexivity.
  - destruct Hm as (t & -> & _). rewrite (scan_stop [COLON] type COLON) by done. reflexivity.
Qed.

(** A valid context is read back from its text. *)
Lemma context_from_text db c user role type mls :
  names_ok db -> has_text db c user role type mls -> Z.of_nat (length (text_of user role type mls)) < 2 ^ 31 ->
  context_is_valid db c = Some true ->
  context_from_string db (text_of user role type mls) [] = Done c [].
Proof.
  intros Hdb Ht Hlen Hv. unfold context_from_string.
  assert (Hpos : 0 < Z.of_nat (length (text_of user role type mls))) by (rewrite length_app; simpl; lia).
  rewrite (proj2 (Z.eqb_neq _ 0)), (proj2 (Z.eqb_neq _ (2 ^ 64 - 1))) by lia. cbn [orb negb require].
  rewrite c_str_id by (by eapply text_cstring).
  unfold mbind at 1 2, comp_bind at 1 2. cbn [mret comp_ret allocate malloc]. unfold mbind at 1, comp_bind at 1.
  rewrite (record_of_text db c) by done. destruct Ht as [(du & Hu) (dr & Hr) (dt & Ht & Hfl) Hm].
  destruct (search_symbol _ _ _ _ _ _ (no_users _ Hdb) Hu) as (S1 & _).
  destruct (search_symbol _ _ _ _ _ _ (no_roles _ Hdb) Hr) as (S2 & _).
  destruct (search_symbol _ _ _ _ _ _ (no_types _ Hdb) Ht) as (S3 & _).
  assert (V : us_value du = c_user c /\ ro_value dr = c_role c /\ ty_value dt = c_type c).
  { destruct Hu as (_ & _ & _ & V1), Hr as (_ & _ & _ & V2), Ht as (_ & _ & _ & V3). unfold user_val, role_val, type_val in *.
    destruct (truthy (ty_primary dt)); [|done]. split_and!; congruence. }
  destruct V as (V1 & V2 & V3). unfold context_from_record. unfold mbind, comp_bind.
  cbn [follow mret comp_ret ctx_user ctx_role ctx_type ctx_mls allocate_all malloc]. rewrite S1, S2, S3. cbn [found mret comp_ret].
  rewrite (proj2 (Z.eqb_neq _ _) Hfl). cbn [negb require mret comp_ret].
  assert (Hc : ContextStruct (us_value du) (ro_value dr) (ty_value dt) (c_range c) = c) by (rewrite V1, V2, V3; by destruct c).
  destruct (p_mls db =? 0).
  - destruct Hm as [_ Hr0]. cbn [negb require mret comp_ret]. rewrite <-Hr0, Hc, Hv. reflexivity.
  - destruct Hm as (t & -> & _ & Hf). cbn [drop negb require mret comp_ret]. rewrite drop_0, Hf, Hc, Hv. reflexivity.
Qed.
