(* ===== verification/ContextSafe.v ===== *)
(** * Whatever the text, reading a context does not crash *)

From S2P Require Import Prelude Policyfile Ebitmap EbitmapSpec EbitmapQuery EbitmapUpdate EbitmapProps Hashtab HashtabSpec Symtab Codec Avtab.
From S2P Require Import Policydb Sepolicy SepolicySpec SepolicyAttr SepolicyAttrProps Symbols CodecTable SymbolsCodec SymbolsKinds SymbolsTrip PolicyIndex PolicyIndexSpec.
From S2P Require Import PolicyOthersSpec SepolicyType SepolicyTypeInv Context ContextText ContextSpec.

(** ** Computations that do not crash *)

(** With enough memory there is still enough at the end. *)
Definition safe {A} (c : comp A) (P : A -> Prop) : Prop :=
  forall o, match c o with Crash => False | Fails o' => o = [] -> o' = [] | Done a o' => (o = [] -> o' = []) /\ P a end.

Lemma safe_ret {A} (P : A -> Prop) a : P a -> safe (mret a) P.
Proof. intros Ha o. by split. Qed.

Lemma safe_failed {A} (P : A -> Prop) : safe failed P.
Proof. by intros o Ho. Qed.

Lemma safe_bind {A B} (c : comp A) (k : A -> comp B) P Q : safe c P -> (forall a, P a -> safe (k a) Q) -> safe (c ≫= k) Q.
Proof.
  intros Hc Hk o. unfold mbind, comp_bind. specialize (Hc o). destruct (c o) as [|o'|a o']; [done..|]. destruct Hc as [Ho Ha].
  specialize (Hk a Ha o'). destruct (k a o') as [|o2|b o2]; [done|by intros ?%Ho%Hk|]. destruct Hk as [Ho2 Hb]. split; [by intros ?%Ho%Ho2|done].
Qed.

Lemma safe_require b : safe (require b) (fun _ => b = true).
Proof. destruct b; [by apply safe_ret|apply safe_failed]. Qed.

Lemma safe_found {A} (x : option A) : safe (found x) (fun a => x = Some a).
Proof. destruct x; [by apply safe_ret|apply safe_failed]. Qed.

Lemma safe_follow {A} (x : option A) a : x = Some a -> safe (follow x) (fun b => b = a).
Proof. intros ->. by apply safe_ret. Qed.

Lemma malloc_memory o ok o' : malloc o = (ok, o') -> o = [] -> ok = true /\ o' = [].
Proof. intros E ->. cbn in E. by injection E as <- <-. Qed.

Lemma safe_allocate : safe allocate (fun _ => True).
Proof.
  intros o. unfold allocate. destruct (malloc o) as [ok o'] eqn:E. pose proof (malloc_memory _ _ _ E) as H.
  destruct ok; [split; [|done]|]; intros Ho; by apply H in Ho as [? ?].
Qed.

Lemma safe_allocate_all n : safe (allocate_all n) (fun _ => True).
Proof.
  induction n as [|n IH]; intros o; cbn [allocate_all]; [done|]. destruct (malloc o) as [ok o'] eqn:E.
  pose proof (malloc_memory _ _ _ E) as H. specialize (IH o'). destruct (allocate_all n o') as [|o2|[] o2]; [done| |].
  - intros [_ Ho]%H. by apply IH.
  - destruct IH as [IH _]. destruct ok; [split; [|done]|]; intros [? Ho]%H; by apply IH.
Qed.

Lemma safe_attempt {A} (f : oracle -> Z * A * oracle) (P : A -> Prop) :
  (forall o, P (f o).1.2) -> (f []).2 = [] -> safe (attempt f) P.
Proof.
  intros Hf Hm o. unfold attempt. specialize (Hf o). destruct (f o) as [[rc a] o'] eqn:E.
  assert (o = [] -> o' = []) by (intros ->; by rewrite E in Hm). by destruct (truthy rc).
Qed.

(** ** Bitmaps *)

Lemma set_bit_wf e bit o : ebitmap_wf e -> 0 <= bit < 2 ^ 32 -> ebitmap_wf (ebitmap_set_bit e bit true o).1.2.
Proof.
  intros Hw Hb. pose proof (ebitmap_set_bit_correct e bit true o Hw Hb) as H. destruct (ebitmap_set_bit e bit true o) as [[rc e'] o'].
  apply H.
Qed.

Lemma set_bit_oracle e bit : (ebitmap_set_bit e bit true []).2 = [].
Proof. destruct (ebitmap_set_bit e bit true []) as [[rc e'] o'] eqn:E. by eapply ebitmap_set_bit_memory. Qed.

Lemma set_bits_wf bits e o : ebitmap_wf e -> Forall (fun b => 0 <= b < 2 ^ 32) bits -> ebitmap_wf (set_bits bits e o).1.2.
Proof.
  intros Hw Hb. revert e o Hw. induction Hb as [|b bits Hb _ IH]; intros e o Hw; cbn [set_bits]; [done|].
  pose proof (set_bit_wf e b o Hw Hb) as H. destruct (ebitmap_set_bit e b true o) as [[rc e'] o']. cbn in H.
  destruct (truthy rc); [done|by apply IH].
Qed.

Lemma set_bits_memory bits e : (set_bits bits e []).2 = [].
Proof.
  revert e. induction bits as [|b bits IH]; intros e; cbn [set_bits]; [done|]. pose proof (set_bit_oracle e b) as H.
  destruct (ebitmap_set_bit e b true []) as [[rc e'] o']. cbn in H. subst o'. destruct (truthy rc); [done|apply IH].
Qed.

Lemma cpy_wf e o : ebitmap_wf e -> ebitmap_wf (ebitmap_cpy e o).1.2.
Proof.
  intros Hw. pose proof (ebitmap_cpy_spec e o) as H. destruct (ebitmap_cpy e o) as [[rc e'] o'].
  destruct H as [[_ ->]|(_ & -> & _)]; [done|apply ebitmap_init_empty].
Qed.

(** ** The parser *)

Lemma scan_shorter stop s t delim rest : scan stop s = (t, delim, rest) -> delim <> 0 -> (length rest < length s)%nat.
Proof.
  revert t. induction s as [|c s IH]; intros t; cbn [scan]; [by intros [= _ <- _]|]. destruct (existsb _ stop).
  - intros [= _ <- <-] _. simpl. lia.
  - destruct (scan stop s) as [[t' d'] r']. intros [= _ <- <-] Hd. specialize (IH _ eq_refl Hd). simpl. lia.
Qed.

Definition cats_words (cats : symbols cat_datum) : Prop := forall k d, hashtab_search cats k = Some d -> word (cat_value d).

Lemma safe_parse_cats fuel cats p e :
  cats_words cats -> ebitmap_wf e -> (length p < fuel)%nat -> safe (parse_cats fuel cats p e) (fun r => ebitmap_wf r.1.1).
Proof.
  intros Hc. revert p e. induction fuel as [|fuel IH]; intros p e Hw Hf; [lia|]. cbn [parse_cats].
  destruct (scan [COMMA; DASH] p) as [[s delim] p'] eqn:Ep. destruct (scan [DOT] s) as [[name dot] rng].
  eapply safe_bind; [apply safe_found|]. intros c Hcd. pose proof (Hc _ _ Hcd) as Hv.
  eapply (safe_bind _ _ ebitmap_wf).
  { apply safe_attempt; [|apply set_bit_oracle]. intros o. apply set_bit_wf; [done|]. apply u32_range. }
  intros e1 Hw1. eapply (safe_bind _ _ ebitmap_wf).
  { destruct (truthy dot); [|by apply safe_ret]. eapply safe_bind; [apply safe_found|]. intros r Hr. pose proof (Hc _ _ Hr) as Hv2.
    eapply safe_bind; [apply safe_require|]. intros _ _. apply safe_attempt; [|apply set_bits_memory]. intros o. apply set_bits_wf; [done|].
    apply Forall_forall. intros x Hx%elem_of_seqZ. unfold word in *. lia. }
  intros e2 Hw2. destruct (Z.eqb_spec delim COMMA) as [->|]; [|by apply safe_ret].
  apply IH; [done|]. pose proof (scan_shorter _ _ _ _ _ Ep ltac:(done)). lia.
Qed.

(** ** What lookups find *)

Lemma search_chain_in {D} key (c : list (hashtab_node (list Z) D)) d : search_chain key c = Some d -> exists k, HNode k d ∈ c.
Proof.
  induction c as [|n c IH]; cbn [search_chain]; [done|]. destruct (0 <? _).
  - intros Hd%IH. destruct Hd as [k Hk]. exists k. by right.
  - destruct (_ =? 0); [|done]. intros [= <-]. exists (hkey n). destruct n. by left.
Qed.

(** For any key, a symbol that is found is one of the table. *)
Lemma search_in_model {D} (h : hashtab_val (list Z) D) key d :
  hashtab_wf cstring_ok h -> hashtab_search (Some h) key = Some d -> exists k, hashtab_model h !! k = Some d.
Proof.
  intros [Hw _] Hs. apply search_chain_in in Hs as [k Hk]. exists k. unfold hashtab_model. apply elem_of_list_to_map.
  - rewrite pairs_keys. by eapply (table_keys_NoDup cstring_ok).
  - apply elem_of_pairs. unfold slot in Hk. destruct (htable h !! Z.to_nat (hash_value (hsize h) key)) as [c|] eqn:E; cbn in Hk;
      [|by apply elem_of_nil in Hk]. apply list_elem_of_In, in_concat. exists c. split; [|by apply list_elem_of_In].
    apply list_elem_of_In. by eapply list_elem_of_lookup_2.
Qed.

Lemma search_ok {D} (ok : list Z -> D -> Prop) (s : symtab D) key d :
  symtab_ok ok s -> hashtab_search (table s) key = Some d -> exists k, ok k d.
Proof.
  intros (h & Ht & Hw & Hok & _) Hs. rewrite Ht in Hs. destruct (search_in_model h key d Hw Hs) as [k Hk]. exists k. by apply Hok.
Qed.

(** The elements of the arrays of structures. *)
Lemma struct_at_ok {D} (val : D -> option Z) (s : symtab D) l v :
  symtab_values val s -> symtab_indexed val the_key s l -> 1 <= v <= nprim s -> exists x, struct_at (table s) l v = Some x.
Proof.
  intros (h & Ht & Hw & _) (h' & Ht' & Hlen & Hi) Hv. assert (h' = h) by congruence. subst h'.
  unfold struct_at. destruct (lookup_lt_is_Some_2 l (Z.to_nat (v - 1))) as [x Hx]; [lia|]. rewrite Hx.
  destruct x as [key|]; [|eauto]. apply Hi in Hx as (k & d & Hk & _ & ->); [|lia]. rewrite Ht.
  rewrite (hashtab_search_spec cstring_ok) by (done || by eapply model_key_ok). rewrite Hk. eauto.
Qed.

(** ** Kernel policies whose arrays are built *)

Section policy.
Context (vers : Z) (db : policydb).
Hypothesis Hkp : kernel_policy vers db.
Hypothesis Hix : others_indexed (p_symtab db) (p_index db) (type_val_to_struct db).

Definition range_wf (r : mls_range) : Prop :=
  (word (sens (level_low r)) /\ ebitmap_wf (cat (level_low r))) /\ (word (sens (level_high r)) /\ ebitmap_wf (cat (level_high r))).

Lemma level_found key d : hashtab_search (table (sym_levels (p_symtab db))) key = Some d ->
  exists lev, level d = Some lev /\ word (sens lev) /\ ebitmap_wf (cat lev).
Proof.
  destruct (kp_symbols _ _ Hkp) as [commons Hs]. intros Hd. destruct (search_ok _ _ _ _ (so_levels _ _ _ Hs) Hd) as (k & _ & _ & _ & lev & El & Hl).
  exists lev. split; [done|]. exact Hl.
Qed.

Lemma safe_parse_level name delim p l :
  ebitmap_wf (cat l) -> safe (parse_level db name delim p l) (fun r => word (sens r.1.1) /\ ebitmap_wf (cat r.1.1)).
Proof.
  intros Hw. unfold parse_level. eapply safe_bind; [apply safe_found|]. intros d Hd. destruct (level_found _ _ Hd) as (lev & El & Hl & _).
  eapply safe_bind; [by apply safe_follow|]. intros _ ->. destruct (delim =? COLON); [|by apply safe_ret].
  eapply safe_bind; [apply safe_parse_cats; [|done|lia]|].
  { destruct (kp_symbols _ _ Hkp) as [commons Hs]. intros k c Hc. by destruct (search_ok _ _ _ _ (so_cats _ _ _ Hs) Hc) as (k' & _ & ? & _). }
  intros [[e d'] p'] He. by apply safe_ret.
Qed.

Lemma safe_mls_from_string str : safe (mls_from_string db str mls_range_init) range_wf.
Proof.
  assert (Hi : ebitmap_wf ebitmap_init) by apply ebitmap_init_empty.
  eapply safe_bind; [apply safe_allocate|]. intros _ _. unfold mls_context_to_sid. destruct (p_mls db =? 0).
  { apply safe_ret. split; (split; [unfold word; cbn; lia|exact Hi]). }
  eapply safe_bind; [apply safe_require|]. intros _ _. destruct (scan _ str) as [[name delim] p].
  eapply safe_bind; [by apply safe_parse_level|]. intros [[low d] p'] Hlow. destruct (d =? DASH).
  - destruct (scan _ p') as [[name2 delim2] p2]. eapply safe_bind; [by apply safe_parse_level|]. intros [[high d2] p3] Hhigh. by apply safe_ret.
  - eapply (safe_bind _ _ ebitmap_wf); [apply safe_attempt; [intros o; apply cpy_wf, Hlow|by rewrite ebitmap_cpy_ok]|]. intros e He. apply safe_ret. by split; [|split; [apply Hlow|]].
Qed.

Lemma check_cats_ok n d bits lev : level d = Some lev -> exists b, check_cats n d bits = Some b.
Proof.
  intros El. induction bits as [|i bits IH]; cbn [check_cats]; [eauto|]. destruct (n <? i); [eauto|]. rewrite El. cbn.
  destruct (truthy _); eauto.
Qed.

Lemma level_isvalid_ok l : word (sens l) -> ebitmap_wf (cat l) -> exists b, level_isvalid db l = Some b.
Proof.
  intros Hs Hw. unfold level_isvalid. destruct (Z.eqb_spec (sens l) 0); cbn [orb]; [eauto|].
  destruct (Z.ltb_spec (nprim (sym_levels (p_symtab db))) (sens l)); [eauto|].
  destruct (oi_levels _ _ _ Hix) as (h & Ht & Hlen & _). change (names_in (p_index db) SYM_LEVELS) with (names_of SYM_LEVELS db) in Hlen.
  destruct (lookup_lt_is_Some_2 (names_of SYM_LEVELS db) (Z.to_nat (sens l - 1))) as [x ->]; [unfold word in Hs; lia|].
  destruct x as [key|]; [|eauto]. destruct (hashtab_search _ key) as [d|] eqn:Ed; [|eauto].
  destruct (level_found _ _ Ed) as (lev & El & _). rewrite ebitmap_positive_bits_correct by done. cbn. by eapply check_cats_ok.
Qed.

Lemma context_is_valid_ok c : word (c_user c) -> word (c_role c) -> range_wf (c_range c) -> exists b, context_is_valid db c = Some b.
Proof.
  intros Hu Hr [[L1 L2] [H1 H2]]. unfold context_is_valid, word in *.
  destruct (Z.eqb_spec (c_role c) 0); cbn [orb]; [eauto|]. destruct (Z.ltb_spec (nprim (sym_roles (p_symtab db))) (c_role c)); [eauto|].
  destruct (Z.eqb_spec (c_user c) 0); cbn [orb]; [eauto|]. destruct (Z.ltb_spec (nprim (sym_users (p_symtab db))) (c_user c)); [eauto|].
  destruct (_ || _); [eauto|].
  destruct (struct_at_ok _ _ _ (c_role c) (kp_roles _ _ Hkp) (oi_role _ _ _ Hix)) as [role Er]; [lia|].
  destruct (struct_at_ok _ _ _ (c_user c) (kp_users _ _ Hkp) (oi_user _ _ _ Hix)) as [user Eu]; [lia|].
  assert (Ha : exists b, (if c_role c =? OBJECT_R_VAL then Some true else role_isvalid db c) = Some b).
  { destruct (_ =? _); [eauto|]. unfold role_isvalid. rewrite Er. cbn. destruct role; [|eauto]. destruct (negb _); [eauto|].
    rewrite Eu. cbn. destruct user; eauto. }
  destruct Ha as [b ->]. cbn. destruct (negb b); [eauto|]. unfold mls_context_isvalid. destruct (p_mls db =? 0); [eauto|].
  destruct (negb _); [eauto|]. destruct (level_isvalid_ok _ L1 L2) as [b1 ->]. cbn. destruct (negb b1); [eauto|].
  destruct (level_isvalid_ok _ H1 H2) as [b2 ->]. cbn. destruct (negb b2); [eauto|]. destruct (_ =? _); [eauto|].
  destruct (_ || _); [eauto|]. rewrite Eu. cbn. destruct user; eauto.
Qed.

Lemma safe_context_from_record record :
  safe (context_from_record db (Some record)) (fun c => context_is_valid db c = Some true).
Proof.
  destruct (kp_symbols _ _ Hkp) as [commons Hs]. unfold context_from_record.
  eapply safe_bind; [by apply safe_follow|]. intros _ ->. eapply safe_bind; [apply safe_allocate_all|]. intros _ _.
  eapply safe_bind; [apply safe_found|]. intros u Hu. eapply safe_bind; [apply safe_found|]. intros r Hr.
  eapply safe_bind; [apply safe_found|]. intros t _. eapply safe_bind; [apply safe_require|]. intros _ _.
  eapply (safe_bind _ _ range_wf).
  { destruct (ctx_mls record) as [mls|]; (eapply safe_bind; [apply safe_require|]; intros _ _); [apply safe_mls_from_string|].
    apply safe_ret. split; (split; [unfold word; cbn; lia|apply ebitmap_init_empty]). }
  intros range Hrange. destruct (search_ok _ _ _ _ (so_users _ _ _ Hs) Hu) as [ku Hku].
  destruct (search_ok _ _ _ _ (so_roles _ _ _ Hs) Hr) as [kr Hkr].
  destruct (context_is_valid_ok (ContextStruct (us_value u) (ro_value r) (ty_value t) range)) as [b Hb];
    [apply Hku|apply Hkr|done|].
  eapply safe_bind; [by apply safe_follow|]. intros _ ->. eapply safe_bind; [apply safe_require|]. intros _ ->. by apply safe_ret.
Qed.

Lemma safe_record str : str <> NONE -> cstring_ok str ->
  safe (sepol_context_from_string str) (fun r => exists record, r = Some record).
Proof.
  intros Hne Hc. unfold sepol_context_from_string. destruct (Z.eqb_spec (strcmp str NONE) 0) as [E|_].
  { apply strcmp_zero in E; [done|done|by repeat constructor; lia]. }
  do 2 (eapply safe_bind; [apply safe_allocate|]; intros _ _). destruct (scan _ str) as [[user d1] low].
  eapply safe_bind; [apply safe_require|]; intros _ _. eapply safe_bind; [apply safe_allocate|]; intros _ _.
  destruct (scan _ low) as [[role d2] low2]. eapply safe_bind; [apply safe_require|]; intros _ _.
  eapply safe_bind; [apply safe_allocate|]; intros _ _. destruct (scan _ low2) as [[type d3] low3].
  eapply safe_bind; [apply safe_allocate|]; intros _ _. destruct (truthy d3).
  - eapply safe_bind; [apply safe_allocate|]; intros _ _. apply safe_ret. eauto.
  - apply safe_ret. eauto.
Qed.

Lemma safe_context_from_string con_str :
  Forall is_byte con_str -> c_str con_str <> NONE ->
  safe (context_from_string db con_str) (fun c => context_is_valid db c = Some true).
Proof.
  intros Hb Hne. unfold context_from_string. eapply safe_bind; [apply safe_require|]. intros _ _.
  eapply safe_bind; [apply safe_allocate|]. intros _ _. eapply safe_bind; [apply safe_record; [done|by apply c_str_ok]|].
  intros r [record ->]. apply safe_context_from_record.
Qed.
End policy.
