(* ===== verification/SepolicyGenfs.v ===== *)
(** * Contexts of file systems (native/src/sepolicy/sepolicy.cpp)

    [add_genfscon] reads a context and writes it to the entry of a file system and a path,
    which is made when there is none.  Lists linked by [next] are lists; a new node is their
    first.  [None] is a crash, as in the other operations of the editor. *)

From S2P Require Import Prelude Policyfile Ebitmap Hashtab HashtabSpec Symtab Codec Avtab Policydb Sepolicy SepolicyAttr Symbols.
From S2P Require Import PolicyIndex SepolicyType Context.

Definition set_genfs (l : list genfs) (db : policydb) : policydb :=
  Policydb (policy_type db) (target_platform db) (policyvers db) (p_symtab db) (te_avtab db) (filename_trans db)
    (filename_trans_count db) (type_val_to_struct db) (type_attr_map db) (attr_type_map db)
    (permissive_map db) (p_mls db) (p_scope db) (p_global db) (p_index db) l.

(** [list_find], or else a new node in front: the list and the place of the node. *)
Definition find_or_add {A} (eq : A -> bool) (new : oracle -> option (A * oracle)) (l : list A) (o : oracle) :
    option (nat * list A * oracle) :=
  match list_find (fun n => eq n = true) l with
  | Some (i, _) => Some (i, l, o)
  | None => '(n, o) ← new o; Some (O, n :: l, o)
  end.

(** [str_eq]. *)
Definition str_eq (a b : list Z) : bool := bool_decide (a = b).

(** A node of zeros with a name; a failed [calloc] is written to. *)
Definition context_init : context_struct := ContextStruct 0 0 0 mls_range_init.

Definition new_genfs (fs_name : list Z) (o : oracle) : option (genfs * oracle) :=
  let (ok, o) := malloc o in
  if ok then '(name, o) ← dup_str fs_name o; Some (Genfs name [], o) else None.

Definition new_ocontext (path : list Z) (o : oracle) : option (ocontext * oracle) :=
  let (ok, o) := malloc o in
  if ok then '(name, o) ← dup_str path o; Some (Ocontext name 0 context_init context_init, o) else None.

(** Both contexts of the node are cleared before the first is written. *)
Definition set_context (ctx : context_struct) (n : ocontext) : ocontext :=
  Ocontext (u_name n) (v_sclass n) ctx context_init.

Definition add_genfscon (fs_name path context : list Z) (s : state) : option (bool * state) :=
  let (db, o) := s in
  match context_from_string db context o with
  | Crash => None
  | Fails o => Some (false, (db, o))
  | Done ctx o =>
      '(i, l, o) ← find_or_add (fun n => str_eq (fstype n) fs_name) (new_genfs fs_name) (p_genfs db) o;
      fs ← l !! i;
      '(j, head, o) ← find_or_add (fun n => str_eq (u_name n) path) (new_ocontext path) (fs_head fs) o;
      Some (true, (set_genfs (<[i := Genfs (fstype fs) (alter (set_context ctx) j head)]> l) db, o))
  end.

(** * The contexts of file systems as a map, and what [add_genfscon] does to it *)

(** The node that [list_find] finds. *)
Definition first {A} (eq : A -> bool) (l : list A) : option A := snd <$> list_find (fun n => eq n = true) l.

(** The entry of a file system and a path. *)
Definition genfs_entry (l : list genfs) (fs path : list Z) : option ocontext :=
  g ← first (fun n => str_eq (fstype n) fs) l;
  first (fun n => str_eq (u_name n) path) (fs_head g).

Lemma first_cons {A} (eq : A -> bool) a l : first eq (a :: l) = if eq a then Some a else first eq l.
Proof.
  unfold first. cbn [list_find]. destruct (eq a) eqn:E.
  - by rewrite decide_True.
  - rewrite decide_False by congruence. by destruct (list_find _ l) as [[]|].
Qed.

(** What a node is found by, and the change of one node that keeps its name. *)
Section named.
Context {A : Type} (name : A -> list Z).

Abbreviation by_name n := (fun a => str_eq (name a) n).

Lemma first_insert l i a b n m :
  list_find (fun x => by_name n x = true) l = Some (i, a) -> name b = name a ->
  first (by_name m) (<[i := b]> l) = if bool_decide (m = n) then Some b else first (by_name m) l.
Proof.
  revert i. induction l as [|x l IH]; intros i; [done|]. cbn [list_find]. destruct (decide _) as [Hx|Hx].
  - intros [= <- <-] Hb. apply bool_decide_eq_true in Hx. change (<[0%nat := b]> (x :: l)) with (b :: l). rewrite !first_cons.
    unfold str_eq. rewrite Hb, Hx.
    destruct (decide (m = n)) as [->|Hne]; [by rewrite !bool_decide_eq_true_2|].
    by rewrite !(bool_decide_eq_false_2 (n = m)), (bool_decide_eq_false_2 (m = n)) by congruence.
  - destruct (list_find _ l) as [[i' a']|] eqn:E; [|done]. intros [= <- <-] Hb. change (<[S i' := b]> (x :: l)) with (x :: <[i' := b]> l).
    rewrite !first_cons. rewrite (IH i') by done. rewrite not_true_iff_false in Hx.
    destruct (decide (m = n)) as [->|Hne]; [by rewrite !bool_decide_eq_true_2, Hx|].
    by rewrite !(bool_decide_eq_false_2 (m = n)).
Qed.

(** A node that is found or added in front, and then changed. *)
Lemma find_or_add_ok l new n o :
  (first (by_name n) l = None -> exists a, new o = Some (a, o) /\ name a = n) ->
  exists i l' a, find_or_add (by_name n) new l o = Some (i, l', o) /\ l' !! i = Some a /\ name a = n /\
    (first (by_name n) l = Some a \/ first (by_name n) l = None /\ new o = Some (a, o)) /\
    forall b m, name b = n -> first (by_name m) (<[i := b]> l') = if bool_decide (m = n) then Some b else first (by_name m) l.
Proof.
  intros Hnew. unfold find_or_add. destruct (list_find (fun x => by_name n x = true) l) as [[i a]|] eqn:E.
  - pose proof E as (Hi & Ha%bool_decide_eq_true & _)%list_find_Some. exists i, l, a. split; [done|]. split; [done|]. split; [done|].
    split; [left; unfold first; by rewrite E|]. intros b m Hb. apply (first_insert l i a b n m E). congruence.
  - assert (Hn : first (by_name n) l = None) by (unfold first; by rewrite E).
    destruct (Hnew Hn) as (a & Ea & Ha). exists 0%nat, (a :: l), a. rewrite Ea. split; [done|]. split; [done|]. split; [done|].
    split; [by right|]. intros b m Hb. change (<[0%nat := b]> (a :: l)) with (b :: l). rewrite first_cons. unfold str_eq. rewrite Hb.
    destruct (decide (m = n)) as [->|Hne]; [by rewrite !bool_decide_eq_true_2|].
    by rewrite (bool_decide_eq_false_2 (n = m)), (bool_decide_eq_false_2 (m = n)) by congruence.
Qed.
End named.

(** The entry of the file system and the path gets the context, other entries stay. *)
Definition genfs_set (l l' : list genfs) (fs path : list Z) (ctx : context_struct) : Prop :=
  (exists sclass, genfs_entry l' fs path = Some (Ocontext path sclass ctx context_init) /\
     sclass = match genfs_entry l fs path with Some n => v_sclass n | None => 0 end) /\
  forall fs' path', (fs', path') <> (fs, path) -> genfs_entry l' fs' path' = genfs_entry l fs' path'.

Lemma new_genfs_ok fs : cstring_ok fs -> new_genfs fs [] = Some (Genfs fs [], []).
Proof. intros Hc. unfold new_genfs, dup_str. cbn. by rewrite c_str_id. Qed.

Lemma new_ocontext_ok path : cstring_ok path -> new_ocontext path [] = Some (Ocontext path 0 context_init context_init, []).
Proof. intros Hc. unfold new_ocontext, dup_str. cbn. by rewrite c_str_id. Qed.

Lemma add_genfscon_done db fs path text ctx :
  context_from_string db text [] = Done ctx [] -> cstring_ok fs -> cstring_ok path ->
  exists l', add_genfscon fs path text (db, []) = Some (true, (set_genfs l' db, [])) /\ genfs_set (p_genfs db) l' fs path ctx.
Proof.
  intros Hctx Hfs Hpath. unfold add_genfscon. rewrite Hctx.
  destruct (find_or_add_ok fstype (p_genfs db) (new_genfs fs) fs []) as (i & l & g & E1 & Hi & Hg & Hor & Hins).
  { intros _. exists (Genfs fs []). by rewrite new_genfs_ok. }
  rewrite E1. cbn [mbind option_bind]. rewrite Hi. cbn [mbind option_bind].
  destruct (find_or_add_ok u_name (fs_head g) (new_ocontext path) path []) as (j & h & n & E2 & Hj & Hn & Hor2 & Hins2).
  { intros _. eexists. by rewrite new_ocontext_ok. }
  rewrite E2. cbn [mbind option_bind]. eexists. split; [reflexivity|].
  assert (Halt : alter (set_context ctx) j h = <[j := set_context ctx n]> h).
  { apply list_eq. intros k. destruct (decide (k = j)) as [->|Hk].
    - rewrite list_lookup_alter_eq, list_lookup_insert_eq by (by eapply lookup_lt_Some). by rewrite Hj.
    - by rewrite list_lookup_alter_ne, list_lookup_insert_ne. }
  rewrite Halt, Hg.
  assert (Hold : forall p, (g' ← first (fun n => str_eq (fstype n) fs) (p_genfs db); first (fun n => str_eq (u_name n) p) (fs_head g')) =
    first (fun n => str_eq (u_name n) p) (fs_head g)).
  { intros p. destruct Hor as [->|[-> Hnew]]; [done|]. rewrite new_genfs_ok in Hnew by done. by injection Hnew as <-. }
  split.
  - exists (v_sclass n). unfold genfs_entry at 1. rewrite Hins, bool_decide_eq_true_2 by done. cbn [mbind option_bind fs_head].
    rewrite Hins2, bool_decide_eq_true_2 by done. split; [unfold set_context; by rewrite Hn|].
    unfold genfs_entry. rewrite Hold. destruct Hor2 as [->|[-> Hnew]]; [done|]. rewrite new_ocontext_ok in Hnew by done. by injection Hnew as <-.
  - intros fs' path' Hne. unfold genfs_entry. rewrite Hins by done. destruct (bool_decide_reflect (fs' = fs)) as [->|Hf]; [|done].
    cbn [mbind option_bind fs_head]. rewrite Hins2 by done. rewrite bool_decide_eq_false_2 by congruence. by rewrite Hold.
Qed.
