(* ===== verification/ContextProps.v ===== *)
(** * The properties of contexts and of [add_genfscon], with concrete instances *)

From S2P Require Import Prelude Policyfile Ebitmap EbitmapSpec EbitmapQuery EbitmapUpdate Hashtab HashtabSpec Symtab Codec Avtab Policydb.
From S2P Require Import Sepolicy SepolicyProps Symbols CodecTable SymbolsKinds SymbolsTrip SymbolsProps PolicyIndex PolicyIndexSpec PolicyOthersSpec SepolicyType SepolicyTypeInv.
From S2P Require Import SepolicyTypeProps Context ContextText ContextSpec ContextSafe SepolicyGenfs.

(** A level and a context of symbols of the policy, whatever their sets of categories. *)
Definition level_symbols (db : policydb) (l : mls_level) : Prop :=
  (exists k d, 1 <= sens l /\ has_symbol sens_val (sym_levels (p_symtab db)) (sens l) k d) /\ ebitmap_wf (cat l) /\
  forall b, ebitmap_mem (cat l) b = true -> exists k d, has_symbol cat_val (sym_cats (p_symtab db)) (b + 1) k d.

Record context_symbols (db : policydb) (c : context_struct) : Prop := {
  cs_user : exists k d, 1 <= c_user c /\ has_symbol user_val (sym_users (p_symtab db)) (c_user c) k d;
  cs_role : exists k d, 1 <= c_role c /\ has_symbol role_val (sym_roles (p_symtab db)) (c_role c) k d;
  cs_type : exists k d, 1 <= c_type c /\ has_symbol type_val (sym_types (p_symtab db)) (c_type c) k d /\ ty_flavor d <> TYPE_ATTRIB;
  cs_range : if p_mls db =? 0 then c_range c = mls_range_init
             else level_symbols db (level_low (c_range c)) /\ level_symbols db (level_high (c_range c))
}.

(** No run of categories ends at the last bit of a bitmap node behind which a gap follows. *)
Definition gapless (c : context_struct) : Prop :=
  no_gap (node (cat (level_low (c_range c)))) /\ no_gap (node (cat (level_high (c_range c)))).

Lemma gapless_named db c : context_symbols db c -> gapless c -> context_named db c.
Proof.
  intros [Hu Hr Ht Hrg] [Hl Hh]. split; [done..|]. unfold range_named, level_named, level_symbols in *.
  destruct (p_mls db =? 0); [done|]. destruct Hrg as [(?&?&?) (?&?&?)]. done.
Qed.

(** The categories 63, 128 and 129: two nodes with a gap between them. *)
Definition gap_cats : ebitmap := Ebitmap [Node 0 (2 ^ 63); Node 128 3] 192.

Lemma gap_cats_wf : ebitmap_wf gap_cats.
Proof. split; [|reflexivity]. split; repeat constructor; vm_compute; try congruence; try done. Qed.

Definition gap_bits : list (Z * bool) := Eval vm_compute in default [] (fst <$> ebitmap_each_bit gap_cats).

(** C11: contexts have a text.  In a policy whose arrays of names are built and whose
    names hold no delimiters, [context_to_string] prints a valid context of symbols of the
    policy within the buffer whose size it computed first, and [context_from_string] reads
    that text back as the same context: the same user, role, type and levels with the same
    sets of categories.  This holds for sets of which no run of categories ends at the last
    bit of a bitmap node that is followed by a gap.  Other sets are misprinted, because the
    loop does not see the gap: the categories 63, 128 and 129 are printed as the range from
    63 to 129. *)
Theorem context_roundtrip db c :
  (names_ok db -> context_symbols db c -> gapless c -> context_is_valid db c = Some true ->
   exists text, context_text db c = Some text /\
     (Z.of_nat (length text) < 2 ^ 31 ->
      context_to_string db c [] = Done text [] /\ context_from_string db text [] = Done c [])) /\
  ebitmap_wf gap_cats /\
  (forall l k c63 c129, cat l = gap_cats ->
     name_at (names_of SYM_LEVELS db) (sens l - 1) = Some k ->
     name_at (names_of SYM_CATS db) 63 = Some c63 -> name_at (names_of SYM_CATS db) 129 = Some c129 ->
     print_level db l = Some (k ++ COLON :: c63 ++ DOT :: c129)).
Proof.
  split; [|split; [exact gap_cats_wf|]].
  - intros Hdb Hc Hg Hv. destruct (context_to_string_ok db c Hdb (gapless_named db c Hc Hg)) as (user & role & type & mls & Ht & Et & Hp).
    exists (text_of user role type mls). split; [done|]. intros Hlen. split; [by apply Hp|]. by apply context_from_text.
  - intros l k c63 c129 Hl Hk H1 H2. unfold print_level. rewrite Hl, Hk. cbn [mbind option_bind].
    replace (ebitmap_each_bit gap_cats) with (Some (gap_bits, 192)) by (vm_compute; reflexivity). cbn [mbind option_bind].
    assert (E : print_cats (names_of SYM_CATS db) gap_bits 192 0 false = Some (COLON :: c63 ++ DOT :: c129)).
    { rewrite (proj1 (print_cats_items _ _ _)). replace (cat_items gap_bits 192 None) with [Range 63 129] by (vm_compute; reflexivity).
      cbn [print_items item_text]. rewrite H1, H2. cbn. by rewrite app_nil_r. }
    by rewrite E.
Qed.

(** The record of "<<none>>" is [NULL]. *)
Lemma none_crashes db con_str :
  c_str con_str = NONE -> Z.of_nat (length con_str) < 2 ^ 64 - 1 -> context_from_string db con_str [] = Crash.
Proof.
  intros E Hl. unfold context_from_string. rewrite E.
  assert (Hpos : con_str <> []) by (intros ->; done).
  rewrite (proj2 (Z.eqb_neq _ 0)), (proj2 (Z.eqb_neq _ (2 ^ 64 - 1))) by (destruct con_str; [done|simpl in *; lia]). reflexivity.
Qed.

(** C20: whatever bytes are given as a context and whichever allocations fail, in a
    kernel policy whose arrays are built [context_from_string] does not crash and returns
    only contexts that are valid in the policy; with the single exception of the text
    "<<none>>", for which the record it goes on with is [NULL]. *)
Theorem context_from_string_safe vers db con_str :
  kernel_policy vers db -> others_indexed (p_symtab db) (p_index db) (type_val_to_struct db) -> Forall is_byte con_str ->
  (c_str con_str <> NONE -> forall o,
     match context_from_string db con_str o with
     | Crash => False
     | Fails _ => True
     | Done c _ => context_is_valid db c = Some true
     end) /\
  (c_str con_str = NONE -> Z.of_nat (length con_str) < 2 ^ 64 - 1 -> context_from_string db con_str [] = Crash).
Proof.
  intros Hkp Hix Hb. split.
  { intros Hne o. pose proof (safe_context_from_string vers db Hkp Hix con_str Hb Hne o) as H.
    destruct (context_from_string db con_str o); [done..|]. apply H. }
  apply none_crashes.
Qed.

(** C12: [add_genfscon] on a text that is no context of the policy returns false and
    changes nothing; otherwise it returns true, the entry of the file system and the path
    holds the context that the text means, with the second context cleared, every other
    entry is as it was, also where file systems or paths occur twice, and nothing else in
    the policy changes.  The text "<<none>>" is the exception: [add_genfscon] crashes on it,
    because it is read as a [NULL] record. *)
Theorem add_genfscon_correct vers db fs path text :
  kernel_policy vers db -> others_indexed (p_symtab db) (p_index db) (type_val_to_struct db) ->
  Forall is_byte text -> Z.of_nat (length text) < 2 ^ 64 - 1 -> cstring_ok fs -> cstring_ok path ->
  (c_str text = NONE -> add_genfscon fs path text (db, []) = None) /\
  (c_str text <> NONE ->
   match context_from_string db text [] with
   | Crash => False
   | Fails _ => add_genfscon fs path text (db, []) = Some (false, (db, []))
   | Done ctx _ =>
       context_is_valid db ctx = Some true /\
       exists l', add_genfscon fs path text (db, []) = Some (true, (set_genfs l' db, [])) /\
         genfs_set (p_genfs db) l' fs path ctx
   end).
Proof.
  intros Hkp Hix Hb Hlen Hfs Hpath. split.
  { intros E. unfold add_genfscon. by rewrite none_crashes. }
  intros Hne. pose proof (safe_context_from_string vers db Hkp Hix text Hb Hne []) as Hs.
  destruct (context_from_string db text []) as [|o|ctx o] eqn:E; [done| |].
  - rewrite (Hs eq_refl) in E. unfold add_genfscon. by rewrite E.
  - destruct Hs as [Ho Hv]. rewrite (Ho eq_refl) in E. split; [done|]. by apply add_genfscon_done.
Qed.

(** ** A policy whose arrays are built *)

Definition ex_built : policydb :=
  match add_type [110; 101] TYPE_TYPE (ex_kernel, []) with Some (_, (db, _)) => db | None => ex_kernel end.

Lemma ex_built_ok : kernel_policy 30 ex_built /\ others_indexed (p_symtab ex_built) (p_index ex_built) (type_val_to_struct ex_built).
Proof.
  destruct ex_types_table as (t & Ht & Hn & Hnel). destruct (kp_types _ _ ex_kernel_ok) as (t0 & Et & Hw & _).
  assert (t0 = t) by (unfold p_types in Ht; congruence). subst t0.
  destruct (add_type_new 30 ex_kernel [110; 101] TYPE_TYPE t ex_kernel_ok Ht Hn (name_fits _ ex_name_ok ltac:(done)) ltac:(by left)
    ltac:(small) Hnel) as (db' & E & Ha & Hk).
  { by rewrite hashtab_find_model by (done || exact ex_name_ok). }
  unfold ex_built. rewrite E. split; [done|]. apply (ta_index _ _ _ _ _ Ha).
Qed.

(** Names are clean, and symbols are found, by computation. *)
Lemma keys_clean_check {D} (val : D -> option Z) stop (s : symtab D) :
  symtab_values val s ->
  match table s with
  | Some h => forallb (fun n => forallb (fun c => negb (existsb (Z.eqb c) stop)) (hkey n)) (concat (htable h))
  | None => false
  end = true -> keys_clean stop s.
Proof.
  intros (h & Ht & Hw & _). rewrite Ht, forallb_forall. intros Hc. exists h. split; [done|]. split; [done|].
  intros k d Hk%elem_of_list_to_map_2%elem_of_pairs. specialize (Hc (HNode k d)). rewrite <-list_elem_of_In, forallb_forall in Hc.
  apply Forall_forall. intros c Hin. specialize (Hc Hk c). rewrite <-list_elem_of_In in Hc. by apply negb_true_iff, Hc.
Qed.

Lemma symbol_check {D} (val : D -> option Z) (P : D -> bool) stop (s : symtab D) v k :
  keys_clean stop s -> cstring_ok k ->
  match hashtab_search (table s) k with Some d => bool_decide (val d = Some v) && P d | None => false end = true ->
  exists d, has_symbol val s v k d /\ P d = true.
Proof.
  intros (h & Ht & Hw & _) Hk. rewrite Ht, (hashtab_search_spec cstring_ok) by done. destruct (hashtab_model h !! k) as [d|] eqn:E; [|done].
  rewrite andb_true_iff, bool_decide_eq_true. intros [Hv HP]. exists d. split; [|done]. by exists h.
Qed.

Lemma ex_names_ok : names_ok ex_built.
Proof.
  destruct ex_built_ok as [Hk Hi]. split; [done|..].
  - apply (keys_clean_check user_val); [apply (kp_users _ _ Hk)|vm_compute; reflexivity].
  - apply (keys_clean_check role_val); [apply (kp_roles _ _ Hk)|vm_compute; reflexivity].
  - apply (keys_clean_check type_val); [apply (kp_types _ _ Hk)|vm_compute; reflexivity].
  - apply (keys_clean_check sens_val); [apply (kp_levels _ _ Hk)|vm_compute; reflexivity].
  - apply (keys_clean_check cat_val); [apply (kp_cats _ _ Hk)|vm_compute; reflexivity].
  - vm_compute. discriminate.
Qed.

(** u:r:t:s-s:c *)
Definition ex_context : context_struct := ContextStruct 1 2 1 (MlsRange (MlsLevel 1 ebitmap_init) (MlsLevel 1 (one 0))).
Definition ex_text : list Z := [117; 58; 114; 58; 116; 58; 115; 45; 115; 58; 99].

Lemma ex_context_symbols : context_symbols ex_built ex_context.
Proof.
  pose proof ex_names_ok as Hn. assert (Hc : forall c, 1 <= c < 2 ^ 8 -> cstring_ok [c]) by (intros c Hc; by repeat constructor; lia).
  destruct (symbol_check user_val (fun _ => true) _ _ 1 [117] (no_users _ Hn) (Hc 117 ltac:(lia)) ltac:(vm_compute; reflexivity)) as (du & Hu & _).
  destruct (symbol_check role_val (fun _ => true) _ _ 2 [114] (no_roles _ Hn) (Hc 114 ltac:(lia)) ltac:(vm_compute; reflexivity)) as (dr & Hr & _).
  destruct (symbol_check type_val (fun d => negb (ty_flavor d =? TYPE_ATTRIB)) _ _ 1 [116] (no_types _ Hn) (Hc 116 ltac:(lia)) ltac:(vm_compute; reflexivity)) as (dt & Ht & Hf).
  destruct (symbol_check sens_val (fun _ => true) _ _ 1 [115] (no_levels _ Hn) (Hc 115 ltac:(lia)) ltac:(vm_compute; reflexivity)) as (ds & Hs & _).
  destruct (symbol_check cat_val (fun _ => true) _ _ 1 [99] (no_cats _ Hn) (Hc 99 ltac:(lia)) ltac:(vm_compute; reflexivity)) as (dc & Hcat & _).
  split.
  - exists [117], du. split; [cbn; lia|exact Hu].
  - exists [114], dr. split; [cbn; lia|exact Hr].
  - exists [116], dt. split; [cbn; lia|]. split; [exact Ht|]. by apply Z.eqb_neq, negb_true_iff.
  - replace (p_mls ex_built =? 0) with false by (vm_compute; reflexivity). split.
    + split; [exists [115], ds; split; [cbn; lia|exact Hs]|]. split; [apply ebitmap_init_empty|]. by intros b Hb.
    + split; [exists [115], ds; split; [cbn; lia|exact Hs]|]. split; [apply one_wf; small|].
      intros b Hb. cbn [level_high ex_context c_range cat] in Hb. rewrite one_mem in Hb by small. apply Z.eqb_eq in Hb as ->. by exists [99], dc.
Qed.

Lemma ex_context_named : context_named ex_built ex_context.
Proof. apply gapless_named; [exact ex_context_symbols|]. by split. Qed.

Lemma context_roundtrip_witness :
  context_to_string ex_built ex_context [] = Done ex_text [] /\ context_from_string ex_built ex_text [] = Done ex_context [].
Proof.
  destruct (context_roundtrip ex_built ex_context) as [Hrt _].
  destruct (Hrt ex_names_ok ex_context_symbols (conj I I) ltac:(vm_compute; reflexivity)) as (text & Ht & H).
  assert (E : context_text ex_built ex_context = Some ex_text) by (vm_compute; reflexivity).
  rewrite E in Ht. injection Ht as <-. apply H. vm_compute. reflexivity.
Defined.

Lemma ex_text_bytes : Forall is_byte ex_text.
Proof. repeat constructor; unfold is_byte; lia. Qed.

Lemma context_from_string_safe_witness :
  (exists c o, context_from_string ex_built ex_text [] = Done c o /\ context_is_valid ex_built c = Some true) /\
  context_from_string ex_built NONE [] = Crash.
Proof.
  destruct ex_built_ok as [Hk Hi].
  destruct (context_from_string_safe 30 ex_built ex_text Hk Hi ex_text_bytes) as [H1 _].
  destruct (context_from_string_safe 30 ex_built NONE Hk Hi ltac:(by repeat constructor; unfold is_byte; lia)) as [_ H2].
  split; [|apply H2; [reflexivity|vm_compute; reflexivity]]. specialize (H1 ltac:(done) []).
  assert (E : context_from_string ex_built ex_text [] = Done ex_context []) by (vm_compute; reflexivity).
  rewrite E in H1. exists ex_context, []. split; [exact E|exact H1].
Defined.

(** genfscon "p" "/" u:r:t:s-s:c *)
Lemma add_genfscon_witness :
  (exists l', add_genfscon [112] [47] ex_text (ex_built, []) = Some (true, (set_genfs l' ex_built, [])) /\
    genfs_set (p_genfs ex_built) l' [112] [47] ex_context) /\
  add_genfscon [112] [47] NONE (ex_built, []) = None.
Proof.
  destruct ex_built_ok as [Hk Hi]. split.
  - destruct (add_genfscon_correct 30 ex_built [112] [47] ex_text Hk Hi ex_text_bytes ltac:(vm_compute; reflexivity)
      ltac:(by repeat constructor; lia) ltac:(by repeat constructor; lia)) as [_ H].
    specialize (H ltac:(done)).
    assert (E : context_from_string ex_built ex_text [] = Done ex_context []) by (vm_compute; reflexivity).
    rewrite E in H. exact (proj2 H).
  - destruct (add_genfscon_correct 30 ex_built [112] [47] NONE Hk Hi ltac:(by repeat constructor; unfold is_byte; lia) ltac:(vm_compute; reflexivity)
      ltac:(by repeat constructor; lia) ltac:(by repeat constructor; lia)) as [H _]. exact (H eq_refl).
Defined.
