(* ===== verification/PolicySections.v ===== *)
(** * The sections of a binary policy behind the rules (libsepol/src/policydb.c, write.c)

    Role transitions and role allows, the contexts of initial SIDs, file systems, ports,
    network interfaces and nodes, and the contexts of genfs, as [policydb_read] reads and
    [policydb_write] writes them for SELinux policies.  Contexts are tested against the
    policy whose symbols have been read and indexed before. *)

From S2P Require Import Prelude Policyfile Ebitmap EbitmapSpec EbitmapProps Hashtab HashtabSpec Symtab Codec Avtab Policydb Sepolicy.
From S2P Require Import Symbols CodecTable SymbolsCodec SymbolsKinds PolicyIndex Context SepolicyGenfs.

Definition POLICYDB_VERSION_ROLETRANS : Z := 26.

(** A loop that collects what it reads. *)
Definition rd_list {A} (n : Z) (r : reader A) : reader (list A) :=
  rd_loop (Z.to_nat n) (fun l => a ← r; mret (l ++ [a])) [].

(** ** Roles *)

Record role_trans := RoleTrans { rt_role : Z; rt_type : Z; rt_tclass : Z; rt_new_role : Z }.
Record role_allow := RoleAllow { ra_role : Z; ra_new_role : Z }.

Section roles.
Context (policy_type policyvers process_class : Z).

Definition new_roletr : bool := (policy_type =? POLICY_KERN) && (POLICYDB_VERSION_ROLETRANS <=? policyvers).

Definition read_role_trans : reader role_trans :=
  rd_alloc;;
  buf ← rd_entry 12;
  tclass ← (if new_roletr then buf ← rd_entry 4; mret (le32_at buf 0) else mret process_class : reader Z);
  mret (RoleTrans (le32_at buf 0) (le32_at buf 1) tclass (le32_at buf 2)).

Definition role_trans_read : reader (list role_trans) :=
  buf ← rd_entry 4;
  rd_list (le32_at buf 0) read_role_trans.

Definition written_trans (tr : role_trans) : bool := new_roletr || (rt_tclass tr =? process_class).

Definition role_trans_write (l : list role_trans) : writer :=
  let l := List.filter written_trans l in
  (wr_words [Z.of_nat (length l)];;;
   wr_each (fun tr =>
     wr_words [rt_role tr; rt_type tr; rt_new_role tr];;;
     (if new_roletr then wr_words [rt_tclass tr] else wr_ret)) l)%writer.
End roles.

Definition role_allow_read : reader (list role_allow) :=
  buf ← rd_entry 4;
  rd_list (le32_at buf 0) (rd_alloc;; buf ← rd_entry 8; mret (RoleAllow (le32_at buf 0) (le32_at buf 1))).

Definition role_allow_write (l : list role_allow) : writer :=
  (wr_words [Z.of_nat (length l)];;;
   wr_each (fun ra => wr_words [ra_role ra; ra_new_role ra]) l)%writer.

(** ** Contexts *)

Section contexts.
Context (db : policydb).

Definition has_range : bool :=
  (policy_type db =? POLICY_KERN) && (POLICYDB_VERSION_MLS <=? policyvers db) ||
  (policy_type db =? POLICY_BASE) && (MOD_POLICYDB_VERSION_MLS <=? policyvers db).

(** A test of the context that crashes ends the reading as well. *)
Definition context_read_and_validate : reader context_struct :=
  buf ← rd_entry 12;
  range ← (if has_range then mls_read_range_helper else mret mls_range_init);
  let c := ContextStruct (le32_at buf 0) (le32_at buf 1) (le32_at buf 2) range in
  rd_require (bool_decide (context_is_valid db c = Some true));;
  mret c.

Definition context_write (c : context_struct) : writer :=
  (wr_words [c_user c; c_role c; c_type c];;;
   (if has_range then mls_write_range_helper (c_range c) else wr_ret))%writer.

(** ** Object contexts *)

Definition OCON_ISID : nat := 0.
Definition IB_DEVICE_NAME_MAX : Z := 64.
Definition UINT8_MAX : Z := 255.
Definition UINT16_MAX : Z := 65535.

(** The union [u] of [ocontext_t] by the member that is used.  Addresses in network order
    are the numbers that their bytes are in memory. *)
Inductive ocontext_u : Type :=
| UNone
| UName (name : list Z)
| UPort (protocol low_port high_port : Z)
| UNode (addr mask : Z)
| UNode6 (addr mask : list Z)
| UIbpkey (subnet_prefix low_pkey high_pkey : Z)
| UIbendport (dev_name : list Z) (port : Z).

(** An entry of [p->ocontexts[i]]. *)
Record ocon := Ocon {
  oc_u : ocontext_u;
  oc_behavior : Z;
  oc_sid : Z;
  ocon_context0 : context_struct;
  ocon_context1 : context_struct
}.

Definition is_saturated32 (x : Z) : bool := x =? UINT32_MAX.

(** The words of [buf] from [i] on. *)
Definition le32_from (buf : list Z) (i n : nat) : list Z := map (le32_at buf) (seq i n).

(** The body of the switch for the kind [i]: 0 is [OCON_ISID], 1 [OCON_FS], 2 [OCON_PORT],
    3 [OCON_NETIF], 4 [OCON_NODE], 5 [OCON_FSUSE], 6 [OCON_NODE6], 7 [OCON_IBPKEY] and 8
    [OCON_IBENDPORT]. *)
Definition read_ocon (i : nat) : reader ocon :=
  rd_alloc;;
  match i with
  | 0%nat =>
      buf ← rd_entry 4;
      rd_require (negb (is_saturated32 (le32_at buf 0)));;
      c ← context_read_and_validate;
      mret (Ocon UNone 0 (le32_at buf 0) c context_init)
  | 1%nat | 3%nat =>
      buf ← rd_entry 4;
      rd_require (negb (63 <? le32_at buf 0));;
      name ← str_read (le32_at buf 0);
      c0 ← context_read_and_validate;
      c1 ← context_read_and_validate;
      mret (Ocon (UName name) 0 0 c0 c1)
  | 7%nat =>
      buf ← rd_entry 16;
      rd_require (negb ((UINT16_MAX <? le32_at buf 2) || (UINT16_MAX <? le32_at buf 3)));;
      c ← context_read_and_validate;
      mret (Ocon (UIbpkey (le64_at buf 0) (le32_at buf 2) (le32_at buf 3)) 0 0 c context_init)
  | 8%nat =>
      buf ← rd_entry 8;
      rd_require (negb ((le32_at buf 0 =? 0) || (IB_DEVICE_NAME_MAX - 1 <? le32_at buf 0)));;
      rd_require (negb ((UINT8_MAX <? le32_at buf 1) || (le32_at buf 1 =? 0)));;
      name ← str_read (le32_at buf 0);
      c ← context_read_and_validate;
      mret (Ocon (UIbendport name (le32_at buf 1)) 0 0 c context_init)
  | 2%nat =>
      buf ← rd_entry 12;
      c ← context_read_and_validate;
      mret (Ocon (UPort (u8 (le32_at buf 0)) (u16 (le32_at buf 1)) (u16 (le32_at buf 2))) 0 0 c context_init)
  | 4%nat =>
      buf ← rd_entry 8;
      c ← context_read_and_validate;
      mret (Ocon (UNode (le32_at buf 0) (le32_at buf 1)) 0 0 c context_init)
  | 5%nat =>
      buf ← rd_entry 8;
      name ← str_read (le32_at buf 1);
      c ← context_read_and_validate;
      mret (Ocon (UName name) (le32_at buf 0) 0 c context_init)
  | 6%nat =>
      buf ← rd_entry 32;
      c ← context_read_and_validate;
      mret (Ocon (UNode6 (le32_from buf 0 4) (le32_from buf 4 4)) 0 0 c context_init)
  | _ => rd_fail
  end.

Definition read_ocons (i : nat) : reader (list ocon) :=
  buf ← rd_entry 4;
  rd_list (le32_at buf 0) (read_ocon i).

Fixpoint ocontext_read_from (i ocon_num : nat) : reader (list (list ocon)) :=
  match ocon_num with
  | O => mret []
  | S n => l ← read_ocons i; ls ← ocontext_read_from (S i) n; mret (l :: ls)
  end.

Definition ocontext_read_selinux (ocon_num : nat) : reader (list (list ocon)) := ocontext_read_from 0 ocon_num.

(** Initial SIDs without a context are left out; the union holds the member of the kind. *)
Definition written_ocon (i : nat) (c : ocon) : bool :=
  negb ((i =? OCON_ISID)%nat && (c_user (ocon_context0 c) =? 0)).

Definition write_ocon (i : nat) (c : ocon) : writer :=
  (match i, oc_u c with
   | 0%nat, _ => wr_words [oc_sid c];;; context_write (ocon_context0 c)
   | 1%nat, UName name | 3%nat, UName name =>
       wr_words [Z.of_nat (length name)];;; wr_put 1 (Z.of_nat (length name)) name;;;
       context_write (ocon_context0 c);;; context_write (ocon_context1 c)
   | 7%nat, UIbpkey prefix low high =>
       wr_put 4 4 (le_bytes 8 prefix ++ words [low; high]);;; context_write (ocon_context0 c)
   | 8%nat, UIbendport name port =>
       wr_words [Z.of_nat (length name); port];;; wr_put 1 (Z.of_nat (length name)) name;;;
       context_write (ocon_context0 c)
   | 2%nat, UPort protocol low high => wr_words [protocol; low; high];;; context_write (ocon_context0 c)
   | 4%nat, UNode addr mask => wr_words [addr; mask];;; context_write (ocon_context0 c)
   | 5%nat, UName name =>
       wr_words [oc_behavior c; Z.of_nat (length name)];;; wr_put 1 (Z.of_nat (length name)) name;;;
       context_write (ocon_context0 c)
   | 6%nat, UNode6 addr mask => wr_words (addr ++ mask);;; context_write (ocon_context0 c)
   | _, _ => wr_ret
   end)%writer.

Definition write_ocons (i : nat) (l : list ocon) : writer :=
  let l := List.filter (written_ocon i) l in
  (wr_words [Z.of_nat (length l)];;; wr_each (write_ocon i) l)%writer.

Fixpoint ocontext_write_from (i : nat) (ls : list (list ocon)) : writer :=
  match ls with
  | [] => wr_ret
  | l :: ls' => (write_ocons i l;;; ocontext_write_from (S i) ls')%writer
  end.

Definition ocontext_write_selinux (ls : list (list ocon)) : writer := ocontext_write_from 0 ls.

(** ** genfs *)

(** The place of a new file system in the list, which is sorted by name: the nodes before
    and after it, or [None] for a name that is there. *)
Fixpoint genfs_place (fs : list Z) (l : list genfs) : option (list genfs * list genfs) :=
  match l with
  | [] => Some ([], [])
  | g :: l' =>
      let cmp := strcmp fs (fstype g) in
      if cmp =? 0 then None
      else if cmp <? 0 then Some ([], l)
      else '(before, rest) ← genfs_place fs l'; Some (g :: before, rest)
  end.

(** Two entries that exclude each other. *)
Definition genfs_conflict (new c : ocontext) : bool :=
  (strcmp (u_name new) (u_name c) =? 0) &&
  ((v_sclass c =? 0) || (v_sclass new =? 0) || (v_sclass new =? v_sclass c)).

(** A new entry goes before the first shorter name; only entries before it are compared. *)
Fixpoint genfs_insert (new : ocontext) (l : list ocontext) : option (list ocontext) :=
  match l with
  | [] => Some [new]
  | c :: l' =>
      if genfs_conflict new c then None
      else if (length (u_name c) <? length (u_name new))%nat then Some (new :: l)
      else l' ← genfs_insert new l'; Some (c :: l')
  end.

Definition read_genfs_entry (head : list ocontext) : reader (list ocontext) :=
  rd_alloc;;
  buf ← rd_entry 4;
  name ← str_read (le32_at buf 0);
  buf ← rd_entry 4;
  c ← context_read_and_validate;
  match genfs_insert (Ocontext name (le32_at buf 0) c context_init) head with
  | Some head => mret head
  | None => rd_fail
  end.

Definition read_genfs (l : list genfs) : reader (list genfs) :=
  buf ← rd_entry 4;
  rd_alloc;;
  fs ← str_read (le32_at buf 0);
  match genfs_place fs l with
  | None => rd_fail
  | Some (before, rest) =>
      buf ← rd_entry 4;
      head ← rd_loop (Z.to_nat (le32_at buf 0)) read_genfs_entry [];
      mret (before ++ Genfs fs head :: rest)
  end.

Definition genfs_read : reader (list genfs) :=
  buf ← rd_entry 4;
  rd_loop (Z.to_nat (le32_at buf 0)) read_genfs (p_genfs db).

Definition write_genfs_entry (c : ocontext) : writer :=
  (wr_words [Z.of_nat (length (u_name c))];;; wr_put 1 (Z.of_nat (length (u_name c))) (u_name c);;;
   wr_words [v_sclass c];;; context_write (oc_context0 c))%writer.

Definition write_genfs (g : genfs) : writer :=
  (wr_words [Z.of_nat (length (fstype g))];;; wr_put 1 (Z.of_nat (length (fstype g))) (fstype g);;;
   wr_words [Z.of_nat (length (fs_head g))];;; wr_each write_genfs_entry (fs_head g))%writer.

Definition genfs_write : writer :=
  (wr_words [Z.of_nat (length (p_genfs db))];;; wr_each write_genfs (p_genfs db))%writer.
End contexts.

(** * Reading back the sections behind the rules *)

(** ** Lists *)

Lemma decodes_last {A B} (r : reader A) (k : A -> reader B) bs a b :
  decodes r bs a -> decodes (k a) [] b -> decodes (r ≫= k) bs b.
Proof. intros Hr Hk. rewrite <-(app_nil_r bs). by eapply decodes_bind. Qed.

Lemma decodes_list {A} (r : reader A) (bytes : A -> list Z) l :
  Forall (fun a => decodes r (bytes a) a) l -> decodes (rd_list (Z.of_nat (length l)) r) (concat (map bytes l)) l.
Proof.
  intros Hl. unfold rd_list. rewrite Nat2Z.id.
  destruct (decodes_loop (fun l => a ← r; mret (l ++ [a])) bytes (fun pre s => s = pre) l []) as (s & Hd & ->); [done| |done].
  intros pre a post s E ->. exists (pre ++ [a]). split; [|done]. eapply decodes_last; [|apply decodes_ret]. rewrite E in Hl. by apply Forall_app in Hl as [_ [Ha _]%Forall_cons].
Qed.

(** A counted list. *)
Definition list_bytes {A} (bytes : A -> list Z) (l : list A) : list Z :=
  words [Z.of_nat (length l)] ++ concat (map bytes l).

Definition counted {A} (l : list A) : Prop := Z.of_nat (length l) < 2 ^ 32.

Lemma decodes_counted {A} (r : reader A) (bytes : A -> list Z) l :
  counted l -> Forall (fun a => decodes r (bytes a) a) l ->
  decodes (buf ← rd_entry 4; rd_list (le32_at buf 0) r) (list_bytes bytes l) l.
Proof.
  intros Hc Hl. unfold list_bytes. eapply decodes_bind; [by apply (decodes_words 1)|]. rewrite le32_first by (unfold counted in Hc; lia).
  by apply decodes_list.
Qed.

Lemma emits_counted {A} (w : A -> writer) (bytes : A -> list Z) l :
  Forall (fun a => emits (w a) (bytes a)) l -> emits (wr_seq (wr_words [Z.of_nat (length l)]) (wr_each w l)) (list_bytes bytes l).
Proof. intros Hl. apply emits_seq; [apply emits_words; simpl; lia|by apply emits_each]. Qed.

Ltac emit_word := apply emits_seq; [apply emits_words; simpl; lia|].

(** ** Roles *)

Section roles.
Context (kind vers process_class : Z).

Definition trans_bytes (tr : role_trans) : list Z :=
  words [rt_role tr; rt_type tr; rt_new_role tr] ++ (if new_roletr kind vers then words [rt_tclass tr] else []).

Definition trans_ok (tr : role_trans) : Prop :=
  word (rt_role tr) /\ word (rt_type tr) /\ word (rt_tclass tr) /\ word (rt_new_role tr) /\
  (new_roletr kind vers = false -> rt_tclass tr = process_class).

Lemma emits_role_trans l : Forall trans_ok l -> emits (role_trans_write kind vers process_class l) (list_bytes trans_bytes l).
Proof.
  intros Hl. unfold role_trans_write.
  assert (E : List.filter (written_trans kind vers process_class) l = l).
  { induction Hl as [|tr l (_ & _ & _ & _ & Ht) _ IH]; [done|]. cbn [List.filter]. unfold written_trans at 1.
    destruct (new_roletr kind vers); cbn [orb]; [by rewrite IH|]. rewrite Ht, Z.eqb_refl, IH by done. done. }
  rewrite E. apply emits_counted. apply Forall_forall. intros tr _. unfold trans_bytes. emit_word.
  destruct (new_roletr kind vers); [apply emits_words; simpl; lia|apply emits_ret].
Qed.

Lemma decodes_role_trans l : counted l -> Forall trans_ok l ->
  decodes (role_trans_read kind vers process_class) (list_bytes trans_bytes l) l.
Proof.
  intros Hc Hl. apply decodes_counted; [done|]. eapply Forall_impl; [exact Hl|]. intros [r t c n] (H1 & H2 & H3 & H4 & H5).
  cbn in H1, H2, H3, H4, H5. unfold read_role_trans, trans_bytes. cbn [rt_role rt_type rt_tclass rt_new_role].
  eapply decodes_step; [apply decodes_alloc|]. eapply decodes_bind; [by apply (decodes_words 3)|].
  rewrite !le32_next, !le32_first by done. eapply (decodes_last _ _ _ c).
  - destruct (new_roletr kind vers); [|rewrite H5 by done; apply decodes_ret].
    eapply decodes_last; [by apply (decodes_words 1)|]. rewrite le32_first by done. apply decodes_ret.
  - apply decodes_ret.
Qed.
End roles.

Definition allow_bytes (ra : role_allow) : list Z := words [ra_role ra; ra_new_role ra].
Definition allow_ok (ra : role_allow) : Prop := word (ra_role ra) /\ word (ra_new_role ra).

Lemma emits_allow l : emits (role_allow_write l) (list_bytes allow_bytes l).
Proof. apply emits_counted, Forall_forall. intros ra _. apply emits_words. simpl. lia. Qed.

Lemma decodes_allow l : counted l -> Forall allow_ok l -> decodes role_allow_read (list_bytes allow_bytes l) l.
Proof.
  intros Hc Hl. apply decodes_counted; [done|]. eapply Forall_impl; [exact Hl|]. intros [r n] [H1 H2]. cbn in H1, H2.
  unfold allow_bytes. eapply decodes_step; [apply decodes_alloc|]. eapply decodes_last; [by apply (decodes_words 2)|]. cbn [ra_role ra_new_role]. rewrite !le32_next, !le32_first by done. apply decodes_ret.
Qed.

(** ** Contexts *)

Section contexts.
Context (db : policydb).

Definition context_bytes (c : context_struct) : list Z :=
  words [c_user c; c_role c; c_type c] ++ (if has_range db then range_bytes (c_range c) else []).

(** A context that the policy can store and accepts. *)
Record context_ok (c : context_struct) : Prop := {
  co_user : word (c_user c);
  co_role : word (c_role c);
  co_type : word (c_type c);
  co_range : range_ok (c_range c);
  co_plain : has_range db = false -> c_range c = mls_range_init;
  co_valid : context_is_valid db c = Some true
}.

Lemma emits_context c : context_ok c -> emits (context_write db c) (context_bytes c).
Proof.
  intros Hc. unfold context_write, context_bytes. emit_word. destruct (has_range db); [apply emits_range, Hc|apply emits_ret].
Qed.

Lemma decodes_context c : context_ok c -> decodes (context_read_and_validate db) (context_bytes c) c.
Proof.
  intros [H1 H2 H3 H4 H5 H6]. unfold context_read_and_validate, context_bytes.
  eapply decodes_bind; [by apply (decodes_words 3)|]. rewrite !le32_next, !le32_first by done.
  eapply (decodes_last _ _ _ (c_range c)).
  - destruct (has_range db); [by apply decodes_range|]. rewrite H5 by done. apply decodes_ret.
  - cbn zeta. replace (ContextStruct (c_user c) (c_role c) (c_type c) (c_range c)) with c by (by destruct c).
    eapply decodes_step; [apply decodes_require; by apply bool_decide_eq_true|apply decodes_ret].
Qed.

(** ** Object contexts *)

(** The entries of a kind as the reader makes them. *)
Definition ocon_ok (i : nat) (c : ocon) : Prop :=
  context_ok (ocon_context0 c) /\
  match i, oc_u c with
  | 0%nat, UNone => oc_behavior c = 0 /\ word (oc_sid c) /\ oc_sid c <> UINT32_MAX /\ ocon_context1 c = context_init
  | 1%nat, UName name | 3%nat, UName name =>
      oc_behavior c = 0 /\ oc_sid c = 0 /\ key_fits32 name /\ (length name <= 63)%nat /\ context_ok (ocon_context1 c)
  | 7%nat, UIbpkey prefix low high =>
      oc_behavior c = 0 /\ oc_sid c = 0 /\ ocon_context1 c = context_init /\
      0 <= prefix < 2 ^ 64 /\ 0 <= low <= UINT16_MAX /\ 0 <= high <= UINT16_MAX
  | 8%nat, UIbendport name port =>
      oc_behavior c = 0 /\ oc_sid c = 0 /\ ocon_context1 c = context_init /\
      key_fits32 name /\ (length name <= 63)%nat /\ 1 <= port <= UINT8_MAX
  | 2%nat, UPort protocol low high =>
      oc_behavior c = 0 /\ oc_sid c = 0 /\ ocon_context1 c = context_init /\
      0 <= protocol < 2 ^ 8 /\ 0 <= low < 2 ^ 16 /\ 0 <= high < 2 ^ 16
  | 4%nat, UNode addr mask =>
      oc_behavior c = 0 /\ oc_sid c = 0 /\ ocon_context1 c = context_init /\ word addr /\ word mask
  | 5%nat, UName name => word (oc_behavior c) /\ oc_sid c = 0 /\ ocon_context1 c = context_init /\ key_fits32 name
  | 6%nat, UNode6 addr mask =>
      oc_behavior c = 0 /\ oc_sid c = 0 /\ ocon_context1 c = context_init /\
      exists a b c d e f g h, addr = [a; b; c; d] /\ mask = [e; f; g; h] /\ Forall word [a; b; c; d; e; f; g; h]
  | _, _ => False
  end.

Definition ocon_bytes (i : nat) (c : ocon) : list Z :=
  match i, oc_u c with
  | 0%nat, _ => words [oc_sid c] ++ context_bytes (ocon_context0 c)
  | 1%nat, UName name | 3%nat, UName name =>
      words [Z.of_nat (length name)] ++ name ++ context_bytes (ocon_context0 c) ++ context_bytes (ocon_context1 c)
  | 7%nat, UIbpkey prefix low high => (le_bytes 8 prefix ++ words [low; high]) ++ context_bytes (ocon_context0 c)
  | 8%nat, UIbendport name port => words [Z.of_nat (length name); port] ++ name ++ context_bytes (ocon_context0 c)
  | 2%nat, UPort protocol low high => words [protocol; low; high] ++ context_bytes (ocon_context0 c)
  | 4%nat, UNode addr mask => words [addr; mask] ++ context_bytes (ocon_context0 c)
  | 5%nat, UName name => words [oc_behavior c; Z.of_nat (length name)] ++ name ++ context_bytes (ocon_context0 c)
  | 6%nat, UNode6 addr mask => words (addr ++ mask) ++ context_bytes (ocon_context0 c)
  | _, _ => []
  end.

Lemma emits_key32 name : key_fits32 name -> emits (wr_put 1 (Z.of_nat (length name)) name) name.
Proof. intros (_ & _ & Hl). apply emits_put; lia. Qed.

Ltac ocon_cases c H :=
  let u := fresh "u" in let b := fresh "b" in let s := fresh "s" in let c0 := fresh "c0" in let c1 := fresh "c1" in
  destruct c as [u b s c0 c1]; cbn [oc_u oc_behavior oc_sid ocon_context0 ocon_context1] in H |- *.

Lemma emits_ocon i c : ocon_ok i c -> emits (write_ocon db i c) (ocon_bytes i c).
Proof.
  unfold ocon_ok, write_ocon, ocon_bytes. intros H. ocon_cases c H. destruct H as [H0 H].
  destruct i as [|[|[|[|[|[|[|[|[|i]]]]]]]]], u; try done.
  - emit_word. by apply emits_context.
  - destruct H as (_ & _ & Hk & _ & H1). emit_word. apply emits_seq; [by apply emits_key32|]. apply emits_seq; by apply emits_context.
  - emit_word. by apply emits_context.
  - destruct H as (_ & _ & Hk & _ & H1). emit_word. apply emits_seq; [by apply emits_key32|]. apply emits_seq; by apply emits_context.
  - emit_word. by apply emits_context.
  - destruct H as (_ & _ & _ & Hk). emit_word. apply emits_seq; [by apply emits_key32|]. by apply emits_context.
  - destruct H as (_ & _ & _ & a & b' & c' & d & e & f & g & h & -> & -> & _). emit_word. by apply emits_context.
  - apply emits_seq; [|by apply emits_context]. apply emits_put; rewrite ?length_app, ?length_words_bytes, ?length_le_bytes; simpl; lia.
  - destruct H as (_ & _ & _ & Hk & _). emit_word. apply emits_seq; [by apply emits_key32|]. by apply emits_context.
Qed.

Lemma decodes_key32 name : key_fits32 name -> decodes (str_read (Z.of_nat (length name))) name name.
Proof. intros (H1 & H2 & H3). by apply decodes_str. Qed.

Lemma name_word name : key_fits32 name -> word (Z.of_nat (length name)).
Proof. intros (_ & _ & H3). unfold word. lia. Qed.

Ltac rd_words n := eapply decodes_bind; [by apply (decodes_words n)|].

Lemma pkey_prefix p ws : 0 <= p < 2 ^ 64 -> le64_at (le_bytes 8 p ++ ws) 0 = p.
Proof.
  intros Hp. unfold le64_at. rewrite drop_0, take_app_le, take_ge by (rewrite length_le_bytes; lia). by apply le_val_le_bytes.
Qed.

Lemma pkey_low p low high : 0 <= low < 2 ^ 32 -> le32_at (le_bytes 8 p ++ words [low; high]) 2 = low.
Proof. intros Hl. apply (le32_at_app (le_bytes 8 p) low (words [high])); [done|reflexivity|by rewrite length_le_bytes]. Qed.

Lemma pkey_high p low high : 0 <= high < 2 ^ 32 -> le32_at (le_bytes 8 p ++ words [low; high]) 3 = high.
Proof.
  intros Hh. change (words [low; high]) with (le_bytes 4 low ++ words [high]). rewrite app_assoc.
  apply (le32_at_app (le_bytes 8 p ++ le_bytes 4 low) high []); [done|reflexivity|by rewrite length_app, !length_le_bytes].
Qed.

Lemma decodes_ocon i c : ocon_ok i c -> decodes (read_ocon db i) (ocon_bytes i c) c.
Proof.
  unfold ocon_ok, read_ocon, ocon_bytes. intros H. ocon_cases c H. destruct H as [H0 H].
  eapply decodes_step; [apply decodes_alloc|].
  destruct i as [|[|[|[|[|[|[|[|[|i]]]]]]]]], u; try done.
  - destruct H as (-> & Hs & Hne & ->). rd_words 1%nat. rewrite le32_first by done.
    eapply decodes_step; [apply decodes_require; unfold is_saturated32; by rewrite (proj2 (Z.eqb_neq _ _) Hne)|].
    eapply decodes_last; [by apply decodes_context|apply decodes_ret].
  - destruct H as (-> & -> & Hk & Hl & H1). rd_words 1%nat. rewrite le32_first by (by apply name_word).
    eapply decodes_step; [apply decodes_require; apply negb_true_iff, Z.ltb_ge; lia|].
    eapply decodes_bind; [by apply decodes_key32|]. eapply decodes_bind; [by apply decodes_context|].
    eapply decodes_last; [by apply decodes_context|apply decodes_ret].
  - destruct H as (-> & -> & -> & Hp & Hlo & Hhi). rd_words 3%nat. rewrite !le32_next, !le32_first by (unfold word; lia).
    eapply decodes_last; [by apply decodes_context|]. unfold u8, u16. rewrite !Z.mod_small by lia. apply decodes_ret.
  - destruct H as (-> & -> & Hk & Hl & H1). rd_words 1%nat. rewrite le32_first by (by apply name_word).
    eapply decodes_step; [apply decodes_require; apply negb_true_iff, Z.ltb_ge; lia|].
    eapply decodes_bind; [by apply decodes_key32|]. eapply decodes_bind; [by apply decodes_context|].
    eapply decodes_last; [by apply decodes_context|apply decodes_ret].
  - destruct H as (-> & -> & -> & Ha & Hm). rd_words 2%nat. rewrite !le32_next, !le32_first by done.
    eapply decodes_last; [by apply decodes_context|apply decodes_ret].
  - destruct H as (Hb & -> & -> & Hk). rd_words 2%nat. rewrite !le32_next, !le32_first by (done || by apply name_word).
    eapply decodes_bind; [by apply decodes_key32|]. eapply decodes_last; [by apply decodes_context|apply decodes_ret].
  - destruct H as (-> & -> & -> & x0 & x1 & x2 & x3 & x4 & x5 & x6 & x7 & -> & -> & Hw). cbn [app]. rd_words 8%nat.
    rewrite !Forall_cons in Hw. destruct Hw as (? & ? & ? & ? & ? & ? & ? & ? & _).
    eapply decodes_last; [by apply decodes_context|]. unfold le32_from. cbn [seq map].
    rewrite !le32_next, !le32_first by done. apply decodes_ret.
  - destruct H as (-> & -> & -> & Hp & Hlo & Hhi). unfold UINT16_MAX in *.
    eapply decodes_bind; [apply decodes_entry; [by rewrite length_app, length_le_bytes, length_words_bytes|done]|].
    rewrite pkey_prefix, pkey_low, pkey_high by lia.
    eapply decodes_step; [apply decodes_require; apply negb_true_iff, orb_false_iff; split; apply Z.ltb_ge; lia|].
    eapply decodes_last; [by apply decodes_context|apply decodes_ret].
  - destruct H as (-> & -> & -> & Hk & Hl & Hp). unfold UINT8_MAX, IB_DEVICE_NAME_MAX in *. rd_words 2%nat.
    rewrite !le32_next, !le32_first by (unfold word in *; lia || by apply name_word).
    assert (length dev_name <> 0%nat) by (destruct Hk as (_ & Hne & _); by destruct dev_name).
    eapply decodes_step; [apply decodes_require; apply negb_true_iff, orb_false_iff; split; [apply Z.eqb_neq; lia|apply Z.ltb_ge; lia]|].
    eapply decodes_step; [apply decodes_require; apply negb_true_iff, orb_false_iff; split; [apply Z.ltb_ge; lia|apply Z.eqb_neq; lia]|].
    eapply decodes_bind; [by apply decodes_key32|]. eapply decodes_last; [by apply decodes_context|apply decodes_ret].
Qed.

(** A section: the lists of the kinds from [i] on. *)
Definition ocons_ok (i : nat) (l : list ocon) : Prop := counted l /\ Forall (ocon_ok i) l.

Fixpoint sections_ok (i : nat) (ls : list (list ocon)) : Prop :=
  match ls with [] => True | l :: ls' => ocons_ok i l /\ sections_ok (S i) ls' end.

Fixpoint sections_bytes (i : nat) (ls : list (list ocon)) : list Z :=
  match ls with [] => [] | l :: ls' => list_bytes (ocon_bytes i) l ++ sections_bytes (S i) ls' end.

Lemma valid_user c : context_is_valid db c = Some true -> c_user c <> 0.
Proof.
  unfold context_is_valid. destruct (_ || _); [done|]. destruct (c_user c =? 0) eqn:E; [done|]. by apply Z.eqb_neq in E.
Qed.

Lemma all_written i l : Forall (ocon_ok i) l -> List.filter (written_ocon i) l = l.
Proof.
  induction 1 as [|c l Hc _ IH]; [done|]. cbn [List.filter]. unfold written_ocon at 1.
  rewrite (proj2 (Z.eqb_neq _ _) (valid_user _ (co_valid _ (proj1 Hc)))), andb_false_r, IH. done.
Qed.

Lemma emits_sections i ls : sections_ok i ls -> emits (ocontext_write_from db i ls) (sections_bytes i ls).
Proof.
  revert i. induction ls as [|l ls IH]; intros i; [intros; apply emits_ret|]. intros [[_ Hl] Hls].
  apply emits_seq; [|by apply IH]. unfold write_ocons. rewrite all_written by done. apply emits_counted.
  eapply Forall_impl; [exact Hl|apply emits_ocon].
Qed.

Lemma decodes_sections i ls :
  sections_ok i ls -> decodes (ocontext_read_from db i (length ls)) (sections_bytes i ls) ls.
Proof.
  revert i. induction ls as [|l ls IH]; intros i; [intros; apply decodes_ret|]. intros [[Hc Hl] Hls]. cbn [ocontext_read_from sections_bytes length].
  eapply decodes_bind; [apply decodes_counted; [done|]; eapply Forall_impl; [exact Hl|apply decodes_ocon]|].
  eapply decodes_last; [by apply IH|apply decodes_ret].
Qed.
End contexts.
