(* ===== verification/PolicyGenfsSpec.v ===== *)
(** * Reading back the contexts of file systems

    The reader sorts what it reads: file systems by name, their entries by decreasing
    length of the path.  Entries of the same path keep their order. *)

From Stdlib Require Import Sorted.
From S2P Require Import Prelude Policyfile Ebitmap EbitmapSpec EbitmapProps Hashtab HashtabSpec Symtab Codec Avtab Policydb Sepolicy.
From S2P Require Import SepolicyAttr Symbols CodecTable SymbolsCodec SymbolsKinds PolicyIndex SepolicyType Context SepolicyGenfs PolicySections.

(** ** Entries of a file system *)

(** The entries of a path, in order. *)
Definition of_path (path : list Z) (l : list ocontext) : list ocontext := List.filter (fun c => str_eq (u_name c) path) l.

Definition longer (a b : ocontext) : Prop := (length (u_name b) <= length (u_name a))%nat.

Definition apart (a b : ocontext) : Prop := genfs_conflict b a = false.

Lemma of_path_app path l1 l2 : of_path path (l1 ++ l2) = of_path path l1 ++ of_path path l2.
Proof. apply List.filter_app. Qed.

Lemma of_path_shorter path l : Forall (fun c => length (u_name c) < length path)%nat l -> of_path path l = [].
Proof.
  induction 1 as [|c l Hc _ IH]; [done|]. cbn [of_path List.filter]. unfold str_eq at 1.
  rewrite bool_decide_eq_false_2; [exact IH|]. intros E. rewrite E in Hc. lia.
Qed.

Lemma genfs_insert_ok new l :
  StronglySorted longer l -> Forall (fun c => apart c new) l ->
  exists l', genfs_insert new l = Some l' /\ StronglySorted longer l' /\ l' ≡ₚ new :: l /\
    forall path, of_path path l' = of_path path (l ++ [new]).
Proof.
  induction 1 as [|c l Hs IH Hc]; intros Ha.
  { exists [new]. split; [done|]. split; [repeat constructor|]. done. }
  apply Forall_cons in Ha as [Hn Ha]. cbn [genfs_insert]. unfold apart in Hn. rewrite Hn.
  destruct (Nat.ltb_spec (length (u_name c)) (length (u_name new))) as [Hlt|Hge].
  - assert (Hall : Forall (fun x => length (u_name x) < length (u_name new))%nat (c :: l)).
    { constructor; [done|]. eapply Forall_impl; [exact Hc|]. unfold longer. intros; simpl in *; lia. }
    exists (new :: c :: l). split; [done|]. split; [|split; [done|]].
    + constructor; [by constructor|]. eapply Forall_impl; [exact Hall|]. unfold longer. intros; simpl in *; lia.
    + intros path. rewrite of_path_app. change (new :: c :: l) with ([new] ++ (c :: l)). rewrite of_path_app.
      destruct (decide (u_name new = path)) as [<-|Hp].
      * by rewrite (of_path_shorter _ _ Hall), app_nil_r.
      * assert (of_path path [new] = []) as -> by (cbn; unfold str_eq; by rewrite bool_decide_eq_false_2). by rewrite app_nil_r.
  - destruct (IH Ha) as (l' & -> & Hs' & Hp & Hf). cbn [mbind option_bind]. exists (c :: l'). split; [done|]. split; [|split].
    + constructor; [done|]. rewrite Hp. constructor; [done|exact Hc].
    + rewrite Hp. constructor.
    + intros path. change (c :: l') with ([c] ++ l'). change ((c :: l) ++ [new]) with ([c] ++ (l ++ [new])). by rewrite !(of_path_app path [c]), Hf.
Qed.

(** ** File systems *)

Definition before (a b : genfs) : Prop := strcmp (fstype a) (fstype b) < 0.

Abbreviation named fs := (fun n => str_eq (fstype n) fs).

Lemma first_app {A} (eq : A -> bool) l1 l2 : first eq (l1 ++ l2) = match first eq l1 with Some a => Some a | None => first eq l2 end.
Proof. induction l1 as [|a l1 IH]; [done|]. rewrite <-app_comm_cons, !first_cons. by destruct (eq a). Qed.

Lemma first_named_none fs l : fs ∉ (fstype <$> l) -> first (named fs) l = None.
Proof.
  induction l as [|g l IH]; [done|]. rewrite fmap_cons, not_elem_of_cons, first_cons. intros [Hne Hni].
  unfold str_eq at 1. rewrite bool_decide_eq_false_2 by done. by apply IH.
Qed.

Lemma genfs_place_ok fs head l :
  cstring_ok fs -> Forall (fun g => cstring_ok (fstype g)) l -> Sorted before l -> fs ∉ (fstype <$> l) ->
  exists l1 l2, genfs_place fs l = Some (l1, l2) /\ l = l1 ++ l2 /\ Sorted before (l1 ++ Genfs fs head :: l2).
Proof.
  intros Hfs Hl Hs Hni. induction Hs as [|g l Hs IH Hd]; [by exists [], []; repeat constructor|].
  apply Forall_cons in Hl as [Hg Hl]. rewrite fmap_cons, not_elem_of_cons in Hni. destruct Hni as [Hne Hni].
  cbn [genfs_place]. cbn zeta. rewrite (proj2 (Z.eqb_neq _ 0)) by (rewrite strcmp_zero; done).
  assert (strcmp fs (fstype g) <> 0) by (rewrite strcmp_zero; done).
  destruct (Z.ltb_spec (strcmp fs (fstype g)) 0) as [Hlt|Hge].
  - exists [], (g :: l). split; [done|]. split; [done|]. constructor; [by constructor|]. by constructor.
  - destruct (IH Hl Hni) as (l1 & l2 & -> & -> & Hs'). cbn [mbind option_bind]. exists (g :: l1), l2. split; [done|]. split; [done|].
    cbn [app]. constructor; [done|]. destruct l1 as [|a l1]; cbn [app] in *.
    + constructor. unfold before. cbn [fstype]. rewrite strcmp_flip. lia.
    + inversion Hd; subst. by constructor.
Qed.

(** ** Bytes *)

Section genfs.
Context (db : policydb).

Record entry_ok (c : ocontext) : Prop := {
  en_name : key_fits32 (u_name c);
  en_sclass : word (v_sclass c);
  en_context : context_ok db (oc_context0 c);
  en_second : oc_context1 c = context_init
}.

Record node_ok (g : genfs) : Prop := {
  no_name : key_fits32 (fstype g);
  no_count : counted (fs_head g);
  no_entries : Forall entry_ok (fs_head g);
  no_apart : StronglySorted apart (fs_head g)
}.

(** What the policy can store: each file system once, and no two entries that exclude
    each other. *)
Record genfs_ok (l : list genfs) : Prop := {
  ge_count : counted l;
  ge_nodes : Forall node_ok l;
  ge_names : NoDup (fstype <$> l)
}.

Definition entry_bytes (c : ocontext) : list Z :=
  words [Z.of_nat (length (u_name c))] ++ u_name c ++ words [v_sclass c] ++ context_bytes db (oc_context0 c).

Definition node_bytes (g : genfs) : list Z :=
  words [Z.of_nat (length (fstype g))] ++ fstype g ++ list_bytes entry_bytes (fs_head g).

Lemma emits_entry c : entry_ok c -> emits (write_genfs_entry db c) (entry_bytes c).
Proof.
  intros [Hn Hs Hc _]. unfold write_genfs_entry, entry_bytes. emit_word. apply emits_seq; [by apply emits_key32|]. emit_word. by apply emits_context.
Qed.

Lemma emits_node g : node_ok g -> emits (write_genfs db g) (node_bytes g).
Proof.
  intros [Hn _ He _]. unfold write_genfs, node_bytes. emit_word. apply emits_seq; [by apply emits_key32|]. apply emits_counted.
  eapply Forall_impl; [exact He|apply emits_entry].
Qed.

Lemma decodes_entry_into c head :
  entry_ok c -> StronglySorted longer head -> Forall (fun x => apart x c) head ->
  exists head', decodes (read_genfs_entry db head) (entry_bytes c) head' /\ StronglySorted longer head' /\
    head' ≡ₚ c :: head /\ forall path, of_path path head' = of_path path (head ++ [c]).
Proof.
  intros [Hn Hsc Hc H1] Hs Ha. destruct (genfs_insert_ok c head Hs Ha) as (head' & E & H). exists head'. split; [|exact H].
  unfold read_genfs_entry, entry_bytes. eapply decodes_step; [apply decodes_alloc|].
  eapply decodes_bind; [by apply (decodes_words 1)|]. rewrite le32_first by (by apply name_word).
  eapply decodes_bind; [by apply decodes_key32|]. eapply decodes_bind; [by apply (decodes_words 1)|]. rewrite le32_first by done.
  eapply decodes_last; [by apply decodes_context|].
  replace (Ocontext (u_name c) (v_sclass c) (oc_context0 c) context_init) with c by (destruct c; cbn in H1; by subst).
  rewrite E. apply decodes_ret.
Qed.

Lemma apart_before pre c post : StronglySorted apart (pre ++ c :: post) -> Forall (fun x => apart x c) pre.
Proof.
  induction pre as [|a pre IH]; [done|]. cbn [app]. intros [Hs Hf]%StronglySorted_inv. constructor; [|by apply IH].
  rewrite Forall_app, Forall_cons in Hf. apply Hf.
Qed.

Lemma decodes_head l :
  Forall entry_ok l -> StronglySorted apart l ->
  exists head, decodes (rd_loop (length l) (read_genfs_entry db) []) (concat (map entry_bytes l)) head /\
    StronglySorted longer head /\ head ≡ₚ l /\ forall path, of_path path head = of_path path l.
Proof.
  intros Hl Ha.
  apply (decodes_loop (read_genfs_entry db) entry_bytes (fun pre head => StronglySorted longer head /\ head ≡ₚ pre /\ forall path, of_path path head = of_path path pre)).
  { split; [constructor|]. by split. }
  intros pre c post head E (Hs & Hp & Hf). rewrite E in Hl, Ha. apply Forall_app in Hl as [_ [Hc _]%Forall_cons].
  destruct (decodes_entry_into c head Hc Hs) as (head' & Hd & Hs' & Hp' & Hf').
  { rewrite Hp. by eapply apart_before. }
  exists head'. split; [done|]. split; [done|]. split; [by rewrite Hp', Hp, Permutation_app_comm|].
  intros path. by rewrite Hf', !of_path_app, Hf.
Qed.

(** The entries of a file system and a path, in order. *)
Definition genfs_entries (l : list genfs) (fs path : list Z) : list ocontext :=
  match first (named fs) l with Some g => of_path path (fs_head g) | None => [] end.

(** What is read: sorted, with the same file systems and the same entries of each path. *)
Record genfs_read_as (l l' : list genfs) : Prop := {
  gr_sorted : Sorted before l';
  gr_heads : Forall (fun g => StronglySorted longer (fs_head g)) l';
  gr_names : fstype <$> l' ≡ₚ fstype <$> l;
  gr_entries : forall fs path, genfs_entries l' fs path = genfs_entries l fs path
}.

Lemma entries_add l1 l2 g h l path fs :
  (fstype g) ∉ (fstype <$> (l1 ++ l2)) -> (fstype g) ∉ (fstype <$> l) -> fstype h = fstype g ->
  (forall p, of_path p (fs_head h) = of_path p (fs_head g)) ->
  genfs_entries (l1 ++ l2) fs path = genfs_entries l fs path ->
  genfs_entries (l1 ++ h :: l2) fs path = genfs_entries (l ++ [g]) fs path.
Proof.
  unfold genfs_entries. intros Hn1 Hn2 Hh Hp IH. rewrite !first_app, !first_cons in *. rewrite Hh.
  destruct (decide (fstype g = fs)) as [<-|Hne].
  - rewrite fmap_app, not_elem_of_app in Hn1. assert (str_eq (fstype g) (fstype g) = true) as -> by (by apply bool_decide_eq_true_2).
    rewrite (first_named_none _ l1), (first_named_none _ l) by (done || apply Hn1). apply Hp.
  - assert (str_eq (fstype g) fs = false) as -> by (by apply bool_decide_eq_false_2). rewrite IH. by destruct (first _ l).
Qed.

Lemma decodes_node g pre l :
  node_ok g -> genfs_read_as pre l -> Forall (fun g => cstring_ok (fstype g)) pre -> fstype g ∉ (fstype <$> pre) ->
  exists l', decodes (read_genfs db l) (node_bytes g) l' /\ genfs_read_as (pre ++ [g]) l'.
Proof.
  intros [Hn Hc He Ha] [Hs Hh Hns Hes] Hpre Hni.
  destruct (decodes_head (fs_head g) He Ha) as (head & Hd & Hsh & Hph & Hfh).
  assert (Hni' : fstype g ∉ (fstype <$> l)) by (by rewrite Hns).
  assert (Hl : Forall (fun g => cstring_ok (fstype g)) l).
  { apply (Forall_fmap fstype cstring_ok). rewrite Hns. by apply Forall_fmap. }
  destruct (genfs_place_ok (fstype g) head l (proj1 Hn) Hl Hs Hni') as (l1 & l2 & E & -> & Hs').
  exists (l1 ++ Genfs (fstype g) head :: l2). split.
  - unfold read_genfs, node_bytes, list_bytes. eapply decodes_bind; [by apply (decodes_words 1)|]. rewrite le32_first by (by apply name_word).
    eapply decodes_step; [apply decodes_alloc|]. eapply decodes_bind; [by apply decodes_key32|]. rewrite E.
    eapply decodes_bind; [by apply (decodes_words 1)|]. rewrite le32_first by (unfold counted in Hc; unfold word; lia). rewrite Nat2Z.id.
    eapply decodes_last; [exact Hd|apply decodes_ret].
  - split; [done|..].
    + apply Forall_app in Hh as [Hh1 Hh2]. apply Forall_app; split; [done|]. by constructor.
    + rewrite !fmap_app, fmap_cons in *. cbn [fmap list_fmap fstype]. rewrite <-Hns, <-Permutation_middle. by rewrite Permutation_cons_append.
    + intros fs path. by apply entries_add.
Qed.

Definition genfs_bytes (l : list genfs) : list Z := list_bytes node_bytes l.

Lemma decodes_genfs l : genfs_ok l -> p_genfs db = [] -> exists l', decodes (genfs_read db) (genfs_bytes l) l' /\ genfs_read_as l l'.
Proof.
  intros [Hc Hl Hnd] E0. unfold genfs_read. rewrite E0.
  destruct (decodes_loop (read_genfs db) node_bytes genfs_read_as l []) as (l' & Hd & Hr).
  - split; [constructor..| |]; done.
  - intros pre g post s E Hr. rewrite E in Hl, Hnd. apply Forall_app in Hl as [Hpre [Hg _]%Forall_cons].
    apply decodes_node; [done..| |].
    + eapply Forall_impl; [exact Hpre|]. intros x Hx. apply (no_name _ Hx).
    + rewrite fmap_app, fmap_cons, NoDup_app in Hnd. destruct Hnd as (_ & Hd & _). intros Hin. apply (Hd _ Hin). by left.
  - exists l'. split; [|done]. unfold genfs_bytes, list_bytes. eapply decodes_bind; [by apply (decodes_words 1)|].
    rewrite le32_first by (unfold counted in Hc; unfold word; lia). by rewrite Nat2Z.id.
Qed.

Lemma emits_genfs : genfs_ok (p_genfs db) -> emits (genfs_write db) (genfs_bytes (p_genfs db)).
Proof. intros [_ Hl _]. apply emits_counted. eapply Forall_impl; [exact Hl|apply emits_node]. Qed.
End genfs.

(** Policies that accept the same contexts store the same lists. *)
Section same.
Context (db1 db2 : policydb).
Hypothesis Hrange : has_range db1 = has_range db2.
Hypothesis Hvalid : forall c, 0 <= c_role c -> context_is_valid db1 c = context_is_valid db2 c.

Lemma context_ok_same c : context_ok db1 c -> context_ok db2 c.
Proof. intros [H1 H2 H3 H4 H5 H6]. rewrite Hrange in H5. rewrite Hvalid in H6 by apply H2. by split. Qed.

Lemma context_bytes_same c : context_bytes db1 c = context_bytes db2 c.
Proof. unfold context_bytes. by rewrite Hrange. Qed.

Lemma ocon_ok_same i c : ocon_ok db1 i c -> ocon_ok db2 i c.
Proof.
  intros [H0 H]. split; [by apply context_ok_same|].
  destruct i as [|[|[|[|[|[|[|[|[|i]]]]]]]]], (oc_u c); try exact H;
    destruct H as (H1 & H2 & H3 & H4 & H5); split_and!; try done; by apply context_ok_same.
Qed.

Lemma ocon_bytes_same i c : ocon_bytes db1 i c = ocon_bytes db2 i c.
Proof. unfold ocon_bytes. rewrite !context_bytes_same. done. Qed.

Lemma sections_ok_same ls i : sections_ok db1 i ls -> sections_ok db2 i ls.
Proof.
  revert i. induction ls as [|l ls IH]; [done|]. intros i [[Hc Hl] Hls]. split; [|by apply IH]. split; [done|].
  eapply Forall_impl; [exact Hl|apply ocon_ok_same].
Qed.

Lemma sections_bytes_same ls i : sections_bytes db1 i ls = sections_bytes db2 i ls.
Proof.
  revert i. induction ls as [|l ls IH]; [done|]. intros i. cbn [sections_bytes]. rewrite IH. f_equal. unfold list_bytes. f_equal. f_equal.
  apply map_ext. apply ocon_bytes_same.
Qed.

Lemma genfs_ok_same l : genfs_ok db1 l -> genfs_ok db2 l.
Proof.
  intros [H1 H2 H3]. split; [done| |done]. eapply Forall_impl; [exact H2|]. intros g [G1 G2 G3 G4]. split; [done..| |done].
  eapply Forall_impl; [exact G3|]. intros c [C1 C2 C3 C4]. split; [done..|by apply context_ok_same|done].
Qed.

Lemma genfs_bytes_same l : genfs_bytes db1 l = genfs_bytes db2 l.
Proof.
  unfold genfs_bytes, list_bytes. f_equal. f_equal. apply map_ext. intros g. unfold node_bytes, list_bytes. do 4 f_equal.
  apply map_ext. intros c. unfold entry_bytes. by rewrite context_bytes_same.
Qed.
End same.

Lemma genfs_ok_set db l0 l : genfs_ok db l -> genfs_ok (set_genfs l0 db) l.
Proof. exact (genfs_ok_same db (set_genfs l0 db) eq_refl (fun _ _ => eq_refl) l). Qed.

(** * [add_genfscon] keeps the contexts of file systems storable *)

(** What decides whether entries exclude each other. *)
Abbreviation entry_key := (fun c => (u_name c, v_sclass c)).

Lemma apart_keys l1 l2 : entry_key <$> l1 = entry_key <$> l2 -> StronglySorted apart l1 -> StronglySorted apart l2.
Proof.
  revert l2. induction l1 as [|a l1 IH]; intros [|b l2]; try done. intros [= Hn Hs Hl] [H1 H2]%StronglySorted_inv.
  change (entry_key <$> l1 = entry_key <$> l2) in Hl.
  constructor; [by apply IH|]. apply Forall_forall. intros y Hy.
  apply (list_elem_of_fmap_2 entry_key) in Hy. rewrite <-Hl in Hy. apply list_elem_of_fmap in Hy as (x & [= Hx1 Hx2] & Hx).
  rewrite Forall_forall in H2. specialize (H2 x Hx). unfold apart, genfs_conflict in *. by rewrite <-Hn, <-Hs, Hx1, Hx2.
Qed.

Lemma alter_keys ctx (j : nat) (l : list ocontext) : entry_key <$> alter (set_context ctx) j l = entry_key <$> l.
Proof.
  apply list_eq. intros k. rewrite !list_lookup_fmap. destruct (decide (k = j)) as [->|Hk].
  - rewrite list_lookup_alter_eq. by destruct (l !! j).
  - by rewrite list_lookup_alter_ne.
Qed.

Lemma find_none {A} (eq : A -> bool) l : list_find (fun n => eq n = true) l = None -> Forall (fun n => eq n = false) l.
Proof. intros H%list_find_None. eapply Forall_impl; [exact H|]. intros n Hn. by apply not_true_iff_false. Qed.

Section add.
Context (db : policydb).

(** One more entry or file system can be counted. *)
Definition room {A} (l : list A) : Prop := Z.of_nat (length l) + 1 < 2 ^ 32.

(** The entries of a file system after the change. *)
Lemma entries_set head path ctx :
  Forall (entry_ok db) head -> StronglySorted apart head -> room head -> key_fits32 path -> context_ok db ctx ->
  forall j head', find_or_add (fun n => str_eq (u_name n) path) (new_ocontext path) head [] = Some (j, head', []) ->
  let h := alter (set_context ctx) j head' in
  Forall (entry_ok db) h /\ StronglySorted apart h /\ counted h.
Proof.
  intros He Ha Hr Hp Hc j head' E h.
  assert (Hset : forall n, key_fits32 (u_name n) -> word (v_sclass n) -> entry_ok db (set_context ctx n)) by (intros n H1 H2; by split).
  assert (Hh : counted head' /\ StronglySorted apart head' /\
    forall k n, head' !! k = Some n -> entry_ok db n \/ (k = j /\ key_fits32 (u_name n) /\ word (v_sclass n))).
  { unfold find_or_add in E. destruct (list_find (fun n => str_eq (u_name n) path = true) head) as [[i n]|] eqn:Ef.
    - injection E as <- <-. split; [unfold counted, room in *; lia|]. split; [done|]. intros k n' Hk. left. by eapply Forall_lookup_1.
    - rewrite new_ocontext_ok in E by apply Hp. injection E as <- <-. apply find_none in Ef. split; [unfold counted, room in *; simpl; lia|]. split.
      + constructor; [done|]. apply Forall_forall. intros y Hy. rewrite Forall_forall in Ef, He. specialize (Ef y Hy). destruct (He y Hy) as [Hn _ _ _].
        unfold apart, genfs_conflict. cbn [u_name]. rewrite (proj2 (Z.eqb_neq _ 0)); [done|].
        rewrite strcmp_zero by (apply Hn || apply Hp). by apply bool_decide_eq_false in Ef.
      + intros [|k] n' Hk; [injection Hk as <-; right; split; [done|]; split; [exact Hp|done]|]. left. by eapply Forall_lookup_1. }
  destruct Hh as (Hcnt & Hap & Hn). subst h. split; [|split].
  - apply Forall_lookup_2. intros k n Hk. destruct (decide (k = j)) as [->|Hne].
    + rewrite list_lookup_alter_eq in Hk. apply fmap_Some in Hk as (n0 & Hk & ->). apply Hset; destruct (Hn _ _ Hk) as [[]|(_ & ? & ?)]; done.
    + rewrite list_lookup_alter_ne in Hk by done. destruct (Hn _ _ Hk) as [|(? & _)]; done.
  - eapply apart_keys; [symmetry; apply alter_keys|done].
  - unfold counted. by rewrite length_alter.
Qed.

Lemma add_genfscon_ok fs path text ctx :
  genfs_ok db (p_genfs db) -> room (p_genfs db) -> Forall (fun g => room (fs_head g)) (p_genfs db) ->
  context_from_string db text [] = Done ctx [] -> context_ok db ctx -> key_fits32 fs -> key_fits32 path ->
  exists l', add_genfscon fs path text (db, []) = Some (true, (set_genfs l' db, [])) /\
    genfs_set (p_genfs db) l' fs path ctx /\ genfs_ok db l'.
Proof.
  intros [Hcnt Hns Hnd] Hroom Hrooms Hctx Hc Hfs Hpath.
  destruct (add_genfscon_done db fs path text ctx Hctx (proj1 Hfs) (proj1 Hpath)) as (l' & E & Hset).
  exists l'. split; [done|]. split; [done|]. revert E. unfold add_genfscon. rewrite Hctx.
  destruct (find_or_add _ _ (p_genfs db) []) as [[[i l] o]|] eqn:E1; [|done]. cbn [mbind option_bind].
  destruct (l !! i) as [g|] eqn:Hi; [|done]. cbn [mbind option_bind].
  destruct (find_or_add _ _ (fs_head g) o) as [[[j head] o2]|] eqn:E2; [|done]. cbn [mbind option_bind].
  intros [= <- ->]. 
  assert (Hl : o = [] /\ counted l /\ NoDup (fstype <$> l) /\ Forall (node_ok db) l /\ Forall (fun g => room (fs_head g)) l).
  { unfold find_or_add in E1. destruct (list_find _ (p_genfs db)) as [[i' n]|] eqn:Ef.
    - by injection E1 as <- <- <-.
    - rewrite new_genfs_ok in E1 by apply Hfs. injection E1 as <- <- <-. split; [done|]. split; [unfold counted, room in *; simpl; lia|].
      split; [|split; (constructor; [|done])].
      + rewrite fmap_cons. constructor; [|done]. intros (y & Hy & Hin)%list_elem_of_fmap. apply find_none in Ef. rewrite Forall_forall in Ef.
        specialize (Ef y Hin). apply bool_decide_eq_false in Ef. by apply Ef.
      + split; [done|unfold counted; simpl; lia|constructor|constructor].
      + unfold room. simpl. lia. }
  destruct Hl as (-> & Hcl & Hndl & Hnl & Hrl). pose proof (Forall_lookup_1 _ _ _ _ Hnl Hi) as [Hg1 _ Hg3 Hg4]. pose proof (Forall_lookup_1 _ _ _ _ Hrl Hi) as Hgr.
  destruct (entries_set (fs_head g) path ctx Hg3 Hg4 Hgr Hpath Hc j head E2) as (H1 & H2 & H3). split.
  - unfold counted. by rewrite length_insert.
  - apply Forall_insert; [done|]. by split.
  - replace (fstype <$> <[i:=_]> l) with (fstype <$> l); [done|]. rewrite list_fmap_insert. cbn [fstype]. symmetry. apply list_insert_id.
    by rewrite list_lookup_fmap, Hi.
Qed.
End add.
