(* ===== verification/PolicySectionsProps.v ===== *)
(** * The properties of the sections behind the rules, with concrete instances *)

From Stdlib Require Import Sorted.
From S2P Require Import Prelude Policyfile Ebitmap EbitmapSpec EbitmapQuery EbitmapUpdate EbitmapProps Hashtab HashtabSpec Symtab Codec Avtab.
From S2P Require Import Policydb Sepolicy SepolicyProps Symbols CodecTable SymbolsCodec SymbolsKinds SymbolsProps PolicyIndex SepolicyType SepolicyTypeProps Context.
From S2P Require Import SepolicyGenfs ContextProps PolicySections PolicyGenfsSpec.

(** The contexts of initial SIDs, file systems, ports, network interfaces, nodes and
    InfiniBand keys and ports are kept by a policy that is written and read.  For entries
    whose fields are in the ranges that the format has and whose contexts the policy
    accepts, [ocontext_write_selinux] writes all of them, and [ocontext_read_selinux] reads
    exactly these lists back and leaves the stream behind them. *)
Theorem ocontexts_roundtrip db ls fp :
  sections_ok db 0 ls -> can_put fp (Z.of_nat (length (sections_bytes db 0 ls))) ->
  exists bs fp', ocontext_write_selinux db ls fp = Some fp' /\ wrote fp bs fp' /\
    forall fr fr', reads fr bs fr' -> ocontext_read_selinux db (length ls) fr [] = Some (ls, fr', []).
Proof.
  intros Hls Hc. destruct (emits_sections db 0 ls Hls fp Hc) as (fp' & Hw & Hb). exists (sections_bytes db 0 ls), fp'.
  split; [done|]. split; [done|]. intros fr fr' Hr. exact (decodes_sections db 0 ls Hls fr fr' Hr).
Qed.

Lemma entry_head l fs path : genfs_entry l fs path = head (genfs_entries l fs path).
Proof.
  unfold genfs_entry, genfs_entries. destruct (first _ l) as [g|]; [|done]. cbn [mbind option_bind].
  induction (fs_head g) as [|c h IH]; [done|]. rewrite first_cons. cbn [of_path List.filter]. by destruct (str_eq (u_name c) path).
Qed.

(** C14: what [add_genfscon] sets is in the policy that is saved.  The contexts of file
    systems after the edit, written by [genfs_write] and read by [genfs_read] into a policy
    that has none, are sorted by file system and by decreasing length of the path, the entry
    of the file system and the path has the context that the text means, and the entries of
    all other file systems and paths are those before the edit. *)
Theorem add_genfscon_persists db fs path text ctx :
  genfs_ok db (p_genfs db) -> room (p_genfs db) -> Forall (fun g => room (fs_head g)) (p_genfs db) ->
  context_from_string db text [] = Done ctx [] -> context_ok db ctx -> key_fits32 fs -> key_fits32 path ->
  exists l', add_genfscon fs path text (db, []) = Some (true, (set_genfs l' db, [])) /\
    forall fp, can_put fp (Z.of_nat (length (genfs_bytes db l'))) ->
    exists bs fp', genfs_write (set_genfs l' db) fp = Some fp' /\ wrote fp bs fp' /\
      forall fr fr', reads fr bs fr' ->
      exists l2, genfs_read (set_genfs [] db) fr [] = Some (l2, fr', []) /\
        Sorted before l2 /\ Forall (fun g => StronglySorted longer (fs_head g)) l2 /\ genfs_set (p_genfs db) l2 fs path ctx.
Proof.
  intros Hok Hr1 Hr2 Hctx Hc Hfs Hpath. destruct (add_genfscon_ok db fs path text ctx) as (l' & E & Hset & Hok'); [done..|].
  exists l'. split; [done|]. intros fp Hput. destruct (emits_genfs (set_genfs l' db) (genfs_ok_set db l' l' Hok') fp Hput) as (fp' & Hw & Hb).
  exists (genfs_bytes db l'), fp'. split; [done|]. split; [done|]. intros fr fr' Hr.
  destruct (decodes_genfs (set_genfs [] db) l' (genfs_ok_set db [] l' Hok') eq_refl) as (l2 & Hd & [Hs Hh _ He]). exists l2. split; [by apply Hd|].
  split; [done|]. split; [done|]. destruct Hset as [(sc & H1 & H2) H3].
  assert (Hent : forall fs path, genfs_entry l2 fs path = genfs_entry l' fs path) by (intros; by rewrite !entry_head, He).
  split; [exists sc; by rewrite Hent|]. intros fs' path' Hne. rewrite Hent. by apply H3.
Qed.

(** ** Instances *)

Lemma ex_has_range : has_range ex_built = true.
Proof. vm_compute. reflexivity. Qed.

Lemma ex_context_valid : context_is_valid ex_built ex_context = Some true.
Proof. vm_compute. reflexivity. Qed.

Lemma ex_context_ok : context_ok ex_built ex_context.
Proof.
  split.
  1-3: unfold word; cbn; lia.
  - split; (split; [unfold word; cbn; lia|]); [apply ebitmap_init_empty|apply one_wf; small].
  - rewrite ex_has_range. discriminate.
  - exact ex_context_valid.
Qed.

Lemma one_byte_fits c : 1 <= c < 2 ^ 8 -> key_fits32 [c].
Proof. intros Hc. split; [by repeat constructor; lia|]. split; [done|simpl; lia]. Qed.

(** An initial SID, a port and the use of a file system. *)
Definition ex_ocons : list (list ocon) :=
  [[Ocon UNone 0 1 ex_context context_init]; []; [Ocon (UPort 6 80 443) 0 0 ex_context context_init]; []; [];
   [Ocon (UName [101]) 2 0 ex_context context_init]; []; []; []].

Lemma ex_ocons_ok : sections_ok ex_built 0 ex_ocons.
Proof.
  pose proof ex_context_ok as Hc. unfold ex_ocons. cbn [sections_ok].
  assert (H0 : forall i, ocons_ok ex_built i []) by (intros i; split; [unfold counted; simpl; lia|constructor]).
  assert (H1 : forall i c, ocon_ok ex_built i c -> ocons_ok ex_built i [c]).
  { intros i c Hi. split; [unfold counted; simpl; lia|]. constructor; [exact Hi|constructor]. }
  repeat match goal with
         | |- _ /\ _ => split
         | |- True => exact I
         | |- ocons_ok _ _ [] => apply H0
         | |- ocons_ok _ _ [_] => apply H1
         end; (split; [exact Hc|]); cbn [oc_u oc_behavior oc_sid ocon_context1].
  - split; [reflexivity|]. split; [done|]. split; [discriminate|reflexivity].
  - repeat (split; [reflexivity|]). lia.
  - split; [done|]. split; [reflexivity|]. split; [reflexivity|]. apply one_byte_fits. lia.
Qed.

Lemma ocontexts_roundtrip_witness :
  exists bs fp', ocontext_write_selinux ex_built ex_ocons (PolicyFile PF_USE_STDIO [] 0 []) = Some fp' /\
    wrote (PolicyFile PF_USE_STDIO [] 0 []) bs fp' /\
    forall fr fr', reads fr bs fr' -> ocontext_read_selinux ex_built 9 fr [] = Some (ex_ocons, fr', []).
Proof. exact (ocontexts_roundtrip ex_built ex_ocons (PolicyFile PF_USE_STDIO [] 0 []) ex_ocons_ok (or_introl eq_refl)). Defined.

Lemma ex_no_genfs : p_genfs ex_built = [].
Proof. vm_compute. reflexivity. Qed.

(** genfscon "p" "/" u:r:t:s-s:c *)
Lemma add_genfscon_persists_witness :
  exists l' bs fp', add_genfscon [112] [47] ex_text (ex_built, []) = Some (true, (set_genfs l' ex_built, [])) /\
    genfs_write (set_genfs l' ex_built) (PolicyFile PF_USE_STDIO [] 0 []) = Some fp' /\
    wrote (PolicyFile PF_USE_STDIO [] 0 []) bs fp' /\
    forall fr fr', reads fr bs fr' ->
    exists l2, genfs_read (set_genfs [] ex_built) fr [] = Some (l2, fr', []) /\
      genfs_entry l2 [112] [47] = Some (Ocontext [47] 0 ex_context context_init).
Proof.
  assert (E : context_from_string ex_built ex_text [] = Done ex_context []) by (vm_compute; reflexivity).
  destruct (add_genfscon_persists ex_built [112] [47] ex_text ex_context) as (l' & Ha & H).
  - rewrite ex_no_genfs. split; [unfold counted; simpl; lia|constructor|constructor].
  - rewrite ex_no_genfs. unfold room. simpl. lia.
  - rewrite ex_no_genfs. constructor.
  - exact E.
  - exact ex_context_ok.
  - apply one_byte_fits. lia.
  - apply one_byte_fits. lia.
  - destruct (H (PolicyFile PF_USE_STDIO [] 0 [])) as (bs & fp' & Hw & Hb & Hr); [by left|].
    exists l', bs, fp'. split; [exact Ha|]. split; [exact Hw|]. split; [exact Hb|]. intros fr fr' Hrd.
    destruct (Hr fr fr' Hrd) as (l2 & H1 & _ & _ & (sc & H2 & H3) & _). exists l2. split; [exact H1|].
    rewrite ex_no_genfs in H3. cbn in H3. rewrite H2, H3. reflexivity.
Defined.
