(* ===== verification/Conditional.v ===== *)
(** * Conditional rules of a binary policy (libsepol/src/conditional.c, write.c)

    A policy holds a list of conditional expressions, each with the rules that it enables
    and disables.  The rules are nodes of a table of their own, [te_cond_avtab], and the
    lists point into it.  A pointer to a node is the node with its address, which nothing
    changes after [cond_insertf] linked it.  The kernel format of version 20 and later. *)

From S2P Require Import Prelude Policyfile Ebitmap EbitmapSpec EbitmapProps Hashtab Codec Avtab AvtabSpec AvtabRules Policydb AvtabIO.
From S2P Require Import AvtabProps SymbolsCodec Context PolicySections.

Definition COND_BOOL : Z := 1.
Definition COND_LAST : Z := 7.

(** The two flavours of [cond_expr_t] that matter here, and the node of [cond_av_list_t]
    with the field [parse_context] of the node that it points to. *)
Record cond_expr := CondExpr { ce_type : Z; ce_boolean : Z }.
Record cond_av := CondAv { cav_node : avtab_node; parse_context : bool }.

(** [cur_state] is an [int]. *)
Record cond_node := CondNode {
  cur_state : Z;
  cn_expr : list cond_expr;
  true_list : list cond_av;
  false_list : list cond_av
}.

(** ** Reading *)

Section read.
Context (te_avtab : avtab) (bools_nprim vers : Z).

(** The tables [te_cond_avtab] and the list [data->head], with the allocator. *)
Definition cond_state : Type := avtab * list cond_av * oracle.

(** [AVTAB_TYPE]: no rule of the key outside of conditionals, and inside only the one of
    the list [other]. *)
Definition type_conflict (other : list cond_av) (cond : avtab) (k : avtab_key) : bool :=
  match avtab_search (Some te_avtab) k with
  | Some _ => true
  | None =>
      match other with
      | [] => match avtab_search (Some cond) k with Some _ => true | None => false end
      | _ =>
          match avtab_search_node (Some cond) k with
          | None => false
          | Some node_ptr =>
              match avtab_search_node_next cond (Some node_ptr) (specified k) with
              | Some _ => true
              | None => negb (existsb (fun cur => addr (cav_node cur) =? addr node_ptr) other)
              end
          end
      end
  end.

Definition cond_insertf (other : list cond_av) (k : avtab_key) (d : avtab_datum) (a : cond_state) : Z * cond_state :=
  let '(cond, head, o) := a in
  if truthy (Z.land (specified k) AVTAB_TYPE) && type_conflict other cond k then (-1, a)
  else
    match avtab_insert_nonunique (Some cond) k d o with
    | (None, cond', o) => (-1, (default cond cond', head, o))
    | (Some node_ptr, cond', o) =>
        let cond := default cond cond' in
        let (ok, o) := malloc o in
        if ok then (0, (cond, head ++ [CondAv node_ptr true], o)) else (-1, (cond, head, o))
    end.

(** [avtab_read_item] with [cond_insertf]; [compat] is [avtab_android_m_compat]. *)
Definition read_cond_item (other : list cond_av) (s : avtab * list cond_av * Z) : reader (avtab * list cond_av * Z) := fun fp o =>
  let '(cond, head, compat) := s in
  let '(rc, (cond, head, o), fp, compat) := avtab_read_item (cond_insertf other) fp vers (cond, head, o) compat in
  if truthy rc then None else Some ((cond, head, compat), fp, o).

Definition cond_read_av_list (other : list cond_av) (cond : avtab) (compat : Z) : reader (avtab * list cond_av * Z) :=
  buf ← rd_entry 4;
  rd_loop (Z.to_nat (le32_at buf 0)) (read_cond_item other) (cond, [], compat).

(** Both fields of [cond_expr_t] are [uint32_t]. *)
Definition expr_isvalid (expr : cond_expr) : bool :=
  negb ((ce_type expr <=? 0) || (COND_LAST <? ce_type expr)) && negb (bools_nprim <? ce_boolean expr).

Definition read_cond_expr : reader cond_expr :=
  buf ← rd_entry 8;
  rd_alloc;;
  let expr := CondExpr (le32_at buf 0) (le32_at buf 1) in
  rd_require (expr_isvalid expr);;
  mret expr.

(** The table, the nodes read so far and the flag. *)
Definition cond_read_node (s : avtab * list cond_node * Z) : reader (avtab * list cond_node * Z) :=
  let '(cond, nodes, compat) := s in
  rd_alloc;;
  buf ← rd_entry 4;
  let state := to_int (le32_at buf 0) in
  buf ← rd_entry 4;
  expr ← rd_list (le32_at buf 0) read_cond_expr;
  r ← cond_read_av_list [] cond compat;
  let '(cond, t, compat) := r in
  r ← cond_read_av_list t cond compat;
  let '(cond, f, compat) := r in
  mret (cond, nodes ++ [CondNode state expr t f], compat).

Definition cond_read_list (cond : avtab) (compat : Z) : reader (avtab * list cond_node * Z) :=
  buf ← rd_entry 4;
  cond ← rd_call (avtab_alloc cond (av_nel te_avtab));
  rd_loop (Z.to_nat (le32_at buf 0)) cond_read_node (cond, [], compat).
End read.

(** ** Writing *)

Definition write_cond_item (p : policydb) (compat : Z) (c : cond_av) : writer := fun fp =>
  let (rc, fp) := avtab_write_item_new p (cav_node c) fp compat in if truthy rc then None else Some fp.

Definition cond_write_av_list (p : policydb) (compat : Z) (list : list cond_av) : writer :=
  let l := List.filter parse_context list in
  (wr_words [Z.of_nat (length l)];;; wr_each (write_cond_item p compat) l)%writer.

Definition cond_write_node (p : policydb) (compat : Z) (node : cond_node) : writer :=
  (wr_words [u32 (cur_state node)];;;
   wr_words [Z.of_nat (length (cn_expr node))];;;
   wr_each (fun e => wr_words [ce_type e; ce_boolean e]) (cn_expr node);;;
   cond_write_av_list p compat (true_list node);;;
   cond_write_av_list p compat (false_list node))%writer.

Definition cond_write_list (p : policydb) (compat : Z) (list : list cond_node) : writer :=
  (wr_words [Z.of_nat (length list)];;; wr_each (cond_write_node p compat) list)%writer.

(** * Reading back conditional rules *)

Abbreviation rule := (avtab_key * avtab_datum)%type.

(** The rules of a key, as the searches see them. *)
Definition rule_matches (k : avtab_key) (r : rule) : bool := key_match k (strip_enabled (specified k)) r.1.

Definition contents (l : list cond_av) : list rule := (fun c => content (cav_node c)) <$> l.

Lemma filter_content k (l : list avtab_node) :
  List.filter (rule_matches k) (content <$> l) = content <$> List.filter (matches k (strip_enabled (specified k))) l.
Proof.
  induction l as [|n l IH]; [done|]. cbn [fmap list_fmap List.filter]. change (rule_matches k (content n)) with (matches k (strip_enabled (specified k)) n).
  destruct (matches _ _ n); cbn [fmap list_fmap]; [f_equal|]; exact IH.
Qed.

Lemma filter_perm {A} (f : A -> bool) l1 l2 : l1 ≡ₚ l2 -> List.filter f l1 ≡ₚ List.filter f l2.
Proof.
  induction 1 as [|x l1 l2 _ IH|x y l|l1 l2 l3 _ IH1 _ IH2]; cbn [List.filter]; [done| | |by rewrite IH1].
  - destruct (f x); [by rewrite IH|done].
  - destruct (f x), (f y); try done. constructor.
Qed.

Lemma find_filter {A} (f : A -> bool) l : List.find f l = head (List.filter f l).
Proof. induction l as [|x l IH]; [done|]. cbn. by destruct (f x). Qed.

Lemma search_filter h k : avtab_wf h -> avtab_search_node (Some h) k = head (List.filter (matches k (strip_enabled (specified k))) (avtab_nodes h)).
Proof. intros Hw. by rewrite avtab_search_node_find, find_filter. Qed.

(** The only node of a key has no next one. *)
Lemma search_next_none h k n :
  avtab_wf h -> 0 <= specified k < 2 ^ 16 -> List.filter (matches k (strip_enabled (specified k))) (avtab_nodes h) = [n] ->
  avtab_search_node_next h (Some n) (specified k) = None.
Proof.
  intros Hw Hs Hf. pose proof (search_all_spec h k (S (S (length (avtab_nodes h)))) Hw Hs ltac:(lia)) as H.
  rewrite search_filter, Hf in H by done. cbn [head search_all] in H.
  destruct (avtab_search_node_next h (Some n) (specified k)); [discriminate|done].
Qed.

Section trip.
Context (vers : Z) (te : avtab) (bools : Z).
Hypothesis Hvers : POLICYDB_VERSION_AVTAB <= vers.
Hypothesis Hte : avtab_wf te.

(** A rule that can be read after the rules [pre]: for type rules, none of the key
    outside, and among [pre] at most one of [other]. *)
Definition rule_fits (pre other : list rule) (r : rule) : Prop :=
  truthy (Z.land (specified r.1) AVTAB_TYPE) = true ->
  List.filter (rule_matches r.1) (content <$> avtab_nodes te) = [] /\
  (List.filter (rule_matches r.1) pre = [] \/ exists x, List.filter (rule_matches r.1) pre = [x] /\ x ∈ other).

Fixpoint rules_fit (pre other l : list rule) : Prop :=
  match l with
  | [] => True
  | r :: l' => rule_fits pre other r /\ rules_fit (pre ++ [r]) other l'
  end.

(** The table holds the rules [pre], among them the nodes of [l]. *)
Definition cond_table (pre : list rule) (cond : avtab) : Prop := avtab_wf cond /\ content <$> avtab_nodes cond ≡ₚ pre.

Definition in_table (cond : avtab) (l : list cond_av) : Prop := Forall (fun c => cav_node c ∈ avtab_nodes cond /\ parse_context c = true) l.

Lemma no_conflict pre other cond k :
  cond_table pre cond -> in_table cond other -> 0 <= specified k < 2 ^ 16 ->
  List.filter (rule_matches k) (content <$> avtab_nodes te) = [] ->
  List.filter (rule_matches k) pre = [] \/ (exists x, List.filter (rule_matches k) pre = [x] /\ x ∈ contents other) ->
  type_conflict te other cond k = false.
Proof.
  intros [Hw Hp] Hin Hs Ht Hor. unfold type_conflict. rewrite avtab_search_datum, search_filter by done.
  rewrite filter_content in Ht. apply fmap_nil_inv in Ht. rewrite Ht. cbn [head fmap option_fmap option_map].
  pose proof (filter_perm (rule_matches k) _ _ Hp) as Hf. rewrite filter_content in Hf.
  destruct Hor as [E|(x & E & Hx)]; rewrite E in Hf.
  - symmetry in Hf. apply Permutation_nil_l in Hf. symmetry in Hf. apply fmap_nil_inv in Hf. rewrite avtab_search_datum, search_filter, Hf by done. by destruct other.
  - apply Permutation_singleton_r in Hf. destruct (List.filter _ (avtab_nodes cond)) as [|n [|]] eqn:En; try discriminate.
    injection Hf as Hn. destruct other as [|c0 other0] eqn:Eo; [by apply elem_of_nil in Hx|]. rewrite <-Eo in *. clear Eo c0 other0.
    rewrite search_filter, En by done. cbn [head]. rewrite (search_next_none _ _ n Hw Hs En).
    apply list_elem_of_fmap in Hx as (c & Hc & Hin2). apply negb_false_iff, existsb_exists. exists c. split; [by apply list_elem_of_In|].
    apply Z.eqb_eq. f_equal. unfold in_table in Hin. rewrite Forall_forall in Hin. destruct (Hin c Hin2) as [Hcn _].
    assert (Hm : cav_node c ∈ List.filter (matches k (strip_enabled (specified k))) (avtab_nodes cond)).
    { apply list_elem_of_In, filter_In. split; [by apply list_elem_of_In|].
      assert (Hxm : rule_matches k x = true).
      { assert (x ∈ [x]) as H by (by left). rewrite <-E in H. apply list_elem_of_In, filter_In in H. apply H. }
      rewrite Hc in Hxm. exact Hxm. }
    rewrite En in Hm. by apply list_elem_of_singleton in Hm.
Qed.

Lemma insert_nonunique_ok cond k d : avtab_wf cond ->
  exists n cond', avtab_insert_nonunique (Some cond) k d [] = (Some n, Some cond', []).
Proof.
  intros (t & Ht & _). unfold avtab_insert_nonunique, avtab_insert_node. rewrite Ht. cbn [malloc].
  destruct (insert_nonunique_loop _ _ _) as [a b]. destruct (truthy _); by eexists _, _.
Qed.

Lemma cond_insertf_ok pre other cond head n :
  cond_table pre cond -> in_table cond other -> in_table cond head -> node_good n -> rule_fits pre (contents other) (content n) ->
  exists cond' c, cond_insertf te other (akey n) (adatum n) (cond, head, []) = (0, (cond', head ++ [c], [])) /\
    cond_table (pre ++ [content n]) cond' /\ (forall x, x ∈ avtab_nodes cond -> x ∈ avtab_nodes cond') /\
    in_table cond' (head ++ [c]) /\ content (cav_node c) = content n.
Proof.
  intros Hct Ho Hh Hg Hf. pose proof Hct as [Hw Hp]. pose proof Hg as [[Hr _] _]. pose proof Hr as (_ & _ & _ & Hs).
  assert (Hc : truthy (Z.land (specified (akey n)) AVTAB_TYPE) && type_conflict te other cond (akey n) = false).
  { destruct (truthy (Z.land (specified (akey n)) AVTAB_TYPE)) eqn:E; [|done]. destruct (Hf E) as [H1 H2]. by apply (no_conflict pre). }
  unfold cond_insertf. rewrite Hc.
  destruct (insert_nonunique_ok cond (akey n) (adatum n) Hw) as (m & cond' & E). rewrite E. cbn [malloc default].
  destruct (avtab_insert_nonunique_spec cond (akey n) (adatum n) [] (Some m) (Some cond') [] Hw Hr E) as (h1 & [= <-] & Hw' & Hm & Hp').
  rewrite stored_datum_good in Hm by done.
  assert (Hsub : forall x, x ∈ avtab_nodes cond -> x ∈ avtab_nodes cond') by (intros x Hx; rewrite Hp'; by right).
  exists cond', (CondAv m true). split; [done|]. split; [|split; [done|split]].
  - split; [done|]. rewrite Hp', fmap_cons, Hp, Hm. by rewrite Permutation_cons_append.
  - apply Forall_app. split.
    + eapply Forall_impl; [exact Hh|]. intros x [H1 H2]. split; [by apply Hsub|done].
    + constructor; [|constructor]. split; [rewrite Hp'; by left|done].
  - by rewrite Hm.
Qed.

Definition av_bytes (l : list cond_av) : list Z := list_bytes (fun c => item_bytes (cav_node c)) l.

Lemma read_cond_item_ok pre other cond head c :
  cond_table pre cond -> in_table cond other -> in_table cond head -> storable vers (cav_node c) ->
  rule_fits pre (contents other) (content (cav_node c)) ->
  exists cond' c', decodes (read_cond_item te vers other (cond, head, 0)) (item_bytes (cav_node c)) (cond', head ++ [c'], 0) /\
    cond_table (pre ++ [content (cav_node c)]) cond' /\ (forall x, x ∈ avtab_nodes cond -> x ∈ avtab_nodes cond') /\
    in_table cond' (head ++ [c']) /\ content (cav_node c') = content (cav_node c).
Proof.
  intros Hct Ho Hh Hst Hf. destruct (cond_insertf_ok pre other cond head (cav_node c) Hct Ho Hh (proj1 Hst) Hf) as (cond' & c' & E & H).
  exists cond', c'. split; [|exact H]. intros fp fp' Hr. unfold read_cond_item.
  pose proof (read_item_spec (cond_insertf te other) vers (cav_node c) fp fp' (cond, head, []) Hvers Hst Hr) as Hri. rewrite E in Hri.
  unfold cond_state, oracle in *. by rewrite Hri.
Qed.

Lemma rules_fit_app pre other l1 l2 : rules_fit pre other (l1 ++ l2) <-> rules_fit pre other l1 /\ rules_fit (pre ++ l1) other l2.
Proof.
  revert pre. induction l1 as [|r l1 IH]; intros pre; cbn [app rules_fit]; [rewrite app_nil_r; tauto|].
  rewrite IH, <-app_assoc. cbn [app]. tauto.
Qed.

Lemma in_table_mono cond cond' l : (forall x, x ∈ avtab_nodes cond -> x ∈ avtab_nodes cond') -> in_table cond l -> in_table cond' l.
Proof. intros H Hl. eapply Forall_impl; [exact Hl|]. intros c [H1 H2]. split; [by apply H|done]. Qed.

Lemma decodes_av_list pre other cond l :
  cond_table pre cond -> in_table cond other -> counted l -> Forall (fun c => storable vers (cav_node c)) l ->
  rules_fit pre (contents other) (contents l) ->
  exists cond' l', decodes (cond_read_av_list te vers other cond 0) (av_bytes l) (cond', l', 0) /\
    cond_table (pre ++ contents l) cond' /\ (forall x, x ∈ avtab_nodes cond -> x ∈ avtab_nodes cond') /\
    in_table cond' l' /\ contents l' = contents l.
Proof.
  intros Hct Ho Hc Hst Hf.
  destruct (decodes_loop (read_cond_item te vers other) (fun c => item_bytes (cav_node c))
    (fun done s => exists cond' l', s = (cond', l', 0) /\ cond_table (pre ++ contents done) cond' /\
       (forall x, x ∈ avtab_nodes cond -> x ∈ avtab_nodes cond') /\ in_table cond' l' /\ contents l' = contents done) l (cond, [], 0))
    as (s & Hd & cond' & l' & -> & H).
  - exists cond, []. split; [done|]. split; [by rewrite app_nil_r|]. split; [done|]. split; [constructor|done].
  - intros done c post s E (cond' & l' & -> & Hct' & Hsub & Hin & Hl'). rewrite E in Hst, Hf.
    apply Forall_app in Hst as [_ [Hsc _]%Forall_cons]. unfold contents in Hf. rewrite fmap_app, fmap_cons in Hf. apply rules_fit_app in Hf as [_ [Hfc _]].
    destruct (read_cond_item_ok (pre ++ contents done) other cond' l' c) as (cond2 & c' & Hd & Hct2 & Hsub2 & Hin2 & Hc'); [done| |done|done|done|].
    { by eapply in_table_mono. }
    exists (cond2, l' ++ [c'], 0). split; [done|]. exists cond2, (l' ++ [c']). split; [done|]. unfold contents in *. rewrite !fmap_app, Hl', app_assoc.
    split; [done|]. split; [by auto|]. split; [done|]. cbn [fmap list_fmap]. by rewrite Hc'.
  - exists cond', l'. split; [|exact H]. unfold cond_read_av_list, av_bytes, list_bytes.
    eapply decodes_bind; [by apply (decodes_words 1)|]. rewrite le32_first by (unfold counted in Hc; unfold word; lia). by rewrite Nat2Z.id.
Qed.

(** ** Nodes *)

Record cond_node_ok (node : cond_node) : Prop := {
  cno_state : - 2 ^ 31 <= cur_state node < 2 ^ 31;
  cno_count : counted (cn_expr node);
  cno_expr : Forall (fun e => word (ce_boolean e) /\ expr_isvalid bools e = true) (cn_expr node);
  cno_true : counted (true_list node);
  cno_false : counted (false_list node);
  cno_rules : Forall (fun c => storable vers (cav_node c) /\ parse_context c = true) (true_list node ++ false_list node)
}.

Definition node_rules (node : cond_node) : list rule := contents (true_list node) ++ contents (false_list node).

Fixpoint conds_fit (pre : list rule) (l : list cond_node) : Prop :=
  match l with
  | [] => True
  | n :: l' =>
      rules_fit pre [] (contents (true_list n)) /\
      rules_fit (pre ++ contents (true_list n)) (contents (true_list n)) (contents (false_list n)) /\
      conds_fit (pre ++ node_rules n) l'
  end.

(** The conditional with its rules, whatever the addresses of the nodes are. *)
Definition same_cond (n n' : cond_node) : Prop :=
  cur_state n' = cur_state n /\ cn_expr n' = cn_expr n /\
  contents (true_list n') = contents (true_list n) /\ contents (false_list n') = contents (false_list n).

Definition expr_bytes (e : cond_expr) : list Z := words [ce_type e; ce_boolean e].

Definition cond_bytes (n : cond_node) : list Z :=
  words [u32 (cur_state n)] ++ list_bytes expr_bytes (cn_expr n) ++ av_bytes (true_list n) ++ av_bytes (false_list n).

Lemma to_int_u32 x : - 2 ^ 31 <= x < 2 ^ 31 -> to_int (u32 x) = x.
Proof.
  intros Hx. unfold to_int. assert (E : u32 (u32 x) = u32 x) by (apply u32_small, u32_range). rewrite E. unfold u32 in *.
  destruct (Z_lt_le_dec x 0).
  - assert (x mod 2 ^ 32 = x + 2 ^ 32) as -> by (symmetry; apply (Z.mod_unique _ _ (-1)); lia). case_Z; lia.
  - rewrite Z.mod_small by lia. case_Z; lia.
Qed.

Lemma decodes_cond_expr e : word (ce_boolean e) /\ expr_isvalid bools e = true -> decodes (read_cond_expr bools) (expr_bytes e) e.
Proof.
  intros [Hb Hv]. assert (Ht : word (ce_type e)).
  { unfold expr_isvalid in Hv. apply andb_prop in Hv as [Hv%negb_true_iff _]. apply orb_false_iff in Hv as [H1%Z.leb_gt H2%Z.ltb_ge].
    unfold COND_LAST in *. unfold word. lia. }
  unfold read_cond_expr, expr_bytes. eapply decodes_last; [by apply (decodes_words 2)|]. rewrite !le32_next, !le32_first by done.
  eapply decodes_step; [apply decodes_alloc|]. cbn zeta. replace (CondExpr (ce_type e) (ce_boolean e)) with e by (by destruct e).
  eapply decodes_step; [by apply decodes_require|apply decodes_ret].
Qed.

Lemma decodes_cond_node pre cond nodes n :
  cond_table pre cond -> cond_node_ok n ->
  rules_fit pre [] (contents (true_list n)) ->
  rules_fit (pre ++ contents (true_list n)) (contents (true_list n)) (contents (false_list n)) ->
  exists cond' n', decodes (cond_read_node te bools vers (cond, nodes, 0)) (cond_bytes n) (cond', nodes ++ [n'], 0) /\
    cond_table (pre ++ node_rules n) cond' /\ same_cond n n'.
Proof.
  intros Hct [Hs He1 He2 Ht Hf Hr] Ht2 Hf2. apply Forall_app in Hr as [Hrt Hrf].
  assert (Hst : forall l, Forall (fun c => storable vers (cav_node c) /\ parse_context c = true) l -> Forall (fun c => storable vers (cav_node c)) l).
  { intros l Hl. eapply Forall_impl; [exact Hl|]. by intros c [Hc _]. }
  destruct (decodes_av_list pre [] cond (true_list n) Hct ltac:(constructor) Ht (Hst _ Hrt) Ht2) as (c1 & t & Hd1 & Hct1 & _ & Hin1 & Hc1).
  destruct (decodes_av_list (pre ++ contents (true_list n)) t c1 (false_list n) Hct1 Hin1 Hf (Hst _ Hrf)) as (c2 & f & Hd2 & Hct2 & _ & _ & Hc2).
  { by rewrite Hc1. }
  exists c2, (CondNode (cur_state n) (cn_expr n) t f). split; [|split; [unfold node_rules; by rewrite app_assoc|done]].
  unfold cond_read_node, cond_bytes, list_bytes. eapply decodes_step; [apply decodes_alloc|].
  eapply decodes_bind; [by apply (decodes_words 1)|]. rewrite le32_first by apply u32_range. cbn zeta. rewrite to_int_u32 by done.
  rewrite <-!app_assoc. eapply decodes_bind; [by apply (decodes_words 1)|]. rewrite le32_first by (unfold counted in He1; lia).
  eapply decodes_bind; [apply decodes_list; eapply Forall_impl; [exact He2|apply decodes_cond_expr]|].
  eapply decodes_bind; [exact Hd1|]. cbn beta iota. eapply decodes_last; [exact Hd2|]. cbn beta iota. apply decodes_ret.
Qed.

Definition conds_bytes (l : list cond_node) : list Z := list_bytes cond_bytes l.

Lemma decodes_cond_list cond0 l :
  0 < av_nel te -> counted l -> Forall cond_node_ok l -> conds_fit [] l ->
  exists cond' l', decodes (cond_read_list te bools vers cond0 0) (conds_bytes l) (cond', l', 0) /\
    cond_table (concat (node_rules <$> l)) cond' /\ Forall2 same_cond l l'.
Proof.
  intros Hn Hc Hl Hfit. pose proof Hte as (t & _ & _ & _ & Hnel).
  assert (Hlt : av_nel te < 2 ^ 32) by (rewrite Hnel; apply u32_range).
  destruct (avtab_alloc cond0 (av_nel te) []) as [[rc c0] o] eqn:Ea.
  destruct (avtab_alloc_spec _ _ _ _ _ _ (conj Hn Hlt) Ea) as [(-> & Hw0 & Hn0 & _)|(_ & ? & _)]; [|done].
  assert (o = []) as -> by (unfold avtab_alloc in Ea; repeat case_match; simplify_eq/=; done).
  assert (Hfits : forall pre n post, l = pre ++ n :: post -> conds_fit (concat (node_rules <$> pre)) (n :: post)).
  { intros pre n post ->. clear - Hfit. assert (H : forall p0, conds_fit p0 (pre ++ n :: post) -> conds_fit (p0 ++ concat (node_rules <$> pre)) (n :: post)).
    { clear. induction pre as [|a pre IH]; intros p0; [by rewrite app_nil_r|]. intros (_ & _ & H). cbn [fmap list_fmap concat]. rewrite app_assoc. by apply IH. }
    by apply (H []). }
  destruct (decodes_loop (cond_read_node te bools vers) cond_bytes
    (fun done s => exists cond' l', s = (cond', l', 0) /\ cond_table (concat (node_rules <$> done)) cond' /\ Forall2 same_cond done l') l (c0, [], 0))
    as (s & Hd & cond' & l' & -> & H).
  - exists c0, []. split; [done|]. split; [split; [done|by rewrite Hn0]|constructor].
  - intros pre n post s E (cond' & l' & -> & Hct & Hsame). specialize (Hfits pre n post E) as (H1 & H2 & _).
    rewrite E in Hl. apply Forall_app in Hl as [_ [Hok _]%Forall_cons].
    destruct (decodes_cond_node _ cond' l' n Hct Hok H1 H2) as (c2 & n' & Hd & Hct2 & Hs).
    exists (c2, l' ++ [n'], 0). split; [done|]. exists c2, (l' ++ [n']). split; [done|].
    rewrite fmap_app, concat_app. cbn [fmap list_fmap concat]. rewrite app_nil_r. split; [done|]. by apply Forall2_app; [|constructor].
  - exists cond', l'. split; [|exact H]. unfold cond_read_list, conds_bytes, list_bytes.
    eapply decodes_bind; [by apply (decodes_words 1)|]. eapply decodes_step; [by apply decodes_call|].
    rewrite le32_first by (unfold counted in Hc; lia). by rewrite Nat2Z.id.
Qed.

(** ** Writing *)

Context (p : policydb).
Hypothesis Hp : policyvers p = vers.
Hypothesis Htarget : target_platform p = SEPOL_TARGET_SELINUX.

Lemma emits_item c : storable vers (cav_node c) -> emits (write_cond_item p 0 c) (item_bytes (cav_node c)).
Proof.
  intros Hs fp Hc. rewrite <-Hp in Hs. unfold write_cond_item.
  destruct (write_item_spec p (cav_node c) fp 0 Hs Htarget ltac:(lia)) as (fp' & -> & Hw & _); [by rewrite Z.add_0_r|]. by exists fp'.
Qed.

Lemma emits_av_list l :
  Forall (fun c => storable vers (cav_node c) /\ parse_context c = true) l -> emits (cond_write_av_list p 0 l) (av_bytes l).
Proof.
  intros Hl. unfold cond_write_av_list. assert (List.filter parse_context l = l) as ->.
  { induction Hl as [|c l [_ Hc] _ IH]; [done|]. cbn [List.filter]. by rewrite Hc, IH. }
  apply emits_counted. eapply Forall_impl; [exact Hl|]. intros c [Hc _]. by apply emits_item.
Qed.

Lemma emits_cond_list l : Forall cond_node_ok l -> emits (cond_write_list p 0 l) (conds_bytes l).
Proof.
  intros Hl. apply emits_counted. eapply Forall_impl; [exact Hl|]. intros n [_ _ _ _ _ Hr]. apply Forall_app in Hr as [Hrt Hrf].
  unfold cond_write_node, cond_bytes, list_bytes. emit_word. rewrite <-app_assoc. emit_word.
  apply emits_seq; [apply emits_each, Forall_forall; intros e _; apply emits_words; simpl; lia|].
  apply emits_seq; by apply emits_av_list.
Qed.
End trip.
