(* ===== verification/RangeTrans.v ===== *)
(** * Range transitions of a binary policy (libsepol/src/policydb.c, write.c)

    A hash table from (source type, target type, class) to the range of the new object, as
    kernel policies store it.  Only [range_read] looks at the values of the key. *)

From stdpp Require Import countable.
From S2P Require Import Prelude Policyfile Ebitmap EbitmapSpec EbitmapProps Hashtab HashtabSpec Codec Policydb SepolicyFilenameSpec Symbols CodecTable.
From S2P Require Import SymbolsCodec SymbolsKinds PolicySections.

Definition POLICYDB_VERSION_RANGETRANS : Z := 21.

Record range_trans := RangeTrans { rg_source : Z; rg_target : Z; rg_class : Z }.

Definition rangetr_hash (size : Z) (key : range_trans) : Z :=
  u32 (Z.land (u32 (rg_source key + Z.shiftl (rg_target key) 3 + Z.shiftl (rg_class key) 5)) (u32 (size - 1))).

Definition rangetr_cmp (key1 key2 : range_trans) : Z :=
  let v := spaceship_cmp (rg_source key1) (rg_source key2) in
  if truthy v then v
  else
    let v := spaceship_cmp (rg_target key1) (rg_target key2) in
    if truthy v then v else spaceship_cmp (rg_class key1) (rg_class key2).

#[export] Instance rangetr_ops : HashOps range_trans := { hash_value := rangetr_hash; keycmp := rangetr_cmp }.

Abbreviation range_table := (hashtab_val range_trans mls_range).

Section ranges.
Context (policy_type policyvers types_nprim classes_nprim process_class : Z).

Definition new_rangetr : bool := (policy_type =? POLICY_KERN) && (POLICYDB_VERSION_RANGETRANS <=? policyvers).

(** A round of the loop of [range_read] in a kernel policy. *)
Definition read_range_trans (h : option range_table) : reader (option range_table) :=
  rd_alloc;;
  buf ← rd_entry 8;
  rd_require (value_isvalid (le32_at buf 0) types_nprim);;
  rd_require (value_isvalid (le32_at buf 1) types_nprim);;
  class ← (if new_rangetr then buf ← rd_entry 4; mret (le32_at buf 0) else mret process_class : reader Z);
  rd_require (value_isvalid class classes_nprim);;
  rd_alloc;;
  r ← mls_read_range_helper;
  rd_call (hashtab_insert h (RangeTrans (le32_at buf 0) (le32_at buf 1) class) r).

Definition range_read (h : option range_table) : reader (option range_table) :=
  buf ← rd_entry 4;
  rd_loop (Z.to_nat (le32_at buf 0)) read_range_trans h.

Definition written_range (rt : range_trans) : bool := new_rangetr || (rg_class rt =? process_class).

Definition rangetrans_count (rt : range_trans) (r : mls_range) (nel : Z) : Z * Z :=
  (0, if written_range rt then nel + 1 else nel).

Definition range_write_helper (rt : range_trans) (r : mls_range) : writer :=
  if negb (written_range rt) then wr_ret
  else
    (wr_words [rg_source rt; rg_target rt];;;
     (if new_rangetr then wr_words [rg_class rt] else wr_ret);;;
     mls_write_range_helper r)%writer.

Definition range_write (h : option range_table) : writer :=
  let (_, nel) := hashtab_map h rangetrans_count 0 in
  (wr_words [nel];;; wr_map range_write_helper h)%writer.
End ranges.

(** * Reading back range transitions *)

#[export] Instance range_trans_eq_dec : EqDecision range_trans.
Proof. solve_decision. Defined.

#[export] Instance range_trans_countable : Countable range_trans.
Proof.
  apply (inj_countable' (fun k => (rg_source k, rg_target k, rg_class k)) (fun '(s, t, c) => RangeTrans s t c)).
  by intros [].
Defined.

Definition any_key (k : range_trans) : Prop := True.

Lemma rangetr_cmp_lex k1 k2 :
  rangetr_cmp k1 k2 =
  if rg_source k1 =? rg_source k2 then
    if rg_target k1 =? rg_target k2 then spaceship_cmp (rg_class k1) (rg_class k2)
    else spaceship_cmp (rg_target k1) (rg_target k2)
  else spaceship_cmp (rg_source k1) (rg_source k2).
Proof.
  unfold rangetr_cmp, truthy. pose proof (spaceship_zero (rg_source k1) (rg_source k2)).
  pose proof (spaceship_zero (rg_target k1) (rg_target k2)).
  destruct (Z.eqb_spec (rg_source k1) (rg_source k2)), (Z.eqb_spec (rg_target k1) (rg_target k2));
    repeat case_Z; simpl; done || lia.
Qed.

Lemma rangetr_lt k1 k2 :
  rangetr_cmp k1 k2 < 0 <->
  rg_source k1 < rg_source k2 \/
  rg_source k1 = rg_source k2 /\ (rg_target k1 < rg_target k2 \/ rg_target k1 = rg_target k2 /\ rg_class k1 < rg_class k2).
Proof.
  rewrite rangetr_cmp_lex. destruct (spaceship_sign (rg_source k1) (rg_source k2)), (spaceship_sign (rg_target k1) (rg_target k2)),
    (spaceship_sign (rg_class k1) (rg_class k2)). repeat case_Z; lia.
Qed.

#[export] Instance rangetr_laws : HashLaws range_trans any_key.
Proof.
  split; simpl; unfold any_key.
  - intros size k Hs. unfold rangetr_hash. rewrite (u32_small (size - 1)) by lia.
    pose proof (land_le_r (u32 (rg_source k + Z.shiftl (rg_target k) 3 + Z.shiftl (rg_class k) 5)) (size - 1)).
    rewrite u32_small; lia.
  - intros k1 k2 _ _. rewrite rangetr_cmp_lex. destruct k1 as [s1 t1 c1], k2 as [s2 t2 c2]; simpl in *.
    pose proof (spaceship_zero s1 s2). pose proof (spaceship_zero t1 t2). pose proof (spaceship_zero c1 c2).
    repeat case_Z; subst; split; intros E; try (injection E as ?); try lia; f_equal; lia.
  - intros k1 k2 _ _. rewrite !rangetr_cmp_lex. rewrite (Z.eqb_sym (rg_source k2)), (Z.eqb_sym (rg_target k2)).
    destruct (spaceship_sign (rg_source k1) (rg_source k2)), (spaceship_sign (rg_source k2) (rg_source k1)).
    destruct (spaceship_sign (rg_target k1) (rg_target k2)), (spaceship_sign (rg_target k2) (rg_target k1)).
    destruct (spaceship_sign (rg_class k1) (rg_class k2)), (spaceship_sign (rg_class k2) (rg_class k1)). repeat case_Z; lia.
  - intros k1 k2 k3 _ _ _. rewrite !rangetr_lt. lia.
Qed.

Section trip.
Context (vers types_nprim classes_nprim process_class : Z).
Hypothesis Hvers : POLICYDB_VERSION_RANGETRANS <= vers.
Hypothesis Htypes : types_nprim < 2 ^ 32.
Hypothesis Hclasses : classes_nprim < 2 ^ 32.

Definition range_entry_ok (k : range_trans) (r : mls_range) : Prop :=
  1 <= rg_source k <= types_nprim /\ 1 <= rg_target k <= types_nprim /\ 1 <= rg_class k <= classes_nprim /\ range_ok r.

Definition range_entry_bytes (k : range_trans) (r : mls_range) : list Z :=
  words [rg_source k; rg_target k] ++ words [rg_class k] ++ range_bytes r.

Definition range_table_bytes (h : range_table) : list Z :=
  words [nel h] ++ entries_bytes range_entry_bytes (concat (htable h)).

Lemma is_new : new_rangetr POLICY_KERN vers = true.
Proof. unfold new_rangetr. rewrite Z.eqb_refl. by apply Z.leb_le. Qed.

Lemma valid_range v n : 1 <= v <= n -> value_isvalid v n = true.
Proof. intros Hv. unfold value_isvalid. apply negb_true_iff, orb_false_iff. rewrite Z.eqb_neq, Z.ltb_ge. lia. Qed.

Lemma decodes_range_trans h k r :
  hashtab_wf any_key h -> hashtab_model h !! k = None -> nel h < UINT32_MAX -> range_entry_ok k r ->
  exists h', decodes (read_range_trans POLICY_KERN vers types_nprim classes_nprim process_class (Some h)) (range_entry_bytes k r) (Some h') /\
    hashtab_wf any_key h' /\ hashtab_model h' = <[k := r]> (hashtab_model h).
Proof.
  intros Hw Hnone Hnel (Hs & Ht & Hc & Hr).
  destruct (hashtab_insert_new any_key h k r Hw I Hnone Hnel) as (h' & E & H). exists h'. split; [|exact H].
  unfold read_range_trans, range_entry_bytes. eapply decodes_step; [apply decodes_alloc|].
  eapply decodes_bind; [by apply (decodes_words 2)|]. rewrite !le32_next, !le32_first by lia.
  do 2 (eapply decodes_step; [apply decodes_require; by apply valid_range|]). rewrite is_new.
  eapply (decodes_bind _ _ _ _ (rg_class k)); [eapply decodes_last; [by apply (decodes_words 1)|]; rewrite le32_first by lia; apply decodes_ret|].
  eapply decodes_step; [apply decodes_require; by apply valid_range|]. eapply decodes_step; [apply decodes_alloc|].
  eapply decodes_last; [by apply decodes_range|]. apply decodes_call. destruct k. exact E.
Qed.

Lemma decodes_ranges h h0 :
  hashtab_wf any_key h -> map_Forall range_entry_ok (hashtab_model h) -> hashtab_wf any_key h0 -> hashtab_model h0 = ∅ ->
  exists h', decodes (range_read POLICY_KERN vers types_nprim classes_nprim process_class (Some h0)) (range_table_bytes h) (Some h') /\
    hashtab_wf any_key h' /\ hashtab_model h' = hashtab_model h.
Proof.
  intros Hw Hf Hw0 Hm0. destruct (table_length any_key h Hw) as [Hl Hn].
  destruct (decodes_entries any_key (read_range_trans POLICY_KERN vers types_nprim classes_nprim process_class) range_entry_bytes
    range_entry_ok (fun _ => true) eq) with (l := concat (htable h)) (h0 := h0) as (h' & l' & Hd & Hw' & HF & Hm); try done.
  - intros h1 k r H1 H2 H3 H4 _. destruct (decodes_range_trans h1 k r H1 H2 H3 H4) as (h' & ? & ? & ?). by exists h', r.
  - eapply (table_keys_NoDup any_key), Hw.
  - intros n _ _. by rewrite Hm0.
  - rewrite (nel_size any_key h0 Hw0), Hm0, map_size_empty. lia.
  - by apply (table_nodes any_key range_entry_ok).
  - exists h'. split; [|split; [done|]].
    + unfold range_read, range_table_bytes. eapply decodes_bind; [by apply (decodes_words 1)|].
      pose proof Hw as (_ & _ & ?). rewrite le32_first by lia. by rewrite <-Hl, Nat2Z.id.
    + rewrite Hm, Hm0, (right_id_L ∅ (∪)). unfold hashtab_model at 1. f_equal.
      assert (Hall : filter (fun n => Is_true true) (concat (htable h)) = concat (htable h)).
      { clear. induction (concat (htable h)) as [|n l IH]; [done|]. rewrite filter_cons_True by exact I. by rewrite IH. }
      rewrite Hall in HF. clear - HF. f_equal. induction HF as [|a b la lb [H1 H2] _ IH]; [done|].
      rewrite IH. f_equal. destruct a, b; cbn in *; by subst.
Qed.

Lemma count_all (l : list (hashtab_node range_trans mls_range)) n :
  foldl (fun a m => (rangetrans_count POLICY_KERN vers process_class (hkey m) (hdatum m) a).2) n l = n + Z.of_nat (length l).
Proof.
  revert n. induction l as [|m l IH]; intros n; cbn [foldl length]; [lia|]. rewrite IH. unfold rangetrans_count, written_range. rewrite is_new. cbn [orb snd]. lia.
Qed.

Lemma emits_ranges h :
  hashtab_wf any_key h -> map_Forall range_entry_ok (hashtab_model h) ->
  emits (range_write POLICY_KERN vers process_class (Some h)) (range_table_bytes h).
Proof.
  intros Hw Hf. unfold range_write. rewrite hashtab_map_fold by done. rewrite count_all, Z.add_0_l.
  destruct (table_length any_key h Hw) as [-> _]. emit_word. apply emits_map.
  eapply Forall_impl; [by apply (table_nodes any_key range_entry_ok h Hw Hf)|]. intros n (_ & _ & _ & Hr).
  unfold range_write_helper, written_range. rewrite is_new. cbn [orb negb]. unfold range_entry_bytes. emit_word. emit_word. by apply emits_range.
Qed.
End trip.
