(* ===== verification/KernelPolicy.v ===== *)
(** * Kernel policies as files (libsepol/src/policydb.c, write.c, sepolicy/policydb.cpp)

    [policydb_init], [policydb_read] and [policydb_write] for policies that begin with
    [POLICYDB_MAGIC], and the functions of the editor that load and save policies.  Reading
    modules, object contexts of the Xen target and writing the rule table in the format
    before version 20 are not modelled: the definitions fail where these are reached.  A
    crash in an index function or in the test of a context ends the reading as a failure
    does.  [unsupported_format] is 0: only expand.c writes it.  The global
    [avtab_android_m_compat] is the argument [compat] and a result. *)

From S2P Require Import Prelude Policyfile Ebitmap EbitmapProps Hashtab Symtab Codec Avtab Policydb AvtabIO Sepolicy SepolicyFilenameIO.
From S2P Require Import SepolicyAttr Symbols PolicyIndex SepolicyType Context SepolicyGenfs PolicySections Conditional RangeTrans.

Definition SEPOL_TARGET_XEN : Z := 1.
Definition POLICYDB_MAGIC : Z := 0xf97cff8c.
Definition POLICYDB_STRING_MAX_LENGTH : Z := 32.
Definition POLICYDB_VERSION_MIN : Z := 15.
Definition POLICYDB_VERSION_MAX : Z := 33.
Definition POLICYDB_VERSION_BOOL : Z := 16.
Definition POLICYDB_VERSION_POLCAP : Z := 22.
Definition POLICYDB_VERSION_PERMISSIVE : Z := 23.
Definition POLICYDB_CONFIG_MLS : Z := 1.
Definition POLICYDB_CONFIG_UNKNOWN_MASK : Z := 6.
Definition POLICYDB_CONFIG_ANDROID_EXTRA_MASK : Z := 0xc0000000.

(** "SE Linux" and "XenFlask". *)
Definition policydb_target_strings : list (list Z) :=
  [[83; 69; 32; 76; 105; 110; 117; 120]; [88; 101; 110; 70; 108; 97; 115; 107]].

(** [policydb_t] with the fields that the editor does not reach. *)
Record policy := Policy {
  pdb : policydb;
  policycaps : ebitmap;
  handle_unknown : Z;
  android_extra : Z;
  process_class : Z;
  dir_class : Z;
  process_trans : Z;
  process_trans_dyntrans : Z;
  te_cond_avtab : avtab;
  cond_list : list cond_node;
  role_tr : list role_trans;
  p_role_allow : list role_allow;
  ocontexts : list (list ocon);
  range_tr : option range_table
}.

(** ** [policydb_init] *)

(** [goto err] with the value of [rc] there, after which everything is freed. *)
Definition init (A : Type) : Type := oracle -> (Z + A) * oracle.

#[export] Instance init_ret : MRet init := fun A a o => (inr a, o).
#[export] Instance init_bind : MBind init := fun A B k f o =>
  match f o with
  | (inl rc, o) => (inl rc, o)
  | (inr a, o) => k a o
  end.

Definition init_fail {A} (rc : Z) : init A := fun o => (inl rc, o).

(** An allocation whose failure goes to [err] with [rc]. *)
Definition init_alloc {A} (rc : Z) (f : alloc A) : init A := fun o =>
  match f o with
  | (Some a, o) => (inr a, o)
  | (None, o) => (inl rc, o)
  end.

Definition symtab_sizes : list Z := [2; 32; 16; 512; 128; 16; 16; 16].

Definition init_symtab {D} (rc : Z) (size : Z) : init (symtab D) :=
  t ← init_alloc rc (hashtab_create size);
  mret (Symtab (Some t) 0).

Definition init_symtabs (rc : Z) : init symtabs :=
  commons ← init_symtab rc 2; classes ← init_symtab rc 32; roles ← init_symtab rc 16; types ← init_symtab rc 512;
  users ← init_symtab rc 128; bools ← init_symtab rc 16; levels ← init_symtab rc 16; cats ← init_symtab rc 16;
  mret (Symtabs commons classes roles types users bools levels cats).

Fixpoint init_tables {D} (rc : Z) (sizes : list Z) : init (list (symtab D)) :=
  match sizes with
  | [] => mret []
  | size :: sizes' => t ← init_symtab rc size; ts ← init_tables rc sizes'; mret (t :: ts)
  end.

(** [symtab_sizes] of avrule_block.c. *)
Definition decl_symtab_sizes : list Z := [2; 4; 8; 32; 16; 4; 2; 2].

(** The tables of symbols of a declaration are not looked at. *)
Definition avrule_decl_create (rc : Z) (id : Z) : init avrule_decl :=
  init_alloc rc (alloc_new ());;
  (init_tables rc decl_symtab_sizes : init (list (symtab unit)));;
  mret (AvruleDecl id (replicate 8 ebitmap_init)).

Definition empty_role : role_datum := RoleDatum 0 ebitmap_init type_set_init ebitmap_init 0 ROLE_ROLE ebitmap_init.

Definition set_role_value (v : Z) (r : role_datum) : role_datum :=
  RoleDatum v (dominates r) (ro_types r) (ro_cache r) (ro_bounds r) (ro_flavor r) (ro_roles r).

(** [symtab_insert] writes the value to the role that is in the table. *)
Definition insert_object_r (roles : symtab role_datum) (scope : symtab scope_datum) : init (symtab role_datum * symtab scope_datum) := fun o =>
  let '(rc, roles, scp, o) :=
    symtab_insert SYM_ROLES (fun r => ro_flavor r =? ROLE_ROLE) OBJECT_R empty_role SCOPE_DECL 1 roles (table scope) o in
  if truthy rc then (inl rc, o)
  else if negb (nprim roles =? OBJECT_R_VAL) then (inl (- EINVAL), o)
  else (inr (Symtab (write_symbol (table roles) OBJECT_R (set_role_value (nprim roles))) (nprim roles), Symtab scp (nprim scope)), o).

Definition roles_init (roles : symtab role_datum) (scope : symtab scope_datum) : init (symtab role_datum * symtab scope_datum) :=
  init_alloc (- ENOMEM) (alloc_new ());;
  init_alloc (- ENOMEM) (alloc_new ());;
  insert_object_r roles scope.

Definition no_avtab : avtab := Avtab None 0 0 0 0.

(** From the tables of scopes to the call of [roles_init], [rc] is still 0. *)
Definition policydb_init : init policy :=
  st ← init_symtabs (-1);
  scope ← init_tables 0 symtab_sizes;
  init_alloc 0 (alloc_new ());;
  decl ← avrule_decl_create 0 1;
  r ← roles_init (sym_roles st) (default (Symtab None 0) (scope !! SYM_ROLES));
  let '(roles, role_scope) := r in
  ft ← init_alloc (- ENOMEM) (hashtab_create 1024);
  range ← init_alloc (- ENOMEM) (hashtab_create 256);
  let st := Symtabs (sym_commons st) (sym_classes st) roles (sym_types st) (sym_users st) (sym_bools st) (sym_levels st) (sym_cats st) in
  let db := Policydb POLICY_KERN SEPOL_TARGET_SELINUX 0 st no_avtab (Some ft) 0 [] [] [] ebitmap_init 0
              (<[SYM_ROLES := role_scope]> scope) [AvruleBlock [decl]] (Indexes (replicate 8 []) [] [] [] [] []) [] in
  mret (Policy db ebitmap_init 0 0 0 0 0 0 no_avtab [] [] [] (replicate 9 []) (Some range)).

(** ** The header *)

Record compat_info := CompatInfo { ci_version : Z; ci_target : Z; sym_num : Z; ocon_num : Z }.

(** The entries of [policydb_compat] of kernel policies; 8 is [SYM_NUM]. *)
Definition policydb_compat : list compat_info :=
  [CompatInfo 24 SEPOL_TARGET_XEN 8 5; CompatInfo 30 SEPOL_TARGET_XEN 8 6] ++
  [CompatInfo 15 SEPOL_TARGET_SELINUX 5 6; CompatInfo 16 SEPOL_TARGET_SELINUX 6 6] ++
  ((fun v => CompatInfo v SEPOL_TARGET_SELINUX 6 7) <$> [17; 18]) ++
  ((fun v => CompatInfo v SEPOL_TARGET_SELINUX 8 7) <$> [19; 20; 21; 22; 23; 24; 25; 26; 27; 28; 29; 30]) ++
  ((fun v => CompatInfo v SEPOL_TARGET_SELINUX 8 9) <$> [31; 32; 33]).

Definition policydb_lookup_compat (version target : Z) : option compat_info :=
  List.find (fun i => (ci_version i =? version) && (ci_target i =? target)) policydb_compat.

(** What the header says: target, version, configuration and table sizes. *)
Record header := Header { h_target : Z; h_version : Z; h_config : Z; h_info : compat_info }.

(** The target whose string is read. *)
Fixpoint find_target (i : Z) (strings : list (list Z)) (str : list Z) : option Z :=
  match strings with
  | [] => None
  | s :: strings' => if strcmp str s =? 0 then Some i else find_target (i + 1) strings' str
  end.

Definition rd_found {A} (x : option A) : reader A := match x with Some a => mret a | None => rd_fail end.

Definition read_header : reader header :=
  buf ← rd_entry 8;
  rd_require (le32_at buf 0 =? POLICYDB_MAGIC);;
  let len := le32_at buf 1 in
  rd_require (negb ((len =? 0) || (POLICYDB_STRING_MAX_LENGTH <? len)));;
  rd_alloc;;
  str ← rd_entry (Z.to_nat len);
  target ← rd_found (find_target 0 policydb_target_strings (c_str str));
  buf ← rd_entry 16;
  let version := le32_at buf 0 in
  rd_require (negb ((version <? POLICYDB_VERSION_MIN) || (POLICYDB_VERSION_MAX <? version)));;
  info ← rd_found (policydb_lookup_compat version target);
  rd_require ((le32_at buf 2 =? sym_num info) && (le32_at buf 3 =? ocon_num info));;
  mret (Header target version (le32_at buf 1) info).

(** [config] of [policydb_write]. *)
Definition config_of (p : policy) : Z :=
  Z.lor (Z.lor (if p_mls (pdb p) =? 0 then 0 else POLICYDB_CONFIG_MLS) (Z.land POLICYDB_CONFIG_UNKNOWN_MASK (handle_unknown p)))
    (Z.land POLICYDB_CONFIG_ANDROID_EXTRA_MASK (android_extra p)).

Definition write_header (p : policy) (info : compat_info) : writer :=
  let str := default [] (policydb_target_strings !! Z.to_nat (target_platform (pdb p))) in
  (wr_words [POLICYDB_MAGIC; Z.of_nat (length str)];;;
   wr_put 1 (Z.of_nat (length str)) str;;;
   wr_words [policyvers (pdb p); config_of p; sym_num info; ocon_num info])%writer.

(** ** [policydb_read] *)

(** "process", "dir", "domain", "transition" and "dyntransition". *)
Definition PROCESS : list Z := [112; 114; 111; 99; 101; 115; 115].
Definition DIR : list Z := [100; 105; 114].
Definition DOMAIN : list Z := [100; 111; 109; 97; 105; 110].
Definition TRANSITION : list Z := [116; 114; 97; 110; 115; 105; 116; 105; 111; 110].
Definition DYNTRANSITION : list Z := [100; 121; 110] ++ TRANSITION.

(** [sepol_security_class_t] has 16 bits. *)
Definition policydb_string_to_security_class (classes : symtab class_datum) (class_name : list Z) : Z :=
  match hashtab_search (table classes) class_name with Some d => u16 (cls_value d) | None => 0 end.

(** [None] is a dereference of [NULL]. *)
Definition policydb_string_to_av_perm (db : policydb) (tclass : Z) (perm_name : list Z) : option Z :=
  let classes := p_classes db in
  if (tclass =? 0) || (nprim classes <? tclass) then Some 0
  else
    d ← struct_at (table classes) (class_val_to_struct (p_index db)) tclass;
    tclass_datum ← d;
    match hashtab_search (table (cls_permissions tclass_datum)) perm_name with
    | Some perm => Some (u32 (Z.shiftl 1 (perm_value perm - 1)))
    | None =>
        match comdatum tclass_datum with
        | None => Some 0
        | Some com =>
            match hashtab_search (table (com_permissions com)) perm_name with
            | Some perm => Some (u32 (Z.shiftl 1 (perm_value perm - 1)))
            | None => Some 0
            end
        end
    end.

(** A part of the policy that versions from [v] on have. *)
Definition rd_since {A} (v version : Z) (old : A) (r : reader A) : reader A :=
  if v <=? version then r else mret old.

Definition wr_since (v version : Z) (w : writer) : writer :=
  if v <=? version then w else wr_ret.

Definition rd_avtab (a : avtab) (vers compat : Z) : reader (avtab * Z) := fun fp o =>
  let '(rc, a, fp, compat, o) := avtab_read a fp vers compat o in
  if truthy rc then None else Some ((a, compat), fp, o).

Definition rd_step (f : step) (db : policydb) : reader policydb := fun fp o =>
  match f (db, o) with
  | Some (rc, (db, o)) => if truthy rc then None else Some (db, fp, o)
  | None => None
  end.

Definition rd_attr_maps (vers : Z) (db : policydb) : reader (list ebitmap * list ebitmap) := fun fp o =>
  match read_attr_maps vers (nprim (p_types db)) (type_val_to_struct db) fp o with
  | Some r => Some ((r_type_attr r, r_attr_type r), r_fp r, r_oracle r)
  | None => None
  end.

(** The policy with the symbols, the rules and the transitions, before it is indexed. *)
Definition with_rules (h : header) (st : symtabs) (te : avtab) (ft : ft_state) (permissive : ebitmap) (db : policydb) : policydb :=
  Policydb POLICY_KERN (h_target h) (h_version h) st te (fst ft) (snd ft) (type_val_to_struct db) (type_attr_map db) (attr_type_map db)
    permissive (if truthy (Z.land (h_config h) POLICYDB_CONFIG_MLS) then 1 else 0) (p_scope db) (p_global db) (p_index db) (p_genfs db).

(** The rules: [te_avtab], the conditionals, role transitions, role allows and transitions
    for file names, with the flag. *)
Definition read_rules (p : policy) (vers class : Z) (bools_nprim compat : Z) :
    reader (avtab * Z * (avtab * list cond_node) * list role_trans * list role_allow * ft_state) :=
  r ← rd_avtab (te_avtab (pdb p)) vers compat;
  let '(te, compat) := r in
  r ← rd_since POLICYDB_VERSION_BOOL vers (te_cond_avtab p, cond_list p, compat) (cond_read_list te bools_nprim vers (te_cond_avtab p) compat);
  let '(cond, conds, compat) := r in
  rt ← role_trans_read POLICY_KERN vers class;
  ra ← role_allow_read;
  ft ← rd_since POLICYDB_VERSION_FILENAME_TRANS vers (filename_trans (pdb p), filename_trans_count (pdb p))
         (filename_trans_read vers (filename_trans (pdb p), filename_trans_count (pdb p)));
  mret (te, compat, (cond, conds), rt, ra, ft).

(** The arrays, and the permissions that are looked up in between. *)
Definition read_indexes (class : Z) (db : policydb) : reader (policydb * Z * Z) :=
  db ← rd_step policydb_index_decls db;
  db ← rd_step policydb_index_classes db;
  trans ← rd_found (policydb_string_to_av_perm db class TRANSITION);
  dyntrans ← rd_found (policydb_string_to_av_perm db class DYNTRANSITION);
  db ← rd_step policydb_index_others db;
  mret (db, trans, Z.lor trans dyntrans).

Definition ocontext_read (info : compat_info) (db : policydb) : reader (list (list ocon)) :=
  if target_platform db =? SEPOL_TARGET_SELINUX then ocontext_read_selinux db (Z.to_nat (ocon_num info)) else rd_fail.

Definition policydb_read (p : policy) (compat : Z) : reader (policy * Z) :=
  h ← read_header;
  let vers := h_version h in
  caps ← rd_since POLICYDB_VERSION_POLCAP vers (policycaps p) rd_ebitmap;
  permissive ← rd_since POLICYDB_VERSION_PERMISSIVE vers (permissive_map (pdb p)) rd_ebitmap;
  st ← read_symtabs POLICY_KERN vers (Z.to_nat (sym_num (h_info h))) (p_symtab (pdb p));
  let class := policydb_string_to_security_class (sym_classes st) (if h_target h =? SEPOL_TARGET_SELINUX then PROCESS else DOMAIN) in
  let dir := if h_target h =? SEPOL_TARGET_SELINUX then policydb_string_to_security_class (sym_classes st) DIR else dir_class p in
  r ← read_rules p vers class (nprim (sym_bools st)) compat;
  let '(te, compat, (cond, conds), rt, ra, ft) := r in
  r ← read_indexes class (with_rules h st te ft permissive (pdb p));
  let '(db, trans, dyntrans) := r in
  oc ← ocontext_read (h_info h) db;
  genfs ← genfs_read db;
  range ← rd_since POLICYDB_VERSION_MLS vers (range_tr p)
            (range_read POLICY_KERN vers (nprim (p_types db)) (nprim (p_classes db)) class (range_tr p));
  maps ← rd_attr_maps vers db;
  mret (Policy (set_maps (fst maps) (snd maps) (set_genfs genfs db)) caps
          (Z.land (h_config h) POLICYDB_CONFIG_UNKNOWN_MASK) (Z.land (h_config h) POLICYDB_CONFIG_ANDROID_EXTRA_MASK)
          class dir trans dyntrans cond conds rt ra (oc ++ drop (length oc) (ocontexts p)) range, compat).

(** ** [policydb_write] *)

Definition wr_code (f : policy_file -> Z * policy_file) : writer := fun fp =>
  let (rc, fp) := f fp in if truthy rc then None else Some fp.

Definition write_rules (p : policy) (compat : Z) : writer :=
  let db := pdb p in
  let vers := policyvers db in
  (wr_code (fun fp => avtab_write_new db (te_avtab db) fp compat);;;
   wr_since POLICYDB_VERSION_BOOL vers (cond_write_list db compat (cond_list p));;;
   role_trans_write POLICY_KERN vers (process_class p) (role_tr p);;;
   role_allow_write (p_role_allow p);;;
   wr_since POLICYDB_VERSION_FILENAME_TRANS vers (filename_trans_write vers (filename_trans db, filename_trans_count db)))%writer.

Definition policydb_write (p : policy) (compat : Z) : writer :=
  let db := pdb p in
  let vers := policyvers db in
  if negb (policy_type db =? POLICY_KERN) || (vers <? POLICYDB_VERSION_AVTAB) ||
     negb (target_platform db =? SEPOL_TARGET_SELINUX) then wr_fail
  else
    match policydb_lookup_compat vers (target_platform db) with
    | None => wr_fail
    | Some info =>
        (write_header p info;;;
         wr_since POLICYDB_VERSION_POLCAP vers (wr_ebitmap (policycaps p));;;
         wr_since POLICYDB_VERSION_PERMISSIVE vers (wr_ebitmap (permissive_map db));;;
         write_symtabs POLICY_KERN vers (Z.to_nat (sym_num info)) (p_symtab db);;;
         write_rules p compat;;;
         ocontext_write_selinux db (take (Z.to_nat (ocon_num info)) (ocontexts p));;;
         genfs_write db;;;
         range_write POLICY_KERN vers (process_class p) (range_tr p);;;
         wr_code (write_attr_maps vers (type_attr_map db)))%writer
    end.

(** ** Loading and saving (sepolicy/policydb.cpp) *)

(** The calls that [from_data] and [from_file] share: [None] is a crash, [Some None] a
    policy without an implementation.  The result of [malloc] is not tested, and the stream of
    a file that could not be opened is [NULL].  When [policydb_init] fails with the code 0,
    [policydb_read] is called with a policy whose tables are freed.  It reads the header
    without the tables and fails when the header is not one; what it does afterwards with
    the freed tables is undefined, and is the argument [freed]. *)
Section load.
Context (freed : header -> policy_file -> oracle -> option (option (policy * Z))).

Definition load_policy (pf : option policy_file) (compat : Z) (o : oracle) : option (option (policy * Z)) :=
  let (ok, o) := malloc o in
  if negb ok then None
  else
    match policydb_init o with
    | (inl rc, o) =>
        if truthy rc then Some None
        else
          fp ← pf;
          match read_header fp o with
          | Some (h, fp, o) => freed h fp o
          | None => Some None
          end
    | (inr p, o) =>
        fp ← pf;
        Some (match policydb_read p compat fp o with
              | Some (r, _, _) => Some r
              | None => None
              end)
    end.

Definition from_data (data : list Z) : Z -> oracle -> option (option (policy * Z)) :=
  load_policy (Some (PolicyFile PF_USE_MEMORY data (Z.of_nat (length data)) [])).

(** The bytes of the file, or [None] when [xopen_file] fails. *)
Definition from_file (file : option (list Z)) : Z -> oracle -> option (option (policy * Z)) :=
  load_policy ((fun data => PolicyFile PF_USE_STDIO data 0 []) <$> file).
End load.

(** The bytes that [to_file] collects before it opens the file. *)
Definition to_image (p : policy) (compat : Z) : option (list Z) :=
  pf_out <$> policydb_write p compat (PolicyFile PF_USE_STDIO [] 0 []).

(** [SePolicy::to_file] with the result of [xopen]: what it returns and what it passes to
    [write], whose result it does not look at. *)
Definition to_file (p : policy) (compat : Z) (opened : bool) : bool * option (list Z) :=
  match to_image p compat with
  | None => (false, None)
  | Some out => if opened then (true, Some out) else (false, None)
  end.
