(* ===== verification/KernelPolicySpec.v ===== *)
(** * Kernel policies that are saved and loaded again: the parts *)

From S2P Require Import Prelude Policyfile Ebitmap EbitmapSpec EbitmapQuery EbitmapUpdate EbitmapProps Hashtab HashtabSpec Symtab HashtabProps Codec.
From S2P Require Import Avtab AvtabSpec AvtabRules Policydb AvtabIO AvtabProps Sepolicy SepolicyFilenameSpec SepolicyFilenameIO SepolicyFilenameCompat SepolicyFilenameIOProps.
From S2P Require Import SepolicyAttr SepolicyAttrProps Symbols CodecTable SymbolsCodec SymbolsKinds SymbolsTrip PolicyIndex PolicyIndexSpec PolicyOthersSpec.
From S2P Require Import SepolicyType SepolicyTypeInv Context SepolicyGenfs PolicySections PolicyGenfsSpec Conditional RangeTrans KernelPolicy.

(** ** The policy that [policydb_init] makes *)

Definition object_r : role_datum := set_role_value OBJECT_R_VAL empty_role.

(** An empty table. *)
Definition empty_table {K D} {ops : HashOps K} (key_ok : K -> Prop) `{Countable K} (h : option (hashtab_val K D)) : Prop :=
  exists t, h = Some t /\ hashtab_wf key_ok t /\ hashtab_model t = ∅.

Record initial_policy (p : policy) : Prop := {
  ip_symbols : symtabs_fresh (p_symtab (pdb p));
  ip_roles : exists h, table (sym_roles (p_symtab (pdb p))) = Some h /\ hashtab_model h = {[OBJECT_R := object_r]};
  ip_scope : exists s h, p_scope (pdb p) !! SYM_TYPES = Some s /\ table s = Some h /\ hashtab_wf cstring_ok h /\ hashtab_model h = ∅;
  ip_global : p_global (pdb p) = [AvruleBlock [AvruleDecl 1 (replicate 8 ebitmap_init)]];
  ip_names : length (sym_val_to_name (p_index (pdb p))) = 8%nat;
  ip_ft : empty_table ft_key_ok (filename_trans (pdb p));
  ip_count : filename_trans_count (pdb p) = 0;
  ip_genfs : p_genfs (pdb p) = [];
  ip_range : empty_table any_key (range_tr p);
  ip_ocontexts : ocontexts p = replicate 9 []
}.

(** With memory available a step ends in a value with [Q]. *)
Definition inits {A} (f : init A) (Q : A -> Prop) : Prop := exists a, f [] = (inr a, []) /\ Q a.

Lemma inits_ret {A} (a : A) (Q : A -> Prop) : Q a -> inits (mret a) Q.
Proof. by exists a. Qed.

Lemma inits_bind {A B} (f : init A) (k : A -> init B) P Q :
  inits f P -> (forall a, P a -> inits (k a) Q) -> inits (f ≫= k) Q.
Proof. intros (a & E & Ha) Hk. unfold inits, mbind, init_bind. rewrite E. by apply Hk. Qed.

Lemma inits_alloc {A} rc (f : alloc A) a (Q : A -> Prop) : f [] = (Some a, []) -> Q a -> inits (init_alloc rc f) Q.
Proof. intros E Ha. exists a. unfold init_alloc. by rewrite E. Qed.

Definition empty_symtab {D} (s : symtab D) : Prop :=
  nprim s = 0 /\ exists h, table s = Some h /\ hashtab_wf cstring_ok h /\ hashtab_model h = ∅.

Lemma inits_symtab {D} rc size : 0 < size < 2 ^ 32 -> inits (init_symtab rc size : init (symtab D)) empty_symtab.
Proof.
  intros Hs. destruct (hashtab_create_spec (D := D) cstring_ok size Hs) as (h & E & Hw & Hm).
  eapply (inits_bind _ _ (fun t => hashtab_wf cstring_ok t /\ hashtab_model t = ∅)); [by eapply (inits_alloc _ _ h)|].
  intros t Ht. apply inits_ret. split; [done|].
  exists t. split; [done|]. exact Ht.
Qed.

Lemma inits_tables {D} rc sizes :
  Forall (fun size => 0 < size < 2 ^ 32) sizes ->
  inits (init_tables rc sizes : init (list (symtab D))) (fun l => length l = length sizes /\ Forall empty_symtab l).
Proof.
  induction 1 as [|size sizes Hs _ IH]; [by apply inits_ret|]. cbn [init_tables].
  eapply inits_bind; [by apply inits_symtab|]. intros t Ht. eapply inits_bind; [exact IH|]. intros ts [Hl Hts].
  apply inits_ret. split; [simpl; lia|by constructor].
Qed.

Lemma empty_nel {D} (h : hashtab_val (list Z) D) : hashtab_wf cstring_ok h -> hashtab_model h = ∅ -> nel h = 0.
Proof. intros Hw Hm. by rewrite (nel_size cstring_ok h Hw), Hm, map_size_empty. Qed.

Lemma inits_unit rc : inits (init_alloc rc (alloc_new ())) (fun _ => True).
Proof. by eapply inits_alloc. Qed.

Lemma inits_roles roles scope :
  empty_symtab roles -> empty_symtab scope ->
  inits (roles_init roles scope) (fun r => nprim r.1 = 1 /\
    exists h, table r.1 = Some h /\ hashtab_wf cstring_ok h /\ hashtab_model h = {[OBJECT_R := object_r]} /\ nel h = 1).
Proof.
  intros (Hn & h & Ht & Hw & Hm) (Hns & s & Hts & Hws & Hms). unfold roles_init.
  eapply inits_bind; [apply inits_unit|]. intros _ _. eapply inits_bind; [apply inits_unit|]. intros _ _.
  destruct (symtab_insert_new SYM_ROLES (fun r => ro_flavor r =? ROLE_ROLE) OBJECT_R empty_role roles h s Ht Hw Hws object_r_ok)
    as (h' & s' & E & Hw' & Hn' & Hm' & _); [by rewrite Hm|by rewrite Hms|rewrite empty_nel by done; done..|rewrite Hn; done|].
  destruct (write_symbol_spec h' OBJECT_R (set_role_value 1) Hw') as (h2 & E2 & Hw2 & Hn2 & Hm2).
  eexists. unfold insert_object_r. rewrite Hts, E, Hn. cbn [truthy Z.eqb negb nprim table Z.add]. change (1 =? OBJECT_R_VAL) with true. cbn [negb].
  split; [reflexivity|]. cbn [fst nprim table]. split; [done|]. exists h2. split; [exact E2|]. split; [done|].
  split; [by rewrite Hm2, Hm', Hm, alter_insert_eq|]. rewrite Hn2, Hn', empty_nel by done. done.
Qed.

Lemma empty_fresh {D} kept (s : symtab D) : empty_symtab s -> fresh kept s.
Proof.
  intros (_ & h & Ht & Hw & Hm). exists h. split; [done|]. split; [done|]. split; [rewrite empty_nel by done; lia|]. intros k _. by rewrite Hm.
Qed.

Lemma policydb_init_ok : inits policydb_init initial_policy.
Proof.
  unfold policydb_init, init_symtabs.
  eapply (inits_bind _ _ (fun st => empty_symtab (sym_commons st) /\ empty_symtab (sym_classes st) /\ empty_symtab (sym_roles st) /\
    empty_symtab (sym_types st) /\ empty_symtab (sym_users st) /\ empty_symtab (sym_bools st) /\ empty_symtab (sym_levels st) /\ empty_symtab (sym_cats st))).
  { repeat (eapply inits_bind; [apply inits_symtab; lia|]; intros ? ?). by apply inits_ret. }
  intros st (H1 & H2 & H3 & H4 & H5 & H6 & H7 & H8).
  assert (Hsizes : Forall (fun size => 0 < size < 2 ^ 32) symtab_sizes) by (repeat constructor).
  assert (Hdecl : Forall (fun size => 0 < size < 2 ^ 32) decl_symtab_sizes) by (repeat constructor).
  eapply inits_bind; [by apply inits_tables|]. intros scope [Hls Hscope]. eapply inits_bind; [apply inits_unit|]. intros _ _.
  eapply (inits_bind _ _ (fun d => d = AvruleDecl 1 (replicate 8 ebitmap_init))).
  { eapply inits_bind; [apply inits_unit|]. intros _ _. eapply inits_bind; [by apply inits_tables|]. intros _ _. by apply inits_ret. }
  intros decl ->. assert (Hrs : empty_symtab (default (Symtab None 0) (scope !! SYM_ROLES))).
  { destruct (lookup_lt_is_Some_2 scope SYM_ROLES) as [s Es]; [rewrite Hls; apply Nat.ltb_lt; reflexivity|]. rewrite Es. by eapply Forall_lookup_1. }
  eapply inits_bind; [by apply inits_roles|]. intros [roles role_scope] (Hn & h & Ht & Hw & Hm & Hnel). cbn [fst] in *.
  destruct (hashtab_create_spec (D := list filename_trans_datum) ft_key_ok 1024 ltac:(lia)) as (ft & Eft & Hwft & Hmft).
  destruct (hashtab_create_spec (D := mls_range) any_key 256 ltac:(lia)) as (rg & Erg & Hwrg & Hmrg).
  eapply (inits_bind _ _ (fun t => t = ft)); [by eapply (inits_alloc _ _ ft)|]. intros ? ->.
  eapply (inits_bind _ _ (fun t => t = rg)); [by eapply (inits_alloc _ _ rg)|]. intros ? ->.
  apply inits_ret. split; cbn [pdb p_symtab p_scope p_global p_index filename_trans filename_trans_count p_genfs range_tr ocontexts sym_val_to_name sym_roles]; try done.
  - split; cbn [sym_commons sym_classes sym_roles sym_types sym_users sym_bools sym_levels sym_cats]; try (by apply empty_fresh).
    exists h. split; [done|]. split; [done|]. split; [lia|]. intros k Hk. rewrite Hm. apply lookup_singleton_None. intros <-.
    unfold role_kept in Hk. by rewrite strcmp_refl in Hk.
  - by exists h.
  - rewrite list_lookup_insert_ne by done.
    destruct (lookup_lt_is_Some_2 scope SYM_TYPES) as [s Es]; [rewrite Hls; apply Nat.ltb_lt; reflexivity|].
    destruct (Forall_lookup_1 _ _ _ _ Hscope Es) as (_ & hs & Hts & Hws & Hms). by exists s, hs.
  - by exists ft.
  - by exists rg.
Qed.

(** ** Symbols that were read back *)

(** The symbols of [s'] are those of [s], with related data. *)
Definition same_symbols {D} (R : D -> D -> Prop) (s s' : symtab D) : Prop :=
  nprim s' = nprim s /\ exists h h', table s = Some h /\ table s' = Some h' /\ hashtab_wf cstring_ok h' /\
    forall k, option_Forall2 R (hashtab_model h !! k) (hashtab_model h' !! k).

Lemma same_every {D} (R : D -> D -> Prop) s s' : symtab_rel every R s s' -> same_symbols R s s'.
Proof. intros (Hn & h & h' & H1 & H2 & H3 & H4). split; [done|]. exists h, h'. split_and!; try done. intros k. by apply H4. Qed.

Lemma same_eq {D} (s s' : symtab D) h h' :
  same_symbols eq s s' -> table s = Some h -> table s' = Some h' -> hashtab_model h' = hashtab_model h.
Proof.
  intros (_ & h1 & h2 & H1 & H2 & _ & Hm) E E'. assert (h1 = h) by congruence. assert (h2 = h') by congruence. subst.
  apply map_eq. intros k. by destruct (Hm k) as [x y ->|].
Qed.

Lemma same_values {D} (val : D -> option Z) (R : D -> D -> Prop) s s' :
  (forall d d', R d d' -> val d' = val d) -> same_symbols R s s' -> symtab_values val s -> symtab_values val s'.
Proof.
  intros HR (Hn & h & h' & H1 & H2 & Hw & Hm) (h0 & E & _ & Hp & Hv). assert (h0 = h) by congruence. subst h0.
  exists h'. rewrite Hn. split; [done|]. split; [done|]. split; [done|]. eapply values_changed; [|exact Hv].
  intros k. destruct (Hm k); constructor. by apply HR.
Qed.

Lemma indexed_unique {D A} (val : D -> option Z) (ptr : list Z -> D -> A) n m l1 l2 :
  indexed val ptr n m l1 -> indexed val ptr n m l2 -> l1 = l2.
Proof.
  intros [L1 H1] [L2 H2]. apply list_eq. intros i. destruct (decide (i < length l1)%nat) as [Hi|Hi].
  - destruct (lookup_lt_is_Some_2 l1 i Hi) as [x Hx], (lookup_lt_is_Some_2 l2 i ltac:(lia)) as [y Hy]. rewrite Hx, Hy. f_equal.
    assert (E : forall a, x = Some a <-> y = Some a).
    { intros a. pose proof (H1 (Z.of_nat i + 1) a ltac:(lia)) as A1. pose proof (H2 (Z.of_nat i + 1) a ltac:(lia)) as A2.
      rewrite Z.add_simpl_r, Nat2Z.id in A1, A2. rewrite Hx in A1. rewrite Hy in A2. split; intros ->; f_equal.
      - apply (inj Some), A2, A1. done.
      - apply (inj Some), A1, A2. done. }
    destruct x as [a|]; [symmetry; by apply E|]. destruct y as [b|]; [by apply E|done].
  - rewrite !(proj2 (lookup_ge_None _ i)) by lia. done.
Qed.

Lemma same_indexed {D} (val : D -> option Z) (R : D -> D -> Prop) s s' l l' :
  (forall d d', R d d' -> val d' = val d) -> same_symbols R s s' ->
  symtab_indexed val the_key s l -> symtab_indexed val the_key s' l' -> l' = l.
Proof.
  intros HR (Hn & h & h' & H1 & H2 & _ & Hm) (h0 & E & Hi) (h0' & E' & Hi'). assert (h0 = h) by congruence. assert (h0' = h') by congruence. subst.
  rewrite Hn in Hi'. eapply indexed_unique; [exact Hi'|]. eapply (indexed_changed val (fun k => k)); [|exact Hi].
  intros k. destruct (Hm k); constructor. by apply HR.
Qed.
