(* ===== verification/KernelPolicySymbols.v ===== *)
(** * The symbols and the arrays of a policy that is loaded again, and its contexts *)

From S2P Require Import Prelude Policyfile Ebitmap EbitmapSpec EbitmapQuery EbitmapUpdate EbitmapProps Hashtab HashtabSpec Symtab Codec Avtab Policydb.
From S2P Require Import Sepolicy SepolicyAttr Symbols CodecTable SymbolsCodec SymbolsKinds SymbolsTrip PolicyIndex PolicyIndexSpec PolicyOthersSpec SepolicyType SepolicyTypeInv.
From S2P Require Import Context ContextSpec SepolicyGenfs PolicySections PolicyGenfsSpec Conditional RangeTrans KernelPolicy KernelPolicySpec.

(** The symbols of a policy with its arrays and caches built. *)
Record indexed_policy (vers : Z) (db : policydb) : Prop := {
  xp_kernel : kernel_policy vers db;
  xp_index : others_indexed (p_symtab db) (p_index db) (type_val_to_struct db);
  xp_object_r : exists h r, table (sym_roles (p_symtab db)) = Some h /\ hashtab_model h !! OBJECT_R = Some r /\ ro_value r = OBJECT_R_VAL;
  xp_roles : forall h, table (sym_roles (p_symtab db)) = Some h ->
    map_Forall (fun _ r => role_cached (type_val_to_struct db) r r) (hashtab_model h);
  xp_users : forall h, table (sym_users (p_symtab db)) = Some h -> map_Forall (fun _ u => user_cached u u) (hashtab_model h)
}.

(** A role is read back without its cache; "object_r" is the one that was there. *)
Definition role_reread (r r' : role_datum) : Prop := role_rel r r' \/ ro_value r = OBJECT_R_VAL /\ r' = object_r.

(** A role and a user after the caches were built again. *)
Definition role_final (r r' : role_datum) : Prop := r' = r \/ ro_value r = OBJECT_R_VAL /\ ro_value r' = OBJECT_R_VAL.

Definition user_final (u u' : user_datum) : Prop :=
  us_value u' = us_value u /\ us_roles u' = us_roles u /\ us_cache u' = us_cache u /\
  exp_range u' = exp_range u /\ exp_dfltlevel u' = exp_dfltlevel u /\ us_bounds u' = us_bounds u.

Record symbols_same (st st' : symtabs) : Prop := {
  ss_commons : same_symbols common_rel (sym_commons st) (sym_commons st');
  ss_classes : same_symbols class_rel (sym_classes st) (sym_classes st');
  ss_roles : same_symbols role_final (sym_roles st) (sym_roles st');
  ss_types : same_symbols eq (sym_types st) (sym_types st');
  ss_users : same_symbols user_final (sym_users st) (sym_users st');
  ss_bools : same_symbols eq (sym_bools st) (sym_bools st');
  ss_levels : same_symbols eq (sym_levels st) (sym_levels st');
  ss_cats : same_symbols eq (sym_cats st) (sym_cats st')
}.

Section reread.
Context (vers : Z) (db : policydb) (p0 : policy) (st' : symtabs).
Hypothesis Hxp : indexed_policy vers db.
Hypothesis Hinit : initial_policy p0.
Hypothesis Hrel : symtabs_rel (p_symtab db) st'.
Hypothesis Hleft : symtab_left role_kept (sym_roles (p_symtab (pdb p0))) (sym_roles st').

Lemma roles_reread : same_symbols role_reread (sym_roles (p_symtab db)) (sym_roles st').
Proof.
  destruct (sr_roles _ _ Hrel) as (Hn & h & h' & H1 & H2 & Hw & Hm). split; [done|]. exists h, h'. split_and!; try done. intros k.
  destruct (role_kept k) eqn:Hk.
  { specialize (Hm k Hk). destruct Hm; constructor. by left. }
  destruct Hleft as (h0 & h2 & E0 & E2 & Hl). assert (h2 = h') by congruence. subst h2. rewrite (Hl k Hk).
  destruct (ip_roles _ Hinit) as (h3 & E3 & Hm3). assert (h3 = h0) by congruence. subst h3. rewrite Hm3.
  destruct (xp_object_r _ _ Hxp) as (h4 & r & E4 & Hr & Hv). assert (h4 = h) by congruence. subst h4.
  destruct (decide (k = OBJECT_R)) as [->|Hne].
  - rewrite Hr, lookup_singleton_eq. constructor. by right.
  - rewrite lookup_singleton_ne by done. destruct (hashtab_model h !! k) as [d|] eqn:E; [|constructor]. exfalso. apply Hne.
    destruct (kp_roles _ _ (xp_kernel _ _ Hxp)) as (h5 & E5 & Hw5 & _). assert (h5 = h) by congruence. subst h5.
    apply strcmp_zero; [|exact object_r_ok|unfold role_kept in Hk; by apply Z.eqb_eq, negb_false_iff].
    by eapply model_key_ok.
Qed.

Lemma reread_value r r' : role_reread r r' -> role_val r' = role_val r.
Proof. intros [->|[Hv ->]]; [done|]. unfold role_val. by rewrite Hv. Qed.

Lemma user_rel_value u u' : user_rel u u' -> user_val u' = user_val u.
Proof. by intros ->. Qed.

Lemma class_rel_value c c' : class_rel c c' -> class_val c' = class_val c.
Proof. intros [H _ _ _ _ _ _]. unfold class_val. by rewrite H. Qed.

Lemma common_rel_value c c' : common_rel c c' -> common_val c' = common_val c.
Proof. intros [H _]. unfold common_val. by rewrite H. Qed.

Lemma eq_value {D} (val : D -> option Z) (d d' : D) : d = d' -> val d' = val d.
Proof. by intros ->. Qed.

Lemma types_same h h' : table (sym_types (p_symtab db)) = Some h -> table (sym_types st') = Some h' -> hashtab_model h' = hashtab_model h.
Proof. apply same_eq, same_every, Hrel. Qed.

(** What [policydb_index_others] needs of the policy that is read. *)
Lemma reread_others db1 :
  p_symtab db1 = st' -> policy_type db1 = POLICY_KERN -> length (sym_val_to_name (p_index db1)) = 8%nat ->
  exists types roles users, others_ok db1 types roles users.
Proof.
  intros Hst Hk Hl. pose proof (xp_kernel _ _ Hxp) as Hkp.
  destruct (kp_symbols _ _ Hkp) as (commons & Hok).
  pose proof (same_every _ _ _ (sr_types _ _ Hrel)) as Ht. pose proof (same_every _ _ _ (sr_users _ _ Hrel)) as Hu.
  pose proof Ht as (Hnt & t & t' & Et & Et' & Hwt & Hmt). pose proof roles_reread as (Hnr & r & r' & Er & Er' & Hwr & Hmr).
  pose proof Hu as (Hnu & u & u' & Eu & Eu' & Hwu & Hmu).
  assert (Htt : hashtab_model t' = hashtab_model t) by (by apply types_same).
  destruct (so_types _ _ _ Hok) as (t0 & Et0 & _ & Htok & _). assert (t0 = t) by congruence. subst t0.
  exists t', r', u'. split; rewrite ?Hst; try done.
  - eapply same_values; [by apply eq_value|exact Ht|apply Hkp].
  - eapply same_values; [apply reread_value|exact roles_reread|apply Hkp].
  - eapply same_values; [apply user_rel_value|exact Hu|apply Hkp].
  - eapply same_values; [by apply eq_value|apply same_every, Hrel|apply Hkp].
  - eapply same_values; [by apply eq_value|apply same_every, Hrel|apply Hkp].
  - eapply same_values; [by apply eq_value|apply same_every, Hrel|apply Hkp].
  - intros h Hh. destruct (same_every _ _ _ (sr_levels _ _ Hrel)) as (_ & l & l' & El & El' & _).
    assert (l' = h) by congruence. subst l'. rewrite (same_eq _ _ l h (same_every _ _ _ (sr_levels _ _ Hrel)) El El').
    destruct (so_levels _ _ _ Hok) as (h0 & E & _ & Hlev & _). assert (h0 = l) by congruence. subst h0.
    intros k d Hkd. destruct (Hlev k d Hkd) as (_ & _ & _ & lv & Hlv & _). by exists lv.
  - rewrite Hnt. pose proof (kp_bound _ _ Hkp). unfold p_types in *. lia.
  - rewrite Htt. by apply types_plain.
  - rewrite Htt. eapply (map_Forall_changed (fun _ => role_types_ok (hashtab_model t)) _ role_reread); [|exact (kp_role_types _ _ Hkp r t Er Et)|exact Hmr].
    intros k d d' Hd [->|[_ ->]]; [exact Hd|]. exists ebitmap_init. split; [done|]. split; [apply ebitmap_init_empty|].
    intros i Hi. by rewrite (proj2 ebitmap_init_empty) in Hi.
  - eapply (map_Forall_changed (fun _ => user_roles_ok) _ user_rel); [|exact (kp_user_roles _ _ Hkp u Eu)|exact Hmu]. intros k d d' Hd ->. exact Hd.
Qed.

(** ** The caches *)

Lemma role_recached structs r r1 r2 :
  role_cached structs r r -> role_reread r r1 -> role_cached structs r1 r2 -> role_final r r2.
Proof.
  intros (e0 & E0 & Hw0 & Hm0) [->|[Hv ->]] (e & -> & Hw & Hm); [left|right; done].
  assert (Hc : ro_cache r = e0) by (rewrite E0; done).
  assert (e = e0) as ->; [|rewrite E0 at 1; done]. apply ebitmap_ext; [done..|]. intros b. rewrite Hm, Hm0. done.
Qed.

Lemma user_recached u u1 u2 : user_cached u u -> user_rel u u1 -> user_cached u1 u2 -> user_final u u2.
Proof.
  intros Hc -> ->. unfold user_final. cbn. assert (E : us_cache u = rs_roles (us_roles u)) by (exact (f_equal us_cache Hc)). by split_and!.
Qed.

Lemma option_trans {A B C} (P : A -> Prop) (R1 : A -> B -> Prop) (R2 : B -> C -> Prop) (R : A -> C -> Prop) x y z :
  (forall a, x = Some a -> P a) -> (forall a b c, P a -> R1 a b -> R2 b c -> R a c) -> option_Forall2 R1 x y -> option_Forall2 R2 y z -> option_Forall2 R x z.
Proof.
  intros HP HR Hxy Hyz. destruct Hxy as [a b Hab|]; inversion Hyz as [? c Hbc|]; subst; constructor.
  exact (HR a b c (HP a eq_refl) Hab Hbc).
Qed.

(** The policy after its arrays and caches were built. *)
Definition final_db (hr : hashtab_val (list Z) role_datum) (hu : hashtab_val (list Z) user_datum) structs ix db1 : policydb :=
  set_symtab (set_users (Some hu) (set_roles (Some hr) st')) (set_type_structs structs (set_index ix db1)).

Record indexed_again (db1 db2 : policydb) : Prop := {
  ia_symbols : symbols_same (p_symtab db) (p_symtab db2);
  ia_structs : type_val_to_struct db2 = type_val_to_struct db;
  ia_index : others_indexed (p_symtab db2) (p_index db2) (type_val_to_struct db2);
  ia_classes : sym_classes (p_symtab db2) = sym_classes st';
  ia_form : exists hr hu structs ix, db2 = final_db hr hu structs ix db1
}.

Lemma index_others_again db1 :
  p_symtab db1 = st' -> policy_type db1 = POLICY_KERN -> length (sym_val_to_name (p_index db1)) = 8%nat ->
  exists db2, policydb_index_others (db1, []) = Some (0, (db2, [])) /\ indexed_again db1 db2.
Proof.
  intros Hst Hk Hl. destruct (reread_others db1 Hst Hk Hl) as (types & roles & users & Hok).
  destruct (policydb_index_others_ok db1 types roles users Hok) as (ix & structs & hr & hu & E & Hix & _ & _ & _ & _ & Hwr & Hnr & Hwu & Hnu & Hcr & Hcu).
  rewrite Hst in E, Hix. exists (final_db hr hu structs ix db1). split; [exact E|].
  pose proof (oo_rtab _ _ _ _ Hok) as Er'. pose proof (oo_utab _ _ _ _ Hok) as Eu'. rewrite Hst in Er', Eu'.
  assert (Hs : structs = type_val_to_struct db).
  { destruct (oi_struct _ _ _ Hix) as (t' & Et' & Hi'). destruct (oi_struct _ _ _ (xp_index _ _ Hxp)) as (t & Et & Hi).
    rewrite (types_same t t' Et Et') in Hi'. destruct (sr_types _ _ Hrel) as [Hn _]. rewrite Hn in Hi'. by eapply indexed_unique. }
  pose proof roles_reread as (Hrn & r & r' & Er & Er2 & _ & Hmr). assert (r' = roles) by congruence. subst r'.
  pose proof (same_every _ _ _ (sr_users _ _ Hrel)) as (Hun & u & u' & Eu & Eu2 & _ & Hmu). assert (u' = users) by congruence. subst u'.
  split; try done.
  - split; cbn [final_db p_symtab set_symtab set_users set_roles sym_commons sym_classes sym_roles sym_types sym_users sym_bools sym_levels sym_cats];
      try (apply same_every; apply Hrel).
    + split; [exact Hrn|]. exists r, hr. split_and!; try done. intros k.
      eapply option_trans; [| |exact (Hmr k)|exact (Hcr k)]; [intros a Ha; exact (xp_roles _ _ Hxp r Er k a Ha)|]. cbn beta. rewrite Hs. intros. by eapply role_recached.
    + split; [exact Hun|]. exists u, hu. split_and!; try done. intros k.
      eapply option_trans; [| |exact (Hmu k)|exact (Hcu k)]; [intros a Ha; exact (xp_users _ _ Hxp u Eu k a Ha)|]. intros. by eapply user_recached.
  - cbn [final_db p_symtab p_index type_val_to_struct set_symtab set_type_structs set_index]. destruct Hix as [L R T U B V C R2 U2 B2 S2].
    assert (HR : forall l, symtab_indexed role_val the_key (sym_roles st') l -> symtab_indexed role_val the_key (Symtab (Some hr) (nprim (sym_roles st'))) l).
    { intros l. apply (indexed_table_changed role_val (role_cached structs) _ roles hr l Er'); [by intros d d' (e & -> & _)|exact Hcr]. }
    assert (HU : forall l, symtab_indexed user_val the_key (sym_users st') l -> symtab_indexed user_val the_key (Symtab (Some hu) (nprim (sym_users st'))) l).
    { intros l. apply (indexed_table_changed user_val user_cached _ users hu l Eu'); [by intros d d' ->|exact Hcu]. }
    split; cbn [set_users set_roles sym_roles sym_users sym_types sym_bools sym_levels sym_cats]; auto.
  - by exists hr, hu, structs, ix.
Qed.
(** ** The permissions that are looked up in between *)

Definition perm_bit (s : symtab perm_datum) (name : list Z) : option Z :=
  t ← table s; (fun perm => u32 (Z.shiftl 1 (perm_value perm - 1))) <$> hashtab_model t !! name.

(** The bit of a permission of a class or of its common permissions; 0 without one. *)
Definition class_perm (d : class_datum) (name : list Z) : Z :=
  match perm_bit (cls_permissions d) name with
  | Some bit => bit
  | None => default 0 (com ← comdatum d; perm_bit (com_permissions com) name)
  end.

Definition class_named (st : symtabs) (name : list Z) : option class_datum := h ← table (sym_classes st); hashtab_model h !! name.

Definition process_datum (st : symtabs) : option class_datum := class_named st PROCESS.

Definition process_perm (st : symtabs) (name : list Z) : Z := from_option (fun d => class_perm d name) 0 (process_datum st).

Lemma perm_bit_same s s' name : perms_same s s' -> perm_bit s' name = perm_bit s name.
Proof. intros (_ & t & t' & E & E' & _ & Hm). unfold perm_bit. by rewrite E, E'; cbn; rewrite Hm. Qed.

Lemma class_perm_same d d' name : class_rel d d' -> class_perm d' name = class_perm d name.
Proof.
  intros [_ _ Hc Hp _ _ _]. unfold class_perm. rewrite (perm_bit_same _ _ _ Hp). destruct (perm_bit _ _); [done|].
  destruct Hc as [c c' [_ Hcp]|]; [|done]. cbn. by rewrite (perm_bit_same _ _ _ Hcp).
Qed.

Lemma class_reread name : option_Forall2 class_rel (class_named (p_symtab db) name) (class_named st' name).
Proof. destruct (same_every _ _ _ (sr_classes _ _ Hrel)) as (_ & h & h' & E & E' & _ & Hm). unfold class_named. rewrite E, E'. exact (Hm name). Qed.

Lemma process_reread : option_Forall2 class_rel (process_datum (p_symtab db)) (process_datum st').
Proof. apply class_reread. Qed.

Lemma process_perm_same name : process_perm st' name = process_perm (p_symtab db) name.
Proof. unfold process_perm. destruct process_reread as [d d' H|]; [|done]. by apply class_perm_same. Qed.

Lemma search_perm s s' name :
  perms_same s s' -> cstring_ok name ->
  (fun perm => u32 (Z.shiftl 1 (perm_value perm - 1))) <$> hashtab_search (table s') name = perm_bit s' name.
Proof.
  intros (_ & t & t' & E & E' & Hw & _) Hn. unfold perm_bit. rewrite E'. rewrite (hashtab_search_spec cstring_ok) by done. done.
Qed.

Lemma process_key : cstring_ok PROCESS.
Proof. unfold PROCESS, cstring_ok. repeat constructor; lia. Qed.

Lemma class_small name d' : class_named st' name = Some d' -> 0 <= cls_value d' < 2 ^ 16.
Proof.
  intros E. destruct (kp_symbols _ _ (xp_kernel _ _ Hxp)) as (commons & Hok). destruct (so_classes _ _ _ Hok) as (h & Eh & _ & Hc & _).
  pose proof (class_reread name) as H. rewrite E in H. destruct (class_named (p_symtab db) name) as [d|] eqn:Ed; inversion H as [? ? HR|]; subst.
  rewrite (cr_value _ _ HR). unfold class_named in Ed. rewrite Eh in Ed. exact (cl_value _ _ _ _ (Hc _ _ Ed)).
Qed.

Lemma class_value_found name : cstring_ok name ->
  policydb_string_to_security_class (sym_classes st') name = from_option cls_value 0 (class_named st' name).
Proof.
  intros Hn. pose proof (class_small name) as Hs.
  destruct (same_every _ _ _ (sr_classes _ _ Hrel)) as (_ & h & h' & E & E' & Hw & _). unfold policydb_string_to_security_class, class_named in *.
  rewrite E' in *. rewrite (hashtab_search_spec cstring_ok) by done. cbn [mbind option_bind] in *. destruct (hashtab_model h' !! name) as [d|]; [|done].
  cbn [from_option]. by rewrite u16_small by (by apply Hs).
Qed.

(** A class that is looked up in the tables that were read has the value it had. *)
Lemma class_value_same name : cstring_ok name ->
  policydb_string_to_security_class (sym_classes st') name = from_option cls_value 0 (class_named (p_symtab db) name).
Proof. intros Hn. rewrite class_value_found by done. destruct (class_reread name) as [d d' H|]; [apply H|done]. Qed.

Lemma av_perm_found db1 name :
  p_symtab db1 = st' -> symtab_indexed class_val the_key (sym_classes st') (class_val_to_struct (p_index db1)) -> cstring_ok name ->
  policydb_string_to_av_perm db1 (policydb_string_to_security_class (sym_classes st') PROCESS) name = Some (process_perm st' name).
Proof.
  intros Hst (h1 & E1 & _ & Hi) Hn. rewrite class_value_found by apply process_key. fold (process_datum st'). unfold policydb_string_to_av_perm, process_perm.
  pose proof process_reread as Hp. destruct (process_datum st') as [d'|] eqn:Ed; [|done].
  assert (exists d, class_rel d d') as [d HR] by (inversion Hp; eauto). cbn [from_option]. clear Hp.
  pose proof (same_every _ _ _ (sr_classes _ _ Hrel)) as Hs. pose proof Hs as (_ & h & h' & E & E' & Hw & _). assert (h1 = h') as -> by congruence.
  unfold process_datum, class_named in Ed. rewrite E' in Ed. cbn [mbind option_bind] in Ed.
  destruct (same_values _ _ _ _ class_rel_value Hs (kp_classes _ _ (xp_kernel _ _ Hxp))) as (h2 & E2 & _ & _ & Hv & _).
  assert (h2 = h') by congruence. subst h2. specialize (Hv _ _ Ed _ eq_refl).
  unfold p_classes. rewrite Hst. rewrite (proj2 (Z.eqb_neq _ _)), (proj2 (Z.ltb_ge _ _)) by lia. cbn [orb].
  unfold struct_at. rewrite (proj2 (Hi (cls_value d') PROCESS ltac:(lia))) by (by exists PROCESS, d').
  rewrite E', (hashtab_search_spec cstring_ok), Ed by (done || apply process_key). cbn [fmap option_fmap option_map mbind option_bind].
  unfold class_perm. rewrite <-(search_perm _ _ name (cr_perms _ _ HR) Hn).
  destruct (hashtab_search (table (cls_permissions d')) name) as [perm|]; [done|]. cbn [fmap option_fmap option_map].
  destruct (cr_common _ _ HR) as [c c' [_ Hc]|]; [|done]. cbn [mbind option_bind]. rewrite <-(search_perm _ _ name Hc Hn).
  by destruct (hashtab_search (table (com_permissions c')) name).
Qed.

Lemma decodes_rd_step f db1 db2 : f (db1, []) = Some (0, (db2, [])) -> decodes (rd_step f db1) [] db2.
Proof. intros E fp fp' ->%reads_nil. unfold rd_step. unfold oracle in *. by rewrite E. Qed.

Lemma decodes_found {A} (a : A) x : x = Some a -> decodes (rd_found x) [] a.
Proof. intros ->. apply decodes_ret. Qed.

Lemma decodes_indexes db1 :
  p_symtab db1 = st' -> policy_type db1 = POLICY_KERN -> length (sym_val_to_name (p_index db1)) = 8%nat -> decls_ok (p_global db1) ->
  exists db2, decodes (read_indexes (policydb_string_to_security_class (sym_classes st') PROCESS) db1) []
      (db2, process_perm (p_symtab db) TRANSITION, Z.lor (process_perm (p_symtab db) TRANSITION) (process_perm (p_symtab db) DYNTRANSITION)) /\
    indexed_again db1 db2.
Proof.
  intros Hst Hk Hl Hd. destruct (policydb_index_decls_ok db1 Hd) as (ld & Ed & _).
  destruct (index_of_decls db1 db1 ld (index_of_self _ Hl)) as (ix0 & E0 & Hl0). rewrite E0 in Ed.
  assert (Hst0 : p_symtab (set_index ix0 db1) = st') by (by rewrite p_symtab_index).
  destruct (index_classes_ok (set_index ix0 db1)) as (l0 & l1 & lc & Ec & _ & _ & Hlc); rewrite ?Hst0; [..|exact Hl0|].
  { eapply same_values; [apply common_rel_value|apply same_every, Hrel|apply Hxp]. }
  { eapply same_values; [apply class_rel_value|apply same_every, Hrel|apply Hxp]. }
  rewrite Hst0 in Hlc. remember (set_class_structs lc (set_names SYM_CLASSES l1 (set_names SYM_COMMONS l0 (set_index ix0 db1)))) as dbc eqn:Edbc.
  assert (Hlc' : class_val_to_struct (p_index dbc) = lc) by (by rewrite Edbc).
  destruct (index_of_classes db1 _ lc (index_of_names db1 _ SYM_CLASSES l1 (index_of_names db1 (set_index ix0 db1) SYM_COMMONS l0 (ex_intro _ ix0 (conj eq_refl Hl0)))))
    as (ix1 & E1 & Hl1). rewrite <-Edbc in E1. clear Edbc. subst dbc.
  destruct (index_others_again (set_index ix1 db1)) as (db2 & Eo & Ha); [by rewrite p_symtab_index|exact Hk|exact Hl1|].
  exists db2. split.
  - unfold read_indexes. eapply decodes_step; [by apply decodes_rd_step|]. eapply decodes_step; [by apply decodes_rd_step|].
    rewrite <-!process_perm_same.
    eapply decodes_step; [apply decodes_found, av_perm_found; [by rewrite p_symtab_index|by rewrite Hlc'|unfold TRANSITION, cstring_ok; repeat constructor; lia]|].
    eapply decodes_step; [apply decodes_found, av_perm_found; [by rewrite p_symtab_index|by rewrite Hlc'|unfold DYNTRANSITION, TRANSITION, cstring_ok; repeat constructor; lia]|].
    eapply decodes_step; [by apply decodes_rd_step|]. apply decodes_ret.
  - destruct Ha as [A1 A2 A3 A4 (hr & hu & structs & ix & ->)]. split; [exact A1|exact A2|exact A3|exact A4|]. by exists hr, hu, structs, ix.
Qed.
End reread.

(** ** The contexts that a policy accepts *)

(** Elements of arrays lead to related symbols. *)
Lemma struct_same {D} (val : D -> option Z) (R : D -> D -> Prop) s s' l v :
  symtab_values val s -> same_symbols R s s' -> symtab_indexed val the_key s l ->
  option_Forall2 (option_Forall2 (fun d d' => R d d' /\ (1 <= v -> val d = Some v))) (struct_at (table s) l v) (struct_at (table s') l v).
Proof.
  intros (h0 & E0 & Hw0 & _) (_ & h & h' & E & E' & Hw & Hm) (h1 & E1 & Hl & Hi).
  assert (h0 = h) by congruence. assert (h1 = h) by congruence. subst h0 h1. rewrite E, E'. unfold struct_at.
  destruct (l !! Z.to_nat (v - 1)) as [[key|]|] eqn:El; [|constructor; constructor|constructor].
  destruct (proj1 (Hi (Z.of_nat (Z.to_nat (v - 1)) + 1) key ltac:(lia))) as (k & d & Hk & Hv & ->); [by rewrite Z.add_simpl_r, Nat2Z.id|].
  assert (Hok : cstring_ok k) by exact (model_key_ok _ _ _ Hw0 Hk). rewrite !(hashtab_search_spec cstring_ok) by done.
  specialize (Hm k). rewrite Hk in Hm |- *. inversion Hm as [? d' HR|]; subst. constructor. constructor. split; [done|].
  intros Hv1. rewrite Hv. f_equal. lia.
Qed.

Section validity.
Context (db db2 : policydb).
Hypothesis Hroles : symtab_values role_val (sym_roles (p_symtab db)).
Hypothesis Husers : symtab_values user_val (sym_users (p_symtab db)).
Hypothesis Hlevels : symtab_values sens_val (sym_levels (p_symtab db)).
Hypothesis Hix : others_indexed (p_symtab db) (p_index db) (type_val_to_struct db).
Hypothesis Hix2 : others_indexed (p_symtab db2) (p_index db2) (type_val_to_struct db2).
Hypothesis Hsame : symbols_same (p_symtab db) (p_symtab db2).
Hypothesis Hmls : p_mls db2 = p_mls db.

Lemma final_value r r' : role_final r r' -> role_val r' = role_val r.
Proof. unfold role_val. intros [->|[-> ->]]; done. Qed.

Lemma user_final_value u u' : user_final u u' -> user_val u' = user_val u.
Proof. intros (H & _). unfold user_val. by rewrite H. Qed.

Lemma role_structs_same : role_val_to_struct (p_index db2) = role_val_to_struct (p_index db).
Proof. eapply same_indexed; [apply final_value|apply Hsame|apply Hix|apply Hix2]. Qed.

Lemma user_structs_same : user_val_to_struct (p_index db2) = user_val_to_struct (p_index db).
Proof. eapply same_indexed; [apply user_final_value|apply Hsame|apply Hix|apply Hix2]. Qed.

Lemma level_names_same : names_of SYM_LEVELS db2 = names_of SYM_LEVELS db.
Proof. exact (same_indexed _ eq _ _ _ _ (eq_value sens_val) (ss_levels _ _ Hsame) (oi_levels _ _ _ Hix) (oi_levels _ _ _ Hix2)). Qed.

Lemma user_at v :
  option_Forall2 (option_Forall2 user_final) (struct_at (table (sym_users (p_symtab db))) (user_val_to_struct (p_index db)) v)
    (struct_at (table (sym_users (p_symtab db2))) (user_val_to_struct (p_index db2)) v).
Proof.
  rewrite user_structs_same. pose proof (struct_same _ _ _ _ _ v Husers (ss_users _ _ Hsame) (oi_user _ _ _ Hix)) as H.
  destruct H as [? ? [? ? [H _]|]|]; constructor; constructor; exact H.
Qed.

Lemma role_valid_same c : 1 <= c_role c -> c_role c <> OBJECT_R_VAL -> role_isvalid db2 c = role_isvalid db c.
Proof.
  intros H1 Hne. unfold role_isvalid. rewrite role_structs_same.
  pose proof (struct_same _ _ _ _ _ (c_role c) Hroles (ss_roles _ _ Hsame) (oi_role _ _ _ Hix)) as H.
  destruct H as [? ? [r r' [HR Hv]|]|]; [|done..]. cbn [mbind option_bind].
  assert (r' = r) as ->. { destruct HR as [->|[Hr _]]; [done|]. specialize (Hv H1). unfold role_val in Hv. injection Hv as Hv. congruence. }
  destruct (truthy _); [|done]. cbn [negb]. destruct (user_at (c_user c)) as [? ? [u u' (_ & _ & Hc & _)|]|]; [|done..].
  cbn [mbind option_bind]. by rewrite Hc.
Qed.

Lemma level_valid_same l : level_isvalid db2 l = level_isvalid db l.
Proof.
  unfold level_isvalid. rewrite level_names_same. pose proof (ss_levels _ _ Hsame) as Hl. pose proof Hl as (Hn & h & h' & E & E' & Hw & _).
  rewrite Hn. destruct (ss_cats _ _ Hsame) as [Hnc _]. rewrite Hnc. destruct (_ || _); [done|].
  destruct (names_of SYM_LEVELS db !! Z.to_nat (sens l - 1)) as [[key|]|] eqn:Ek; [|done..].
  assert (hashtab_search (table (sym_levels (p_symtab db2))) key = hashtab_search (table (sym_levels (p_symtab db))) key) as ->; [|done].
  destruct Hlevels as (h0 & E0 & Hw0 & _). assert (h0 = h) by congruence. subst h0.
  destruct (oi_levels _ _ _ Hix) as (h1 & E1 & _ & Hi). assert (h1 = h) by congruence. subst h1.
  destruct (proj1 (Hi (Z.of_nat (Z.to_nat (sens l - 1)) + 1) key ltac:(lia))) as (k & d & Hk & _ & ->); [by rewrite Z.add_simpl_r, Nat2Z.id|].
  assert (cstring_ok k) by exact (model_key_ok _ _ _ Hw0 Hk). rewrite E, E', !(hashtab_search_spec cstring_ok) by done. by rewrite (same_eq _ _ h h' Hl E E').
Qed.

Lemma mls_valid_same c : mls_context_isvalid db2 c = mls_context_isvalid db c.
Proof.
  unfold mls_context_isvalid. rewrite Hmls, !level_valid_same. destruct (ss_users _ _ Hsame) as [Hn _]. rewrite Hn.
  destruct (user_at (c_user c)) as [? ? [u u' (_ & _ & _ & Hr & _)|]|]; [cbn [mbind option_bind]; by rewrite Hr|done..].
Qed.

Lemma context_valid_same c : 0 <= c_role c -> context_is_valid db2 c = context_is_valid db c.
Proof.
  intros H0. unfold context_is_valid. destruct (ss_roles _ _ Hsame) as [Hr _], (ss_users _ _ Hsame) as [Hu _], (ss_types _ _ Hsame) as [Ht _].
  rewrite Hr, Hu, Ht, mls_valid_same. destruct (Z.eqb_spec (c_role c) 0); [done|]. destruct (Z.eqb_spec (c_role c) OBJECT_R_VAL); [done|].
  by rewrite role_valid_same by (done || lia).
Qed.
End validity.
