(* ===== verification/KernelPolicyTrip.v ===== *)
(** * Kernel policies that are saved and loaded again: the bytes *)

From Stdlib Require Import Sorted.
From S2P Require Import Prelude Policyfile Ebitmap EbitmapSpec EbitmapQuery EbitmapUpdate EbitmapProps Hashtab HashtabSpec Symtab HashtabProps Codec.
From S2P Require Import Avtab AvtabSpec AvtabRules Policydb AvtabIO AvtabProps Sepolicy SepolicySpec SepolicyFilenameSpec SepolicyFilenameIO SepolicyFilenameCompat SepolicyFilenameIOProps.
From S2P Require Import SepolicyAttr SepolicyAttrProps Symbols CodecTable SymbolsCodec SymbolsKinds SymbolsTrip PolicyIndex PolicyIndexSpec PolicyOthersSpec SepolicyType SepolicyTypeInv.
From S2P Require Import Context SepolicyGenfs PolicySections PolicyGenfsSpec Conditional RangeTrans KernelPolicy KernelPolicySpec KernelPolicySymbols.

(** ** Parts that depend on the version *)

Lemma decodes_since {A} v vers (old : A) r bs a : v <= vers -> decodes r bs a -> decodes (rd_since v vers old r) bs a.
Proof. intros Hv Hr. unfold rd_since. by rewrite (proj2 (Z.leb_le _ _) Hv). Qed.

Lemma emits_since v vers w bs : v <= vers -> emits w bs -> emits (wr_since v vers w) bs.
Proof. intros Hv Hw. unfold wr_since. by rewrite (proj2 (Z.leb_le _ _) Hv). Qed.

(** The last part of a stream. *)
Definition decodes_end {A} (r : reader A) (bs : list Z) (a : A) : Prop :=
  forall fp fp', reads fp bs fp' -> pf_data fp' = [] -> r fp [] = Some (a, fp', []).

Lemma end_bind {A B} (r : reader A) (k : A -> reader B) bs1 bs2 a b :
  decodes r bs1 a -> decodes_end (k a) bs2 b -> decodes_end (r ≫= k) (bs1 ++ bs2) b.
Proof.
  intros Hr Hk fp fp' (fp1 & H1 & H2)%reads_app He. unfold mbind, reader_bind. rewrite (Hr _ _ H1). by apply Hk.
Qed.

Lemma end_step {A B} (r : reader A) (k : A -> reader B) bs a b : decodes r [] a -> decodes_end (k a) bs b -> decodes_end (r ≫= k) bs b.
Proof. intros Hr Hk. by apply (end_bind r k [] bs a b). Qed.

Lemma end_last {A B} (r : reader A) (k : A -> reader B) bs a b : decodes_end r bs a -> decodes (k a) [] b -> decodes_end (r ≫= k) bs b.
Proof.
  intros Hr Hk fp fp' H He. rewrite <-(app_nil_r bs) in H. apply reads_app in H as (fp1 & H1 & H2). pose proof (reads_nil _ _ H2). subst fp1.
  unfold mbind, reader_bind. rewrite (Hr _ _ H1 He). by apply Hk.
Qed.

(** ** The header *)

Section header.
Context (p : policy).
Hypothesis Hvers : 25 <= policyvers (pdb p) <= 33.
Hypothesis Htarget : target_platform (pdb p) = SEPOL_TARGET_SELINUX.

Definition ocon_count : Z := if 31 <=? policyvers (pdb p) then 9 else 7.

Definition the_info : compat_info := CompatInfo (policyvers (pdb p)) SEPOL_TARGET_SELINUX 8 ocon_count.

Lemma compat_found : policydb_lookup_compat (policyvers (pdb p)) SEPOL_TARGET_SELINUX = Some the_info.
Proof.
  unfold the_info, ocon_count. generalize dependent (policyvers (pdb p)). intros v Hv.
  assert (E : v = 25 \/ v = 26 \/ v = 27 \/ v = 28 \/ v = 29 \/ v = 30 \/ v = 31 \/ v = 32 \/ v = 33) by lia.
  destruct E as [->|[->|[->|[->|[->|[->|[->|[->| ->]]]]]]]]; reflexivity.
Qed.

Definition SE_LINUX : list Z := [83; 69; 32; 76; 105; 110; 117; 120].

Definition header_bytes : list Z :=
  words [POLICYDB_MAGIC; 8] ++ SE_LINUX ++ words [policyvers (pdb p); config_of p; 8; ocon_count].

Lemma emits_header : emits (write_header p the_info) header_bytes.
Proof.
  unfold write_header, header_bytes. rewrite Htarget. change (default [] _) with SE_LINUX. emit_word.
  apply emits_seq; [by apply emits_put|]. apply emits_words. simpl. lia.
Qed.

Lemma config_word : word (config_of p).
Proof.
  unfold config_of, word.
  assert (Hm : forall m x, 0 <= m < 2 ^ 32 -> 0 <= Z.land m x < 2 ^ 32).
  { intros m x Hm. rewrite Z.land_comm. pose proof (land_le_r x m ltac:(lia)). lia. }
  apply (lor_range 32); [apply (lor_range 32); [destruct (_ =? _); done|]|]; by apply Hm.
Qed.

Lemma decodes_header : decodes read_header header_bytes (Header SEPOL_TARGET_SELINUX (policyvers (pdb p)) (config_of p) the_info).
Proof.
  unfold read_header, header_bytes. pose proof config_word as Hc.
  assert (Ho : word ocon_count) by (unfold ocon_count, word; case_Z; lia).
  eapply decodes_bind; [by apply (decodes_words 2)|]. rewrite !le32_next, !le32_first by done.
  eapply decodes_step; [by apply decodes_require|]. eapply decodes_step; [by apply decodes_require|]. eapply decodes_step; [apply decodes_alloc|].
  eapply decodes_bind; [by apply decodes_entry|]. eapply decodes_step; [by apply decodes_found|].
  eapply decodes_last; [by apply (decodes_words 4)|]. rewrite !le32_next, !le32_first by (unfold word in *; lia).
  eapply decodes_step. { apply decodes_require, negb_true_iff, orb_false_iff. unfold POLICYDB_VERSION_MIN, POLICYDB_VERSION_MAX. rewrite !Z.ltb_ge. lia. }
  eapply decodes_step; [apply decodes_found, compat_found|]. cbn [sym_num ocon_num the_info].
  eapply decodes_step; [apply decodes_require; by rewrite !Z.eqb_refl|]. apply decodes_ret.
Qed.

(** What the configuration says. *)
Lemma config_mls : (if truthy (Z.land (config_of p) POLICYDB_CONFIG_MLS) then 1 else 0) = if p_mls (pdb p) =? 0 then 0 else 1.
Proof.
  unfold config_of. rewrite !Z.land_lor_distr_l, <-!Z.land_assoc, (Z.land_comm (handle_unknown p)), (Z.land_comm (android_extra p)), !Z.land_assoc.
  change (Z.land POLICYDB_CONFIG_UNKNOWN_MASK POLICYDB_CONFIG_MLS) with 0. change (Z.land POLICYDB_CONFIG_ANDROID_EXTRA_MASK POLICYDB_CONFIG_MLS) with 0.
  rewrite !Z.land_0_l. by destruct (_ =? _).
Qed.

Lemma config_unknown : Z.land (config_of p) POLICYDB_CONFIG_UNKNOWN_MASK = Z.land POLICYDB_CONFIG_UNKNOWN_MASK (handle_unknown p).
Proof.
  unfold config_of. rewrite !Z.land_lor_distr_l, <-!Z.land_assoc, (Z.land_comm (handle_unknown p)), (Z.land_comm (android_extra p)), !Z.land_assoc.
  rewrite Z.land_diag. change (Z.land POLICYDB_CONFIG_ANDROID_EXTRA_MASK POLICYDB_CONFIG_UNKNOWN_MASK) with 0.
  assert (Z.land (if p_mls (pdb p) =? 0 then 0 else POLICYDB_CONFIG_MLS) POLICYDB_CONFIG_UNKNOWN_MASK = 0) as -> by (by destruct (_ =? _)).
  by rewrite Z.land_0_l, Z.lor_0_l, Z.lor_0_r.
Qed.

Lemma config_android : Z.land (config_of p) POLICYDB_CONFIG_ANDROID_EXTRA_MASK = Z.land POLICYDB_CONFIG_ANDROID_EXTRA_MASK (android_extra p).
Proof.
  unfold config_of. rewrite !Z.land_lor_distr_l, <-!Z.land_assoc, (Z.land_comm (handle_unknown p)), (Z.land_comm (android_extra p)), !Z.land_assoc.
  rewrite Z.land_diag. change (Z.land POLICYDB_CONFIG_UNKNOWN_MASK POLICYDB_CONFIG_ANDROID_EXTRA_MASK) with 0.
  assert (Z.land (if p_mls (pdb p) =? 0 then 0 else POLICYDB_CONFIG_MLS) POLICYDB_CONFIG_ANDROID_EXTRA_MASK = 0) as -> by (by destruct (_ =? _)).
  by rewrite Z.land_0_l, !Z.lor_0_l.
Qed.
End header.

(** ** Rules *)

Section fits.
Context (te te' : avtab).
Hypothesis Hte : content <$> avtab_nodes te' ≡ₚ content <$> avtab_nodes te.

Lemma filter_empty {A} (f : A -> bool) l : List.filter f l = [] <-> Forall (fun x => f x = false) l.
Proof.
  induction l as [|x l IH]; [by split|]. cbn [List.filter]. rewrite Forall_cons, <-IH. destruct (f x); [split; [done|by intros [? _]]|by split; [|intros [_ ?]]].
Qed.

Lemma rules_fit_same pre other l : rules_fit te pre other l -> rules_fit te' pre other l.
Proof.
  revert pre. induction l as [|r l IH]; [done|]. intros pre [Hr Hl]. split; [|by apply IH]. intros Ht. destruct (Hr Ht) as [H1 H2].
  split; [|done]. apply filter_empty. rewrite Hte. by apply filter_empty.
Qed.

Lemma conds_fit_same pre l : conds_fit te pre l -> conds_fit te' pre l.
Proof.
  revert pre. induction l as [|n l IH]; [done|]. intros pre (H1 & H2 & H3). split; [|split]; [by apply rules_fit_same..|by apply IH].
Qed.
End fits.

Lemma emits_code f bs : (forall fp, can_put fp (Z.of_nat (length bs)) -> exists fp', f fp = (0, fp') /\ wrote fp bs fp') -> emits (wr_code f) bs.
Proof. intros Hf fp Hc. destruct (Hf fp Hc) as (fp' & E & Hw). exists fp'. unfold wr_code. by rewrite E. Qed.

(** ** Transitions for file names in both formats *)

Record ft_ok (vers count : Z) (h : ft_table) : Prop := {
  fo_wf : hashtab_wf ft_key_ok h;
  fo_entries : map_Forall (fun k c => SepolicyFilenameCompat.entry_ok k c /\ StronglySorted SepolicyFilenameSpec.apart c /\
    (vers < POLICYDB_VERSION_COMP_FTRANS -> SepolicyFilenameCompat.storable c)) (hashtab_model h);
  fo_count : count = ft_total (hashtab_model h);
  fo_bound : ft_total (hashtab_model h) < 2 ^ 32
}.

Definition ft_bytes (vers : Z) (h : ft_table) : list Z :=
  if vers <? POLICYDB_VERSION_COMP_FTRANS then old_table_bytes h (ft_total (hashtab_model h)) else new_table_bytes h.

(** The same transitions, each with its sources and their types. *)
Definition ft_same (h h' : ft_table) : Prop :=
  hashtab_wf ft_key_ok h' /\ forall k, (is_Some (hashtab_model h' !! k) <-> is_Some (hashtab_model h !! k)) /\
    forall s, transition h' k s = transition h k s.

Lemma emits_ft vers count h :
  POLICYDB_VERSION_FILENAME_TRANS <= vers -> ft_ok vers count h -> emits (filename_trans_write vers (Some h, count)) (ft_bytes vers h).
Proof.
  intros Hv [Hw He -> _]. unfold ft_bytes.
  assert (Hf : map_Forall SepolicyFilenameCompat.entry_ok (hashtab_model h)) by (eapply map_Forall_impl; [exact He|by intros k c [? _]]).
  destruct (Z.ltb_spec vers POLICYDB_VERSION_COMP_FTRANS); [by apply emits_old|by apply emits_new].
Qed.

Lemma decodes_ft vers count h h0 :
  POLICYDB_VERSION_FILENAME_TRANS <= vers -> ft_ok vers count h -> hashtab_wf ft_key_ok h0 -> hashtab_model h0 = ∅ ->
  exists h' n, decodes (filename_trans_read vers (Some h0, 0)) (ft_bytes vers h) (Some h', n) /\ ft_same h h' /\
    (POLICYDB_VERSION_COMP_FTRANS <= vers -> n = count).
Proof.
  intros Hv [Hw He -> Hb] Hw0 Hm0. unfold ft_bytes. destruct (Z.ltb_spec vers POLICYDB_VERSION_COMP_FTRANS) as [Hc|Hc].
  - destruct (decodes_old vers h (conj Hv Hc) Hw h0) as (h' & n & Hd & Hw' & _ & Hk); [|done..|].
    { eapply map_Forall_impl; [exact He|]. cbn. intros k c (H1 & _ & H2). split; [done|by apply H2]. }
    exists h', n. split; [exact Hd|]. split; [by split|lia].
  - destruct (decodes_new vers h Hc Hw h0) as (h' & Hd & Hw' & Hm'); [|done..|].
    { eapply map_Forall_impl; [exact He|]. cbn. intros k c (H1 & H2 & _). by split. }
    exists h', (u32 (ft_total (hashtab_model h))). split; [exact Hd|]. split.
    + split; [done|]. intros k. unfold transition. by rewrite Hm'.
    + intros _. rewrite u32_small; [done|]. split; [|done]. apply ft_total_nonneg. eapply map_Forall_impl; [exact He|]. by intros k c [H1 _].
Qed.

(** ** Policies that can be saved *)

Record policy_ok (p : policy) : Prop := {
  po_vers : 25 <= policyvers (pdb p) <= 33;
  po_target : target_platform (pdb p) = SEPOL_TARGET_SELINUX;
  po_mls : p_mls (pdb p) = 0 \/ p_mls (pdb p) = 1;
  po_unknown : Z.land POLICYDB_CONFIG_UNKNOWN_MASK (handle_unknown p) = handle_unknown p;
  po_android : Z.land POLICYDB_CONFIG_ANDROID_EXTRA_MASK (android_extra p) = android_extra p;
  po_caps : ebitmap_wf (policycaps p);
  po_permissive : ebitmap_wf (permissive_map (pdb p));
  po_symbols : indexed_policy (policyvers (pdb p)) (pdb p);
  po_class : process_class p = from_option cls_value 0 (class_named (p_symtab (pdb p)) PROCESS);
  po_dir : dir_class p = from_option cls_value 0 (class_named (p_symtab (pdb p)) DIR);
  po_trans : process_trans p = process_perm (p_symtab (pdb p)) TRANSITION;
  po_dyntrans : process_trans_dyntrans p = Z.lor (process_trans p) (process_perm (p_symtab (pdb p)) DYNTRANSITION);
  po_rules : avtab_inv (te_avtab (pdb p));
  po_stored : Forall (AvtabProps.storable (policyvers (pdb p))) (avtab_nodes (te_avtab (pdb p)));
  po_nrules : 0 < Z.of_nat (length (avtab_nodes (te_avtab (pdb p)))) < 2 ^ 32 - 1;
  po_nconds : counted (cond_list p);
  po_conds : Forall (cond_node_ok (policyvers (pdb p)) (nprim (sym_bools (p_symtab (pdb p))))) (cond_list p);
  po_fit : conds_fit (te_avtab (pdb p)) [] (cond_list p);
  po_ntrans : counted (role_tr p);
  po_role_tr : Forall (trans_ok POLICY_KERN (policyvers (pdb p)) (process_class p)) (role_tr p);
  po_nallow : counted (p_role_allow p);
  po_allow : Forall allow_ok (p_role_allow p);
  po_ft : exists h, filename_trans (pdb p) = Some h /\ ft_ok (policyvers (pdb p)) (filename_trans_count (pdb p)) h;
  po_ocons : length (ocontexts p) = 9%nat /\ sections_ok (pdb p) 0 (take (Z.to_nat (ocon_count p)) (ocontexts p)) /\
    drop (Z.to_nat (ocon_count p)) (ocontexts p) = replicate (9 - Z.to_nat (ocon_count p)) [];
  po_genfs : genfs_ok (pdb p) (p_genfs (pdb p));
  po_range : exists h, range_tr p = Some h /\ hashtab_wf any_key h /\
    map_Forall (range_entry_ok (nprim (p_types (pdb p))) (nprim (p_classes (pdb p)))) (hashtab_model h);
  po_maps : exists m, attr_maps_ok (nprim (p_types (pdb p))) (type_val_to_struct (pdb p)) (type_attr_map (pdb p)) m
}.

Definition ft_of (db : policydb) : ft_table := default (Hashtab [] 0 0) (filename_trans db).
Definition range_of (p : policy) : range_table := default (Hashtab [] 0 0) (range_tr p).

Definition rules_bytes (p : policy) : list Z :=
  table_bytes (te_avtab (pdb p)) ++ conds_bytes (cond_list p) ++
  list_bytes (PolicySections.trans_bytes POLICY_KERN (policyvers (pdb p))) (role_tr p) ++
  list_bytes allow_bytes (p_role_allow p) ++ ft_bytes (policyvers (pdb p)) (ft_of (pdb p)).

Definition policy_bytes (p : policy) : list Z :=
  header_bytes p ++ ebitmap_bytes (policycaps p) ++ ebitmap_bytes (permissive_map (pdb p)) ++
  symtabs_bytes (policyvers (pdb p)) (p_symtab (pdb p)) ++ rules_bytes p ++
  sections_bytes (pdb p) 0 (take (Z.to_nat (ocon_count p)) (ocontexts p)) ++ genfs_bytes (pdb p) (p_genfs (pdb p)) ++
  range_table_bytes (range_of p) ++ rows_bytes (type_attr_map (pdb p)).

Lemma emits_rules p : policy_ok p -> emits (write_rules p 0) (rules_bytes p).
Proof.
  intros Hp. pose proof (po_vers _ Hp) as Hv. pose proof (po_target _ Hp) as Ht. unfold write_rules, rules_bytes.
  apply emits_seq.
  { apply emits_code. intros fp Hc. apply avtab_write_spec; [apply (po_rules _ Hp)|apply Hp|done..]. }
  apply emits_seq; [apply emits_since; [unfold POLICYDB_VERSION_BOOL; lia|by eapply emits_cond_list; [..|apply Hp]]|].
  apply emits_seq; [apply emits_role_trans, Hp|]. apply emits_seq; [apply emits_allow|].
  destruct (po_ft _ Hp) as (h & E & Hf). unfold ft_of. rewrite E. cbn [default].
  apply emits_since; [unfold POLICYDB_VERSION_FILENAME_TRANS; lia|]. apply emits_ft; [unfold POLICYDB_VERSION_FILENAME_TRANS; lia|done].
Qed.

Lemma emits_policy p : policy_ok p -> emits (policydb_write p 0) (policy_bytes p).
Proof.
  intros Hp. pose proof (po_vers _ Hp) as Hv. pose proof (po_target _ Hp) as Ht. pose proof (xp_kernel _ _ (po_symbols _ Hp)) as Hk.
  unfold policydb_write. rewrite (kp_kern _ _ Hk), Ht, (proj2 (Z.ltb_ge _ _)) by (unfold POLICYDB_VERSION_AVTAB; lia).
  cbn [negb orb Z.eqb]. rewrite (compat_found p Hv). cbn [sym_num ocon_num the_info]. unfold policy_bytes.
  apply emits_seq; [by apply emits_header|].
  apply emits_seq; [apply emits_since; [unfold POLICYDB_VERSION_POLCAP; lia|apply emits_ebitmap, Hp]|].
  apply emits_seq; [apply emits_since; [unfold POLICYDB_VERSION_PERMISSIVE; lia|apply emits_ebitmap, Hp]|].
  destruct (kp_symbols _ _ Hk) as (commons & Hs).
  apply emits_seq; [eapply emits_symtabs; [unfold POLICYDB_VERSION_BOUNDARY; lia|exact Hs]|].
  apply emits_seq; [by apply emits_rules|]. apply emits_seq; [apply emits_sections, Hp|]. apply emits_seq; [apply emits_genfs, Hp|].
  destruct (po_range _ Hp) as (h & E & Hw & Hf). unfold range_of. rewrite E. cbn [default].
  apply emits_seq; [by eapply emits_ranges; [unfold POLICYDB_VERSION_RANGETRANS; lia|..]|].
  apply emits_code. intros fp Hc. unfold write_attr_maps. rewrite (proj2 (Z.leb_le _ _)) by (unfold POLICYDB_VERSION_AVTAB; lia).
  destruct (po_maps _ Hp) as (m & Hm). apply write_rows_wrote; [apply (mu_wf1 _ _ _ _ _ _ Hm)|done].
Qed.

(** ** What a policy that is loaded has in common with the one that was saved *)

(** Hash tables may have other slots and the chains of rules another order; "object_r" is
    the role of [policydb_init], the expression of a user's levels is not read, the entries
    of file systems are sorted. *)
Record same_policy (p p' : policy) : Prop := {
  sp_vers : policyvers (pdb p') = policyvers (pdb p);
  sp_kind : policy_type (pdb p') = POLICY_KERN /\ target_platform (pdb p') = SEPOL_TARGET_SELINUX;
  sp_mls : p_mls (pdb p') = p_mls (pdb p);
  sp_config : handle_unknown p' = handle_unknown p /\ android_extra p' = android_extra p;
  sp_caps : policycaps p' = policycaps p;
  sp_permissive : permissive_map (pdb p') = permissive_map (pdb p);
  sp_symbols : symbols_same (p_symtab (pdb p)) (p_symtab (pdb p'));
  sp_index : others_indexed (p_symtab (pdb p')) (p_index (pdb p')) (type_val_to_struct (pdb p'));
  sp_structs : type_val_to_struct (pdb p') = type_val_to_struct (pdb p);
  sp_classes : process_class p' = process_class p /\ dir_class p' = dir_class p;
  sp_perms : process_trans p' = process_trans p /\ process_trans_dyntrans p' = process_trans_dyntrans p;
  sp_rules : avtab_inv (te_avtab (pdb p')) /\
    content <$> avtab_nodes (te_avtab (pdb p')) ≡ₚ content <$> avtab_nodes (te_avtab (pdb p));
  sp_conds : Forall2 same_cond (cond_list p) (cond_list p') /\ cond_table (concat (node_rules <$> cond_list p)) (te_cond_avtab p');
  sp_roles : role_tr p' = role_tr p /\ p_role_allow p' = p_role_allow p;
  sp_ft : exists h', filename_trans (pdb p') = Some h' /\ ft_same (ft_of (pdb p)) h';
  sp_count : POLICYDB_VERSION_COMP_FTRANS <= policyvers (pdb p) -> filename_trans_count (pdb p') = filename_trans_count (pdb p);
  sp_ocons : ocontexts p' = ocontexts p;
  sp_genfs : genfs_read_as (p_genfs (pdb p)) (p_genfs (pdb p'));
  sp_range : exists h', range_tr p' = Some h' /\ hashtab_wf any_key h' /\ hashtab_model h' = hashtab_model (range_of p);
  sp_maps : type_attr_map (pdb p') = type_attr_map (pdb p) /\
    attr_maps_ok (nprim (p_types (pdb p'))) (type_val_to_struct (pdb p')) (type_attr_map (pdb p')) (attr_type_map (pdb p'));
  sp_contexts : forall c, 0 <= c_role c -> context_is_valid (pdb p') c = context_is_valid (pdb p) c
}.

(** ** Loading *)

Section load.
Context (p p0 : policy).
Hypothesis Hp : policy_ok p.
Hypothesis Hinit : initial_policy p0.

Abbreviation vers := (policyvers (pdb p)).

Lemma decodes_rules class : class = process_class p ->
  exists te conds cond h n, decodes (read_rules p0 vers class (nprim (sym_bools (p_symtab (pdb p)))) 0) (rules_bytes p)
      (te, 0, (cond, conds), role_tr p, p_role_allow p, (Some h, n)) /\
    avtab_inv te /\ content <$> avtab_nodes te ≡ₚ content <$> avtab_nodes (te_avtab (pdb p)) /\
    cond_table (concat (node_rules <$> cond_list p)) cond /\ Forall2 same_cond (cond_list p) conds /\
    ft_same (ft_of (pdb p)) h /\ (POLICYDB_VERSION_COMP_FTRANS <= vers -> n = filename_trans_count (pdb p)).
Proof.
  intros ->. pose proof (po_vers _ Hp) as Hv.
  destruct (avtab_read_spec (te_avtab (pdb p0)) (te_avtab (pdb p)) vers) as (te & Hrd & Hi & Hc); [unfold POLICYDB_VERSION_AVTAB; lia|apply Hp..|].
  assert (Hn : 0 < av_nel te).
  { pose proof (po_nrules _ Hp). destruct Hi as ((t & Ht & Hw & _ & ->) & _). rewrite <-(avtab_nodes_concat te t Ht Hw).
    apply Permutation_length in Hc. rewrite !length_fmap in Hc. rewrite Hc, u32_small; lia. }
  destruct (decodes_cond_list vers te (nprim (sym_bools (p_symtab (pdb p)))) ltac:(unfold POLICYDB_VERSION_AVTAB; lia) (proj1 Hi) (te_cond_avtab p0) (cond_list p))
    as (cond & conds & Hd & Hct & Hcl); [done|apply Hp..|by eapply conds_fit_same; [|apply Hp]|].
  destruct (po_ft _ Hp) as (h0 & E & Hf). destruct (ip_ft _ Hinit) as (h1 & E1 & Hw1 & Hm1).
  destruct (decodes_ft vers _ h0 h1 ltac:(unfold POLICYDB_VERSION_FILENAME_TRANS; lia) Hf Hw1 Hm1) as (h & n & Hdf & Hs & Hcount).
  exists te, conds, cond, h, n. split; [|by unfold ft_of; rewrite E].
  unfold read_rules, rules_bytes, ft_of. rewrite E, E1, (ip_count _ Hinit). cbn [default].
  eapply decodes_bind; [intros fp fp' Hr; unfold rd_avtab; by rewrite (Hrd _ _ Hr)|]. cbn beta zeta match.
  eapply decodes_bind; [apply decodes_since; [unfold POLICYDB_VERSION_BOOL; lia|exact Hd]|]. cbn beta zeta match.
  eapply decodes_bind; [apply decodes_role_trans; apply Hp|]. eapply decodes_bind; [apply decodes_allow; apply Hp|].
  eapply decodes_last; [apply decodes_since; [unfold POLICYDB_VERSION_FILENAME_TRANS; lia|exact Hdf]|]. apply decodes_ret.
Qed.

Lemma end_attr_maps db m :
  attr_maps_ok (nprim (p_types (pdb p))) (type_val_to_struct (pdb p)) (type_attr_map (pdb p)) m ->
  nprim (p_types db) = nprim (p_types (pdb p)) -> type_val_to_struct db = type_val_to_struct (pdb p) ->
  decodes_end (rd_attr_maps vers db) (rows_bytes (type_attr_map (pdb p))) (type_attr_map (pdb p), m).
Proof using Hp.
  intros Hm Hn Hs fp fp' Hr He. unfold rd_attr_maps. rewrite Hn, Hs.
  assert (Hb : pf_bytes fp).
  { destruct Hr as (rest & Hd & Hd' & _). rewrite He in Hd'. subst rest. rewrite app_nil_r in Hd. unfold pf_bytes. rewrite Hd.
    unfold rows_bytes. apply Forall_concat, Forall_map, Forall_forall. intros e _. unfold ebitmap_bytes.
    rewrite !Forall_app. split; [split_and!; apply le_bytes_bytes|]. induction (node e) as [|a l IH]; [constructor|].
    cbn [nodes_bytes]. unfold EbitmapProps.node_bytes. rewrite !Forall_app. split_and!; [apply le_bytes_bytes..|exact IH]. }
  pose proof (po_vers _ Hp) as Hv. pose proof (kp_bound _ _ (xp_kernel _ _ (po_symbols _ Hp))) as Hbd. pose proof (mu_len1 _ _ _ _ _ _ Hm) as Hl.
  assert (Hnp : 0 <= nprim (p_types (pdb p)) <= 2 ^ 32 - MAPSIZE) by lia. assert (Ha : POLICYDB_VERSION_AVTAB <= vers) by (unfold POLICYDB_VERSION_AVTAB; lia).
  rewrite (read_attr_maps_roundtrip vers _ _ Hnp _ _ Ha Hm fp fp' Hb Hr). done.
Qed.

Lemma initial_decls : decls_ok (p_global (pdb p0)).
Proof. rewrite (ip_global _ Hinit). split; [by repeat constructor; set_solver|]. split; [by repeat constructor|simpl; lia]. Qed.

(** The sections behind the arrays, read with the arrays of [db2]. *)
Lemma decodes_contexts db2 :
  policy_type db2 = POLICY_KERN -> target_platform db2 = SEPOL_TARGET_SELINUX -> policyvers db2 = vers -> p_genfs db2 = [] ->
  (forall c, 0 <= c_role c -> context_is_valid (pdb p) c = context_is_valid db2 c) ->
  decodes (ocontext_read (the_info p) db2) (sections_bytes (pdb p) 0 (take (Z.to_nat (ocon_count p)) (ocontexts p)))
    (take (Z.to_nat (ocon_count p)) (ocontexts p)) /\
  exists l, decodes (genfs_read db2) (genfs_bytes (pdb p) (p_genfs (pdb p))) l /\ genfs_read_as (p_genfs (pdb p)) l.
Proof.
  intros Hk Ht Hv Hg Hval. destruct (po_ocons _ Hp) as (Hl & Hso & _).
  assert (Hr : has_range (pdb p) = has_range db2).
  { unfold has_range. by rewrite (kp_kern _ _ (xp_kernel _ _ (po_symbols _ Hp))), Hk, Hv. }
  rewrite (sections_bytes_same (pdb p) db2 Hr), (genfs_bytes_same (pdb p) db2 Hr). split.
  - unfold ocontext_read, ocontext_read_selinux. rewrite Ht. cbn [Z.eqb SEPOL_TARGET_SELINUX ocon_num the_info].
    assert (E : Z.to_nat (ocon_count p) = length (take (Z.to_nat (ocon_count p)) (ocontexts p))).
    { rewrite length_take, Hl. unfold ocon_count. case_Z; simpl; lia. }
    rewrite E at 1. apply decodes_sections. exact (sections_ok_same _ _ Hr Hval _ 0 Hso).
  - apply decodes_genfs; [|done]. exact (genfs_ok_same _ _ Hr Hval _ (po_genfs _ Hp)).
Qed.

Lemma mls_value : (if p_mls (pdb p) =? 0 then 0 else 1) = p_mls (pdb p).
Proof. by destruct (po_mls _ Hp) as [-> | ->]. Qed.

Lemma classes_bound : nprim (p_classes (pdb p)) < 2 ^ 32.
Proof.
  destruct (kp_symbols _ _ (xp_kernel _ _ (po_symbols _ Hp))) as (commons & Hs). destruct (so_classes _ _ _ Hs) as (h & _ & _ & _ & H1 & H2 & _).
  unfold p_classes, UINT32_MAX in *. lia.
Qed.

Lemma all_ocons : take (Z.to_nat (ocon_count p)) (ocontexts p) ++
  drop (length (take (Z.to_nat (ocon_count p)) (ocontexts p))) (ocontexts p0) = ocontexts p.
Proof.
  destruct (po_ocons _ Hp) as (Hl & _ & Hd). rewrite (ip_ocontexts _ Hinit), length_take, Hl, drop_replicate.
  transitivity (take (Z.to_nat (ocon_count p)) (ocontexts p) ++ drop (Z.to_nat (ocon_count p)) (ocontexts p)); [|apply take_drop].
  f_equal. rewrite Hd. f_equal. unfold ocon_count. case_Z; simpl; lia.
Qed.

Lemma decodes_policy : exists p', decodes_end (policydb_read p0 0) (policy_bytes p) (p', 0) /\ same_policy p p'.
Proof.
  pose proof (po_vers _ Hp) as Hv. pose proof (po_symbols _ Hp) as Hx. pose proof (xp_kernel _ _ Hx) as Hk.
  destruct (kp_symbols _ _ Hk) as (commons & Hs).
  destruct (decodes_symtabs_roles vers ltac:(unfold POLICYDB_VERSION_BOUNDARY; lia) _ _ commons Hs (ip_symbols _ Hinit)) as (st & Hdst & Hrel & Hleft).
  set (class := policydb_string_to_security_class (sym_classes st) PROCESS).
  assert (Hclass : class = process_class p).
  { unfold class. rewrite (class_value_same _ _ _ Hx Hrel _ process_key). by rewrite (po_class _ Hp). }
  destruct (decodes_rules class Hclass) as (te & conds & cond & h & n & Hdr & Hte & Hperm & Hct & Hcl & Hft & Hcount).
  set (hd := Header SEPOL_TARGET_SELINUX vers (config_of p) (the_info p)).
  set (db1 := with_rules hd st te (Some h, n) (permissive_map (pdb p)) (pdb p0)).
  destruct (decodes_indexes vers (pdb p) p0 st Hx Hinit Hrel Hleft db1) as (db2 & Hdi & Ha);
    [reflexivity|reflexivity|apply (ip_names _ Hinit)|exact initial_decls|].
  assert (Hdb2 : policy_type db2 = POLICY_KERN /\ target_platform db2 = SEPOL_TARGET_SELINUX /\ policyvers db2 = vers /\ p_genfs db2 = [] /\
    p_mls db2 = p_mls (pdb p) /\ te_avtab db2 = te /\ filename_trans db2 = Some h /\ filename_trans_count db2 = n /\
    permissive_map db2 = permissive_map (pdb p)).
  { destruct (ia_form _ _ _ _ Ha) as (hr & hu & structs & ix & ->). pose proof (ip_genfs _ Hinit) as Hg. pose proof (config_mls p) as Hm. rewrite mls_value in Hm.
    repeat split; assumption. }
  destruct Hdb2 as (Hk2 & Ht2 & Hv2 & Hg2 & Hm2 & Hte2 & Hft2 & Hn2 & Hpm2).
  assert (Hval : forall c, 0 <= c_role c -> context_is_valid db2 c = context_is_valid (pdb p) c).
  { intros c Hc. apply context_valid_same; [apply Hk..|apply Hx|apply (ia_index _ _ _ _ Ha)|apply (ia_symbols _ _ _ _ Ha)|done|done]. }
  destruct (decodes_contexts db2 Hk2 Ht2 Hv2 Hg2) as [Hdo (gl & Hdg & Hgr)]; [intros c Hc; by rewrite Hval|].
  destruct (po_range _ Hp) as (hr & Er & Hwr & Hfr). destruct (ip_range _ Hinit) as (r0 & Er0 & Hw0 & Hm0).
  pose proof (proj1 (ss_types _ _ (ia_symbols _ _ _ _ Ha))) as Hnt. pose proof (proj1 (ss_classes _ _ (ia_symbols _ _ _ _ Ha))) as Hnc.
  pose proof (kp_bound _ _ Hk) as Hbt. pose proof classes_bound as Hbc.
  destruct (decodes_ranges vers (nprim (p_types (pdb p))) (nprim (p_classes (pdb p))) class ltac:(unfold POLICYDB_VERSION_RANGETRANS; lia)
    ltac:(unfold MAPSIZE in *; lia) Hbc hr r0 Hwr Hfr Hw0 Hm0) as (hr' & Hdrg & Hwr' & Hmr').
  destruct (po_maps _ Hp) as (m & Hmaps).
  eexists. split.
  - unfold policydb_read, policy_bytes. eapply end_bind; [apply decodes_header; done|]. cbn [h_version h_target h_info h_config sym_num the_info].
    eapply end_bind; [apply decodes_since; [unfold POLICYDB_VERSION_POLCAP; lia|apply decodes_ebitmap, Hp]|].
    eapply end_bind; [apply decodes_since; [unfold POLICYDB_VERSION_PERMISSIVE; lia|apply decodes_ebitmap, Hp]|].
    eapply end_bind; [exact Hdst|]. cbn zeta. change (SEPOL_TARGET_SELINUX =? SEPOL_TARGET_SELINUX) with true. cbn match. fold class.
    assert (Hnb : nprim (sym_bools st) = nprim (sym_bools (p_symtab (pdb p)))) by apply (sr_bools _ _ Hrel). rewrite Hnb.
    eapply end_bind; [exact Hdr|]. cbn beta zeta match. fold hd. eapply end_step; [exact Hdi|]. cbn beta zeta match.
    eapply end_bind; [exact Hdo|]. eapply end_bind; [exact Hdg|]. rewrite Er0. unfold p_types, p_classes in *. rewrite Hnt, Hnc.
    eapply end_bind; [apply decodes_since; [unfold POLICYDB_VERSION_MLS; lia|unfold range_of; rewrite Er; exact Hdrg]|].
    eapply end_last; [apply (end_attr_maps db2 m); [exact Hmaps|exact Hnt|exact (ia_structs _ _ _ _ Ha)]|]. apply decodes_ret.
  - split; cbn [pdb handle_unknown android_extra policycaps process_class dir_class process_trans process_trans_dyntrans te_cond_avtab cond_list role_tr p_role_allow ocontexts range_tr fst snd];
      unfold set_maps, set_genfs; cbn [policyvers policy_type target_platform p_mls permissive_map p_symtab p_index type_val_to_struct te_avtab filename_trans filename_trans_count p_genfs type_attr_map attr_type_map];
      rewrite ?Hv2, ?Hk2, ?Ht2, ?Hm2, ?Hte2, ?Hft2, ?Hn2, ?Hpm2; try done.
    + by rewrite config_unknown, config_android, (po_unknown _ Hp), (po_android _ Hp).
    + apply Ha.
    + apply Ha.
    + apply Ha.
    + split; [done|]. rewrite (class_value_same _ _ _ Hx Hrel) by (unfold DIR, cstring_ok; repeat constructor; lia). by rewrite (po_dir _ Hp).
    + by rewrite (po_dyntrans _ Hp), (po_trans _ Hp).
    + by exists h.
    + exact all_ocons.
    + exists hr'. unfold range_of. by rewrite Er.
    + split; [done|]. unfold p_types in *. cbn [p_symtab]. rewrite Hnt, (ia_structs _ _ _ _ Ha). exact Hmaps.
    + intros c Hc. apply context_valid_same; [apply Hk..|apply Hx|exact (ia_index _ _ _ _ Ha)|exact (ia_symbols _ _ _ _ Ha)|reflexivity|done].
Qed.
End load.

(** ** Policies with other rules *)

Definition set_db (p : policy) (db : policydb) : policy :=
  Policy db (policycaps p) (handle_unknown p) (android_extra p) (process_class p) (dir_class p) (process_trans p)
    (process_trans_dyntrans p) (te_cond_avtab p) (cond_list p) (role_tr p) (p_role_allow p) (ocontexts p) (range_tr p).

Lemma indexed_set_te vers db h : indexed_policy vers db -> indexed_policy vers (set_te_avtab db h).
Proof. intros [[] H2 H3 H4 H5]. split; [split|..]; assumption. Qed.

(** An edit of the access vectors of the keys [ks]. *)
Section edit.
Context (ks : list avtab_key) (h h' : avtab).
Hypothesis Hks : Forall av_key ks.
Hypothesis Hinv : te_inv h'.
Hypothesis Hsame : same_outside (fun k => k ∈ ks) h h'.

Lemma edited_key k : k ∈ ks -> av_key k.
Proof. intros Hk. rewrite Forall_forall in Hks. by apply Hks. Qed.

Lemma edited_rules_storable vers : Forall (AvtabProps.storable vers) (avtab_nodes h) -> Forall (AvtabProps.storable vers) (avtab_nodes h').
Proof.
  destruct Hinv as [(_ & Hg & _) _]. intros Hst. rewrite Forall_forall in Hg, Hst |- *. intros n Hn.
  destruct (decide (akey n ∈ ks)) as [Hk|Hk]; [|by apply Hst, Hsame].
  split; [by apply Hg|]. destruct (Hg n Hn) as [_ [_ Hx]]. destruct (av_key_plain _ (edited_key _ Hk)) as (_ & _ & HP).
  destruct (xperms (adatum n)) as [x|]; [|done]. destruct Hx as [Hx _]. congruence.
Qed.

Lemma strip_type s : 0 <= s < 2 ^ 16 -> Z.land (strip_enabled s) AVTAB_TYPE = Z.land s AVTAB_TYPE.
Proof. intros Hs. rewrite strip_enabled_small by done. rewrite <-Z.land_assoc. reflexivity. Qed.

(** Type rules are not among the rules that changed. *)
Lemma edited_absent (r : rule) :
  key_ok r.1 -> truthy (Z.land (specified r.1) AVTAB_TYPE) = true ->
  List.filter (rule_matches r.1) (content <$> avtab_nodes h) = [] -> List.filter (rule_matches r.1) (content <$> avtab_nodes h') = [].
Proof.
  intros Hr Ht. rewrite !filter_empty, !Forall_fmap, !Forall_forall. intros Hf n Hn. change (matches r.1 (strip_enabled (specified r.1)) n = false).
  destruct (decide (akey n ∈ ks)) as [Hk|Hk]; [|by apply Hf, Hsame].
  apply not_true_is_false. destruct Hinv as [(_ & Hg & _) _]. rewrite Forall_forall in Hg. destruct (Hg n Hn) as [Hkn _].
  rewrite matches_iff by done. intros E. injection E as _ _ _ E.
  rewrite <-strip_type, E, strip_type in Ht; [|apply Hkn|apply Hr].
  destruct (edited_key _ Hk) as [_ He]. rewrite !elem_of_cons, elem_of_nil in He. destruct He as [He|[He|[He|[]]]]; by rewrite He in Ht.
Qed.

Lemma edited_rules_fit (pre other l : list rule) :
  Forall (fun r => key_ok r.1) l -> rules_fit h pre other l -> rules_fit h' pre other l.
Proof.
  intros Hl. revert pre. induction Hl as [|r l Hr Hl IH]; [done|]. intros pre [H1 H2]. split; [|by apply IH].
  intros Ht. destruct (H1 Ht) as [H3 H4]. split; [by apply edited_absent|done].
Qed.

Lemma edited_fits vers bools pre l : Forall (cond_node_ok vers bools) l -> conds_fit h pre l -> conds_fit h' pre l.
Proof.
  intros Hl. revert pre. induction Hl as [|n l Hn Hl IH]; [done|]. intros pre (H1 & H2 & H3).
  pose proof (cno_rules _ _ _ Hn) as Hr. apply Forall_app in Hr as [Hr1 Hr2].
  assert (Hk : forall l, Forall (fun c => AvtabProps.storable vers (cav_node c) /\ parse_context c = true) l -> Forall (fun r : rule => key_ok r.1) (contents l)).
  { intros l0 Hl0. apply Forall_fmap. eapply Forall_impl; [exact Hl0|]. intros c [[[Hg _] _] _]. exact Hg. }
  split; [apply edited_rules_fit; [by apply Hk|done]|]. split; [apply edited_rules_fit; [by apply Hk|done]|by apply IH].
Qed.

(** The policy with the edited rules can be saved too. *)
Lemma edited_policy p :
  policy_ok p -> te_avtab (pdb p) = h -> 0 < Z.of_nat (length (avtab_nodes h')) < 2 ^ 32 - 1 ->
  policy_ok (set_db p (set_te_avtab (pdb p) h')).
Proof.
  intros Hp Hte Hn. pose proof (genfs_ok_same (pdb p) (set_te_avtab (pdb p) h') eq_refl (fun _ _ => eq_refl) _ (po_genfs _ Hp)) as Hg.
  pose proof (sections_ok_same (pdb p) (set_te_avtab (pdb p) h') eq_refl (fun _ _ => eq_refl) _ 0 (proj1 (proj2 (po_ocons _ Hp)))) as Ho.
  pose proof (edited_rules_storable _ (eq_rect _ (fun t => Forall (AvtabProps.storable (policyvers (pdb p))) (avtab_nodes t)) (po_stored _ Hp) _ Hte)) as Hst.
  pose proof (edited_fits _ _ _ _ (po_conds _ Hp) (eq_rect _ (fun t => conds_fit t [] (cond_list p)) (po_fit _ Hp) _ Hte)) as Hfit.
  pose proof (indexed_set_te _ _ h' (po_symbols _ Hp)) as Hix.
  destruct Hp as [P1 P2 P3 P4 P5 P6 P7 P8 P9 P10 P11 P12 P13 P14 P15 P16 P17 P18 P19 P20 P21 P22 P23 (P24 & _ & P25) P26 P27 P28].
  split; try assumption; [apply Hinv|]. split; [exact P24|]. split; [exact Ho|exact P25].
Qed.
End edit.

(** Tables with the same rules hold the same access vectors. *)
Lemma av_same h h' k :
  te_inv h -> avtab_inv h' -> content <$> avtab_nodes h' ≡ₚ content <$> avtab_nodes h -> plain_key k -> av h' k = av h k.
Proof.
  intros Hi Hi' Hp Hk.
  assert (Hte : te_inv h').
  { split; [done|]. destruct Hi as [_ Hs]. apply (Forall_fmap content (fun r => specified r.1 ∈ specs)). rewrite Hp. by apply Forall_fmap. }
  assert (Hfind : forall a b n, te_inv a -> te_inv b -> content <$> avtab_nodes b ≡ₚ content <$> avtab_nodes a ->
    avtab_search_node (Some a) k = Some n -> exists m, avtab_search_node (Some b) k = Some m /\ adatum m = adatum n).
  { intros a b n Ha Hb Hab [Hn Hkn]%te_search; [|done..]. apply (list_elem_of_fmap_2 content) in Hn. rewrite <-Hab in Hn.
    apply list_elem_of_fmap in Hn as (m & [= E1 E2] & Hm). exists m. split; [|done]. apply te_search; [done..|]. split; [done|congruence]. }
  unfold av. rewrite !avtab_search_datum. destruct (avtab_search_node (Some h) k) as [n|] eqn:E.
  - destruct (Hfind h h' n Hi Hte Hp E) as (m & -> & Hm). cbn. by rewrite Hm.
  - destruct (avtab_search_node (Some h') k) as [m|] eqn:E'; [|done].
    destruct (Hfind h' h m Hte Hi (symmetry Hp) E') as (n & En & _). congruence.
Qed.
