(* ===== verification/KernelPolicyProps.v ===== *)
(** * Kernel policies: saving and loading, and [policydb_init] *)

From Stdlib Require Import Sorted.
From S2P Require Import Prelude Policyfile Ebitmap EbitmapSpec EbitmapQuery EbitmapUpdate EbitmapProps Hashtab HashtabSpec Symtab HashtabProps Codec.
From S2P Require Import Avtab AvtabSpec AvtabRules Policydb AvtabIO AvtabProps Sepolicy SepolicySpec SepolicyFilenameSpec SepolicyFilenameIO SepolicyFilenameCompat SepolicyFilenameIOProps.
From S2P Require Import SepolicyAttr SepolicyAttrProps Symbols CodecTable SymbolsCodec SymbolsKinds SymbolsTrip PolicyIndex PolicyIndexSpec PolicyOthersSpec SepolicyType SepolicyTypeInv.
From S2P Require Import Context SepolicyGenfs PolicySections PolicyGenfsSpec Conditional RangeTrans KernelPolicy KernelPolicySpec KernelPolicySymbols KernelPolicyTrip.
From S2P Require Import SepolicyProps SymbolsProps SepolicyTypeProps SepolicyFilenameProps ContextProps PolicySectionsProps.

Lemma to_image_ok p : policy_ok p -> to_image p 0 = Some (policy_bytes p).
Proof.
  intros Hp. unfold to_image. destruct (emits_policy p Hp (PolicyFile PF_USE_STDIO [] 0 [])) as (fp & -> & Hw); [by left|].
  destruct Hw as (_ & _ & Ho & _). cbn [fmap option_fmap option_map]. by rewrite Ho.
Qed.

Lemma from_data_ok p :
  policy_ok p -> exists p', same_policy p p' /\ forall freed, from_data freed (policy_bytes p) 0 [] = Some (Some (p', 0)) /\
    from_file freed (Some (policy_bytes p)) 0 [] = Some (Some (p', 0)).
Proof.
  intros Hp. destruct policydb_init_ok as (p0 & E & Hinit). destruct (decodes_policy p p0 Hp Hinit) as (p' & Hd & Hs). exists p'. split; [exact Hs|]. intros freed.
  assert (Hl : forall fp fp', reads fp (policy_bytes p) fp' -> pf_data fp' = [] -> load_policy freed (Some fp) 0 [] = Some (Some (p', 0))).
  { intros fp fp' Hr He. unfold load_policy. cbn [malloc negb]. rewrite E. cbn [mbind option_bind]. by rewrite (Hd _ _ Hr He). }
  split.
  - apply (Hl _ (PolicyFile PF_USE_MEMORY [] 0 [])); [|reflexivity]. exists []. cbn [pf_data pf_type pf_out pf_len]. rewrite app_nil_r.
    do 4 (split; [reflexivity|]). right. exact (conj eq_refl (conj eq_refl eq_refl)).
  - apply (Hl _ (PolicyFile PF_USE_STDIO [] 0 [])); [|reflexivity]. exists []. cbn [pf_data pf_type pf_out pf_len]. rewrite app_nil_r.
    do 4 (split; [reflexivity|]). left. exact (conj eq_refl eq_refl).
Qed.

Lemma to_file_ok p : policy_ok p -> to_file p 0 true = (true, Some (policy_bytes p)).
Proof. intros Hp. unfold to_file. by rewrite to_image_ok. Qed.

(** C1: a policy that is saved can be loaded again.  [to_file] succeeds on a policy whose
    parts the format can hold, of a version from 25 to 33, and [from_data] and [from_file] of
    what it wrote, with memory available, give a policy with the same version, configuration,
    symbols, rules, conditionals, role transitions and allows, transitions for file names,
    object contexts, contexts of file systems, range transitions and attributes, whose arrays
    and caches are built again and which accepts the same contexts. *)
Theorem policy_roundtrip p :
  policy_ok p ->
  exists image p', to_file p 0 true = (true, Some image) /\ same_policy p p' /\
    forall freed, from_data freed image 0 [] = Some (Some (p', 0)) /\ from_file freed (Some image) 0 [] = Some (Some (p', 0)).
Proof.
  intros Hp. destruct (from_data_ok p Hp) as (p' & Hs & Hd). exists (policy_bytes p), p'. split; [by apply to_file_ok|]. by split.
Qed.

(** C2: a rule that is added is in the policy that is loaded.  [add_rule] on a policy that
    can be saved, with the image of the edited policy written and read again, gives a policy
    in which the access vectors of the selected keys are changed as asked and those of all
    other keys are what they were before the edit; the rules after the edit are at least one
    and fewer than 2^32 - 1. *)
Theorem add_rule_persists p src tgt cls perm effect invert :
  policy_ok p -> te_inv (te_avtab (pdb p)) -> effect ∈ [AVTAB_ALLOWED; AVTAB_AUDITALLOW; AVTAB_AUDITDENY] ->
  let selected k := exists s t c,
    s ∈ choose src (types_of (pdb p) effect invert) /\ t ∈ choose tgt (types_of (pdb p) effect invert) /\
    c ∈ choose cls (hashtab_data (table (p_classes (pdb p)))) /\ k = rule_key effect s t c in
  exists h', add_rule src tgt cls perm effect invert (pdb p, []) = Some (set_te_avtab (pdb p) h', []) /\
    (0 < Z.of_nat (length (avtab_nodes h')) < 2 ^ 32 - 1 ->
     exists image p', to_file (set_db p (set_te_avtab (pdb p) h')) 0 true = (true, Some image) /\
       (forall freed, from_data freed image 0 [] = Some (Some (p', 0))) /\
       (forall k, selected k -> av (te_avtab (pdb p')) k = new_av (av (te_avtab (pdb p)) k) perm invert) /\
       (forall k, plain_key k -> ~ selected k -> av (te_avtab (pdb p')) k = av (te_avtab (pdb p)) k)).
Proof.
  intros Hp Hi He selected. rewrite add_rule_keys.
  pose proof (rule_keys_av (pdb p) src tgt cls effect invert He) as Hks.
  destruct (for_each_edit perm invert (rule_keys (pdb p) src tgt cls effect invert) (pdb p) Hi Hks) as (h' & Hr & Hi' & Hs & Hav).
  pose proof (elem_of_rule_keys (pdb p) src tgt cls effect invert) as Hel. fold (selected) in Hel.
  exists h'. split; [exact Hr|]. intros Hn. pose proof (edited_policy _ _ _ Hks Hi' Hs p Hp eq_refl Hn) as Hp'.
  destruct (from_data_ok _ Hp') as (p' & Hsame & Hd). exists (policy_bytes (set_db p (set_te_avtab (pdb p) h'))), p'.
  split; [by apply to_file_ok|]. split; [intros freed; apply Hd|]. destruct (sp_rules _ _ Hsame) as [Hinv Hperm]. cbn [pdb set_db set_te_avtab te_avtab] in Hperm.
  assert (Hload : forall k, plain_key k -> av (te_avtab (pdb p')) k = av h' k) by (intros k Hk; by apply av_same). split.
  - intros k Hk%Hel. rewrite Hload; [by apply Hav|]. rewrite Forall_forall in Hks. by apply av_key_plain, Hks.
  - intros k Hpk Hk. rewrite Hload by done. eapply same_outside_av; [done..|]. by rewrite Hel.
Qed.

(** ** [policydb_init] *)

(** The first [i] allocations succeed, the next one fails, the others succeed. *)
Definition first_failure (i : nat) : oracle := replicate i true ++ [false].

Definition init_code {A} (r : (Z + A) * oracle) : option Z := match r.1 with inl rc => Some rc | inr _ => None end.

(** The codes of the 61 allocations. *)
Definition expected_code (i : nat) : option Z :=
  if (i <? 16)%nat then Some (-1) else if (i <? 50)%nat then Some 0 else if (i <? 61)%nat then Some (- ENOMEM) else None.

Lemma init_codes : Forall (fun i => init_code (policydb_init (first_failure i)) = expected_code i /\ (policydb_init (first_failure i)).2 = []) (seq 0 61).
Proof. apply (bool_decide_unpack _). vm_compute. exact I. Qed.


(** The header of a policy of version 30. *)
Definition ex_header : list Z :=
  words [POLICYDB_MAGIC; 8] ++ [83; 69; 32; 76; 105; 110; 117; 120] ++ words [30; 1; 8; 7].


(** ** A policy with something of everything *)

(** A policy with the symbols of [db]. *)
Definition with_parts (db : policydb) (te : avtab) (ft : ft_table) (n : Z) (permissive : ebitmap) (m1 : list ebitmap) (l : list genfs) : policydb :=
  Policydb POLICY_KERN SEPOL_TARGET_SELINUX 30 (p_symtab db) te (Some ft) n (type_val_to_struct db) m1 (attr_type_map db)
    permissive (p_mls db) (p_scope db) (p_global db) (p_index db) l.

Section parts.
Context (db : policydb) (te : avtab) (ft : ft_table) (n : Z) (permissive : ebitmap) (m1 : list ebitmap) (l : list genfs).

Lemma with_parts_kernel :
  kernel_policy 30 db -> Forall ebitmap_wf m1 -> Z.of_nat (length m1) = nprim (p_types db) ->
  kernel_policy 30 (with_parts db te ft n permissive m1 l).
Proof. intros [H1 H2 H3 H4 H5 H6 H7 H8 H9 H10 H11 H12 H13 H14 H15 H16 H17 H18 H19 H20] Hm Hl. split; try assumption; [reflexivity|by split]. Qed.

Lemma with_parts_valid c : context_is_valid (with_parts db te ft n permissive m1 l) c = context_is_valid db c.
Proof. reflexivity. Qed.

(** Roles whose sets hold types only have the sets as caches. *)
Lemma cached_check r t :
  role_types_ok t r -> ro_cache r = ts_types (ro_types r) ->
  forallb (fun i => match type_at (type_val_to_struct db) i with Some t => negb (expanded true t) | None => false end)
    (ebitmap_bits (ts_types (ro_types r))) = true ->
  role_cached (type_val_to_struct db) r r.
Proof.
  intros (ts & Ets & Hw & _) Hc Hf. exists (ts_types (ro_types r)). split; [rewrite <-Hc; by destruct r|].
  rewrite Ets in *. cbn [ts_types] in *. split; [exact Hw|]. intros b. apply eq_true_iff_eq. rewrite existsb_exists.
  rewrite forallb_forall in Hf. assert (Hb : forall i, In i (ebitmap_bits ts) <-> ebitmap_mem ts i = true).
  { intros i. rewrite <-list_elem_of_In, <-nodes_bits_filter by done. apply elem_of_nodes_bits. }
  assert (Hi : forall i, In i (ebitmap_bits ts) -> stands_for (type_val_to_struct db) true i b = (b =? i)).
  { intros i Hin. specialize (Hf i Hin). unfold stands_for. destruct (type_at _ i) as [d|]; [|done]. by destruct (expanded true d). }
  split.
  - intros Hm. exists b. split; [by apply Hb|]. rewrite Hi by (by apply Hb). apply Z.eqb_refl.
  - intros (i & Hin & Hst). rewrite Hi in Hst by done. apply Z.eqb_eq in Hst as ->. by apply Hb.
Qed.
End parts.

Definition ex_genfs : list genfs := [Genfs [112] [Ocontext [47] 0 ex_context context_init]].

(** The rows of the types with their own bits. *)
Definition ex_rows : list ebitmap := [sources [0; 1]; sources [1]; sources [2]].

Definition ex_saved_db : policydb := with_parts ex_built ex_avtab ex_ft 3 (sources [1]) ex_rows ex_genfs.

Definition ex_ranges : option range_table :=
  match hashtab_create 4 [] with
  | (Some h, _) => (hashtab_insert (Some h) (RangeTrans 1 3 1) (c_range ex_context) []).1.2
  | (None, _) => None
  end.

(** A rule that the boolean switches on. *)
Definition ex_cond : cond_node :=
  CondNode 0 [CondExpr COND_BOOL 1] [CondAv (AvNode 0 (ex_key AVTAB_ALLOWED) (AvDatum 8 None) 0) true] [].

Definition ex_saved : policy :=
  Policy ex_saved_db (sources [0; 2]) 2 0x40000000 0 0 0 0 no_avtab [ex_cond] [RoleTrans 2 1 1 1] [RoleAllow 1 2] ex_ocons ex_ranges.

Lemma rows_wf : Forall ebitmap_wf ex_rows.
Proof.
  unfold ex_rows. repeat (apply Forall_cons; split; [apply sources_wf; repeat (apply Forall_cons; split; [unfold MAPSIZE; lia|]); apply Forall_nil_2|]). apply Forall_nil_2.
Qed.

Lemma ex_nprim : nprim (p_types ex_built) = 3.
Proof. vm_compute. reflexivity. Qed.

Lemma ex_saved_kernel : kernel_policy 30 ex_saved_db.
Proof. apply with_parts_kernel; [exact (proj1 ex_built_ok)|exact rows_wf|rewrite ex_nprim; reflexivity]. Qed.

(** The roles and the users of the example, by computation. *)
Lemma ex_roles_check :
  forallb (fun n => bool_decide (ro_cache (hdatum n) = ts_types (ro_types (hdatum n))) &&
    forallb (fun i => match type_at (type_val_to_struct ex_built) i with Some t => negb (expanded true t) | None => false end)
      (ebitmap_bits (ts_types (ro_types (hdatum n)))))
    (match table (sym_roles (p_symtab ex_built)) with Some h => concat (htable h) | None => [] end) = true.
Proof. vm_compute. reflexivity. Qed.

Lemma ex_users_check :
  forallb (fun n => bool_decide (us_cache (hdatum n) = rs_roles (us_roles (hdatum n))))
    (match table (sym_users (p_symtab ex_built)) with Some h => concat (htable h) | None => [] end) = true.
Proof. vm_compute. reflexivity. Qed.

Lemma ex_object_r_check :
  match hashtab_search (table (sym_roles (p_symtab ex_built))) OBJECT_R with Some r => ro_value r =? OBJECT_R_VAL | None => false end = true.
Proof. vm_compute. reflexivity. Qed.

Lemma ex_indexed : indexed_policy 30 ex_saved_db.
Proof.
  pose proof (proj1 ex_built_ok) as Hk. split; [exact ex_saved_kernel|exact (proj2 ex_built_ok)|..].
  - change (p_symtab ex_saved_db) with (p_symtab ex_built). destruct (kp_roles _ _ Hk) as (h & E & Hw & _). pose proof ex_object_r_check as H.
    rewrite E, (hashtab_search_spec cstring_ok h OBJECT_R Hw object_r_ok) in H. destruct (hashtab_model h !! OBJECT_R) as [r|] eqn:Er; [|discriminate H].
    apply Z.eqb_eq in H. exists h, r. split; [exact E|]. split; [exact Er|exact H].
  - change (p_symtab ex_saved_db) with (p_symtab ex_built). intros h E k r Hr. pose proof ex_roles_check as H. rewrite E, forallb_forall in H.
    destruct (kp_types _ _ Hk) as (t & Et & _). specialize (H (HNode k r)). rewrite <-list_elem_of_In in H. specialize (H (model_node h k r Hr)).
    apply andb_prop in H as [H1%bool_decide_eq_true_1 H2]. exact (cached_check ex_built r _ (kp_role_types _ _ Hk h t E Et k r Hr) H1 H2).
  - change (p_symtab ex_saved_db) with (p_symtab ex_built). intros h E k u Hu. pose proof ex_users_check as H. rewrite E, forallb_forall in H.
    specialize (H (HNode k u)). rewrite <-list_elem_of_In in H. specialize (H (model_node h k u Hu)). apply bool_decide_eq_true_1 in H.
    cbn [hdatum] in H. unfold user_cached. rewrite <-H. by destruct u.
Qed.

(** The rows are what the reader makes of the rows as stored. *)
Definition ex_rows_stream : policy_file :=
  let bs := rows_bytes [sources [1]; ebitmap_init; ebitmap_init] in PolicyFile PF_USE_MEMORY bs (Z.of_nat (length bs)) [].

Lemma ex_rows_bytes : pf_bytes ex_rows_stream.
Proof. unfold pf_bytes. apply (bool_decide_unpack _). vm_compute. exact I. Qed.

Lemma ex_rows_read :
  read_attr_maps 30 3 (type_val_to_struct ex_built) ex_rows_stream [] =
  Some (MapsReader ex_rows [sources [0]; sources [0]; sources [2]] (PolicyFile PF_USE_MEMORY [] 0 []) []).
Proof. vm_compute. reflexivity. Qed.

Lemma ex_saved_maps : exists m, attr_maps_ok (nprim (p_types ex_built)) (type_val_to_struct ex_built) ex_rows m.
Proof.
  exists [sources [0]; sources [0]; sources [2]]. rewrite ex_nprim.
  exact (read_attr_maps_any 30 3 (type_val_to_struct ex_built) ltac:(unfold MAPSIZE; lia) ex_rows_stream [] _ ex_rows_bytes ex_rows_read).
Qed.

Lemma ex_storable : Forall (AvtabProps.storable 30) (avtab_nodes ex_avtab).
Proof.
  pose proof ex_avtab_inv as (_ & Hg & _).
  assert (E : avtab_nodes ex_avtab = ltac:(let l := eval vm_compute in (avtab_nodes ex_avtab) in exact l))
    by (vm_compute; reflexivity).
  rewrite E in *. repeat apply Forall_cons in Hg as [? Hg].
  repeat constructor; try done; set_solver.
Qed.

Lemma ex_saved_ft : ft_ok 30 3 ex_ft.
Proof.
  destruct ex_ft_consistent as (Hw & Hf & Hc). split; [exact Hw| |exact Hc|by rewrite <-Hc].
  eapply map_Forall_impl; [exact Hf|]. intros k c Hcons. split; [apply Hcons|]. split; [apply Hcons|]. intros _. by eapply entry_storable.
Qed.

Lemma same_valid c : 0 <= c_role c -> context_is_valid ex_built c = context_is_valid ex_saved_db c.
Proof. intros _. symmetry. apply with_parts_valid. Qed.

Lemma ex_range_same : has_range ex_built = has_range ex_saved_db.
Proof. rewrite ex_has_range. reflexivity. Qed.

Lemma ex_saved_genfs : genfs_ok ex_saved_db ex_genfs.
Proof.
  apply (genfs_ok_same ex_built ex_saved_db ex_range_same same_valid). split; [unfold counted; simpl; lia| |apply NoDup_singleton].
  apply Forall_singleton. split; [apply one_byte_fits; lia|unfold counted; simpl; lia| |repeat constructor].
  apply Forall_singleton. split; [apply one_byte_fits; lia|done|exact ex_context_ok|reflexivity].
Qed.

Lemma ex_saved_ocons : sections_ok ex_saved_db 0 (take 7 ex_ocons).
Proof.
  apply (sections_ok_same ex_built ex_saved_db ex_range_same same_valid). destruct ex_ocons_ok as (H0 & H1 & H2 & H3 & H4 & H5 & H6 & _).
  exact (conj H0 (conj H1 (conj H2 (conj H3 (conj H4 (conj H5 (conj H6 I))))))).
Qed.

Lemma ex_ranges_ok : exists h, ex_ranges = Some h /\ hashtab_wf any_key h /\ hashtab_model h = {[RangeTrans 1 3 1 := c_range ex_context]}.
Proof.
  destruct (hashtab_create_spec (D := mls_range) any_key 4 ltac:(lia)) as (h0 & E & Hw & Hm). unfold ex_ranges. rewrite E.
  destruct (hashtab_insert_new any_key h0 (RangeTrans 1 3 1) (c_range ex_context) Hw I) as (h & E2 & Hw2 & Hm2).
  - by rewrite Hm.
  - rewrite (nel_size any_key h0 Hw), Hm, map_size_empty. unfold UINT32_MAX. lia.
  - exists h. rewrite E2. split; [reflexivity|]. split; [exact Hw2|]. rewrite Hm2, Hm. apply insert_empty.
Qed.

Lemma ex_saved_ranges : exists h, ex_ranges = Some h /\ hashtab_wf any_key h /\
  map_Forall (range_entry_ok (nprim (p_types ex_built)) (nprim (p_classes ex_built))) (hashtab_model h).
Proof.
  destruct ex_ranges_ok as (h & E & Hw & Hm). exists h. split; [exact E|]. split; [exact Hw|]. rewrite Hm, ex_nprim.
  replace (nprim (p_classes ex_built)) with 1 by (vm_compute; reflexivity). apply map_Forall_singleton.
  split; [cbn; lia|]. split; [cbn; lia|]. split; [cbn; lia|apply ex_context_ok].
Qed.

Lemma ex_cond_ok : cond_node_ok 30 1 ex_cond.
Proof.
  split; cbn [ex_cond cur_state cn_expr true_list false_list app].
  - lia.
  - unfold counted. simpl. lia.
  - apply Forall_singleton. split; [done|reflexivity].
  - unfold counted. simpl. lia.
  - unfold counted. simpl. lia.
  - apply Forall_singleton. split; [|reflexivity]. split; [|exact I]. split; [by apply ex_key_ok|by split].
Qed.

Lemma ex_class_check :
  class_named (p_symtab ex_built) PROCESS = None /\ class_named (p_symtab ex_built) DIR = None.
Proof. split; vm_compute; reflexivity. Qed.

Lemma ex_saved_ok : policy_ok ex_saved.
Proof.
  destruct ex_class_check as [Hc1 Hc2].
  assert (Hb : nprim (sym_bools (p_symtab ex_built)) = 1) by (vm_compute; reflexivity).
  assert (Hm : p_mls ex_built = 1) by (vm_compute; reflexivity).
  assert (Hsrc : forall l, Forall (fun b => 0 <= b < 2 ^ 32 - MAPSIZE) l -> ebitmap_wf (sources l)) by (intros l; apply sources_wf).
  split; cbn [pdb ex_saved handle_unknown android_extra policycaps process_class dir_class process_trans process_trans_dyntrans cond_list
    role_tr p_role_allow ocontexts range_tr ex_saved_db with_parts policyvers target_platform p_mls permissive_map te_avtab filename_trans
    filename_trans_count p_genfs type_val_to_struct type_attr_map].
  - lia.
  - reflexivity.
  - right. exact Hm.
  - reflexivity.
  - reflexivity.
  - apply Hsrc. repeat (apply Forall_cons; split; [unfold MAPSIZE; lia|]). apply Forall_nil_2.
  - apply Hsrc. apply Forall_cons; split; [unfold MAPSIZE; lia|]. apply Forall_nil_2.
  - exact ex_indexed.
  - change (0 = from_option cls_value 0 (class_named (p_symtab ex_built) PROCESS)). rewrite Hc1. reflexivity.
  - change (0 = from_option cls_value 0 (class_named (p_symtab ex_built) DIR)). rewrite Hc2. reflexivity.
  - change (0 = from_option (fun d => class_perm d TRANSITION) 0 (class_named (p_symtab ex_built) PROCESS)). rewrite Hc1. reflexivity.
  - change (0 = Z.lor 0 (from_option (fun d => class_perm d DYNTRANSITION) 0 (class_named (p_symtab ex_built) PROCESS))). rewrite Hc1. reflexivity.
  - exact ex_avtab_inv.
  - exact ex_storable.
  - replace (length (avtab_nodes ex_avtab)) with 3%nat by (vm_compute; reflexivity). lia.
  - unfold counted. simpl. lia.
  - change (Forall (cond_node_ok 30 (nprim (sym_bools (p_symtab ex_built)))) [ex_cond]). rewrite Hb. apply Forall_singleton. exact ex_cond_ok.
  - cbn [conds_fit ex_cond contents true_list false_list rules_fit]. split; [|split; [exact I|exact I]]. split; [intros H; discriminate H|exact I].
  - unfold counted. simpl. lia.
  - apply Forall_singleton. split_and!; try (unfold word; cbn; lia).
  - unfold counted. simpl. lia.
  - apply Forall_singleton. split; unfold word; cbn; lia.
  - exists ex_ft. split; [reflexivity|exact ex_saved_ft].
  - split; [reflexivity|]. split; [exact ex_saved_ocons|reflexivity].
  - exact ex_saved_genfs.
  - exact ex_saved_ranges.
  - exact ex_saved_maps.
Qed.

Lemma policy_roundtrip_witness :
  exists image p', to_file ex_saved 0 true = (true, Some image) /\ (forall freed, from_file freed (Some image) 0 [] = Some (Some (p', 0))) /\ same_policy ex_saved p' /\
    permissive_map (pdb p') = sources [1] /\ ocontexts p' = ex_ocons.
Proof.
  destruct (policy_roundtrip ex_saved ex_saved_ok) as (image & p' & H1 & H3 & H2). exists image, p'.
  split; [exact H1|]. split; [exact (fun freed => proj2 (H2 freed))|]. split; [exact H3|]. split; [exact (sp_permissive _ _ H3)|exact (sp_ocons _ _ H3)].
Defined.

(** allow t t:f { w } *)
Definition ex_edit : option state :=
  add_rule (Some (plain_type 1 1 TYPE_TYPE)) (Some (plain_type 1 1 TYPE_TYPE)) (Some ex_sym_class) (Some (PermDatum 2)) AVTAB_ALLOWED false (ex_saved_db, []).

Lemma ex_edit_count : match ex_edit with Some (db, _) => length (avtab_nodes (te_avtab db)) | None => 0%nat end = 4%nat.
Proof. vm_compute. reflexivity. Qed.

Lemma ex_avtab_te : te_inv ex_avtab.
Proof.
  split; [exact ex_avtab_inv|].
  assert (E : (fun n => specified (akey n)) <$> avtab_nodes ex_avtab = [AVTAB_XPERMS_ALLOWED; AVTAB_XPERMS_ALLOWED; AVTAB_ALLOWED] \/
    (fun n => specified (akey n)) <$> avtab_nodes ex_avtab = [AVTAB_ALLOWED; AVTAB_XPERMS_ALLOWED; AVTAB_XPERMS_ALLOWED]) by (vm_compute; tauto).
  apply (Forall_fmap (fun n => specified (akey n)) (fun sp => sp ∈ specs)).
  destruct E as [-> | ->]; repeat (apply Forall_cons; split; [by apply specs_elem|]); apply Forall_nil_2.
Qed.

Lemma add_rule_persists_witness :
  exists h' image p', ex_edit = Some (set_te_avtab ex_saved_db h', []) /\
    to_file (set_db ex_saved (set_te_avtab ex_saved_db h')) 0 true = (true, Some image) /\ (forall freed, from_data freed image 0 [] = Some (Some (p', 0))) /\
    av (te_avtab (pdb p')) (AvKey 1 1 1 AVTAB_ALLOWED) = 2 /\ av (te_avtab (pdb p')) (AvKey 1 2 3 AVTAB_ALLOWED) = 6.
Proof.
  destruct (add_rule_persists ex_saved (Some (plain_type 1 1 TYPE_TYPE)) (Some (plain_type 1 1 TYPE_TYPE)) (Some ex_sym_class) (Some (PermDatum 2))
    AVTAB_ALLOWED false ex_saved_ok ex_avtab_te ltac:(by left)) as (h' & Hr & H).
  change (ex_edit = Some (set_te_avtab ex_saved_db h', [])) in Hr. pose proof ex_edit_count as Hc. rewrite Hr in Hc.
  change (length (avtab_nodes h') = 4%nat) in Hc. destruct H as (image & p' & H1 & H2 & H3 & H4); [rewrite Hc; lia|].
  exists h', image, p'. split; [exact Hr|]. split; [exact H1|]. split; [exact H2|]. split.
  - rewrite (H3 (AvKey 1 1 1 AVTAB_ALLOWED)); [vm_compute; reflexivity|].
    exists (plain_type 1 1 TYPE_TYPE), (plain_type 1 1 TYPE_TYPE), ex_sym_class. split; [by left|]. split; [by left|]. split; [by left|]. vm_compute. reflexivity.
  - rewrite (H4 (AvKey 1 2 3 AVTAB_ALLOWED)); [vm_compute; reflexivity| |].
    + split; [split_and!; cbn; unfold AVTAB_ALLOWED; lia|]. split; [by apply specs_elem|reflexivity].
    + intros (s & t & c & Hs & Ht & _ & E). apply list_elem_of_singleton in Ht as ->. apply (f_equal target_type) in E.
      change (2 = u16 1) in E. vm_compute in E. discriminate E.
Defined.
