(* ===== verification/Statement.v ===== *)
(** * The policy statement language (native/src/sepolicy/statement.rs)

    magiskpolicy and the rule files of modules describe edits of the policy as lines of
    text: a line is split into words and tokens, and a recursive descent parser calls
    the operation of [SePolicy] the statement names.

    A [&str] is the list of its characters (Unicode scalar values).  [Tokens], a peekable
    iterator, is the list of the tokens that are left; a parser returns [None] for
    [Err(ParseError::General)]. *)

From Stdlib Require Import String Ascii.
From S2P Require Import Prelude SepolicyXperm.

Abbreviation str := (list Z).

(** A string literal. *)
Definition lit (s : string) : str := (fun c => Z.of_nat (nat_of_ascii c)) <$> list_ascii_of_string s.

(** [char::is_whitespace]. *)
Definition is_whitespace (c : Z) : bool :=
  (9 <=? c) && (c <=? 13) || (c =? 0x20) || (c =? 0x85) || (c =? 0xA0) || (c =? 0x1680) ||
  (0x2000 <=? c) && (c <=? 0x200A) || (c =? 0x2028) || (c =? 0x2029) || (c =? 0x202F) ||
  (c =? 0x205F) || (c =? 0x3000).

(** [str::split_whitespace]: the words; [w] is the word that is being read, reversed. *)
Fixpoint split_words (w : str) (s : str) : list str :=
  let flush (l : list str) := match w with [] => l | _ => rev w :: l end in
  match s with
  | [] => flush []
  | c :: s' => if is_whitespace c then flush (split_words [] s') else split_words (c :: w) s'
  end.

Definition split_whitespace (s : str) : list str := split_words [] s.

(** [str::trim]. *)
Fixpoint trim_start (s : str) : str :=
  match s with
  | c :: s' => if is_whitespace c then trim_start s' else s
  | [] => []
  end.

Definition trim (s : str) : str := rev (trim_start (rev (trim_start s))).

(** [str::find] and [split_at]: what is before and after the first [c]. *)
Fixpoint split_char (c : Z) (s : str) : option (str * str) :=
  match s with
  | [] => None
  | d :: s' =>
      if d =? c then Some ([], s')
      else match split_char c s' with Some (a, b) => Some (d :: a, b) | None => None end
  end.

(** [str::starts_with] for a character. *)
Definition starts_with (c : Z) (s : str) : bool :=
  match s with d :: _ => d =? c | [] => false end.

(** [str::strip_prefix]. *)
Fixpoint strip_prefix (p s : str) : option str :=
  match p, s with
  | [], _ => Some s
  | c :: p', d :: s' => if d =? c then strip_prefix p' s' else None
  | _, _ => None
  end.

(** [str::parse::<u16>]: decimal digits after an optional plus sign; [None] is an error,
    also for a number that does not fit. *)
Fixpoint parse_digits (s : str) (acc : Z) : option Z :=
  match s with
  | [] => Some acc
  | c :: s' =>
      if (48 <=? c) && (c <=? 57) then
        let v := acc * 10 + (c - 48) in
        if v <=? 2 ^ 16 - 1 then parse_digits s' v else None
      else None
  end.

Definition parse_u16 (s : str) : option Z :=
  match s with
  | [] => None
  | [c] => if (c =? 43) || (c =? 45) then None else parse_digits s 0
  | c :: s' => if c =? 43 then parse_digits s' 0 else parse_digits s 0
  end.

(** ** Tokens *)

Inductive token :=
  | AL | DN | AA | DA | AX | AY | DX | PM | EF | TA | TY | AT | TT | TC | TM | GF
  | LB | RB | CM | ST | TL | HP
  | HX (n : Z)
  | ID (s : str).

(** The words [extract_token] matches before it looks into the text. *)
Definition keywords : list (str * token) :=
  [(lit "allow", AL); (lit "deny", DN); (lit "auditallow", AA); (lit "dontaudit", DA);
   (lit "allowxperm", AX); (lit "auditallowxperm", AY); (lit "dontauditxperm", DX);
   (lit "permissive", PM); (lit "enforce", EF); (lit "typeattribute", TA); (lit "type", TY);
   (lit "attribute", AT); (lit "type_transition", TT); (lit "type_change", TC);
   (lit "type_member", TM); (lit "genfscon", GF); (lit "*", ST)].

Definition keyword (s : str) : option token :=
  snd <$> List.find (fun k => bool_decide (k.1 = s)) keywords.

(** The characters that are tokens by themselves, in the order of the tests: braces,
    comma, hyphen. *)
Definition punctuation : list (Z * token) := [(123, LB); (125, RB); (44, CM); (45, HP)].

Fixpoint split_punct (l : list (Z * token)) (s : str) : option (str * token * str) :=
  match l with
  | [] => None
  | (c, t) :: l' =>
      match split_char c s with
      | Some (a, b) => Some (a, t, b)
      | None => split_punct l' s
      end
  end.

(** [extract_token]: the tokens it pushes.  The recursive calls are on proper substrings;
    [None] is out of fuel. *)
Fixpoint extract_token (fuel : nat) (s : str) : option (list token) :=
  match fuel with
  | O => None
  | S fuel' =>
      match keyword s with
      | Some t => Some [t]
      | None =>
          match s with
          | [] => Some []
          | _ =>
              match split_punct punctuation s with
              | Some (a, t, b) =>
                  match extract_token fuel' a, extract_token fuel' b with
                  | Some ta, Some tb => Some (ta ++ t :: tb)
                  | _, _ => None
                  end
              | None =>
                  match strip_prefix (lit "~") s with
                  | Some b =>
                      match extract_token fuel' b with
                      | Some tb => Some (TL :: tb)
                      | None => None
                      end
                  | None =>
                      match strip_prefix (lit "0x") s with
                      | Some b => Some [HX (default 0 (parse_u16 b))]
                      | None => Some [ID s]
                      end
                  end
              end
          end
      end
  end.

(** [tokenize_statement]; a word of [n] characters needs at most [n + 1] nested calls. *)
Fixpoint tokenize_words (l : list str) : option (list token) :=
  match l with
  | [] => Some []
  | w :: l' =>
      match extract_token (S (length w)) w, tokenize_words l' with
      | Some t, Some ts => Some (t ++ ts)
      | _, _ => None
      end
  end.

Definition tokenize_statement (s : str) : option (list token) := tokenize_words (split_whitespace s).

(** [Display] of a token.  A number is printed by [{n:06X}]: in hexadecimal, six characters
    filled with zeros, of which a [u16] needs at most four. *)
Definition hex_digit (d : Z) : Z := if d <? 10 then 48 + d else 55 + d.

Definition display (t : token) : str :=
  match t with
  | AL => lit "allow" | DN => lit "deny" | AA => lit "auditallow" | DA => lit "dontaudit"
  | AX => lit "allowxperm" | AY => lit "auditallowxperm" | DX => lit "dontauditxperm"
  | PM => lit "permissive" | EF => lit "enforce" | TA => lit "typeattribute" | TY => lit "type"
  | AT => lit "attribute" | TT => lit "type_transition" | TC => lit "type_change"
  | TM => lit "type_member" | GF => lit "genfscon"
  | LB => lit "{" | RB => lit "}" | CM => lit "," | ST => lit "*" | TL => lit "~" | HP => lit "-"
  | HX n => lit "00" ++ map hex_digit [n / 4096 mod 16; n / 256 mod 16; n / 16 mod 16; n mod 16]
  | ID s => s
  end.

(** ** Parsers *)

Definition parser (A : Type) : Type := list token -> option (A * list token).

Definition pret {A} (a : A) : parser A := fun ts => Some (a, ts).

Definition pbind {A B} (p : parser A) (f : A -> parser B) : parser B :=
  fun ts => match p ts with Some (a, ts') => f a ts' | None => None end.

Notation "'let?' x := p 'in' q" := (pbind p (fun x => q))
  (at level 10, x pattern, p at level 200, q at level 200).

Definition parse_id : parser str := fun ts =>
  match ts with
  | ID name :: ts' => Some (name, ts')
  | _ => None
  end.

(** The loop of [parse_term]. *)
Fixpoint parse_names (ts : list token) : option (list str * list token) :=
  match ts with
  | ID name :: ts' =>
      match parse_names ts' with Some (names, r) => Some (name :: names, r) | None => None end
  | RB :: ts' => Some ([], ts')
  | _ => None
  end.

Definition parse_term : parser (list str) := fun ts =>
  match ts with
  | ID name :: ts' => Some ([name], ts')
  | LB :: ts' => parse_names ts'
  | _ => None
  end.

(** The loop of [parse_sterm]; [names] becomes [None] at a match-all. *)
Fixpoint parse_snames (names : option (list str)) (ts : list token) :
    option (option (list str) * list token) :=
  match ts with
  | ID name :: ts' => parse_snames ((fun l => l ++ [name]) <$> names) ts'
  | ST :: ts' => parse_snames None ts'
  | RB :: ts' => Some (names, ts')
  | _ => None
  end.

Definition parse_sterm : parser (list str) := fun ts =>
  match ts with
  | ID name :: ts' => Some ([name], ts')
  | ST :: ts' => Some ([], ts')
  | LB :: ts' =>
      match parse_snames (Some []) ts' with
      | Some (names, r) => Some (default [] names, r)
      | None => None
      end
  | _ => None
  end.

Definition parse_xperm : parser xperm := fun ts =>
  match ts with
  | HX low :: HP :: ts' =>
      match ts' with
      | HX high :: ts'' => Some (Xperm low high false, ts'')
      | _ => None
      end
  | HX low :: ts' => Some (Xperm low low false, ts')
  | _ => None
  end.

(** The loop of [parse_xperms], which reads at least one range; each round consumes a
    token, so the fuel is the number of tokens. *)
Fixpoint parse_xperm_list (fuel : nat) (reset : bool) (ts : list token) :
    option (list xperm * list token) :=
  match fuel with
  | O => None
  | S fuel' =>
      match parse_xperm ts with
      | None => None
      | Some (x, ts') =>
          let x := Xperm (low x) (high x) reset in
          match ts' with
          | RB :: ts'' => Some ([x], ts'')
          | _ =>
              match parse_xperm_list fuel' reset ts' with
              | Some (l, r) => Some (x :: l, r)
              | None => None
              end
          end
      end
  end.

Definition parse_xperms : parser (list xperm) := fun ts =>
  let body reset ts :=
    match ts with
    | LB :: ts' => parse_xperm_list (length ts') reset ts'
    | ST :: ts' => Some ([Xperm 0x0000 0xFFFF reset], ts')
    | HX low :: ts' =>
        if 0 <? low then Some ([Xperm low low reset], ts')
        else Some ([Xperm 0x0000 0xFFFF reset], ts')
    | _ => None
    end in
  match ts with
  | TL :: ts' =>
      match ts' with
      | LB :: _ => body true ts'
      | _ => None
      end
  | _ => body false ts
  end.

Definition match_string (pattern : str) : parser unit := fun ts =>
  match ts with
  | ID s :: ts' => if bool_decide (s = pattern) then Some (tt, ts') else None
  | _ => None
  end.

(** [check_additional_args]. *)
Definition parse_end : parser unit := fun ts =>
  match ts with [] => Some (tt, []) | _ => None end.

(** An argument that may be missing at the end. *)
Definition parse_opt {A} (none : A) (p : parser A) : parser A := fun ts =>
  match ts with [] => Some (none, []) | _ => p ts end.

(** ** Statements *)

(** The operations of [SePolicy] (lib.rs); an operation of the C++ side may crash. *)
Class SePolicy (P : Type) := {
  allow : list str -> list str -> list str -> list str -> P -> option P;
  deny : list str -> list str -> list str -> list str -> P -> option P;
  auditallow : list str -> list str -> list str -> list str -> P -> option P;
  dontaudit : list str -> list str -> list str -> list str -> P -> option P;
  allowxperm : list str -> list str -> list str -> list xperm -> P -> option P;
  auditallowxperm : list str -> list str -> list str -> list xperm -> P -> option P;
  dontauditxperm : list str -> list str -> list str -> list xperm -> P -> option P;
  permissive : list str -> P -> option P;
  enforce : list str -> P -> option P;
  typeattribute : list str -> list str -> P -> option P;
  type_ : str -> list str -> P -> option P;
  attribute : str -> P -> option P;
  type_transition : str -> str -> str -> str -> str -> P -> option P;
  type_change : str -> str -> str -> str -> P -> option P;
  type_member : str -> str -> str -> str -> P -> option P;
  genfscon : str -> str -> str -> P -> option P
}.

Inductive parse_error :=
  | General
  | AvtabAv (t : token)
  | AvtabXperms (t : token)
  | AvtabType (t : token)
  | TypeState (t : token)
  | TypeAttr
  | TypeTrans
  | NewType
  | NewAttr
  | GenfsCon
  | ShowHelp
  | UnknownAction (t : token).

Section exec.
Context {P : Type} `{!SePolicy P}.

(** The result of a statement: the outer [None] is a crash, [inr] the changed policy;
    [inl] is an error, which leaves the policy as it was. *)
Definition run_parsed (r : option ((P -> option P) * list token)) (e : parse_error) (p : P) :
    option (parse_error + P) :=
  match r with
  | None => Some (inl e)
  | Some (f, _) => inr <$> f p
  end.

Definition exec_statement (ts : list token) (p : P) : option (parse_error + P) :=
  match ts with
  | [] => Some (inl ShowHelp)
  | action :: ts =>
      let av f :=
        run_parsed ((let? s := parse_sterm in let? t := parse_sterm in let? c := parse_sterm in
                     let? q := parse_sterm in let? _ := parse_end in pret (f s t c q)) ts)
          (AvtabAv action) p in
      let xperm f :=
        run_parsed ((let? s := parse_sterm in let? t := parse_sterm in let? c := parse_sterm in
                     let? _ := match_string (lit "ioctl") in let? x := parse_xperms in
                     let? _ := parse_end in pret (f s t c x)) ts)
          (AvtabXperms action) p in
      let type_state f :=
        run_parsed ((let? t := parse_sterm in let? _ := parse_end in pret (f t)) ts)
          (TypeState action) p in
      let type_rule f :=
        run_parsed ((let? s := parse_id in let? t := parse_id in let? c := parse_id in
                     let? d := parse_id in let? _ := parse_end in pret (f s t c d)) ts)
          (AvtabType action) p in
      match action with
      | AL => av allow
      | DN => av deny
      | AA => av auditallow
      | DA => av dontaudit
      | AX => xperm allowxperm
      | AY => xperm auditallowxperm
      | DX => xperm dontauditxperm
      | PM => type_state permissive
      | EF => type_state enforce
      | TA =>
          run_parsed ((let? t := parse_term in let? a := parse_term in let? _ := parse_end in
                       pret (typeattribute t a)) ts) TypeAttr p
      | TY =>
          run_parsed ((let? t := parse_id in let? a := parse_opt [] parse_term in
                       let? _ := parse_end in pret (type_ t a)) ts) NewType p
      | AT =>
          run_parsed ((let? t := parse_id in let? _ := parse_end in pret (attribute t)) ts)
            NewAttr p
      | TC => type_rule type_change
      | TM => type_rule type_member
      | TT =>
          run_parsed ((let? s := parse_id in let? t := parse_id in let? c := parse_id in
                       let? d := parse_id in let? o := parse_opt [] parse_id in
                       let? _ := parse_end in pret (type_transition s t c d o)) ts) TypeTrans p
      | GF =>
          run_parsed ((let? s := parse_id in let? t := parse_id in let? c := parse_id in
                       let? _ := parse_end in pret (genfscon s t c)) ts) GenfsCon p
      | _ => Some (inl (UnknownAction action))
      end
  end.

(** [parse_statement]: blank lines and comments are skipped, errors are only logged. *)
Definition parse_statement (statement : str) (p : P) : option P :=
  let s := trim statement in
  if bool_decide (s = []) || starts_with 35 s then Some p
  else
    match tokenize_statement s with
    | None => None
    | Some ts =>
        match exec_statement ts p with
        | None => None
        | Some (inl _) => Some p
        | Some (inr p') => Some p'
        end
    end.

(** The lines [read_line] returns, each with its line feed. *)
Fixpoint lines (l : str) (s : str) : list str :=
  match s with
  | [] => match l with [] => [] | _ => [rev l] end
  | c :: s' => if c =? 10 then rev (c :: l) :: lines [] s' else lines (c :: l) s'
  end.

Fixpoint load_lines (ls : list str) (p : P) : option P :=
  match ls with
  | [] => Some p
  | l :: ls' => match parse_statement l p with Some p' => load_lines ls' p' | None => None end
  end.

(** [load_rules] and [load_rules_from_reader]. *)
Definition load_rules (rules : str) (p : P) : option P := load_lines (lines [] rules) p.

End exec.
