(* ===== verification/StatementSpec.v ===== *)
(** * The policy statement language: tokens and parsers invert printing

    Each command is spelled in one canonical way, which the code reads back: words into
    tokens, tokens into the call.  The words are the tokens as [Display] prints them, but
    for numbers, which are spelled as the tokenizer reads them, [0x] and decimal digits.
    A grammar says which lists of tokens are statements, and the parsers accept exactly
    these. *)

From Stdlib Require Import String Ascii.
From S2P Require Import Prelude Sepolicy SepolicyXperm Statement.

(** ** The tokenizer ends *)

Lemma split_char_length c s a b :
  split_char c s = Some (a, b) -> length s = (length a + 1 + length b)%nat.
Proof.
  revert a. induction s as [|d s IH]; intros a; simpl; [done|].
  case_Z; [by intros [= <- <-]|]. destruct (split_char c s) as [[a' b']|]; [|done].
  intros [= <- <-]. simpl. by rewrite (IH a').
Qed.

Lemma split_punct_length l s a t b :
  split_punct l s = Some (a, t, b) -> length s = (length a + 1 + length b)%nat.
Proof.
  induction l as [|[c u] l IH]; simpl; [done|]. destruct (split_char c s) as [[a' b']|] eqn:E; [|done].
  intros [= -> -> ->]. by eapply split_char_length.
Qed.

Lemma strip_prefix_length p s b : strip_prefix p s = Some b -> length s = (length p + length b)%nat.
Proof.
  revert s. induction p as [|c p IH]; intros [|d s]; simpl; try done; [by intros [= <-]..|].
  case_Z; [|done]. intros E. by rewrite (IH _ E).
Qed.

Lemma extract_token_total fuel s :
  (length s < fuel)%nat -> exists ts, extract_token fuel s = Some ts.
Proof.
  revert s. induction fuel as [|fuel IH]; intros s Hl; [lia|]. cbn [extract_token].
  destruct (keyword s); [eauto|]. destruct s as [|c s]; [eauto|].
  destruct (split_punct punctuation (c :: s)) as [[[a t] b]|] eqn:Es.
  { apply split_punct_length in Es. simpl in Es, Hl.
    destruct (IH a ltac:(lia)) as [ta ->], (IH b ltac:(lia)) as [tb ->]. eauto. }
  destruct (strip_prefix (lit "~") (c :: s)) as [b|] eqn:Ep.
  { apply strip_prefix_length in Ep. simpl in Ep, Hl. destruct (IH b ltac:(lia)) as [tb ->]. eauto. }
  destruct (strip_prefix (lit "0x") (c :: s)); eauto.
Qed.

Lemma tokenize_total s : exists ts, tokenize_statement s = Some ts.
Proof.
  unfold tokenize_statement. induction (split_whitespace s) as [|w l [ts IH]]; [by exists []|].
  cbn [tokenize_words]. destruct (extract_token_total (S (length w)) w ltac:(lia)) as [t ->].
  rewrite IH. eauto.
Qed.

(** ** Spelling tokens *)

(** Decimal digits, of which a [u16] has at most five. *)
Fixpoint digits (n : nat) (x : Z) : str :=
  match n with
  | O => []
  | S n' => if x <? 10 then [48 + x] else digits n' (x / 10) ++ [48 + x mod 10]
  end.

(** A text that the tokenizer reads as the token.  It is what [Display] prints except for a
    number: [Display] prints hexadecimal digits, the tokenizer expects decimal digits after
    [0x]. *)
Definition spelling (t : token) : str :=
  match t with
  | HX n => lit "0x" ++ digits 5 n
  | _ => display t
  end.

(** Names that stand for themselves: no white space or punctuation, no keyword, no prefix
    of another token. *)
Definition id_ok (s : str) : bool :=
  match keyword s, split_punct punctuation s, strip_prefix (lit "~") s, strip_prefix (lit "0x") s with
  | None, None, None, None => negb (bool_decide (s = [])) && forallb (fun c => negb (is_whitespace c)) s
  | _, _, _, _ => false
  end.

Definition token_ok (t : token) : Prop :=
  match t with
  | HX n => 0 <= n < 2 ^ 16
  | ID s => id_ok s = true
  | _ => True
  end.

Definition word_ok (w : str) : Prop := w <> [] /\ Forall (fun c => is_whitespace c = false) w.

#[export] Instance token_eq_dec : EqDecision token.
Proof. solve_decision. Defined.

Lemma parse_digits_app a b acc :
  parse_digits (a ++ b) acc =
  match parse_digits a acc with Some v => parse_digits b v | None => None end.
Proof.
  revert acc. induction a as [|c a IH]; intros acc; simpl; [done|].
  destruct ((48 <=? c) && (c <=? 57)); [|done]. by destruct (_ <=? _).
Qed.

Lemma parse_digit x v :
  0 <= x < 10 -> v * 10 + x < 2 ^ 16 -> parse_digits [48 + x] v = Some (v * 10 + x).
Proof.
  intros Hx Hv. cbn [parse_digits]. replace (48 + x - 48) with x by lia.
  rewrite !(proj2 (Z.leb_le _ _)) by lia. done.
Qed.

Lemma parse_digits_digits k x :
  0 <= x < 10 ^ Z.of_nat k -> x < 2 ^ 16 -> parse_digits (digits k x) 0 = Some x.
Proof.
  revert x. induction k as [|k IH]; intros x Hx Hs; cbn [digits].
  { simpl in *. f_equal. lia. }
  case_Z; [by rewrite parse_digit by lia|].
  rewrite Nat2Z.inj_succ, Z.pow_succ_r in Hx by lia.
  pose proof (Z.div_mod x 10 ltac:(lia)). pose proof (Z.mod_pos_bound x 10 ltac:(lia)).
  rewrite parse_digits_app, IH by lia. rewrite parse_digit by lia. f_equal. lia.
Qed.

Definition is_digit (c : Z) : Prop := 48 <= c <= 57.

Lemma digits_digit k x : 0 <= x -> Forall is_digit (digits k x).
Proof.
  revert x. induction k as [|k IH]; intros x Hx; cbn [digits]; [constructor|]. case_Z.
  - constructor; [unfold is_digit; lia|constructor].
  - apply Forall_app. split; [apply IH; by apply Z.div_pos|].
    constructor; [|constructor]. unfold is_digit. pose proof (Z.mod_pos_bound x 10). lia.
Qed.

Lemma digits_nonempty k x : digits (S k) x <> [].
Proof. cbn [digits]. case_Z; [done|]. by destruct (digits k (x / 10)). Qed.

Lemma parse_u16_digits n : 0 <= n < 2 ^ 16 -> parse_u16 (digits 5 n) = Some n.
Proof.
  intros Hn. pose proof (parse_digits_digits 5 n ltac:(simpl; lia) ltac:(lia)) as E.
  pose proof (digits_digit 5 n ltac:(lia)) as Hd. pose proof (digits_nonempty 4 n) as Hne.
  unfold parse_u16. destruct (digits 5 n) as [|c s]; [done|]. apply Forall_cons in Hd as [Hc _].
  unfold is_digit in Hc. rewrite !(proj2 (Z.eqb_neq _ _)) by lia. by destruct s.
Qed.

(** ASCII letters and digits. *)
Definition is_alnum (c : Z) : Prop := 48 <= c <= 57 \/ 65 <= c <= 90 \/ 97 <= c <= 122.

Lemma alnum_word w :
  Forall is_alnum w ->
  split_punct punctuation w = None /\ Forall (fun c => is_whitespace c = false) w.
Proof.
  intros Hw. split.
  - assert (Hc : forall c, ~ is_alnum c -> split_char c w = None).
    { intros c Hc. induction Hw as [|d w Hd Hw IH]; [done|]. simpl.
      destruct (Z.eqb_spec d c) as [->|]; [done|]. by rewrite IH. }
    unfold is_alnum in Hc. simpl. by rewrite !Hc by lia.
  - eapply Forall_impl; [exact Hw|]. intros c. unfold is_alnum, is_whitespace. intros Hc.
    rewrite !(proj2 (Z.eqb_neq c _)) by lia. by repeat case_Z; lia || done.
Qed.

Lemma keyword_digit c w : is_digit c -> keyword (c :: w) = None.
Proof.
  intros Hc. unfold keyword. destruct (List.find _ keywords) as [[k t]|] eqn:E; [|done]. exfalso.
  apply List.find_some in E as [Hin He]. apply bool_decide_eq_true in He. simpl in He. subst k.
  unfold is_digit in Hc. vm_compute in Hin. repeat destruct Hin as [Hin|Hin]; simplify_eq; lia || done.
Qed.

(** A word that begins with [0x] is a number: what the rest is as a decimal number, or 0. *)
Lemma number_text w fuel :
  Forall is_alnum w ->
  word_ok (lit "0x" ++ w) /\
  extract_token (S fuel) (lit "0x" ++ w) = Some [HX (default 0 (parse_u16 w))].
Proof.
  intros Hd. destruct (alnum_word _ Hd) as [Hp Hw].
  change (lit "0x" ++ w) with (48 :: 120 :: w). split.
  { split; [done|]. by repeat constructor. }
  cbn [extract_token]. rewrite keyword_digit by (unfold is_digit; lia).
  assert (Hs : split_punct punctuation (48 :: 120 :: w) = None).
  { revert Hp. simpl. repeat (destruct (split_char _ w) as [[? ?]|]; [done|]). done. }
  rewrite Hs. change (strip_prefix (lit "~") (48 :: 120 :: w)) with (@None str).
  change (strip_prefix (lit "0x") (48 :: 120 :: w)) with (Some w). done.
Qed.

Lemma hx_text n :
  0 <= n < 2 ^ 16 ->
  word_ok (spelling (HX n)) /\
  extract_token (S (length (spelling (HX n)))) (spelling (HX n)) = Some [HX n].
Proof.
  intros Hn. cbn [spelling].
  destruct (number_text (digits 5 n) (length (lit "0x" ++ digits 5 n))) as [Hw He].
  { eapply Forall_impl; [apply digits_digit; lia|]. intros c. unfold is_digit, is_alnum. lia. }
  rewrite parse_u16_digits in He by done. done.
Qed.

(** With a letter in it the rest is not a decimal number. *)
Lemma parse_digits_letter w acc : Exists (fun c => ~ is_digit c) w -> parse_digits w acc = None.
Proof.
  intros Hw. revert acc. induction Hw as [c w Hc|c w Hw IH]; intros acc; simpl.
  - destruct ((48 <=? c) && (c <=? 57)) eqn:E; [|done]. exfalso. apply Hc. zify_bools. done.
  - destruct (_ && _); [|done]. destruct (_ <=? _); [apply IH|done].
Qed.

Lemma parse_u16_letter w :
  Forall is_alnum w -> Exists (fun c => ~ is_digit c) w -> parse_u16 w = None.
Proof.
  intros Hw He. unfold parse_u16. destruct w as [|c w]; [done|].
  apply Forall_cons in Hw as [Hc _]. unfold is_alnum in Hc.
  rewrite !(proj2 (Z.eqb_neq c _)) by lia. destruct w; by apply parse_digits_letter.
Qed.

Lemma word_ok_bool w :
  negb (bool_decide (w = [])) && forallb (fun c => negb (is_whitespace c)) w = true -> word_ok w.
Proof.
  rewrite andb_true_iff, negb_true_iff, bool_decide_eq_false, forallb_forall. intros [Hn Hf].
  split; [done|]. apply Forall_forall. intros c Hc. apply negb_true_iff, Hf. by apply list_elem_of_In.
Qed.

Lemma spelling_ok t :
  token_ok t ->
  word_ok (spelling t) /\ extract_token (S (length (spelling t))) (spelling t) = Some [t].
Proof.
  destruct t as [| | | | | | | | | | | | | | | | | | | | | |n|s];
    try (intros _; split; [by apply word_ok_bool|vm_compute; reflexivity]).
  - apply hx_text.
  - simpl token_ok. unfold id_ok. cbn [spelling display extract_token].
    destruct (keyword s) eqn:Ek; [done|]. destruct (split_punct punctuation s) eqn:Es; [done|].
    destruct (strip_prefix (lit "~") s) eqn:Et; [done|].
    destruct (strip_prefix (lit "0x") s) eqn:Ex; [done|]. intros Hw%word_ok_bool.
    split; [done|]. by destruct s; [destruct Hw|].
Qed.

(** ** Spelling lines *)

(** Words separated by spaces. *)
Fixpoint unwords (ws : list str) : str :=
  match ws with
  | [] => []
  | [w] => w
  | w :: ws' => w ++ 32 :: unwords ws'
  end.

Lemma unwords_cons w v ws : unwords (w :: v :: ws) = w ++ 32 :: unwords (v :: ws).
Proof. done. Qed.

Lemma split_words_word w acc s :
  Forall (fun c => is_whitespace c = false) w ->
  split_words acc (w ++ s) = split_words (rev w ++ acc) s.
Proof.
  intros Hw. revert acc. induction Hw as [|c w Hc Hw IH]; intros acc; [done|].
  simpl. rewrite Hc, IH. by rewrite <-app_assoc.
Qed.

Lemma rev_nonempty {A} (l : list A) : l <> [] -> rev l <> [].
Proof. intros Hl E. apply Hl. by rewrite <-(rev_involutive l), E. Qed.

Lemma split_unwords ws : Forall word_ok ws -> split_whitespace (unwords ws) = ws.
Proof.
  unfold split_whitespace.
  induction 1 as [|w ws [Hn Hw] Hws IH]; [done|]. apply rev_nonempty in Hn as Hr.
  destruct ws as [|w' ws]; [change (unwords [w]) with w|rewrite unwords_cons].
  - rewrite <-(app_nil_r w) at 1. rewrite split_words_word, app_nil_r by done. cbn [split_words].
    destruct (rev w) eqn:E; [done|]. by rewrite <-E, rev_involutive.
  - rewrite split_words_word, app_nil_r by done. cbn [split_words].
    change (is_whitespace 32) with true. cbv iota. rewrite IH.
    destruct (rev w) eqn:E; [done|]. by rewrite <-E, rev_involutive.
Qed.

Lemma tokenize_text ts :
  Forall token_ok ts -> tokenize_statement (unwords (map spelling ts)) = Some ts.
Proof.
  intros Ht. unfold tokenize_statement. rewrite split_unwords; cycle 1.
  { induction Ht; constructor; [by apply spelling_ok|done]. }
  induction Ht as [|t ts Hok Ht IH]; [done|]. cbn [map tokenize_words].
  by rewrite (proj2 (spelling_ok t Hok)), IH.
Qed.

Lemma trim_ends s c x m d :
  s = c :: x -> is_whitespace c = false -> s = m ++ [d] -> is_whitespace d = false -> trim s = s.
Proof.
  intros Hc Hwc Hd Hwd.
  assert (H1 : trim_start s = s) by (rewrite Hc; simpl; by rewrite Hwc).
  assert (H2 : trim_start (rev s) = rev s) by (rewrite Hd, rev_app_distr; simpl; by rewrite Hwd).
  unfold trim. by rewrite H1, H2, rev_involutive.
Qed.

Lemma unwords_last ws w : exists m, unwords (ws ++ [w]) = m ++ w.
Proof.
  induction ws as [|v ws [m IH]]; [by exists []|].
  change ((v :: ws) ++ [w]) with (v :: (ws ++ [w])).
  destruct (ws ++ [w]) as [|u us] eqn:E; [by destruct ws|]. rewrite unwords_cons, IH.
  exists (v ++ 32 :: m). by rewrite <-app_assoc.
Qed.

Lemma unwords_head w ws : exists x, w ++ x = unwords (w :: ws).
Proof. destruct ws; [exists []; apply app_nil_r|eexists; done]. Qed.

Lemma word_ends w :
  word_ok w -> exists c x m d, w = c :: x /\ w = m ++ [d] /\ is_whitespace c = false /\
    is_whitespace d = false.
Proof.
  intros [Hn Hw]. destruct (exists_last Hn) as (m & d & E). destruct w as [|c x]; [done|].
  exists c, x, m, d. apply Forall_cons in Hw as Hc. destruct Hc as [Hc _]. split_and!; try done.
  rewrite E, Forall_app in Hw. by destruct Hw as [_ [? _]%Forall_cons].
Qed.

Lemma trim_unwords ws : Forall word_ok ws -> ws <> [] -> trim (unwords ws) = unwords ws.
Proof.
  intros Hws Hn. destruct (exists_last Hn) as (vs & w & E).
  destruct ws as [|h t]; [done|]. destruct (unwords_head h t) as [x Hx].
  destruct (unwords_last vs w) as [m Hm]. rewrite <-E in Hm.
  assert (Hw : word_ok w) by (rewrite E, Forall_app in Hws; by destruct Hws as [_ [? _]%Forall_cons]).
  apply Forall_cons in Hws as [Hh _].
  destruct (word_ends h Hh) as (c & hx & _ & _ & -> & _ & Hc & _).
  destruct (word_ends w Hw) as (_ & _ & wm & d & _ & -> & _ & Hd).
  eapply (trim_ends _ c (hx ++ x) (m ++ wm) d); [by rewrite <-Hx|done| |done].
  rewrite Hm. by rewrite app_assoc.
Qed.

(** ** Commands *)

Inductive av_action := Allow | Deny | AuditAllow | DontAudit.
Inductive xperm_action := AllowXperm | AuditAllowXperm | DontAuditXperm.

(** What a statement asks for. *)
Inductive command :=
  | CAv (a : av_action) (s t c p : list str)
  | CXperm (a : xperm_action) (s t c : list str) (x : list xperm)
  | CState (permissive : bool) (t : list str)
  | CTypeattribute (t a : list str)
  | CType (t : str) (a : list str)
  | CAttribute (t : str)
  | CTransition (s t c d o : str)
  | CChange (member : bool) (s t c d : str)
  | CGenfscon (s t c : str).

Section run.
Context {P : Type} `{!SePolicy P}.

Definition run_command (c : command) : P -> option P :=
  match c with
  | CAv Allow s t c p => allow s t c p
  | CAv Deny s t c p => deny s t c p
  | CAv AuditAllow s t c p => auditallow s t c p
  | CAv DontAudit s t c p => dontaudit s t c p
  | CXperm AllowXperm s t c x => allowxperm s t c x
  | CXperm AuditAllowXperm s t c x => auditallowxperm s t c x
  | CXperm DontAuditXperm s t c x => dontauditxperm s t c x
  | CState true t => permissive t
  | CState false t => enforce t
  | CTypeattribute t a => typeattribute t a
  | CType t a => type_ t a
  | CAttribute t => attribute t
  | CTransition s t c d o => type_transition s t c d o
  | CChange false s t c d => type_change s t c d
  | CChange true s t c d => type_member s t c d
  | CGenfscon s t c => genfscon s t c
  end.
End run.

(** A list of names, and one that may be empty, for all. *)
Definition term_tokens (l : list str) : list token :=
  match l with [n] => [ID n] | _ => LB :: map ID l ++ [RB] end.

Definition sterm_tokens (l : list str) : list token :=
  match l with [] => [ST] | [n] => [ID n] | _ => LB :: map ID l ++ [RB] end.

Definition range_tokens (x : xperm) : list token :=
  if low x =? high x then [HX (low x)] else [HX (low x); HP; HX (high x)].

(** Ranges that are all to be allowed, or all to be excluded. *)
Definition xperms_tokens (l : list xperm) : list token :=
  (match l with x :: _ => if reset x then [TL] else [] | [] => [] end) ++
  LB :: concat (map range_tokens l) ++ [RB].

Definition opt_tokens (o : str) : list token := match o with [] => [] | _ => [ID o] end.

Definition command_tokens (c : command) : list token :=
  match c with
  | CAv a s t c p =>
      (match a with Allow => AL | Deny => DN | AuditAllow => AA | DontAudit => DA end) ::
      sterm_tokens s ++ sterm_tokens t ++ sterm_tokens c ++ sterm_tokens p
  | CXperm a s t c x =>
      (match a with AllowXperm => AX | AuditAllowXperm => AY | DontAuditXperm => DX end) ::
      sterm_tokens s ++ sterm_tokens t ++ sterm_tokens c ++ ID (lit "ioctl") :: xperms_tokens x
  | CState permissive t => (if permissive then PM else EF) :: sterm_tokens t
  | CTypeattribute t a => TA :: term_tokens t ++ term_tokens a
  | CType t a => TY :: ID t :: match a with [] => [] | _ => term_tokens a end
  | CAttribute t => [AT; ID t]
  | CTransition s t c d o => [TT; ID s; ID t; ID c; ID d] ++ opt_tokens o
  | CChange member s t c d => [if member then TM else TC; ID s; ID t; ID c; ID d]
  | CGenfscon s t c => [GF; ID s; ID t; ID c]
  end.

(** The ranges of a statement share the complement mark, and there is one at least. *)
Definition xperms_uniform (l : list xperm) : Prop :=
  l <> [] /\ exists b, Forall (fun x => reset x = b) l.

Definition command_ok (c : command) : Prop :=
  match c with CXperm _ _ _ _ x => xperms_uniform x | _ => True end.

(** ** Parsing inverts spelling *)

Lemma parse_names_tokens l r : parse_names (map ID l ++ RB :: r) = Some (l, r).
Proof. induction l as [|n l IH]; simpl; [done|]. by rewrite IH. Qed.

Lemma parse_term_tokens l r : parse_term (term_tokens l ++ r) = Some (l, r).
Proof.
  assert (H : parse_term ((LB :: map ID l ++ [RB]) ++ r) = Some (l, r)).
  { simpl. rewrite <-app_assoc. apply parse_names_tokens. }
  unfold term_tokens. destruct l as [|n [|m l]]; done.
Qed.

Lemma parse_snames_tokens acc l r :
  parse_snames (Some acc) (map ID l ++ RB :: r) = Some (Some (acc ++ l), r).
Proof.
  revert acc. induction l as [|n l IH]; intros acc; simpl; [by rewrite app_nil_r|].
  rewrite IH. by rewrite <-app_assoc.
Qed.

Lemma parse_sterm_tokens l r : parse_sterm (sterm_tokens l ++ r) = Some (l, r).
Proof.
  assert (H : parse_sterm ((LB :: map ID l ++ [RB]) ++ r) = Some (l, r)).
  { simpl. rewrite <-app_assoc. simpl. by rewrite parse_snames_tokens. }
  unfold sterm_tokens. destruct l as [|n [|m l]]; done.
Qed.

Lemma parse_xperm_tokens x r :
  match r with HP :: _ => False | _ => True end ->
  parse_xperm (range_tokens x ++ r) = Some (Xperm (low x) (high x) false, r).
Proof.
  intros Hr. unfold range_tokens. destruct (Z.eqb_spec (low x) (high x)) as [E|E]; simpl; [|done].
  rewrite <-E. by destruct r as [|[] r].
Qed.

Lemma range_tokens_length x : (0 < length (range_tokens x))%nat.
Proof. unfold range_tokens. case_Z; simpl; lia. Qed.

Lemma ranges_head y l r :
  exists n u, concat (map range_tokens (y :: l)) ++ RB :: r = HX n :: u.
Proof. cbn [map concat]. unfold range_tokens at 1. destruct (low y =? high y); eexists _, _; done. Qed.

Lemma parse_xperm_list_tokens b l r fuel :
  l <> [] -> Forall (fun x => reset x = b) l ->
  (length (concat (map range_tokens l)) <= fuel)%nat ->
  parse_xperm_list fuel b (concat (map range_tokens l) ++ RB :: r) = Some (l, r).
Proof.
  intros Hn Hf. revert fuel. induction Hf as [|x l Hx Hf IH]; [done|]. intros fuel Hfuel.
  cbn [map concat] in *. rewrite length_app in Hfuel. pose proof (range_tokens_length x).
  destruct fuel as [|fuel]; [lia|]. cbn [parse_xperm_list]. rewrite <-app_assoc.
  rewrite parse_xperm_tokens; cycle 1.
  { destruct l as [|y l]; [done|]. by destruct (ranges_head y l r) as (n & u & ->). }
  cbn [low high]. assert (Xperm (low x) (high x) b = x) as -> by (destruct x; simpl in *; by subst).
  destruct l as [|y l]; [done|].
  assert (Hrest : parse_xperm_list fuel b (concat (map range_tokens (y :: l)) ++ RB :: r) = Some (y :: l, r)).
  { apply IH; [done|lia]. }
  revert Hrest. destruct (ranges_head y l r) as (n & u & ->). by intros ->.
Qed.

Lemma parse_xperms_tokens l r :
  xperms_uniform l -> parse_xperms (xperms_tokens l ++ r) = Some (l, r).
Proof.
  intros (Hn & b & Hf). unfold xperms_tokens.
  assert (H : forall b', b' = b ->
    parse_xperm_list (length (concat (map range_tokens l) ++ [RB] ++ r)) b'
      (concat (map range_tokens l) ++ [RB] ++ r) = Some (l, r)).
  { intros b' ->. apply parse_xperm_list_tokens; [done..|]. rewrite length_app. lia. }
  destruct l as [|x l]; [done|]. apply Forall_cons in Hf as [Hx _].
  revert H. generalize (concat (map range_tokens (x :: l))). intros ts H.
  unfold parse_xperms. destruct (reset x); simpl app; rewrite <-!app_assoc; by apply H.
Qed.

Lemma pbind_eq {A B} (p : parser A) (f : A -> parser B) ts a r :
  p ts = Some (a, r) -> pbind p f ts = f a r.
Proof. intros H. unfold pbind. by rewrite H. Qed.

(** One parser of a sequence. *)
Ltac parse1 :=
  erewrite pbind_eq;
  [|first [apply parse_sterm_tokens | apply parse_term_tokens | apply parse_xperms_tokens; eassumption
          | reflexivity]].

Section exec_command.
Context {P : Type} `{!SePolicy P}.

Lemma parse_last_sterm l : parse_sterm (sterm_tokens l) = Some (l, []).
Proof. rewrite <-(app_nil_r (sterm_tokens l)) at 1. apply parse_sterm_tokens. Qed.

Lemma exec_command c (p : P) :
  command_ok c -> exec_statement (command_tokens c) p = inr <$> run_command c p.
Proof.
  intros Hok. destruct c as [a s t c q|a s t c x|b t|t a|t a|t|s t c d o|b s t c d|s t c];
    cbn [command_tokens].
  - destruct a; cbn [exec_statement]; do 3 parse1; (erewrite pbind_eq; [|apply parse_last_sterm]); done.
  - simpl in Hok. rewrite <-(app_nil_r (xperms_tokens x)).
    destruct a; cbn [exec_statement]; do 5 parse1; done.
  - destruct b; cbn [exec_statement]; (erewrite pbind_eq; [|apply parse_last_sterm]); done.
  - cbn [exec_statement]. rewrite <-(app_nil_r (term_tokens a)). do 2 parse1. done.
  - cbn [exec_statement]. parse1. destruct a as [|n a]; [done|].
    erewrite pbind_eq; cycle 1.
    { rewrite <-(app_nil_r (term_tokens _)). unfold parse_opt.
      pose proof (parse_term_tokens (n :: a) []) as Ht.
      destruct (term_tokens (n :: a) ++ []) eqn:E; [|exact Ht]. by destruct a. }
    done.
  - done.
  - by destruct o.
  - by destruct b.
  - done.
Qed.
End exec_command.

(** * The grammar of statements

    Which tokens are which command, after the grammar in the comments of statement.rs, as
    far as the code follows it: a list of names may be empty, and a star anywhere in a list
    stands for all, also when names follow it. *)

Inductive term_of : list token -> list str -> Prop :=
| term_name n : term_of [ID n] [n]
| term_list l : term_of (LB :: map ID l ++ [RB]) l.

Definition star_or_name (t : token) : Prop := match t with ID _ | ST => True | _ => False end.

Inductive sterm_of : list token -> list str -> Prop :=
| sterm_name n : sterm_of [ID n] [n]
| sterm_star : sterm_of [ST] []
| sterm_list l : sterm_of (LB :: map ID l ++ [RB]) l
| sterm_list_star ts : Forall star_or_name ts -> ST ∈ ts -> sterm_of (LB :: ts ++ [RB]) [].

Inductive xperm_of (reset : bool) : list token -> xperm -> Prop :=
| xperm_one n : xperm_of reset [HX n] (Xperm n n reset)
| xperm_range lo hi : xperm_of reset [HX lo; HP; HX hi] (Xperm lo hi reset).

(** One range or more. *)
Inductive xperm_list_of (reset : bool) : list token -> list xperm -> Prop :=
| xperms_last ts x : xperm_of reset ts x -> xperm_list_of reset ts [x]
| xperms_more ts x us xs :
    xperm_of reset ts x -> xperm_list_of reset us xs -> xperm_list_of reset (ts ++ us) (x :: xs).

Inductive xperms_of : list token -> list xperm -> Prop :=
| xperms_number n : 0 < n -> xperms_of [HX n] [Xperm n n false]
| xperms_zero n : n <= 0 -> xperms_of [HX n] [Xperm 0 0xFFFF false]
| xperms_star : xperms_of [ST] [Xperm 0 0xFFFF false]
| xperms_list ts xs : xperm_list_of false ts xs -> xperms_of (LB :: ts ++ [RB]) xs
| xperms_complement ts xs : xperm_list_of true ts xs -> xperms_of (TL :: LB :: ts ++ [RB]) xs.

Definition av_token (a : av_action) : token :=
  match a with Allow => AL | Deny => DN | AuditAllow => AA | DontAudit => DA end.

Definition xperm_token (a : xperm_action) : token :=
  match a with AllowXperm => AX | AuditAllowXperm => AY | DontAuditXperm => DX end.

Inductive statement_of : list token -> command -> Prop :=
| s_av a ss s ts t cs c ps p :
    sterm_of ss s -> sterm_of ts t -> sterm_of cs c -> sterm_of ps p ->
    statement_of (av_token a :: ss ++ ts ++ cs ++ ps) (CAv a s t c p)
| s_xperm a ss s ts t cs c xs x :
    sterm_of ss s -> sterm_of ts t -> sterm_of cs c -> xperms_of xs x ->
    statement_of (xperm_token a :: ss ++ ts ++ cs ++ ID (lit "ioctl") :: xs) (CXperm a s t c x)
| s_permissive ts t : sterm_of ts t -> statement_of (PM :: ts) (CState true t)
| s_enforce ts t : sterm_of ts t -> statement_of (EF :: ts) (CState false t)
| s_typeattribute ts t us a :
    term_of ts t -> term_of us a -> statement_of (TA :: ts ++ us) (CTypeattribute t a)
| s_type t : statement_of [TY; ID t] (CType t [])
| s_type_attributes t us a : term_of us a -> statement_of (TY :: ID t :: us) (CType t a)
| s_attribute t : statement_of [AT; ID t] (CAttribute t)
| s_transition s t c d : statement_of [TT; ID s; ID t; ID c; ID d] (CTransition s t c d [])
| s_transition_name s t c d o : statement_of [TT; ID s; ID t; ID c; ID d; ID o] (CTransition s t c d o)
| s_change s t c d : statement_of [TC; ID s; ID t; ID c; ID d] (CChange false s t c d)
| s_member s t c d : statement_of [TM; ID s; ID t; ID c; ID d] (CChange true s t c d)
| s_genfscon s t c : statement_of [GF; ID s; ID t; ID c] (CGenfscon s t c).

(** ** The parsers accept exactly the grammar *)

(** A parser for the texts that [R] relates to values. *)
Definition parses {A} (p : parser A) (R : list token -> A -> Prop) : Prop :=
  (forall u a r, R u a -> p (u ++ r) = Some (a, r)) /\
  (forall ts a r, p ts = Some (a, r) -> exists u, ts = u ++ r /\ R u a).

Lemma parse_names_inv ts l r : parse_names ts = Some (l, r) -> ts = map ID l ++ RB :: r.
Proof.
  revert l. induction ts as [|t ts IH]; intros l; cbn [parse_names]; [done|].
  destruct t; try done; [by intros [= <- <-]|]. destruct (parse_names ts) as [[l' r']|]; [|done].
  intros [= <- <-]. cbn [map app]. f_equal. by apply IH.
Qed.

Lemma parses_term : parses parse_term term_of.
Proof.
  split.
  - intros u a r []; [done|]. simpl. rewrite <-app_assoc. apply parse_names_tokens.
  - intros [|[] ts] a r; cbn [parse_term]; try done.
    + intros ->%parse_names_inv. exists (LB :: map ID a ++ [RB]). split; [simpl; by rewrite <-app_assoc|constructor].
    + intros [= <- <-]. eexists [_]. split; [done|constructor].
Qed.

Lemma parse_snames_star ts r : Forall star_or_name ts -> parse_snames None (ts ++ RB :: r) = Some (None, r).
Proof. induction 1 as [|t ts Ht _ IH]; [done|]. by destruct t. Qed.

Lemma parse_snames_list_star ts r acc :
  Forall star_or_name ts -> ST ∈ ts -> parse_snames (Some acc) (ts ++ RB :: r) = Some (None, r).
Proof.
  intros Hf Hin. revert acc. induction Hf as [|t ts Ht Hf IH]; intros acc; [by apply elem_of_nil in Hin|].
  destruct t; try done; cbn [app parse_snames].
  - by apply parse_snames_star.
  - apply IH. by apply elem_of_cons in Hin as [|].
Qed.

Lemma parse_snames_inv ts acc names r :
  parse_snames acc ts = Some (names, r) ->
  exists u, ts = u ++ RB :: r /\ Forall star_or_name u /\
    (names = None /\ (acc = None \/ ST ∈ u) \/ exists l v, u = map ID v /\ acc = Some l /\ names = Some (l ++ v)).
Proof.
  revert acc. induction ts as [|t ts IH]; intros acc; cbn [parse_snames]; [done|]. destruct t; try done.
  - intros [= <- <-]. exists []. split; [done|]. split; [done|]. destruct acc as [l|]; [right|by left; auto].
    exists l, []. by rewrite app_nil_r.
  - intros (u & -> & Hu & Hn)%IH. exists (ST :: u). split; [done|]. split; [by constructor|].
    left. destruct Hn as [[-> _]|(l & v & _ & ? & _)]; [|done]. split; [done|]. right. left.
  - intros (u & -> & Hu & Hn)%IH. exists (ID s :: u). split; [done|]. split; [by constructor|].
    destruct Hn as [[-> [E|E]]|(l & v & -> & E & ->)].
    + left. split; [done|]. left. by destruct acc.
    + left. split; [done|]. right. by right.
    + right. destruct acc as [l0|]; [|done]. injection E as <-. exists l0, (s :: v). by rewrite <-app_assoc.
Qed.

Lemma parses_sterm : parses parse_sterm sterm_of.
Proof.
  split.
  - intros u a r Hu. destruct Hu as [n| |l|ts Hf Hin]; [done|done| |]; simpl; rewrite <-app_assoc; cbn [app].
    + by rewrite parse_snames_tokens.
    + by rewrite parse_snames_list_star.
  - intros [|[] ts] a r; cbn [parse_sterm]; try done.
    + destruct (parse_snames (Some []) ts) as [[names r']|] eqn:E; [|done]. intros [= <- <-].
      apply parse_snames_inv in E as (u & -> & Hu & Hn). exists (LB :: u ++ [RB]).
      split; [simpl; by rewrite <-app_assoc|].
      destruct Hn as [[-> [|Hst]]|(l & v & -> & [= <-] & ->)]; [done|by constructor|]. cbn [default app]. constructor.
    + intros [= <- <-]. by exists [ST]; split; [|constructor].
    + intros [= <- <-]. eexists [_]. split; [done|constructor].
Qed.

Lemma parse_xperm_grammar b u x r :
  xperm_of b u x -> match r with HP :: _ => False | _ => True end ->
  parse_xperm (u ++ r) = Some (Xperm (low x) (high x) false, r) /\ Xperm (low x) (high x) b = x.
Proof. intros [n|lo hi] Hr; (split; [|done]); [|done]. by destruct r as [|[] r]. Qed.

Lemma parse_xperm_inv ts x r b :
  parse_xperm ts = Some (x, r) -> exists u, ts = u ++ r /\ xperm_of b u (Xperm (low x) (high x) b).
Proof.
  destruct ts as [|[] ts]; cbn [parse_xperm]; try done.
  destruct ts as [|[] ts]; try (intros [= <- <-]; eexists [_]; split; [done|constructor]).
  destruct ts as [|[] ts]; try done. intros [= <- <-]. eexists [_; _; _]. split; [done|constructor].
Qed.

Lemma xperm_list_head b u xs : xperm_list_of b u xs -> exists n v, u = HX n :: v.
Proof. intros [ts x []|ts x us xs' []]; by eexists _, _. Qed.

Lemma parse_xperm_list_grammar b u xs r fuel :
  xperm_list_of b u xs -> (length u <= fuel)%nat -> parse_xperm_list fuel b (u ++ RB :: r) = Some (xs, r).
Proof.
  intros Hu. revert fuel. induction Hu as [ts x Hx|ts x us xs Hx Hus IH]; intros fuel Hf.
  - destruct fuel as [|fuel]; [by destruct Hx; simpl in Hf; lia|]. cbn [parse_xperm_list].
    destruct (parse_xperm_grammar b ts x (RB :: r) Hx I) as [-> E]. cbn [low high]. by rewrite E.
  - destruct fuel as [|fuel]; [by destruct Hx; simpl in Hf; lia|]. cbn [parse_xperm_list]. rewrite <-app_assoc.
    destruct (xperm_list_head _ _ _ Hus) as (n & v & Ev).
    destruct (parse_xperm_grammar b ts x (us ++ RB :: r) Hx ltac:(by rewrite Ev)) as [-> E]. cbn [low high]. rewrite E.
    specialize (IH fuel ltac:(rewrite length_app in Hf; destruct Hx; simpl in Hf; lia)).
    rewrite IH. by rewrite Ev.
Qed.

Lemma parse_xperm_list_inv fuel b ts xs r :
  parse_xperm_list fuel b ts = Some (xs, r) -> exists u, ts = u ++ RB :: r /\ xperm_list_of b u xs.
Proof.
  revert ts xs. induction fuel as [|fuel IH]; intros ts xs; cbn [parse_xperm_list]; [done|].
  destruct (parse_xperm ts) as [[x ts']|] eqn:Ex; [|done]. apply (parse_xperm_inv _ _ _ b) in Ex as (u & -> & Hx).
  assert (Hmore : match parse_xperm_list fuel b ts' with
                  | Some (l, r) => Some (Xperm (low x) (high x) b :: l, r) | None => None end = Some (xs, r) ->
                  exists v, u ++ ts' = v ++ RB :: r /\ xperm_list_of b v xs).
  { destruct (parse_xperm_list fuel b ts') as [[l r']|] eqn:E; [|done]. intros [= <- <-].
    apply IH in E as (v & -> & Hv). exists (u ++ v). split; [by rewrite app_assoc|by constructor]. }
  destruct ts' as [|[] ts']; try exact Hmore. intros [= <- <-]. exists u. split; [done|by constructor].
Qed.

Lemma parses_xperms : parses parse_xperms xperms_of.
Proof.
  split.
  - intros u a r Hu. destruct Hu as [n Hn|n Hn| |ts xs Hl|ts xs Hl]; unfold parse_xperms; cbn [app].
    + by rewrite (proj2 (Z.ltb_lt _ _)).
    + by rewrite (proj2 (Z.ltb_ge _ _)).
    + done.
    + rewrite <-app_assoc. apply parse_xperm_list_grammar; [done|]. rewrite length_app. lia.
    + rewrite <-app_assoc. apply parse_xperm_list_grammar; [done|]. rewrite length_app. lia.
  - intros [|[] ts] a r; unfold parse_xperms; try done.
    + intros (u & -> & Hl)%parse_xperm_list_inv. exists (LB :: u ++ [RB]). split; [cbn [app]; by rewrite <-app_assoc|by constructor].
    + intros [= <- <-]. eexists [_]. split; [done|constructor].
    + destruct ts as [|[] ts]; try done. intros (u & -> & Hl)%parse_xperm_list_inv.
      exists (TL :: LB :: u ++ [RB]). split; [cbn [app]; by rewrite <-app_assoc|by constructor].
    + destruct (Z.ltb_spec 0 n); intros [= <- <-]; (eexists [_]; split; [done|by constructor]).
Qed.

(** A word of a text. *)
Lemma parses_id : parses parse_id (fun u n => u = [ID n]).
Proof.
  split; [by intros u a r ->|]. intros [|[] ts] a r; cbn [parse_id]; try done. intros [= <- <-]. by eexists [_].
Qed.

Lemma parses_match_string w : parses (match_string w) (fun u _ => u = [ID w]).
Proof.
  split.
  - intros u [] r ->. cbn [app match_string]. by rewrite bool_decide_eq_true_2.
  - intros [|[] ts] a r; cbn [match_string]; try done. case_bool_decide; [|done]. subst. intros [= <- <-]. by eexists [_].
Qed.

Lemma parse_end_inv ts a r : parse_end ts = Some (a, r) -> ts = [] /\ r = [].
Proof. destruct ts; [|done]. by intros [= _ <-]. Qed.

Lemma parse_opt_inv {A} (none : A) p R ts a r :
  parses p R -> parse_opt none p ts = Some (a, r) ->
  ts = [] /\ a = none /\ r = [] \/ exists u, ts = u ++ r /\ R u a.
Proof. intros Hp. destruct ts; cbn [parse_opt]; [intros [= <- <-]; by left|]. intros E. right. by apply Hp. Qed.

(** Completeness: a statement of the grammar is executed as its command. *)
Lemma parse_grammar {A B} (p : parser A) (f : A -> parser B) R u a r :
  parses p R -> R u a -> pbind p f (u ++ r) = f a r.
Proof. intros [Hp _] Hu. apply pbind_eq. by apply Hp. Qed.

Lemma parse_grammar_last {A B} (p : parser A) (f : A -> parser B) R u a :
  parses p R -> R u a -> pbind p f u = f a [].
Proof. intros Hp Hu. rewrite <-(app_nil_r u) at 1. by eapply parse_grammar. Qed.

Lemma exec_complete ts c {P} {ops : SePolicy P} (p : P) :
  statement_of ts c -> exec_statement ts p = inr <$> run_command c p.
Proof.
  intros H.
  destruct H as [a ss s ts t cs c ps q H1 H2 H3 H4|a ss s ts t cs c xs x H1 H2 H3 H4|ts t H1|ts t H1
                |ts t us a H1 H2| |t us a H1| | | | | | ]; try reflexivity.
  - destruct a; cbn [exec_statement av_token];
      rewrite (parse_grammar _ _ _ _ _ _ parses_sterm H1), (parse_grammar _ _ _ _ _ _ parses_sterm H2),
        (parse_grammar _ _ _ _ _ _ parses_sterm H3), (parse_grammar_last _ _ _ _ _ parses_sterm H4); done.
  - destruct a; cbn [exec_statement xperm_token];
      rewrite (parse_grammar _ _ _ _ _ _ parses_sterm H1), (parse_grammar _ _ _ _ _ _ parses_sterm H2),
        (parse_grammar _ _ _ _ _ _ parses_sterm H3);
      change (ID (lit "ioctl") :: xs) with ([ID (lit "ioctl")] ++ xs);
      rewrite (parse_grammar _ _ _ _ tt _ (parses_match_string (lit "ioctl")) eq_refl),
        (parse_grammar_last _ _ _ _ _ parses_xperms H4); done.
  - cbn [exec_statement]. by rewrite (parse_grammar_last _ _ _ _ _ parses_sterm H1).
  - cbn [exec_statement]. by rewrite (parse_grammar_last _ _ _ _ _ parses_sterm H1).
  - cbn [exec_statement]. by rewrite (parse_grammar _ _ _ _ _ _ parses_term H1), (parse_grammar_last _ _ _ _ _ parses_term H2).
  - cbn [exec_statement]. rewrite (pbind_eq parse_id _ _ t us) by done.
    assert (E : parse_opt [] parse_term us = Some (a, [])); [|by rewrite (pbind_eq _ _ _ _ _ E)].
    pose proof (proj1 parses_term us a [] H1) as E. rewrite app_nil_r in E. by destruct H1.
Qed.

(** What each parser has accepted. *)
Ltac parsed :=
  repeat match goal with
    | E : parse_sterm _ = Some _ |- _ => apply (proj2 parses_sterm) in E as (? & -> & ?)
    | E : parse_term _ = Some _ |- _ => apply (proj2 parses_term) in E as (? & -> & ?)
    | E : parse_xperms _ = Some _ |- _ => apply (proj2 parses_xperms) in E as (? & -> & ?)
    | E : parse_id _ = Some _ |- _ => apply (proj2 parses_id) in E as (? & -> & ->)
    | E : match_string _ _ = Some _ |- _ => apply (proj2 (parses_match_string _)) in E as (? & -> & ->)
    | E : parse_opt [] parse_term _ = Some _ |- _ => apply (parse_opt_inv _ _ _ _ _ _ parses_term) in E as [(-> & -> & ->)|(? & -> & ?)]
    | E : parse_opt [] parse_id _ = Some _ |- _ => apply (parse_opt_inv _ _ _ _ _ _ parses_id) in E as [(-> & -> & ->)|(? & -> & ->)]
    | E : parse_end _ = Some _ |- _ => apply parse_end_inv in E as [-> ->]
    end; rewrite ?app_nil_r; cbn [app].

(** Looks at what each parser of a statement returns. *)
Ltac case_parsers :=
  repeat match goal with
    | |- context [parse_sterm ?l] => destruct (parse_sterm l) as [[? ?]|] eqn:?
    | |- context [parse_term ?l] => destruct (parse_term l) as [[? ?]|] eqn:?
    | |- context [parse_opt ?n ?p ?l] => destruct (parse_opt n p l) as [[? ?]|] eqn:?
    | |- context [parse_id ?l] => destruct (parse_id l) as [[? ?]|] eqn:?
    | |- context [match_string ?s ?l] => destruct (match_string s l) as [[? ?]|] eqn:?
    | |- context [parse_xperms ?l] => destruct (parse_xperms l) as [[? ?]|] eqn:?
    | |- context [parse_end ?l] => destruct (parse_end l) as [[? ?]|] eqn:?
    end.

(** Soundness: what is executed is a statement of the grammar; otherwise it is an error. *)
Lemma exec_sound ts :
  (exists c, statement_of ts c) \/
  (exists e, forall (P : Type) (ops : SePolicy P) (p : P), exec_statement ts p = Some (inl e)).
Proof.
  destruct ts as [|action ts]; [right; by exists ShowHelp|].
  destruct action; cbn [exec_statement]; unfold pbind; case_parsers;
    lazymatch goal with
    | |- context [run_parsed None ?e _] => right; by exists e
    | |- context [UnknownAction ?t] => right; by exists (UnknownAction t)
    | _ => left; parsed
    end.
  - eexists. by eapply (s_av Allow).
  - eexists. by eapply (s_av Deny).
  - eexists. by eapply (s_av AuditAllow).
  - eexists. by eapply (s_av DontAudit).
  - eexists. by eapply (s_xperm AllowXperm).
  - eexists. by eapply (s_xperm AuditAllowXperm).
  - eexists. by eapply (s_xperm DontAuditXperm).
  - eexists. by eapply s_permissive.
  - eexists. by eapply s_enforce.
  - eexists. by eapply s_typeattribute.
  - eexists. by eapply s_type.
  - eexists. by eapply s_type_attributes.
  - eexists. by eapply s_attribute.
  - eexists. by eapply s_transition.
  - eexists. by eapply s_transition_name.
  - eexists. by eapply s_change.
  - eexists. by eapply s_member.
  - eexists. by eapply s_genfscon.
Qed.

(** ** What a line executes *)

(** The policy of commands: executing adds to the list. *)
Definition trace_policy : SePolicy (list command) := {|
  allow s t c p l := Some (l ++ [CAv Allow s t c p]);
  deny s t c p l := Some (l ++ [CAv Deny s t c p]);
  auditallow s t c p l := Some (l ++ [CAv AuditAllow s t c p]);
  dontaudit s t c p l := Some (l ++ [CAv DontAudit s t c p]);
  allowxperm s t c x l := Some (l ++ [CXperm AllowXperm s t c x]);
  auditallowxperm s t c x l := Some (l ++ [CXperm AuditAllowXperm s t c x]);
  dontauditxperm s t c x l := Some (l ++ [CXperm DontAuditXperm s t c x]);
  permissive t l := Some (l ++ [CState true t]);
  enforce t l := Some (l ++ [CState false t]);
  typeattribute t a l := Some (l ++ [CTypeattribute t a]);
  type_ t a l := Some (l ++ [CType t a]);
  attribute t l := Some (l ++ [CAttribute t]);
  type_transition s t c d o l := Some (l ++ [CTransition s t c d o]);
  type_change s t c d l := Some (l ++ [CChange false s t c d]);
  type_member s t c d l := Some (l ++ [CChange true s t c d]);
  genfscon s t c l := Some (l ++ [CGenfscon s t c])
|}.

Lemma run_trace c l : @run_command _ trace_policy c l = Some (l ++ [c]).
Proof. by destruct c as [[]|[]|[]| | | | |[]|]. Qed.

Lemma statement_of_inj ts c1 c2 : statement_of ts c1 -> statement_of ts c2 -> c1 = c2.
Proof.
  intros H1%(fun H => exec_complete _ _ (ops := trace_policy) [] H) H2%(fun H => exec_complete _ _ (ops := trace_policy) [] H).
  rewrite H1, !run_trace in H2. by injection H2.
Qed.

(** The command of a line, or [None]: a blank line, a comment, or no statement. *)
Definition line_means (line : str) (r : option command) : Prop :=
  let s := trim line in
  match r with
  | Some c => s <> [] /\ starts_with 35 s = false /\ exists ts, tokenize_statement s = Some ts /\ statement_of ts c
  | None => s = [] \/ starts_with 35 s = true \/ exists ts, tokenize_statement s = Some ts /\ forall c, ~ statement_of ts c
  end.

Lemma line_means_inj line r1 r2 : line_means line r1 -> line_means line r2 -> r1 = r2.
Proof.
  unfold line_means. destruct r1 as [c1|], r2 as [c2|]; [| | |done].
  - intros (_ & _ & ts1 & E1 & H1) (_ & _ & ts2 & E2 & H2). rewrite E1 in E2. injection E2 as <-. f_equal. by eapply statement_of_inj.
  - intros (Hn & Hc & ts1 & E1 & H1) [|[|(ts2 & E2 & H2)]]; [congruence..|]. rewrite E1 in E2. injection E2 as <-. by destruct (H2 c1).
  - intros [|[|(ts2 & E2 & H2)]] (Hn & Hc & ts1 & E1 & H1); [congruence..|]. rewrite E1 in E2. injection E2 as <-. by destruct (H2 c2).
Qed.

Lemma statement_means line :
  exists r, line_means line r /\ forall (P : Type) (ops : SePolicy P) (p : P),
    parse_statement line p = match r with Some c => run_command c p | None => Some p end.
Proof.
  unfold parse_statement, line_means. generalize (trim line). intros s.
  destruct (tokenize_total s) as [ts Hts]. rewrite Hts.
  destruct (bool_decide (s = []) || starts_with 35 s) eqn:Eb.
  { exists None. apply orb_true_iff in Eb as [?%bool_decide_eq_true|?]; auto. }
  apply orb_false_iff in Eb as [Hs%bool_decide_eq_false Hc].
  destruct (exec_sound ts) as [[c Hst]|[e He]].
  - exists (Some c). split; [by eauto|]. intros P ops p. rewrite (exec_complete ts c) by done. by destruct (run_command c p).
  - exists None. split; [|intros P ops p; by rewrite He]. right. right. exists ts. split; [done|]. intros c Hst.
    specialize (He _ trace_policy []). rewrite (exec_complete ts c), run_trace in He by done. done.
Qed.

(** A text executes the commands of its lines in order. *)
Lemma load_lines_means ls :
  exists rs, Forall2 line_means ls rs /\ forall (P : Type) (ops : SePolicy P) (p : P),
    load_lines ls p = for_each run_command (omap id rs) p.
Proof.
  induction ls as [|l ls (rs & Hrs & IH)]; [by exists []|]. destruct (statement_means l) as ([c|] & Hm & Hc).
  - exists (Some c :: rs). split; [by constructor|]. intros P ops p. cbn. rewrite Hc. destruct (run_command c p); [apply IH|done].
  - exists (None :: rs). split; [by constructor|]. intros P ops p. cbn. rewrite Hc. apply IH.
Qed.

(** The lines of a text end at its line feeds. *)
Definition is_line (l : str) : Prop := exists w, (10 ∉ w) /\ (l = w ++ [10] \/ l = w /\ w <> []).

Lemma not_in_rev (x : Z) (l : str) : x ∉ l -> x ∉ rev l.
Proof. by rewrite (rev_alt l : rev l = reverse l), elem_of_reverse. Qed.

Lemma lines_split w s :
  10 ∉ w -> concat (lines w s) = rev w ++ s /\ Forall is_line (lines w s) /\
    (forall i l, lines w s !! i = Some l -> (S i < length (lines w s))%nat -> last l = Some 10).
Proof.
  revert w. induction s as [|c s IH]; intros w Hw; cbn [lines].
  - destruct w as [|d w]; [by split_and!|]. cbn [concat]. split; [done|]. split.
    + constructor; [|done]. exists (rev (d :: w)). split; [by apply not_in_rev|]. right. split; [done|]. by apply rev_nonempty.
    + intros i l _ Hi. simpl in Hi. lia.
  - destruct (Z.eqb_spec c 10) as [->|Hc].
    + destruct (IH [] ltac:(apply not_elem_of_nil)) as (E & Hf & Hl). cbn [concat]. split_and!.
      * rewrite E. cbn [rev app]. by rewrite <-app_assoc.
      * constructor; [|done]. exists (rev w). split; [by apply not_in_rev|]. by left.
      * intros [|i] l; cbn [lookup list_lookup]; [intros [= <-] _; cbn [rev]; by rewrite last_snoc|].
        intros E' Hi. cbn [length] in Hi. eapply Hl; [exact E'|lia].
    + destruct (IH (c :: w)) as (E & Hf & Hl); [by rewrite not_elem_of_cons|]. split_and!; [|done..].
      rewrite E. cbn [rev]. by rewrite <-app_assoc.
Qed.

(** ** Spelled statements *)

(** [Display] of a number is read as a name. *)
Lemma hex_digit_alnum d : 0 <= d < 16 -> is_alnum (hex_digit d).
Proof. intros Hd. unfold hex_digit, is_alnum. case_Z; lia. Qed.

Lemma display_number n fuel :
  word_ok (display (HX n)) /\ extract_token (S fuel) (display (HX n)) = Some [ID (display (HX n))].
Proof.
  assert (Hd : Forall is_alnum (display (HX n))).
  { cbn [display]. change (lit "00") with [48; 48]. cbn [map app]. do 2 (constructor; [unfold is_alnum; lia|]).
    repeat (constructor; [apply hex_digit_alnum, Z.mod_pos_bound; lia|]). constructor. }
  destruct (alnum_word _ Hd) as [Hp Hw]. split; [by split|].
  cbn [extract_token]. rewrite Hp. cbn [display]. change (lit "00") with [48; 48]. cbn [app].
  rewrite keyword_digit by (unfold is_digit; lia). reflexivity.
Qed.

Definition command_spelling (c : command) : str := unwords (map spelling (command_tokens c)).

Definition action_of (c : command) : token :=
  match c with
  | CAv Allow _ _ _ _ => AL | CAv Deny _ _ _ _ => DN
  | CAv AuditAllow _ _ _ _ => AA | CAv DontAudit _ _ _ _ => DA
  | CXperm AllowXperm _ _ _ _ => AX | CXperm AuditAllowXperm _ _ _ _ => AY
  | CXperm DontAuditXperm _ _ _ _ => DX
  | CState b _ => if b then PM else EF
  | CTypeattribute _ _ => TA | CType _ _ => TY | CAttribute _ => AT
  | CTransition _ _ _ _ _ => TT | CChange b _ _ _ _ => if b then TM else TC
  | CGenfscon _ _ _ => GF
  end.

Lemma command_tokens_action c : exists ts, command_tokens c = action_of c :: ts.
Proof. destruct c as [[]|[]| | | | | | |]; eexists; done. Qed.

(** A statement begins with the letter of its keyword, so it is not a comment. *)
Lemma command_spelling_head c : exists d s, command_spelling c = d :: s /\ 97 <= d.
Proof.
  unfold command_spelling. destruct (command_tokens_action c) as [ts ->]. cbn [map].
  destruct (unwords_head (spelling (action_of c)) (map spelling ts)) as [x <-].
  destruct c as [[]|[]|[]| | | | |[]|]; eexists _, _; (split; [reflexivity|vm_compute; done]).
Qed.

Lemma parse_statement_tokens {P} `{!SePolicy P} s d s' ts (p : P) :
  trim s = s -> s = d :: s' -> 97 <= d -> tokenize_statement s = Some ts ->
  parse_statement s p =
  match exec_statement ts p with
  | Some (inl _) => Some p
  | Some (inr p') => Some p'
  | None => None
  end.
Proof.
  intros Htrim Hs Hd Hts. unfold parse_statement. rewrite Htrim, Hts.
  assert (bool_decide (s = []) || starts_with 35 s = false) as ->; [|done].
  rewrite Hs. rewrite bool_decide_eq_false_2 by done. simpl. apply Z.eqb_neq. lia.
Qed.

Lemma parse_command_spelling {P} `{!SePolicy P} c (p : P) :
  command_ok c -> Forall token_ok (command_tokens c) ->
  parse_statement (command_spelling c) p = run_command c p.
Proof.
  intros Hok Ht. destruct (command_spelling_head c) as (d & s & Hs & Hd).
  assert (Hw : Forall word_ok (map spelling (command_tokens c))).
  { clear -Ht. induction Ht; constructor; [by apply spelling_ok|done]. }
  rewrite (parse_statement_tokens _ d s (command_tokens c)); [|..|by apply tokenize_text]; try done.
  - rewrite exec_command by done. by destruct (run_command c p).
  - apply trim_unwords; [done|]. by destruct (command_tokens_action c) as [ts ->].
Qed.

(** ** Words with punctuation *)

Lemma keyword_plain s t : keyword s = Some t -> split_punct punctuation s = None.
Proof.
  unfold keyword. destruct (List.find _ keywords) as [[k u]|] eqn:E; [|done]. intros _.
  apply List.find_some in E as [Hin He]. apply bool_decide_eq_true in He. simpl in He. subst k.
  vm_compute in Hin. repeat destruct Hin as [Hin|Hin]; simplify_eq; [vm_compute; reflexivity..|done].
Qed.

(** A word with punctuation in it is not a name. *)
Lemma punct_tokens fuel w ts s :
  split_punct punctuation w <> None -> extract_token fuel w = Some ts -> ts <> [ID s].
Proof.
  intros Hp. destruct fuel as [|fuel]; [done|]. cbn [extract_token].
  destruct (keyword w) as [t|] eqn:Ek; [by apply keyword_plain in Ek|].
  destruct w as [|c w]; [done|]. destruct (split_punct punctuation (c :: w)) as [[[a t] b]|] eqn:E; [|done].
  assert (Ht : forall n, t <> ID n).
  { clear -E. unfold punctuation in E. cbn [split_punct] in E. intros n ->.
    repeat (destruct (split_char _ (c :: w)) as [[? ?]|]; [congruence|]). done. }
  destruct (extract_token fuel a) as [ta|], (extract_token fuel b) as [tb|]; try done. intros [= <-].
  intros H. destruct ta as [|x [|y ta]]; cbn [app] in H; [|congruence..]. injection H as -> _. by apply (Ht s).
Qed.
