(* ===== verification/SepolicyApi.v ===== *)
(** * The operations of [SePolicy] (native/src/sepolicy/api.cpp)

    Each operation takes vectors of names and calls the editor for every combination of
    their elements; an empty vector stands for the empty name, which matches all.  The
    operations are an instance of the interface of the statement language. *)

From Stdlib Require Import String Ascii.
From S2P Require Import Prelude Policyfile Ebitmap Hashtab Symtab Avtab AvtabSpec AvtabRules Policydb Sepolicy SepolicySpec SepolicyXperm.
From S2P Require Import SepolicyXpermSpec SepolicyXpermRules SepolicyFilename SepolicyAttr SepolicyType SepolicyGenfs Statement StatementSpec.

(** A [&str] is passed as its UTF-8 bytes. *)
Definition utf8_char (c : Z) : list Z :=
  let cont x := Z.lor 0x80 (Z.land x 0x3F) in
  if c <? 0x80 then [c]
  else if c <? 0x800 then [Z.lor 0xC0 (Z.shiftr c 6); cont c]
  else if c <? 0x10000 then [Z.lor 0xE0 (Z.shiftr c 12); cont (Z.shiftr c 6); cont c]
  else [Z.lor 0xF0 (Z.shiftr c 18); cont (Z.shiftr c 12); cont (Z.shiftr c 6); cont c].

Definition utf8 (s : str) : list Z := concat (map utf8_char s).

(** [expand] on a vector of names. *)
Definition expand {S} (f : list Z -> S -> option S) (vec : list str) (s : S) : option S :=
  match vec with
  | [] => f [] s
  | _ => for_each (fun n => f (utf8 n)) vec s
  end.

(** The result of the editor is not used. *)
Definition call {S} (f : S -> option (bool * S)) (s : S) : option S := snd <$> f s.

Definition expand_rule (effect : Z) (invert : bool) (src tgt cls perm : list str) :
    state -> option state :=
  expand (fun s => expand (fun t => expand (fun c => expand (fun p =>
    call (add_rule_str s t c p effect invert)) perm) cls) tgt) src.

Definition expand_xperm (effect : Z) (src tgt cls : list str) (xperms : list xperm) :
    state -> option state :=
  expand (fun s => expand (fun t => expand (fun c =>
    for_each (fun x => call (add_xperm_rule_str s t c x effect)) xperms) cls) tgt) src.

Definition expand_state (permissive : bool) (types : list str) : state -> option state :=
  expand (fun t s => Some (set_type_state t permissive s).2) types.

Definition api_type_rule (effect : Z) (src tgt cls def : str) : state -> option state :=
  call (add_type_rule (utf8 src) (utf8 tgt) (utf8 cls) (utf8 def) effect).

Definition api_type_transition (src tgt cls def obj : str) : state -> option state :=
  match obj with
  | [] => api_type_rule AVTAB_TRANSITION src tgt cls def
  | _ => call (add_filename_trans (utf8 src) (utf8 tgt) (utf8 cls) (utf8 def) (utf8 obj))
  end.

Definition expand_typeattribute (types attrs : list str) : state -> option state :=
  expand (fun t => expand (fun a => call (add_typeattribute t a)) attrs) types.

(** [add_type(name, TYPE_TYPE) && add_typeattribute(name, attr)] for each attribute. *)
Definition expand_type (name : str) (attrs : list str) : state -> option state :=
  expand (fun a s =>
    match add_type (utf8 name) TYPE_TYPE s with
    | None => None
    | Some (true, s) => call (add_typeattribute (utf8 name) a) s
    | Some (false, s) => Some s
    end) attrs.

Definition cxx_policy : SePolicy state := {|
  allow := expand_rule AVTAB_ALLOWED false;
  deny := expand_rule AVTAB_ALLOWED true;
  auditallow := expand_rule AVTAB_AUDITALLOW false;
  dontaudit := expand_rule AVTAB_AUDITDENY true;
  allowxperm := expand_xperm AVTAB_XPERMS_ALLOWED;
  auditallowxperm := expand_xperm AVTAB_XPERMS_AUDITALLOW;
  dontauditxperm := expand_xperm AVTAB_XPERMS_DONTAUDIT;
  permissive := expand_state true;
  enforce := expand_state false;
  typeattribute := expand_typeattribute;
  type_ := expand_type;
  attribute name := call (add_type (utf8 name) TYPE_ATTRIB);
  type_transition := api_type_transition;
  type_change := api_type_rule AVTAB_CHANGE;
  type_member := api_type_rule AVTAB_MEMBER;
  genfscon fs path ctx := call (add_genfscon (utf8 fs) (utf8 path) (utf8 ctx))
|}.

(** * The extended permission statements on the policy *)

#[local] Opaque avtab_hash u32 strip_enabled.

Lemma utf8_nonempty s : s <> [] -> utf8 s <> [].
Proof.
  destruct s as [|c s]; [done|]. intros _. unfold utf8. cbn [map concat]. unfold utf8_char.
  by repeat case_Z.
Qed.

(** What one range does to the decision for a command. *)
Definition xeffect (x : xperm) (allowed : Prop) (cmd : Z) : Prop :=
  if reset x then covered x cmd = false else allowed \/ covered x cmd = true.

Section named.
Context (db : policydb) (src tgt cls : str) (s t : type_datum) (c : class_datum) (effect : Z).
Hypothesis Hs : hashtab_find (table (p_types db)) (utf8 src) = Some s.
Hypothesis Ht : hashtab_find (table (p_types db)) (utf8 tgt) = Some t.
Hypothesis Hc : hashtab_find (table (p_classes db)) (utf8 cls) = Some c.
Hypothesis Hns : src <> [].
Hypothesis Hnt : tgt <> [].
Hypothesis Hnc : cls <> [].
Hypothesis Hvers : POLICYDB_VERSION_XPERMS_IOCTL <= policyvers db.
Hypothesis Heffect : effect ∈ [AVTAB_XPERMS_ALLOWED; AVTAB_XPERMS_AUDITALLOW; AVTAB_XPERMS_DONTAUDIT].

Let key := rule_key effect s t c.

Lemma named_xkey : xkey key.
Proof.
  assert (Hu : u16 effect = effect /\ is_xspec effect = true /\ effect ∈ specs).
  { clear -Heffect. set_unfold in Heffect. destruct Heffect as [->|[->|[->|[]]]];
      (split_and!; [done..|]; unfold specs; set_solver). }
  unfold key, rule_key. split; simpl; [split_and!; apply u16_range|].
  destruct Hu as (-> & ? & ?). done.
Qed.

Lemma find_opt_named {D} (h : option (hashtab_val (list Z) D)) name d :
  name <> [] -> hashtab_find h (utf8 name) = Some d -> find_opt h (utf8 name) = Some (Some d).
Proof.
  intros Hn Hf. unfold find_opt. rewrite Hf. by destruct (utf8 name) eqn:E; [destruct (utf8_nonempty name)|].
Qed.

(** One range for the named source, target and class. *)
Lemma named_xperm x h :
  xp_inv h ->
  exists h', call (add_xperm_rule_str (utf8 src) (utf8 tgt) (utf8 cls) x effect) (set_te_avtab db h, []) =
      Some (set_te_avtab db h', []) /\ xp_inv h' /\ same_outside (eq key) h h' /\
    forall cmd, ioctl_allowed h' key cmd <-> xeffect x (ioctl_allowed h key cmd) cmd.
Proof.
  intros Hx. unfold call, add_xperm_rule_str. cbn [fst].
  change (p_types (set_te_avtab db h)) with (p_types db). change (p_classes (set_te_avtab db h)) with (p_classes db).
  rewrite (find_opt_named _ _ _ Hns Hs), (find_opt_named _ _ _ Hnt Ht), (find_opt_named _ _ _ Hnc Hc).
  rewrite add_xperm_rule_keys; [|done|by intros ->; set_unfold in Heffect; decompose [or] Heffect].
  unfold rule_keys. cbn [choose map concat app]. rewrite for_each_one. fold key.
  destruct (edit_xperms_spec key named_xkey x (set_te_avtab db h) Hx) as (h' & He & Hx' & Ho & Ha).
  unfold state, oracle in *. rewrite He.
  exists h'. split; [done|]. split; [done|]. split; [done|]. intros cmd.
  rewrite <-(slot_allowed_iff h'), Ha by done. unfold xeffect. destruct (reset x).
  - apply negb_true_iff.
  - change (te_avtab (set_te_avtab db h)) with h. by rewrite orb_true_iff, slot_allowed_iff.
Qed.

Lemma named_xperms xs h :
  xp_inv h ->
  exists h', for_each (fun x => call (add_xperm_rule_str (utf8 src) (utf8 tgt) (utf8 cls) x effect)) xs
      (set_te_avtab db h, []) = Some (set_te_avtab db h', []) /\ xp_inv h' /\
    same_outside (eq key) h h' /\
    forall cmd, ioctl_allowed h' key cmd <->
      foldl (fun allowed x => xeffect x allowed cmd) (ioctl_allowed h key cmd) xs.
Proof.
  revert h. induction xs as [|x xs IH]; intros h Hx; cbn [for_each]; [by exists h|].
  destruct (named_xperm x h Hx) as (h1 & -> & Hx1 & Ho1 & Ha1).
  destruct (IH h1 Hx1) as (h' & -> & Hx' & Ho' & Ha'). exists h'. split_and!; try done.
  - by eapply same_outside_trans.
  - intros cmd. rewrite Ha'. cbn [foldl]. specialize (Ha1 cmd). clear -Ha1.
    revert Ha1. generalize (ioctl_allowed h1 key cmd) (xeffect x (ioctl_allowed h key cmd) cmd).
    induction xs as [|y xs IH]; intros A B HAB; cbn [foldl]; [done|]. apply IH.
    unfold xeffect. destruct (reset y); [done|]. by rewrite HAB.
Qed.

Lemma expand_xperm_named xs st :
  expand_xperm effect [src] [tgt] [cls] xs st =
  for_each (fun x => call (add_xperm_rule_str (utf8 src) (utf8 tgt) (utf8 cls) x effect)) xs st.
Proof.
  unfold expand_xperm, expand. cbn [for_each].
  by destruct (for_each _ xs st).
Qed.

End named.
