(* ===== verification/StatementProps.v ===== *)
(** * The properties of the statement language, with concrete instances *)

From Stdlib Require Import String Ascii.
From S2P Require Import Prelude Policyfile Ebitmap EbitmapSpec EbitmapQuery Hashtab HashtabSpec Symtab Avtab AvtabSpec AvtabRules Policydb.
From S2P Require Import Sepolicy SepolicySpec SepolicyProps SepolicyXperm SepolicyXpermSpec SepolicyXpermRules Symbols SymbolsProps PolicyIndex PolicyIndexSpec PolicyOthersSpec SepolicyTypeInv.
From S2P Require Import SepolicyTypeProps Context ContextText ContextSpec SepolicyGenfs ContextProps Statement StatementSpec SepolicyApi.

(** ** Texts *)


#[local] Existing Instance trace_policy.

(** A comment, a statement, a line that is no statement, and two more statements, the last of
    which has no line feed. *)
Definition ex_rules : str :=
  lit "# rules" ++ [10] ++ lit "permissive a" ++ [10] ++ lit "allow a b" ++ [10] ++
  lit "typeattribute { a b } c" ++ [10] ++ lit "enforce { * a }".


(** C17: every command has a text that executes it: its words are the tokens of the command as
    [Display] prints them, for names that are not keywords and contain no white space or
    punctuation, but for the numbers of ioctl commands.  A number is read from decimal digits
    after [0x]; [Display] prints it as six hexadecimal digits without [0x], which the
    tokenizer reads as a name, so that printed extended permissions cannot be read back. *)
Theorem statement_roundtrip {P : Type} `{!SePolicy P} (c : command) (p : P) :
  command_ok c -> Forall token_ok (command_tokens c) ->
  parse_statement (unwords (map spelling (command_tokens c))) p = run_command c p /\
  (forall t, (forall n, t <> HX n) -> spelling t = display t) /\
  (forall n, spelling (HX n) = lit "0x" ++ digits 5 n) /\
  (forall n, tokenize_statement (display (HX n)) = Some [ID (display (HX n))]).
Proof.
  intros Hc Ht. split; [by apply parse_command_spelling|]. split; [by intros [] Hn; try done; destruct (Hn n)|]. split; [done|].
  intros n. destruct (display_number n (List.length (display (HX n)))) as [Hw E].
  unfold tokenize_statement. change (display (HX n)) with (unwords [display (HX n)]) at 1.
  rewrite split_unwords by (by constructor). cbn [tokenize_words]. by rewrite E.
Qed.

(** allow { s t } * file { read open }, and a number: 0x8910 is printed as 008910. *)
Lemma statement_roundtrip_witness :
  let c := CAv Allow [lit "s"; lit "t"] [] [lit "file"] [lit "read"; lit "open"] in
  unwords (map display (command_tokens c)) = lit "allow { s t } * file { read open }" /\
  parse_statement (unwords (map display (command_tokens c))) [] = Some [c] /\
  tokenize_statement (lit "008910") = Some [ID (lit "008910")].
Proof.
  intros c. split; [vm_compute; reflexivity|].
  destruct (statement_roundtrip c [] I ltac:(repeat constructor)) as (H & _ & _ & Hn). split.
  - change (map display (command_tokens c)) with (map spelling (command_tokens c)). exact H.
  - exact (Hn 0x8910).
Defined.

(** ** Extended permissions *)

Lemma id_ok_nonempty s : id_ok s = true -> s <> [].
Proof. intros H ->. vm_compute in H. done. Qed.

(** A statement whose last word is a number. *)
Lemma number_statement {P} `{!SePolicy P} src tgt cls number (p : P) :
  id_ok src = true -> id_ok tgt = true -> id_ok cls = true -> Forall is_alnum number ->
  parse_statement (unwords [lit "allowxperm"; src; tgt; cls; lit "ioctl"; lit "0x" ++ number]) p =
  match exec_statement [AX; ID src; ID tgt; ID cls; ID (lit "ioctl");
                        HX (default 0 (parse_u16 number))] p with
  | Some (inl _) => Some p
  | Some (inr p') => Some p'
  | None => None
  end.
Proof.
  intros Hs Ht Hc Hn.
  destruct (spelling_ok (ID src) Hs) as [Ws Es]. destruct (spelling_ok (ID tgt) Ht) as [Wt Et].
  destruct (spelling_ok (ID cls) Hc) as [Wc Ec]. cbn [spelling display] in *.
  destruct (number_text number (length (lit "0x" ++ number)) Hn) as [Wn En].
  set (ws := [lit "allowxperm"; src; tgt; cls; lit "ioctl"; lit "0x" ++ number]).
  assert (Hw : Forall word_ok ws).
  { unfold ws. do 6 (constructor; [first [done | by apply word_ok_bool]|]). constructor. }
  apply (parse_statement_tokens _ 97 (drop 1 (unwords ws))); [by apply trim_unwords|done|lia|].
  unfold tokenize_statement. rewrite split_unwords by done. unfold ws. cbn [tokenize_words].
  rewrite Es, Et, Ec, En. reflexivity.
Qed.

(** A statement that was executed. *)
Lemma statement_done {P} (r : option P) p p' :
  r = Some p' ->
  match inr (A := parse_error) <$> r with
  | Some (inl _) => Some p
  | Some (inr q) => Some q
  | None => None
  end = Some p'.
Proof. by intros ->. Qed.

(** The number 0 is the range of all commands. *)
Lemma zero_allows_all {P} `{!SePolicy P} src tgt cls (p : P) :
  exec_statement [AX; ID src; ID tgt; ID cls; ID (lit "ioctl"); HX (default 0 None)] p =
  inr <$> allowxperm [src] [tgt] [cls] [Xperm 0 0xFFFF false] p.
Proof. reflexivity. Qed.

#[local] Instance policy_ops : SePolicy state := cxx_policy.

(** The statement with one source, target and class. *)
Lemma allowxperm_text db src tgt cls s t c xs :
  let cmd := CXperm AllowXperm [src] [tgt] [cls] xs in
  let key := rule_key AVTAB_XPERMS_ALLOWED s t c in
  xp_inv (te_avtab db) -> POLICYDB_VERSION_XPERMS_IOCTL <= policyvers db ->
  hashtab_find (table (p_types db)) (utf8 src) = Some s ->
  hashtab_find (table (p_types db)) (utf8 tgt) = Some t ->
  hashtab_find (table (p_classes db)) (utf8 cls) = Some c ->
  xperms_uniform xs -> Forall token_ok (command_tokens cmd) ->
  exists h', parse_statement (command_spelling cmd) (db, []) = Some (set_te_avtab db h', []) /\
    xp_inv h' /\ same_outside (eq key) (te_avtab db) h' /\
    forall x, ioctl_allowed h' key x <->
      foldl (fun allowed r => xeffect r allowed x) (ioctl_allowed (te_avtab db) key x) xs.
Proof.
  intros cmd key Hx Hv Hs Ht Hc Hxs Hok. pose proof Hok as Hids. cbn [cmd command_tokens sterm_tokens app] in Hids.
  apply Forall_cons in Hids as [_ Hids]. apply Forall_cons in Hids as [Hsrc Hids].
  apply Forall_cons in Hids as [Htgt Hids]. apply Forall_cons in Hids as [Hcls _].
  rewrite parse_command_spelling by done. cbn [run_command cmd allowxperm policy_ops cxx_policy].
  rewrite expand_xperm_named.
  destruct (named_xperms db src tgt cls s t c AVTAB_XPERMS_ALLOWED Hs Ht Hc
    (id_ok_nonempty _ Hsrc) (id_ok_nonempty _ Htgt) (id_ok_nonempty _ Hcls) Hv ltac:(by left) xs
    (te_avtab db) Hx) as (h' & He & Hx' & Ho & Ha).
  exists h'. split_and!; try done. rewrite <-He. by destruct db.
Qed.

(** What a list of ranges does, one after the other, to the decision for a command. *)
Lemma foldl_adds xs allowed x :
  Forall (fun r => reset r = false) xs -> Forall (fun r => 0 <= low r < 2 ^ 16 /\ 0 <= high r < 2 ^ 16) xs -> 0 <= x < 2 ^ 16 ->
  foldl (fun allowed r => xeffect r allowed x) allowed xs <-> allowed \/ Exists (fun r => affected r x) xs.
Proof.
  intros Hr Hb Hx. revert allowed. induction Hr as [|r xs Hr _ IH]; intros allowed; cbn [foldl].
  { rewrite Exists_nil. tauto. }
  apply Forall_cons in Hb as [[Hl Hh] Hb]. rewrite IH, Exists_cons by done. unfold xeffect. rewrite Hr.
  pose proof (covered_affected r x Hl Hh Hx). tauto.
Qed.

Lemma foldl_complement xs r allowed x :
  reset r = true -> 0 <= low r < 2 ^ 16 -> 0 <= high r < 2 ^ 16 -> 0 <= x < 2 ^ 16 ->
  foldl (fun allowed r => xeffect r allowed x) allowed (xs ++ [r]) <-> ~ affected r x.
Proof.
  intros Hr Hl Hh Hx. rewrite foldl_app. cbn [foldl]. unfold xeffect at 1. rewrite Hr.
  rewrite <-(covered_affected r x Hl Hh Hx). by rewrite not_true_iff_false.
Qed.

Lemma range_tokens_ok xs :
  Forall (fun r => 0 <= low r < 2 ^ 16 /\ 0 <= high r < 2 ^ 16) xs -> Forall token_ok (concat (map range_tokens xs)).
Proof.
  induction 1 as [|r xs [Hl Hh] _ IH]; [done|]. cbn [map concat]. rewrite Forall_app. split; [|done].
  unfold range_tokens. case_Z; repeat (apply Forall_cons_2; [first [exact Hl|exact Hh|exact I]|]); constructor.
Qed.

(** C6: the statement [allowxperm source target class ioctl { ranges }], or with [~{ ranges }],
    end to end, from its text to the rule table, for the numbers the text is read as: the
    digits after [0x] are decimal digits, although the help text says hexadecimal.  A list of
    ranges allows what was allowed and every command that one of the ranges affects.  After
    a complement exactly those commands are allowed that its last range does not affect: the
    other ranges have no effect, although the help text says that a complement allows all but
    the listed commands.  A range affects the commands between its bounds, or, when these have
    different drivers, all commands of the drivers from the low to the high one.  The rules
    of other keys keep their nodes. *)
Theorem xperm_statement_correct db src tgt cls s t c xs r (complement : bool) :
  let ranges := xs ++ [r] in
  let text := unwords ([lit "allowxperm"; src; tgt; cls; lit "ioctl"] ++ (if complement then [lit "~"] else []) ++
    [lit "{"] ++ map spelling (concat (map range_tokens ranges)) ++ [lit "}"]) in
  let key := rule_key AVTAB_XPERMS_ALLOWED s t c in
  xp_inv (te_avtab db) -> POLICYDB_VERSION_XPERMS_IOCTL <= policyvers db ->
  hashtab_find (table (p_types db)) (utf8 src) = Some s ->
  hashtab_find (table (p_types db)) (utf8 tgt) = Some t ->
  hashtab_find (table (p_classes db)) (utf8 cls) = Some c ->
  id_ok src = true -> id_ok tgt = true -> id_ok cls = true ->
  Forall (fun x => reset x = complement /\ 0 <= low x < 2 ^ 16 /\ 0 <= high x < 2 ^ 16) ranges ->
  exists h', parse_statement text (db, []) = Some (set_te_avtab db h', []) /\
    xp_inv h' /\ same_outside (eq key) (te_avtab db) h' /\
    forall x, 0 <= x < 2 ^ 16 ->
      ioctl_allowed h' key x <->
      if complement then ~ affected r x
      else ioctl_allowed (te_avtab db) key x \/ Exists (fun y => affected y x) ranges.
Proof.
  intros ranges text key Hx Hv Hs Ht Hc His Hit Hic Hr.
  set (cmd := CXperm AllowXperm [src] [tgt] [cls] ranges).
  assert (Hreset : Forall (fun x => reset x = complement) ranges) by (eapply Forall_impl; [exact Hr|]; by intros x [? _]).
  assert (Hnum : Forall (fun x => 0 <= low x < 2 ^ 16 /\ 0 <= high x < 2 ^ 16) ranges) by (eapply Forall_impl; [exact Hr|]; by intros x [_ ?]).
  assert (Hne : ranges <> []) by (unfold ranges; by destruct xs).
  assert (Etok : command_tokens cmd = [AX; ID src; ID tgt; ID cls; ID (lit "ioctl")] ++ (if complement then [TL] else []) ++
    [LB] ++ concat (map range_tokens ranges) ++ [RB]).
  { cbn [cmd command_tokens sterm_tokens]. unfold xperms_tokens. destruct ranges as [|x l] eqn:E; [done|].
    apply Forall_cons in Hreset as [-> _]. done. }
  assert (Etext : text = command_spelling cmd).
  { unfold text, command_spelling. rewrite Etok, !map_app. by destruct complement. }
  rewrite Etext. destruct (allowxperm_text db src tgt cls s t c ranges Hx Hv Hs Ht Hc) as (h' & E & Hx' & Ho & Ha).
  { split; [done|]. by exists complement. }
  { fold cmd. rewrite Etok, !Forall_app. split; [by repeat constructor|]. split; [by destruct complement; repeat constructor|].
    split; [by repeat constructor|]. split; [by apply range_tokens_ok|by repeat constructor]. }
  exists h'. split; [exact E|]. split; [exact Hx'|]. split; [exact Ho|]. intros x Hxb. unfold key. rewrite Ha. destruct complement.
  - unfold ranges in *. rewrite Forall_app in Hr. destruct Hr as [_ [(Hrr & Hl & Hh) _]%Forall_cons]. by apply foldl_complement.
  - by apply foldl_adds.
Qed.

(** C40: a number with a hexadecimal letter allows every ioctl command.  The digits after
    [0x] are read as a decimal number, a number that cannot be read becomes 0, and 0
    becomes the range of all commands: [allowxperm source target class ioctl 0x892A]
    allows all 2^16 of them.  The help text says that numbers are hexadecimal and that 0
    clears the rules. *)
Theorem hex_letter_allows_all db src tgt cls s t c number :
  let text := unwords [lit "allowxperm"; src; tgt; cls; lit "ioctl"; lit "0x" ++ number] in
  let key := rule_key AVTAB_XPERMS_ALLOWED s t c in
  xp_inv (te_avtab db) -> POLICYDB_VERSION_XPERMS_IOCTL <= policyvers db ->
  hashtab_find (table (p_types db)) (utf8 src) = Some s ->
  hashtab_find (table (p_types db)) (utf8 tgt) = Some t ->
  hashtab_find (table (p_classes db)) (utf8 cls) = Some c ->
  id_ok src = true -> id_ok tgt = true -> id_ok cls = true ->
  Forall is_alnum number -> Exists (fun c => ~ is_digit c) number ->
  exists h', parse_statement text (db, []) = Some (set_te_avtab db h', []) /\
    forall x, ioctl_allowed h' key x.
Proof.
  intros text key Hx Hv Hs Ht Hc His Hit Hic Han Hlet.
  destruct (named_xperms db src tgt cls s t c AVTAB_XPERMS_ALLOWED Hs Ht Hc
    (id_ok_nonempty _ His) (id_ok_nonempty _ Hit) (id_ok_nonempty _ Hic) Hv ltac:(by left)
    [Xperm 0 0xFFFF false] (te_avtab db) Hx) as (h' & He & _ & _ & Ha).
  exists h'. split.
  - unfold text. rewrite (number_statement src tgt cls number) by done.
    rewrite parse_u16_letter, zero_allows_all by done. apply statement_done.
    cbn [allowxperm policy_ops cxx_policy]. rewrite expand_xperm_named, <-He. by destruct db.
  - intros x. apply Ha. right. unfold covered. cbn [low high].
    pose proof (driver_range x). change (ioctl_driver 0) with 0. change (ioctl_driver 0xFFFF) with 255.
    rewrite (proj2 (Z.eqb_neq 0 255)) by lia. apply andb_true_iff. rewrite !Z.leb_le. lia.
Qed.

(** ** The small policy *)

Definition ex_key : avtab_key :=
  rule_key AVTAB_XPERMS_ALLOWED (plain_type 1 1 TYPE_TYPE) (plain_type 2 1 TYPE_TYPE) ex_class.

(** allowxperm s t f ioctl { 0x100-0x120 0x300 } allows the commands 110 and 300, and not
    0x110; allowxperm s t f ioctl ~{ 0x35088 0x35114 } allows its first command, 0x8910. *)
Lemma xperm_statement_witness :
  (exists h', parse_statement (lit "allowxperm s t f ioctl { 0x100 - 0x120 0x300 }")
      (ex_db, []) = Some (set_te_avtab ex_db h', []) /\
    ioctl_allowed h' ex_key 110 /\ ioctl_allowed h' ex_key 300 /\ (ioctl_allowed h' ex_key 0x110 <-> ioctl_allowed ex_te ex_key 0x110)) /\
  (exists h', parse_statement (lit "allowxperm s t f ioctl ~ { 0x35088 0x35114 }")
      (ex_db, []) = Some (set_te_avtab ex_db h', []) /\
    ioctl_allowed h' ex_key 0x8910 /\ ~ ioctl_allowed h' ex_key 0x892A).
Proof.
  split.
  - destruct (xperm_statement_correct ex_db (lit "s") (lit "t") (lit "f")
      (plain_type 1 1 TYPE_TYPE) (plain_type 2 1 TYPE_TYPE) ex_class
      [Xperm 100 120 false] (Xperm 300 300 false) false) as (h' & Hr & _ & _ & Ha); [exact ex_te_xp|vm_compute; congruence| | | | | | | |].
    1-6: vm_compute; reflexivity.
    { repeat constructor; vm_compute; congruence. }
    exists h'. split; [exact Hr|]. fold ex_key in Ha. split; [|split].
    + apply (Ha 110 ltac:(lia)). right. left. decide_affected.
    + apply (Ha 300 ltac:(lia)). right. right. left. decide_affected.
    + rewrite (Ha 0x110) by lia. split; [|by left]. intros [H|H]; [exact H|]. exfalso. revert H.
      cbn [app]. rewrite !Exists_cons, Exists_nil. intros [H|[H|[]]]; revert H; decide_affected.
  - destruct (xperm_statement_correct ex_db (lit "s") (lit "t") (lit "f")
      (plain_type 1 1 TYPE_TYPE) (plain_type 2 1 TYPE_TYPE) ex_class
      [Xperm 0x8910 0x8910 true] (Xperm 0x892A 0x892A true) true) as (h' & Hr & _ & _ & Ha); [exact ex_te_xp|vm_compute; congruence| | | | | | | |].
    1-6: vm_compute; reflexivity.
    { repeat constructor; vm_compute; congruence. }
    exists h'. split; [exact Hr|]. fold ex_key in Ha. split.
    + apply (Ha 0x8910 ltac:(lia)). decide_affected.
    + intros H. apply (Ha 0x892A ltac:(lia)) in H. apply H. decide_affected.
Defined.

(** allowxperm s t f ioctl 0x892A: the command 0x0001 is allowed. *)
Lemma hex_letter_witness :
  exists h', parse_statement (lit "allowxperm s t f ioctl 0x892A") (ex_db, []) =
      Some (set_te_avtab ex_db h', []) /\ ioctl_allowed h' ex_key 1.
Proof.
  destruct (hex_letter_allows_all ex_db (lit "s") (lit "t") (lit "f")
    (plain_type 1 1 TYPE_TYPE) (plain_type 2 1 TYPE_TYPE) ex_class [56; 57; 50; 65]) as (h' & Hr & Ha).
  - exact ex_te_xp.
  - vm_compute. congruence.
  - vm_compute. reflexivity.
  - vm_compute. reflexivity.
  - vm_compute. reflexivity.
  - vm_compute. reflexivity.
  - vm_compute. reflexivity.
  - vm_compute. reflexivity.
  - repeat (constructor; [unfold is_alnum; lia|]). constructor.
  - do 3 right. left. unfold is_digit. lia.
  - exists h'. split; [exact Hr|apply Ha].
Defined.

(** * The genfscon statement from its text to the policy, with a concrete instance *)


Lemma split_char_in c s : c ∈ s -> split_char c s <> None.
Proof.
  induction s as [|d s IH]; [by intros ?%elem_of_nil|]. cbn [split_char]. case_Z; [done|].
  intros [->|Hin]%elem_of_cons; [done|]. specialize (IH Hin). by destruct (split_char c s) as [[]|].
Qed.

Lemma has_punct s : 45 ∈ s \/ 44 ∈ s -> split_punct punctuation s <> None.
Proof.
  intros Hin. unfold punctuation. cbn [split_punct]. do 2 (destruct (split_char _ s) as [[? ?]|]; [done|]).
  destruct (split_char 44 s) as [[? ?]|] eqn:E1; [done|]. destruct (split_char 45 s) as [[? ?]|] eqn:E2; [done|].
  by destruct Hin as [H%split_char_in|H%split_char_in].
Qed.

(** The tokens of a genfscon statement whose last word is not a name. *)
Lemma genfscon_error {P} `{!SePolicy P} fs path ts (p : P) :
  (forall s, ts <> [ID s]) -> exec_statement (GF :: ID fs :: ID path :: ts) p = Some (inl GenfsCon).
Proof.
  intros Hts. cbn [exec_statement]. unfold pbind. cbn [parse_id].
  destruct ts as [|[] [|t ts]]; try done. by destruct (Hts s).
Qed.

Lemma genfscon_tokens {P} `{!SePolicy P} fs path ctx (p : P) ts :
  id_ok fs = true -> id_ok path = true -> word_ok ctx -> extract_token (S (List.length ctx)) ctx = Some ts ->
  parse_statement (unwords [lit "genfscon"; fs; path; ctx]) p =
  match exec_statement (GF :: ID fs :: ID path :: ts) p with
  | Some (inl _) => Some p
  | Some (inr p') => Some p'
  | None => None
  end.
Proof.
  intros Hfs Hpath Hw E. destruct (spelling_ok (ID fs) Hfs) as [W1 E1]. destruct (spelling_ok (ID path) Hpath) as [W2 E2].
  cbn [spelling display] in *. set (ws := [lit "genfscon"; fs; path; ctx]).
  assert (Hws : Forall word_ok ws) by (unfold ws; repeat (constructor; [first [done|by apply word_ok_bool]|]); constructor).
  apply (parse_statement_tokens _ 103 (drop 1 (unwords ws))); [by apply trim_unwords|done|lia|].
  unfold tokenize_statement. rewrite split_unwords by done. unfold ws. cbn [tokenize_words]. rewrite E1, E2, E.
  rewrite app_nil_r. reflexivity.
Qed.


(** u:r:t:s *)
Definition ex_plain_context : context_struct := ContextStruct 1 2 1 (MlsRange (MlsLevel 1 ebitmap_init) (MlsLevel 1 ebitmap_init)).

Lemma ex_plain_symbols : context_symbols ex_built ex_plain_context.
Proof.
  destruct ex_context_symbols as [Hu Hr Ht Hrg]. split; [exact Hu|exact Hr|exact Ht|].
  destruct (p_mls ex_built =? 0); [discriminate Hrg|]. destruct Hrg as [Hlow _]. exact (conj Hlow Hlow).
Qed.

