(* ===== verification/XzCrc32.v ===== *)
(** * CRC32 (xz-embedded/xz_crc32.c)

    The table and the byte loop, the bit-serial definition they implement, and what the
    check detects. *)

From S2P Require Import Prelude.

Definition crc32_poly : Z := 0xEDB88320.

(** The body of the inner loop of [xz_crc32_init]. *)
Definition crc32_bit (r : Z) : Z :=
  Z.lxor (Z.shiftr r 1) (Z.land crc32_poly (u32 (Z.lnot (u32 (Z.land r 1 - 1))))).

Fixpoint crc32_bits (j : nat) (r : Z) : Z :=
  match j with
  | O => r
  | S j' => crc32_bits j' (crc32_bit r)
  end.

(** [xz_crc32_init]: the table. *)
Definition xz_crc32_init : list Z := map (fun i => crc32_bits 8 i) (seqZ 0 256).

(** The array after [xz_crc32_init]. *)
Definition xz_crc32_table : list Z := Eval vm_compute in xz_crc32_init.

(** One iteration of [xz_crc32]; the index is a [uint8_t] exclusive-ored with a byte. *)
Definition crc32_byte (crc b : Z) : Z :=
  Z.lxor (nth (Z.to_nat (Z.lxor b (Z.land crc 0xFF))) xz_crc32_table 0) (Z.shiftr crc 8).

Definition xz_crc32 (buf : list Z) (crc : Z) : Z :=
  u32 (Z.lnot (foldl crc32_byte (u32 (Z.lnot crc)) buf)).

(** ** The bit-serial definition *)

(** CRC32 as IEEE 802.3 defines it: each bit of the message, low bit first, is divided
    by the polynomial. *)
Definition crc32_reference (buf : list Z) (crc : Z) : Z :=
  u32 (Z.lnot (foldl (fun r b => crc32_bits 8 (Z.lxor r b)) (u32 (Z.lnot crc)) buf)).

Definition word32 (x : Z) : Prop := 0 <= x < 2 ^ 32.

Lemma crc32_bit_odd r :
  word32 r -> crc32_bit r = Z.lxor (Z.shiftr r 1) (if Z.testbit r 0 then crc32_poly else 0).
Proof.
  intros Hr. unfold crc32_bit. f_equal. change (Z.land r 1) with (Z.land r (Z.ones 1)).
  rewrite Z.land_ones, Z.bit0_odd by lia. change (2 ^ 1) with 2. rewrite Zmod_odd.
  by destruct (Z.odd r).
Qed.

Lemma shiftr_range x n : word32 x -> 0 <= n -> word32 (Z.shiftr x n).
Proof.
  intros Hx Hn. unfold word32 in *. rewrite Z.shiftr_div_pow2 by done.
  pose proof (pow2_pos n Hn). split; [apply Z.div_pos; lia|].
  apply Z.div_lt_upper_bound; [done|]. nia.
Qed.

Lemma crc32_bit_range r : word32 r -> word32 (crc32_bit r).
Proof.
  intros Hr. rewrite crc32_bit_odd by done. apply lxor_range; [by apply shiftr_range|].
  destruct (Z.testbit r 0); done.
Qed.

Lemma crc32_bits_range j r : word32 r -> word32 (crc32_bits j r).
Proof. revert r. induction j as [|j IH]; intros r Hr; simpl; [done|]. by apply IH, crc32_bit_range. Qed.

(** The division step is linear over the two-element field, and so are 8 of them. *)
Lemma crc32_bit_lxor x y :
  word32 x -> word32 y -> crc32_bit (Z.lxor x y) = Z.lxor (crc32_bit x) (crc32_bit y).
Proof.
  intros Hx Hy. rewrite !crc32_bit_odd by (done || by apply lxor_range).
  rewrite Z.shiftr_lxor, Z.lxor_spec. apply Z.bits_inj'. intros i _. rewrite !Z.lxor_spec.
  destruct (Z.testbit x 0), (Z.testbit y 0); cbn [xorb]; rewrite ?Z.testbit_0_l;
    by destruct (Z.testbit (Z.shiftr x 1) i), (Z.testbit (Z.shiftr y 1) i), (Z.testbit crc32_poly i).
Qed.

Lemma crc32_bits_lxor j x y :
  word32 x -> word32 y -> crc32_bits j (Z.lxor x y) = Z.lxor (crc32_bits j x) (crc32_bits j y).
Proof.
  revert x y. induction j as [|j IH]; intros x y Hx Hy; cbn [crc32_bits]; [done|].
  rewrite crc32_bit_lxor by done. apply IH; by apply crc32_bit_range.
Qed.

(** Eight steps on a word without low byte only shift it. *)
Lemma crc32_bits_shift j x :
  word32 (x * 2 ^ Z.of_nat j) -> crc32_bits j (x * 2 ^ Z.of_nat j) = x.
Proof.
  induction j as [|j IH]; intros Hx; cbn [crc32_bits].
  - change (2 ^ Z.of_nat 0) with 1. lia.
  - rewrite Nat2Z.inj_succ, Z.pow_succ_r in Hx |- * by lia.
    replace (x * (2 * 2 ^ Z.of_nat j)) with (x * 2 ^ Z.of_nat j * 2) in Hx |- * by lia.
    rewrite crc32_bit_odd by done.
    assert (Z.testbit (x * 2 ^ Z.of_nat j * 2) 0 = false) as ->.
    { rewrite Z.bit0_odd, Z.odd_mul, andb_false_r. done. }
    rewrite Z.lxor_0_r, Z.shiftr_div_pow2, Z.div_mul by lia. apply IH.
    unfold word32 in *. lia.
Qed.

Lemma crc32_table_spec i :
  0 <= i < 256 -> nth (Z.to_nat i) xz_crc32_table 0 = crc32_bits 8 i.
Proof.
  intros Hi. change xz_crc32_table with xz_crc32_init. unfold xz_crc32_init.
  rewrite (nth_indep _ 0 (crc32_bits 8 0)) by (rewrite length_map; unfold seqZ; rewrite length_fmap, length_seq; lia).
  rewrite map_nth. f_equal. apply nth_lookup_Some. apply lookup_seqZ. lia.
Qed.

(** The table look-up is eight division steps. *)
Lemma crc32_byte_spec crc b :
  word32 crc -> is_byte b -> crc32_byte crc b = crc32_bits 8 (Z.lxor crc b).
Proof.
  intros Hc Hb. unfold crc32_byte. change 0xFF with (Z.ones 8). rewrite Z.land_ones by lia.
  assert (Hm : 0 <= crc mod 2 ^ 8 < 2 ^ 8) by (apply Z.mod_pos_bound; lia).
  rewrite crc32_table_spec by (apply (lxor_range 8); done).
  assert (Hsplit : crc = Z.lxor (crc mod 2 ^ 8) (Z.shiftr crc 8 * 2 ^ Z.of_nat 8)).
  { apply Z.bits_inj'. intros i Hi. change (2 ^ Z.of_nat 8) with (2 ^ 8).
    rewrite <-Z.shiftl_mul_pow2, Z.lxor_spec, Z.shiftl_spec by lia.
    destruct (decide (i < 8)).
    - rewrite Z.mod_pow2_bits_low, (Z.testbit_neg_r _ (i - 8)) by lia. by rewrite xorb_false_r.
    - rewrite Z.mod_pow2_bits_high, Z.shiftr_spec by lia. rewrite xorb_false_l. f_equal. lia. }
  assert (Hhi : word32 (Z.shiftr crc 8 * 2 ^ Z.of_nat 8)).
  { change (2 ^ Z.of_nat 8) with (2 ^ 8). rewrite Z.shiftr_div_pow2 by lia.
    unfold word32 in *. pose proof (Z.div_mod crc (2 ^ 8)). pose proof (Z.div_pos crc (2 ^ 8)). lia. }
  assert (Hlo : word32 (Z.lxor b (crc mod 2 ^ 8))).
  { pose proof (lxor_range 8 b (crc mod 2 ^ 8) Hb Hm). unfold word32. lia. }
  assert (Hx : Z.lxor crc b =
    Z.lxor (Z.lxor b (crc mod 2 ^ 8)) (Z.shiftr crc 8 * 2 ^ Z.of_nat 8)).
  { rewrite Hsplit at 1. by rewrite (Z.lxor_comm _ b), Z.lxor_assoc. }
  rewrite Hx, (crc32_bits_lxor 8 _ _ Hlo Hhi), (crc32_bits_shift 8 _ Hhi). reflexivity.
Qed.

Lemma crc32_byte_range crc b : word32 crc -> is_byte b -> word32 (crc32_byte crc b).
Proof.
  intros Hc Hb. rewrite crc32_byte_spec by done. apply crc32_bits_range, lxor_range; [done|].
  unfold is_byte in Hb. lia.
Qed.

Lemma crc32_loop_range buf crc :
  word32 crc -> Forall is_byte buf -> word32 (foldl crc32_byte crc buf).
Proof.
  intros Hc Hf. revert crc Hc. induction Hf as [|b buf Hb Hf IH]; intros crc Hc; simpl; [done|].
  by apply IH, crc32_byte_range.
Qed.

Lemma u32_lnot_lnot x : word32 x -> u32 (Z.lnot (u32 (Z.lnot x))) = x.
Proof.
  intros Hx. unfold u32. apply (word_ext 32); [apply Z.mod_pos_bound; lia|done|].
  intros i Hi. rewrite Z.mod_pow2_bits_low, Z.lnot_spec, Z.mod_pow2_bits_low, Z.lnot_spec by lia.
  by rewrite negb_involutive.
Qed.

Lemma u32_lnot_inj x y : word32 x -> word32 y -> u32 (Z.lnot x) = u32 (Z.lnot y) -> x = y.
Proof. intros Hx Hy H. by rewrite <-(u32_lnot_lnot x), <-(u32_lnot_lnot y), H by done. Qed.

Lemma xz_crc32_range buf crc : Forall is_byte buf -> word32 (xz_crc32 buf crc).
Proof. intros. unfold xz_crc32. apply u32_range. Qed.

Lemma xz_crc32_reference buf crc :
  Forall is_byte buf -> xz_crc32 buf crc = crc32_reference buf crc.
Proof.
  intros Hf. unfold xz_crc32, crc32_reference. do 2 f_equal.
  pose proof (u32_range (Z.lnot crc)) as Hc. revert Hc. generalize (u32 (Z.lnot crc)).
  induction Hf as [|b buf Hb Hf IH]; intros c Hc; simpl; [done|].
  rewrite IH by (by apply crc32_byte_range). by rewrite crc32_byte_spec.
Qed.

Lemma xz_crc32_app a b crc :
  Forall is_byte a -> xz_crc32 (a ++ b) crc = xz_crc32 b (xz_crc32 a crc).
Proof.
  intros Ha. unfold xz_crc32. rewrite foldl_app. do 3 f_equal. symmetry.
  apply u32_lnot_lnot, crc32_loop_range; [apply u32_range|done].
Qed.

(** ** Detection *)

Lemma crc32_bit_inj x y : word32 x -> word32 y -> crc32_bit x = crc32_bit y -> x = y.
Proof.
  intros Hx Hy E. rewrite !crc32_bit_odd in E by done.
  assert (Hb : forall z, word32 z ->
    Z.testbit (Z.lxor (Z.shiftr z 1) (if Z.testbit z 0 then crc32_poly else 0)) 31 = Z.testbit z 0).
  { intros z Hz. rewrite Z.lxor_spec, Z.shiftr_spec by lia.
    rewrite (testbit_high z 32) by (done || lia). by destruct (Z.testbit z 0). }
  assert (E0 : Z.testbit x 0 = Z.testbit y 0) by (by rewrite <-(Hb x), <-(Hb y), E).
  apply (word_ext 32); [done..|]. intros i Hi. destruct (decide (i = 0)) as [->|]; [done|].
  rewrite E0 in E. apply (f_equal (fun w => Z.testbit w (i - 1))) in E.
  rewrite !Z.lxor_spec, !Z.shiftr_spec in E by lia.
  replace (i - 1 + 1) with i in E by lia.
  by destruct (Z.testbit x i), (Z.testbit y i), (Z.testbit (if Z.testbit y 0 then _ else _) _).
Qed.

Lemma crc32_bits_inj j x y : word32 x -> word32 y -> crc32_bits j x = crc32_bits j y -> x = y.
Proof.
  revert x y. induction j as [|j IH]; intros x y Hx Hy; simpl; [done|].
  intros E%IH; [|by apply crc32_bit_range..]. by apply crc32_bit_inj.
Qed.

Lemma lxor_inj_l c x y : Z.lxor c x = Z.lxor c y -> x = y.
Proof.
  intros E. apply (f_equal (Z.lxor c)) in E.
  by rewrite <-!Z.lxor_assoc, !Z.lxor_nilpotent, !Z.lxor_0_l in E.
Qed.

Lemma crc32_byte_inj_crc c1 c2 b :
  word32 c1 -> word32 c2 -> is_byte b -> crc32_byte c1 b = crc32_byte c2 b -> c1 = c2.
Proof.
  intros H1 H2 Hb. assert (word32 b) by (unfold is_byte, word32 in *; lia).
  rewrite !crc32_byte_spec by done. intros E%crc32_bits_inj; [|by apply lxor_range..].
  rewrite !(Z.lxor_comm _ b) in E. by apply lxor_inj_l in E.
Qed.

Lemma crc32_byte_inj c b1 b2 :
  word32 c -> is_byte b1 -> is_byte b2 -> crc32_byte c b1 = crc32_byte c b2 -> b1 = b2.
Proof.
  intros Hc H1 H2. assert (word32 b1 /\ word32 b2) as [??] by (unfold is_byte, word32 in *; lia).
  rewrite !crc32_byte_spec by done. intros E%crc32_bits_inj; [|by apply lxor_range..].
  by apply lxor_inj_l in E.
Qed.

Lemma crc32_loop_inj buf c1 c2 :
  Forall is_byte buf -> word32 c1 -> word32 c2 ->
  foldl crc32_byte c1 buf = foldl crc32_byte c2 buf -> c1 = c2.
Proof.
  intros Hf. revert c1 c2. induction Hf as [|b buf Hb Hf IH]; intros c1 c2 H1 H2; simpl; [done|].
  intros E%IH; [|by apply crc32_byte_range..]. by eapply crc32_byte_inj_crc.
Qed.

Lemma xz_crc32_detects pre b1 b2 post crc :
  Forall is_byte (pre ++ b1 :: post) -> is_byte b2 ->
  xz_crc32 (pre ++ b1 :: post) crc = xz_crc32 (pre ++ b2 :: post) crc -> b1 = b2.
Proof.
  rewrite Forall_app, Forall_cons. intros (Hpre & Hb1 & Hpost) Hb2 E.
  unfold xz_crc32 in E. rewrite !foldl_app in E. cbn [foldl] in E.
  set (c := foldl crc32_byte _ pre) in E.
  assert (Hc : word32 c) by (apply crc32_loop_range; [apply u32_range|done]).
  apply u32_lnot_inj in E; [|by apply crc32_loop_range; [apply crc32_byte_range|]..].
  apply crc32_loop_inj in E; [|done|by apply crc32_byte_range..]. by eapply crc32_byte_inj.
Qed.
