(* ===== verification/XzDefs.v ===== *)
(** * Shared definitions of the xz decoder

    The public types of xz.h, the constants and state functions of xz_lzma2.h, arrays
    whose accesses are checked against their bounds, and the monad the decoder's
    functions are written in. *)

From S2P Require Import Prelude.

(** ** xz.h *)

Inductive xz_mode := XZ_SINGLE | XZ_PREALLOC | XZ_DYNALLOC.

Inductive xz_ret :=
| XZ_OK | XZ_STREAM_END | XZ_UNSUPPORTED_CHECK | XZ_MEM_ERROR | XZ_MEMLIMIT_ERROR
| XZ_FORMAT_ERROR | XZ_OPTIONS_ERROR | XZ_DATA_ERROR | XZ_BUF_ERROR.

#[global] Instance xz_mode_eq_dec : EqDecision xz_mode.
Proof. solve_decision. Defined.
#[global] Instance xz_ret_eq_dec : EqDecision xz_ret.
Proof. solve_decision. Defined.

Definition DEC_IS_SINGLE (m : xz_mode) : bool := bool_decide (m = XZ_SINGLE).
Definition DEC_IS_PREALLOC (m : xz_mode) : bool := bool_decide (m = XZ_PREALLOC).
Definition DEC_IS_DYNALLOC (m : xz_mode) : bool := bool_decide (m = XZ_DYNALLOC).
Definition DEC_IS_MULTI (m : xz_mode) : bool := negb (bool_decide (m = XZ_SINGLE)).

(** Input and output buffers: the arrays have [in_size] and [out_size] bytes. *)
Record xz_buf := XB { b_in : list Z; b_in_pos : Z; b_out : list Z; b_out_pos : Z }.

Definition zlen {A} (l : list A) : Z := Z.of_nat (length l).
Definition in_size (b : xz_buf) : Z := zlen (b_in b).
Definition out_size (b : xz_buf) : Z := zlen (b_out b).

Definition set_in_pos (p : Z) (b : xz_buf) : xz_buf := XB (b_in b) p (b_out b) (b_out_pos b).
Definition set_out (o : list Z) (b : xz_buf) : xz_buf := XB (b_in b) (b_in_pos b) o (b_out_pos b).
Definition set_out_pos (p : Z) (b : xz_buf) : xz_buf := XB (b_in b) (b_in_pos b) (b_out b) p.

(** ** Arrays

    [None] is an access outside the array, which is undefined behaviour in C. *)

Definition rd {A} (l : list A) (i : Z) : option A :=
  if 0 <=? i then l !! Z.to_nat i else None.

Definition wr {A} (l : list A) (i : Z) (x : A) : option (list A) :=
  if (0 <=? i) && (i <? zlen l) then Some (<[Z.to_nat i := x]> l) else None.

(** The [n] elements from index [i], and [memcpy] to index [i]. *)
Definition rds {A} (l : list A) (i n : Z) : option (list A) :=
  if (0 <=? i) && (0 <=? n) && (i + n <=? zlen l)
  then Some (take (Z.to_nat n) (drop (Z.to_nat i) l)) else None.

Definition wrs {A} (l : list A) (i : Z) (xs : list A) : option (list A) :=
  if (0 <=? i) && (i + zlen xs <=? zlen l)
  then Some (take (Z.to_nat i) l ++ xs ++ drop (Z.to_nat i + length xs) l) else None.

(** ** The monad

    A computation on a state [S] that has undefined behaviour ([None]) or returns. *)

Definition st (S A : Type) : Type := S -> option (A * S).

Definition st_ret {S A} (a : A) : st S A := fun s => Some (a, s).
Definition st_bind {S A B} (c : st S A) (k : A -> st S B) : st S B := fun s =>
  match c s with
  | Some (a, s') => k a s'
  | None => None
  end.
Definition st_get {S} : st S S := fun s => Some (s, s).
Definition st_put {S} (s : S) : st S unit := fun _ => Some (tt, s).
Definition st_mod {S} (f : S -> S) : st S unit := fun s => Some (tt, f s).

Declare Scope st_scope.
Delimit Scope st_scope with st.
Notation "'let*' x := c 'in' k" := (st_bind c (fun x => k))
  (at level 10, x pattern, c at level 100, k at level 200) : st_scope.

(** ** xz_lzma2.h *)

Definition RC_SHIFT_BITS : Z := 8.
Definition RC_TOP_VALUE : Z := 2 ^ 24.
Definition RC_BIT_MODEL_TOTAL_BITS : Z := 11.
Definition RC_BIT_MODEL_TOTAL : Z := 2 ^ 11.
Definition RC_MOVE_BITS : Z := 5.
Definition RC_INIT_BYTES : Z := 5.
Definition LZMA_IN_REQUIRED : Z := 21.
Definition POS_STATES_MAX : Z := 16.
Definition STATES : Z := 12.
Definition LIT_STATES : Z := 7.
Definition LITERAL_CODER_SIZE : Z := 0x300.
Definition LITERAL_CODERS_MAX : Z := 16.
Definition MATCH_LEN_MIN : Z := 2.
Definition LEN_LOW_SYMBOLS : Z := 8.
Definition LEN_MID_SYMBOLS : Z := 8.
Definition LEN_HIGH_SYMBOLS : Z := 256.
Definition DIST_STATES : Z := 4.
Definition DIST_SLOTS : Z := 64.
Definition DIST_MODEL_START : Z := 4.
Definition DIST_MODEL_END : Z := 14.
Definition FULL_DISTANCES : Z := 128.
Definition ALIGN_BITS : Z := 4.
Definition ALIGN_SIZE : Z := 16.
Definition PROBS_TOTAL : Z := 1846 + LITERAL_CODERS_MAX * LITERAL_CODER_SIZE.

(** [enum lzma_state] is used as an integer: compared with [<] and decremented. *)
Definition STATE_LIT_LIT : Z := 0.
Definition STATE_MATCH_LIT_LIT : Z := 1.
Definition STATE_REP_LIT_LIT : Z := 2.
Definition STATE_SHORTREP_LIT_LIT : Z := 3.
Definition STATE_MATCH_LIT : Z := 4.
Definition STATE_REP_LIT : Z := 5.
Definition STATE_SHORTREP_LIT : Z := 6.
Definition STATE_LIT_MATCH : Z := 7.
Definition STATE_LIT_LONGREP : Z := 8.
Definition STATE_LIT_SHORTREP : Z := 9.
Definition STATE_NONLIT_MATCH : Z := 10.
Definition STATE_NONLIT_REP : Z := 11.

Definition lzma_state_literal (state : Z) : Z :=
  if state <=? STATE_SHORTREP_LIT_LIT then STATE_LIT_LIT
  else if state <=? STATE_LIT_SHORTREP then state - 3
  else state - 6.

Definition lzma_state_match (state : Z) : Z :=
  if state <? LIT_STATES then STATE_LIT_MATCH else STATE_NONLIT_MATCH.

Definition lzma_state_long_rep (state : Z) : Z :=
  if state <? LIT_STATES then STATE_LIT_LONGREP else STATE_NONLIT_REP.

Definition lzma_state_short_rep (state : Z) : Z :=
  if state <? LIT_STATES then STATE_LIT_SHORTREP else STATE_NONLIT_REP.

Definition lzma_state_is_literal (state : Z) : bool := state <? LIT_STATES.

Definition lzma_get_dist_state (len : Z) : Z :=
  if len <? DIST_STATES + MATCH_LEN_MIN then u32 (len - MATCH_LEN_MIN) else DIST_STATES - 1.

(** ** Lemmas on arrays *)

Lemma zlen_nonneg {A} (l : list A) : 0 <= zlen l.
Proof. unfold zlen. lia. Qed.

Lemma rd_Some {A} (l : list A) i : 0 <= i < zlen l -> exists x, rd l i = Some x.
Proof.
  intros Hi. unfold rd, zlen in *. destruct (Z.leb_spec 0 i); [|lia].
  apply lookup_lt_is_Some. lia.
Qed.

Lemma rd_inv {A} (l : list A) i x : rd l i = Some x -> 0 <= i < zlen l.
Proof.
  unfold rd, zlen. destruct (Z.leb_spec 0 i); [|done]. intros Hl%lookup_lt_Some. lia.
Qed.

Lemma rd_Forall {A} (P : A -> Prop) (l : list A) i x : Forall P l -> rd l i = Some x -> P x.
Proof.
  unfold rd. intros HP. destruct (Z.leb_spec 0 i); [|done]. intros E.
  by eapply Forall_lookup_1.
Qed.

Lemma wr_Some {A} (l : list A) i x :
  0 <= i < zlen l -> wr l i x = Some (<[Z.to_nat i := x]> l).
Proof.
  intros Hi. unfold wr. destruct (Z.leb_spec 0 i); [|lia]. by destruct (Z.ltb_spec i (zlen l)); [|lia].
Qed.

Lemma wr_inv {A} (l : list A) i x l' :
  wr l i x = Some l' -> 0 <= i < zlen l /\ l' = <[Z.to_nat i := x]> l.
Proof.
  unfold wr. destruct (Z.leb_spec 0 i); [|done]. destruct (Z.ltb_spec i (zlen l)); [|done].
  by intros [= <-].
Qed.

Lemma zlen_insert {A} (l : list A) i x : zlen (<[i := x]> l) = zlen l.
Proof. unfold zlen. by rewrite length_insert. Qed.

Lemma rd_insert {A} (l : list A) i j x :
  0 <= i < zlen l -> rd (<[Z.to_nat i := x]> l) j = if i =? j then Some x else rd l j.
Proof.
  intros Hi. unfold rd, zlen in *. destruct (Z.leb_spec 0 j).
  - destruct (Z.eqb_spec i j) as [<-|]; [apply list_lookup_insert_eq; lia|].
    apply list_lookup_insert_ne. lia.
  - by destruct (Z.eqb_spec i j); [lia|].
Qed.

Lemma rds_Some {A} (l : list A) i n :
  0 <= i -> 0 <= n -> i + n <= zlen l ->
  rds l i n = Some (take (Z.to_nat n) (drop (Z.to_nat i) l)).
Proof.
  intros. unfold rds. destruct (Z.leb_spec 0 i); [|lia]. destruct (Z.leb_spec 0 n); [|lia].
  by destruct (Z.leb_spec (i + n) (zlen l)); [|lia].
Qed.

Lemma rds_zlen {A} (l xs : list A) i n : rds l i n = Some xs -> zlen xs = n.
Proof.
  unfold rds, zlen. destruct (Z.leb_spec 0 i); [|done]. destruct (Z.leb_spec 0 n); [|done].
  destruct (Z.leb_spec (i + n) (Z.of_nat (length l))); [|done]. simpl. intros [= <-].
  rewrite length_take, length_drop. lia.
Qed.

Lemma rds_lookup {A} (l xs : list A) i n (j : Z) :
  rds l i n = Some xs -> 0 <= j < n -> rd xs j = rd l (i + j).
Proof.
  unfold rds, rd. intros H Hj. destruct (Z.leb_spec 0 i); [|done]. destruct (Z.leb_spec 0 n); [|done].
  destruct (Z.leb_spec (i + n) (zlen l)); [|done]. simpl in H. injection H as <-.
  destruct (Z.leb_spec 0 j); [|lia]. destruct (Z.leb_spec 0 (i + j)); [|lia].
  rewrite lookup_take_lt, lookup_drop by lia. f_equal. lia.
Qed.

Lemma wrs_Some {A} (l xs : list A) i :
  0 <= i -> i + zlen xs <= zlen l -> exists l', wrs l i xs = Some l'.
Proof.
  intros. unfold wrs. destruct (Z.leb_spec 0 i); [|lia].
  destruct (Z.leb_spec (i + zlen xs) (zlen l)); [|lia]. by eexists.
Qed.

Lemma wrs_zlen {A} (l xs l' : list A) i : wrs l i xs = Some l' -> zlen l' = zlen l.
Proof.
  unfold wrs, zlen. destruct (Z.leb_spec 0 i); [|done].
  destruct (Z.leb_spec (i + Z.of_nat (length xs)) (Z.of_nat (length l))); [|done].
  intros [= <-]. rewrite !length_app, length_take, length_drop. lia.
Qed.

(** A copy changes exactly the elements it writes. *)
Lemma wrs_rd {A} (l xs l' : list A) i j :
  wrs l i xs = Some l' ->
  rd l' j = if (i <=? j) && (j <? i + zlen xs) then rd xs (j - i) else rd l j.
Proof.
  unfold wrs, rd, zlen. destruct (Z.leb_spec 0 i); [|done].
  destruct (Z.leb_spec (i + Z.of_nat (length xs)) (Z.of_nat (length l))); [|done].
  simpl. intros [= <-]. destruct (Z.leb_spec 0 j); cycle 1.
  { by destruct (Z.leb_spec i j); [lia|]. }
  destruct (Z.leb_spec i j); simpl.
  - destruct (Z.leb_spec 0 (j - i)); [|lia]. rewrite lookup_app_r by (rewrite length_take; lia).
    rewrite length_take.
    destruct (Z.ltb_spec j (i + Z.of_nat (length xs))).
    + rewrite lookup_app_l by lia. f_equal. lia.
    + rewrite lookup_app_r by lia. rewrite lookup_drop. f_equal. lia.
  - rewrite lookup_app_l by (rewrite length_take; lia). apply lookup_take_lt. lia.
Qed.

Lemma wrs_Forall {A} (P : A -> Prop) (l xs l' : list A) i :
  Forall P l -> Forall P xs -> wrs l i xs = Some l' -> Forall P l'.
Proof.
  unfold wrs. intros Hl Hx. destruct (0 <=? i); [|done].
  destruct (i + zlen xs <=? zlen l); [|done]. intros [= <-].
  apply Forall_app; split; [by apply Forall_take|].
  apply Forall_app; split; [done|by apply Forall_drop].
Qed.

Lemma rds_Forall {A} (P : A -> Prop) (l xs : list A) i n :
  Forall P l -> rds l i n = Some xs -> Forall P xs.
Proof.
  unfold rds. intros Hl. destruct (_ && _); [|done]. intros [= <-].
  by apply Forall_take, Forall_drop.
Qed.

(** ** The LZMA state machine *)

(** The twelve states are closed under the four transitions, and the state says whether
    the last symbol was a literal. *)
Lemma lzma_state_ok st :
  0 <= st < STATES ->
  (0 <= lzma_state_literal st < LIT_STATES)
  /\ (LIT_STATES <= lzma_state_match st < STATES)
  /\ (LIT_STATES <= lzma_state_long_rep st < STATES)
  /\ (LIT_STATES <= lzma_state_short_rep st < STATES).
Proof.
  unfold lzma_state_literal, lzma_state_match, lzma_state_long_rep, lzma_state_short_rep,
    STATE_SHORTREP_LIT_LIT, STATE_LIT_LIT, STATE_LIT_SHORTREP, STATE_LIT_MATCH,
    STATE_NONLIT_MATCH, STATE_LIT_LONGREP, STATE_NONLIT_REP, LIT_STATES, STATES.
  intros. repeat case_Z; lia.
Qed.
