(* ===== verification/XzRange.v ===== *)
(** * The range decoder (xz-embedded/xz_dec_lzma2.c, "Range decoder")

    The range decoder, the bit trees on top of it, and the bound on the input they read. *)

From S2P Require Import Prelude XzDefs.
#[local] Open Scope st_scope.

(** [struct rc_dec]; [rc_in] is the array [in] points to. *)
Record rc_dec := RC {
  rc_range : Z; rc_code : Z; init_bytes_left : Z;
  rc_in : list Z; rc_in_pos : Z; rc_in_limit : Z }.

Definition set_rc_input (l : list Z) (pos limit : Z) (rc : rc_dec) : rc_dec :=
  RC (rc_range rc) (rc_code rc) (init_bytes_left rc) l pos limit.

(** A member array of [struct lzma_dec] in the block of probabilities that starts at
    [is_match[0]]: its offset and its number of elements. *)
Record arr := Arr { a_base : Z; a_len : Z }.

(** The state the range decoder works on: itself and the probabilities. *)
Definition rcs : Type := rc_dec * list Z.

Definition rc_reset (rc : rc_dec) : rc_dec :=
  RC (u32 (-1)) 0 RC_INIT_BYTES (rc_in rc) (rc_in_pos rc) (rc_in_limit rc).

(** The loop runs at most [init_bytes_left] times. *)
Fixpoint read_init_loop (n : nat) (rc : rc_dec) (b : xz_buf) : option (bool * rc_dec * xz_buf) :=
  match n with
  | O => Some (true, rc, b)
  | S n' =>
    if b_in_pos b =? in_size b then Some (false, rc, b)
    else
      x ← rd (b_in b) (b_in_pos b);
      read_init_loop n'
        (RC (rc_range rc) (u32 (u32 (Z.shiftl (rc_code rc) 8) + x)) (init_bytes_left rc - 1)
           (rc_in rc) (rc_in_pos rc) (rc_in_limit rc))
        (set_in_pos (b_in_pos b + 1) b)
  end.

Definition rc_read_init (rc : rc_dec) (b : xz_buf) : option (bool * rc_dec * xz_buf) :=
  read_init_loop (Z.to_nat (init_bytes_left rc)) rc b.

Definition rc_limit_exceeded (rc : rc_dec) : bool := rc_in_limit rc <? rc_in_pos rc.

Definition rc_is_finished (rc : rc_dec) : bool := rc_code rc =? 0.

Definition rc_normalize (rc : rc_dec) : option rc_dec :=
  if rc_range rc <? RC_TOP_VALUE then
    x ← rd (rc_in rc) (rc_in_pos rc);
    Some (RC (u32 (Z.shiftl (rc_range rc) RC_SHIFT_BITS))
            (u32 (u32 (Z.shiftl (rc_code rc) RC_SHIFT_BITS) + x)) (init_bytes_left rc)
            (rc_in rc) (rc_in_pos rc + 1) (rc_in_limit rc))
  else Some rc.

(** Access to element [i] of a probability array. *)
Definition prob_index (a : arr) (i : Z) : option Z :=
  if (0 <=? i) && (i <? a_len a) then Some (a_base a + i) else None.

Definition set_rc (range code : Z) (rc : rc_dec) : rc_dec :=
  RC range code (init_bytes_left rc) (rc_in rc) (rc_in_pos rc) (rc_in_limit rc).

(** [rc_bit(rc, &a[i])]. *)
Definition rc_bit (a : arr) (i : Z) : st rcs Z := fun '(rc, probs) =>
  rc ← rc_normalize rc;
  j ← prob_index a i;
  prob ← rd probs j;
  let bound := u32 (Z.shiftr (rc_range rc) RC_BIT_MODEL_TOTAL_BITS * prob) in
  if rc_code rc <? bound then
    probs ← wr probs j (u16 (prob + Z.shiftr (RC_BIT_MODEL_TOTAL - prob) RC_MOVE_BITS));
    Some (0, (set_rc bound (rc_code rc) rc, probs))
  else
    probs ← wr probs j (u16 (prob - Z.shiftr prob RC_MOVE_BITS));
    Some (1, (set_rc (u32 (rc_range rc - bound)) (u32 (rc_code rc - bound)) rc, probs)).

(** The bit trees start at element [off] of an array.  [fuel] bounds the rounds of the
    loops: [symbol] is a 32-bit integer that doubles in every round, so 32 are enough. *)
Definition RC_FUEL : nat := 32.

Fixpoint bittree_loop (fuel : nat) (a : arr) (off symbol limit : Z) : st rcs Z :=
  match fuel with
  | O => fun _ => None
  | S fuel' =>
    let* bit := rc_bit a (off + symbol) in
    let symbol := if truthy bit then u32 (Z.shiftl symbol 1 + 1) else u32 (Z.shiftl symbol 1) in
    if symbol <? limit then bittree_loop fuel' a off symbol limit else st_ret symbol
  end.

Definition rc_bittree (a : arr) (off limit : Z) : st rcs Z := bittree_loop RC_FUEL a off 1 limit.

Fixpoint bittree_reverse_loop (fuel : nat) (a : arr) (off symbol i dest limit : Z) : st rcs Z :=
  match fuel with
  | O => fun _ => None
  | S fuel' =>
    let* bit := rc_bit a (off + symbol) in
    let '(symbol, dest) :=
      if truthy bit then (u32 (Z.shiftl symbol 1 + 1), u32 (dest + Z.shiftl 1 i))
      else (u32 (Z.shiftl symbol 1), dest) in
    if i + 1 <? limit then bittree_reverse_loop fuel' a off symbol (i + 1) dest limit
    else st_ret dest
  end.

Definition rc_bittree_reverse (a : arr) (off dest limit : Z) : st rcs Z :=
  bittree_reverse_loop RC_FUEL a off 1 0 dest limit.

Fixpoint direct_loop (fuel : nat) (dest limit : Z) : st rcs Z :=
  match fuel with
  | O => fun _ => None
  | S fuel' => fun '(rc, probs) =>
    rc ← rc_normalize rc;
    let range := Z.shiftr (rc_range rc) 1 in
    let code := u32 (rc_code rc - range) in
    let mask := u32 (0 - Z.shiftr code 31) in
    let code := u32 (code + Z.land range mask) in
    let dest := u32 (u32 (Z.shiftl dest 1) + u32 (mask + 1)) in
    let limit := u32 (limit - 1) in
    if 0 <? limit then direct_loop fuel' dest limit (set_rc range code rc, probs)
    else Some (dest, (set_rc range code rc, probs))
  end.

Definition rc_direct (dest limit : Z) : st rcs Z := direct_loop RC_FUEL dest limit.

(** * What the range decoder reads

    The invariant of the range decoder, the bound on its input, and the results of the
    bit trees. *)

(** ** Probabilities *)

(** An adaptive probability never leaves this interval, so neither half of the range is
    ever empty. *)
Definition prob_ok (p : Z) : Prop := 31 <= p <= 2017.

Lemma prob_up_ok p : prob_ok p -> prob_ok (u16 (p + Z.shiftr (RC_BIT_MODEL_TOTAL - p) RC_MOVE_BITS)).
Proof.
  unfold prob_ok, RC_BIT_MODEL_TOTAL, RC_MOVE_BITS. intros Hp.
  rewrite Z.shiftr_div_pow2 by lia. change (2 ^ 5) with 32. change (2 ^ 11) with 2048.
  assert (H : 31 <= p + (2048 - p) / 32 <= 2017) by (Z.to_euclidean_division_equations; lia). rewrite u16_small; lia.
Qed.

Lemma prob_down_ok p : prob_ok p -> prob_ok (u16 (p - Z.shiftr p RC_MOVE_BITS)).
Proof.
  unfold prob_ok, RC_MOVE_BITS. intros Hp.
  rewrite Z.shiftr_div_pow2 by lia. change (2 ^ 5) with 32.
  assert (H : 31 <= p - p / 32 <= 2017) by (Z.to_euclidean_division_equations; lia). rewrite u16_small; lia.
Qed.

(** ** The range and the input it has cost *)

(** What the range is at least between two symbols: the smallest half of the smallest
    normalised range. *)
Definition RC_MIN : Z := 253952.

Definition rc_ok (s : rcs) : Prop :=
  RC_MIN <= rc_range (fst s) < 2 ^ 32 /\ 0 <= rc_code (fst s) < 2 ^ 32
  /\ Forall prob_ok (snd s) /\ zlen (snd s) = PROBS_TOTAL.

(** Reaching [s] from [s0] by [k] modelled and [d] direct bits: each modelled bit divides
    the range by at most 67, each direct bit by at most 1025/512, each byte read
    multiplies it by 256. *)
Definition budget (s0 : rcs) (k d : Z) (s : rcs) : Prop :=
  rc_ok s0 /\ rc_ok s /\ 0 <= k /\ 0 <= d
  /\ rc_in (fst s) = rc_in (fst s0) /\ rc_in_limit (fst s) = rc_in_limit (fst s0)
  /\ init_bytes_left (fst s) = init_bytes_left (fst s0)
  /\ rc_in_pos (fst s0) <= rc_in_pos (fst s) <= rc_in_pos (fst s0) + 20
  /\ rc_range (fst s0) * 256 ^ (rc_in_pos (fst s) - rc_in_pos (fst s0)) * 512 ^ d
     <= rc_range (fst s) * (67 ^ k * 1025 ^ d).

Lemma budget_init s : rc_ok s -> budget s 0 0 s.
Proof.
  intros H. split_and!; try done; try lia. rewrite Z.sub_diag, !Z.pow_0_r. lia.
Qed.

(** The bits of one symbol: at most 22 modelled bits and 26 direct ones (a match with a
    long distance), or 24 modelled bits alone.  The last modelled bit normalises before it
    shrinks the range, so 21 of them count in the first case. *)
Definition cheap (k d : Z) : Prop := 0 <= k /\ 0 <= d /\ (k <= 21 /\ d <= 26 \/ k <= 24 /\ d = 0).

Lemma cheap_le k k' d : cheap k d -> 0 <= k' <= k -> cheap k' d.
Proof. unfold cheap. lia. Qed.

Lemma cheap_cost k d : cheap k d -> 67 ^ k * (1025 ^ d * 512 ^ (26 - d)) <= 67 ^ 21 * 1025 ^ 26.
Proof.
  intros (Hk0 & Hd0 & [[Hk Hd]|[Hk ->]]).
  - assert (A : 1025 ^ d * 512 ^ (26 - d) <= 1025 ^ 26).
    { replace 26 with (d + (26 - d)) at 2 by lia. rewrite Z.pow_add_r by lia.
      apply Z.mul_le_mono_nonneg_l; [apply Z.pow_nonneg; lia|]. apply Z.pow_le_mono_l; lia. }
    apply Z.mul_le_mono_nonneg; [apply Z.pow_nonneg; lia|apply Z.pow_le_mono_r; lia| |done].
    apply Z.mul_nonneg_nonneg; apply Z.pow_nonneg; lia.
  - assert (A : 67 ^ k <= 67 ^ 24) by (by apply Z.pow_le_mono_r).
    assert (P : 0 <= 1025 ^ 0 * 512 ^ (26 - 0)) by (apply Z.leb_le; vm_compute; reflexivity).
    transitivity (67 ^ 24 * (1025 ^ 0 * 512 ^ (26 - 0))); [by apply Z.mul_le_mono_nonneg_r|].
    apply Z.leb_le. vm_compute. reflexivity.
Qed.

(** The bound of the comment on [LZMA_IN_REQUIRED]: a symbol reads at most 20 bytes. *)
Lemma budget_bytes r0 n r k d :
  RC_MIN <= r0 -> 0 <= r < 2 ^ 32 -> 0 <= n -> cheap k d ->
  r0 * 256 ^ n * 512 ^ d <= r * (67 ^ k * 1025 ^ d) -> n <= 20.
Proof.
  intros H0 Hr Hn Hc H. destruct (decide (n <= 20)); [done|]. exfalso.
  pose proof (cheap_cost k d Hc) as Hcost. destruct Hc as (Hk & Hd & Hc).
  assert (Hd26 : d <= 26) by lia. clear Hc.
  assert (A1 : 256 ^ 21 <= 256 ^ n) by (apply Z.pow_le_mono_r; lia).
  assert (P1 : 0 < 512 ^ d) by (apply Z.pow_pos_nonneg; lia).
  assert (P2 : 0 < 1025 ^ d) by (apply Z.pow_pos_nonneg; lia).
  assert (P3 : 0 < 67 ^ k) by (apply Z.pow_pos_nonneg; lia).
  assert (P4 : 0 < 512 ^ (26 - d)) by (apply Z.pow_pos_nonneg; lia).
  assert (A4 : 512 ^ d * 512 ^ (26 - d) = 512 ^ 26).
  { rewrite <-Z.pow_add_r by lia. f_equal. lia. }
  assert (A5 : RC_MIN * 256 ^ 21 * 512 ^ d <= 2 ^ 32 * (67 ^ k * 1025 ^ d)).
  { etrans; [etrans; [|exact H]|].
    - apply Z.mul_le_mono_nonneg_r; [lia|]. apply Z.mul_le_mono_nonneg; lia || done.
    - apply Z.mul_le_mono_nonneg_r; [|lia]. apply Z.mul_nonneg_nonneg; lia. }
  assert (A6 : RC_MIN * 256 ^ 21 * 512 ^ 26 <= 2 ^ 32 * (67 ^ 21 * 1025 ^ 26)).
  { rewrite <-A4. etrans.
    - rewrite Z.mul_assoc. apply Z.mul_le_mono_nonneg_r; [lia|]. exact A5.
    - rewrite <-!Z.mul_assoc. apply Z.mul_le_mono_nonneg_l; [lia|]. exact Hcost. }
  apply Z.leb_le in A6. vm_compute in A6. discriminate A6.
Qed.

(** A normalised range, and the input it took to get there. *)
Lemma rc_normalize_ok s0 k d rc probs :
  budget s0 k d (rc, probs) -> cheap k d ->
  rc_in_pos (fst s0) + 20 <= zlen (rc_in (fst s0)) -> 0 <= rc_in_pos (fst s0) ->
  exists rc', rc_normalize rc = Some rc' /\ budget s0 k d (rc', probs)
    /\ RC_TOP_VALUE <= rc_range rc'.
Proof.
  intros (H0 & Hs & Hk & Hd & Hin & Hl & Hi & Hp & Hb) Hch Hlen Hpos. unfold rc_normalize.
  destruct (Z.ltb_spec (rc_range rc) RC_TOP_VALUE) as [Hr|Hr]; cycle 1.
  { exists rc. by split_and!. }
  destruct Hs as (Hrange & Hcode & Hprobs & Hplen). simpl in *.
  assert (Hn : rc_in_pos rc - rc_in_pos (fst s0) + 1 <= 20).
  { apply (budget_bytes (rc_range (fst s0)) _ (rc_range rc * 256) k d); try lia.
    - apply H0.
    - unfold RC_TOP_VALUE, RC_MIN in *. lia.
    - done.
    - rewrite Z.pow_add_r, Z.pow_1_r by lia. nia. }
  destruct (rd_Some (rc_in rc) (rc_in_pos rc)) as [x Hx]; [rewrite Hin; lia|].
  rewrite Hx. simpl. eexists. split; [done|].
  rewrite Z.shiftl_mul_pow2 by (unfold RC_SHIFT_BITS; lia). change (2 ^ RC_SHIFT_BITS) with 256.
  unfold RC_TOP_VALUE, RC_MIN in *. rewrite (u32_small (rc_range rc * 256)) by lia.
  split; [|simpl; lia].
  split_and!; simpl; try done; try lia; [split_and!; simpl|]; try done; try (unfold RC_MIN; lia).
  - apply u32_range.
  - apply u32_range.
  - replace (rc_in_pos rc + 1 - rc_in_pos (fst s0)) with (rc_in_pos rc - rc_in_pos (fst s0) + 1) by lia.
    rewrite Z.pow_add_r, Z.pow_1_r by lia. nia.
Qed.

Definition arr_ok (a : arr) : Prop := 0 <= a_base a /\ a_base a + a_len a <= PROBS_TOTAL.

(** The input is long enough for one symbol starting from [s0]. *)
Definition fits (s0 : rcs) : Prop :=
  0 <= rc_in_pos (fst s0) /\ rc_in_pos (fst s0) + 20 <= zlen (rc_in (fst s0)).

(** Whatever the code is, a bit is decoded within the array and the input, and divides
    the range by at most 67. *)
Lemma rc_bit_ok s0 k d s a i :
  budget s0 k d s -> cheap k d -> fits s0 -> arr_ok a -> 0 <= i < a_len a ->
  exists bit s', rc_bit a i s = Some (bit, s') /\ (bit = 0 \/ bit = 1) /\ budget s0 (k + 1) d s'.
Proof.
  intros Hb Hch [Hf1 Hf2] [Ha1 Ha2] Hi. destruct s as [rc probs]. unfold rc_bit.
  destruct (rc_normalize_ok s0 k d rc probs Hb Hch Hf2 Hf1) as (rc' & -> & Hb' & Hr). simpl.
  unfold prob_index. destruct (Z.leb_spec 0 i); [|lia]. destruct (Z.ltb_spec i (a_len a)); [|lia].
  simpl. destruct Hb' as (Hs0 & (Hrange & Hcode & Hprobs & Hplen) & Hk0 & Hd0 & Hin & Hl & Hil & Hp & Hle).
  simpl in *.
  destruct (rd_Some probs (a_base a + i)) as [p Hprob]; [lia|]. rewrite Hprob. simpl.
  pose proof (rd_Forall _ _ _ _ Hprobs Hprob) as Hpo.
  unfold RC_TOP_VALUE, RC_BIT_MODEL_TOTAL_BITS, RC_MIN in *. rewrite Z.shiftr_div_pow2 by lia.
  change (2 ^ 11) with 2048. set (q := rc_range rc' / 2048).
  assert (Hq : 8192 <= q /\ 2048 * q <= rc_range rc' < 2048 * q + 2048)
    by (unfold q; Z.to_euclidean_division_equations; lia).
  assert (Hbnd : 31 * q <= q * p <= 2017 * q) by (unfold prob_ok in Hpo; nia).
  rewrite (u32_small (q * p)) by lia.
  (* both halves of the range satisfy the invariant *)
  assert (Hstep : forall r c p', 31 * q <= r <= rc_range rc' -> 0 <= c < 2 ^ 32 -> prob_ok p' ->
    budget s0 (k + 1) d (set_rc r c rc', <[Z.to_nat (a_base a + i) := p']> probs)).
  { intros r c p' Hr' Hc Hp'. split_and!; simpl; try done; try lia.
    - split_and!; simpl; try lia; [unfold RC_MIN; lia|by apply Forall_insert|by rewrite zlen_insert].
    - rewrite Z.pow_add_r, Z.pow_1_r by lia.
      etrans; [exact Hle|]. rewrite <-!Z.mul_assoc, (Z.mul_comm 67), !Z.mul_assoc.
      assert (0 < 67 ^ k) by (apply Z.pow_pos_nonneg; lia).
      assert (0 < 1025 ^ d) by (apply Z.pow_pos_nonneg; lia).
      rewrite <-!(Z.mul_assoc _ _ 67), (Z.mul_comm _ 67), !Z.mul_assoc.
      assert (0 < 67 ^ k * 1025 ^ d) by nia.
      assert (rc_range rc' <= r * 67) by lia. nia. }
  destruct (Z.ltb_spec (rc_code rc') (q * p)); rewrite wr_Some by lia; simpl; do 2 eexists;
    (split; [done|]); (split; [auto|]); apply Hstep;
    rewrite ?(u32_small (rc_range rc' - q * p)) by lia; try lia;
    try (by apply prob_up_ok); try (by apply prob_down_ok); try apply u32_range.
Qed.

(** ** Bit trees *)

Lemma shiftl1 x : Z.shiftl x 1 = 2 * x.
Proof. rewrite Z.shiftl_mul_pow2 by lia. lia. Qed.

(** The next node of a tree. *)
Lemma tree_child bit symbol j :
  bit = 0 \/ bit = 1 -> 0 <= j < 30 -> 2 ^ j <= symbol < 2 ^ (j + 1) ->
  2 ^ (j + 1) <= (if truthy bit then u32 (Z.shiftl symbol 1 + 1) else u32 (Z.shiftl symbol 1))
    < 2 ^ (j + 1 + 1).
Proof.
  intros Hb Hj Hs. rewrite !shiftl1. rewrite !Z.pow_add_r, !Z.pow_1_r in * by lia.
  assert (2 ^ j <= 2 ^ 29) by (apply Z.pow_le_mono_r; lia).
  assert (2 ^ 29 = 536870912) by done.
  destruct Hb as [-> | ->]; simpl; rewrite u32_small; lia.
Qed.

(** A tree of [2^m] leaves decodes [m] bits within its array and returns a leaf. *)
Lemma bittree_loop_ok s0 d a off n :
  fits s0 -> arr_ok a -> 0 <= off ->
  forall fuel k j symbol s,
  budget s0 k d s -> cheap (k + Z.of_nat n - 1) d -> 0 <= k -> (n <= fuel)%nat -> (1 <= n)%nat ->
  0 <= j -> j + Z.of_nat n <= 30 -> 2 ^ j <= symbol < 2 ^ (j + 1) ->
  off + 2 ^ (j + Z.of_nat n) <= a_len a ->
  exists sym s', bittree_loop fuel a off symbol (2 ^ (j + Z.of_nat n)) s = Some (sym, s')
    /\ budget s0 (k + Z.of_nat n) d s'
    /\ 2 ^ (j + Z.of_nat n) <= sym < 2 ^ (j + Z.of_nat n + 1).
Proof.
  intros Hf Ha Hoff. induction n as [|n IH]; intros fuel k j symbol s Hb Hk Hk0 Hfuel Hn Hj Hj30 Hsym Hlen; [lia|].
  destruct fuel as [|fuel]; [lia|]. cbn [bittree_loop]. unfold st_bind.
  assert (Hpow : 2 ^ (j + 1) <= 2 ^ (j + Z.of_nat (S n))) by (apply Z.pow_le_mono_r; lia).
  assert (0 < 2 ^ j) by (apply pow2_pos; lia).
  destruct (rc_bit_ok s0 k d s a (off + symbol)) as (bit & s1 & E & Hbit & Hb1); try done; try lia;
    [eapply cheap_le; [exact Hk|lia]|].
  rewrite E. pose proof (tree_child bit symbol j Hbit ltac:(lia) Hsym) as Hc.
  set (symbol' := if truthy bit then _ else _) in *. clearbody symbol'.
  destruct (decide (n = 0%nat)) as [->|Hn0].
  - change (Z.of_nat 1) with 1 in *.
    destruct (Z.ltb_spec symbol' (2 ^ (j + 1))); [lia|]. exists symbol', s1. split; [done|]. by split.
  - assert (Hlt : 2 ^ (j + 1 + 1) <= 2 ^ (j + Z.of_nat (S n))) by (apply Z.pow_le_mono_r; lia).
    destruct (Z.ltb_spec symbol' (2 ^ (j + Z.of_nat (S n)))); [|lia].
    replace (j + Z.of_nat (S n)) with (j + 1 + Z.of_nat n) in * by lia.
    destruct (IH fuel (k + 1) (j + 1) symbol' s1) as (sym & s' & E' & Hb' & Hs'); try done; try lia;
      [by replace (k + 1 + Z.of_nat n - 1) with (k + Z.of_nat (S n) - 1) by lia|].
    exists sym, s'. split; [done|]. split; [|done].
    by replace (k + Z.of_nat (S n)) with (k + 1 + Z.of_nat n) by lia.
Qed.

Lemma rc_bittree_ok s0 k d a off m s :
  budget s0 k d s -> fits s0 -> arr_ok a -> 0 <= off ->
  1 <= m <= 8 -> cheap (k + m - 1) d -> off + 2 ^ m <= a_len a ->
  exists sym s', rc_bittree a off (2 ^ m) s = Some (sym, s')
    /\ budget s0 (k + m) d s' /\ 2 ^ m <= sym < 2 ^ (m + 1).
Proof.
  intros Hb Hf Ha Hoff Hm Hk Hlen. unfold rc_bittree, RC_FUEL. assert (Hk0 : 0 <= k) by apply Hb.
  destruct (bittree_loop_ok s0 d a off (Z.to_nat m) Hf Ha Hoff 32 k 0 1 s)
    as (sym & s' & E & H & Hs); rewrite ?Z2Nat.id, ?Z.add_0_l in * by lia; try done; try lia.
  by exists sym, s'.
Qed.

(** The reverse tree adds [m] new low bits to [dest]. *)
Lemma bittree_reverse_loop_ok s0 d a off n dest0 :
  fits s0 -> arr_ok a -> 0 <= dest0 ->
  forall fuel k i symbol dest s,
  budget s0 k d s -> cheap (k + Z.of_nat n - 1) d -> 0 <= k -> (n <= fuel)%nat -> (1 <= n)%nat ->
  0 <= i -> i + Z.of_nat n <= 30 -> 2 ^ i <= symbol < 2 ^ (i + 1) ->
  0 <= off + 1 -> off + 2 ^ (i + Z.of_nat n) <= a_len a ->
  dest0 <= dest < dest0 + 2 ^ i -> dest0 + 2 ^ (i + Z.of_nat n) <= 2 ^ 32 ->
  exists dest' s', bittree_reverse_loop fuel a off symbol i dest (i + Z.of_nat n) s = Some (dest', s')
    /\ budget s0 (k + Z.of_nat n) d s'
    /\ dest0 <= dest' < dest0 + 2 ^ (i + Z.of_nat n).
Proof.
  intros Hf Ha Hd0. induction n as [|n IH];
    intros fuel k i symbol dest s Hb Hk Hk0 Hfuel Hn Hi Hi30 Hsym Hoff Hlen Hdest H32; [lia|].
  destruct fuel as [|fuel]; [lia|]. cbn [bittree_reverse_loop]. unfold st_bind.
  assert (Hpow : 2 ^ (i + 1) <= 2 ^ (i + Z.of_nat (S n))) by (apply Z.pow_le_mono_r; lia).
  assert (0 < 2 ^ i) by (apply pow2_pos; lia).
  assert (Hi1 : 2 ^ (i + 1) = 2 * 2 ^ i) by (rewrite Z.pow_add_r; lia).
  destruct (rc_bit_ok s0 k d s a (off + symbol)) as (bit & s1 & E & Hbit & Hb1); try done; try lia;
    [eapply cheap_le; [exact Hk|lia]|].
  rewrite E. pose proof (tree_child bit symbol i Hbit ltac:(lia) Hsym) as Hc.
  assert (Hdest' : dest0 <= (if truthy bit then u32 (dest + Z.shiftl 1 i) else dest) < dest0 + 2 ^ (i + 1)).
  { rewrite Z.shiftl_1_l. destruct Hbit as [-> | ->]; simpl; [|rewrite u32_small]; lia. }
  set (symbol' := if truthy bit then _ else _) in Hc.
  set (dest' := if truthy bit then _ else _) in Hdest'.
  replace (if truthy bit then _ else _) with (symbol', dest')
    by (unfold symbol', dest'; by destruct (truthy bit)).
  clearbody symbol' dest'. destruct (decide (n = 0%nat)) as [->|Hn0].
  - change (Z.of_nat 1) with 1 in *.
    destruct (Z.ltb_spec (i + 1) (i + 1)); [lia|]. exists dest', s1. split; [done|]. by split.
  - destruct (Z.ltb_spec (i + 1) (i + Z.of_nat (S n))); [|lia].
    replace (i + Z.of_nat (S n)) with (i + 1 + Z.of_nat n) in * by lia.
    destruct (IH fuel (k + 1) (i + 1) symbol' dest' s1) as (dst & s' & E' & Hb' & Hs'); try done; try lia;
      [by replace (k + 1 + Z.of_nat n - 1) with (k + Z.of_nat (S n) - 1) by lia|].
    exists dst, s'. split; [done|]. split; [|done].
    by replace (k + Z.of_nat (S n)) with (k + 1 + Z.of_nat n) by lia.
Qed.

Lemma rc_bittree_reverse_ok s0 k d a off dest m s :
  budget s0 k d s -> fits s0 -> arr_ok a -> 0 <= off + 1 ->
  1 <= m <= 8 -> cheap (k + m - 1) d -> off + 2 ^ m <= a_len a -> 0 <= dest -> dest + 2 ^ m <= 2 ^ 32 ->
  exists dest' s', rc_bittree_reverse a off dest m s = Some (dest', s')
    /\ budget s0 (k + m) d s' /\ dest <= dest' < dest + 2 ^ m.
Proof.
  intros Hb Hf Ha Hoff Hm Hk Hlen Hd0 H32. unfold rc_bittree_reverse, RC_FUEL.
  assert (Hk0 : 0 <= k) by apply Hb.
  destruct (bittree_reverse_loop_ok s0 d a off (Z.to_nat m) dest Hf Ha Hd0 32 k 0 1 dest s)
    as (dst & s' & E & H & Hs); rewrite ?Z2Nat.id, ?Z.add_0_l in * by lia; try done; try lia.
  by exists dst, s'.
Qed.

(** ** Direct bits *)

Lemma direct_bit code :
  0 <= code < 2 ^ 32 ->
  u32 (u32 (0 - Z.shiftr code 31) + 1) = 0 \/ u32 (u32 (0 - Z.shiftr code 31) + 1) = 1.
Proof.
  intros Hc. rewrite Z.shiftr_div_pow2 by lia.
  assert (H : code / 2 ^ 31 = 0 \/ code / 2 ^ 31 = 1)
    by (change (2 ^ 31) with 2147483648; Z.to_euclidean_division_equations; lia).
  destruct H as [-> | ->]; vm_compute; auto.
Qed.

(** Each direct bit appends a bit to [dest] and halves the range. *)
Lemma direct_loop_ok s0 k n :
  fits s0 -> k <= 21 ->
  forall fuel d dest s,
  budget s0 k d s -> d + Z.of_nat n <= 26 -> (n <= fuel)%nat -> (1 <= n)%nat ->
  0 <= dest -> (dest + 1) * 2 ^ Z.of_nat n <= 2 ^ 32 ->
  exists dest' s', direct_loop fuel dest (Z.of_nat n) s = Some (dest', s')
    /\ budget s0 k (d + Z.of_nat n) s'
    /\ dest * 2 ^ Z.of_nat n <= dest' < (dest + 1) * 2 ^ Z.of_nat n.
Proof.
  intros [Hf1 Hf2] Hk. induction n as [|n IH]; intros fuel d dest s Hb Hd Hfuel Hn Hdest H32; [lia|].
  destruct fuel as [|fuel]; [lia|]. cbn [direct_loop]. destruct s as [rc probs].
  assert (Hch : cheap k d) by (destruct Hb as (_ & _ & ? & ? & _); unfold cheap; lia).
  destruct (rc_normalize_ok s0 k d rc probs Hb Hch Hf2 Hf1) as (rc' & -> & Hb' & Hr). simpl.
  set (range := Z.shiftr (rc_range rc') 1). set (code := u32 (rc_code rc' - range)).
  set (mask := u32 (0 - Z.shiftr code 31)). set (code' := u32 (code + Z.land range mask)).
  assert (Hc : 0 <= code' < 2 ^ 32) by apply u32_range.
  assert (Hbit : u32 (mask + 1) = 0 \/ u32 (mask + 1) = 1) by (apply direct_bit, u32_range).
  clearbody code' mask. clear code.
  assert (Hb1 : budget s0 k (d + 1) (set_rc range code' rc', probs)).
  { destruct Hb' as (Hs0 & (Hrange & Hcode & Hprobs & Hplen) & Hk0 & Hd0 & Hin & Hl & Hil & Hp & Hle).
    simpl in *. assert (Hrr : rc_range rc' - 1 <= 2 * range <= rc_range rc').
    { unfold range. rewrite Z.shiftr_div_pow2 by lia. change (2 ^ 1) with 2.
      Z.to_euclidean_division_equations; lia. }
    unfold RC_TOP_VALUE in *. split_and!; simpl; try done; try lia.
    - split_and!; simpl; try done; unfold RC_MIN in *; lia.
    - rewrite !Z.pow_add_r, !Z.pow_1_r by lia.
      assert (0 < 67 ^ k) by (apply Z.pow_pos_nonneg; lia).
      assert (0 < 1025 ^ d) by (apply Z.pow_pos_nonneg; lia).
      assert (0 < 67 ^ k * 1025 ^ d) by nia.
      assert (rc_range rc' * 512 <= range * 1025) by lia. nia. }
  assert (Hdest' : 2 * dest <= u32 (u32 (Z.shiftl dest 1) + u32 (mask + 1)) <= 2 * dest + 1).
  { rewrite shiftl1. rewrite Nat2Z.inj_succ, Z.pow_succ_r in H32 by lia.
    assert (0 < 2 ^ Z.of_nat n) by (apply pow2_pos; lia).
    rewrite (u32_small (2 * dest)) by nia. destruct Hbit as [-> | ->]; rewrite u32_small; nia. }
  set (dest1 := u32 (u32 _ + _)) in *. clearbody dest1.
  assert (0 <= d) by apply Hb.
  rewrite (u32_small (Z.of_nat (S n) - 1)) by lia.
  rewrite Nat2Z.inj_succ, Z.pow_succ_r in * by lia.
  assert (Hpn : 0 < 2 ^ Z.of_nat n) by (apply pow2_pos; lia).
  destruct (decide (n = 0%nat)) as [->|Hn0].
  - change (2 ^ Z.of_nat 0) with 1. simpl. do 2 eexists. split; [done|]. split; [done|lia].
  - destruct (Z.ltb_spec 0 (Z.succ (Z.of_nat n) - 1)); [|lia].
    replace (Z.succ (Z.of_nat n) - 1) with (Z.of_nat n) by lia.
    destruct (IH fuel (d + 1) dest1 (set_rc range code' rc', probs)) as (dst & s' & E & Hb2 & Hs);
      try done; try lia; [nia|].
    exists dst, s'. split; [done|]. replace (d + Z.succ (Z.of_nat n)) with (d + 1 + Z.of_nat n) by lia.
    split; [done|nia].
Qed.

Lemma rc_direct_ok s0 k d dest m s :
  budget s0 k d s -> fits s0 -> k <= 21 -> 1 <= m -> d + m <= 26 -> 0 <= d -> 0 <= dest ->
  (dest + 1) * 2 ^ m <= 2 ^ 32 ->
  exists dest' s', rc_direct dest m s = Some (dest', s')
    /\ budget s0 k (d + m) s' /\ dest * 2 ^ m <= dest' < (dest + 1) * 2 ^ m.
Proof.
  intros Hb Hf Hk Hm Hd Hd0 Hdest H32. unfold rc_direct, RC_FUEL.
  destruct (direct_loop_ok s0 k (Z.to_nat m) Hf Hk 32 d dest s) as (dst & s' & E & H & Hs);
    rewrite ?Z2Nat.id in * by lia; try done; try lia.
  by exists dst, s'.
Qed.
