(* ===== verification/XzDict.v ===== *)
(** * The dictionary (xz-embedded/xz_dec_lzma2.c, "Dictionary")

    The history buffer.  In multi-call mode it is memory of its own, used as a circular
    buffer and copied to the caller's output; in single-call mode it is the caller's
    output buffer itself, which the decoder then writes through the dictionary. *)

From S2P Require Import Prelude XzDefs.

(** What [buf] points to: nothing, memory from [vmalloc], or [b->out] at an offset. *)
Inductive dbuf :=
| DictNull
| DictOwn (m : list Z)
| DictOut (off : Z).

Record dictionary := Dict {
  d_buf : dbuf; d_start : Z; d_pos : Z; d_full : Z; d_limit : Z; d_end : Z;
  d_size : Z; d_size_max : Z; d_allocated : Z; d_mode : xz_mode }.

(** [buf], the positions, and everything else unchanged. *)
Definition dict_upd (d : dictionary) (buf : dbuf) (start pos full limit : Z) : dictionary :=
  Dict buf start pos full limit (d_end d) (d_size d) (d_size_max d) (d_allocated d) (d_mode d).

(** [buf[i]], where [out] is the caller's output memory. *)
Definition load (buf : dbuf) (out : list Z) (i : Z) : option Z :=
  match buf with
  | DictNull => None
  | DictOwn m => rd m i
  | DictOut off => rd out (off + i)
  end.

(** The [n] bytes from [buf + i]. *)
Definition loads (buf : dbuf) (out : list Z) (i n : Z) : option (list Z) :=
  match buf with
  | DictNull => None
  | DictOwn m => rds m i n
  | DictOut off => rds out (off + i) n
  end.

(** [memcpy] of some bytes to [buf + i]. *)
Definition dict_store (buf : dbuf) (out : list Z) (i : Z) (xs : list Z) : option (dbuf * list Z) :=
  match buf with
  | DictNull => None
  | DictOwn m => m' ← wrs m i xs; Some (DictOwn m', out)
  | DictOut off => out' ← wrs out (off + i) xs; Some (DictOut off, out')
  end.

Definition dict_reset (d : dictionary) (b : xz_buf) : dictionary :=
  let buf := if DEC_IS_SINGLE (d_mode d) then DictOut (b_out_pos b) else d_buf d in
  let end_ := if DEC_IS_SINGLE (d_mode d) then usz (out_size b - b_out_pos b) else d_end d in
  Dict buf 0 0 0 0 end_ (d_size d) (d_size_max d) (d_allocated d) (d_mode d).

Definition dict_limit (d : dictionary) (out_max : Z) : dictionary :=
  let limit := if usz (d_end d - d_pos d) <=? out_max then d_end d else usz (d_pos d + out_max) in
  dict_upd d (d_buf d) (d_start d) (d_pos d) (d_full d) limit.

Definition dict_has_space (d : dictionary) : bool := d_pos d <? d_limit d.

Definition dict_get (d : dictionary) (out : list Z) (dist : Z) : option Z :=
  let offset := usz (d_pos d - dist - 1) in
  let offset := if d_pos d <=? dist then usz (offset + d_end d) else offset in
  if 0 <? d_full d then load (d_buf d) out offset else Some 0.

Definition dict_put (d : dictionary) (out : list Z) (byte : Z) : option (dictionary * list Z) :=
  '(buf, out) ← dict_store (d_buf d) out (d_pos d) [byte];
  let pos := d_pos d + 1 in
  let full := if d_full d <? pos then pos else d_full d in
  Some (dict_upd d buf (d_start d) pos full (d_limit d), out).

(** The [do] loop of [dict_repeat], [n] rounds. *)
Fixpoint repeat_loop (n : nat) (d : dictionary) (out : list Z) (back : Z)
  : option (dictionary * list Z) :=
  match n with
  | O => Some (d, out)
  | S n' =>
    x ← load (d_buf d) out back;
    '(buf, out) ← dict_store (d_buf d) out (d_pos d) [x];
    let back := back + 1 in
    repeat_loop n' (dict_upd d buf (d_start d) (d_pos d + 1) (d_full d) (d_limit d)) out
      (if back =? d_end d then 0 else back)
  end.

(** Rounds of [do { .. } while (--left > 0)] for a 32-bit [left]. *)
Definition do_while_rounds (left : Z) : Z := if left =? 0 then 2 ^ 32 else left.

(** Returns success, the length that remains, and the dictionary. *)
Definition dict_repeat (d : dictionary) (out : list Z) (len dist : Z)
  : option (bool * Z * dictionary * list Z) :=
  if (d_full d <=? dist) || (d_size d <=? dist) then Some (false, len, d, out)
  else
    let left := u32 (Z.min (usz (d_limit d - d_pos d)) len) in
    let back := usz (d_pos d - dist - 1) in
    let back := if d_pos d <=? dist then usz (back + d_end d) else back in
    '(d, out) ← repeat_loop (Z.to_nat (do_while_rounds left)) d out back;
    let full := if d_full d <? d_pos d then d_pos d else d_full d in
    Some (true, u32 (len - left), dict_upd d (d_buf d) (d_start d) (d_pos d) full (d_limit d), out).

(** The [while] loop copies at least one byte per round, so [left] rounds are enough. *)
Fixpoint uncompressed_loop (fuel : nat) (d : dictionary) (b : xz_buf) (left : Z)
  : option (dictionary * xz_buf * Z) :=
  if (0 <? left) && (b_in_pos b <? in_size b) && (b_out_pos b <? out_size b) then
    match fuel with
    | O => None
    | S fuel' =>
      let copy_size := Z.min (in_size b - b_in_pos b) (out_size b - b_out_pos b) in
      let copy_size :=
        if usz (d_end d - d_pos d) <? copy_size then usz (d_end d - d_pos d) else copy_size in
      let copy_size := if left <? copy_size then left else copy_size in
      let left := u32 (left - copy_size) in
      xs ← rds (b_in b) (b_in_pos b) copy_size;
      '(buf, out) ← dict_store (d_buf d) (b_out b) (d_pos d) xs;
      let pos := d_pos d + copy_size in
      let full := if d_full d <? pos then pos else d_full d in
      '(pos, out) ←
        (if DEC_IS_MULTI (d_mode d) then
           out ← wrs out (b_out_pos b) xs; Some (if pos =? d_end d then 0 else pos, out)
         else Some (pos, out));
      uncompressed_loop fuel' (dict_upd d buf pos pos full (d_limit d))
        (XB (b_in b) (b_in_pos b + copy_size) out (b_out_pos b + copy_size)) left
    end
  else Some (d, b, left).

Definition dict_uncompressed (d : dictionary) (b : xz_buf) (left : Z)
  : option (dictionary * xz_buf * Z) :=
  uncompressed_loop (S (Z.to_nat left)) d b left.

(** Returns the number of bytes flushed. *)
Definition dict_flush (d : dictionary) (b : xz_buf) : option (Z * dictionary * xz_buf) :=
  let copy_size := usz (d_pos d - d_start d) in
  '(pos, out) ←
    (if DEC_IS_MULTI (d_mode d) then
       xs ← loads (d_buf d) (b_out b) (d_start d) copy_size;
       out ← wrs (b_out b) (b_out_pos b) xs;
       Some (if d_pos d =? d_end d then 0 else d_pos d, out)
     else Some (d_pos d, b_out b));
  Some (u32 copy_size, dict_upd d (d_buf d) pos pos (d_full d) (d_limit d),
        XB (b_in b) (b_in_pos b) out (b_out_pos b + copy_size)).

(** * The dictionary holds the history

    The circular buffer represents the sequence of bytes decoded so far; every operation
    stays within the buffer and acts on that sequence. *)

(** Two lists that agree at every index are equal. *)
Lemma rd_ext {A} (l l' : list A) : (forall i, rd l i = rd l' i) -> l = l'.
Proof.
  intros H. apply list_eq. intros i. specialize (H (Z.of_nat i)). unfold rd in H.
  destruct (Z.leb_spec 0 (Z.of_nat i)); [|lia]. by rewrite Nat2Z.id in H.
Qed.

Lemma rd_None {A} (l : list A) i : i < 0 \/ zlen l <= i -> rd l i = None.
Proof.
  intros Hi. destruct (rd l i) eqn:E; [|done]. apply rd_inv in E. lia.
Qed.

Lemma rd_app {A} (l l' : list A) i :
  rd (l ++ l') i = if i <? zlen l then rd l i else rd l' (i - zlen l).
Proof.
  unfold rd, zlen. destruct (Z.leb_spec 0 i); cycle 1.
  { destruct (Z.ltb_spec i (Z.of_nat (length l))); [done|].
    destruct (Z.leb_spec 0 (i - Z.of_nat (length l))); [lia|done]. }
  destruct (Z.ltb_spec i (Z.of_nat (length l))).
  - by rewrite lookup_app_l by lia.
  - rewrite lookup_app_r by lia. destruct (Z.leb_spec 0 (i - Z.of_nat (length l))); [|lia].
    f_equal. lia.
Qed.

Lemma zlen_app {A} (l l' : list A) : zlen (l ++ l') = zlen l + zlen l'.
Proof. unfold zlen. rewrite length_app. lia. Qed.

Lemma rds_eq {A} (l xs ys : list A) i n :
  rds l i n = Some xs -> zlen ys = n -> (forall j, 0 <= j < n -> rd l (i + j) = rd ys j) -> xs = ys.
Proof.
  intros E Hn H. apply rd_ext. intros j. pose proof (rds_zlen _ _ _ _ E).
  destruct (decide (0 <= j < n)); [|rewrite !rd_None by lia; done].
  rewrite (rds_lookup _ _ _ _ j E) by done. by apply H.
Qed.

(** ** The memory *)

Definition dict_cap (buf : dbuf) (out : list Z) : Z :=
  match buf with
  | DictNull => 0
  | DictOwn m => zlen m
  | DictOut off => zlen out - off
  end.

Definition buf_ok (buf : dbuf) : Prop :=
  match buf with DictOut off => 0 <= off | _ => True end.

(** The same block of memory, with other contents. *)
Definition same_block (buf buf' : dbuf) : Prop :=
  match buf, buf' with
  | DictNull, DictNull => True
  | DictOwn m, DictOwn m' => zlen m' = zlen m
  | DictOut off, DictOut off' => off' = off
  | _, _ => False
  end.

Lemma load_Some buf out i : buf_ok buf -> 0 <= i < dict_cap buf out -> exists x, load buf out i = Some x.
Proof.
  destruct buf as [|m|off]; simpl; intros Hb Hi; [lia|by apply rd_Some|]. apply rd_Some. lia.
Qed.

(** What stores leave alone: memory of its own does not touch the output, and the output
    buffer is written from the position on. *)
Definition out_frame (buf : dbuf) (pos : Z) (out out' : list Z) : Prop :=
  match buf with
  | DictOut off => zlen out' = zlen out /\ forall j, j < off + pos -> rd out' j = rd out j
  | _ => out' = out
  end.

Lemma store_ok buf out i xs :
  buf_ok buf -> buf <> DictNull -> 0 <= i -> i + zlen xs <= dict_cap buf out ->
  exists buf' out', dict_store buf out i xs = Some (buf', out')
    /\ same_block buf buf' /\ dict_cap buf' out' = dict_cap buf out /\ out_frame buf i out out'
    /\ (forall j, 0 <= j ->
         load buf' out' j = if (i <=? j) && (j <? i + zlen xs) then rd xs (j - i) else load buf out j).
Proof.
  intros Hb Hn Hi Hc. destruct buf as [|m|off]; simpl in *; [done| |].
  - destruct (wrs_Some m xs i Hi Hc) as [m' E]. rewrite E. simpl. do 2 eexists. split; [done|].
    pose proof (wrs_zlen _ _ _ _ E). split_and!; try done. intros j _. by apply wrs_rd.
  - destruct (wrs_Some out xs (off + i)) as [out' E]; [lia|lia|]. rewrite E. simpl. do 2 eexists.
    split; [done|]. pose proof (wrs_zlen _ _ _ _ E). split_and!; simpl; try done; try lia.
    + intros j Hj. rewrite (wrs_rd _ _ _ _ _ E). by destruct (Z.leb_spec (off + i) j); [lia|].
    + intros j Hj. rewrite (wrs_rd _ _ _ _ _ E). replace (off + j - (off + i)) with (j - i) by lia.
      destruct (Z.leb_spec (off + i) (off + j)), (Z.leb_spec i j); try lia; try done. simpl.
      destruct (Z.ltb_spec (off + j) (off + i + zlen xs)), (Z.ltb_spec j (i + zlen xs)); lia || done.
Qed.

(** ** The history *)

(** Index in the buffer of the byte at distance [dist]. *)
Definition slot (pos end_ dist : Z) : Z := if dist <? pos then pos - dist - 1 else pos - dist - 1 + end_.

Record hist (buf : dbuf) (out : list Z) (pos full end_ : Z) (h : list Z) : Prop := {
  hist_buf : buf_ok buf /\ (buf = DictNull -> end_ = 0);
  hist_pos : 0 <= pos <= full /\ full <= end_ < 2 ^ 64;
  hist_cap : end_ <= dict_cap buf out;
  hist_full : full = Z.min (zlen h) end_;
  hist_wrap : full = pos \/ full = end_;
  hist_load : forall dist, 0 <= dist < full -> load buf out (slot pos end_ dist) = rd h (zlen h - 1 - dist);
  hist_byte : Forall is_byte h;
  hist_align : pos mod 16 = zlen h mod 16 }.

Lemma slot_range pos full end_ dist :
  0 <= pos <= full -> full <= end_ -> 0 <= dist < full -> 0 <= slot pos end_ dist < end_.
Proof. unfold slot. intros. destruct (Z.ltb_spec dist pos); lia. Qed.

(** Writing at the position appends to the history. *)
Lemma hist_append buf out pos full end_ h xs :
  hist buf out pos full end_ h -> Forall is_byte xs -> pos + zlen xs <= end_ -> 0 < end_ ->
  exists buf' out', dict_store buf out pos xs = Some (buf', out')
    /\ same_block buf buf' /\ out_frame buf pos out out'
    /\ hist buf' out' (pos + zlen xs)
         (if full <? pos + zlen xs then pos + zlen xs else full) end_ (h ++ xs).
Proof.
  intros [[Hb Hnull] Hp Hcap Hfull Hw Hl Hbyte Hal] Hx Hlen Hend. pose proof (zlen_nonneg xs).
  pose proof (zlen_nonneg h).
  destruct (store_ok buf out pos xs) as (buf' & out' & E & Hsb & Hc & Hof & Hld); try done; try lia.
  { intros ->. specialize (Hnull eq_refl). lia. }
  exists buf', out'. split; [done|]. split; [done|]. split; [done|].
  assert (Hbuf' : buf_ok buf' /\ (buf' = DictNull -> end_ = 0)).
  { destruct buf, buf'; simpl in *; try done. by subst. }
  split; try done; try lia.
  - destruct (Z.ltb_spec full (pos + zlen xs)); lia.
  - rewrite zlen_app. destruct (Z.ltb_spec full (pos + zlen xs)); lia.
  - destruct (Z.ltb_spec full (pos + zlen xs)); lia.
  - intros dist Hd. rewrite Hld by (unfold slot in *; destruct (Z.ltb_spec dist (pos + zlen xs));
      destruct (Z.ltb_spec full (pos + zlen xs)); lia).
    rewrite rd_app, zlen_app. destruct (Z.ltb_spec dist (zlen xs)).
    + unfold slot. destruct (Z.ltb_spec dist (pos + zlen xs)); [|lia].
      destruct (Z.leb_spec pos (pos + zlen xs - dist - 1)); [|lia].
      destruct (Z.ltb_spec (pos + zlen xs - dist - 1) (pos + zlen xs)); [|lia]. simpl.
      destruct (Z.ltb_spec (zlen h + zlen xs - 1 - dist) (zlen h)); [lia|]. f_equal. lia.
    + replace (slot (pos + zlen xs) end_ dist) with (slot pos end_ (dist - zlen xs)).
      2: { unfold slot. destruct (Z.ltb_spec dist (pos + zlen xs)), (Z.ltb_spec (dist - zlen xs) pos); lia. }
      destruct (Z.ltb_spec (zlen h + zlen xs - 1 - dist) (zlen h)); [|lia].
      replace (_ && _) with false.
      2: { symmetry. unfold slot. destruct (Z.ltb_spec (dist - zlen xs) pos); zify_bools;
             destruct (Z.ltb_spec full (pos + zlen xs)); lia. }
      rewrite Hl by (destruct (Z.ltb_spec full (pos + zlen xs)); lia). f_equal. lia.
  - by apply Forall_app.
  - by rewrite zlen_app, Zplus_mod, Hal, <-Zplus_mod.
Qed.

(** The end of the buffer is its beginning. *)
Lemma hist_wraparound buf out full end_ h :
  hist buf out end_ full end_ h -> end_ mod 16 = 0 -> hist buf out 0 full end_ h.
Proof.
  intros [Hb Hp Hcap Hfull Hw Hl Hbyte Hal] H16. split; try done; try lia.
  - intros dist Hd. rewrite <-Hl by done. unfold slot.
    destruct (Z.ltb_spec dist 0), (Z.ltb_spec dist end_); try lia. f_equal. lia.
  - by rewrite <-Hal, H16.
Qed.

Lemma hist_empty buf out end_ :
  buf_ok buf -> (buf = DictNull -> end_ = 0) -> 0 <= end_ < 2 ^ 64 -> end_ <= dict_cap buf out ->
  hist buf out 0 0 end_ [].
Proof.
  intros Hb Hn He Hc. split; try done; try lia.
  - unfold zlen. simpl. lia.
Qed.

(** A byte of the history is found in the buffer. *)
Lemma hist_get buf out pos full end_ h dist :
  hist buf out pos full end_ h -> 0 <= dist < full ->
  exists x, load buf out (slot pos end_ dist) = Some x /\ rd h (zlen h - 1 - dist) = Some x /\ is_byte x.
Proof.
  intros H Hd. destruct (hist_pos _ _ _ _ _ _ H), (hist_buf _ _ _ _ _ _ H).
  pose proof (hist_cap _ _ _ _ _ _ H). pose proof (slot_range pos full end_ dist ltac:(lia) ltac:(lia) Hd).
  destruct (load_Some buf out (slot pos end_ dist)) as [x Ex]; [done|lia|].
  exists x. split; [done|]. rewrite <-(hist_load _ _ _ _ _ _ H) by done. split; [done|].
  apply (rd_Forall is_byte h (zlen h - 1 - dist)); [apply H|].
  by rewrite <-(hist_load _ _ _ _ _ _ H).
Qed.

(** The last bytes of the history lie before the position. *)
Lemma hist_pending buf out pos full end_ h n j :
  hist buf out pos full end_ h -> 0 <= n <= pos -> 0 <= j < n ->
  load buf out (pos - n + j) = rd h (zlen h - n + j).
Proof.
  intros H Hn Hj. destruct (hist_pos _ _ _ _ _ _ H).
  replace (zlen h - n + j) with (zlen h - 1 - (n - 1 - j)) by lia.
  rewrite <-(hist_load _ _ _ _ _ _ H) by lia. unfold slot.
  destruct (Z.ltb_spec (n - 1 - j) pos); [|lia]. f_equal. lia.
Qed.

(** ** The operations *)

Definition dict_rep (d : dictionary) (out h : list Z) : Prop :=
  hist (d_buf d) out (d_pos d) (d_full d) (d_end d) h /\ 0 <= d_start d <= d_pos d.

(** [n] bytes were appended; everything else is as before. *)
Record moved (d : dictionary) (out : list Z) (d' : dictionary) (out' : list Z) (n : Z) : Prop := {
  moved_pos : d_pos d' = d_pos d + n;
  moved_start : d_start d' = d_start d;
  moved_limit : d_limit d' = d_limit d;
  moved_end : d_end d' = d_end d;
  moved_size : d_size d' = d_size d;
  moved_max : d_size_max d' = d_size_max d;
  moved_alloc : d_allocated d' = d_allocated d;
  moved_mode : d_mode d' = d_mode d;
  moved_block : same_block (d_buf d) (d_buf d');
  moved_out : out_frame (d_buf d) (d_pos d) out out' }.

Lemma same_block_refl buf : same_block buf buf.
Proof. by destruct buf. Qed.

Lemma moved_refl d out : moved d out d out 0.
Proof. split; try done; try lia; [apply same_block_refl|]. by destruct (d_buf d). Qed.

Lemma same_block_trans b1 b2 b3 : same_block b1 b2 -> same_block b2 b3 -> same_block b1 b3.
Proof. destruct b1, b2, b3; simpl; congruence || done. Qed.

Lemma moved_trans d1 o1 d2 o2 d3 o3 n m :
  0 <= n -> moved d1 o1 d2 o2 n -> moved d2 o2 d3 o3 m -> moved d1 o1 d3 o3 (n + m).
Proof.
  intros Hn [] []. split; try lia; try congruence; [by eapply same_block_trans|].
  destruct (d_buf d1), (d_buf d2); simpl in *; try done; try congruence. subst.
  destruct moved_out0 as [L1 F1], moved_out1 as [L2 F2]. split; [lia|].
  intros j Hj. rewrite F2, F1 by lia. done.
Qed.

Lemma usz_wrap pos end_ dist :
  0 <= pos <= end_ -> end_ < 2 ^ 64 -> 0 <= dist < end_ ->
  (if pos <=? dist then usz (usz (pos - dist - 1) + end_) else usz (pos - dist - 1)) = slot pos end_ dist.
Proof.
  intros. unfold slot. destruct (Z.leb_spec pos dist), (Z.ltb_spec dist pos); try lia.
  - unfold usz at 1 2, u64. rewrite Zplus_mod_idemp_l. by apply u64_small; lia.
  - apply usz_small. lia.
Qed.

(** [dict_get] returns the byte at that distance from the end of the history, or zero at
    its beginning. *)
Lemma dict_get_ok d out h dist :
  dict_rep d out h -> 0 <= dist -> dist < d_full d \/ h = [] ->
  dict_get d out dist = Some (default 0 (rd h (zlen h - 1 - dist))).
Proof.
  intros [H _] Hd Hc. pose proof (hist_pos _ _ _ _ _ _ H). pose proof (hist_full _ _ _ _ _ _ H) as Hf.
  unfold dict_get. destruct (Z.ltb_spec 0 (d_full d)) as [Hf0|Hf0]; cycle 1.
  { destruct Hc as [Hc | ->]; [lia|]. by rewrite rd_None by (unfold zlen; simpl; lia). }
  assert (Hdf : dist < d_full d).
  { destruct Hc as [Hc | ->]; [done|]. unfold zlen in Hf. simpl in Hf. lia. }
  rewrite usz_wrap by lia.
  destruct (hist_get _ _ _ _ _ _ dist H ltac:(lia)) as (x & -> & -> & _). done.
Qed.

Lemma dict_put_ok d out h byte :
  dict_rep d out h -> d_pos d < d_end d -> is_byte byte ->
  exists d' out', dict_put d out byte = Some (d', out') /\ dict_rep d' out' (h ++ [byte])
    /\ moved d out d' out' 1.
Proof.
  intros [H Hs] Hp Hb. pose proof (hist_pos _ _ _ _ _ _ H) as Hpos.
  destruct (hist_append _ _ _ _ _ _ [byte] H) as (buf' & out' & E & Hsb & Hof & H');
    [by constructor|unfold zlen; simpl; lia|lia|].
  unfold dict_put. rewrite E. simpl. do 2 eexists. split; [done|]. split.
  - split; [exact H'|]. simpl. lia.
  - by split.
Qed.

(** An LZ77 copy: [n] times, append the byte at distance [dist]. *)
Fixpoint lz_copy (n : nat) (dist : Z) (h : list Z) : list Z :=
  match n with
  | O => h
  | S n' => lz_copy n' dist (h ++ [default 0 (rd h (zlen h - 1 - dist))])
  end.

Lemma lz_copy_zlen n dist h : zlen (lz_copy n dist h) = zlen h + Z.of_nat n.
Proof.
  revert h. induction n as [|n IH]; intros h; simpl lz_copy; [lia|].
  rewrite IH, zlen_app. unfold zlen. simpl. lia.
Qed.

(** The dictionary with [full] brought up to date, as after the loop of [dict_repeat]. *)
Definition dict_fresh (d : dictionary) : dictionary :=
  dict_upd d (d_buf d) (d_start d) (d_pos d)
    (if d_full d <? d_pos d then d_pos d else d_full d) (d_limit d).

Lemma repeat_loop_ok n d out back dist h :
  dict_rep (dict_fresh d) out h -> d_pos d + Z.of_nat n <= d_end d ->
  0 <= dist < d_full (dict_fresh d) -> back = slot (d_pos d) (d_end d) dist ->
  exists d' out', repeat_loop n d out back = Some (d', out')
    /\ dict_rep (dict_fresh d') out' (lz_copy n dist h) /\ moved d out d' out' (Z.of_nat n).
Proof.
  revert d out back h. induction n as [|n IH]; intros d out back h Hrep Hp Hd Hb; cbn [repeat_loop].
  { exists d, out. split; [done|]. split; [done|]. apply moved_refl. }
  destruct Hrep as [H Hs]. pose proof (hist_pos _ _ _ _ _ _ H) as Hpos. simpl in *.
  destruct (hist_get _ _ _ _ _ _ dist H ltac:(lia)) as (x & Hx & Hx' & Hbx). simpl in *.
  rewrite Hb, Hx. simpl.
  destruct (hist_append _ _ _ _ _ _ [x] H) as (buf' & out' & E & Hsb & Hof & H');
    [by constructor|unfold zlen; simpl; lia|lia|].
  rewrite E. simpl. change (zlen [x]) with 1 in H'.
  set (d1 := dict_upd d buf' (d_start d) (d_pos d + 1) (d_full d) (d_limit d)).
  assert (Hm : moved d out d1 out' 1) by by split.
  assert (Hfull : (if (if d_full d <? d_pos d then d_pos d else d_full d) <? d_pos d + 1
                   then d_pos d + 1 else if d_full d <? d_pos d then d_pos d else d_full d)
                  = d_full (dict_fresh d1)).
  { simpl. destruct (Z.ltb_spec (d_full d) (d_pos d)); repeat case_Z; lia. }
  rewrite Hfull in H'.
  destruct (IH d1 out' (if slot (d_pos d) (d_end d) dist + 1 =? d_end d then 0
                         else slot (d_pos d) (d_end d) dist + 1) (h ++ [x]))
    as (d' & out2 & E2 & Hr2 & Hm2).
  - split; [exact H'|]. simpl. lia.
  - simpl. lia.
  - simpl. destruct (Z.ltb_spec (d_full d) (d_pos d)); repeat case_Z; lia.
  - simpl. unfold slot. destruct (Z.ltb_spec (d_full d) (d_pos d)), (Z.ltb_spec dist (d_pos d));
      repeat case_Z; lia.
  - exists d', out2. split; [exact E2|]. split.
    + cbn [lz_copy]. rewrite Hx'. exact Hr2.
    + replace (Z.of_nat (S n)) with (1 + Z.of_nat n) by lia. by eapply moved_trans.
Qed.

(** [dict_repeat] refuses a distance beyond the history or the dictionary size; otherwise
    it copies as much of the match as the limit allows. *)
Lemma dict_repeat_ok d out h len dist :
  dict_rep d out h -> d_pos d < d_limit d <= d_end d -> 0 < len < 2 ^ 32 -> 0 <= dist ->
  if (d_full d <=? dist) || (d_size d <=? dist)
  then dict_repeat d out len dist = Some (false, len, d, out)
  else exists d' out', let n := Z.min (d_limit d - d_pos d) len in
       dict_repeat d out len dist = Some (true, len - n, d', out')
       /\ dist < d_full d
       /\ dict_rep d' out' (lz_copy (Z.to_nat n) dist h) /\ moved d out d' out' n.
Proof.
  intros [H Hs] Hl Hlen Hd. unfold dict_repeat.
  destruct ((d_full d <=? dist) || (d_size d <=? dist)) eqn:Ec; [done|].
  zify_bools. destruct Ec as [Ec _]. pose proof (hist_pos _ _ _ _ _ _ H) as Hpos.
  rewrite usz_wrap by lia. rewrite (usz_small (d_limit d - d_pos d)) by lia.
  set (n := Z.min (d_limit d - d_pos d) len). rewrite (u32_small n) by lia.
  unfold do_while_rounds. destruct (Z.eqb_spec n 0); [lia|].
  assert (Hfr : dict_fresh d = d).
  { unfold dict_fresh. destruct (Z.ltb_spec (d_full d) (d_pos d)); [lia|]. by destruct d. }
  destruct (repeat_loop_ok (Z.to_nat n) d out (slot (d_pos d) (d_end d) dist) dist h)
    as (d' & out' & E & Hr & Hm).
  - by rewrite Hfr.
  - lia.
  - rewrite Hfr. lia.
  - reflexivity.
  - rewrite E. simpl. rewrite (u32_small (len - n)) by lia. do 2 eexists. split; [done|].
    split; [done|]. split; [exact Hr|]. rewrite Z2Nat.id in Hm by lia. by destruct Hm; split.
Qed.

Lemma dict_limit_ok d out h out_max :
  dict_rep d out h -> 0 <= out_max < 2 ^ 64 ->
  exists l, dict_limit d out_max = dict_upd d (d_buf d) (d_start d) (d_pos d) (d_full d) l
    /\ l = d_pos d + Z.min (d_end d - d_pos d) out_max.
Proof.
  intros [H Hs] Ho. pose proof (hist_pos _ _ _ _ _ _ H). unfold dict_limit. eexists. split; [done|].
  rewrite usz_small by lia. destruct (Z.leb_spec (d_end d - d_pos d) out_max); [lia|].
  rewrite usz_small; lia.
Qed.

(** ** Against the caller's buffer

    In multi-call mode the dictionary is memory of its own and its size is a multiple of
    16; in single-call mode it is the rest of the output buffer. *)

Definition dict_bound (d : dictionary) (b : xz_buf) : Prop :=
  match d_buf d with
  | DictNull => False
  | DictOwn m => d_mode d <> XZ_SINGLE /\ d_end d mod 16 = 0 /\ 0 < d_end d
  | DictOut off => d_mode d = XZ_SINGLE /\ off + d_start d = b_out_pos b /\ off + d_end d = out_size b
  end.

Definition xz_buf_ok (b : xz_buf) : Prop :=
  0 <= b_in_pos b <= in_size b /\ 0 <= b_out_pos b <= out_size b
  /\ in_size b < 2 ^ 64 /\ out_size b < 2 ^ 64 /\ Forall is_byte (b_in b).

(** The input is not written, and the output only between the old and the new position,
    where it holds [xs]. *)
Record emitted (b b' : xz_buf) (n : Z) (xs : list Z) : Prop := {
  em_in : b_in b' = b_in b;
  em_in_pos : b_in_pos b' = b_in_pos b + n;
  em_out_pos : b_out_pos b' = b_out_pos b + zlen xs;
  em_size : zlen (b_out b') = zlen (b_out b);
  em_before : forall j, j < b_out_pos b -> rd (b_out b') j = rd (b_out b) j;
  em_data : forall j, 0 <= j < zlen xs -> rd (b_out b') (b_out_pos b + j) = rd xs j }.

Lemma emitted_refl b : emitted b b 0 [].
Proof.
  split; try done; try lia; unfold zlen; simpl; [lia|]. intros j Hj. lia.
Qed.

Lemma emitted_trans b1 b2 b3 n1 n2 xs ys :
  emitted b1 b2 n1 xs -> emitted b2 b3 n2 ys -> emitted b1 b3 (n1 + n2) (xs ++ ys).
Proof.
  intros [] []. pose proof (zlen_nonneg xs). pose proof (zlen_nonneg ys).
  split; try congruence; try lia.
  - rewrite zlen_app. lia.
  - intros j Hj. rewrite em_before1, em_before0 by lia. done.
  - intros j. rewrite zlen_app, rd_app. intros Hj. destruct (Z.ltb_spec j (zlen xs)).
    + rewrite em_before1 by lia. apply em_data0. lia.
    + rewrite <-em_data1 by lia. f_equal. lia.
Qed.

(** The last [n] bytes of a list. *)
Definition suffix (n : Z) (h : list Z) : list Z := drop (length h - Z.to_nat n) h.

Lemma suffix_zlen n h : 0 <= n <= zlen h -> zlen (suffix n h) = n.
Proof. unfold suffix, zlen. intros. rewrite length_drop. lia. Qed.

Lemma suffix_rd n h j : 0 <= n <= zlen h -> 0 <= j < n -> rd (suffix n h) j = rd h (zlen h - n + j).
Proof.
  unfold suffix, rd, zlen. intros Hn Hj. destruct (Z.leb_spec 0 j); [|lia].
  destruct (Z.leb_spec 0 (Z.of_nat (length h) - n + j)); [|lia]. rewrite lookup_drop. f_equal. lia.
Qed.

Lemma suffix_app h xs : suffix (zlen xs) (h ++ xs) = xs.
Proof.
  unfold suffix, zlen. rewrite length_app, Nat2Z.id.
  replace (length h + length xs - length xs)%nat with (length h) by lia. apply drop_app_length.
Qed.

(** Flushing puts the bytes decoded since the last flush into the output. *)
Lemma dict_flush_ok d b h :
  dict_rep d (b_out b) h -> dict_bound d b -> xz_buf_ok b ->
  d_pos d - d_start d <= out_size b - b_out_pos b -> d_pos d - d_start d < 2 ^ 32 ->
  exists d' b', dict_flush d b = Some (d_pos d - d_start d, d', b')
    /\ emitted b b' 0 (suffix (d_pos d - d_start d) h)
    /\ dict_rep d' (b_out b') h /\ dict_bound d' b'
    /\ d_start d' = d_pos d' /\ (DEC_IS_MULTI (d_mode d) = true -> d_pos d' < d_end d')
    /\ d' = dict_upd d (d_buf d) (d_pos d') (d_pos d') (d_full d) (d_limit d).
Proof.
  intros [H Hs] Hbd (Hi & Ho & _ & Ho64 & _) Hsp H32.
  pose proof (hist_pos _ _ _ _ _ _ H) as Hpos. pose proof (hist_cap _ _ _ _ _ _ H) as Hcap.
  pose proof (hist_full _ _ _ _ _ _ H) as Hfull.
  unfold dict_flush. rewrite usz_small by lia. set (n := d_pos d - d_start d) in *.
  rewrite (u32_small n) by lia.
  assert (Hn : zlen (suffix n h) = n) by (apply suffix_zlen; lia).
  assert (Hp : forall j, 0 <= j < n -> load (d_buf d) (b_out b) (d_start d + j) = rd (suffix n h) j).
  { intros j Hj. rewrite suffix_rd by lia. replace (d_start d + j) with (d_pos d - n + j) by lia.
    eapply hist_pending; [exact H| |]; lia. }
  unfold dict_bound in Hbd. destruct (d_buf d) as [|m|off] eqn:Eb; [done| |].
  - destruct Hbd as (Hm & H16 & He). unfold DEC_IS_MULTI. rewrite bool_decide_eq_false_2 by done.
    simpl in *. destruct (rds m (d_start d) n) as [xs|] eqn:Ex.
    2: { rewrite rds_Some in Ex by lia. done. }
    assert (Exs : xs = suffix n h) by (eapply rds_eq; [exact Ex|done|exact Hp]).
    simpl. destruct (wrs_Some (b_out b) xs (b_out_pos b)) as [out' Eo]; [lia|subst; unfold out_size in *; lia|].
    rewrite Eo. simpl. do 2 eexists. split; [done|].
    assert (Hhist : hist (DictOwn m) out' (if d_pos d =? d_end d then 0 else d_pos d) (d_full d) (d_end d) h).
    { assert (H' : hist (DictOwn m) out' (d_pos d) (d_full d) (d_end d) h) by (by destruct H; split).
      destruct (Z.eqb_spec (d_pos d) (d_end d)) as [Epos|]; [|done].
      rewrite Epos in H'. by apply hist_wraparound. }
    split; [split; simpl; try done; try lia|].
    + by apply (wrs_zlen _ _ _ _ Eo).
    + intros j Hj. rewrite (wrs_rd _ _ _ _ _ Eo). by destruct (Z.leb_spec (b_out_pos b) j); [lia|].
    + intros j Hj. rewrite (wrs_rd _ _ _ _ _ Eo), Exs.
      destruct (Z.leb_spec (b_out_pos b) (b_out_pos b + j)); [|lia].
      destruct (Z.ltb_spec (b_out_pos b + j) (b_out_pos b + zlen (suffix n h))); [|lia].
      simpl. f_equal. lia.
    + split; [split; [exact Hhist|]; simpl; case_Z; lia|]. split; [done|]. split; [done|].
      split; [|done]. intros _. simpl. case_Z; lia.
  - destruct Hbd as (Hm & Hoff & Hend). rewrite Hm. simpl. do 2 eexists. split; [done|].
    split; [split; simpl; try done; try lia|].
    + intros j Hj. rewrite <-Hp by lia. simpl. f_equal. lia.
    + split; [split; [done|simpl; lia]|].
      split; [unfold dict_bound; simpl; split_and!; try done; unfold out_size in *; simpl; lia|].
      split; [done|]. by split.
Qed.

(** Between calls nothing is pending, and there is room at the position unless the
    output is full. *)
Definition dict_idle (d : dictionary) (b : xz_buf) (h : list Z) : Prop :=
  dict_rep d (b_out b) h /\ dict_bound d b /\ d_start d = d_pos d
  /\ (DEC_IS_MULTI (d_mode d) = true -> d_pos d < d_end d).

Lemma dict_idle_room d b h :
  dict_idle d b h -> b_out_pos b < out_size b -> d_pos d < d_end d.
Proof.
  intros (_ & Hb & Hs & Hm) Ho. unfold dict_bound in Hb. destruct (d_buf d); [done| |].
  - apply Hm. unfold DEC_IS_MULTI. by rewrite bool_decide_eq_false_2 by apply Hb.
  - destruct Hb as (_ & Hb1 & Hb2). lia.
Qed.

(** Everything but the buffer contents and the positions is kept. *)
Definition dict_same (d d' : dictionary) : Prop :=
  d_end d' = d_end d /\ d_size d' = d_size d /\ d_size_max d' = d_size_max d
  /\ d_allocated d' = d_allocated d /\ d_mode d' = d_mode d /\ same_block (d_buf d) (d_buf d').

Lemma dict_same_refl d : dict_same d d.
Proof. split_and!; try done. apply same_block_refl. Qed.

Lemma dict_same_trans d1 d2 d3 : dict_same d1 d2 -> dict_same d2 d3 -> dict_same d1 d3.
Proof.
  intros (? & ? & ? & ? & ? & ?) (? & ? & ? & ? & ? & ?). split_and!; try congruence.
  by eapply same_block_trans.
Qed.

(** One round of the loop: [xs] goes to the dictionary and to the output. *)
Lemma uncompressed_round d b h xs :
  dict_idle d b h -> xz_buf_ok b -> rds (b_in b) (b_in_pos b) (zlen xs) = Some xs ->
  zlen xs <= d_end d - d_pos d -> zlen xs <= out_size b - b_out_pos b -> 0 < zlen xs ->
  exists buf out pos out',
    dict_store (d_buf d) (b_out b) (d_pos d) xs = Some (buf, out)
    /\ (if DEC_IS_MULTI (d_mode d)
        then out ← wrs out (b_out_pos b) xs;
             Some (if d_pos d + zlen xs =? d_end d then 0 else d_pos d + zlen xs, out)
        else Some (d_pos d + zlen xs, out)) = Some (pos, out')
    /\ let d' := dict_upd d buf pos pos
         (if d_full d <? d_pos d + zlen xs then d_pos d + zlen xs else d_full d) (d_limit d) in
       let b' := XB (b_in b) (b_in_pos b + zlen xs) out' (b_out_pos b + zlen xs) in
       dict_idle d' b' (h ++ xs) /\ emitted b b' (zlen xs) xs /\ dict_same d d'.
Proof.
  intros ((H & Hs) & Hbd & Hst & Hm) (Hi & Ho & _ & Ho64 & Hby) Ex He Hsp Hpos0.
  pose proof (hist_pos _ _ _ _ _ _ H) as Hpos.
  destruct (hist_append _ _ _ _ _ _ xs H) as (buf & out & E & Hsb & Hof & H');
    [by eapply rds_Forall|lia|lia|].
  unfold dict_bound in Hbd. destruct (d_buf d) as [|m|off] eqn:Eb; [done| |].
  - destruct Hbd as (Hmode & H16 & Hend). unfold DEC_IS_MULTI in *.
    rewrite bool_decide_eq_false_2 in Hm |- * by done. simpl in *. subst out.
    destruct (wrs_Some (b_out b) xs (b_out_pos b)) as [out' Eo]; [lia|unfold out_size in *; lia|].
    exists buf, (b_out b), (if d_pos d + zlen xs =? d_end d then 0 else d_pos d + zlen xs), out'.
    rewrite Eo. simpl. split; [done|]. split; [done|].
    destruct buf as [|m'|]; [done| |done]. split; [|split].
    + assert (Hh : hist (DictOwn m') out' (d_pos d + zlen xs)
        (if d_full d <? d_pos d + zlen xs then d_pos d + zlen xs else d_full d) (d_end d) (h ++ xs))
        by (by destruct H'; split).
      split; [split; simpl; [|case_Z; lia]|].
      * destruct (Z.eqb_spec (d_pos d + zlen xs) (d_end d)) as [Epos|]; [|done].
        rewrite Epos in Hh at 1. by apply hist_wraparound.
      * split; [done|]. split; [done|]. intros _. simpl. case_Z; lia.
    + split; simpl; try done.
      * by apply (wrs_zlen _ _ _ _ Eo).
      * intros j Hj. rewrite (wrs_rd _ _ _ _ _ Eo). by destruct (Z.leb_spec (b_out_pos b) j); [lia|].
      * intros j Hj. rewrite (wrs_rd _ _ _ _ _ Eo).
        destruct (Z.leb_spec (b_out_pos b) (b_out_pos b + j)); [|lia].
        destruct (Z.ltb_spec (b_out_pos b + j) (b_out_pos b + zlen xs)); [|lia]. simpl. f_equal. lia.
    + unfold dict_same. simpl. by rewrite Eb.
  - destruct Hbd as (Hmode & Hoff & Hend). rewrite Hmode in *. simpl in *.
    exists buf, out, (d_pos d + zlen xs), out. split; [done|]. split; [done|].
    destruct buf as [| |off']; [done|done|]. simpl in Hsb. subst off'. destruct Hof as [Hlen Hfr].
    split; [|split].
    + split; [split; [exact H'|simpl; lia]|]. split; [|split; [done|]].
      * unfold dict_bound, out_size in *. simpl. split_and!; try done; lia.
      * simpl. by rewrite Hmode.
    + split; simpl; try done.
      * intros j Hj. apply Hfr. lia.
      * intros j Hj. pose proof (hist_pending _ _ _ _ _ _ (zlen xs) j H') as Hp. simpl in Hp.
        rewrite zlen_app, rd_app in Hp. replace (b_out_pos b + j) with (off + (d_pos d + zlen xs - zlen xs + j)) by lia.
        rewrite Hp by lia. destruct (Z.ltb_spec (zlen h + zlen xs - zlen xs + j) (zlen h)); [lia|].
        f_equal. lia.
    + unfold dict_same. simpl. rewrite Eb. by split_and!.
Qed.

Lemma rds_next {A} (l xs ys : list A) i :
  rds l i (zlen xs) = Some xs -> rds l (i + zlen xs) (zlen ys) = Some ys ->
  rds l i (zlen (xs ++ ys)) = Some (xs ++ ys).
Proof.
  intros Ex Ey. destruct (rds l i (zlen (xs ++ ys))) as [zs|] eqn:Ez.
  - f_equal. eapply rds_eq; [exact Ez|done|]. intros j Hj. rewrite rd_app. rewrite zlen_app in Hj.
    destruct (Z.ltb_spec j (zlen xs)).
    + symmetry. apply (rds_lookup _ _ _ _ j Ex). lia.
    + rewrite (rds_lookup _ _ _ _ (j - zlen xs) Ey) by lia. f_equal. lia.
  - exfalso. unfold rds in *. rewrite zlen_app in Ez. pose proof (zlen_nonneg xs). pose proof (zlen_nonneg ys).
    destruct (Z.leb_spec 0 i); [|done]. destruct (Z.leb_spec 0 (zlen xs)); [|done].
    destruct (Z.leb_spec 0 (i + zlen xs)); [|done]. destruct (Z.leb_spec 0 (zlen ys)); [|done].
    destruct (Z.leb_spec (i + zlen xs + zlen ys) (zlen l)); [|done].
    destruct (Z.leb_spec 0 (zlen xs + zlen ys)); [|lia].
    destruct (Z.leb_spec (i + (zlen xs + zlen ys)) (zlen l)); [done|lia].
Qed.

(** Copying an uncompressed chunk moves input bytes to the output and the history until
    the chunk, the input or the output ends. *)
Lemma uncompressed_loop_ok fuel : forall d b left h,
  dict_idle d b h -> xz_buf_ok b -> 0 <= left < 2 ^ 32 -> left <= Z.of_nat fuel ->
  exists d' b' xs, uncompressed_loop fuel d b left = Some (d', b', left - zlen xs)
    /\ rds (b_in b) (b_in_pos b) (zlen xs) = Some xs
    /\ dict_idle d' b' (h ++ xs) /\ emitted b b' (zlen xs) xs /\ dict_same d d'
    /\ zlen xs <= left
    /\ (left = zlen xs \/ b_in_pos b' = in_size b' \/ b_out_pos b' = out_size b').
Proof.
  induction fuel as [|fuel IH]; intros d b left h Hd Hb Hl Hfuel;
    pose proof Hb as (Hi & Ho & Hi64 & Ho64 & Hby); cbn [uncompressed_loop];
    destruct ((0 <? left) && (b_in_pos b <? in_size b) && (b_out_pos b <? out_size b)) eqn:Ec;
    zify_bools.
  1: lia.
  1, 3: exists d, b, []; change (zlen []) with 0; rewrite Z.sub_0_r, app_nil_r;
    (split; [done|]); (split; [by rewrite rds_Some by (unfold in_size in *; lia)|]);
    (split; [done|]); (split; [apply emitted_refl|]); (split; [apply dict_same_refl|]); lia.
  assert (Hroom : d_pos d < d_end d) by (eapply dict_idle_room; [exact Hd|lia]).
  pose proof (hist_pos _ _ _ _ _ _ (proj1 (proj1 Hd))) as Hpos.
  rewrite (usz_small (d_end d - d_pos d)) by lia.
  set (c1 := Z.min (in_size b - b_in_pos b) (out_size b - b_out_pos b)).
  set (c2 := if d_end d - d_pos d <? c1 then d_end d - d_pos d else c1).
  set (n := if left <? c2 then left else c2).
  assert (Hn : n = Z.min left (Z.min (d_end d - d_pos d) c1)).
  { unfold n, c2. destruct (Z.ltb_spec (d_end d - d_pos d) c1); case_Z; lia. }
  clearbody n. clear c2. unfold c1 in Hn. clear c1.
  destruct (rds (b_in b) (b_in_pos b) n) as [xs|] eqn:Ex.
  2: { rewrite rds_Some in Ex by (unfold in_size in *; lia). done. }
  pose proof (rds_zlen _ _ _ _ Ex) as Hxs. rewrite <-Hxs in *. simpl.
  destruct (uncompressed_round d b h xs) as (buf & out & pos & out' & E1 & E2 & Hd' & Hem & Hsame);
    try done; try lia.
  rewrite E1. simpl. rewrite E2. simpl. rewrite (u32_small (left - zlen xs)) by lia.
  set (d1 := dict_upd d _ _ _ _ _) in *. set (b1 := XB _ _ _ _) in *.
  destruct (IH d1 b1 (left - zlen xs) (h ++ xs)) as (d' & b' & ys & E & Ey & Hd2 & Hem2 & Hsame2 & Hle & Hstop);
    try done; try lia.
  { split_and!; try done; unfold in_size, out_size in *; simpl; try lia.
    - pose proof (em_size _ _ _ _ Hem). simpl in *. lia.
    - pose proof (em_size _ _ _ _ Hem). simpl in *. lia. }
  exists d', b', (xs ++ ys). rewrite zlen_app, Z.sub_add_distr. split; [done|].
  rewrite <-zlen_app. split; [by apply rds_next|]. rewrite app_assoc. split; [done|].
  rewrite zlen_app. split; [by eapply emitted_trans|]. split; [by eapply dict_same_trans|].
  split; [lia|]. destruct Hstop as [Hstop|Hstop]; [left; lia|by right].
Qed.
