(* ===== verification/XzLzma.v ===== *)
(** * The LZMA decoder (xz-embedded/xz_dec_lzma2.c, "LZMA")

    Symbols: literals, matches and repeated matches, and the loop that decodes them into
    the dictionary. *)

From S2P Require Import Prelude XzDefs XzRange XzDict.
#[local] Open Scope st_scope.

(** [struct lzma_dec] up to [pos_mask]; the arrays of probabilities that follow it are one
    block, as [lzma_reset] uses them. *)
Record lzma_dec := Lzma {
  rep0 : Z; rep1 : Z; rep2 : Z; rep3 : Z;
  state : Z; len : Z; lc : Z; literal_pos_mask : Z; pos_mask : Z }.

Definition is_match : arr := Arr 0 (STATES * POS_STATES_MAX).
Definition is_rep : arr := Arr 192 STATES.
Definition is_rep0 : arr := Arr 204 STATES.
Definition is_rep1 : arr := Arr 216 STATES.
Definition is_rep2 : arr := Arr 228 STATES.
Definition is_rep0_long : arr := Arr 240 (STATES * POS_STATES_MAX).
Definition dist_slot_probs : arr := Arr 432 (DIST_STATES * DIST_SLOTS).
Definition dist_special : arr := Arr 688 (FULL_DISTANCES - DIST_MODEL_END).
Definition dist_align : arr := Arr 802 ALIGN_SIZE.
Definition literal : arr := Arr 1846 (LITERAL_CODERS_MAX * LITERAL_CODER_SIZE).

(** [struct lzma_len_dec] at an offset. *)
Record lzma_len_dec := LenDec { choice : arr; choice2 : arr; low : arr; mid : arr; high : arr }.
Definition len_dec_at (base : Z) : lzma_len_dec :=
  LenDec (Arr base 1) (Arr (base + 1) 1) (Arr (base + 2) (POS_STATES_MAX * LEN_LOW_SYMBOLS))
    (Arr (base + 130) (POS_STATES_MAX * LEN_MID_SYMBOLS)) (Arr (base + 258) LEN_HIGH_SYMBOLS).
Definition match_len_dec : lzma_len_dec := len_dec_at 818.
Definition rep_len_dec : lzma_len_dec := len_dec_at 1332.

(** The parts of [struct xz_dec_lzma2] the LZMA decoder uses, and the output memory the
    dictionary may point to. *)
Record lz := LZ { z_rc : rcs; z_dict : dictionary; z_out : list Z; z_lzma : lzma_dec }.

(** A range decoder operation; reading the LZMA state; changing it. *)
Definition on_rc {A} (c : st rcs A) : st lz A := fun z =>
  '(a, r) ← c (z_rc z); Some (a, LZ r (z_dict z) (z_out z) (z_lzma z)).
Definition get_lzma : st lz lzma_dec := fun z => Some (z_lzma z, z).
Definition put_lzma (l : lzma_dec) : st lz unit := fun z =>
  Some (tt, LZ (z_rc z) (z_dict z) (z_out z) l).
Definition get_byte (dist : Z) : st lz Z := fun z =>
  x ← dict_get (z_dict z) (z_out z) dist; Some (x, z).
Definition put_byte (byte : Z) : st lz unit := fun z =>
  '(d, out) ← dict_put (z_dict z) (z_out z) byte; Some (tt, LZ (z_rc z) d out (z_lzma z)).

Definition set_state (x : Z) (l : lzma_dec) : lzma_dec :=
  Lzma (rep0 l) (rep1 l) (rep2 l) (rep3 l) x (len l) (lc l) (literal_pos_mask l) (pos_mask l).
Definition set_len (x : Z) (l : lzma_dec) : lzma_dec :=
  Lzma (rep0 l) (rep1 l) (rep2 l) (rep3 l) (state l) x (lc l) (literal_pos_mask l) (pos_mask l).
Definition set_reps (r0 r1 r2 r3 : Z) (l : lzma_dec) : lzma_dec :=
  Lzma r0 r1 r2 r3 (state l) (len l) (lc l) (literal_pos_mask l) (pos_mask l).

(** Offset in [literal] of the coder to use. *)
Definition lzma_literal_probs : st lz Z :=
  let* prev_byte := get_byte 0 in
  fun z =>
    let l := z_lzma z in
    let low := Z.shiftr prev_byte (8 - lc l) in
    let high := u32 (Z.shiftl (Z.land (d_pos (z_dict z)) (literal_pos_mask l)) (lc l)) in
    Some (u32 (low + high) * LITERAL_CODER_SIZE, z).

(** A literal after a match: the bits of [match_byte] choose the probabilities while they
    agree with the decoded ones. *)
Fixpoint matched_loop (fuel : nat) (off symbol match_byte offset : Z) : st rcs Z :=
  match fuel with
  | O => fun _ => None
  | S fuel' =>
    let match_bit := Z.land match_byte offset in
    let match_byte := u32 (Z.shiftl match_byte 1) in
    let i := u32 (offset + match_bit + symbol) in
    let* bit := rc_bit literal (off + i) in
    let '(symbol, offset) :=
      if truthy bit then (u32 (Z.shiftl symbol 1 + 1), Z.land offset match_bit)
      else (u32 (Z.shiftl symbol 1), Z.land offset (u32 (Z.lnot match_bit))) in
    if symbol <? 0x100 then matched_loop fuel' off symbol match_byte offset else st_ret symbol
  end.

Definition lzma_literal : st lz unit :=
  let* probs := lzma_literal_probs in
  let* l := get_lzma in
  let* symbol :=
    (if lzma_state_is_literal (state l) then on_rc (rc_bittree literal probs 0x100)
     else
       let* mb := get_byte (rep0 l) in
       on_rc (matched_loop RC_FUEL probs 1 (u32 (Z.shiftl mb 1)) 0x100)) in
  let* _ := put_byte (u8 symbol) in
  put_lzma (set_state (lzma_state_literal (state l)) l).

(** The value of [s->lzma.len] after [lzma_len]. *)
Definition lzma_len (l : lzma_len_dec) (pos_state : Z) : st rcs Z :=
  let* c := rc_bit (choice l) 0 in
  let* choice_ :=
    (if negb (truthy c) then
       st_ret (low l, pos_state * LEN_LOW_SYMBOLS, LEN_LOW_SYMBOLS, MATCH_LEN_MIN)
     else
       let* c2 := rc_bit (choice2 l) 0 in
       if negb (truthy c2) then
         st_ret (mid l, pos_state * LEN_MID_SYMBOLS, LEN_MID_SYMBOLS, MATCH_LEN_MIN + LEN_LOW_SYMBOLS)
       else
         st_ret (high l, 0, LEN_HIGH_SYMBOLS, MATCH_LEN_MIN + LEN_LOW_SYMBOLS + LEN_MID_SYMBOLS)) in
  let '(probs, off, limit, base) := choice_ in
  let* sym := rc_bittree probs off limit in
  st_ret (u32 (base + u32 (sym - limit))).

(** The value of [s->lzma.rep0] after the distance of a match of that length is decoded. *)
Definition lzma_distance (len : Z) : st rcs Z :=
  let* sym := rc_bittree dist_slot_probs (lzma_get_dist_state len * DIST_SLOTS) DIST_SLOTS in
  let dist_slot := u32 (sym - DIST_SLOTS) in
  if dist_slot <? DIST_MODEL_START then st_ret dist_slot
  else
    let limit := u32 (Z.shiftr dist_slot 1 - 1) in
    let rep0 := 2 + Z.land dist_slot 1 in
    if dist_slot <? DIST_MODEL_END then
      let rep0 := u32 (Z.shiftl rep0 limit) in
      rc_bittree_reverse dist_special (rep0 - dist_slot - 1) rep0 limit
    else
      let* rep0 := rc_direct rep0 (u32 (limit - ALIGN_BITS)) in
      let rep0 := u32 (Z.shiftl rep0 ALIGN_BITS) in
      rc_bittree_reverse dist_align 0 rep0 ALIGN_BITS.

Definition lzma_match (pos_state : Z) : st lz unit :=
  let* l := get_lzma in
  let l := set_state (lzma_state_match (state l)) l in
  let l := set_reps (rep0 l) (rep0 l) (rep1 l) (rep2 l) l in
  let* n := on_rc (lzma_len match_len_dec pos_state) in
  let l := set_len n l in
  let* dist := on_rc (lzma_distance (len l)) in
  put_lzma (set_reps dist (rep1 l) (rep2 l) (rep3 l) l).

(** The tail of [lzma_rep_match]. *)
Definition lzma_long_rep (pos_state : Z) (l : lzma_dec) : st lz unit :=
  let l := set_state (lzma_state_long_rep (state l)) l in
  let* n := on_rc (lzma_len rep_len_dec pos_state) in
  put_lzma (set_len n l).

Definition lzma_rep_match (pos_state : Z) : st lz unit :=
  let* l := get_lzma in
  let* b0 := on_rc (rc_bit is_rep0 (state l)) in
  if negb (truthy b0) then
    let* bl := on_rc (rc_bit is_rep0_long (state l * POS_STATES_MAX + pos_state)) in
    if negb (truthy bl) then
      put_lzma (set_len 1 (set_state (lzma_state_short_rep (state l)) l))
    else lzma_long_rep pos_state l
  else
    let* b1 := on_rc (rc_bit is_rep1 (state l)) in
    if negb (truthy b1) then
      lzma_long_rep pos_state (set_reps (rep1 l) (rep0 l) (rep2 l) (rep3 l) l)
    else
      let* b2 := on_rc (rc_bit is_rep2 (state l)) in
      if negb (truthy b2) then
        lzma_long_rep pos_state (set_reps (rep2 l) (rep0 l) (rep1 l) (rep3 l) l)
      else
        lzma_long_rep pos_state (set_reps (rep3 l) (rep0 l) (rep1 l) (rep2 l) l).

(** [dict_repeat(&s->dict, &s->lzma.len, s->lzma.rep0)]. *)
Definition repeat_match : st lz bool := fun z =>
  '(ok, n, d, out) ← dict_repeat (z_dict z) (z_out z) (len (z_lzma z)) (rep0 (z_lzma z));
  Some (ok, LZ (z_rc z) d out (set_len n (z_lzma z))).

(** One round of the loop of [lzma_main]: [false] when it returns. *)
Definition lzma_symbol : st lz bool :=
  let* z := st_get in
  let pos_state := Z.land (d_pos (z_dict z)) (pos_mask (z_lzma z)) in
  let* b := on_rc (rc_bit is_match (state (z_lzma z) * POS_STATES_MAX + pos_state)) in
  if negb (truthy b) then let* _ := lzma_literal in st_ret true
  else
    let* b := on_rc (rc_bit is_rep (state (z_lzma z))) in
    let* _ := (if truthy b then lzma_rep_match pos_state else lzma_match pos_state) in
    repeat_match.

(** Every round puts at least one byte into the dictionary. *)
Fixpoint lzma_loop (fuel : nat) : st lz bool := fun z =>
  if dict_has_space (z_dict z) && negb (rc_limit_exceeded (fst (z_rc z))) then
    match fuel with
    | O => None
    | S fuel' => (let* ok := lzma_symbol in if ok then lzma_loop fuel' else st_ret false) z
    end
  else Some (true, z).

Definition lzma_main : st lz bool :=
  let* z := st_get in
  let* _ :=
    (if dict_has_space (z_dict z) && (0 <? len (z_lzma z)) then repeat_match else st_ret true) in
  let* z := st_get in
  let* ok := lzma_loop (Z.to_nat (d_limit (z_dict z) - d_pos (z_dict z))) in
  if ok then
    fun z =>
      rc ← rc_normalize (fst (z_rc z));
      Some (true, LZ (rc, snd (z_rc z)) (z_dict z) (z_out z) (z_lzma z))
  else st_ret false.

(** The LZMA state and the probabilities; [rc_reset] completes it. *)
Definition lzma_reset (z : lz) : lz :=
  let l := z_lzma z in
  LZ (rc_reset (fst (z_rc z)), replicate (Z.to_nat PROBS_TOTAL) (RC_BIT_MODEL_TOTAL / 2))
    (z_dict z) (z_out z)
    (Lzma 0 0 0 0 STATE_LIT_LIT (len l) (lc l) (literal_pos_mask l) (pos_mask l)).

(** [while (props >= n) { props -= n; ++count; }] for a byte. *)
Fixpoint props_loop (fuel : nat) (n props count : Z) : option (Z * Z) :=
  if n <=? props then
    match fuel with
    | O => None
    | S fuel' => props_loop fuel' n (u8 (props - n)) (count + 1)
    end
  else Some (props, count).

Definition set_params (lc lp_mask pos_mask : Z) (l : lzma_dec) : lzma_dec :=
  Lzma (rep0 l) (rep1 l) (rep2 l) (rep3 l) (state l) (len l) lc lp_mask pos_mask.

Definition lzma_props (props : Z) (z : lz) : option (bool * lz) :=
  if (4 * 5 + 4) * 9 + 8 <? props then Some (false, z)
  else
    '(props, pb) ← props_loop 256 (9 * 5) props 0;
    let pos_mask := u32 (Z.shiftl 1 pb - 1) in
    '(props, lp) ← props_loop 256 9 props 0;
    let lc := props in
    if 4 <? u32 (lc + lp) then
      Some (false, LZ (z_rc z) (z_dict z) (z_out z) (set_params lc lp pos_mask (z_lzma z)))
    else
      Some (true, lzma_reset (LZ (z_rc z) (z_dict z) (z_out z)
                    (set_params lc (u32 (Z.shiftl 1 lp - 1)) pos_mask (z_lzma z)))).

(** * The LZMA decoder stays within its buffers

    For any input, one symbol reads at most 20 bytes, indexes the probabilities within
    their arrays, and appends to the history; so does the loop. *)

(** ** Symbols of the range decoder *)

Lemma budget_weaken s0 k k' d s : budget s0 k d s -> k <= k' -> budget s0 k' d s.
Proof.
  intros (H0 & Hs & Hk & Hd & Hin & Hl & Hi & Hp & Hb) Hk'. split_and!; try done; try lia.
  destruct Hs as ((Hr & _) & _). unfold RC_MIN in Hr.
  assert (67 ^ k <= 67 ^ k') by (apply Z.pow_le_mono_r; lia).
  assert (0 <= 1025 ^ d) by (apply Z.pow_nonneg; lia). etrans; [exact Hb|].
  apply Z.mul_le_mono_nonneg_l; [lia|]. by apply Z.mul_le_mono_nonneg_r.
Qed.

(** The range decoder got from [s0] to [s] within one symbol. *)
Definition spent (s0 s : rcs) : Prop :=
  rc_ok s /\ rc_in (fst s) = rc_in (fst s0) /\ rc_in_limit (fst s) = rc_in_limit (fst s0)
  /\ init_bytes_left (fst s) = init_bytes_left (fst s0)
  /\ rc_in_pos (fst s0) <= rc_in_pos (fst s) <= rc_in_pos (fst s0) + 20.

Lemma budget_spent s0 k d s : budget s0 k d s -> spent s0 s.
Proof. intros (H0 & Hs & Hk & Hd & Hin & Hl & Hi & Hp & Hb). unfold spent. tauto. Qed.

Lemma land_ones_range x n : 0 <= n -> 0 <= x -> 0 <= Z.land x (2 ^ n - 1) < 2 ^ n.
Proof.
  intros Hn Hx. replace (2 ^ n - 1) with (Z.ones n) by (rewrite Z.ones_equiv; lia).
  rewrite Z.land_ones by done. apply Z.mod_pos_bound. by apply pow2_pos.
Qed.

(** [offset] and [match_bit] are 0 or 0x100, so the index stays within the coder. *)
Lemma matched_loop_ok s0 d off n :
  fits s0 -> 0 <= off -> off + LITERAL_CODER_SIZE <= a_len literal ->
  forall fuel k j symbol mb offset s,
  budget s0 k d s -> cheap (k + Z.of_nat n - 1) d -> 0 <= k -> (n <= fuel)%nat -> (1 <= n)%nat ->
  0 <= j -> j + Z.of_nat n = 8 -> 2 ^ j <= symbol < 2 ^ (j + 1) -> 0 <= mb ->
  offset = 0 \/ offset = 0x100 ->
  exists sym s', matched_loop fuel off symbol mb offset s = Some (sym, s')
    /\ budget s0 (k + Z.of_nat n) d s' /\ 256 <= sym < 512.
Proof.
  intros Hf Hoff Hlen. unfold LITERAL_CODER_SIZE in Hlen.
  induction n as [|n IH]; intros fuel k j symbol mb offset s Hb Hk Hk0 Hfuel Hn Hj Hj8 Hsym Hmb Ho; [lia|].
  destruct fuel as [|fuel]; [lia|]. cbn [matched_loop]. unfold st_bind.
  assert (Hpow : 2 ^ (j + 1) <= 2 ^ 8) by (apply Z.pow_le_mono_r; lia).
  assert (0 < 2 ^ j) by (apply pow2_pos; lia).
  set (bit := Z.land mb offset).
  assert (Hbit : bit = 0 \/ bit = 0x100 /\ offset = 0x100).
  { unfold bit. destruct Ho as [-> | ->]; [left; apply Z.land_0_r|].
    destruct (Z.testbit mb 8) eqn:Et; [right|left]; [split; [|done]|]; apply Z.bits_inj'; intros i Hi;
      rewrite Z.land_spec; change 256 with (2 ^ 8); rewrite Z.pow2_bits_eqb by lia;
      destruct (Z.eqb_spec 8 i) as [<-|]; by rewrite ?Et, ?andb_false_r, ?Z.testbit_0_l. }
  clearbody bit.
  destruct (rc_bit_ok s0 k d s literal (off + u32 (offset + bit + symbol)))
    as (b & s1 & E & Hbb & Hb1); try done.
  { eapply cheap_le; [exact Hk|lia]. }
  { rewrite u32_small; lia. }
  rewrite E. pose proof (tree_child b symbol j Hbb ltac:(lia) Hsym) as Hc.
  set (symbol' := if truthy b then _ else _) in Hc.
  set (offset' := if truthy b then Z.land offset bit else Z.land offset (u32 (Z.lnot bit))).
  assert (Ho' : offset' = 0 \/ offset' = 0x100).
  { unfold offset'. destruct (truthy b), Ho as [-> | ->], Hbit as [->|[-> ?]]; vm_compute; auto. }
  replace (if truthy b then _ else _) with (symbol', offset')
    by (unfold symbol', offset'; by destruct (truthy b)).
  clearbody symbol' offset'. destruct (decide (n = 0%nat)) as [->|Hn0].
  - change (Z.of_nat 1) with 1 in *. replace j with 7 in Hc by lia. change (2 ^ (7 + 1)) with 256 in Hc.
    change (2 ^ (7 + 1 + 1)) with 512 in Hc. destruct (Z.ltb_spec symbol' 0x100); [lia|].
    exists symbol', s1. split; [done|]. by split.
  - assert (Hlt : 2 ^ (j + 1 + 1) <= 2 ^ 8) by (apply Z.pow_le_mono_r; lia).
    destruct (Z.ltb_spec symbol' 0x100); [|lia].
    destruct (IH fuel (k + 1) (j + 1) symbol' (u32 (Z.shiftl mb 1)) offset' s1)
      as (sym & s' & E' & Hb' & Hs'); try done; try lia.
    { by replace (k + 1 + Z.of_nat n - 1) with (k + Z.of_nat (S n) - 1) by lia. }
    { apply u32_range. }
    exists sym, s'. split; [done|]. split; [|done].
    by replace (k + Z.of_nat (S n)) with (k + 1 + Z.of_nat n) by lia.
Qed.

Lemma len_tree s0 k k1 d s1 a off limit m b1 :
  limit = 2 ^ m -> budget s0 k1 d s1 -> fits s0 -> cheap (k + 9) d -> k1 + m <= k + 10 ->
  1 <= m <= 8 -> arr_ok a -> 0 <= off -> off + 2 ^ m <= a_len a -> 2 <= b1 -> b1 + 2 ^ m <= 274 ->
  exists n s', (let* sym := rc_bittree a off limit in st_ret (u32 (b1 + u32 (sym - limit))))%st s1
    = Some (n, s') /\ budget s0 (k + 10) d s' /\ 2 <= n <= 273.
Proof.
  intros -> H1 Hf Hch Hkm Hm Ha Hoff Hl Hb1 Hb2. assert (Hk1 : 0 <= k1) by apply H1.
  destruct (rc_bittree_ok s0 k1 d a off m s1) as (sym & s' & E & H2 & Hs); try done.
  { eapply cheap_le; [exact Hch|lia]. }
  unfold st_bind. rewrite E. unfold st_ret. do 2 eexists. split; [done|].
  split; [eapply budget_weaken; [exact H2|lia]|]. rewrite Z.pow_add_r in Hs by lia.
  rewrite (u32_small (sym - 2 ^ m)) by lia. rewrite u32_small by lia. lia.
Qed.

(** A length is between 2 and 273 and takes at most 10 bits. *)
Lemma lzma_len_ok s0 k d base pos_state s :
  budget s0 k d s -> fits s0 -> cheap (k + 9) d -> 0 <= base -> base + 514 <= PROBS_TOTAL ->
  0 <= pos_state < POS_STATES_MAX ->
  exists n s', lzma_len (len_dec_at base) pos_state s = Some (n, s')
    /\ budget s0 (k + 10) d s' /\ 2 <= n <= 273.
Proof.
  intros Hb Hf Hch Hb0 Hbase Hps. unfold lzma_len. assert (Hk0 : 0 <= k) by apply Hb.
  unfold POS_STATES_MAX in Hps.
  destruct (rc_bit_ok s0 k d s (choice (len_dec_at base)) 0) as (c & s1 & E & Hc & H1); try done.
  { eapply cheap_le; [exact Hch|lia]. }
  { split; simpl; lia. }
  unfold st_bind at 1. rewrite E. unfold st_bind at 1.
  destruct Hc as [-> | ->]; cbn [truthy negb Z.eqb].
  { unfold st_ret at 1. cbv zeta iota beta.
    eapply (len_tree s0 k (k + 1) d s1 _ _ _ 3); try done; try lia; unfold arr_ok; simpl;
      unfold LEN_LOW_SYMBOLS, POS_STATES_MAX, MATCH_LEN_MIN; lia. }
  destruct (rc_bit_ok s0 (k + 1) d s1 (choice2 (len_dec_at base)) 0) as (c2 & s2 & E2 & Hc2 & H2); try done.
  { eapply cheap_le; [exact Hch|lia]. }
  { split; simpl; lia. }
  unfold st_bind at 1. rewrite E2. destruct Hc2 as [-> | ->]; cbn [truthy negb Z.eqb].
  { unfold st_ret at 1. cbv zeta iota beta.
    eapply (len_tree s0 k (k + 1 + 1) d s2 _ _ _ 3); try done; try lia; unfold arr_ok; simpl;
      unfold LEN_MID_SYMBOLS, LEN_LOW_SYMBOLS, POS_STATES_MAX, MATCH_LEN_MIN; lia. }
  { unfold st_ret at 1. cbv zeta iota beta.
    eapply (len_tree s0 k (k + 1 + 1) d s2 _ _ _ 8); try done; try lia; unfold arr_ok; simpl;
      unfold LEN_HIGH_SYMBOLS, LEN_MID_SYMBOLS, LEN_LOW_SYMBOLS, POS_STATES_MAX, MATCH_LEN_MIN; lia. }
Qed.

(** A distance fits in 32 bits. *)
Lemma lzma_distance_ok s0 k len s :
  budget s0 k 0 s -> fits s0 -> k <= 12 -> 2 <= len < 2 ^ 32 ->
  exists dist s', lzma_distance len s = Some (dist, s') /\ spent s0 s' /\ 0 <= dist < 2 ^ 32.
Proof.
  intros Hb Hf Hk Hlen. unfold lzma_distance, st_bind. assert (Hk0 : 0 <= k) by apply Hb.
  assert (Hds : 0 <= lzma_get_dist_state len <= 3).
  { unfold lzma_get_dist_state, DIST_STATES, MATCH_LEN_MIN. case_Z; [rewrite u32_small|]; lia. }
  destruct (rc_bittree_ok s0 k 0 dist_slot_probs (lzma_get_dist_state len * DIST_SLOTS) 6 s)
    as (sym & s1 & E & H1 & Hsym); try done; unfold DIST_SLOTS in *; try lia.
  { unfold cheap. lia. }
  { simpl. unfold DIST_STATES, DIST_SLOTS. lia. }
  change (2 ^ 6) with 64 in *. change (2 ^ (6 + 1)) with 128 in Hsym. rewrite E.
  rewrite (u32_small (sym - 64)) by lia. set (slot := sym - 64).
  assert (Hslot : 0 <= slot < 64) by lia. clearbody slot. clear sym Hsym E.
  unfold DIST_MODEL_START, DIST_MODEL_END.
  destruct (Z.ltb_spec slot 4) as [|Hs4].
  { unfold st_ret. do 2 eexists. split; [done|]. split; [by eapply budget_spent|lia]. }
  destruct (Z.ltb_spec slot 14) as [Hs14|Hs14].
  - assert (Hin : slot ∈ seqZ 4 10) by (apply elem_of_seqZ; lia).
    change (seqZ 4 10) with [4; 5; 6; 7; 8; 9; 10; 11; 12; 13] in Hin.
    assert (Hch : forall m, 0 <= m <= 6 -> cheap (k + 6 + m - 1) 0) by (unfold cheap; lia).
    repeat (apply elem_of_cons in Hin as [-> | Hin]; [
      match goal with |- context [rc_bittree_reverse _ ?o ?r ?l] =>
        let o' := eval vm_compute in o in let r' := eval vm_compute in r in
        let l' := eval vm_compute in l in
        change o with o'; change r with r'; change l with l';
        destruct (rc_bittree_reverse_ok s0 (k + 6) 0 dist_special o' r' l' s1 H1 Hf)
          as (dist & s' & E & H2 & Hd); try done; try (apply Hch; lia);
        exists dist, s'; split; [exact E|]; split; [by eapply budget_spent|];
        lia
      end|]). by apply elem_of_nil in Hin.
  - assert (Hlim : 6 <= Z.shiftr slot 1 - 1 <= 30).
    { rewrite Z.shiftr_div_pow2 by lia. change (2 ^ 1) with 2. Z.to_euclidean_division_equations; lia. }
    set (lim := Z.shiftr slot 1 - 1) in *. clearbody lim. unfold ALIGN_BITS.
    rewrite (u32_small lim), (u32_small (lim - 4)) by lia.
    pose proof (land_le_r slot 1 ltac:(lia)) as Hbit.
    assert (Hp : 2 ^ (lim - 4) <= 2 ^ 26) by (apply Z.pow_le_mono_r; lia).
    assert (Hp0 : 0 < 2 ^ (lim - 4)) by (apply pow2_pos; lia).
    destruct (rc_direct_ok s0 (k + 6) 0 (2 + Z.land slot 1) (lim - 4) s1)
      as (r & s2 & E & H2 & Hr); try done; try lia; [nia|].
    rewrite E. change (Z.shiftl r 4) with (Z.shiftl r 4). rewrite Z.shiftl_mul_pow2 by lia.
    change (2 ^ 4) with 16. rewrite (u32_small (r * 16)) by nia.
    destruct (rc_bittree_reverse_ok s0 (k + 6) (0 + (lim - 4)) dist_align 0 (r * 16) 4 s2)
      as (dist & s' & E' & H3 & Hd); try done; try lia; [unfold cheap; lia|nia|].
    exists dist, s'. split; [exact E'|]. split; [by eapply budget_spent|]. change (2 ^ 4) with 16 in Hd. nia.
Qed.
