(* ===== verification/XzLzmaInv.v ===== *)
(** * The invariant of the LZMA decoder

    What holds between two symbols, and that every symbol and the whole loop keep it. *)

From S2P Require Import Prelude XzDefs XzRange XzDict XzLzma.

(** Valid [lc], [lp] and [pb], the masks derived from them, and values in range. *)
Record lzma_ok (l : lzma_dec) : Prop := {
  ok_rep0 : 0 <= rep0 l < 2 ^ 32;
  ok_rep1 : 0 <= rep1 l < 2 ^ 32;
  ok_rep2 : 0 <= rep2 l < 2 ^ 32;
  ok_rep3 : 0 <= rep3 l < 2 ^ 32;
  ok_state : 0 <= state l < STATES;
  ok_len : 0 <= len l <= 273;
  ok_lc : exists lp, 0 <= lc l /\ 0 <= lp /\ lc l + lp <= 4 /\ literal_pos_mask l = 2 ^ lp - 1;
  ok_pb : exists pb, 0 <= pb <= 4 /\ pos_mask l = 2 ^ pb - 1 }.

(** After a match or a repeat, its distance lies within the history. *)
Definition rep_valid (l : lzma_dec) (d : dictionary) : Prop :=
  LIT_STATES <= state l -> rep0 l < d_full d.

Definition lz_inv (z : lz) (h : list Z) : Prop :=
  rc_ok (z_rc z) /\ dict_rep (z_dict z) (z_out z) h /\ lzma_ok (z_lzma z)
  /\ rep_valid (z_lzma z) (z_dict z).

(** One LZ77 production: a literal byte, or a copy from within the history. *)
Inductive lz_step (h : list Z) : list Z -> Prop :=
| lz_literal byte : is_byte byte -> lz_step h (h ++ [byte])
| lz_match n dist : 0 <= dist < zlen h -> (1 <= n)%nat -> lz_step h (lz_copy n dist h).

(** ** Frames *)

Lemma on_rc_eq {A} (c : st rcs A) z a r :
  c (z_rc z) = Some (a, r) -> on_rc c z = Some (a, LZ r (z_dict z) (z_out z) (z_lzma z)).
Proof. intros E. unfold on_rc. by rewrite E. Qed.

Lemma bind_eq {S A B} (c : st S A) (k : A -> st S B) s a s' :
  c s = Some (a, s') -> st_bind c k s = k a s'.
Proof. intros E. unfold st_bind. by rewrite E. Qed.

Lemma pos_state_range d out h l :
  dict_rep d out h -> lzma_ok l -> 0 <= Z.land (d_pos d) (pos_mask l) < POS_STATES_MAX.
Proof.
  intros [H _] Hl. destruct (hist_pos _ _ _ _ _ _ H). destruct (ok_pb _ Hl) as (pb & Hpb & ->).
  pose proof (land_ones_range (d_pos d) pb ltac:(lia) ltac:(lia)).
  assert (2 ^ pb <= 2 ^ 4) by (apply Z.pow_le_mono_r; lia). unfold POS_STATES_MAX. lia.
Qed.

(** The byte at a valid distance is a byte. *)
Lemma get_byte_ok z h dist :
  dict_rep (z_dict z) (z_out z) h -> 0 <= dist -> dist < d_full (z_dict z) \/ h = [] ->
  exists x, get_byte dist z = Some (x, z) /\ is_byte x /\ x = default 0 (rd h (zlen h - 1 - dist)).
Proof.
  intros Hr Hd Hc. unfold get_byte. rewrite (dict_get_ok _ _ _ _ Hr Hd Hc). simpl.
  eexists. split; [done|]. split; [|done].
  destruct (rd h (zlen h - 1 - dist)) as [x|] eqn:E; simpl; [|done].
  eapply rd_Forall; [|exact E]. apply Hr.
Qed.

Lemma dist0_ok d out h : dict_rep d out h -> d_end d > 0 -> 0 < d_full d \/ h = [].
Proof.
  intros [H _] He. pose proof (hist_full _ _ _ _ _ _ H). destruct h; [by right|].
  left. unfold zlen in *. simpl in *. lia.
Qed.

(** The literal coder is one of the sixteen. *)
Lemma lzma_literal_probs_ok z h :
  dict_rep (z_dict z) (z_out z) h -> lzma_ok (z_lzma z) -> d_end (z_dict z) > 0 ->
  exists row, lzma_literal_probs z = Some (row * LITERAL_CODER_SIZE, z) /\ 0 <= row < LITERAL_CODERS_MAX.
Proof.
  intros Hr Hl He. destruct (get_byte_ok z h 0 Hr ltac:(lia) (dist0_ok _ _ _ Hr He)) as (x & E & Hx & _).
  unfold lzma_literal_probs. rewrite (bind_eq _ _ _ _ _ E). eexists. split; [done|].
  destruct (ok_lc _ Hl) as (lp & Hlc & Hlp & Hsum & ->). unfold is_byte in Hx.
  pose proof (hist_pos _ _ _ _ _ _ (proj1 Hr)) as Hpos.
  set (lc := lc (z_lzma z)) in *. clearbody lc.
  pose proof (land_ones_range (d_pos (z_dict z)) lp ltac:(lia) ltac:(lia)) as Hm.
  set (m := Z.land _ _) in *. clearbody m.
  rewrite Z.shiftl_mul_pow2, Z.shiftr_div_pow2 by lia.
  assert (Hlow : 0 <= x / 2 ^ (8 - lc) < 2 ^ lc).
  { assert (0 < 2 ^ (8 - lc)) by (apply pow2_pos; lia). split; [apply Z.div_pos; lia|].
    apply Z.div_lt_upper_bound; [done|]. rewrite <-Z.pow_add_r by lia.
    replace (8 - lc + lc) with 8 by lia. lia. }
  assert (Hhigh : 0 <= m * 2 ^ lc /\ m * 2 ^ lc + 2 ^ lc <= 16).
  { assert (0 < 2 ^ lc) by (apply pow2_pos; lia). split; [nia|].
    assert (2 ^ lp * 2 ^ lc <= 2 ^ 4) by (rewrite <-Z.pow_add_r by lia; apply Z.pow_le_mono_r; lia).
    change (2 ^ 4) with 16 in *. nia. }
  unfold LITERAL_CODERS_MAX. rewrite (u32_small (m * 2 ^ lc)) by lia. rewrite u32_small; lia.
Qed.

(** ** Symbols *)

(** What a symbol does: the range decoder stays within the input, and the decoder state
    stays valid. *)
Definition after_bits (z z' : lz) : Prop :=
  spent (z_rc z) (z_rc z') /\ z_dict z' = z_dict z /\ z_out z' = z_out z.

Lemma lzma_literal_ok z0 z h k :
  budget (z_rc z0) k 0 (z_rc z) -> fits (z_rc z0) -> k <= 1 ->
  dict_rep (z_dict z) (z_out z) h -> lzma_ok (z_lzma z) -> rep_valid (z_lzma z) (z_dict z) ->
  d_pos (z_dict z) < d_end (z_dict z) ->
  exists z' byte, lzma_literal z = Some (tt, z') /\ spent (z_rc z0) (z_rc z')
    /\ lz_inv z' (h ++ [byte]) /\ is_byte byte
    /\ moved (z_dict z) (z_out z) (z_dict z') (z_out z') 1.
Proof.
  intros Hb Hf Hk Hr Hl Hv Hp. pose proof (hist_pos _ _ _ _ _ _ (proj1 Hr)) as Hpos.
  assert (Hk0 : 0 <= k) by apply Hb.
  destruct (lzma_literal_probs_ok z h Hr Hl ltac:(lia)) as (row & E1 & Hrow).
  unfold lzma_literal. rewrite (bind_eq _ _ _ _ _ E1), (bind_eq get_lzma _ z (z_lzma z) z) by done.
  unfold LITERAL_CODERS_MAX, LITERAL_CODER_SIZE in *.
  assert (Hsym : exists sym r', (if lzma_state_is_literal (state (z_lzma z))
      then on_rc (rc_bittree literal (row * 768) 256)
      else (let* mb := get_byte (rep0 (z_lzma z)) in
            on_rc (matched_loop RC_FUEL (row * 768) 1 (u32 (Z.shiftl mb 1)) 256))%st) z
      = Some (sym, LZ r' (z_dict z) (z_out z) (z_lzma z))
    /\ budget (z_rc z0) (k + 8) 0 r' /\ 256 <= sym < 512).
  { unfold lzma_state_is_literal. destruct (Z.ltb_spec (state (z_lzma z)) LIT_STATES) as [Hs|Hs].
    - destruct (rc_bittree_ok (z_rc z0) k 0 literal (row * 768) 8 (z_rc z))
        as (sym & r' & E & H & Hsym); try done; try lia; [unfold cheap; lia|simpl; unfold LITERAL_CODERS_MAX, LITERAL_CODER_SIZE; lia|].
      change (2 ^ 8) with 256 in *. change (2 ^ (8 + 1)) with 512 in Hsym.
      exists sym, r'. split; [by apply on_rc_eq|]. by split.
    - destruct (get_byte_ok z h (rep0 (z_lzma z)) Hr) as (mb & E & Hmb & _);
        [apply Hl|left; by apply Hv|]. rewrite (bind_eq _ _ _ _ _ E). unfold is_byte in Hmb.
      destruct (matched_loop_ok (z_rc z0) 0 (row * 768) 8 Hf ltac:(lia) ltac:(simpl; unfold LITERAL_CODERS_MAX, LITERAL_CODER_SIZE; lia)
        RC_FUEL k 0 1 (u32 (Z.shiftl mb 1)) 256 (z_rc z)) as (sym & r' & E' & H & Hsym); try done; try lia.
      + unfold cheap. lia.
      + unfold RC_FUEL. lia.
      + apply u32_range.
      + exists sym, r'. split; [by apply on_rc_eq|]. by split. }
  destruct Hsym as (sym & r' & E2 & Hb2 & Hsym). rewrite (bind_eq _ _ _ _ _ E2).
  assert (Hby : is_byte (u8 sym)) by apply u8_range.
  destruct (dict_put_ok (z_dict z) (z_out z) h (u8 sym) Hr Hp Hby) as (d' & out' & E3 & Hr' & Hm).
  rewrite (bind_eq (put_byte (u8 sym)) _ _ tt (LZ r' d' out' (z_lzma z)))
    by (unfold put_byte; simpl; by rewrite E3).
  unfold put_lzma. simpl. eexists _, (u8 sym). split; [done|]. simpl.
  pose proof (budget_spent _ _ _ _ Hb2) as Hsp.
  pose proof (lzma_state_ok _ (ok_state _ Hl)) as (Hst & _).
  split; [done|]. split; [|by split].
  split; [apply Hsp|]. split; [done|]. simpl. split.
  - destruct Hl. split; simpl; try done. unfold STATES, LIT_STATES in *. lia.
  - intros Hs. simpl in Hs. lia.
Qed.

(** A decoded match: the state says so, and the length and distance are to be repeated. *)
Definition matched (z0 z z' : lz) : Prop :=
  spent (z_rc z0) (z_rc z') /\ z_dict z' = z_dict z /\ z_out z' = z_out z
  /\ lzma_ok (z_lzma z') /\ LIT_STATES <= state (z_lzma z') /\ 1 <= len (z_lzma z').

Lemma lzma_match_ok z0 z pos_state :
  budget (z_rc z0) 2 0 (z_rc z) -> fits (z_rc z0) -> lzma_ok (z_lzma z) ->
  0 <= pos_state < POS_STATES_MAX ->
  exists z', lzma_match pos_state z = Some (tt, z') /\ matched z0 z z'.
Proof.
  intros Hb Hf Hl Hps. unfold lzma_match. rewrite (bind_eq get_lzma _ z (z_lzma z) z) by done.
  destruct (lzma_len_ok (z_rc z0) 2 0 818 pos_state (z_rc z)) as (n & r1 & E1 & H1 & Hn); try done.
  { unfold cheap. lia. }
  rewrite (bind_eq _ _ _ _ _ (on_rc_eq _ _ _ _ E1)).
  destruct (lzma_distance_ok (z_rc z0) (2 + 10) n r1) as (dist & r2 & E2 & H2 & Hd); try done; try lia.
  pose proof (on_rc_eq (lzma_distance n) (LZ r1 (z_dict z) (z_out z) (z_lzma z)) _ _ E2) as E3.
  cbv zeta. rewrite (bind_eq _ _ _ _ _ E3).
  unfold put_lzma. eexists. split; [done|].
  pose proof (lzma_state_ok _ (ok_state _ Hl)) as (_ & Hst & _).
  split; [done|]. split; [done|]. split; [done|]. simpl. split; [|lia].
  destruct Hl. split; simpl; try done; try lia. unfold LIT_STATES in *. lia.
Qed.

Lemma lzma_long_rep_ok z0 z pos_state l k :
  budget (z_rc z0) k 0 (z_rc z) -> fits (z_rc z0) -> k <= 5 -> lzma_ok l ->
  0 <= pos_state < POS_STATES_MAX ->
  exists z', lzma_long_rep pos_state l z = Some (tt, z') /\ matched z0 z z'.
Proof.
  intros Hb Hf Hk Hl Hps. unfold lzma_long_rep. assert (Hk0 : 0 <= k) by apply Hb.
  destruct (lzma_len_ok (z_rc z0) k 0 1332 pos_state (z_rc z)) as (n & r1 & E1 & H1 & Hn); try done.
  { unfold cheap. lia. }
  rewrite (bind_eq _ _ _ _ _ (on_rc_eq _ _ _ _ E1)). unfold put_lzma. eexists. split; [done|].
  pose proof (lzma_state_ok _ (ok_state _ Hl)) as (_ & _ & Hst & _).
  split; [by eapply budget_spent|]. split; [done|]. split; [done|]. simpl. split; [|lia].
  destruct Hl. split; simpl; try done; try lia. unfold LIT_STATES in *. lia.
Qed.

(** A bit of one of the arrays indexed by the state. *)
Lemma state_bit_ok z0 z k a i :
  budget (z_rc z0) k 0 (z_rc z) -> fits (z_rc z0) -> 0 <= k <= 21 -> arr_ok a -> 0 <= i < a_len a ->
  exists b r, on_rc (rc_bit a i) z = Some (b, LZ r (z_dict z) (z_out z) (z_lzma z))
    /\ (b = 0 \/ b = 1) /\ budget (z_rc z0) (k + 1) 0 r.
Proof.
  intros Hb Hf Hk Ha Hi.
  destruct (rc_bit_ok (z_rc z0) k 0 (z_rc z) a i) as (b & r & E & Hbit & H); try done.
  { unfold cheap. lia. }
  exists b, r. split; [by apply on_rc_eq|]. by split.
Qed.

Lemma lzma_ok_reps l r0 r1 r2 r3 :
  lzma_ok l -> 0 <= r0 < 2 ^ 32 -> 0 <= r1 < 2 ^ 32 -> 0 <= r2 < 2 ^ 32 -> 0 <= r3 < 2 ^ 32 ->
  lzma_ok (set_reps r0 r1 r2 r3 l).
Proof. intros []. by split. Qed.

Lemma lzma_rep_match_ok z0 z pos_state :
  budget (z_rc z0) 2 0 (z_rc z) -> fits (z_rc z0) -> lzma_ok (z_lzma z) ->
  0 <= pos_state < POS_STATES_MAX ->
  exists z', lzma_rep_match pos_state z = Some (tt, z') /\ matched z0 z z'.
Proof.
  intros Hb Hf Hl Hps. unfold lzma_rep_match. rewrite (bind_eq get_lzma _ z (z_lzma z) z) by done.
  pose proof (ok_state _ Hl) as Hst. unfold POS_STATES_MAX in *.
  destruct (state_bit_ok z0 z 2 is_rep0 (state (z_lzma z))) as (b0 & r0 & E0 & Hb0 & H0); try done; try lia.
  rewrite (bind_eq _ _ _ _ _ E0). destruct Hb0 as [-> | ->]; cbn [truthy negb Z.eqb].
  { set (z1 := LZ r0 (z_dict z) (z_out z) (z_lzma z)).
    destruct (state_bit_ok z0 z1 (2 + 1) is_rep0_long (state (z_lzma z) * 16 + pos_state))
      as (bl & rl & El & Hbl & H1); try done; try lia.
    { simpl. unfold STATES, POS_STATES_MAX in *. lia. }
    rewrite (bind_eq _ _ _ _ _ El). destruct Hbl as [-> | ->]; cbn [truthy negb Z.eqb].
    - unfold put_lzma. eexists. split; [done|].
      pose proof (lzma_state_ok _ (ok_state _ Hl)) as (_ & _ & _ & Hs).
      split; [by eapply budget_spent|]. split; [done|]. split; [done|]. simpl. split; [|lia].
      destruct Hl. split; simpl; try done; try lia. unfold LIT_STATES in *. lia.
    - apply (lzma_long_rep_ok z0 (LZ rl (z_dict z1) (z_out z1) (z_lzma z1)) _ _ (2 + 1 + 1)); done. }
  set (z1 := LZ r0 (z_dict z) (z_out z) (z_lzma z)).
  destruct (state_bit_ok z0 z1 (2 + 1) is_rep1 (state (z_lzma z)))
    as (b1 & r1 & E1 & Hb1 & H1); try done; try lia.
  rewrite (bind_eq _ _ _ _ _ E1). destruct Hb1 as [-> | ->]; cbn [truthy negb Z.eqb].
  { apply (lzma_long_rep_ok z0 (LZ r1 (z_dict z1) (z_out z1) (z_lzma z1)) _ _ (2 + 1 + 1)); try done.
    apply lzma_ok_reps; try done; apply Hl. }
  set (z2 := LZ r1 (z_dict z1) (z_out z1) (z_lzma z1)).
  destruct (state_bit_ok z0 z2 (2 + 1 + 1) is_rep2 (state (z_lzma z)))
    as (b2 & r2 & E2 & Hb2 & H2); try done; try lia.
  rewrite (bind_eq _ _ _ _ _ E2). destruct Hb2 as [-> | ->]; cbn [truthy negb Z.eqb];
    apply (lzma_long_rep_ok z0 (LZ r2 (z_dict z2) (z_out z2) (z_lzma z2)) _ _ (2 + 1 + 1 + 1)); try done;
    apply lzma_ok_reps; try done; apply Hl.
Qed.

(** Repeating a match keeps the invariant when the distance is valid, and otherwise
    changes nothing. *)
Lemma repeat_match_ok z h :
  rc_ok (z_rc z) -> dict_rep (z_dict z) (z_out z) h -> lzma_ok (z_lzma z) ->
  1 <= len (z_lzma z) -> d_pos (z_dict z) < d_limit (z_dict z) <= d_end (z_dict z) ->
  (exists z' n, repeat_match z = Some (true, z') /\ z_rc z' = z_rc z
     /\ n = Z.min (d_limit (z_dict z) - d_pos (z_dict z)) (len (z_lzma z))
     /\ 0 <= rep0 (z_lzma z) < zlen h
     /\ lz_inv z' (lz_copy (Z.to_nat n) (rep0 (z_lzma z)) h)
     /\ moved (z_dict z) (z_out z) (z_dict z') (z_out z') n)
  \/ repeat_match z = Some (false, z).
Proof.
  intros Hrc Hr Hl Hlen Hlim. pose proof (ok_len _ Hl). pose proof (ok_rep0 _ Hl).
  pose proof (dict_repeat_ok (z_dict z) (z_out z) h (len (z_lzma z)) (rep0 (z_lzma z)) Hr Hlim
    ltac:(lia) ltac:(lia)) as Hrep. unfold repeat_match.
  destruct (_ || _) eqn:Ec.
  - right. rewrite Hrep. simpl. destruct z as [r d out l]. simpl. by destruct l.
  - left. destruct Hrep as (d' & out' & E & Hd & Hr' & Hm). rewrite E. simpl.
    eexists _, _. split; [done|]. split; [done|]. split; [done|].
    pose proof (hist_full _ _ _ _ _ _ (proj1 Hr)). split; [lia|]. split; [|exact Hm].
    split; [done|]. split; [done|]. simpl. split.
    + destruct Hl. split; simpl; try done. lia.
    + intros _. simpl. pose proof (hist_full _ _ _ _ _ _ (proj1 Hr')) as Hf'.
      rewrite lz_copy_zlen, (moved_end _ _ _ _ _ Hm) in Hf'. lia.
Qed.

(** ** The loop *)

Lemma symbol_moved d out d' out' n : moved d out d' out' n -> d_limit d' = d_limit d /\ d_end d' = d_end d.
Proof. by intros []. Qed.

(** One symbol either extends the history by one production or reports bad data without
    touching the dictionary. *)
Lemma lzma_symbol_ok z h :
  lz_inv z h -> fits (z_rc z) -> d_pos (z_dict z) < d_limit (z_dict z) <= d_end (z_dict z) ->
  exists ok z', lzma_symbol z = Some (ok, z') /\ spent (z_rc z) (z_rc z')
    /\ if ok : bool
       then exists h' n, lz_step h h' /\ zlen h' = zlen h + n
              /\ 1 <= n <= d_limit (z_dict z) - d_pos (z_dict z)
              /\ lz_inv z' h' /\ moved (z_dict z) (z_out z) (z_dict z') (z_out z') n
       else z_dict z' = z_dict z /\ z_out z' = z_out z.
Proof.
  intros (Hrc & Hr & Hl & Hv) Hf Hlim. unfold lzma_symbol.
  rewrite (bind_eq st_get _ z z z) by done. cbv zeta.
  pose proof (pos_state_range _ _ _ _ Hr Hl) as Hps. set (ps := Z.land _ _) in *. clearbody ps.
  pose proof (ok_state _ Hl) as Hst. unfold POS_STATES_MAX in *.
  destruct (state_bit_ok z z 0 is_match (state (z_lzma z) * 16 + ps)) as (b & r & E & Hb & H1); try done; try lia.
  { by apply budget_init. }
  { simpl. unfold STATES, POS_STATES_MAX in *. lia. }
  rewrite (bind_eq _ _ _ _ _ E). set (z1 := LZ r (z_dict z) (z_out z) (z_lzma z)).
  destruct Hb as [-> | ->]; cbn [truthy negb Z.eqb].
  { destruct (lzma_literal_ok z z1 h (0 + 1)) as (z' & byte & E' & Hsp & Hi & Hby & Hm); try done; try lia;
      [simpl; lia|].
    rewrite (bind_eq _ _ _ _ _ E'). unfold st_ret. exists true, z'. split; [done|]. split; [done|].
    exists (h ++ [byte]), 1. split; [by constructor|]. rewrite zlen_app. split; [done|].
    split; [lia|]. by split. }
  destruct (state_bit_ok z z1 (0 + 1) is_rep (state (z_lzma z))) as (b2 & r2 & E2 & Hb2 & H2); try done; try lia.
  rewrite (bind_eq _ _ _ _ _ E2). set (z2 := LZ r2 (z_dict z1) (z_out z1) (z_lzma z1)).
  assert (Hmatch : exists z3, (if truthy b2 then lzma_rep_match ps else lzma_match ps) z2 = Some (tt, z3)
    /\ matched z z2 z3).
  { destruct (truthy b2); [apply lzma_rep_match_ok|apply lzma_match_ok]; done. }
  destruct Hmatch as (z3 & E3 & Hsp & Ed & Eo & Hl3 & Hs3 & Hn3). rewrite (bind_eq _ _ _ _ _ E3).
  destruct (repeat_match_ok z3 h) as [(z4 & n & E4 & Er & Hn & Hrep & Hi & Hm)|E4]; try done.
  { apply Hsp. }
  { rewrite Ed, Eo. done. }
  { rewrite Ed. done. }
  - exists true, z4. split; [done|]. split; [by rewrite Er|].
    rewrite Ed, Eo in Hm. rewrite Ed in Hn. change (z_dict z2) with (z_dict z) in *.
    exists (lz_copy (Z.to_nat n) (rep0 (z_lzma z3)) h), n. split; [apply lz_match; [exact Hrep|lia]|].
    rewrite lz_copy_zlen. split; [lia|]. split; [lia|]. by split.
  - exists false, z3. split; [done|]. split; [done|]. by rewrite Ed, Eo.
Qed.

(** What the loop leaves: the history grew by LZ77 productions, the input was read up to
    20 bytes beyond the limit. *)
Definition lzma_ran (z z' : lz) (h h' : list Z) : Prop :=
  rtc lz_step h h' /\ rc_ok (z_rc z') /\ dict_rep (z_dict z') (z_out z') h'
  /\ moved (z_dict z) (z_out z) (z_dict z') (z_out z') (zlen h' - zlen h)
  /\ zlen h <= zlen h' /\ d_pos (z_dict z') <= d_limit (z_dict z)
  /\ rc_in (fst (z_rc z')) = rc_in (fst (z_rc z))
  /\ rc_in_limit (fst (z_rc z')) = rc_in_limit (fst (z_rc z))
  /\ init_bytes_left (fst (z_rc z')) = init_bytes_left (fst (z_rc z))
  /\ rc_in_pos (fst (z_rc z)) <= rc_in_pos (fst (z_rc z')).

Lemma lzma_ran_refl z h :
  rc_ok (z_rc z) -> dict_rep (z_dict z) (z_out z) h -> d_pos (z_dict z) <= d_limit (z_dict z) ->
  lzma_ran z z h h.
Proof.
  intros Hrc Hr Hp. unfold lzma_ran. rewrite Z.sub_diag. split; [done|]. split; [done|]. split; [done|].
  split; [apply moved_refl|]. by split_and!.
Qed.

Lemma lzma_loop_ok fuel : forall z h,
  lz_inv z h -> d_pos (z_dict z) <= d_limit (z_dict z) <= d_end (z_dict z) ->
  d_limit (z_dict z) - d_pos (z_dict z) <= Z.of_nat fuel ->
  0 <= rc_in_pos (fst (z_rc z)) <= rc_in_limit (fst (z_rc z)) + 20 ->
  rc_in_limit (fst (z_rc z)) + 20 <= zlen (rc_in (fst (z_rc z))) ->
  exists ok z' h', lzma_loop fuel z = Some (ok, z') /\ lzma_ran z z' h h'
    /\ rc_in_pos (fst (z_rc z')) <= rc_in_limit (fst (z_rc z)) + 20
    /\ (ok = true -> lz_inv z' h'
        /\ (d_pos (z_dict z') = d_limit (z_dict z') \/ rc_in_limit (fst (z_rc z')) < rc_in_pos (fst (z_rc z')))
        /\ (d_pos (z_dict z) < d_limit (z_dict z) ->
            rc_in_pos (fst (z_rc z)) <= rc_in_limit (fst (z_rc z)) -> zlen h < zlen h')).
Proof.
  induction fuel as [|fuel IH]; intros z h Hi Hlim Hfuel Hin Hlen;
    cbn [lzma_loop]; unfold dict_has_space, rc_limit_exceeded;
    destruct ((d_pos (z_dict z) <? d_limit (z_dict z)) && _) eqn:Ec; zify_bools.
  1: lia.
  1, 3: exists true, z, h; split; [done|]; split; [|split; [lia|]]; [|intros _; split; [done|]; lia];
    apply lzma_ran_refl; [apply Hi|apply Hi|lia].
  destruct Ec as [Hsp Hle].
  destruct (lzma_symbol_ok z h Hi) as (ok & z1 & E & Hspent & Hok).
  { split; lia. }
  { lia. }
  rewrite (bind_eq _ _ _ _ _ E). destruct Hspent as (Hrc1 & Hin1 & Hl1 & Hi1 & Hp1).
  destruct ok; cycle 1.
  { destruct Hok as [Ed Eo]. exists false, z1, h. split; [done|]. split; [|split; [lia|done]].
    unfold lzma_ran. rewrite Z.sub_diag, Ed, Eo.
    split; [done|]. split; [done|]. split; [apply Hi|]. split; [apply moved_refl|].
    split; [lia|]. split; [lia|]. split; [done|]. split; [done|]. split; [done|lia]. }
  destruct Hok as (h1 & n & Hstep & Hlen1 & Hn & Hinv1 & Hm).
  pose proof (moved_pos _ _ _ _ _ Hm) as Hmp. pose proof (moved_limit _ _ _ _ _ Hm) as Hml.
  pose proof (moved_end _ _ _ _ _ Hm) as Hme.
  destruct (IH z1 h1 Hinv1) as (ok2 & z2 & h2 & E2 & Hran & Hpos2 & Hok2);
    rewrite ?Hmp, ?Hml, ?Hme, ?Hl1, ?Hin1; try lia.
  exists ok2, z2, h2. split; [done|].
  destruct Hran as (R1 & R2 & R3 & R4 & R5 & R6 & R7 & R8 & R9 & R10).
  split; [|split; [lia|]].
  2: { intros Ht. destruct (Hok2 Ht) as (K1 & K2 & _). split; [done|]. split; [done|]. lia. }
  split; [by eapply rtc_l|]. split; [done|]. split; [done|].
  split; [replace (zlen h2 - zlen h) with (n + (zlen h2 - zlen h1)) by lia; by eapply moved_trans; [lia|..]|].
  split; [lia|]. split; [lia|]. split; [congruence|]. split; [congruence|]. split; [congruence|lia].
Qed.

(** The limits [lzma2_lzma] sets up: every read is within the input. *)
Definition rc_window (rc : rc_dec) : Prop :=
  0 <= rc_in_pos rc <= rc_in_limit rc /\ rc_in_limit rc + LZMA_IN_REQUIRED <= zlen (rc_in rc).

Lemma lzma_ran_trans z1 z2 z3 h1 h2 h3 :
  lzma_ran z1 z2 h1 h2 -> lzma_ran z2 z3 h2 h3 -> lzma_ran z1 z3 h1 h3.
Proof.
  intros (A1 & A2 & A3 & A4 & A5 & A6 & A7 & A8 & A9 & A10) (B1 & B2 & B3 & B4 & B5 & B6 & B7 & B8 & B9 & B10).
  pose proof (moved_limit _ _ _ _ _ A4).
  split; [by etrans|]. split; [done|]. split; [done|].
  split; [replace (zlen h3 - zlen h1) with ((zlen h2 - zlen h1) + (zlen h3 - zlen h2)) by lia;
    eapply moved_trans; [lia|done|done]|].
  split; [lia|]. split; [lia|]. split; [congruence|]. split; [congruence|]. split; [congruence|lia].
Qed.

(** The pending part of a match that an earlier call could not finish. *)
Lemma lzma_pending_ok z h :
  lz_inv z h -> d_pos (z_dict z) <= d_limit (z_dict z) <= d_end (z_dict z) ->
  exists ok z' h',
    (if dict_has_space (z_dict z) && (0 <? len (z_lzma z)) then repeat_match else st_ret true) z
      = Some (ok, z')
    /\ z_rc z' = z_rc z /\ lzma_ran z z' h h' /\ lz_inv z' h'.
Proof.
  intros Hi Hlim. pose proof Hi as (Hrc & Hr & Hl & Hv). unfold dict_has_space.
  assert (Href : lzma_ran z z h h) by (apply lzma_ran_refl; [done|done|lia]).
  destruct ((d_pos (z_dict z) <? d_limit (z_dict z)) && (0 <? len (z_lzma z))) eqn:Ec; zify_bools.
  2: { by exists true, z, h. }
  destruct Ec as [Hsp Hlen].
  destruct (repeat_match_ok z h) as [(z' & n & E & Er & Hn & Hrep & Hi' & Hm)|E]; try done; try lia.
  - exists true, z', (lz_copy (Z.to_nat n) (rep0 (z_lzma z)) h). split; [done|]. split; [done|]. split; [|done].
    pose proof (moved_pos _ _ _ _ _ Hm). unfold lzma_ran. rewrite lz_copy_zlen, Er.
    split; [apply rtc_once, lz_match; [done|lia]|]. split; [done|]. split; [apply Hi'|].
    split; [by replace (zlen h + Z.of_nat (Z.to_nat n) - zlen h) with n by lia|].
    split; [lia|]. split; [lia|]. by split_and!.
  - by exists false, z, h.
Qed.

(** [lzma_main] never leaves its buffers.  On success it stopped because the dictionary
    limit was reached or because the input limit was passed. *)
Lemma lzma_main_ok z h :
  lz_inv z h -> d_pos (z_dict z) <= d_limit (z_dict z) <= d_end (z_dict z) ->
  rc_window (fst (z_rc z)) ->
  exists ok z' h', lzma_main z = Some (ok, z') /\ lzma_ran z z' h h'
    /\ rc_in_pos (fst (z_rc z')) <= rc_in_limit (fst (z_rc z)) + LZMA_IN_REQUIRED
    /\ (ok = true -> lz_inv z' h'
        /\ (d_pos (z_dict z') = d_limit (z_dict z') \/ rc_in_limit (fst (z_rc z')) < rc_in_pos (fst (z_rc z')))
        /\ RC_TOP_VALUE <= rc_range (fst (z_rc z'))
        /\ (d_pos (z_dict z) < d_limit (z_dict z) -> zlen h < zlen h')).
Proof.
  intros Hi Hlim [Hw1 Hw2]. unfold LZMA_IN_REQUIRED in *. unfold lzma_main.
  rewrite (bind_eq st_get _ z z z) by done.
  destruct (lzma_pending_ok z h Hi Hlim) as (okp & z1 & h1 & E1 & Erc & Hran1 & Hi1).
  rewrite (bind_eq _ _ _ _ _ E1), (bind_eq st_get _ z1 z1 z1) by done.
  pose proof Hran1 as (_ & _ & _ & Hm1 & _ & Hp1 & _).
  pose proof (moved_limit _ _ _ _ _ Hm1) as Hl1. pose proof (moved_end _ _ _ _ _ Hm1) as He1.
  destruct (lzma_loop_ok (Z.to_nat (d_limit (z_dict z1) - d_pos (z_dict z1))) z1 h1 Hi1)
    as (ok & z2 & h2 & E2 & Hran2 & Hpos2 & Hok2); rewrite ?Erc; try lia.
  rewrite (bind_eq _ _ _ _ _ E2). rewrite Erc in Hpos2.
  pose proof (lzma_ran_trans _ _ _ _ _ _ Hran1 Hran2) as Hran.
  destruct ok; cycle 1.
  { unfold st_ret. exists false, z2, h2. split; [done|]. split; [done|]. split; [lia|done]. }
  destruct (Hok2 eq_refl) as (Hi2 & Hstop & Hgrow). clear Hok2.
  assert (Hgrow' : d_pos (z_dict z) < d_limit (z_dict z) -> zlen h < zlen h2).
  { intros Hsp. pose proof Hran1 as (_ & _ & _ & _ & G1 & _). pose proof Hran2 as (_ & _ & _ & _ & G2 & _).
    pose proof (moved_pos _ _ _ _ _ Hm1). rewrite Erc in Hgrow.
    destruct (decide (zlen h < zlen h1)); [lia|]. assert (zlen h1 < zlen h2) by (apply Hgrow; lia). lia. }
  destruct Hran as (R1 & R2 & R3 & R4 & R5 & R6 & R7 & R8 & R9 & R10).
  unfold rc_normalize. destruct (Z.ltb_spec (rc_range (fst (z_rc z2))) RC_TOP_VALUE) as [Hr|Hr].
  - destruct (rd_Some (rc_in (fst (z_rc z2))) (rc_in_pos (fst (z_rc z2)))) as [x Ex]; [rewrite R7; lia|].
    rewrite Ex. simpl. eexists true, _, h2. split; [done|]. simpl.
    destruct Hi2 as (Hrc2 & Hr2 & Hl2 & Hv2).
    set (rc' := RC _ _ _ _ _ _).
    assert (Hrc' : rc_ok (rc', snd (z_rc z2)) /\ RC_TOP_VALUE <= rc_range rc').
    { destruct Hrc2 as (Hra & Hc & Hp & Hpl). unfold rc_ok, rc', RC_TOP_VALUE, RC_MIN in *. simpl.
      rewrite Z.shiftl_mul_pow2 by (unfold RC_SHIFT_BITS; lia). change (2 ^ RC_SHIFT_BITS) with 256.
      rewrite (u32_small (rc_range _ * 256)) by lia.
      split; [|lia]. split; [lia|]. split; [apply u32_range|]. by split. }
    destruct Hrc' as [Hrc' Htop].
    split; [|split; [lia|]].
    + unfold lzma_ran. simpl. split; [done|]. split; [done|]. split; [done|]. split; [done|].
      split; [done|]. split; [done|]. split; [done|]. split; [done|]. split; [done|lia].
    + intros _. split; [split; [done|]; by split|]. split; [|by split]. destruct Hstop; [by left|right; lia].
  - simpl. eexists true, _, h2. split; [done|]. destruct z2 as [[rc2 p2] d2 o2 l2]. simpl in *.
    split; [|split; [lia|]].
    + unfold lzma_ran. simpl. by split_and!.
    + intros _. split; [done|]. by split.
Qed.
