(* ===== verification/XzLzma2.v ===== *)
(** * The LZMA2 decoder (xz-embedded/xz_dec_lzma2.c, "LZMA2")

    The chunk layer: control bytes, chunk sizes, properties, and the calls of the LZMA
    decoder on a caller-supplied buffer that may end anywhere. *)

From S2P Require Import Prelude XzDefs XzRange XzDict XzLzma.

Inductive lzma2_seq :=
| SEQ_CONTROL | SEQ_UNCOMPRESSED_1 | SEQ_UNCOMPRESSED_2 | SEQ_COMPRESSED_0 | SEQ_COMPRESSED_1
| SEQ_PROPERTIES | SEQ_LZMA_PREPARE | SEQ_LZMA_RUN | SEQ_COPY.

#[global] Instance lzma2_seq_eq_dec : EqDecision lzma2_seq.
Proof. solve_decision. Defined.

Record lzma2_dec := L2 {
  sequence : lzma2_seq; next_sequence : lzma2_seq;
  uncompressed : Z; compressed : Z; need_dict_reset : bool; need_props : bool }.

Record xz_dec_lzma2 := XzLzma2 {
  s_rc : rc_dec; s_dict : dictionary; s_lzma2 : lzma2_dec; s_lzma : lzma_dec;
  s_probs : list Z; temp_size : Z; temp_buf : list Z }.

Definition TEMP_SIZE : Z := 3 * LZMA_IN_REQUIRED.

(** ** Updates *)

Definition with_rc (rc : rc_dec) (s : xz_dec_lzma2) : xz_dec_lzma2 :=
  XzLzma2 rc (s_dict s) (s_lzma2 s) (s_lzma s) (s_probs s) (temp_size s) (temp_buf s).
Definition with_dict (d : dictionary) (s : xz_dec_lzma2) : xz_dec_lzma2 :=
  XzLzma2 (s_rc s) d (s_lzma2 s) (s_lzma s) (s_probs s) (temp_size s) (temp_buf s).
Definition with_lzma2 (l2 : lzma2_dec) (s : xz_dec_lzma2) : xz_dec_lzma2 :=
  XzLzma2 (s_rc s) (s_dict s) l2 (s_lzma s) (s_probs s) (temp_size s) (temp_buf s).
Definition with_temp (n : Z) (buf : list Z) (s : xz_dec_lzma2) : xz_dec_lzma2 :=
  XzLzma2 (s_rc s) (s_dict s) (s_lzma2 s) (s_lzma s) (s_probs s) n buf.
Definition with_lz (z : lz) (s : xz_dec_lzma2) : xz_dec_lzma2 :=
  XzLzma2 (fst (z_rc z)) (z_dict z) (s_lzma2 s) (z_lzma z) (snd (z_rc z)) (temp_size s) (temp_buf s).

Definition lz_of (s : xz_dec_lzma2) (out : list Z) : lz :=
  LZ (s_rc s, s_probs s) (s_dict s) out (s_lzma s).

Definition set_seq (q : lzma2_seq) (l : lzma2_dec) : lzma2_dec :=
  L2 q (next_sequence l) (uncompressed l) (compressed l) (need_dict_reset l) (need_props l).
Definition set_next (q : lzma2_seq) (l : lzma2_dec) : lzma2_dec :=
  L2 (sequence l) q (uncompressed l) (compressed l) (need_dict_reset l) (need_props l).
Definition set_uncompressed (n : Z) (l : lzma2_dec) : lzma2_dec :=
  L2 (sequence l) (next_sequence l) n (compressed l) (need_dict_reset l) (need_props l).
Definition set_compressed (n : Z) (l : lzma2_dec) : lzma2_dec :=
  L2 (sequence l) (next_sequence l) (uncompressed l) n (need_dict_reset l) (need_props l).
Definition set_needs (dict_reset props : bool) (l : lzma2_dec) : lzma2_dec :=
  L2 (sequence l) (next_sequence l) (uncompressed l) (compressed l) dict_reset props.

(** ** lzma2_lzma *)

(** [lzma_main(s)] with [rc.in], [rc.in_pos] and [rc.in_limit] set. *)
Definition call_main (inp : list Z) (pos limit : Z) (s : xz_dec_lzma2) (b : xz_buf)
  : option (bool * xz_dec_lzma2 * xz_buf) :=
  let s := with_rc (set_rc_input inp pos limit (s_rc s)) s in
  '(ok, z) ← lzma_main (lz_of s (b_out b));
  Some (ok, with_lz z s, set_out (z_out z) b).

(** The bytes kept in [temp] and what is read after them; [Some r] is [return r]. *)
Definition lzma2_temp (s : xz_dec_lzma2) (b : xz_buf)
  : option (option bool * xz_dec_lzma2 * xz_buf) :=
  let in_avail := in_size b - b_in_pos b in
  let l2 := s_lzma2 s in
  if (0 <? temp_size s) || (compressed l2 =? 0) then
    let tmp := u32 (2 * LZMA_IN_REQUIRED - temp_size s) in
    let tmp := if u32 (compressed l2 - temp_size s) <? tmp then u32 (compressed l2 - temp_size s) else tmp in
    let tmp := if in_avail <? tmp then in_avail else tmp in
    xs ← rds (b_in b) (b_in_pos b) tmp;
    buf ← wrs (temp_buf s) (temp_size s) xs;
    let total := u32 (temp_size s + tmp) in
    if negb (total =? compressed l2) && (total <? LZMA_IN_REQUIRED) then
      Some (Some true, with_temp total buf s, set_in_pos (b_in_pos b + tmp) b)
    else
      '(buf, limit) ←
        (if total =? compressed l2 then
           buf ← wrs buf total (replicate (Z.to_nat (usz (TEMP_SIZE - temp_size s - tmp))) 0);
           Some (buf, total)
         else Some (buf, u32 (total - LZMA_IN_REQUIRED)));
      let s := with_temp (temp_size s) buf s in
      '(ok, s, b) ← call_main buf 0 limit s b;
      if negb ok || (total <? rc_in_pos (s_rc s)) then Some (Some false, s, b)
      else
        let n := rc_in_pos (s_rc s) in
        let s := with_lzma2 (set_compressed (u32 (compressed (s_lzma2 s) - n)) (s_lzma2 s)) s in
        if n <? temp_size s then
          let size := u32 (temp_size s - n) in
          ys ← rds (temp_buf s) n size;
          buf ← wrs (temp_buf s) 0 ys;
          Some (Some true, with_temp size buf s, b)
        else
          Some (None, with_temp 0 (temp_buf s) s, set_in_pos (b_in_pos b + (n - temp_size s)) b)
  else Some (None, s, b).

(** Decoding from the caller's buffer; [false] is [return false]. *)
Definition lzma2_direct (s : xz_dec_lzma2) (b : xz_buf) : option (bool * xz_dec_lzma2 * xz_buf) :=
  let in_avail := in_size b - b_in_pos b in
  if LZMA_IN_REQUIRED <=? in_avail then
    let limit :=
      if u32 (compressed (s_lzma2 s) + LZMA_IN_REQUIRED) <=? in_avail
      then b_in_pos b + compressed (s_lzma2 s)
      else in_size b - LZMA_IN_REQUIRED in
    '(ok, s, b) ← call_main (b_in b) (b_in_pos b) limit s b;
    if negb ok then Some (false, s, b)
    else
      let used := usz (rc_in_pos (s_rc s) - b_in_pos b) in
      if compressed (s_lzma2 s) <? used then Some (false, s, b)
      else
        Some (true, with_lzma2 (set_compressed (u32 (compressed (s_lzma2 s) - used)) (s_lzma2 s)) s,
              set_in_pos (rc_in_pos (s_rc s)) b)
  else Some (true, s, b).

(** Keeping the last input bytes for the next call. *)
Definition lzma2_save (s : xz_dec_lzma2) (b : xz_buf) : option (xz_dec_lzma2 * xz_buf) :=
  let in_avail := in_size b - b_in_pos b in
  if in_avail <? LZMA_IN_REQUIRED then
    let in_avail := if compressed (s_lzma2 s) <? in_avail then compressed (s_lzma2 s) else in_avail in
    xs ← rds (b_in b) (b_in_pos b) in_avail;
    buf ← wrs (temp_buf s) 0 xs;
    Some (with_temp (u32 in_avail) buf s, set_in_pos (b_in_pos b + in_avail) b)
  else Some (s, b).

Definition lzma2_lzma (s : xz_dec_lzma2) (b : xz_buf) : option (bool * xz_dec_lzma2 * xz_buf) :=
  '(ret, s, b) ← lzma2_temp s b;
  match ret with
  | Some r => Some (r, s, b)
  | None =>
    '(ok, s, b) ← lzma2_direct s b;
    if negb ok then Some (false, s, b)
    else '(s, b) ← lzma2_save s b; Some (true, s, b)
  end.

(** ** xz_dec_lzma2_run *)

(** How a [case] of the [switch] ends: [return r], or [break] to the next round. *)
Inductive flow := Ret (r : xz_ret) | Next.

Definition stepr : Type := option (flow * xz_dec_lzma2 * xz_buf).

(** [b->in[b->in_pos++]]. *)
Definition next_byte (b : xz_buf) : option (Z * xz_buf) :=
  x ← rd (b_in b) (b_in_pos b); Some (x, set_in_pos (b_in_pos b + 1) b).

Definition seq_control (s : xz_dec_lzma2) (b : xz_buf) : stepr :=
  '(tmp, b) ← next_byte b;
  if tmp =? 0x00 then Some (Ret XZ_STREAM_END, s, b)
  else
    let reset := (0xE0 <=? tmp) || (tmp =? 0x01) in
    if negb reset && need_dict_reset (s_lzma2 s) then Some (Ret XZ_DATA_ERROR, s, b)
    else
      let s := if reset
        then with_dict (dict_reset (s_dict s) b) (with_lzma2 (set_needs false true (s_lzma2 s)) s)
        else s in
      if 0x80 <=? tmp then
        let s := with_lzma2 (set_seq SEQ_UNCOMPRESSED_1
                   (set_uncompressed (Z.shiftl (Z.land tmp 0x1F) 16) (s_lzma2 s))) s in
        if 0xC0 <=? tmp then
          Some (Next, with_lzma2 (set_next SEQ_PROPERTIES
                  (set_needs (need_dict_reset (s_lzma2 s)) false (s_lzma2 s))) s, b)
        else if need_props (s_lzma2 s) then Some (Ret XZ_DATA_ERROR, s, b)
        else
          let s := with_lzma2 (set_next SEQ_LZMA_PREPARE (s_lzma2 s)) s in
          Some (Next, (if 0xA0 <=? tmp then with_lz (lzma_reset (lz_of s (b_out b))) s else s), b)
      else if 0x02 <? tmp then Some (Ret XZ_DATA_ERROR, s, b)
      else Some (Next, with_lzma2 (set_next SEQ_COPY (set_seq SEQ_COMPRESSED_0 (s_lzma2 s))) s, b).

Definition seq_run (s : xz_dec_lzma2) (b : xz_buf) : stepr :=
  let s := with_dict (dict_limit (s_dict s)
             (Z.min (out_size b - b_out_pos b) (uncompressed (s_lzma2 s)))) s in
  '(ok, s, b) ← lzma2_lzma s b;
  if negb ok then Some (Ret XZ_DATA_ERROR, s, b)
  else
    '(n, d, b) ← dict_flush (s_dict s) b;
    let s := with_dict d s in
    let l2 := set_uncompressed (u32 (uncompressed (s_lzma2 s) - n)) (s_lzma2 s) in
    let s := with_lzma2 l2 s in
    if uncompressed l2 =? 0 then
      if (0 <? compressed l2) || (0 <? len (s_lzma s)) || negb (rc_is_finished (s_rc s))
      then Some (Ret XZ_DATA_ERROR, s, b)
      else Some (Next, with_lzma2 (set_seq SEQ_CONTROL l2) (with_rc (rc_reset (s_rc s)) s), b)
    else if (b_out_pos b =? out_size b)
            || ((b_in_pos b =? in_size b) && (temp_size s <? compressed l2))
    then Some (Ret XZ_OK, s, b)
    else Some (Next, s, b).

(** Falls through to [seq_run]. *)
Definition seq_prepare (s : xz_dec_lzma2) (b : xz_buf) : stepr :=
  if compressed (s_lzma2 s) <? RC_INIT_BYTES then Some (Ret XZ_DATA_ERROR, s, b)
  else
    '(ok, rc, b) ← rc_read_init (s_rc s) b;
    let s := with_rc rc s in
    if negb ok then Some (Ret XZ_OK, s, b)
    else
      seq_run (with_lzma2 (set_seq SEQ_LZMA_RUN
        (set_compressed (u32 (compressed (s_lzma2 s) - RC_INIT_BYTES)) (s_lzma2 s))) s) b.

(** Falls through to [seq_prepare]. *)
Definition seq_properties (s : xz_dec_lzma2) (b : xz_buf) : stepr :=
  '(x, b) ← next_byte b;
  '(ok, z) ← lzma_props x (lz_of s (b_out b));
  let s := with_lz z s in
  if negb ok then Some (Ret XZ_DATA_ERROR, s, b)
  else seq_prepare (with_lzma2 (set_seq SEQ_LZMA_PREPARE (s_lzma2 s)) s) b.

Definition seq_copy (s : xz_dec_lzma2) (b : xz_buf) : stepr :=
  '(d, b, rest) ← dict_uncompressed (s_dict s) b (compressed (s_lzma2 s));
  let s := with_lzma2 (set_compressed rest (s_lzma2 s)) (with_dict d s) in
  if 0 <? rest then Some (Ret XZ_OK, s, b)
  else Some (Next, with_lzma2 (set_seq SEQ_CONTROL (s_lzma2 s)) s, b).

(** The body of the [while] loop. *)
Definition lzma2_step (s : xz_dec_lzma2) (b : xz_buf) : stepr :=
  let l2 := s_lzma2 s in
  match sequence l2 with
  | SEQ_CONTROL => seq_control s b
  | SEQ_UNCOMPRESSED_1 =>
    '(x, b) ← next_byte b;
    Some (Next, with_lzma2 (set_seq SEQ_UNCOMPRESSED_2
            (set_uncompressed (u32 (uncompressed l2 + Z.shiftl x 8)) l2)) s, b)
  | SEQ_UNCOMPRESSED_2 =>
    '(x, b) ← next_byte b;
    Some (Next, with_lzma2 (set_seq SEQ_COMPRESSED_0
            (set_uncompressed (u32 (uncompressed l2 + (x + 1))) l2)) s, b)
  | SEQ_COMPRESSED_0 =>
    '(x, b) ← next_byte b;
    Some (Next, with_lzma2 (set_seq SEQ_COMPRESSED_1 (set_compressed (Z.shiftl x 8) l2)) s, b)
  | SEQ_COMPRESSED_1 =>
    '(x, b) ← next_byte b;
    Some (Next, with_lzma2 (set_seq (next_sequence l2)
            (set_compressed (u32 (compressed l2 + (x + 1))) l2)) s, b)
  | SEQ_PROPERTIES => seq_properties s b
  | SEQ_LZMA_PREPARE => seq_prepare s b
  | SEQ_LZMA_RUN => seq_run s b
  | SEQ_COPY => seq_copy s b
  end.

Fixpoint lzma2_loop (fuel : nat) (s : xz_dec_lzma2) (b : xz_buf)
  : option (xz_ret * xz_dec_lzma2 * xz_buf) :=
  if (b_in_pos b <? in_size b) || bool_decide (sequence (s_lzma2 s) = SEQ_LZMA_RUN) then
    match fuel with
    | O => None
    | S fuel' =>
      '(f, s, b) ← lzma2_step s b;
      match f with
      | Ret r => Some (r, s, b)
      | Next => lzma2_loop fuel' s b
      end
    end
  else Some (XZ_OK, s, b).

(** Every round that does not return takes an input byte or writes an output byte, so the
    loop runs at most once for each of them. *)
Definition lzma2_fuel (b : xz_buf) : nat :=
  S (Z.to_nat ((in_size b - b_in_pos b) + (out_size b - b_out_pos b))).

Definition xz_dec_lzma2_run (s : xz_dec_lzma2) (b : xz_buf) : option (xz_ret * xz_dec_lzma2 * xz_buf) :=
  lzma2_loop (lzma2_fuel b) s b.

(** ** Creation and reset

    [fill i] is what byte [i] of a fresh block holds; [junk] is the contents of the fresh
    decoder object. *)

Definition vmalloc (fill : Z -> Z) (n : Z) (o : oracle) : dbuf * oracle :=
  let '(ok, o) := malloc o in
  ((if ok then DictOwn (map fill (seqZ 0 n)) else DictNull), o).

Definition dict_setup (d : dictionary) (buf : dbuf) (mode : xz_mode) (size_max allocated : Z) : dictionary :=
  Dict buf (d_start d) (d_pos d) (d_full d) (d_limit d) (d_end d) (d_size d) size_max allocated mode.

Definition xz_dec_lzma2_create (fill : Z -> Z) (junk : xz_dec_lzma2) (mode : xz_mode) (dict_max : Z)
  (o : oracle) : option xz_dec_lzma2 * oracle :=
  let '(ok, o) := malloc o in
  if negb ok then (None, o)
  else
    let d := s_dict junk in
    if DEC_IS_PREALLOC mode then
      let '(buf, o) := vmalloc fill dict_max o in
      match buf with
      | DictNull => (None, o)
      | _ => (Some (with_dict (dict_setup d buf mode dict_max (d_allocated d)) junk), o)
      end
    else if DEC_IS_DYNALLOC mode then
      (Some (with_dict (dict_setup d DictNull mode dict_max 0) junk), o)
    else (Some (with_dict (dict_setup d (d_buf d) mode dict_max (d_allocated d)) junk), o).

Definition dict_resize (d : dictionary) (buf : dbuf) (end_ size allocated : Z) : dictionary :=
  Dict buf (d_start d) (d_pos d) (d_full d) (d_limit d) end_ size (d_size_max d) allocated (d_mode d).

(** The last lines of [xz_dec_lzma2_reset]. *)
Definition lzma2_restart (s : xz_dec_lzma2) : xz_dec_lzma2 :=
  let l2 := s_lzma2 s in
  XzLzma2 (s_rc s) (s_dict s)
    (L2 SEQ_CONTROL (next_sequence l2) (uncompressed l2) (compressed l2) true (need_props l2))
    (set_len 0 (s_lzma s)) (s_probs s) 0 (temp_buf s).

Definition xz_dec_lzma2_reset (fill : Z -> Z) (s : xz_dec_lzma2) (props : Z) (o : oracle)
  : xz_ret * xz_dec_lzma2 * oracle :=
  if 39 <? props then (XZ_OPTIONS_ERROR, s, o)
  else
    let d := s_dict s in
    let size := u32 (Z.shiftl (2 + Z.land props 1) (Z.shiftr props 1 + 11)) in
    if DEC_IS_MULTI (d_mode d) then
      if d_size_max d <? size then
        (XZ_MEMLIMIT_ERROR, with_dict (dict_resize d (d_buf d) (d_end d) size (d_allocated d)) s, o)
      else if DEC_IS_DYNALLOC (d_mode d) && (d_allocated d <? size) then
        let '(buf, o) := vmalloc fill size o in
        match buf with
        | DictNull => (XZ_MEM_ERROR, with_dict (dict_resize d DictNull size size 0) s, o)
        | _ => (XZ_OK, lzma2_restart (with_dict (dict_resize d buf size size (d_allocated d)) s), o)
        end
      else (XZ_OK, lzma2_restart (with_dict (dict_resize d (d_buf d) size size (d_allocated d)) s), o)
    else (XZ_OK, lzma2_restart (with_dict (dict_resize d (d_buf d) (d_end d) size (d_allocated d)) s), o).
