(* ===== verification/XzLzma2Spec.v ===== *)
(** * Feeding the LZMA decoder

    [lzma2_lzma] on any split of the input: the LZMA decoder is called only where every
    byte it may read is there, and the bytes it has not used are kept. *)

From S2P Require Import Prelude XzDefs XzRange XzDict XzLzma XzLzmaInv XzLzma2.

(** The state in which [lzma2_lzma] runs. *)
Record run_state (s : xz_dec_lzma2) (b : xz_buf) (h : list Z) : Prop := {
  rs_inv : lz_inv (lz_of s (b_out b)) h;
  rs_lim : d_pos (s_dict s) <= d_limit (s_dict s) <= d_end (s_dict s);
  rs_buf : xz_buf_ok b;
  rs_temp : zlen (temp_buf s) = TEMP_SIZE /\ 0 <= temp_size s <= 20;
  rs_comp : temp_size s <= compressed (s_lzma2 s) <= 65536 }.

(** From [s], [b] to [s'], [b']: decoded bytes are in the dictionary, input is used up. *)
Record ran2 (s : xz_dec_lzma2) (b : xz_buf) (s' : xz_dec_lzma2) (b' : xz_buf) (h h' : list Z) : Prop := {
  r2_steps : rtc lz_step h h';
  r2_rep : dict_rep (s_dict s') (b_out b') h';
  r2_moved : moved (s_dict s) (b_out b) (s_dict s') (b_out b') (zlen h' - zlen h);
  r2_grow : zlen h <= zlen h';
  r2_limit : d_pos (s_dict s') <= d_limit (s_dict s);
  r2_in : b_in b' = b_in b;
  r2_out_pos : b_out_pos b' = b_out_pos b;
  r2_in_pos : b_in_pos b <= b_in_pos b' <= in_size b;
  r2_buf : zlen (temp_buf s') = TEMP_SIZE;
  r2_lzma2 : s_lzma2 s' = set_compressed (compressed (s_lzma2 s')) (s_lzma2 s) }.

Lemma set_compressed_id l : set_compressed (compressed l) l = l.
Proof. by destruct l. Qed.

Lemma ran2_refl s b h : run_state s b h -> ran2 s b s b h h.
Proof.
  intros [Hi Hl (Hin & Hout & _) [Ht _] _]. split; try done; try lia.
  - apply Hi.
  - rewrite Z.sub_diag. apply moved_refl.
  - by rewrite set_compressed_id.
Qed.

Lemma ran2_trans s1 b1 s2 b2 s3 b3 h1 h2 h3 :
  ran2 s1 b1 s2 b2 h1 h2 -> ran2 s2 b2 s3 b3 h2 h3 -> ran2 s1 b1 s3 b3 h1 h3.
Proof.
  intros A B. destruct A, B. unfold in_size in r2_in_pos0, r2_in_pos1. pose proof (moved_limit _ _ _ _ _ r2_moved0).
  split; try congruence; try lia.
  - by etrans.
  - replace (zlen h3 - zlen h1) with ((zlen h2 - zlen h1) + (zlen h3 - zlen h2)) by lia.
    eapply moved_trans; [lia|done|done].
  - unfold in_size. rewrite r2_in0 in r2_in_pos1. lia.
  - rewrite r2_lzma4, r2_lzma3. done.
Qed.

Lemma moved_out_size d out d' out' n : moved d out d' out' n -> zlen out' = zlen out.
Proof. intros []. unfold out_frame in *. destruct (d_buf d); [by subst|by subst|apply moved_out]. Qed.

Lemma ran2_buf_ok s b s' b' h h' : ran2 s b s' b' h h' -> xz_buf_ok b -> xz_buf_ok b'.
Proof.
  intros [] (Hi & Ho & Hi64 & Ho64 & Hby). pose proof (moved_out_size _ _ _ _ _ r2_moved0).
  unfold xz_buf_ok, in_size, out_size in *. rewrite r2_in0, r2_out_pos0. split_and!; try done; lia.
Qed.

(** A call of the LZMA decoder on a window. *)
Lemma call_main_ok s b h inp pos limit :
  run_state s b h -> 0 <= pos <= limit -> limit + LZMA_IN_REQUIRED <= zlen inp ->
  exists ok s' b' h', call_main inp pos limit s b = Some (ok, s', b')
    /\ ran2 s b s' b' h h' /\ s_lzma2 s' = s_lzma2 s /\ b_in_pos b' = b_in_pos b
    /\ temp_size s' = temp_size s /\ temp_buf s' = temp_buf s
    /\ pos <= rc_in_pos (s_rc s') <= limit + LZMA_IN_REQUIRED
    /\ init_bytes_left (s_rc s') = init_bytes_left (s_rc s)
    /\ (ok = true -> lz_inv (lz_of s' (b_out b')) h'
        /\ (d_pos (s_dict s) < d_limit (s_dict s) -> zlen h < zlen h')).
Proof.
  intros [Hi Hl Hb Ht Hc] Hpos Hlen. unfold call_main.
  set (s1 := with_rc (set_rc_input inp pos limit (s_rc s)) s).
  assert (Hi1 : lz_inv (lz_of s1 (b_out b)) h) by (by destruct Hi).
  destruct (lzma_main_ok (lz_of s1 (b_out b)) h Hi1 Hl) as (ok & z' & h' & E & Hran & Hp & Hok); [done|].
  rewrite E. simpl. do 3 eexists. exists h'. split; [done|]. simpl.
  destruct Hran as (R1 & R2 & R3 & R4 & R5 & R6 & R7 & R8 & R9 & R10). simpl in *.
  split; [|split; [done|]].
  - destruct Hb as (Hb1 & Hb2 & _). split; try done; simpl; try lia.
    by rewrite set_compressed_id.
  - split; [done|]. split; [done|]. split; [done|]. split; [done|]. split; [done|].
    intros Hok'. destruct (Hok Hok') as (K1 & _ & _ & K3). split; [|done].
    destruct z' as [[rc' p'] d' o' l']. exact K1.
Qed.

(** ** The three parts *)

(** What a successful [lzma2_lzma] leaves. *)
Record run_ok (s : xz_dec_lzma2) (b : xz_buf) (s' : xz_dec_lzma2) (b' : xz_buf) (h h' : list Z) : Prop := {
  ro_inv : lz_inv (lz_of s' (b_out b')) h';
  ro_temp : 0 <= temp_size s' <= 20;
  ro_comp : temp_size s' <= compressed (s_lzma2 s') <= 65536 }.

(** Some progress was made, or none is possible before the caller provides input. *)
Definition progress (s : xz_dec_lzma2) (b : xz_buf) (s' : xz_dec_lzma2) (b' : xz_buf) (h h' : list Z) : Prop :=
  d_pos (s_dict s) < d_limit (s_dict s) ->
  zlen h < zlen h' \/ b_in_pos b < b_in_pos b'
  \/ (b_in_pos b' = in_size b /\ temp_size s' < compressed (s_lzma2 s')).

Lemma run_state_with_temp s b h n buf :
  run_state s b h -> zlen buf = TEMP_SIZE -> 0 <= n <= 20 -> n <= compressed (s_lzma2 s) ->
  run_state (with_temp n buf s) b h.
Proof. intros [] Hb Hn Hc. split; simpl; try done; lia. Qed.

(** The results of decoding from [temp]. *)
Definition temp_post (s : xz_dec_lzma2) (b : xz_buf) (h : list Z)
  (r : option (option bool * xz_dec_lzma2 * xz_buf)) : Prop :=
  exists ret s' b' h', r = Some (ret, s', b') /\ ran2 s b s' b' h h'
    /\ init_bytes_left (s_rc s') = init_bytes_left (s_rc s)
    /\ match ret with
       | Some false => True
       | Some true => run_ok s b s' b' h h' /\ progress s b s' b' h h'
       | None => run_state s' b' h' /\ temp_size s' = 0
           /\ (progress s b s' b' h h' \/ s' = s /\ b' = b /\ h' = h /\ compressed (s_lzma2 s) <> 0)
       end.

(** The bytes the decoder may read: to the end of the chunk, with zeros after it, or up to
    what one symbol may need. *)
Lemma temp_window buf ts tmp comp :
  zlen buf = 63 -> 0 <= ts -> 0 <= tmp -> ts + tmp <= 42 -> ts + tmp = comp \/ 21 <= ts + tmp ->
  exists buf' limit,
    (if ts + tmp =? comp
     then buf ← wrs buf (ts + tmp) (replicate (Z.to_nat (usz (3 * 21 - ts - tmp))) 0); Some (buf, ts + tmp)
     else Some (buf, u32 (ts + tmp - 21))) = Some (buf', limit)
    /\ zlen buf' = 63 /\ 0 <= limit /\ limit + 21 <= 63.
Proof.
  intros Hbuf Hts Htmp Hle Hc. destruct (Z.eqb_spec (ts + tmp) comp) as [Eq|Ne].
  - rewrite usz_small by lia.
    destruct (wrs_Some buf (replicate (Z.to_nat (3 * 21 - ts - tmp)) 0) (ts + tmp)) as [buf' Eb'];
      [lia|unfold zlen in *; rewrite length_replicate; lia|].
    rewrite Eb'. simpl. exists buf', (ts + tmp). pose proof (wrs_zlen _ _ _ _ Eb'). split_and!; try done; lia.
  - exists buf, (ts + tmp - 21). rewrite u32_small by lia. split_and!; try done; lia.
Qed.

(** The decoder has used [n] bytes of the window: either some of [temp] is left, or the
    rest was taken from the input. *)
Lemma temp_used s b h s1 b1 h1 buf ts n comp :
  ran2 s b s1 b1 h h1 -> xz_buf_ok b -> lz_inv (lz_of s1 (b_out b1)) h1 ->
  (d_pos (s_dict s) < d_limit (s_dict s) -> zlen h < zlen h1) ->
  init_bytes_left (s_rc s1) = init_bytes_left (s_rc s) ->
  d_limit (s_dict s) <= d_end (s_dict s) ->
  s_lzma2 s1 = s_lzma2 s -> temp_size s1 = ts -> temp_buf s1 = buf -> zlen buf = 63 -> b_in_pos b1 = b_in_pos b ->
  0 <= ts <= 20 -> 0 <= n <= comp -> comp <= 65536 -> ts <= comp -> b_in_pos b + (n - ts) <= in_size b ->
  compressed (s_lzma2 s) = comp ->
  temp_post s b h
    (let s2 := with_lzma2 (set_compressed (comp - n) (s_lzma2 s1)) s1 in
     if n <? temp_size s2 then
       ys ← rds (temp_buf s2) n (u32 (temp_size s2 - n));
       buf ← wrs (temp_buf s2) 0 ys;
       Some (Some true, with_temp (u32 (temp_size s2 - n)) buf s2, b1)
     else Some (None, with_temp 0 (temp_buf s2) s2, set_in_pos (b_in_pos b1 + (n - temp_size s2)) b1)).
Proof.
  intros Hran Hb Hi Hgrow Hinit Hle El2 Ets Etb Hbuf Eip Hts Hn Hc Htc Hin Hcomp. cbv zeta.
  cbn [temp_size temp_buf with_lzma2]. rewrite Ets, Etb. destruct (Z.ltb_spec n ts) as [Hlt|Hge].
  - rewrite (u32_small (ts - n)) by lia.
    destruct (rds buf n (ts - n)) as [ys|] eqn:Ey; [|rewrite rds_Some in Ey by lia; done].
    pose proof (rds_zlen _ _ _ _ Ey). simpl.
    destruct (wrs_Some buf ys 0) as [buf2 E2]; [lia|lia|]. rewrite E2. simpl.
    pose proof (wrs_zlen _ _ _ _ E2). eexists _, _, _, h1. split; [done|].
    split; [|split; [done|split]].
    + destruct Hran. split; simpl; try done; [unfold TEMP_SIZE, LZMA_IN_REQUIRED; lia|by rewrite El2].
    + split; simpl; [exact Hi| |]; lia.
    + intros Hsp. left. by apply Hgrow.
  - eexists _, _, _, h1. split; [done|].
    assert (Hran2 : ran2 s b (with_temp 0 buf (with_lzma2 (set_compressed (comp - n) (s_lzma2 s1)) s1))
      (set_in_pos (b_in_pos b1 + (n - ts)) b1) h h1).
    { destruct Hran. split; simpl; try done; [lia|by rewrite El2]. }
    split; [exact Hran2|]. split; [done|].
    pose proof (moved_limit _ _ _ _ _ (r2_moved _ _ _ _ _ _ Hran)) as HL.
    pose proof (moved_end _ _ _ _ _ (r2_moved _ _ _ _ _ _ Hran)) as HE. pose proof (r2_limit _ _ _ _ _ _ Hran) as HP.
    split; [|split; [done|left; intros Hsp; left; by apply Hgrow]].
    split; simpl; try done; try lia. exact (ran2_buf_ok _ _ _ _ _ _ Hran2 Hb).
Qed.

Lemma lzma2_temp_ok s b h : run_state s b h -> temp_post s b h (lzma2_temp s b).
Proof.
  intros Hrs. pose proof Hrs as [Hi Hl Hb [Htl Ht] Hc]. pose proof Hb as (Hbi & Hbo & _).
  unfold lzma2_temp, TEMP_SIZE, LZMA_IN_REQUIRED in *.
  destruct ((0 <? temp_size s) || (compressed (s_lzma2 s) =? 0)) eqn:Ec; zify_bools; cycle 1.
  { exists None, s, b, h. split; [done|]. split; [by apply ran2_refl|]. split; [done|].
    split; [done|]. split; [lia|]. right. by destruct Ec. }
  rewrite (u32_small (2 * 21 - temp_size s)), (u32_small (compressed (s_lzma2 s) - temp_size s)) by lia.
  set (ts := temp_size s) in *. set (comp := compressed (s_lzma2 s)) in *.
  set (t1 := if comp - ts <? 2 * 21 - ts then _ else _).
  set (tmp := if in_size b - b_in_pos b <? t1 then _ else t1).
  assert (Htmp : tmp = Z.min (in_size b - b_in_pos b) (Z.min (comp - ts) (42 - ts))).
  { unfold tmp, t1. destruct (Z.ltb_spec (comp - ts) (2 * 21 - ts)); case_Z; lia. }
  clearbody tmp. clear t1.
  destruct (rds (b_in b) (b_in_pos b) tmp) as [xs|] eqn:Ex.
  2: { rewrite rds_Some in Ex by (unfold in_size in *; lia). done. }
  pose proof (rds_zlen _ _ _ _ Ex) as Hxs. simpl.
  destruct (wrs_Some (temp_buf s) xs ts) as [buf Eb]; [lia|lia|]. rewrite Eb. simpl.
  pose proof (wrs_zlen _ _ _ _ Eb) as Hbuf. rewrite (u32_small (ts + tmp)) by lia.
  destruct (negb (ts + tmp =? comp) && (ts + tmp <? 21)) eqn:Ee; zify_bools.
  { destruct Ee as [Ene Elt]. eexists _, _, _, h. split; [done|].
    assert (Hend : b_in_pos b + tmp = in_size b) by lia.
    split; [|split; [done|split]].
    - destruct (ran2_refl s b h Hrs). split; simpl; try done; unfold TEMP_SIZE, LZMA_IN_REQUIRED; lia.
    - split; simpl; [exact Hi| |]; fold comp; lia.
    - intros _. simpl. right. right. fold comp. lia. }
  destruct (temp_window buf ts tmp comp) as (buf' & limit & -> & Hb' & Hlim & Hlim'); [lia..|]. simpl.
  pose proof (run_state_with_temp s b h ts buf' Hrs ltac:(done) Ht ltac:(lia)) as Hrs1.
  destruct (call_main_ok (with_temp ts buf' s) b h buf' 0 limit Hrs1)
    as (ok & s1 & b1 & h1 & E & Hran & El2 & Eip & Ets & Etb & Hrp & Einit & Hok); [lia|unfold LZMA_IN_REQUIRED; lia|].
  simpl in El2, Ets, Etb, Einit. rewrite E. simpl.
  assert (Hran1 : ran2 s b s1 b1 h h1) by (by destruct Hran; split).
  destruct (negb ok || (ts + tmp <? rc_in_pos (s_rc s1))) eqn:Ef.
  { exists (Some false), s1, b1, h1. by split_and!. }
  zify_bools. destruct Ef as [-> Hle]. destruct (Hok eq_refl) as [Hi1 Hgrow].
  assert (Ecomp : compressed (s_lzma2 s1) = comp) by (by rewrite El2).
  rewrite Ecomp, (u32_small (comp - rc_in_pos (s_rc s1))) by lia.
  apply (temp_used s b h s1 b1 h1 buf' ts (rc_in_pos (s_rc s1)) comp); try done; lia.
Qed.

Lemma lzma2_direct_ok s b h :
  run_state s b h -> temp_size s = 0 ->
  exists ok s' b' h', lzma2_direct s b = Some (ok, s', b') /\ ran2 s b s' b' h h'
    /\ init_bytes_left (s_rc s') = init_bytes_left (s_rc s)
    /\ (ok = true -> run_state s' b' h' /\ temp_size s' = 0
        /\ (d_pos (s_dict s) < d_limit (s_dict s) -> LZMA_IN_REQUIRED <= in_size b - b_in_pos b ->
            zlen h < zlen h')
        /\ (in_size b - b_in_pos b < LZMA_IN_REQUIRED -> s' = s /\ b' = b /\ h' = h)).
Proof.
  intros Hrs Hts. pose proof Hrs as [Hi Hl Hb [Htl Ht] Hc]. pose proof Hb as (Hbi & Hbo & Hi64 & _).
  unfold lzma2_direct, LZMA_IN_REQUIRED. destruct (Z.leb_spec 21 (in_size b - b_in_pos b)) as [Hav|Hav]; cycle 1.
  { exists true, s, b, h. split; [done|]. split; [by apply ran2_refl|]. split; [done|]. intros _.
    split; [done|]. split; [done|]. split; [lia|done]. }
  rewrite (u32_small (compressed (s_lzma2 s) + 21)) by lia. set (limit := if _ <=? _ then _ else _).
  assert (Hlim : b_in_pos b <= limit /\ limit + 21 <= in_size b).
  { unfold limit. destruct (Z.leb_spec (compressed (s_lzma2 s) + 21) (in_size b - b_in_pos b)); lia. }
  clearbody limit.
  destruct (call_main_ok s b h (b_in b) (b_in_pos b) limit Hrs)
    as (ok & s1 & b1 & h1 & E & Hran & El2 & Eip & Ets & Etb & Hrp & Einit & Hok);
    [lia|unfold LZMA_IN_REQUIRED, in_size in *; lia|].
  rewrite E. simpl. unfold LZMA_IN_REQUIRED in Hrp. pose proof (ran2_buf_ok _ _ _ _ _ _ Hran Hb) as Hb1.
  destruct ok; simpl; cycle 1.
  { exists false, s1, b1, h1. by split_and!. }
  destruct (Hok eq_refl) as [Hi1 Hgrow]. rewrite Eip, El2.
  rewrite (usz_small (rc_in_pos (s_rc s1) - b_in_pos b)) by lia.
  set (n := rc_in_pos (s_rc s1)) in *.
  destruct (Z.ltb_spec (compressed (s_lzma2 s)) (n - b_in_pos b)).
  { exists false, s1, b1, h1. by split_and!. }
  rewrite (u32_small (compressed (s_lzma2 s) - (n - b_in_pos b))) by lia.
  eexists true, _, _, h1. split; [done|].
  assert (Hran2 : ran2 s b (with_lzma2 (set_compressed (compressed (s_lzma2 s) - (n - b_in_pos b)) (s_lzma2 s)) s1)
    (set_in_pos n b1) h h1).
  { destruct Hran. split; simpl; try done. lia. }
  split; [exact Hran2|]. split; [done|]. intros _.
  pose proof (moved_limit _ _ _ _ _ (r2_moved _ _ _ _ _ _ Hran)) as HL.
  pose proof (moved_end _ _ _ _ _ (r2_moved _ _ _ _ _ _ Hran)) as HE.
  pose proof (r2_limit _ _ _ _ _ _ Hran) as HP.
  split; [|split; [by rewrite <-Hts|split; [by intros Hsp _; apply Hgrow|lia]]].
  split; simpl; try done; try lia.
  - exact (ran2_buf_ok _ _ _ _ _ _ Hran2 Hb).
  - rewrite Ets, Etb. done.
Qed.

Lemma lzma2_save_ok s b h :
  run_state s b h -> temp_size s = 0 ->
  exists s' b', lzma2_save s b = Some (s', b') /\ ran2 s b s' b' h h /\ run_ok s b s' b' h h
    /\ init_bytes_left (s_rc s') = init_bytes_left (s_rc s)
    /\ (compressed (s_lzma2 s) <> 0 -> in_size b - b_in_pos b < LZMA_IN_REQUIRED ->
        b_in_pos b < b_in_pos b' \/ b_in_pos b' = in_size b /\ temp_size s' < compressed (s_lzma2 s')).
Proof.
  intros Hrs Hts. pose proof Hrs as [Hi Hl Hb [Htl Ht] Hc]. pose proof Hb as (Hbi & Hbo & Hi64 & _).
  pose proof (ran2_refl s b h Hrs) as Href.
  unfold lzma2_save, TEMP_SIZE, LZMA_IN_REQUIRED in *.
  destruct (Z.ltb_spec (in_size b - b_in_pos b) 21) as [Hav|Hav]; cycle 1.
  { exists s, b. split; [done|]. split; [done|]. split; [split; [done|lia|lia]|]. split; [done|lia]. }
  set (n := if _ <? _ then _ else _).
  assert (Hn : n = Z.min (compressed (s_lzma2 s)) (in_size b - b_in_pos b)) by (unfold n; case_Z; lia).
  clearbody n. destruct (rds (b_in b) (b_in_pos b) n) as [xs|] eqn:Ex.
  2: { rewrite rds_Some in Ex by (unfold in_size in *; lia). done. }
  pose proof (rds_zlen _ _ _ _ Ex). simpl.
  destruct (wrs_Some (temp_buf s) xs 0) as [buf Eb]; [lia|lia|]. rewrite Eb. simpl.
  pose proof (wrs_zlen _ _ _ _ Eb). rewrite (u32_small n) by lia. do 2 eexists. split; [done|].
  split; [|split; [|split; [done|]]].
  - destruct Href. split; simpl; try done; unfold TEMP_SIZE, LZMA_IN_REQUIRED; lia.
  - split; simpl; [exact Hi| |]; lia.
  - simpl. lia.
Qed.

(** [lzma2_lzma] always returns; what it returns [true] with can be resumed, and it makes
    progress whenever there is room in the output. *)
Lemma lzma2_lzma_ok s b h :
  run_state s b h ->
  exists ok s' b' h', lzma2_lzma s b = Some (ok, s', b') /\ ran2 s b s' b' h h'
    /\ init_bytes_left (s_rc s') = init_bytes_left (s_rc s)
    /\ (ok = true -> run_ok s b s' b' h h' /\ progress s b s' b' h h').
Proof.
  intros Hrs. unfold lzma2_lzma.
  destruct (lzma2_temp_ok s b h Hrs) as (ret & s1 & b1 & h1 & E1 & R1 & I1 & Hret). rewrite E1. simpl.
  destruct ret as [[|]|].
  { destruct Hret. exists true, s1, b1, h1. by split_and!. }
  { exists false, s1, b1, h1. by split_and!. }
  destruct Hret as (Hrs1 & Hts1 & Hprog1).
  destruct (lzma2_direct_ok s1 b1 h1 Hrs1 Hts1) as (ok & s2 & b2 & h2 & E2 & R2 & I2 & Hok2). rewrite E2. simpl.
  destruct ok; simpl; cycle 1.
  { exists false, s2, b2, h2. split; [done|]. split; [by eapply ran2_trans|]. by split; [congruence|]. }
  destruct (Hok2 eq_refl) as (Hrs2 & Hts2 & Hgrow2 & Hno2).
  destruct (lzma2_save_ok s2 b2 h2 Hrs2 Hts2) as (s3 & b3 & E3 & R3 & Hok3 & I3 & Hprog3). rewrite E3. simpl.
  pose proof (ran2_trans _ _ _ _ _ _ _ _ _ R1 R2) as R12.
  exists true, s3, b3, h2. split; [done|]. split; [by eapply ran2_trans|]. split; [congruence|]. intros _.
  split; [by destruct Hok3; split|]. intros Hsp.
  pose proof (r2_in _ _ _ _ _ _ R1) as Hin1. pose proof (r2_in_pos _ _ _ _ _ _ R1).
  pose proof (r2_in _ _ _ _ _ _ R12) as Hin2. pose proof (r2_in_pos _ _ _ _ _ _ R2).
  pose proof (r2_in_pos _ _ _ _ _ _ R3). pose proof (r2_grow _ _ _ _ _ _ R2).
  pose proof (r2_grow _ _ _ _ _ _ R1). unfold in_size in *. rewrite Hin1, Hin2 in *.
  destruct Hprog1 as [Hp|(-> & -> & -> & Hne)].
  - destruct (Hp Hsp) as [?|[?|[? ?]]]; [lia|lia|]. rewrite Hts1 in *.
    destruct (decide (zlen h < zlen h2)); [lia|]. destruct (decide (b_in_pos b < b_in_pos b3)); [lia|].
    right. right. unfold in_size in *. assert (Hav : zlen (b_in b) - b_in_pos b1 < LZMA_IN_REQUIRED) by
      (unfold LZMA_IN_REQUIRED; lia).
    destruct (Hno2 Hav) as (-> & -> & ->).
    assert (Hc1 : compressed (s_lzma2 s1) <> 0) by lia. specialize (Hprog3 Hc1). lia.
  - destruct (decide (LZMA_IN_REQUIRED <= zlen (b_in b) - b_in_pos b)) as [Hav|Hav].
    { left. by apply Hgrow2. }
    destruct Hno2 as (-> & -> & ->); [lia|]. specialize (Hprog3 Hne). lia.
Qed.

(** ** Properties and reset *)

Lemma some_bind {A B} (x : A) (f : A -> option B) : (Some x ≫= f) = f x.
Proof. done. Qed.

Lemma props_loop_ok fuel n props count :
  0 < n < 256 -> 0 <= props < 256 -> props / n <= Z.of_nat fuel ->
  props_loop fuel n props count = Some (props mod n, count + props / n).
Proof.
  intros Hn. revert props count. induction fuel as [|fuel IH]; intros props count Hp Hf;
    cbn [props_loop]; destruct (Z.leb_spec n props) as [Hle|Hle].
  - assert (1 <= props / n) by (apply Z.div_le_lower_bound; lia). lia.
  - rewrite Z.mod_small, Z.div_small by lia. do 2 f_equal. lia.
  - assert (Hd : props / n = (props - n) / n + 1).
    { replace props with ((props - n) + 1 * n) at 1 by lia. rewrite Z.div_add; lia. }
    assert (Hm : props mod n = (props - n) mod n).
    { replace props with ((props - n) + 1 * n) at 1 by lia. by rewrite Z.mod_add by lia. }
    rewrite (u8_small (props - n)) by lia. rewrite IH by lia. rewrite Hd, Hm. do 2 f_equal. lia.
  - rewrite Z.mod_small, Z.div_small by lia. do 2 f_equal. lia.
Qed.

Lemma probs_init_ok :
  Forall prob_ok (replicate (Z.to_nat PROBS_TOTAL) (RC_BIT_MODEL_TOTAL / 2))
  /\ zlen (replicate (Z.to_nat PROBS_TOTAL) (RC_BIT_MODEL_TOTAL / 2)) = PROBS_TOTAL.
Proof.
  split.
  - apply Forall_replicate. change (RC_BIT_MODEL_TOTAL / 2) with 1024. unfold prob_ok. lia.
  - unfold zlen. rewrite length_replicate, Z2Nat.id; [done|].
    unfold PROBS_TOTAL, LITERAL_CODERS_MAX, LITERAL_CODER_SIZE. lia.
Qed.

Lemma rc_reset_ok rc probs : Forall prob_ok probs -> zlen probs = PROBS_TOTAL -> rc_ok (rc_reset rc, probs).
Proof.
  intros Hp Hl. unfold rc_ok. simpl. change (u32 (-1)) with (2 ^ 32 - 1). unfold RC_MIN.
  split; [lia|]. split; [lia|]. by split.
Qed.

(** A reset decoder with valid parameters is ready. *)
Lemma lzma_reset_ok z h :
  dict_rep (z_dict z) (z_out z) h -> 0 <= len (z_lzma z) <= 273 ->
  (exists lp, 0 <= lc (z_lzma z) /\ 0 <= lp /\ lc (z_lzma z) + lp <= 4 /\ literal_pos_mask (z_lzma z) = 2 ^ lp - 1) ->
  (exists pb, 0 <= pb <= 4 /\ pos_mask (z_lzma z) = 2 ^ pb - 1) ->
  lz_inv (lzma_reset z) h.
Proof.
  intros Hd Hlen Hlc Hpb. destruct probs_init_ok as [H1 H2].
  split; [by apply rc_reset_ok|]. split; [done|].
  split; [split; cbn [lzma_reset z_lzma rep0 rep1 rep2 rep3 state len lc literal_pos_mask pos_mask];
    try assumption; unfold STATE_LIT_LIT, STATES; lia|].
  unfold rep_valid, LIT_STATES, STATE_LIT_LIT. simpl. unfold STATE_LIT_LIT. lia.
Qed.

(** The properties byte is [(pb * 5 + lp) * 9 + lc]; it is accepted exactly when
    [pb <= 4] and [lc + lp <= 4]. *)
Lemma lzma_props_ok z props h :
  0 <= props < 256 -> dict_rep (z_dict z) (z_out z) h -> 0 <= len (z_lzma z) <= 273 ->
  exists ok z', lzma_props props z = Some (ok, z')
    /\ z_dict z' = z_dict z /\ z_out z' = z_out z /\ len (z_lzma z') = len (z_lzma z)
    /\ (ok = true <-> props <= 224 /\ props mod 9 + props mod 45 / 9 <= 4)
    /\ (ok = true -> lz_inv z' h /\ init_bytes_left (fst (z_rc z')) = RC_INIT_BYTES
         /\ lc (z_lzma z') = props mod 9 /\ literal_pos_mask (z_lzma z') = 2 ^ (props mod 45 / 9) - 1
         /\ pos_mask (z_lzma z') = 2 ^ (props / 45) - 1).
Proof.
  intros Hp Hd Hlen. unfold lzma_props. change ((4 * 5 + 4) * 9 + 8) with 224.
  destruct (Z.ltb_spec 224 props) as [Hgt|Hle].
  { exists false, z. split; [done|]. split; [done|]. split; [done|]. split; [done|]. split; [|done].
    split; [done|lia]. }
  rewrite props_loop_ok by (lia || (Z.to_euclidean_division_equations; lia)). rewrite some_bind. cbv beta iota.
  change (9 * 5) with 45. assert (H45 : 0 <= props mod 45 < 45) by (apply Z.mod_pos_bound; lia).
  rewrite props_loop_ok by (lia || (Z.to_euclidean_division_equations; lia)). rewrite some_bind. cbv beta iota.
  assert (Hm9 : (props mod 45) mod 9 = props mod 9) by (Z.to_euclidean_division_equations; lia).
  rewrite Hm9, !Z.add_0_l. assert (Hlc : 0 <= props mod 9 < 9) by (apply Z.mod_pos_bound; lia).
  assert (Hlp : 0 <= props mod 45 / 9 <= 4) by (Z.to_euclidean_division_equations; lia).
  assert (Hpb : 0 <= props / 45 <= 4) by (Z.to_euclidean_division_equations; lia).
  rewrite (u32_small (props mod 9 + props mod 45 / 9)) by lia.
  assert (Hmask : forall n, 0 <= n <= 4 -> u32 (Z.shiftl 1 n - 1) = 2 ^ n - 1).
  { intros n Hn. rewrite Z.shiftl_1_l. assert (2 ^ n <= 2 ^ 4) by (apply Z.pow_le_mono_r; lia).
    pose proof (pow2_pos n ltac:(lia)). rewrite u32_small; lia. }
  destruct (Z.ltb_spec 4 (props mod 9 + props mod 45 / 9)).
  - eexists false, _. split; [done|]. split; [done|]. split; [done|]. split; [done|]. split; [|done].
    split; [done|lia].
  - eexists true, _. split; [reflexivity|]. split; [reflexivity|]. split; [reflexivity|]. split; [reflexivity|].
    split; [split; [lia|reflexivity]|]. intros _. split; [|split; [reflexivity|]].
    + apply lzma_reset_ok; simpl; [done|done| |].
      * exists (props mod 45 / 9). rewrite Hmask by lia. lia.
      * exists (props / 45). rewrite Hmask by lia. lia.
    + simpl. by rewrite !Hmask by lia.
Qed.
