(* ===== verification/XzLzma2Run.v ===== *)
(** * The LZMA2 decoder as a state machine

    The invariant of [struct xz_dec_lzma2] between calls, that every [case] of
    [xz_dec_lzma2_run] keeps it, that the loop ends, and what is written to the output. *)

From S2P Require Import Prelude XzDefs XzRange XzDict XzLzma XzLzmaInv XzLzma2 XzLzma2Spec.

(** ** What the output consists of *)

(** [lz_out h xs h']: with history [h], the bytes [xs] are written and [h'] is the history
    after them, built by literals, by copies from the history and by dictionary resets,
    which empty it.  Any bytes can be literals: which bytes a symbol appends is stated for the
    LZMA decoder. *)
Inductive lz_out (h : list Z) : list Z -> list Z -> Prop :=
| lo_nil : lz_out h [] h
| lo_literal byte xs h' : is_byte byte -> lz_out (h ++ [byte]) xs h' -> lz_out h (byte :: xs) h'
| lo_copy n dist ys xs h' :
    0 <= dist < zlen h -> (1 <= n)%nat -> lz_copy n dist h = h ++ ys ->
    lz_out (h ++ ys) xs h' -> lz_out h (ys ++ xs) h'
| lo_reset xs h' : lz_out [] xs h' -> lz_out h xs h'.

Lemma lz_out_trans h1 xs h2 ys h3 : lz_out h1 xs h2 -> lz_out h2 ys h3 -> lz_out h1 (xs ++ ys) h3.
Proof.
  intros H1 H2. induction H1 as [h|h byte xs h' Hb _ IH|h n dist zs xs h' Hd Hn Hc _ IH|h xs h' _ IH].
  - done.
  - apply lo_literal; auto.
  - rewrite <-app_assoc. eapply lo_copy; eauto.
  - apply lo_reset. auto.
Qed.

Lemma lz_copy_app n dist h : exists ys, lz_copy n dist h = h ++ ys.
Proof.
  revert h. induction n as [|n IH]; intros h; simpl.
  { exists []. by rewrite app_nil_r. }
  destruct (IH (h ++ [default 0 (rd h (zlen h - 1 - dist))])) as [ys ->].
  eexists. by rewrite <-app_assoc.
Qed.

Lemma lz_steps_out h h' : rtc lz_step h h' -> exists xs, h' = h ++ xs /\ lz_out h xs h'.
Proof.
  induction 1 as [h|h h1 h2 H1 _ (xs & -> & IH)].
  { exists []. rewrite app_nil_r. split; [done|constructor]. }
  destruct H1 as [byte Hb|n dist Hd Hn].
  - exists (byte :: xs). split; [by rewrite <-app_assoc|]. by apply lo_literal.
  - destruct (lz_copy_app n dist h) as [ys E]. rewrite E in *. exists (ys ++ xs).
    split; [by rewrite <-app_assoc|]. by eapply lo_copy.
Qed.

Lemma lz_out_literals h xs : Forall is_byte xs -> lz_out h xs (h ++ xs).
Proof.
  revert h. induction xs as [|x xs IH]; intros h Hx; [rewrite app_nil_r; constructor|].
  apply Forall_cons in Hx as [Hx Hxs]. apply lo_literal; [done|].
  rewrite (cons_middle x h xs), app_assoc. by apply IH.
Qed.

(** ** The invariant *)

(** In multi-call mode the dictionary has memory of its own. *)
Definition dict_mem (d : dictionary) : Prop :=
  DEC_IS_MULTI (d_mode d) = true ->
  exists m, d_buf d = DictOwn m /\ d_end d <= zlen m /\ d_end d mod 16 = 0 /\ 0 < d_end d < 2 ^ 32.

(** The chunk that is being decoded starts with new properties, or continues with the
    LZMA state that is there. *)
Definition heads_props (l : lzma2_dec) : bool :=
  match sequence l with
  | SEQ_PROPERTIES => true
  | SEQ_UNCOMPRESSED_1 | SEQ_UNCOMPRESSED_2 | SEQ_COMPRESSED_0 | SEQ_COMPRESSED_1 =>
    bool_decide (next_sequence l = SEQ_PROPERTIES)
  | _ => false
  end.
Definition heads_lzma (l : lzma2_dec) : bool :=
  match sequence l with
  | SEQ_LZMA_PREPARE | SEQ_LZMA_RUN => true
  | SEQ_UNCOMPRESSED_1 | SEQ_UNCOMPRESSED_2 | SEQ_COMPRESSED_0 | SEQ_COMPRESSED_1 =>
    bool_decide (next_sequence l = SEQ_LZMA_PREPARE)
  | _ => false
  end.

Definition lzma_next (l : lzma2_dec) : Prop :=
  next_sequence l = SEQ_PROPERTIES \/ next_sequence l = SEQ_LZMA_PREPARE.

Definition sizes_next (l : lzma2_dec) : Prop :=
  next_sequence l = SEQ_COPY \/ lzma_next l /\ 1 <= uncompressed l <= 2 ^ 21.

(** The sizes known at each position of the chunk header. *)
Definition seq_ok (l : lzma2_dec) (ts : Z) : Prop :=
  match sequence l with
  | SEQ_CONTROL => ts = 0
  | SEQ_UNCOMPRESSED_1 => ts = 0 /\ 0 <= uncompressed l <= 0x1F0000 /\ lzma_next l
  | SEQ_UNCOMPRESSED_2 => ts = 0 /\ 0 <= uncompressed l <= 0x1FFF00 /\ lzma_next l
  | SEQ_COMPRESSED_0 => ts = 0 /\ sizes_next l
  | SEQ_COMPRESSED_1 => ts = 0 /\ sizes_next l /\ 0 <= compressed l <= 0xFF00
  | SEQ_PROPERTIES | SEQ_LZMA_PREPARE =>
    ts = 0 /\ 1 <= uncompressed l <= 2 ^ 21 /\ 1 <= compressed l <= 65536
  | SEQ_LZMA_RUN =>
    0 <= ts <= 20 /\ ts <= compressed l <= 65536 /\ 1 <= uncompressed l <= 2 ^ 21
  | SEQ_COPY => ts = 0 /\ 1 <= compressed l <= 65536
  end.

Record l2_inv (s : xz_dec_lzma2) (b : xz_buf) (h : list Z) : Prop := {
  i_mem : dict_mem (s_dict s);
  i_temp : zlen (temp_buf s) = TEMP_SIZE;
  i_len : 0 <= len (s_lzma s) <= 273;
  i_seq : seq_ok (s_lzma2 s) (temp_size s);
  i_reset : need_dict_reset (s_lzma2 s) = true -> sequence (s_lzma2 s) = SEQ_CONTROL;
  i_idle : need_dict_reset (s_lzma2 s) = false -> dict_idle (s_dict s) b h;
  i_props : heads_lzma (s_lzma2 s) || heads_props (s_lzma2 s) = true -> need_props (s_lzma2 s) = false;
  i_ready : need_dict_reset (s_lzma2 s) = false -> need_props (s_lzma2 s) = false ->
    heads_props (s_lzma2 s) = false ->
    lz_inv (lz_of s (b_out b)) h /\ 0 <= init_bytes_left (s_rc s) <= RC_INIT_BYTES }.

(** What is left of the uncompressed size of the chunk, 2 MiB while it is being read. *)
Definition pending (l : lzma2_dec) : Z :=
  match sequence l with
  | SEQ_CONTROL => 0
  | SEQ_PROPERTIES | SEQ_LZMA_PREPARE | SEQ_LZMA_RUN => uncompressed l
  | SEQ_COPY => compressed l
  | _ => 2 ^ 21
  end.

(** The output [xs] is paid by the chunk that is being decoded and by the [n] bytes read. *)
Definition spends (s s' : xz_dec_lzma2) (n : Z) (xs : list Z) : Prop :=
  zlen xs + pending (s_lzma2 s') <= pending (s_lzma2 s) + 2 ^ 21 * n.

Lemma pending_range s b h : l2_inv s b h -> 0 <= pending (s_lzma2 s) <= 2 ^ 21.
Proof.
  intros []. unfold pending, seq_ok in *. destruct (sequence (s_lzma2 s)); lia.
Qed.

Lemma spends_byte s b h s' b' h' : l2_inv s b h -> l2_inv s' b' h' -> spends s s' 1 [].
Proof.
  intros H1%pending_range H2%pending_range. unfold spends, zlen. simpl length. lia.
Qed.

(** What survives an error, so that the decoder can be reset and used again. *)
Definition l2_base (s s' : xz_dec_lzma2) : Prop :=
  dict_mem (s_dict s') /\ zlen (temp_buf s') = TEMP_SIZE /\ d_mode (s_dict s') = d_mode (s_dict s)
  /\ d_size_max (s_dict s') = d_size_max (s_dict s) /\ d_allocated (s_dict s') = d_allocated (s_dict s)
  /\ (DEC_IS_MULTI (d_mode (s_dict s)) = true -> same_block (d_buf (s_dict s)) (d_buf (s_dict s'))).

Lemma same_block_mem d d' :
  dict_mem d -> same_block (d_buf d) (d_buf d') -> d_end d' = d_end d -> d_mode d' = d_mode d -> dict_mem d'.
Proof.
  unfold dict_mem. intros Hm Hs He Hmode. rewrite Hmode, He. intros Hmulti.
  destruct (Hm Hmulti) as (m & Em & H1 & H2). rewrite Em in Hs.
  destruct (d_buf d') as [|m'|]; [done| |done]. simpl in Hs. exists m'. split; [done|]. by rewrite Hs.
Qed.

Lemma l2_base_refl s s' :
  dict_mem (s_dict s) -> s_dict s' = s_dict s -> zlen (temp_buf s') = TEMP_SIZE -> l2_base s s'.
Proof.
  intros Hm Hd Ht. unfold l2_base. rewrite Hd. split; [done|]. split; [done|]. split; [done|].
  split; [done|]. split; [done|]. intros _. apply same_block_refl.
Qed.

Lemma l2_base_trans s1 s2 s3 : l2_base s1 s2 -> l2_base s2 s3 -> l2_base s1 s3.
Proof.
  intros (A1 & A2 & A3 & A4 & A5 & A6) (B1 & B2 & B3 & B4 & B5 & B6).
  rewrite A3 in B6. split; [done|]. split; [done|]. split; [congruence|]. split; [congruence|].
  split; [congruence|]. intros H. eapply same_block_trans; auto.
Qed.

(** ** Consumption *)

Lemma emitted_in b n : emitted b (set_in_pos (b_in_pos b + n) b) n [].
Proof. split; simpl; try done; unfold zlen; simpl; [lia|]. intros j Hj. lia. Qed.

Lemma emitted_buf_ok b b' n xs :
  emitted b b' n xs -> xz_buf_ok b -> 0 <= n -> b_in_pos b' <= in_size b' -> b_out_pos b' <= out_size b' ->
  xz_buf_ok b'.
Proof.
  intros [] (Hi & Ho & Hi64 & Ho64 & Hby) Hn Hi' Ho'. pose proof (zlen_nonneg xs).
  unfold xz_buf_ok, in_size, out_size in *. rewrite em_in, em_size in *. split_and!; try done; lia.
Qed.

Lemma next_byte_ok b :
  xz_buf_ok b -> b_in_pos b < in_size b ->
  exists x, next_byte b = Some (x, set_in_pos (b_in_pos b + 1) b) /\ 0 <= x < 256
    /\ xz_buf_ok (set_in_pos (b_in_pos b + 1) b).
Proof.
  intros Hb Hlt. pose proof Hb as (Hi & Ho & _ & _ & Hby). unfold next_byte.
  destruct (rd_Some (b_in b) (b_in_pos b)) as [x Ex]; [unfold in_size in *; lia|]. rewrite Ex.
  exists x. split; [done|]. split; [apply (rd_Forall is_byte _ _ _ Hby Ex)|].
  eapply emitted_buf_ok; [apply (emitted_in b 1)|done|lia|simpl|simpl]; unfold in_size, out_size in *; simpl; lia.
Qed.

(** A new input position does not concern the dictionary. *)
Lemma dict_idle_in d b p h : dict_idle d b h -> dict_idle d (set_in_pos p b) h.
Proof. done. Qed.

(** ** The cases *)

(** What a round does. *)
Definition step_post (s : xz_dec_lzma2) (b : xz_buf) (h : list Z) (r : stepr) : Prop :=
  exists f s' b' n xs h', r = Some (f, s', b') /\ emitted b b' n xs /\ 0 <= n /\ xz_buf_ok b'
    /\ lz_out h xs h' /\ l2_base s s'
    /\ match f with
       | Next => l2_inv s' b' h' /\ spends s s' n xs /\ 1 <= n + zlen xs
       | Ret XZ_OK => l2_inv s' b' h' /\ spends s s' n xs
                      /\ (b_in_pos b' = in_size b' \/ b_out_pos b' = out_size b')
       | Ret XZ_STREAM_END => l2_inv s' b' h' /\ spends s s' n xs
       | Ret XZ_DATA_ERROR => True
       | Ret _ => False
       end.

(** Consuming [n] input bytes first. *)
Lemma step_post_in s s0 b h n r :
  0 <= n -> l2_base s s0 -> pending (s_lzma2 s0) = pending (s_lzma2 s) ->
  step_post s0 (set_in_pos (b_in_pos b + n) b) h r -> step_post s b h r.
Proof.
  intros Hn Hb Hp (f & s' & b' & n' & xs & h' & -> & Hem & Hn' & Hok & Hlz & Hbase & Hf).
  exists f, s', b', (n + n'), xs, h'. split; [done|].
  split; [by apply (emitted_trans _ _ _ _ _ _ _ (emitted_in b n) Hem)|]. split; [lia|]. split; [done|].
  split; [done|]. split; [by eapply l2_base_trans|].
  assert (Hsp : spends s0 s' n' xs -> spends s s' (n + n') xs) by (unfold spends; rewrite Hp; lia).
  destruct f as [[]|]; try done.
  - destruct Hf as (? & ? & ?). split; [done|]. split; [by apply Hsp|done].
  - destruct Hf. split; [done|]. by apply Hsp.
  - destruct Hf as (? & ? & ?). split; [done|]. split; [by apply Hsp|lia].
Qed.

(** Resetting the dictionary empties the history. *)
Lemma dict_reset_ok d b :
  dict_mem d -> xz_buf_ok b ->
  dict_idle (dict_reset d b) b [] /\ dict_mem (dict_reset d b) /\ d_mode (dict_reset d b) = d_mode d
  /\ (DEC_IS_MULTI (d_mode d) = true -> d_buf (dict_reset d b) = d_buf d).
Proof.
  intros Hm (Hi & Ho & _ & Ho64 & _). unfold dict_reset, dict_mem, dict_idle, dict_bound in *. simpl.
  unfold DEC_IS_SINGLE, DEC_IS_MULTI in *. destruct (decide (d_mode d = XZ_SINGLE)) as [E|E].
  - rewrite !bool_decide_eq_true_2 by done. simpl. rewrite usz_small by lia.
    split; [split; [split; simpl; [|lia]|]|done].
    + apply hist_empty; simpl; try done; unfold out_size in *; lia.
    + split; [split_and!; try done; unfold out_size in *; lia|]. by split.
  - rewrite !bool_decide_eq_false_2 in * by done. simpl in *. destruct (Hm eq_refl) as (m & Em & Hc & H16 & He).
    split; [split; [split; simpl; [|lia]|]|done].
    + rewrite Em. apply hist_empty; simpl; try done; lia.
    + rewrite Em. split; [split_and!; try done; lia|]. split; [done|]. intros _. lia.
Qed.

Lemma lzma_ok_init z h :
  lz_inv z h -> lz_inv (lzma_reset z) h /\ init_bytes_left (fst (z_rc (lzma_reset z))) = RC_INIT_BYTES.
Proof.
  intros (Hrc & Hd & Hl & Hv). split; [|reflexivity]. apply lzma_reset_ok; try done; apply Hl.
Qed.

(** Nothing but the chunk header changes. *)
Lemma l2_inv_header s b h l2 :
  l2_inv s b h -> temp_size s = 0 -> seq_ok l2 0 -> need_dict_reset l2 = need_dict_reset (s_lzma2 s) ->
  (need_dict_reset l2 = true -> sequence l2 = SEQ_CONTROL) ->
  (heads_lzma l2 || heads_props l2 = true -> need_props l2 = false) ->
  (need_dict_reset l2 = false -> need_props l2 = false -> heads_props l2 = false ->
   need_props (s_lzma2 s) = false /\ heads_props (s_lzma2 s) = false) ->
  l2_inv (with_lzma2 l2 s) (set_in_pos (b_in_pos b + 1) b) h.
Proof.
  intros [] Ht Hseq Hd Hr Hp Hready. split; simpl; try done.
  - by rewrite Ht.
  - intros H. by apply i_idle0; rewrite <-Hd.
  - intros H1 H2 H3. destruct (Hready H1 H2 H3). apply i_ready0; [by rewrite <-Hd|done|done].
Qed.

(** A round that reads one header byte. *)
Lemma header_step s b h l2 :
  l2_inv s b h -> xz_buf_ok (set_in_pos (b_in_pos b + 1) b) ->
  l2_inv (with_lzma2 l2 s) (set_in_pos (b_in_pos b + 1) b) h ->
  step_post s b h (Some (Next, with_lzma2 l2 s, set_in_pos (b_in_pos b + 1) b)).
Proof.
  intros Hs Hb Hi. exists Next, (with_lzma2 l2 s), (set_in_pos (b_in_pos b + 1) b), 1, [], h.
  split; [done|]. split; [apply emitted_in|]. split; [lia|]. split; [done|]. split; [constructor|].
  split; [apply l2_base_refl; [apply Hs|done|apply Hs]|]. split; [done|]. split; [by eapply spends_byte|].
  unfold zlen. simpl. lia.
Qed.

Lemma error_step s b h s' :
  xz_buf_ok (set_in_pos (b_in_pos b + 1) b) -> l2_base s s' ->
  step_post s b h (Some (Ret XZ_DATA_ERROR, s', set_in_pos (b_in_pos b + 1) b)).
Proof.
  intros Hb Hs. eexists _, _, _, 1, [], h. split; [done|]. split; [apply emitted_in|]. split; [lia|].
  split; [done|]. split; [constructor|]. by split.
Qed.

Lemma control_size x : 0 <= x < 256 -> 0 <= Z.shiftl (Z.land x 0x1F) 16 <= 0x1F0000.
Proof.
  intros Hx. pose proof (land_le_r x 0x1F ltac:(lia)). rewrite Z.shiftl_mul_pow2 by lia. lia.
Qed.

(** The header of an LZMA chunk after a possible dictionary reset. *)
Lemma control_lzma s b h x :
  l2_inv s b h -> temp_size s = 0 -> sequence (s_lzma2 s) = SEQ_CONTROL ->
  need_dict_reset (s_lzma2 s) = false -> 0 <= x < 256 ->
  let l2 := set_seq SEQ_UNCOMPRESSED_1 (set_uncompressed (Z.shiftl (Z.land x 0x1F) 16) (s_lzma2 s)) in
  l2_inv (with_lzma2 (set_next SEQ_PROPERTIES (set_needs false false l2)) s) b h
  /\ (need_props (s_lzma2 s) = false ->
      l2_inv (with_lzma2 (set_next SEQ_LZMA_PREPARE l2) s) b h
      /\ l2_inv (with_lz (lzma_reset (lz_of (with_lzma2 (set_next SEQ_LZMA_PREPARE l2) s) (b_out b)))
                  (with_lzma2 (set_next SEQ_LZMA_PREPARE l2) s)) b h).
Proof.
  intros [] Ht Hseq Hd Hx l2. pose proof (control_size x Hx) as Hu.
  assert (Hs : forall q, lzma_next (set_next q l2) -> seq_ok (set_next q l2) 0).
  { intros q Hq. split; [done|]. by split. }
  split.
  - split; simpl; try done.
    + rewrite Ht. split; [done|]. split; [done|]. by left.
    + intros _. by apply i_idle0.
  - intros Hp.
    assert (Hi1 : lz_inv (lz_of (with_lzma2 (set_next SEQ_LZMA_PREPARE l2) s) (b_out b)) h
      /\ 0 <= init_bytes_left (s_rc s) <= RC_INIT_BYTES).
    { apply i_ready0; try done. unfold heads_props. by rewrite Hseq. }
    split.
    + split; try done; simpl.
      * rewrite Ht. apply Hs. by right.
      * by rewrite Hd.
    + destruct (lzma_ok_init _ _ (proj1 Hi1)) as [Hi2 Hinit]. split; try done.
      * cbn [with_lz with_lzma2 temp_size s_lzma2]. rewrite Ht. apply Hs. by right.
      * cbn. by rewrite Hd.
Qed.

Lemma seq_control_ok s b h :
  l2_inv s b h -> xz_buf_ok b -> sequence (s_lzma2 s) = SEQ_CONTROL -> b_in_pos b < in_size b ->
  step_post s b h (seq_control s b).
Proof.
  intros Hi Hb Hseq Hlt. destruct (next_byte_ok b Hb Hlt) as (x & E & Hx & Hb1).
  unfold seq_control. rewrite E, some_bind. cbv beta iota.
  set (b1 := set_in_pos (b_in_pos b + 1) b) in *.
  assert (Hts : temp_size s = 0) by (pose proof (i_seq _ _ _ Hi) as H; unfold seq_ok in H; by rewrite Hseq in H).
  assert (Hi1 : l2_inv s b1 h) by (by destruct Hi).
  assert (Hbase : l2_base s s) by (apply l2_base_refl; [apply Hi|done|apply Hi]).
  destruct (Z.eqb_spec x 0).
  { eexists _, _, _, 1, [], h. split; [done|]. split; [apply emitted_in|]. split; [lia|]. split; [done|].
    split; [constructor|]. split; [done|]. split; [done|by eapply spends_byte]. }
  set (reset := (0xE0 <=? x) || (x =? 1)).
  destruct (negb reset && need_dict_reset (s_lzma2 s)) eqn:Er; [by apply error_step|].
  (* the state after a possible dictionary reset *)
  set (s1 := if reset then _ else s).
  assert (Hs1 : exists h1, l2_inv s1 b1 h1 /\ l2_base s s1 /\ temp_size s1 = 0
    /\ need_dict_reset (s_lzma2 s1) = false /\ sequence (s_lzma2 s1) = SEQ_CONTROL
    /\ lz_out h [] h1).
  { unfold s1. destruct reset; simpl in Er.
    - destruct (dict_reset_ok (s_dict s) b1) as (D1 & D2 & D3 & D4); [apply Hi|done|]. exists [].
      split; [|split; [|split; [done|split; [done|split; [done|apply lo_reset; constructor]]]]].
      + destruct Hi. split; try done; simpl.
        unfold heads_lzma, heads_props. simpl. by rewrite Hseq.
      + split; [done|]. split; [apply Hi|]. split; [done|]. split; [done|]. split; [done|].
        intros Hm. cbn [s_dict with_dict]. rewrite D4 by done. apply same_block_refl.
    - exists h. split; [done|]. split; [done|]. split; [done|]. split; [done|]. split; [done|constructor]. }
  destruct Hs1 as (h1 & Hi2 & Hbase1 & Hts1 & Hd1 & Hseq1 & Hlz). clearbody s1.
  assert (Hfin : forall s2, l2_inv s2 b1 h1 -> l2_base s1 s2 -> step_post s b h (Some (Next, s2, b1))).
  { intros s2 H2 Hb2. eexists _, _, _, 1, [], h1. split; [done|]. split; [apply emitted_in|]. split; [lia|].
    split; [done|]. split; [done|]. split; [by eapply l2_base_trans|]. split; [done|].
    split; [by eapply spends_byte|]. unfold zlen. simpl. lia. }
  assert (Hsame : forall s2, s_dict s2 = s_dict s1 -> temp_buf s2 = temp_buf s1 -> l2_base s1 s2).
  { intros s2 E1 E2. apply l2_base_refl; [apply Hi2|done|rewrite E2; apply Hi2]. }
  destruct (control_lzma s1 b1 h1 x Hi2 Hts1 Hseq1 Hd1 Hx) as [Hprops Hprep].
  destruct (Z.leb_spec 0x80 x).
  - cbn [s_lzma2 with_lzma2 set_seq set_uncompressed need_dict_reset need_props].
    rewrite Hd1. destruct (Z.leb_spec 0xC0 x); [by apply Hfin; [|apply Hsame]|].
    destruct (need_props (s_lzma2 s1)) eqn:Enp.
    { apply error_step; [done|]. eapply l2_base_trans; [exact Hbase1|]. by apply Hsame. }
    destruct (Hprep eq_refl) as [H1 H2]. destruct (0xA0 <=? x).
    + apply Hfin; [exact H2|by apply Hsame].
    + apply Hfin; [exact H1|by apply Hsame].
  - destruct (Z.ltb_spec 2 x).
    { apply error_step; [done|]. eapply l2_base_trans; [exact Hbase1|]. by apply Hsame. }
    apply Hfin; [|by apply Hsame]. destruct Hi2. split; simpl; try done.
    + rewrite Hts1. unfold seq_ok. simpl. split; [done|]. by left.
    + by rewrite Hd1.
    + intros A B C. apply i_ready0; try done. unfold heads_props. by rewrite Hseq1.
Qed.

(** The bytes of the chunk header. *)
Lemma header_ok s b h :
  l2_inv s b h -> xz_buf_ok b -> b_in_pos b < in_size b ->
  match sequence (s_lzma2 s) with
  | SEQ_UNCOMPRESSED_1 | SEQ_UNCOMPRESSED_2 | SEQ_COMPRESSED_0 | SEQ_COMPRESSED_1 =>
    step_post s b h (lzma2_step s b)
  | _ => True
  end.
Proof.
  intros Hi Hb Hlt. destruct (next_byte_ok b Hb Hlt) as (x & E & Hx & Hb1).
  pose proof (i_seq _ _ _ Hi) as Hseq. unfold lzma2_step, seq_ok in *.
  pose proof (i_reset _ _ _ Hi) as Hres. pose proof (i_props _ _ _ Hi) as Hpro.
  unfold heads_lzma, heads_props in Hpro.
  destruct (sequence (s_lzma2 s)) eqn:Eseq; try done; rewrite E, some_bind; cbv beta iota;
    (apply header_step; [done|done|]); apply l2_inv_header; try done; try (by apply Hseq);
    unfold seq_ok, heads_lzma, heads_props, lzma_next, sizes_next in *; simpl; try rewrite Eseq;
    try (intros Hn; specialize (Hres Hn); done); try done.
  - destruct Hseq as (_ & Hu & Hn). rewrite Z.shiftl_mul_pow2 by lia. rewrite u32_small by lia.
    split; [done|]. split; [lia|done].
  - destruct Hseq as (_ & Hu & Hn). rewrite u32_small by lia. split; [done|]. right. split; [done|lia].
  - destruct Hseq as (_ & Hn). rewrite Z.shiftl_mul_pow2 by lia. split; [done|]. split; [done|lia].
  - destruct Hseq as (_ & Hn & Hc). rewrite u32_small by lia.
    destruct Hn as [-> |[[-> | ->] Hu]]; simpl; lia.
  - destruct Hseq as (_ & Hn & Hc). destruct Hn as [En|[[En|En] _]]; rewrite En in *; try done.
  - destruct Hseq as (_ & Hn & Hc). intros _ Hp. destruct Hn as [-> |[[-> | ->] Hu]]; done.
Qed.
