(* ===== verification/XzLzma2Loop.v ===== *)
(** * The loop of the LZMA2 decoder

    The cases of [xz_dec_lzma2_run] that produce output, and the loop: it always returns,
    never leaves its buffers, and keeps the invariant. *)

From S2P Require Import Prelude XzDefs XzRange XzDict XzLzma XzLzmaInv XzLzma2 XzLzma2Spec XzLzma2Run.

(** The dictionary is bound to the same output while bytes are decoded into it. *)
Lemma moved_bound d b d' b' n :
  moved d (b_out b) d' (b_out b') n -> dict_bound d b -> b_out_pos b' = b_out_pos b -> dict_bound d' b'.
Proof.
  intros Hm Hb Ho. pose proof (moved_out_size _ _ _ _ _ Hm) as Hs. destruct Hm.
  unfold dict_bound, out_size in *. destruct (d_buf d), (d_buf d'); simpl in *; try done.
  - by rewrite moved_mode, moved_end.
  - subst. rewrite moved_mode, moved_end, moved_start. rewrite Hs, Ho. done.
Qed.

(** Decoding and flushing together: the new part of the history is in the output. *)
Lemma run_flush s b s1 b1 h h1 :
  ran2 s b s1 b1 h h1 -> xz_buf_ok b -> dict_bound (s_dict s) b -> d_start (s_dict s) = d_pos (s_dict s) ->
  d_limit (s_dict s) <= d_pos (s_dict s) + (out_size b - b_out_pos b) ->
  d_limit (s_dict s) - d_pos (s_dict s) < 2 ^ 32 -> b_in_pos b1 <= in_size b1 ->
  exists d2 b2 xs, dict_flush (s_dict s1) b1 = Some (zlen xs, d2, b2)
    /\ h1 = h ++ xs /\ lz_out h xs h1
    /\ emitted b b2 (b_in_pos b1 - b_in_pos b) xs /\ xz_buf_ok b2
    /\ dict_idle d2 b2 h1 /\ dict_same (s_dict s) d2 /\ d_full d2 = d_full (s_dict s1)
    /\ zlen xs <= d_limit (s_dict s) - d_pos (s_dict s) /\ b_in_pos b2 = b_in_pos b1.
Proof.
  intros Hran Hb Hbd Hst Hlim H32 Hin. pose proof (ran2_buf_ok _ _ _ _ _ _ Hran Hb) as Hb1.
  destruct Hran. destruct (lz_steps_out _ _ r2_steps) as (xs & -> & Hlz).
  pose proof (moved_bound _ _ _ _ _ r2_moved Hbd r2_out_pos) as Hbd1.
  pose proof (moved_out_size _ _ _ _ _ r2_moved) as Hos.
  pose proof r2_moved as [Mp Ms Ml Me Msz Mx Ma Mm Mb Mo].
  assert (Hn : d_pos (s_dict s1) - d_start (s_dict s1) = zlen xs) by (rewrite Mp, Ms, zlen_app; lia).
  rewrite zlen_app in *.
  destruct (dict_flush_ok (s_dict s1) b1 (h ++ xs)) as (d2 & b2 & E & Hem & Hr2 & Hbd2 & Hs2 & Hm2 & Hd2);
    try done; try (rewrite Hn; unfold out_size in *; rewrite ?Hos, ?r2_out_pos; lia).
  rewrite Hn, suffix_app in *. exists d2, b2, xs. split; [done|]. split; [done|]. split; [done|].
  assert (Hem2 : emitted b b2 (b_in_pos b1 - b_in_pos b) xs).
  { destruct Hem. split; try congruence; try lia.
    - intros j Hj. rewrite em_before by lia. unfold out_frame in Mo.
      destruct (d_buf (s_dict s)) as [|m|off] eqn:Eb; [by rewrite Mo|by rewrite Mo|].
      apply Mo. unfold dict_bound in Hbd. rewrite Eb in Hbd. lia.
    - intros j Hj. rewrite <-em_data by done. f_equal. lia. }
  split; [exact Hem2|].
  assert (Hsz : b_out_pos b + zlen xs <= out_size b) by lia.
  split.
  { eapply emitted_buf_ok; [exact Hem2|done|lia| |]; destruct Hem, Hem2; unfold in_size, out_size in *.
    - rewrite em_in, em_in_pos. lia.
    - rewrite em_size0, em_out_pos0. lia. }
  split; [split; [done|]; split; [done|]; split; [done|]; by rewrite Hd2 in Hm2 |- *|].
  split; [rewrite Hd2; unfold dict_same; simpl; by split_and!|].
  split; [by rewrite Hd2|]. split; [rewrite Mp in *; lia|]. destruct Hem. lia.
Qed.

(** What the invariant says at [SEQ_LZMA_RUN]. *)
Record run_facts (s : xz_dec_lzma2) (b : xz_buf) (h : list Z) : Prop := {
  rf_reset : need_dict_reset (s_lzma2 s) = false;
  rf_props : need_props (s_lzma2 s) = false;
  rf_idle : dict_idle (s_dict s) b h;
  rf_lz : lz_inv (lz_of s (b_out b)) h;
  rf_init : 0 <= init_bytes_left (s_rc s) <= RC_INIT_BYTES;
  rf_temp : 0 <= temp_size s <= 20;
  rf_comp : temp_size s <= compressed (s_lzma2 s) <= 65536;
  rf_unc : 1 <= uncompressed (s_lzma2 s) <= 2 ^ 21 }.

Lemma l2_run_facts s b h : l2_inv s b h -> sequence (s_lzma2 s) = SEQ_LZMA_RUN -> run_facts s b h.
Proof.
  intros Hi Hseq.
  assert (Hnr : need_dict_reset (s_lzma2 s) = false).
  { destruct (need_dict_reset (s_lzma2 s)) eqn:E; [|done]. pose proof (i_reset _ _ _ Hi E). congruence. }
  assert (Hnp : need_props (s_lzma2 s) = false)
    by (apply (i_props _ _ _ Hi); unfold heads_lzma; by rewrite Hseq).
  pose proof (i_ready _ _ _ Hi Hnr Hnp ltac:(unfold heads_props; by rewrite Hseq)) as [Hlz Hini].
  pose proof (i_seq _ _ _ Hi) as Hsok. unfold seq_ok in Hsok. rewrite Hseq in Hsok.
  destruct Hsok as (Hts & Hcomp & Hunc). split; try done. by apply (i_idle _ _ _ Hi).
Qed.

(** The room the decoder is given. *)
Definition run_room (s : xz_dec_lzma2) (b : xz_buf) : Z :=
  Z.min (out_size b - b_out_pos b) (uncompressed (s_lzma2 s)).

(** [lzma2_lzma] under [dict_limit]. *)
Lemma run_decode s b h :
  l2_inv s b h -> xz_buf_ok b -> sequence (s_lzma2 s) = SEQ_LZMA_RUN ->
  exists l ok s1 b1 h1, let s0 := with_dict (dict_limit (s_dict s) (run_room s b)) s in
    s_dict s0 = dict_upd (s_dict s) (d_buf (s_dict s)) (d_start (s_dict s)) (d_pos (s_dict s)) (d_full (s_dict s)) l
    /\ l = Z.min (d_end (s_dict s)) (d_pos (s_dict s) + run_room s b)
    /\ lzma2_lzma s0 b = Some (ok, s1, b1) /\ ran2 s0 b s1 b1 h h1 /\ l2_base s s1
    /\ init_bytes_left (s_rc s1) = init_bytes_left (s_rc s)
    /\ (ok = true -> run_ok s0 b s1 b1 h h1 /\ progress s0 b s1 b1 h h1).
Proof.
  intros Hi Hb Hseq. destruct (l2_run_facts s b h Hi Hseq). pose proof rf_idle0 as (Hrep & Hbd & Hst & Hmul).
  pose proof Hb as (Hbi & Hbo & Hi64 & Ho64 & _). pose proof (hist_pos _ _ _ _ _ _ (proj1 Hrep)) as Hpos.
  assert (Hr0 : 0 <= run_room s b < 2 ^ 64) by (unfold run_room; lia).
  destruct (dict_limit_ok (s_dict s) (b_out b) h (run_room s b) Hrep Hr0) as (l & El & Hl).
  assert (Hrs : run_state (with_dict (dict_limit (s_dict s) (run_room s b)) s) b h).
  { rewrite El. split; simpl; try done; try lia. split; [apply Hi|lia]. }
  destruct (lzma2_lzma_ok _ b h Hrs) as (ok & s1 & b1 & h1 & E1 & Hran & Hinit & Hok).
  exists l, ok, s1, b1, h1. cbv zeta. split; [exact El|]. split; [lia|]. split; [exact E1|]. split; [done|].
  split; [|by split]. destruct Hran. rewrite El in r2_moved. destruct r2_moved. simpl in *. split; [|split; [done|]].
  - eapply same_block_mem; [apply Hi|done|done|done].
  - by split_and!.
Qed.

(** A chunk that turns out to be damaged: nothing is flushed. *)
Lemma run_error s s0 b s1 b1 h h1 :
  ran2 s0 b s1 b1 h h1 -> l2_base s s1 -> xz_buf_ok b -> dict_bound (s_dict s0) b ->
  d_start (s_dict s0) = d_pos (s_dict s0) ->
  step_post s b h (Some (Ret XZ_DATA_ERROR, s1, b1)).
Proof.
  intros Hran Hbase Hb Hbd Hst. pose proof (ran2_buf_ok _ _ _ _ _ _ Hran Hb) as Hb1. destruct Hran.
  eexists _, s1, b1, (b_in_pos b1 - b_in_pos b), [], h. split; [done|].
  split; [|split; [lia|split; [done|split; [constructor|by split]]]].
  pose proof (moved_out_size _ _ _ _ _ r2_moved). destruct r2_moved.
  split; try done; try lia; [unfold zlen; simpl; lia| |unfold zlen; simpl; lia].
  intros j Hj. unfold out_frame in moved_out. unfold dict_bound in Hbd.
  destruct (d_buf (s_dict s0)); [by rewrite moved_out|by rewrite moved_out|]. apply moved_out. lia.
Qed.

(** Everything known after the flush, before the end of the chunk is tested: [n] bytes read,
    [xs] written. *)
Record flushed (s : xz_dec_lzma2) (b : xz_buf) (s2 : xz_dec_lzma2) (b2 : xz_buf) (h h2 : list Z) (n : Z) (xs : list Z)
  : Prop := {
  fl_em : emitted b b2 n xs;
  fl_n : 0 <= n;
  fl_buf : xz_buf_ok b2;
  fl_out : lz_out h xs h2;
  fl_base : forall s', s_dict s' = s_dict s2 -> temp_buf s' = temp_buf s2 -> l2_base s s';
  fl_idle : dict_idle (s_dict s2) b2 h2;
  fl_lz : lz_inv (lz_of s2 (b_out b2)) h2;
  fl_len : 0 <= len (s_lzma s2) <= 273;
  fl_init : 0 <= init_bytes_left (s_rc s2) <= RC_INIT_BYTES;
  fl_temp : 0 <= temp_size s2 <= 20;
  fl_comp : temp_size s2 <= compressed (s_lzma2 s2) <= 65536;
  fl_head : s_lzma2 s2 = set_compressed (compressed (s_lzma2 s2)) (s_lzma2 s);
  fl_xs : zlen xs <= uncompressed (s_lzma2 s);
  fl_progress : 1 <= n + zlen xs \/ b_out_pos b2 = out_size b2
                \/ b_in_pos b2 = in_size b2 /\ temp_size s2 < compressed (s_lzma2 s2) }.

(** A round that ends with the flushed state but for the chunk header and the range decoder. *)
Lemma flushed_post s b s2 b2 h h2 n xs f s' :
  flushed s b s2 b2 h h2 n xs -> sequence (s_lzma2 s) = SEQ_LZMA_RUN ->
  s_dict s' = s_dict s2 -> temp_buf s' = temp_buf s2 ->
  match f with
  | Next => l2_inv s' b2 h2 /\ pending (s_lzma2 s') = uncompressed (s_lzma2 s) - zlen xs /\ 1 <= n + zlen xs
  | Ret XZ_OK => l2_inv s' b2 h2 /\ pending (s_lzma2 s') = uncompressed (s_lzma2 s) - zlen xs
                 /\ (b_in_pos b2 = in_size b2 \/ b_out_pos b2 = out_size b2)
  | Ret XZ_DATA_ERROR => True
  | Ret _ => False
  end -> step_post s b h (Some (f, s', b2)).
Proof.
  intros [] Hseq Ed Et Hf. exists f, s', b2, n, xs, h2. split; [done|]. split; [done|]. split; [done|]. split; [done|].
  split; [done|]. split; [by apply fl_base0|].
  assert (Hsp : pending (s_lzma2 s') = uncompressed (s_lzma2 s) - zlen xs -> spends s s' n xs)
    by (intros Hq; unfold spends; rewrite Hq; unfold pending; rewrite Hseq; lia).
  destruct f as [[]|]; try done; destruct Hf as (? & Hpn & ?); (split; [done|]); (split; [by apply Hsp|done]).
Qed.

Lemma run_flushed s b l s1 b1 h h1 :
  let s0 := with_dict (dict_limit (s_dict s) (run_room s b)) s in
  l2_inv s b h -> xz_buf_ok b -> sequence (s_lzma2 s) = SEQ_LZMA_RUN ->
  s_dict s0 = dict_upd (s_dict s) (d_buf (s_dict s)) (d_start (s_dict s)) (d_pos (s_dict s)) (d_full (s_dict s)) l ->
  l = Z.min (d_end (s_dict s)) (d_pos (s_dict s) + run_room s b) ->
  ran2 s0 b s1 b1 h h1 -> l2_base s s1 -> init_bytes_left (s_rc s1) = init_bytes_left (s_rc s) ->
  run_ok s0 b s1 b1 h h1 -> progress s0 b s1 b1 h h1 ->
  exists d2 b2 xs n, dict_flush (s_dict s1) b1 = Some (zlen xs, d2, b2) /\ flushed s b (with_dict d2 s1) b2 h h1 n xs.
Proof.
  intros s0 Hi Hb Hseq El Hlim Hran Hbase Hinit [Hi1 Ht1 Hc1] Hprog. destruct (l2_run_facts s b h Hi Hseq).
  pose proof rf_idle0 as (Hrep & Hbd & Hst & Hmul). pose proof Hb as (Hbi & Hbo & _).
  pose proof (hist_pos _ _ _ _ _ _ (proj1 Hrep)) as Hpos. unfold run_room in Hlim.
  pose proof (r2_in _ _ _ _ _ _ Hran) as Hin. pose proof (r2_in_pos _ _ _ _ _ _ Hran) as Hp.
  destruct (run_flush s0 b s1 b1 h h1 Hran Hb) as (d2 & b2 & xs & E2 & Eh1 & Hlz1 & Hem & Hb2 & Hidle2 & Hsame & Hfull & Hxs & Hip);
    try (rewrite El; done); try (rewrite El; simpl; lia); [unfold in_size in *; rewrite Hin; lia|].
  exists d2, b2, xs, (b_in_pos b1 - b_in_pos b). split; [exact E2|]. rewrite El in Hxs, Hsame. simpl in Hxs.
  destruct Hsame as (S1 & S2 & S3 & S4 & S5 & S6). pose proof (zlen_nonneg xs).
  split; simpl; try done; try lia.
  - intros s' Ed Et. split; rewrite Ed.
    + eapply same_block_mem; [apply Hi|done|done|done].
    + rewrite Et. split; [apply Hbase|]. by split_and!.
  - destruct Hi1 as (Q1 & Q2 & Q3 & Q4). split; [done|]. split; [apply Hidle2|]. split; [done|].
    unfold rep_valid in *. simpl in *. by rewrite Hfull.
  - apply Hi1.
  - apply (r2_lzma2 _ _ _ _ _ _ Hran).
  - destruct (decide (b_out_pos b2 = out_size b2)) as [?|Hno]; [tauto|].
    pose proof (em_out_pos _ _ _ _ Hem) as Q. pose proof (em_size _ _ _ _ Hem) as Qs. pose proof (em_in _ _ _ _ Hem) as Qi.
    destruct Hb2 as (_ & Hb2 & _). unfold out_size, in_size in *.
    assert (Hroom : d_pos (s_dict s) < d_end (s_dict s)) by (eapply dict_idle_room; [exact rf_idle0|unfold out_size; lia]).
    rewrite Qi, Hip. destruct Hprog as [Hg|[Hg|Hg]]; [rewrite El; simpl; lia| |left; lia|by right; right].
    rewrite Eh1, zlen_app in Hg. left. lia.
Qed.

Lemma seq_run_ok s b h :
  l2_inv s b h -> xz_buf_ok b -> sequence (s_lzma2 s) = SEQ_LZMA_RUN ->
  step_post s b h (seq_run s b).
Proof.
  intros Hi Hb Hseq. unfold seq_run. fold (run_room s b). destruct (l2_run_facts s b h Hi Hseq).
  destruct (run_decode s b h Hi Hb Hseq) as (l & ok & s1 & b1 & h1 & El & Hl & E1 & Hran & Hbase & Hinit & Hok).
  rewrite E1, some_bind. cbv beta iota. destruct ok; cbn [negb]; cycle 1.
  { eapply run_error; [exact Hran|done|done|rewrite El; apply rf_idle0|rewrite El; apply rf_idle0]. }
  destruct (Hok eq_refl) as [Hro Hprog].
  destruct (run_flushed s b l s1 b1 h h1 Hi Hb Hseq El Hl Hran Hbase Hinit Hro Hprog) as (d2 & b2 & xs & n & E2 & Hfl).
  rewrite E2, some_bind. cbv beta iota zeta. pose proof Hfl as [].
  set (s2 := with_dict d2 s1) in *. cbn [s_lzma2 with_lzma2 uncompressed set_uncompressed].
  assert (Eunc : uncompressed (s_lzma2 s2) = uncompressed (s_lzma2 s)) by (rewrite fl_head0; done).
  pose proof (zlen_nonneg xs) as Hxs0. rewrite Eunc, (u32_small (uncompressed (s_lzma2 s) - zlen xs)) by lia.
  assert (Hflags : need_dict_reset (s_lzma2 s2) = false /\ need_props (s_lzma2 s2) = false
    /\ sequence (s_lzma2 s2) = SEQ_LZMA_RUN) by (rewrite fl_head0; done).
  destruct Hflags as (F1 & F2 & F3). simpl in F1, F2, F3.
  assert (Hmem2 : dict_mem d2 /\ zlen (temp_buf s1) = TEMP_SIZE)
    by (destruct (fl_base0 s2 eq_refl eq_refl) as (M1 & M2 & _); done). destruct Hmem2 as [Hmem2 Htb].
  destruct (Z.eqb_spec (uncompressed (s_lzma2 s) - zlen xs) 0) as [Hz|Hz].
  - destruct (_ || _ || _) eqn:Ee; [by apply (flushed_post s b s2 b2 h h1 n xs)|]. zify_bools. destruct Ee as [[Ec Elen] Ef].
    apply (flushed_post s b s2 b2 h h1 n xs); try done. split; [|split; [unfold pending; simpl; lia|lia]]. split; try done; simpl.
    + unfold seq_ok. simpl. simpl in *. lia.
    + intros _ _ _. destruct fl_lz0 as ((_ & _ & Q1 & Q2) & Q3). split; [|unfold RC_INIT_BYTES; lia]. split; [|done]. by apply rc_reset_ok.
  - assert (Hcont : l2_inv (with_lzma2 (set_uncompressed (uncompressed (s_lzma2 s) - zlen xs) (s_lzma2 s2)) s2) b2 h1).
    { split; try done; simpl; [unfold seq_ok; simpl; rewrite F3; simpl in *; lia|by rewrite F1]. }
    assert (Hpend : pending (set_uncompressed (uncompressed (s_lzma2 s) - zlen xs) (s_lzma2 s2)) = uncompressed (s_lzma2 s) - zlen xs)
      by (unfold pending; simpl; by rewrite F3).
    destruct (_ || _) eqn:Ee; apply (flushed_post s b s2 b2 h h1 n xs); try done; (split; [done|]); (split; [done|]);
      do 2 zify_bools; [tauto|]. simpl in *. lia.
Qed.

(** Reading the first bytes of a chunk, as far as the input goes. *)
Lemma read_init_loop_ok n : forall rc b,
  xz_buf_ok b -> 0 <= rc_code rc < 2 ^ 32 ->
  exists ok rc' k, read_init_loop n rc b = Some (ok, rc', set_in_pos (b_in_pos b + k) b)
    /\ 0 <= k <= Z.of_nat n /\ xz_buf_ok (set_in_pos (b_in_pos b + k) b)
    /\ rc_range rc' = rc_range rc /\ 0 <= rc_code rc' < 2 ^ 32
    /\ init_bytes_left rc' = init_bytes_left rc - k
    /\ (ok = false -> b_in_pos b + k = in_size b) /\ (ok = true -> k = Z.of_nat n).
Proof.
  induction n as [|n IH]; intros rc b Hb Hc; cbn [read_init_loop].
  { exists true, rc, 0. rewrite Z.add_0_r. split; [by destruct b|]. split; [lia|]. split; [by destruct b|].
    split; [done|]. split; [done|]. split; [lia|]. by split. }
  destruct (Z.eqb_spec (b_in_pos b) (in_size b)) as [E|E].
  { exists false, rc, 0. rewrite Z.add_0_r. split; [by destruct b|]. split; [lia|]. split; [by destruct b|].
    split; [done|]. split; [done|]. split; [lia|]. by split. }
  destruct (next_byte_ok b Hb) as (x & Ex & Hx & Hb1); [destruct Hb; lia|].
  unfold next_byte in Ex. destruct (rd (b_in b) (b_in_pos b)) as [y|]; [|done]. simpl in *. injection Ex as ->.
  destruct (IH (RC (rc_range rc) (u32 (u32 (Z.shiftl (rc_code rc) 8) + x)) (init_bytes_left rc - 1)
      (rc_in rc) (rc_in_pos rc) (rc_in_limit rc)) _ Hb1) as (ok & rc' & k & E' & Hk & Hb' & Hr & Hc' & Hi & H1 & H2);
    [apply u32_range|].
  simpl in *. exists ok, rc', (1 + k). rewrite Z.add_assoc. split; [exact E'|]. split; [lia|]. split; [exact Hb'|].
  split; [done|]. split; [done|]. split; [lia|]. split; [exact H1|]. intros H. specialize (H2 H). lia.
Qed.

(** Changing the code and the bytes left keeps the range decoder valid. *)
Lemma lz_inv_rc s out h rc :
  lz_inv (lz_of s out) h -> rc_range rc = rc_range (s_rc s) -> 0 <= rc_code rc < 2 ^ 32 ->
  lz_inv (lz_of (with_rc rc s) out) h.
Proof.
  intros ((H1 & H2 & H3 & H4) & H5) Hr Hc. split; [|done]. unfold rc_ok in *. simpl in *. by rewrite Hr.
Qed.

Lemma seq_prepare_ok s b h :
  l2_inv s b h -> xz_buf_ok b -> sequence (s_lzma2 s) = SEQ_LZMA_PREPARE ->
  step_post s b h (seq_prepare s b).
Proof.
  intros Hi Hb Hseq. pose proof (i_seq _ _ _ Hi) as Hsok. unfold seq_ok in Hsok. rewrite Hseq in Hsok.
  destruct Hsok as (Hts & Hunc & Hcomp). unfold seq_prepare, RC_INIT_BYTES.
  assert (Hbase : l2_base s s) by (apply l2_base_refl; [apply Hi|done|apply Hi]).
  destruct (Z.ltb_spec (compressed (s_lzma2 s)) 5).
  { eexists _, s, b, 0, [], h. split; [done|]. split; [apply emitted_refl|]. split; [lia|]. split; [done|].
    split; [constructor|]. by split. }
  assert (Hnr : need_dict_reset (s_lzma2 s) = false).
  { destruct (need_dict_reset (s_lzma2 s)) eqn:E; [|done]. pose proof (i_reset _ _ _ Hi E). congruence. }
  assert (Hnp : need_props (s_lzma2 s) = false)
    by (apply (i_props _ _ _ Hi); unfold heads_lzma; by rewrite Hseq).
  pose proof (i_ready _ _ _ Hi Hnr Hnp ltac:(unfold heads_props; by rewrite Hseq)) as [Hlz Hini].
  unfold RC_INIT_BYTES in Hini.
  destruct (read_init_loop_ok (Z.to_nat (init_bytes_left (s_rc s))) (s_rc s) b Hb)
    as (ok & rc' & k & E & Hk & Hb1 & Hr & Hc & Hil & Hf & Ht); [apply Hlz|].
  unfold rc_read_init. rewrite E, some_bind. cbv beta iota.
  pose proof (lz_inv_rc _ _ _ rc' Hlz Hr Hc) as Hlz1.
  destruct ok; cbn [negb]; cycle 1.
  { eexists _, _, _, k, [], h. split; [done|]. split; [apply emitted_in|]. split; [lia|]. split; [done|].
    split; [constructor|]. split; [apply l2_base_refl; [apply Hi|done|apply Hi]|].
    split; [|split; [unfold spends, pending, zlen; simpl; rewrite Hseq; lia|left; by apply Hf]]. destruct Hi. split; simpl; try done.
    intros _ _ _. split; [done|unfold RC_INIT_BYTES; lia]. }
  cbn [s_lzma2 with_rc]. rewrite (u32_small (compressed (s_lzma2 s) - 5)) by lia.
  set (s1 := with_lzma2 _ _). apply (step_post_in s s1 b h k); [lia|apply l2_base_refl; [apply Hi|done|apply Hi]|unfold pending; simpl; by rewrite Hseq|].
  apply seq_run_ok; [|done|done]. destruct Hi. split; simpl; try done.
  - unfold seq_ok. simpl. lia.
  - by rewrite Hnr.
  - intros _ _ _. split; [done|unfold RC_INIT_BYTES; lia].
Qed.

Lemma seq_properties_ok s b h :
  l2_inv s b h -> xz_buf_ok b -> sequence (s_lzma2 s) = SEQ_PROPERTIES -> b_in_pos b < in_size b ->
  step_post s b h (seq_properties s b).
Proof.
  intros Hi Hb Hseq Hlt. destruct (next_byte_ok b Hb Hlt) as (x & E & Hx & Hb1).
  unfold seq_properties. rewrite E, some_bind. cbv beta iota.
  assert (Hnr : need_dict_reset (s_lzma2 s) = false).
  { destruct (need_dict_reset (s_lzma2 s)) eqn:En; [|done]. pose proof (i_reset _ _ _ Hi En). congruence. }
  pose proof (i_idle _ _ _ Hi Hnr) as Hidle.
  pose proof (i_seq _ _ _ Hi) as Hsok. unfold seq_ok in Hsok. rewrite Hseq in Hsok.
  destruct (lzma_props_ok (lz_of s (b_out b)) x h) as (ok & z' & Ep & Ed & Eo & El & _ & Hok);
    [done|apply Hidle|apply Hi|].
  change (b_out (set_in_pos (b_in_pos b + 1) b)) with (b_out b). rewrite Ep, some_bind. cbv beta iota.
  set (s1 := with_lz z' s).
  assert (Hbase : l2_base s s1) by (apply l2_base_refl; [apply Hi|exact Ed|apply Hi]).
  destruct ok; cbn [negb]; [|by apply error_step].
  destruct (Hok eq_refl) as (Hlz & Hinit & _).
  set (s2 := with_lzma2 (set_seq SEQ_LZMA_PREPARE (s_lzma2 s1)) s1).
  apply (step_post_in s s2 b h 1); [lia|exact Hbase|unfold pending; simpl; by rewrite Hseq|].
  assert (Hlz2 : lz_inv (lz_of s2 (b_out b)) h).
  { unfold lz_of, s2, s1. simpl in *. rewrite <-Eo. by destruct z' as [[] ? ? ?]. }
  assert (Hnp : need_props (s_lzma2 s2) = need_props (s_lzma2 s)) by done.
  apply seq_prepare_ok; [|done|done]. destruct Hi. split; try done.
  - simpl. rewrite Ed. done.
  - simpl. rewrite El. done.
  - simpl. congruence.
  - intros _. simpl. rewrite Ed. exact Hidle.
  - intros _. simpl. apply i_props. unfold heads_props. rewrite Hseq. apply orb_true_r.
  - intros _ _ _. split; [done|]. simpl. rewrite Hinit. unfold RC_INIT_BYTES. lia.
Qed.

Lemma seq_copy_ok s b h :
  l2_inv s b h -> xz_buf_ok b -> sequence (s_lzma2 s) = SEQ_COPY -> b_in_pos b < in_size b ->
  step_post s b h (seq_copy s b).
Proof.
  intros Hi Hb Hseq Hlt.
  assert (Hnr : need_dict_reset (s_lzma2 s) = false).
  { destruct (need_dict_reset (s_lzma2 s)) eqn:En; [|done]. pose proof (i_reset _ _ _ Hi En). congruence. }
  pose proof (i_idle _ _ _ Hi Hnr) as Hidle.
  pose proof (i_seq _ _ _ Hi) as Hsok. unfold seq_ok in Hsok. rewrite Hseq in Hsok. destruct Hsok as [Hts Hc].
  destruct (uncompressed_loop_ok (S (Z.to_nat (compressed (s_lzma2 s)))) (s_dict s) b (compressed (s_lzma2 s)) h)
    as (d' & b' & xs & E & Hxs & Hidle' & Hem & Hsame & Hle & Hstop); try done; try lia.
  unfold seq_copy, dict_uncompressed. rewrite E, some_bind. cbv beta iota.
  pose proof (zlen_nonneg xs) as Hx0.
  assert (Hxs' : Forall is_byte xs) by (eapply rds_Forall; [apply Hb|exact Hxs]).
  set (rest := compressed (s_lzma2 s) - zlen xs) in *.
  assert (Hb' : xz_buf_ok b').
  { destruct Hem. pose proof Hb as (_ & Hb2 & _ & _ & _). unfold rds in Hxs.
    destruct (0 <=? b_in_pos b); [|done]. destruct (0 <=? zlen xs); [|done].
    destruct (Z.leb_spec (b_in_pos b + zlen xs) (zlen (b_in b))) as [Hin|]; [|done].
    eapply emitted_buf_ok; [by split|done|lia|unfold in_size; rewrite em_in; lia|].
    destruct Hidle' as (_ & Hbd & Hst & _). unfold out_size. rewrite em_size, em_out_pos.
    destruct (decide (b_out_pos b + zlen xs <= zlen (b_out b))) as [?|Hbig]; [done|].
    exfalso. apply Hbig. pose proof (em_data (zlen xs - 1)) as Hd.
    destruct (decide (zlen xs = 0)); [unfold out_size in *; lia|].
    destruct (rd_Some xs (zlen xs - 1)) as [y Ey]; [lia|]. rewrite Ey in Hd.
    specialize (Hd ltac:(lia)). apply rd_inv in Hd. lia. }
  destruct Hsame as (S1 & S2 & S3 & S4 & S5 & S6).
  assert (Hmem : dict_mem d') by (eapply same_block_mem; [apply Hi|done|done|done]).
  set (s1 := with_lzma2 (set_compressed rest (s_lzma2 s)) (with_dict d' s)).
  assert (Hbase : forall s2, s_dict s2 = d' -> temp_buf s2 = temp_buf s -> l2_base s s2).
  { intros s2 Ed Et. split; rewrite Ed; [done|]. rewrite Et. split; [apply Hi|]. by split_and!. }
  assert (Hready : need_props (s_lzma2 s) = false -> lz_inv (lz_of s1 (b_out b')) (h ++ xs)
    /\ 0 <= init_bytes_left (s_rc s) <= RC_INIT_BYTES).
  { intros Hp. destruct (i_ready _ _ _ Hi Hnr Hp) as ((Q1 & Q2 & Q3 & Q4) & Q5); [unfold heads_props; by rewrite Hseq|].
    split; [|done]. split; [done|]. split; [apply Hidle'|]. split; [done|]. intros Hst. specialize (Q4 Hst). simpl in *.
    pose proof (hist_full _ _ _ _ _ _ (proj1 (proj1 Hidle'))) as F'. pose proof (hist_full _ _ _ _ _ _ (proj1 (proj1 Hidle))) as F.
    rewrite zlen_app, S1 in F'. lia. }
  destruct (Z.ltb_spec 0 rest) as [Hr|Hr].
  - eexists _, s1, b', (zlen xs), xs, (h ++ xs). split; [done|]. split; [done|]. split; [done|]. split; [done|].
    split; [by apply lz_out_literals|]. split; [by apply Hbase|].
    split; [|split; [unfold spends, pending; simpl; rewrite Hseq; lia|lia]]. destruct Hi. split; try done; simpl.
    + unfold seq_ok. simpl. rewrite Hseq. lia.
    + intros _ Hp _. by apply Hready.
  - eexists _, _, b', (zlen xs), xs, (h ++ xs). split; [done|]. split; [done|]. split; [done|]. split; [done|].
    split; [by apply lz_out_literals|]. split; [by apply Hbase|].
    split; [|split; [unfold spends, pending; simpl; rewrite Hseq; lia|lia]]. destruct Hi. split; try done; simpl. intros _ Hp _. by apply Hready.
Qed.

(** ** The loop *)

Lemma lzma2_step_ok s b h :
  l2_inv s b h -> xz_buf_ok b -> b_in_pos b < in_size b \/ sequence (s_lzma2 s) = SEQ_LZMA_RUN ->
  step_post s b h (lzma2_step s b).
Proof.
  intros Hi Hb Hc. destruct (decide (sequence (s_lzma2 s) = SEQ_LZMA_RUN)) as [Hr|Hr].
  { unfold lzma2_step. rewrite Hr. by apply seq_run_ok. }
  destruct Hc as [Hc|Hc]; [|done]. pose proof (header_ok s b h Hi Hb Hc) as Hh. unfold lzma2_step in *.
  destruct (sequence (s_lzma2 s)) eqn:E; try done.
  - by apply seq_control_ok.
  - by apply seq_properties_ok.
  - by apply seq_prepare_ok.
  - by apply seq_copy_ok.
Qed.

(** What a call of [xz_dec_lzma2_run] does, whatever the input. *)
Definition run_post (s : xz_dec_lzma2) (b : xz_buf) (h : list Z)
  (ret : xz_ret) (s' : xz_dec_lzma2) (b' : xz_buf) : Prop :=
  exists n xs h', emitted b b' n xs /\ 0 <= n /\ xz_buf_ok b' /\ lz_out h xs h' /\ l2_base s s'
    /\ match ret with
       | XZ_OK => l2_inv s' b' h' /\ spends s s' n xs /\ (b_in_pos b' = in_size b' \/ b_out_pos b' = out_size b')
       | XZ_STREAM_END => l2_inv s' b' h' /\ spends s s' n xs
       | XZ_DATA_ERROR => True
       | _ => False
       end.

Lemma lzma2_loop_ok fuel : forall s b h,
  l2_inv s b h -> xz_buf_ok b ->
  (in_size b - b_in_pos b) + (out_size b - b_out_pos b) < Z.of_nat fuel ->
  exists ret s' b', lzma2_loop fuel s b = Some (ret, s', b') /\ run_post s b h ret s' b'.
Proof.
  induction fuel as [|fuel IH]; intros s b h Hi Hb Hf.
  { destruct Hb as (? & ? & _). lia. }
  cbn [lzma2_loop].
  assert (Hbase : l2_base s s) by (apply l2_base_refl; [apply Hi|done|apply Hi]).
  destruct ((b_in_pos b <? in_size b) || _) eqn:Ec; cycle 1.
  { zify_bools. destruct Ec as [Ec _]. exists XZ_OK, s, b. split; [done|].
    exists 0, [], h. split; [apply emitted_refl|]. split; [done|]. split; [done|]. split; [constructor|].
    split; [done|]. split; [done|]. split; [unfold spends, zlen; simpl length; lia|]. left. destruct Hb as (? & _). lia. }
  destruct (lzma2_step_ok s b h Hi Hb) as (f & s1 & b1 & n & xs & h1 & E & Hem & Hn & Hb1 & Hlz & Hbase1 & Hpost).
  { zify_bools. destruct Ec as [Ec|Ec]; [by left|right]. by apply bool_decide_eq_true in Ec. }
  rewrite E, some_bind. cbv beta iota. destruct f as [r|].
  { exists r, s1, b1. split; [done|]. exists n, xs, h1. split; [done|]. split; [done|]. split; [done|].
    split; [done|]. split; [done|]. by destruct r. }
  destruct Hpost as (Hi1 & Hsp1 & Hprog).
  destruct (IH s1 b1 h1 Hi1 Hb1) as (r & s2 & b2 & E2 & n2 & ys & h2 & Hem2 & Hn2 & Hb2 & Hlz2 & Hbase2 & Hpost2).
  { destruct Hem. unfold in_size, out_size in *. rewrite em_in, em_size. lia. }
  exists r, s2, b2. split; [done|]. exists (n + n2), (xs ++ ys), h2.
  split; [by eapply emitted_trans|]. split; [lia|]. split; [done|]. split; [by eapply lz_out_trans|].
  split; [by eapply l2_base_trans|].
  assert (Hsp : spends s1 s2 n2 ys -> spends s s2 (n + n2) (xs ++ ys)) by (unfold spends in *; rewrite zlen_app; lia).
  destruct r; try done.
  - destruct Hpost2 as (? & ? & ?). split; [done|]. split; [by apply Hsp|done].
  - destruct Hpost2 as [? ?]. split; [done|by apply Hsp].
Qed.

Lemma xz_dec_lzma2_run_ok s b h :
  l2_inv s b h -> xz_buf_ok b ->
  exists ret s' b', xz_dec_lzma2_run s b = Some (ret, s', b') /\ run_post s b h ret s' b'.
Proof.
  intros Hi Hb. apply lzma2_loop_ok; [done|done|]. pose proof Hb as (? & ? & _).
  unfold lzma2_fuel. rewrite Nat2Z.inj_succ, Z2Nat.id; lia.
Qed.

(** ** Creation and reset *)

(** The dictionary memory between resets. *)
Definition l2_mem (s : xz_dec_lzma2) : Prop :=
  zlen (temp_buf s) = TEMP_SIZE
  /\ match d_mode (s_dict s) with
     | XZ_SINGLE => True
     | XZ_PREALLOC => exists m, d_buf (s_dict s) = DictOwn m /\ d_size_max (s_dict s) <= zlen m
     | XZ_DYNALLOC => d_allocated (s_dict s) = 0
     end.

Lemma l2_base_mem s s' : l2_base s s' -> l2_mem s -> l2_mem s'.
Proof.
  intros (B1 & B2 & B3 & B4 & B5 & B6) [Ht Hm]. split; [done|]. rewrite B3.
  destruct (d_mode (s_dict s)); [done| |by rewrite B5].
  destruct Hm as (m & Em & Hlen). specialize (B6 eq_refl). rewrite Em in B6.
  destruct (d_buf (s_dict s')) as [|m'|]; [done| |done]. exists m'. simpl in B6. split; [done|]. by rewrite B4, B6.
Qed.

(** The dictionary size of the LZMA2 filter properties: 2 or 3 times a power of two, from
    4 KiB to 3 GiB. *)
Definition dict_size_of (props : Z) : Z := (2 + props mod 2) * 2 ^ (props / 2 + 11).

Lemma dict_size_ok props :
  0 <= props <= 39 ->
  u32 (Z.shiftl (2 + Z.land props 1) (Z.shiftr props 1 + 11)) = dict_size_of props
  /\ 4096 <= dict_size_of props <= 3 * 2 ^ 30 /\ dict_size_of props mod 16 = 0.
Proof.
  intros Hp. unfold dict_size_of. change 1 with (Z.ones 1) at 1. rewrite Z.land_ones by lia.
  change (2 ^ 1) with 2. rewrite Z.shiftr_div_pow2 by lia. change (2 ^ 1) with 2.
  assert (Hd : 0 <= props / 2 <= 19) by (Z.to_euclidean_division_equations; lia).
  assert (Hm : 0 <= props mod 2 <= 1) by (Z.to_euclidean_division_equations; lia).
  rewrite Z.shiftl_mul_pow2 by lia. set (e := props / 2) in *. set (r := props mod 2) in *.
  assert (P1 : 2 ^ 11 <= 2 ^ (e + 11)) by (apply Z.pow_le_mono_r; lia).
  assert (P2 : 2 ^ (e + 11) <= 2 ^ 30) by (apply Z.pow_le_mono_r; lia).
  change (2 ^ 11) with 2048 in P1. change (2 ^ 30) with 1073741824 in *.
  rewrite u32_small by nia. split; [done|]. split; [nia|].
  replace (e + 11) with (4 + (e + 7)) by lia. rewrite Z.pow_add_r by lia.
  replace ((2 + r) * (2 ^ 4 * 2 ^ (e + 7))) with ((2 + r) * 2 ^ (e + 7) * 16) by (change (2 ^ 4) with 16; lia).
  apply Z.mod_mul. lia.
Qed.

Lemma lzma2_restart_ok s :
  l2_mem s -> dict_mem (s_dict s) -> l2_mem (lzma2_restart s) /\ forall b, l2_inv (lzma2_restart s) b [].
Proof. intros [Ht Hm] Hd. split; [by split|]. intros b. split; try done. Qed.

Lemma fresh_block_zlen (fill : Z -> Z) n : 0 <= n -> zlen (map fill (seqZ 0 n)) = n.
Proof. intros Hn. unfold zlen. rewrite length_map, length_seqZ. lia. Qed.

(** [xz_dec_lzma2_reset]: which properties are refused, and what a decoder is after it. *)
Lemma xz_dec_lzma2_reset_ok fill s props o ret s' o' :
  l2_mem s -> 0 <= props -> xz_dec_lzma2_reset fill s props o = (ret, s', o') ->
  l2_mem s' /\ d_mode (s_dict s') = d_mode (s_dict s) /\ d_size_max (s_dict s') = d_size_max (s_dict s)
  /\ (ret = XZ_OPTIONS_ERROR <-> 39 < props)
  /\ (ret = XZ_MEMLIMIT_ERROR <-> props <= 39 /\ DEC_IS_MULTI (d_mode (s_dict s)) = true
        /\ d_size_max (s_dict s) < dict_size_of props)
  /\ (ret = XZ_MEM_ERROR -> d_mode (s_dict s) = XZ_DYNALLOC)
  /\ (ret = XZ_OK -> d_size (s_dict s') = dict_size_of props /\ forall b, l2_inv s' b [])
  /\ (ret = XZ_OK \/ ret = XZ_OPTIONS_ERROR \/ ret = XZ_MEMLIMIT_ERROR \/ ret = XZ_MEM_ERROR).
Proof.
  intros Hmem Hp0. unfold xz_dec_lzma2_reset. destruct (Z.ltb_spec 39 props) as [Hp|Hp].
  { intros [= <- <- <-]. split; [done|]. split; [done|]. split; [done|]. split; [done|].
    split; [split; [done|lia]|]. split; [done|]. split; [done|]. auto. }
  destruct (dict_size_ok props ltac:(lia)) as (Esz & Hsz & H16). rewrite Esz.
  set (sz := dict_size_of props) in *.
  assert (Hnopt : forall r, r <> XZ_OPTIONS_ERROR -> (r = XZ_OPTIONS_ERROR <-> 39 < props)).
  { intros r Hr. split; [done|lia]. }
  destruct (DEC_IS_MULTI (d_mode (s_dict s))) eqn:Em; cycle 1.
  { intros [= <- <- <-]. assert (Hs : d_mode (s_dict s) = XZ_SINGLE) by (by destruct (d_mode (s_dict s))).
    edestruct (lzma2_restart_ok (with_dict (dict_resize (s_dict s) (d_buf (s_dict s)) (d_end (s_dict s)) sz
      (d_allocated (s_dict s))) s)) as [R1 R2].
    { destruct Hmem as [Ht Hm]. split; [done|]. simpl. by rewrite Hs. }
    { intros Hx. simpl in Hx. by rewrite Hs in Hx. }
    split; [done|]. split; [done|]. split; [done|]. split; [by apply Hnopt|]. split; [split; [done|by intros (_ & ? & _)]|].
    split; [done|]. split; [by split|]. by left. }
  destruct (Z.ltb_spec (d_size_max (s_dict s)) sz) as [Hlim|Hlim].
  { intros [= <- <- <-]. split; [by destruct Hmem|]. split; [done|]. split; [done|]. split; [by apply Hnopt|].
    split; [done|]. split; [done|]. split; [done|]. auto. }
  assert (Hnlim : forall r, r <> XZ_MEMLIMIT_ERROR -> (r = XZ_MEMLIMIT_ERROR <-> props <= 39 /\ true = true
        /\ d_size_max (s_dict s) < sz)).
  { intros r Hr. split; [done|lia]. }
  assert (Hgo : forall buf m al, buf = DictOwn m -> sz <= zlen m ->
    l2_mem (with_dict (dict_resize (s_dict s) buf sz sz al) s) ->
    let s' := lzma2_restart (with_dict (dict_resize (s_dict s) buf sz sz al) s) in
    l2_mem s' /\ forall b, l2_inv s' b []).
  { intros buf m al -> Hm Hm2 s2. apply lzma2_restart_ok; [done|]. intros _. exists m. simpl.
    split; [done|]. split; [done|]. split; [done|]. lia. }
  destruct Hmem as [Ht Hm].
  destruct (DEC_IS_DYNALLOC (d_mode (s_dict s)) && (d_allocated (s_dict s) <? sz)) eqn:Ed.
  - apply andb_true_iff in Ed as [Ed _].
    assert (Hdyn : d_mode (s_dict s) = XZ_DYNALLOC) by (by destruct (d_mode (s_dict s))). rewrite Hdyn in Hm.
    unfold vmalloc. destruct (malloc o) as [[] o1].
    + intros [= <- <- <-].
      destruct (Hgo (DictOwn (map fill (seqZ 0 sz))) _ (d_allocated (s_dict s)) eq_refl) as [G1 G2].
      { rewrite fresh_block_zlen; lia. }
      { split; [done|]. simpl. by rewrite Hdyn. }
      split; [done|]. split; [done|]. split; [done|]. split; [by apply Hnopt|]. split; [by apply Hnlim|].
      split; [done|]. split; [by split|]. by left.
    + intros [= <- <- <-]. split; [split; [done|]; simpl; by rewrite Hdyn|]. split; [done|]. split; [done|].
      split; [by apply Hnopt|]. split; [by apply Hnlim|]. split; [done|]. split; [done|]. auto.
  - intros [= <- <- <-]. destruct (d_mode (s_dict s)) eqn:Emode; [done| |].
    + destruct Hm as (m & Eb & Hlen). destruct (Hgo (d_buf (s_dict s)) m (d_allocated (s_dict s)) Eb) as [G1 G2]; [lia| |].
      { split; [done|]. simpl. rewrite Emode. by exists m. }
      split; [done|]. split; [done|]. split; [done|]. split; [by apply Hnopt|]. split; [by apply Hnlim|].
      split; [done|]. split; [by split|]. by left.
    + rewrite Hm in Ed. simpl in Ed. destruct (Z.ltb_spec 0 sz); [done|lia].
Qed.

(** A decoder that was reset starts with a chunk. *)
Lemma lzma2_reset_control fill s props o s' o' :
  xz_dec_lzma2_reset fill s props o = (XZ_OK, s', o') -> sequence (s_lzma2 s') = SEQ_CONTROL.
Proof.
  unfold xz_dec_lzma2_reset. destruct (39 <? props); [done|]. destruct (DEC_IS_MULTI _); [|by intros [= <- _]].
  destruct (_ <? _); [done|]. destruct (_ && _); [|by intros [= <- _]].
  destruct (vmalloc _ _ _) as [[] ?]; [done|by intros [= <- _]..].
Qed.

(** [xz_dec_lzma2_create] fails only when an allocation does, and leaves a decoder that can
    be reset. *)
Lemma xz_dec_lzma2_create_ok fill junk mode dict_max o :
  zlen (temp_buf junk) = TEMP_SIZE -> 0 <= dict_max ->
  match xz_dec_lzma2_create fill junk mode dict_max o with
  | (Some s, _) => l2_mem s /\ d_mode (s_dict s) = mode /\ d_size_max (s_dict s) = dict_max
  | (None, _) => exists i, o !! i = Some false
  end.
Proof.
  intros Ht Hd. unfold xz_dec_lzma2_create, vmalloc.
  assert (Hm1 : forall o1 o2 : oracle, malloc o1 = (false, o2) -> exists i, o1 !! i = Some false).
  { intros [|[] o1] o2 E; simplify_eq/=. by exists 0%nat. }
  assert (Hm2 : forall o1 o2 : oracle, malloc o1 = (true, o2) -> (exists i, o2 !! i = Some false) -> exists i, o1 !! i = Some false).
  { intros [|b o1] o2 E [i Hi]; simplify_eq/=. by exists (S i). }
  destruct (malloc o) as [[] o1] eqn:E1; simpl; [|by eapply Hm1].
  destruct mode; simpl; [done| |done].
  destruct (malloc o1) as [[] o2] eqn:E2; simpl; [|by eapply Hm2; [|eapply Hm1]].
  split; [|done]. split; [done|]. simpl. eexists. split; [done|]. rewrite fresh_block_zlen; lia.
Qed.
