(* ===== verification/XzStream.v ===== *)
(** * The .xz stream decoder (xz-embedded/xz_dec_stream.c)

    Stream and block headers, blocks, index and footer, on a caller-supplied buffer that
    may end anywhere.  The build has no CRC64, no BCJ filters and no [XZ_DEC_ANY_CHECK]. *)

From S2P Require Import Prelude XzCrc32 XzDefs XzRange XzDict XzLzma XzLzma2.

Inductive dec_seq :=
| SEQ_STREAM_HEADER | SEQ_BLOCK_START | SEQ_BLOCK_HEADER | SEQ_BLOCK_UNCOMPRESS
| SEQ_BLOCK_PADDING | SEQ_BLOCK_CHECK | SEQ_INDEX | SEQ_INDEX_PADDING | SEQ_INDEX_CRC32
| SEQ_STREAM_FOOTER.

#[export] Instance dec_seq_eq_dec : EqDecision dec_seq.
Proof. solve_decision. Defined.

Inductive index_seq := SEQ_INDEX_COUNT | SEQ_INDEX_UNPADDED | SEQ_INDEX_UNCOMPRESSED.

(** [struct xz_dec_hash]: two 64-bit integers, a 32-bit one and four bytes of padding. *)
Record xz_dec_hash := XzHash { h_unpadded : Z; h_uncompressed : Z; h_crc32 : Z }.

Record block_header_t := BlockHeader { bh_compressed : Z; bh_uncompressed : Z; bh_size : Z }.
Record block_t := Block { bl_compressed : Z; bl_uncompressed : Z; bl_count : Z; bl_hash : xz_dec_hash }.
Record index_t := Index { ix_sequence : index_seq; ix_size : Z; ix_count : Z; ix_hash : xz_dec_hash }.
Record temp_t := Temp { t_pos : Z; t_size : Z; t_buf : list Z }.

Record xz_dec := XzDec {
  x_seq : dec_seq; x_pos : Z; x_vli : Z; x_in_start : Z; x_out_start : Z; x_crc : Z;
  x_check_type : Z; x_mode : xz_mode; x_allow_buf_error : bool;
  x_block_header : block_header_t; x_block : block_t; x_index : index_t; x_temp : temp_t;
  x_lzma2 : xz_dec_lzma2 }.

Definition STREAM_HEADER_SIZE : Z := 12.
Definition HEADER_MAGIC : list Z := [0xFD; 0x37; 0x7A; 0x58; 0x5A; 0x00].
Definition HEADER_MAGIC_SIZE : Z := 6.
Definition FOOTER_MAGIC : list Z := [0x59; 0x5A].
Definition VLI_UNKNOWN : Z := 2 ^ 64 - 1.
Definition VLI_BYTES_MAX : Z := 9.
Definition XZ_CHECK_CRC32 : Z := 1.

(** ** Updates *)

Definition set_xseq (q : dec_seq) (s : xz_dec) : xz_dec :=
  XzDec q (x_pos s) (x_vli s) (x_in_start s) (x_out_start s) (x_crc s) (x_check_type s) (x_mode s)
    (x_allow_buf_error s) (x_block_header s) (x_block s) (x_index s) (x_temp s) (x_lzma2 s).
Definition set_xvli (pos vli : Z) (s : xz_dec) : xz_dec :=
  XzDec (x_seq s) pos vli (x_in_start s) (x_out_start s) (x_crc s) (x_check_type s) (x_mode s)
    (x_allow_buf_error s) (x_block_header s) (x_block s) (x_index s) (x_temp s) (x_lzma2 s).
Definition set_starts (i o : Z) (s : xz_dec) : xz_dec :=
  XzDec (x_seq s) (x_pos s) (x_vli s) i o (x_crc s) (x_check_type s) (x_mode s)
    (x_allow_buf_error s) (x_block_header s) (x_block s) (x_index s) (x_temp s) (x_lzma2 s).
Definition set_crc (crc : Z) (s : xz_dec) : xz_dec :=
  XzDec (x_seq s) (x_pos s) (x_vli s) (x_in_start s) (x_out_start s) crc (x_check_type s) (x_mode s)
    (x_allow_buf_error s) (x_block_header s) (x_block s) (x_index s) (x_temp s) (x_lzma2 s).
Definition set_check_type (c : Z) (s : xz_dec) : xz_dec :=
  XzDec (x_seq s) (x_pos s) (x_vli s) (x_in_start s) (x_out_start s) (x_crc s) c (x_mode s)
    (x_allow_buf_error s) (x_block_header s) (x_block s) (x_index s) (x_temp s) (x_lzma2 s).
Definition set_allow (a : bool) (s : xz_dec) : xz_dec :=
  XzDec (x_seq s) (x_pos s) (x_vli s) (x_in_start s) (x_out_start s) (x_crc s) (x_check_type s) (x_mode s)
    a (x_block_header s) (x_block s) (x_index s) (x_temp s) (x_lzma2 s).
Definition set_block_header (h : block_header_t) (s : xz_dec) : xz_dec :=
  XzDec (x_seq s) (x_pos s) (x_vli s) (x_in_start s) (x_out_start s) (x_crc s) (x_check_type s) (x_mode s)
    (x_allow_buf_error s) h (x_block s) (x_index s) (x_temp s) (x_lzma2 s).
Definition set_block (bl : block_t) (s : xz_dec) : xz_dec :=
  XzDec (x_seq s) (x_pos s) (x_vli s) (x_in_start s) (x_out_start s) (x_crc s) (x_check_type s) (x_mode s)
    (x_allow_buf_error s) (x_block_header s) bl (x_index s) (x_temp s) (x_lzma2 s).
Definition set_index (ix : index_t) (s : xz_dec) : xz_dec :=
  XzDec (x_seq s) (x_pos s) (x_vli s) (x_in_start s) (x_out_start s) (x_crc s) (x_check_type s) (x_mode s)
    (x_allow_buf_error s) (x_block_header s) (x_block s) ix (x_temp s) (x_lzma2 s).
Definition set_temp (t : temp_t) (s : xz_dec) : xz_dec :=
  XzDec (x_seq s) (x_pos s) (x_vli s) (x_in_start s) (x_out_start s) (x_crc s) (x_check_type s) (x_mode s)
    (x_allow_buf_error s) (x_block_header s) (x_block s) (x_index s) t (x_lzma2 s).
Definition set_xlzma2 (l : xz_dec_lzma2) (s : xz_dec) : xz_dec :=
  XzDec (x_seq s) (x_pos s) (x_vli s) (x_in_start s) (x_out_start s) (x_crc s) (x_check_type s) (x_mode s)
    (x_allow_buf_error s) (x_block_header s) (x_block s) (x_index s) (x_temp s) l.

(** [get_le32] and the bytes of a hash. *)
Definition get_le32 (l : list Z) (i : Z) : option Z := bs ← rds l i 4; Some (le_val bs).

Definition hash_bytes (h : xz_dec_hash) : list Z :=
  le_bytes 8 (h_unpadded h) ++ le_bytes 8 (h_uncompressed h) ++ le_bytes 4 (h_crc32 h) ++ [0; 0; 0; 0].

(** ** Pieces *)

Definition fill_temp (s : xz_dec) (b : xz_buf) : option (bool * xz_dec * xz_buf) :=
  let t := x_temp s in
  let copy_size := Z.min (in_size b - b_in_pos b) (usz (t_size t - t_pos t)) in
  xs ← rds (b_in b) (b_in_pos b) copy_size;
  buf ← wrs (t_buf t) (t_pos t) xs;
  let b := set_in_pos (b_in_pos b + copy_size) b in
  let pos := t_pos t + copy_size in
  if pos =? t_size t then Some (true, set_temp (Temp 0 (t_size t) buf) s, b)
  else Some (false, set_temp (Temp pos (t_size t) buf) s, b).

(** Shifts by at least the width of the operand are undefined. *)
Definition shl64 (x n : Z) : option Z := if n <? 64 then Some (u64 (Z.shiftl x n)) else None.
Definition shr32 (x n : Z) : option Z := if n <? 32 then Some (Z.shiftr x n) else None.

(** [dec_vli] from [in_pos] up to [in_size]: the result, [pos], [vli] and the new [in_pos]. *)
Fixpoint vli_loop (fuel : nat) (inp : list Z) (in_pos in_size pos vli : Z)
  : option (xz_ret * Z * Z * Z) :=
  if in_pos <? in_size then
    match fuel with
    | O => None
    | S fuel' =>
      byte ← rd inp in_pos;
      let in_pos := in_pos + 1 in
      bits ← shl64 (Z.land byte 0x7F) pos;
      let vli := Z.lor vli bits in
      if Z.land byte 0x80 =? 0 then
        if (byte =? 0) && negb (pos =? 0) then Some (XZ_DATA_ERROR, pos, vli, in_pos)
        else Some (XZ_STREAM_END, 0, vli, in_pos)
      else
        let pos := pos + 7 in
        if pos =? 7 * VLI_BYTES_MAX then Some (XZ_DATA_ERROR, pos, vli, in_pos)
        else vli_loop fuel' inp in_pos in_size pos vli
    end
  else Some (XZ_OK, pos, vli, in_pos).

Definition dec_vli (s : xz_dec) (inp : list Z) (in_pos in_size : Z)
  : option (xz_ret * xz_dec * Z) :=
  let vli := if x_pos s =? 0 then 0 else x_vli s in
  '(ret, pos, vli, in_pos) ← vli_loop (Z.to_nat (in_size - in_pos)) inp in_pos in_size (x_pos s) vli;
  Some (ret, set_xvli pos vli s, in_pos).

Definition dec_block (s : xz_dec) (b : xz_buf) : option (xz_ret * xz_dec * xz_buf) :=
  let s := set_starts (b_in_pos b) (b_out_pos b) s in
  '(ret, l, b) ← xz_dec_lzma2_run (x_lzma2 s) b;
  let s := set_xlzma2 l s in
  let bl := x_block s in
  let bl := Block (u64 (bl_compressed bl + (b_in_pos b - x_in_start s)))
              (u64 (bl_uncompressed bl + (b_out_pos b - x_out_start s))) (bl_count bl) (bl_hash bl) in
  let s := set_block bl s in
  let bh := x_block_header s in
  if (bh_compressed bh <? bl_compressed bl) || (bh_uncompressed bh <? bl_uncompressed bl)
  then Some (XZ_DATA_ERROR, s, b)
  else
    s ← (if x_check_type s =? XZ_CHECK_CRC32 then
           xs ← rds (b_out b) (x_out_start s) (b_out_pos b - x_out_start s);
           Some (set_crc (xz_crc32 xs (x_crc s)) s)
         else Some s);
    if bool_decide (ret = XZ_STREAM_END) then
      if negb (bh_compressed bh =? VLI_UNKNOWN) && negb (bh_compressed bh =? bl_compressed bl)
      then Some (XZ_DATA_ERROR, s, b)
      else if negb (bh_uncompressed bh =? VLI_UNKNOWN) && negb (bh_uncompressed bh =? bl_uncompressed bl)
      then Some (XZ_DATA_ERROR, s, b)
      else
        let h := bl_hash bl in
        let unpadded := u64 (h_unpadded h + u64 (bh_size bh + bl_compressed bl)) in
        let unpadded := if x_check_type s =? XZ_CHECK_CRC32 then u64 (unpadded + 4) else unpadded in
        let h := XzHash unpadded (u64 (h_uncompressed h + bl_uncompressed bl)) (h_crc32 h) in
        let h := XzHash (h_unpadded h) (h_uncompressed h) (xz_crc32 (hash_bytes h) (h_crc32 h)) in
        Some (ret, set_block (Block (bl_compressed bl) (bl_uncompressed bl) (u64 (bl_count bl + 1)) h) s, b)
    else Some (ret, s, b).

Definition index_update (s : xz_dec) (b : xz_buf) : option xz_dec :=
  let in_used := usz (b_in_pos b - x_in_start s) in
  let ix := x_index s in
  xs ← rds (b_in b) (x_in_start s) in_used;
  Some (set_crc (xz_crc32 xs (x_crc s))
    (set_index (Index (ix_sequence ix) (u64 (ix_size ix + in_used)) (ix_count ix) (ix_hash ix)) s)).

(** Every round of [dec_index] that goes on has read at least one byte. *)
Fixpoint index_loop (fuel : nat) (s : xz_dec) (b : xz_buf) : option (xz_ret * xz_dec * xz_buf) :=
  match fuel with
  | O => None
  | S fuel' =>
    '(ret, s, p) ← dec_vli s (b_in b) (b_in_pos b) (in_size b);
    let b := set_in_pos p b in
    if negb (bool_decide (ret = XZ_STREAM_END)) then
      s ← index_update s b; Some (ret, s, b)
    else
      let ix := x_index s in
      let h := ix_hash ix in
      let continue := fun s =>
        if 0 <? ix_count (x_index s) then index_loop fuel' s b else Some (XZ_STREAM_END, s, b) in
      match ix_sequence ix with
      | SEQ_INDEX_COUNT =>
        let s' := set_index (Index (ix_sequence ix) (ix_size ix) (x_vli s) h) s in
        if negb (x_vli s =? bl_count (x_block s)) then Some (XZ_DATA_ERROR, s', b)
        else continue (set_index (Index SEQ_INDEX_UNPADDED (ix_size ix) (x_vli s) h) s)
      | SEQ_INDEX_UNPADDED =>
        let h := XzHash (u64 (h_unpadded h + x_vli s)) (h_uncompressed h) (h_crc32 h) in
        continue (set_index (Index SEQ_INDEX_UNCOMPRESSED (ix_size ix) (ix_count ix) h) s)
      | SEQ_INDEX_UNCOMPRESSED =>
        let h := XzHash (h_unpadded h) (u64 (h_uncompressed h + x_vli s)) (h_crc32 h) in
        let h := XzHash (h_unpadded h) (h_uncompressed h) (xz_crc32 (hash_bytes h) (h_crc32 h)) in
        continue (set_index (Index SEQ_INDEX_UNPADDED (ix_size ix) (u64 (ix_count ix - 1)) h) s)
      end
  end.

Definition dec_index (s : xz_dec) (b : xz_buf) : option (xz_ret * xz_dec * xz_buf) :=
  index_loop (S (Z.to_nat (in_size b - b_in_pos b))) s b.

(** [pos] advances by 8 up to [bits]. *)
Fixpoint validate_loop (fuel : nat) (s : xz_dec) (b : xz_buf) (bits : Z)
  : option (xz_ret * xz_dec * xz_buf) :=
  match fuel with
  | O => None
  | S fuel' =>
    if b_in_pos b =? in_size b then Some (XZ_OK, s, b)
    else
      '(x, b) ← next_byte b;
      y ← shr32 (x_crc s) (x_pos s);
      if negb (Z.land y 0xFF =? x) then Some (XZ_DATA_ERROR, s, b)
      else
        let s := set_xvli (x_pos s + 8) (x_vli s) s in
        if x_pos s <? bits then validate_loop fuel' s b bits
        else Some (XZ_STREAM_END, set_crc 0 (set_xvli 0 (x_vli s) s), b)
  end.

Definition crc_validate (s : xz_dec) (b : xz_buf) (bits : Z) : option (xz_ret * xz_dec * xz_buf) :=
  validate_loop (Z.to_nat bits) s b bits.

Definition dec_stream_header (s : xz_dec) : option (xz_ret * xz_dec) :=
  let buf := t_buf (x_temp s) in
  magic ← rds buf 0 HEADER_MAGIC_SIZE;
  if negb (bool_decide (magic = HEADER_MAGIC)) then Some (XZ_FORMAT_ERROR, s)
  else
    flags ← rds buf HEADER_MAGIC_SIZE 2;
    crc ← get_le32 buf (HEADER_MAGIC_SIZE + 2);
    if negb (xz_crc32 flags 0 =? crc) then Some (XZ_DATA_ERROR, s)
    else
      f0 ← rd buf HEADER_MAGIC_SIZE;
      if negb (f0 =? 0) then Some (XZ_OPTIONS_ERROR, s)
      else
        f1 ← rd buf (HEADER_MAGIC_SIZE + 1);
        let s := set_check_type f1 s in
        if XZ_CHECK_CRC32 <? f1 then Some (XZ_OPTIONS_ERROR, s)
        else Some (XZ_OK, s).

Definition dec_stream_footer (s : xz_dec) : option xz_ret :=
  let buf := t_buf (x_temp s) in
  magic ← rds buf 10 2;
  if negb (bool_decide (magic = FOOTER_MAGIC)) then Some XZ_DATA_ERROR
  else
    body ← rds buf 4 6;
    crc ← get_le32 buf 0;
    if negb (xz_crc32 body 0 =? crc) then Some XZ_DATA_ERROR
    else
      size ← get_le32 buf 4;
      if negb (Z.shiftr (ix_size (x_index s)) 2 =? size) then Some XZ_DATA_ERROR
      else
        f8 ← rd buf 8;
        f9 ← rd buf 9;
        if negb (f8 =? 0) || negb (f9 =? x_check_type s) then Some XZ_DATA_ERROR
        else Some XZ_STREAM_END.

(** ** The block header *)

(** An optional size field of the header: [None] for the value is an error. *)
Definition header_size (s : xz_dec) (present : bool) : option (option Z * xz_dec) :=
  if present then
    '(ret, s, p) ← dec_vli s (t_buf (x_temp s)) (t_pos (x_temp s)) (t_size (x_temp s));
    let s := set_temp (Temp p (t_size (x_temp s)) (t_buf (x_temp s))) s in
    Some ((if bool_decide (ret = XZ_STREAM_END) then Some (x_vli s) else None), s)
  else Some (Some VLI_UNKNOWN, s).

(** [s->temp.buf[s->temp.pos++]]. *)
Definition temp_byte (s : xz_dec) : option (Z * xz_dec) :=
  let t := x_temp s in
  x ← rd (t_buf t) (t_pos t);
  Some (x, set_temp (Temp (t_pos t + 1) (t_size t) (t_buf t)) s).

(** The rest of the header must be zero. *)
Fixpoint header_padding (fuel : nat) (s : xz_dec) : option (bool * xz_dec) :=
  if t_pos (x_temp s) <? t_size (x_temp s) then
    match fuel with
    | O => None
    | S fuel' =>
      '(x, s) ← temp_byte s;
      if negb (x =? 0) then Some (false, s) else header_padding fuel' s
    end
  else Some (true, s).

(** Filter flags and padding. *)
Definition dec_filter_flags (fill : Z -> Z) (s : xz_dec) (o : oracle) : option (xz_ret * xz_dec * oracle) :=
  if usz (t_size (x_temp s) - t_pos (x_temp s)) <? 2 then Some (XZ_DATA_ERROR, s, o)
  else
    '(x, s) ← temp_byte s;
    if negb (x =? 0x21) then Some (XZ_OPTIONS_ERROR, s, o)
    else
      '(x, s) ← temp_byte s;
      if negb (x =? 0x01) then Some (XZ_OPTIONS_ERROR, s, o)
      else if usz (t_size (x_temp s) - t_pos (x_temp s)) <? 1 then Some (XZ_DATA_ERROR, s, o)
      else
        '(props, s) ← temp_byte s;
        let '(ret, l, o) := xz_dec_lzma2_reset fill (x_lzma2 s) props o in
        let s := set_xlzma2 l s in
        if negb (bool_decide (ret = XZ_OK)) then Some (ret, s, o)
        else
          '(ok, s) ← header_padding (Z.to_nat (t_size (x_temp s) - t_pos (x_temp s))) s;
          if negb ok then Some (XZ_OPTIONS_ERROR, s, o)
          else
            let s := set_temp (Temp 0 (t_size (x_temp s)) (t_buf (x_temp s))) s in
            Some (XZ_OK, set_block (Block 0 0 (bl_count (x_block s)) (bl_hash (x_block s))) s, o).

Definition dec_block_header (fill : Z -> Z) (s : xz_dec) (o : oracle)
  : option (xz_ret * xz_dec * oracle) :=
  let size := usz (t_size (x_temp s) - 4) in
  let buf := t_buf (x_temp s) in
  let s := set_temp (Temp (t_pos (x_temp s)) size buf) s in
  body ← rds buf 0 size;
  crc ← get_le32 buf size;
  if negb (xz_crc32 body 0 =? crc) then Some (XZ_DATA_ERROR, s, o)
  else
    let s := set_temp (Temp 2 size buf) s in
    flags ← rd buf 1;
    if truthy (Z.land flags 0x3F) then Some (XZ_OPTIONS_ERROR, s, o)
    else
      '(v, s) ← header_size s (truthy (Z.land flags 0x40));
      match v with
      | None => Some (XZ_DATA_ERROR, s, o)
      | Some compressed =>
        let s := set_block_header (BlockHeader compressed (bh_uncompressed (x_block_header s))
                   (bh_size (x_block_header s))) s in
        '(v, s) ← header_size s (truthy (Z.land flags 0x80));
        match v with
        | None => Some (XZ_DATA_ERROR, s, o)
        | Some uncompressed =>
          let s := set_block_header (BlockHeader (bh_compressed (x_block_header s)) uncompressed
                     (bh_size (x_block_header s))) s in
          dec_filter_flags fill s o
        end
      end.

(** ** dec_main *)

Inductive mflow := MRet (r : xz_ret) | MBreak.
Definition mstep : Type := option (mflow * xz_dec * xz_buf * oracle).

Definition seq_stream_footer (s : xz_dec) (b : xz_buf) (o : oracle) : mstep :=
  '(ok, s, b) ← fill_temp s b;
  if negb ok then Some (MRet XZ_OK, s, b, o)
  else r ← dec_stream_footer s; Some (MRet r, s, b, o).

Definition seq_index_crc32 (s : xz_dec) (b : xz_buf) (o : oracle) : mstep :=
  '(ret, s, b) ← crc_validate s b 32;
  if negb (bool_decide (ret = XZ_STREAM_END)) then Some (MRet ret, s, b, o)
  else
    let t := x_temp s in
    seq_stream_footer (set_xseq SEQ_STREAM_FOOTER (set_temp (Temp (t_pos t) STREAM_HEADER_SIZE (t_buf t)) s)) b o.

(** The loop over the Index Padding, at most three bytes. *)
Fixpoint index_padding_loop (fuel : nat) (s : xz_dec) (b : xz_buf)
  : option (option xz_ret * xz_dec * xz_buf) :=
  if truthy (Z.land (u64 (ix_size (x_index s) + usz (b_in_pos b - x_in_start s))) 3) then
    match fuel with
    | O => None
    | S fuel' =>
      if b_in_pos b =? in_size b then
        s ← index_update s b; Some (Some XZ_OK, s, b)
      else
        '(x, b) ← next_byte b;
        if negb (x =? 0) then Some (Some XZ_DATA_ERROR, s, b)
        else index_padding_loop fuel' s b
    end
  else Some (None, s, b).

Definition seq_index_padding (s : xz_dec) (b : xz_buf) (o : oracle) : mstep :=
  '(r, s, b) ← index_padding_loop 4 s b;
  match r with
  | Some r => Some (MRet r, s, b, o)
  | None =>
    s ← index_update s b;
    if negb (bool_decide (hash_bytes (bl_hash (x_block s)) = hash_bytes (ix_hash (x_index s))))
    then Some (MRet XZ_DATA_ERROR, s, b, o)
    else seq_index_crc32 (set_xseq SEQ_INDEX_CRC32 s) b o
  end.

Definition seq_index (s : xz_dec) (b : xz_buf) (o : oracle) : mstep :=
  '(ret, s, b) ← dec_index s b;
  if negb (bool_decide (ret = XZ_STREAM_END)) then Some (MRet ret, s, b, o)
  else seq_index_padding (set_xseq SEQ_INDEX_PADDING s) b o.

Definition seq_block_check (s : xz_dec) (b : xz_buf) (o : oracle) : mstep :=
  '(ret, s, b) ← (if x_check_type s =? XZ_CHECK_CRC32 then crc_validate s b 32
                  else Some (XZ_STREAM_END, s, b));
  if negb (bool_decide (ret = XZ_STREAM_END)) then Some (MRet ret, s, b, o)
  else Some (MBreak, set_xseq SEQ_BLOCK_START s, b, o).

(** The loop over the Block Padding, at most three bytes. *)
Fixpoint block_padding_loop (fuel : nat) (s : xz_dec) (b : xz_buf)
  : option (option xz_ret * xz_dec * xz_buf) :=
  let bl := x_block s in
  if truthy (Z.land (bl_compressed bl) 3) then
    match fuel with
    | O => None
    | S fuel' =>
      if b_in_pos b =? in_size b then Some (Some XZ_OK, s, b)
      else
        '(x, b) ← next_byte b;
        if negb (x =? 0) then Some (Some XZ_DATA_ERROR, s, b)
        else
          block_padding_loop fuel' (set_block (Block (u64 (bl_compressed bl + 1)) (bl_uncompressed bl)
            (bl_count bl) (bl_hash bl)) s) b
    end
  else Some (None, s, b).

Definition seq_block_padding (s : xz_dec) (b : xz_buf) (o : oracle) : mstep :=
  '(r, s, b) ← block_padding_loop 4 s b;
  match r with
  | Some r => Some (MRet r, s, b, o)
  | None => seq_block_check (set_xseq SEQ_BLOCK_CHECK s) b o
  end.

Definition seq_block_uncompress (s : xz_dec) (b : xz_buf) (o : oracle) : mstep :=
  '(ret, s, b) ← dec_block s b;
  if negb (bool_decide (ret = XZ_STREAM_END)) then Some (MRet ret, s, b, o)
  else seq_block_padding (set_xseq SEQ_BLOCK_PADDING s) b o.

Definition seq_block_header (fill : Z -> Z) (s : xz_dec) (b : xz_buf) (o : oracle) : mstep :=
  '(ok, s, b) ← fill_temp s b;
  if negb ok then Some (MRet XZ_OK, s, b, o)
  else
    '(ret, s, o) ← dec_block_header fill s o;
    if negb (bool_decide (ret = XZ_OK)) then Some (MRet ret, s, b, o)
    else seq_block_uncompress (set_xseq SEQ_BLOCK_UNCOMPRESS s) b o.

Definition seq_block_start (fill : Z -> Z) (s : xz_dec) (b : xz_buf) (o : oracle) : mstep :=
  if b_in_pos b =? in_size b then Some (MRet XZ_OK, s, b, o)
  else
    x ← rd (b_in b) (b_in_pos b);
    if x =? 0 then
      Some (MBreak, set_xseq SEQ_INDEX (set_starts (b_in_pos b) (x_out_start s) s),
            set_in_pos (b_in_pos b + 1) b, o)
    else
      let size := u32 ((x + 1) * 4) in
      let bh := x_block_header s in
      let s := set_block_header (BlockHeader (bh_compressed bh) (bh_uncompressed bh) size) s in
      let s := set_temp (Temp 0 size (t_buf (x_temp s))) s in
      seq_block_header fill (set_xseq SEQ_BLOCK_HEADER s) b o.

Definition seq_stream_header (fill : Z -> Z) (s : xz_dec) (b : xz_buf) (o : oracle) : mstep :=
  '(ok, s, b) ← fill_temp s b;
  if negb ok then Some (MRet XZ_OK, s, b, o)
  else
    '(ret, s) ← dec_stream_header (set_xseq SEQ_BLOCK_START s);
    if negb (bool_decide (ret = XZ_OK)) then Some (MRet ret, s, b, o)
    else seq_block_start fill s b o.

(** One round of the [while (true)]; the cases fall through to the next one. *)
Definition main_step (fill : Z -> Z) (s : xz_dec) (b : xz_buf) (o : oracle) : mstep :=
  match x_seq s with
  | SEQ_STREAM_HEADER => seq_stream_header fill s b o
  | SEQ_BLOCK_START => seq_block_start fill s b o
  | SEQ_BLOCK_HEADER => seq_block_header fill s b o
  | SEQ_BLOCK_UNCOMPRESS => seq_block_uncompress s b o
  | SEQ_BLOCK_PADDING => seq_block_padding s b o
  | SEQ_BLOCK_CHECK => seq_block_check s b o
  | SEQ_INDEX => seq_index s b o
  | SEQ_INDEX_PADDING => seq_index_padding s b o
  | SEQ_INDEX_CRC32 => seq_index_crc32 s b o
  | SEQ_STREAM_FOOTER => seq_stream_footer s b o
  end.

Fixpoint main_loop (fuel : nat) (fill : Z -> Z) (s : xz_dec) (b : xz_buf) (o : oracle)
  : option (xz_ret * xz_dec * xz_buf * oracle) :=
  match fuel with
  | O => None
  | S fuel' =>
    '(f, s, b, o) ← main_step fill s b o;
    match f with
    | MRet r => Some (r, s, b, o)
    | MBreak => main_loop fuel' fill s b o
    end
  end.

(** A round that breaks has read a byte, unless it was the last one of a block. *)
Definition main_fuel (b : xz_buf) : nat := S (S (2 * Z.to_nat (in_size b - b_in_pos b))).

Definition dec_main (fill : Z -> Z) (s : xz_dec) (b : xz_buf) (o : oracle)
  : option (xz_ret * xz_dec * xz_buf * oracle) :=
  main_loop (main_fuel b) fill (set_starts (b_in_pos b) (x_out_start s) s) b o.

(** ** The public functions *)

Definition hash0 : xz_dec_hash := XzHash 0 0 0.

Definition xz_dec_reset (s : xz_dec) : xz_dec :=
  XzDec SEQ_STREAM_HEADER 0 (x_vli s) (x_in_start s) (x_out_start s) 0 (x_check_type s) (x_mode s)
    false (x_block_header s) (Block 0 0 0 hash0) (Index SEQ_INDEX_COUNT 0 0 hash0)
    (Temp 0 STREAM_HEADER_SIZE (t_buf (x_temp s))) (x_lzma2 s).

Definition xz_dec_run (fill : Z -> Z) (s : xz_dec) (b : xz_buf) (o : oracle)
  : option (xz_ret * xz_dec * xz_buf * oracle) :=
  let s := if DEC_IS_SINGLE (x_mode s) then xz_dec_reset s else s in
  let in_start := b_in_pos b in
  let out_start := b_out_pos b in
  '(ret, s, b, o) ← dec_main fill s b o;
  if DEC_IS_SINGLE (x_mode s) then
    let ret := if bool_decide (ret = XZ_OK)
      then (if b_in_pos b =? in_size b then XZ_DATA_ERROR else XZ_BUF_ERROR) else ret in
    let b := if negb (bool_decide (ret = XZ_STREAM_END))
      then set_in_pos in_start (set_out_pos out_start b) else b in
    Some (ret, s, b, o)
  else if bool_decide (ret = XZ_OK) && (in_start =? b_in_pos b) && (out_start =? b_out_pos b) then
    Some ((if x_allow_buf_error s then XZ_BUF_ERROR else ret), set_allow true s, b, o)
  else Some (ret, set_allow false s, b, o).

(** [junk] is the contents of the fresh decoder objects. *)
Definition xz_dec_init (fill : Z -> Z) (junk : xz_dec) (mode : xz_mode) (dict_max : Z) (o : oracle)
  : option xz_dec * oracle :=
  let '(ok, o) := malloc o in
  if negb ok then (None, o)
  else
    let '(l, o) := xz_dec_lzma2_create fill (x_lzma2 junk) mode dict_max o in
    match l with
    | None => (None, o)
    | Some l =>
      (Some (xz_dec_reset (XzDec (x_seq junk) (x_pos junk) (x_vli junk) (x_in_start junk) (x_out_start junk)
         (x_crc junk) (x_check_type junk) mode (x_allow_buf_error junk) (x_block_header junk) (x_block junk)
         (x_index junk) (x_temp junk) l)), o)
    end.

(** ** unxz (native/src/init/rootdir.cpp)

    The loop that decompresses the embedded preload library: [write] appends to a file. *)

Fixpoint unxz_loop (fuel : nat) (fill : Z -> Z) (s : xz_dec) (b : xz_buf) (o : oracle) (file : list Z)
  : option (bool * list Z) :=
  match fuel with
  | O => None
  | S fuel' =>
    '(ret, s, b, o) ← xz_dec_run fill s b o;
    if negb (bool_decide (ret = XZ_OK)) && negb (bool_decide (ret = XZ_STREAM_END)) then Some (false, file)
    else
      xs ← rds (b_out b) 0 (b_out_pos b);
      let b := set_out_pos 0 b in
      if negb (b_in_pos b =? in_size b) then unxz_loop fuel' fill s b o (file ++ xs)
      else Some (true, file ++ xs)
  end.

(** [bytes] to the file; a failed [xz_dec_init] is a null pointer that [xz_dec_run] reads. *)
Definition unxz (fuel : nat) (fill : Z -> Z) (junk : xz_dec) (bytes : list Z) (o : oracle)
  : option (bool * list Z) :=
  let '(dec, o) := xz_dec_init fill junk XZ_DYNALLOC (2 ^ 26) o in
  s ← dec;
  unxz_loop fuel fill s (XB bytes 0 (replicate (Z.to_nat 8192) 0) 0) o [].
