(* ===== verification/XzStreamSpec.v ===== *)
(** * Variable-length integers

    [dec_vli] against the encoding of the .xz format: base 128, low digits first, in the
    fewest bytes, at most nine of them. *)

From S2P Require Import Prelude XzCrc32 XzDefs XzRange XzDict XzLzma XzLzmaInv XzLzma2 XzLzma2Spec XzLzma2Run XzLzma2Loop XzStream.

(** The encoding of [x]; nine digits are enough for 63 bits. *)
Fixpoint vli_digits (n : nat) (x : Z) : list Z :=
  match n with
  | O => []
  | S n' => if x <? 128 then [x] else (128 + x mod 128) :: vli_digits n' (x / 128)
  end.

Definition vli_encode (x : Z) : list Z := vli_digits 9 x.

Lemma vli_or vli d pos :
  0 <= pos -> 0 <= vli < 2 ^ pos -> 0 <= d < 128 -> pos + 7 <= 64 ->
  Z.lor vli (u64 (Z.shiftl d pos)) = vli + d * 2 ^ pos.
Proof.
  intros Hp Hv Hd H64. rewrite Z.shiftl_mul_pow2 by lia.
  assert (Hpow : 2 ^ pos * 128 <= 2 ^ 64).
  { change 128 with (2 ^ 7). rewrite <-Z.pow_add_r by lia. apply Z.pow_le_mono_r; lia. }
  assert (H0 : 0 < 2 ^ pos) by (apply pow2_pos; lia).
  rewrite u64_small by nia. rewrite Z.add_nocarry_lxor, Z.lxor_lor; [done| |];
    apply Z.bits_inj'; intros i Hi; rewrite Z.land_spec, Z.testbit_0_l, Z.mul_pow2_bits by lia;
    (destruct (decide (i < pos)); [rewrite (Z.testbit_neg_r d (i - pos)) by lia; apply andb_false_r|]);
    by rewrite (testbit_high vli pos) by lia.
Qed.

Lemma land_7f x : 0 <= x -> Z.land x 0x7F = x mod 128.
Proof. intros. change 0x7F with (Z.ones 7). by rewrite Z.land_ones. Qed.

Lemma land_80 x : 0 <= x < 256 -> Z.land x 0x80 = if x <? 128 then 0 else 128.
Proof.
  intros Hx. change 0x80 with (2 ^ 7) at 1.
  assert (Hb : Z.testbit x 7 = negb (x <? 128)).
  { destruct (Z.ltb_spec x 128); [by rewrite (testbit_high x 7) by lia|]. rewrite Z.testbit_true by lia.
    change (2 ^ 7) with 128. Z.to_euclidean_division_equations; lia. }
  transitivity (if Z.testbit x 7 then 2 ^ 7 else 0); [|rewrite Hb; by destruct (x <? 128)].
  apply Z.bits_inj'. intros i Hi. rewrite Z.land_spec, Z.pow2_bits_eqb by lia.
  destruct (Z.eqb_spec 7 i) as [<-|Hne].
  - by destruct (Z.testbit x 7).
  - rewrite andb_false_r. destruct (Z.testbit x 7); [by rewrite Z.pow2_bits_false|by rewrite Z.testbit_0_l].
Qed.

(** One byte of an integer: [digit] is its value, the high bit says whether more follow. *)
Lemma vli_byte fuel inp p n pos vli byte :
  p < n -> rd inp p = Some byte -> 0 <= byte < 256 -> 0 <= pos <= 56 -> 0 <= vli < 2 ^ pos ->
  vli_loop (S fuel) inp p n pos vli =
  if byte <? 128 then
    if (byte =? 0) && negb (pos =? 0) then Some (XZ_DATA_ERROR, pos, vli, p + 1)
    else Some (XZ_STREAM_END, 0, vli + byte * 2 ^ pos, p + 1)
  else if pos =? 56 then Some (XZ_DATA_ERROR, 63, vli + (byte mod 128) * 2 ^ pos, p + 1)
  else vli_loop fuel inp (p + 1) n (pos + 7) (vli + (byte mod 128) * 2 ^ pos).
Proof.
  intros Hp Er Hb Hpos Hv. cbn [vli_loop]. destruct (Z.ltb_spec p n); [|lia]. rewrite Er. simpl mbind.
  unfold shl64. destruct (Z.ltb_spec pos 64); [|lia]. simpl mbind.
  rewrite land_7f, land_80 by lia. assert (0 <= byte mod 128 < 128) by (apply Z.mod_pos_bound; lia).
  rewrite vli_or by lia. destruct (Z.ltb_spec byte 128) as [Hlt|Hge].
  - rewrite (Z.mod_small byte 128) by lia. change (0 =? 0) with true. cbv iota.
    destruct (Z.eqb_spec byte 0) as [->|]; [|done]. rewrite Z.mul_0_l, Z.add_0_r. done.
  - change (128 =? 0) with false. cbv iota. unfold VLI_BYTES_MAX.
    destruct (Z.eqb_spec (pos + 7) (7 * 9)), (Z.eqb_spec pos 56); try lia; [|done]. by replace (pos + 7) with 63 by lia.
Qed.

(** Where decoding may be suspended: between two of at most nine bytes. *)
Definition vli_pos (pos vli : Z) : Prop := 0 <= pos <= 56 /\ pos mod 7 = 0 /\ 0 <= vli < 2 ^ pos.

Lemma vli_pos_next pos vli byte :
  vli_pos pos vli -> pos <> 56 -> vli_pos (pos + 7) (vli + (byte mod 128) * 2 ^ pos).
Proof.
  intros (Hp & Hm & Hv) Hne. assert (0 <= byte mod 128 < 128) by (apply Z.mod_pos_bound; lia).
  assert (Hp7 : (pos + 7) mod 7 = 0) by (Z.to_euclidean_division_equations; lia).
  assert (pos <= 49) by (Z.to_euclidean_division_equations; lia).
  split; [lia|]. split; [done|]. rewrite Z.pow_add_r by lia. change (2 ^ 7) with 128. nia.
Qed.

(** Whatever the bytes are, the loop stays within the input and at most nine bytes. *)
Lemma vli_loop_ok fuel : forall inp p n pos vli,
  Forall is_byte inp -> 0 <= p <= n -> n <= zlen inp -> n - p <= Z.of_nat fuel -> vli_pos pos vli ->
  exists ret pos' vli' p', vli_loop fuel inp p n pos vli = Some (ret, pos', vli', p')
    /\ p <= p' <= n /\ (p < n -> p < p')
    /\ match ret with
       | XZ_OK => p' = n /\ vli_pos pos' vli'
       | XZ_STREAM_END => pos' = 0 /\ p < p' /\ 0 <= vli' < 2 ^ 63
       | XZ_DATA_ERROR => True
       | _ => False
       end.
Proof.
  induction fuel as [|fuel IH]; intros inp p n pos vli Hby Hp Hn Hf Hv.
  { exists XZ_OK, pos, vli, p. cbn [vli_loop]. destruct (Z.ltb_spec p n); [lia|]. split; [done|].
    split; [lia|]. split; [lia|]. split; [lia|done]. }
  destruct (decide (p < n)) as [Hlt|Hge]; cycle 1.
  { exists XZ_OK, pos, vli, p. cbn [vli_loop]. destruct (Z.ltb_spec p n); [lia|]. split; [done|].
    split; [lia|]. split; [lia|]. split; [lia|done]. }
  destruct (rd_Some inp p) as [byte Eb]; [lia|].
  pose proof (rd_Forall _ _ _ _ Hby Eb) as Hbyte. unfold is_byte in Hbyte.
  rewrite (vli_byte _ _ _ _ _ _ byte) by (done || apply Hv).
  destruct Hv as (Hp56 & Hm & Hv).
  destruct (Z.ltb_spec byte 128) as [Hlow|Hhigh].
  { destruct ((byte =? 0) && negb (pos =? 0)).
    - do 4 eexists. split; [done|]. split; [lia|]. split; [lia|done].
    - do 4 eexists. split; [done|]. split; [lia|]. split; [lia|]. split; [done|]. split; [lia|].
      assert (2 ^ pos <= 2 ^ 56) by (apply Z.pow_le_mono_r; lia). change (2 ^ 63) with (128 * 2 ^ 56). nia. }
  destruct (Z.eqb_spec pos 56) as [->|Hne].
  { do 4 eexists. split; [done|]. split; [lia|]. split; [lia|done]. }
  destruct (IH inp (p + 1) n (pos + 7) (vli + byte mod 128 * 2 ^ pos)) as (ret & pos' & vli' & p' & E & H1 & H2 & H3);
    [done|lia|done|lia|by apply vli_pos_next|].
  exists ret, pos', vli', p'. split; [exact E|]. split; [lia|]. split; [lia|]. destruct ret; try done. lia.
Qed.

(** ** The encoding *)

Lemma vli_digits_S n x :
  vli_digits (S n) x = if x <? 128 then [x] else (128 + x mod 128) :: vli_digits n (x / 128).
Proof. done. Qed.

Lemma rd_drop_cons {A} (l : list A) p x rest :
  0 <= p -> drop (Z.to_nat p) l = x :: rest -> rd l p = Some x /\ drop (Z.to_nat (p + 1)) l = rest.
Proof.
  intros Hp E. unfold rd. destruct (Z.leb_spec 0 p); [|lia].
  assert (Hl : l !! Z.to_nat p = Some x) by (rewrite <-(Nat.add_0_r (Z.to_nat p)), <-lookup_drop, E; done).
  split; [done|]. apply drop_S in Hl. rewrite Hl in E. injection E as E.
  by replace (Z.to_nat (p + 1)) with (S (Z.to_nat p)) by lia.
Qed.

(** Decoding the digits of [x] after [pos / 7] digits that were read before. *)
Lemma vli_loop_digits k : forall fuel inp p n pos vli x rest,
  0 <= p -> vli_pos pos vli -> pos = 7 * (9 - Z.of_nat k) -> (1 <= k)%nat -> 0 <= x < 2 ^ (7 * Z.of_nat k) ->
  (pos = 0 \/ 1 <= x) ->
  drop (Z.to_nat p) inp = vli_digits k x ++ rest ->
  p + zlen (vli_digits k x) <= n -> zlen (vli_digits k x) <= Z.of_nat fuel ->
  vli_loop fuel inp p n pos vli = Some (XZ_STREAM_END, 0, vli + x * 2 ^ pos, p + zlen (vli_digits k x)).
Proof.
  induction k as [|k IH]; intros fuel inp p n pos vli x rest Hp Hv Epos Hk Hx Hmin Ed Hn Hf; [lia|].
  rewrite vli_digits_S in *. pose proof Hv as (Hp56 & Hm & Hvr).
  destruct (Z.ltb_spec x 128) as [Hlt|Hge].
  { change (zlen [x]) with 1 in *. destruct fuel as [|fuel]; [lia|].
    destruct (rd_drop_cons inp p x rest Hp Ed) as [Er _].
    rewrite (vli_byte _ _ _ _ _ _ x) by (done || lia). destruct (Z.ltb_spec x 128); [|lia].
    replace ((x =? 0) && negb (pos =? 0)) with false; [done|]. symmetry.
    destruct (Z.eqb_spec x 0), (Z.eqb_spec pos 0); try done. lia. }
  assert (Hk0 : k <> 0%nat) by (intros ->; change (2 ^ (7 * Z.of_nat 1)) with 128 in Hx; lia).
  assert (Hzl : zlen ((128 + x mod 128) :: vli_digits k (x / 128)) = 1 + zlen (vli_digits k (x / 128)))
    by (unfold zlen; simpl length; lia).
  rewrite Hzl in *. pose proof (zlen_nonneg (vli_digits k (x / 128))).
  destruct fuel as [|fuel]; [lia|]. destruct (rd_drop_cons inp p _ _ Hp Ed) as [Er Ed'].
  assert (Hmod : 0 <= x mod 128 < 128) by (apply Z.mod_pos_bound; lia).
  rewrite (vli_byte _ _ _ _ _ _ (128 + x mod 128)) by (done || lia).
  destruct (Z.ltb_spec (128 + x mod 128) 128); [lia|]. destruct (Z.eqb_spec pos 56); [lia|].
  assert (Emod : (128 + x mod 128) mod 128 = x mod 128).
  { rewrite Zplus_mod, Z_mod_same_full, Z.add_0_l, !Zmod_mod. done. }
  pose proof (vli_pos_next pos vli (128 + x mod 128) Hv ltac:(done)) as Hv'. rewrite Emod in *.
  rewrite (IH fuel inp (p + 1) n (pos + 7) (vli + x mod 128 * 2 ^ pos) (x / 128) rest); try done; try lia.
  - f_equal. f_equal; [|lia]. f_equal. rewrite Z.pow_add_r by lia. change (2 ^ 7) with 128.
    rewrite (Z.div_mod x 128) at 3 by lia. ring.
  - split; [apply Z.div_pos; lia|]. apply Z.div_lt_upper_bound; [lia|]. destruct Hx as [_ Hx].
    replace (7 * Z.of_nat (S k)) with (7 + 7 * Z.of_nat k) in Hx by lia. by rewrite Z.pow_add_r in Hx by lia.
  - right. apply Z.div_le_lower_bound; lia.
Qed.

(** Only the shortest encoding is accepted. *)
Lemma vli_loop_canonical k : forall fuel inp p n pos vli pos' vli' p',
  Forall is_byte inp -> 0 <= p -> n <= zlen inp -> vli_pos pos vli -> pos = 7 * (9 - Z.of_nat k) -> (1 <= k)%nat ->
  vli_loop fuel inp p n pos vli = Some (XZ_STREAM_END, pos', vli', p') ->
  exists x, 0 <= x < 2 ^ (7 * Z.of_nat k) /\ (pos = 0 \/ 1 <= x)
    /\ vli' = vli + x * 2 ^ pos /\ rds inp p (p' - p) = Some (vli_digits k x).
Proof.
  induction k as [|k IH]; intros fuel inp p n pos vli pos' vli' p' Hby Hp Hn Hv Epos Hk E; [lia|].
  pose proof Hv as (Hp56 & Hm & Hvr).
  destruct (decide (p < n)) as [Hlt|Hge].
  2: { destruct fuel; cbn [vli_loop] in E; destruct (Z.ltb_spec p n); done || lia. }
  destruct fuel as [|fuel]; [cbn [vli_loop] in E; destruct (Z.ltb_spec p n); done || lia|].
  destruct (rd_Some inp p) as [byte Eb]; [lia|].
  pose proof (rd_Forall _ _ _ _ Hby Eb) as Hbyte. unfold is_byte in Hbyte.
  rewrite (vli_byte _ _ _ _ _ _ byte) in E by (done || lia).
  assert (Hone : rds inp p 1 = Some [byte]).
  { destruct (rds inp p 1) as [ys|] eqn:Er; [|rewrite rds_Some in Er by lia; done].
    f_equal. eapply rds_eq; [exact Er|done|]. intros j Hj. replace j with 0 by lia. by rewrite Z.add_0_r. }
  destruct (Z.ltb_spec byte 128) as [Hlow|Hhigh].
  { destruct (byte =? 0) eqn:E0, (pos =? 0) eqn:Ep; simpl in E; try discriminate E;
      injection E as <- <- <-; exists byte; zify_bools;
      assert (128 <= 2 ^ (7 * Z.of_nat (S k))) by (change 128 with (2 ^ 7); apply Z.pow_le_mono_r; lia);
      (split; [lia|]); (split; [lia|]); (split; [done|]);
      replace (p + 1 - p) with 1 by lia; rewrite Hone, vli_digits_S;
      by destruct (Z.ltb_spec byte 128); [|lia]. }
  destruct (Z.eqb_spec pos 56) as [->|Hne]; [discriminate E|].
  assert (Hk0 : k <> 0%nat) by (intros ->; lia).
  destruct (IH fuel inp (p + 1) n (pos + 7) (vli + byte mod 128 * 2 ^ pos) pos' vli' p')
    as (x & Hx & Hx1 & -> & Er); try done; try lia; [by apply vli_pos_next|].
  assert (Hx1' : 1 <= x) by lia. assert (Hb : byte mod 128 = byte - 128) by (Z.to_euclidean_division_equations; lia).
  exists (byte mod 128 + 128 * x).
  assert (Hdiv : (byte mod 128 + 128 * x) / 128 = x /\ (byte mod 128 + 128 * x) mod 128 = byte mod 128)
    by (Z.to_euclidean_division_equations; lia).
  destruct Hdiv as [Hdiv Hmod]. split; [|split; [lia|split]].
  - replace (7 * Z.of_nat (S k)) with (7 + 7 * Z.of_nat k) by lia. rewrite Z.pow_add_r by lia.
    change (2 ^ 7) with 128. lia.
  - rewrite Z.pow_add_r by lia. change (2 ^ 7) with 128. ring.
  - rewrite vli_digits_S. destruct (Z.ltb_spec (byte mod 128 + 128 * x) 128); [lia|].
    rewrite Hdiv, Hmod. pose proof (rds_zlen _ _ _ _ Er) as Hz.
    assert (El : p' - p = zlen ([byte] ++ vli_digits k x)) by (rewrite zlen_app; change (zlen [byte]) with 1; lia).
    rewrite El. replace ((128 + byte mod 128) :: vli_digits k x) with ([byte] ++ vli_digits k x)
      by (simpl; f_equal; lia).
    apply rds_next; [exact Hone|]. change (zlen [byte]) with 1. by rewrite Hz.
Qed.

(** * The pieces of the stream decoder

    Every function of xz_dec_stream.c stays within its buffers on any input. *)

Definition temp_ok (t : temp_t) : Prop :=
  zlen (t_buf t) = 1024 /\ Forall is_byte (t_buf t) /\ 0 <= t_pos t <= t_size t /\ t_size t <= 1024.

(** Input consumed, nothing written. *)
Lemma in_pos_ok b n :
  xz_buf_ok b -> 0 <= n -> b_in_pos b + n <= in_size b -> xz_buf_ok (set_in_pos (b_in_pos b + n) b).
Proof.
  intros Hb Hn Hle. pose proof Hb as (Hi & Ho & _).
  eapply emitted_buf_ok; [apply (emitted_in b n)|done|done| |]; unfold in_size, out_size in *; simpl; lia.
Qed.

Lemma fill_temp_ok s b :
  temp_ok (x_temp s) -> xz_buf_ok b ->
  exists ok t n, fill_temp s b = Some (ok, set_temp t s, set_in_pos (b_in_pos b + n) b)
    /\ 0 <= n /\ xz_buf_ok (set_in_pos (b_in_pos b + n) b) /\ temp_ok t /\ t_size t = t_size (x_temp s)
    /\ (ok = true -> t_pos t = 0 /\ t_pos (x_temp s) + n = t_size (x_temp s))
    /\ (ok = false -> b_in_pos b + n = in_size b /\ t_pos t < t_size t)
    /\ (t_pos (x_temp s) < t_size (x_temp s) -> b_in_pos b < in_size b -> 1 <= n).
Proof.
  intros (Hl & Hby & Hp & Hs) Hb. pose proof Hb as (Hi & Ho & Hi64 & _ & Hin). unfold fill_temp.
  rewrite usz_small by lia. set (n := Z.min _ _).
  destruct (rds (b_in b) (b_in_pos b) n) as [xs|] eqn:Ex.
  2: { rewrite rds_Some in Ex by (unfold in_size in *; lia). done. }
  pose proof (rds_zlen _ _ _ _ Ex) as Hx. simpl.
  destruct (wrs_Some (t_buf (x_temp s)) xs (t_pos (x_temp s))) as [buf Eb]; [lia|lia|]. rewrite Eb. simpl.
  pose proof (wrs_zlen _ _ _ _ Eb) as Hbl.
  assert (Hbb : Forall is_byte buf) by (eapply wrs_Forall; [exact Hby|by eapply rds_Forall|exact Eb]).
  assert (Hb1 : xz_buf_ok (set_in_pos (b_in_pos b + n) b)) by (apply in_pos_ok; [done|lia|lia]).
  destruct (Z.eqb_spec (t_pos (x_temp s) + n) (t_size (x_temp s))); do 3 eexists; (split; [done|]);
    (split; [lia|]); (split; [done|]); (split; [split; simpl; [lia|split; [done|lia]]|]);
    (split; [done|]); (split; [done|]); (split; [simpl; lia|lia]).
Qed.

(** The state of a variable-length integer between two calls. *)
Definition vli_state (s : xz_dec) : Prop := x_pos s = 0 \/ vli_pos (x_pos s) (x_vli s).

Lemma dec_vli_ok s inp p n :
  Forall is_byte inp -> 0 <= p <= n -> n <= zlen inp -> vli_state s ->
  exists ret pos vli p', dec_vli s inp p n = Some (ret, set_xvli pos vli s, p')
    /\ p <= p' <= n /\ (p < n -> p < p')
    /\ match ret with
       | XZ_OK => p' = n /\ vli_state (set_xvli pos vli s)
       | XZ_STREAM_END => pos = 0 /\ p < p' /\ 0 <= vli < 2 ^ 63
       | XZ_DATA_ERROR => True
       | _ => False
       end.
Proof.
  intros Hby Hp Hn Hs. unfold dec_vli.
  assert (Hv : vli_pos (x_pos s) (if x_pos s =? 0 then 0 else x_vli s)).
  { destruct Hs as [->|Hv]; [done|]. destruct (Z.eqb_spec (x_pos s) 0) as [->|]; done. }
  destruct (vli_loop_ok (Z.to_nat (n - p)) inp p n _ _ Hby Hp Hn ltac:(lia) Hv)
    as (ret & pos & vli & p' & E & H1 & H2 & H3).
  rewrite E, some_bind. cbv beta iota. exists ret, pos, vli, p'. split; [done|]. split; [done|]. split; [done|].
  destruct ret; try done. destruct H3. split; [done|by right].
Qed.

(** ** Blocks *)

Lemma emitted_rds b b' n xs :
  emitted b b' n xs -> 0 <= b_out_pos b -> b_out_pos b' <= zlen (b_out b') ->
  rds (b_out b') (b_out_pos b) (b_out_pos b' - b_out_pos b) = Some xs.
Proof.
  intros [] H0 Hle. pose proof (zlen_nonneg xs). replace (b_out_pos b' - b_out_pos b) with (zlen xs) by lia.
  destruct (rds (b_out b') (b_out_pos b) (zlen xs)) as [ys|] eqn:E; [|rewrite rds_Some in E by lia; done].
  f_equal. eapply rds_eq; [exact E|done|]. done.
Qed.

(** The decoder after a block was fed some input: observed sizes and check. *)
Definition block_fed (s : xz_dec) (b b' : xz_buf) (l : xz_dec_lzma2) (bl : block_t) (crc : Z) : xz_dec :=
  set_crc crc (set_block bl (set_xlzma2 l (set_starts (b_in_pos b) (b_out_pos b) s))).

Lemma set_crc_id s : set_crc (x_crc s) s = s.
Proof. by destruct s. Qed.

(** What is recorded of the input [n] and the output [xs] of a call that found no error. *)
Definition block_recorded (s : xz_dec) (ret : xz_ret) (n : Z) (xs : list Z) (bl : block_t) (crc : Z) : Prop :=
  let bh := x_block_header s in
  crc = (if x_check_type s =? XZ_CHECK_CRC32 then xz_crc32 xs (x_crc s) else x_crc s)
  /\ bl_compressed bl = u64 (bl_compressed (x_block s) + n)
  /\ bl_uncompressed bl = u64 (bl_uncompressed (x_block s) + zlen xs)
  /\ bl_compressed bl <= bh_compressed bh /\ bl_uncompressed bl <= bh_uncompressed bh
  /\ (ret = XZ_STREAM_END ->
      (bh_compressed bh = VLI_UNKNOWN \/ bh_compressed bh = bl_compressed bl)
      /\ (bh_uncompressed bh = VLI_UNKNOWN \/ bh_uncompressed bh = bl_uncompressed bl)
      /\ bl_count bl = u64 (bl_count (x_block s) + 1)).

Definition block_post (s : xz_dec) (b : xz_buf) (h : list Z) (r : option (xz_ret * xz_dec * xz_buf)) : Prop :=
  exists ret l b' n xs h' bl crc, r = Some (ret, block_fed s b b' l bl crc, b')
    /\ emitted b b' n xs /\ 0 <= n /\ xz_buf_ok b' /\ lz_out h xs h' /\ l2_base (x_lzma2 s) l
    /\ match ret with
       | XZ_OK => l2_inv l b' h' /\ spends (x_lzma2 s) l n xs
                  /\ (b_in_pos b' = in_size b' \/ b_out_pos b' = out_size b')
       | XZ_STREAM_END => l2_inv l b' h' /\ spends (x_lzma2 s) l n xs
       | XZ_DATA_ERROR => True
       | _ => False
       end
    /\ (ret <> XZ_DATA_ERROR -> block_recorded s ret n xs bl crc).

(** [dec_block]: what the LZMA2 decoder wrote goes into the check, and the sizes of the
    block header are enforced. *)
Lemma dec_block_ok s b h :
  l2_inv (x_lzma2 s) b h -> xz_buf_ok b -> block_post s b h (dec_block s b).
Proof.
  intros Hi Hb. unfold dec_block. pose proof Hb as (Hbi & Hbo & _).
  set (s0 := set_starts _ _ s).
  destruct (xz_dec_lzma2_run_ok (x_lzma2 s) b h Hi Hb) as (ret & l & b' & E & n & xs & h' & Hem & Hn & Hb' & Hlz & Hbase & Hret).
  change (x_lzma2 s0) with (x_lzma2 s). rewrite E, some_bind. cbv beta iota zeta.
  assert (Hin : b_in_pos b' - b_in_pos b = n) by (destruct Hem; lia).
  assert (Hout : b_out_pos b' - b_out_pos b = zlen xs) by (destruct Hem; lia).
  change (x_in_start (set_xlzma2 l s0)) with (b_in_pos b).
  change (x_out_start (set_xlzma2 l s0)) with (b_out_pos b). rewrite Hin, Hout.
  set (bl := Block _ _ _ _).
  assert (Hrest : forall r bl' crc, r = XZ_DATA_ERROR \/ r = ret /\ block_recorded s ret n xs bl' crc ->
    block_post s b h (Some (r, block_fed s b b' l bl' crc, b'))).
  { intros r bl' crc Hr. exists r, l, b', n, xs, h', bl', crc. split; [done|]. split; [done|]. split; [done|].
    split; [done|]. split; [done|]. split; [done|]. destruct Hr as [->|[-> H1]]; [done|].
    split; [by destruct ret|done]. }
  cbn [x_block_header set_block set_xlzma2 s0 set_starts].
  destruct (_ || _) eqn:Eover.
  { rewrite <-(set_crc_id (set_block bl (set_xlzma2 l s0))). apply Hrest. by left. }
  zify_bools. destruct Eover as [Ec Eu].
  set (crc := if x_check_type s =? XZ_CHECK_CRC32 then xz_crc32 xs (x_crc s) else x_crc s).
  assert (Es : (if x_check_type (set_block bl (set_xlzma2 l s0)) =? XZ_CHECK_CRC32
      then xs ← rds (b_out b') (x_out_start (set_block bl (set_xlzma2 l s0)))
                  (b_out_pos b' - x_out_start (set_block bl (set_xlzma2 l s0)));
           Some (set_crc (xz_crc32 xs (x_crc (set_block bl (set_xlzma2 l s0)))) (set_block bl (set_xlzma2 l s0)))
      else Some (set_block bl (set_xlzma2 l s0))) = Some (block_fed s b b' l bl crc)).
  { cbn [x_check_type x_out_start x_crc set_block set_xlzma2 s0 set_starts]. unfold crc, block_fed.
    destruct (x_check_type s =? XZ_CHECK_CRC32); [|by rewrite <-(set_crc_id (set_block bl (set_xlzma2 l s0)))].
    rewrite (emitted_rds b b' n xs Hem) by (try lia; apply Hb'). done. }
  rewrite Es, some_bind. cbv beta. clear Es.
  destruct (bool_decide (ret = XZ_STREAM_END)) eqn:Er; cycle 1.
  { apply bool_decide_eq_false in Er. apply Hrest. right. split; [done|]. split; [done|]. split; [done|].
    split; [done|]. split; [done|]. by split. }
  apply bool_decide_eq_true in Er as ->.
  destruct (negb (bh_compressed (x_block_header s) =? VLI_UNKNOWN) && _) eqn:E1; [apply Hrest; by left|].
  destruct (negb (bh_uncompressed (x_block_header s) =? VLI_UNKNOWN) && _) eqn:E2; [apply Hrest; by left|].
  match goal with |- context [set_block ?B (block_fed s b b' l bl crc)] =>
    change (set_block B (block_fed s b b' l bl crc)) with (block_fed s b b' l B crc) end.
  apply Hrest. right. split; [done|]. split; [done|]. split; [done|]. split; [done|]. split; [exact Ec|].
  split; [exact Eu|]. intros _. do 2 zify_bools. split; [tauto|]. split; [tauto|done].
Qed.

(** ** The index *)

(** The part of the input that belongs to the index in this call. *)
Definition started (s : xz_dec) (b : xz_buf) : Prop := 0 <= x_in_start s <= b_in_pos b.

Lemma index_update_ok s b :
  started s b -> xz_buf_ok b ->
  exists size crc, index_update s b =
    Some (set_crc crc (set_index (Index (ix_sequence (x_index s)) size (ix_count (x_index s)) (ix_hash (x_index s))) s)).
Proof.
  intros Hs (Hi & _ & Hi64 & _). unfold index_update, started in *.
  rewrite (usz_small (b_in_pos b - x_in_start s)) by lia.
  destruct (rds (b_in b) (x_in_start s) (b_in_pos b - x_in_start s)) as [xs|] eqn:E.
  - simpl. by do 2 eexists.
  - rewrite rds_Some in E by (unfold in_size in *; lia). done.
Qed.

(** The fields an index step changes. *)
Definition index_fed (s : xz_dec) (pos vli crc : Z) (ix : index_t) : xz_dec :=
  set_crc crc (set_index ix (set_xvli pos vli s)).

Definition index_post (s : xz_dec) (b : xz_buf) (r : option (xz_ret * xz_dec * xz_buf)) : Prop :=
  exists ret pos vli crc ix n, r = Some (ret, index_fed s pos vli crc ix, set_in_pos (b_in_pos b + n) b)
    /\ 0 <= n /\ xz_buf_ok (set_in_pos (b_in_pos b + n) b)
    /\ match ret with
       | XZ_OK => b_in_pos b + n = in_size b /\ vli_state (index_fed s pos vli crc ix)
       | XZ_STREAM_END => pos = 0
       | XZ_DATA_ERROR => True
       | _ => False
       end.

Lemma index_loop_ok fuel : forall s b,
  vli_state s -> started s b -> xz_buf_ok b -> in_size b - b_in_pos b < Z.of_nat fuel ->
  index_post s b (index_loop fuel s b).
Proof.
  induction fuel as [|fuel IH]; intros s b Hv Hs Hb Hf; [destruct Hb; lia|].
  pose proof Hb as (Hi & _ & _ & _ & Hby). cbn [index_loop].
  destruct (dec_vli_ok s (b_in b) (b_in_pos b) (in_size b)) as (ret & pos & vli & p & E & Hp & Hp1 & Hret);
    [done|lia|done|done|].
  rewrite E, some_bind. cbv beta iota zeta. replace p with (b_in_pos b + (p - b_in_pos b)) by lia.
  set (n := p - b_in_pos b). set (b1 := set_in_pos (b_in_pos b + n) b). set (s1 := set_xvli pos vli s).
  assert (Hb1 : xz_buf_ok b1) by (apply in_pos_ok; [done|lia|lia]).
  assert (Hs1 : started s1 b1) by (unfold started in *; simpl; lia).
  destruct (bool_decide (ret = XZ_STREAM_END)) eqn:Er; cbn [negb]; cycle 1.
  { apply bool_decide_eq_false in Er. destruct (index_update_ok s1 b1 Hs1 Hb1) as (size & crc & ->). simpl.
    eexists ret, pos, vli, crc, _, n. split; [done|]. split; [lia|]. split; [done|].
    destruct ret; try done. destruct Hret as [Hn Hvs]. split; [lia|]. exact Hvs. }
  apply bool_decide_eq_true in Er as ->. destruct Hret as (-> & Hlt & _).
  assert (Hcont : forall ix, index_post s b
    (if 0 <? ix_count (x_index (set_index ix s1)) then index_loop fuel (set_index ix s1) b1
     else Some (XZ_STREAM_END, set_index ix s1, b1))).
  { intros ix. destruct (0 <? _).
    - destruct (IH (set_index ix s1) b1) as (r2 & pos2 & vli2 & crc2 & ix2 & n2 & E2 & Hn2 & Hb2 & H2);
        [by left|exact Hs1|done|simpl; unfold in_size in *; simpl; lia|].
      exists r2, pos2, vli2, crc2, ix2, (n + n2). rewrite Z.add_assoc. split; [exact E2|]. split; [lia|].
      split; [exact Hb2|exact H2].
    - exists XZ_STREAM_END, 0, vli, (x_crc s), ix, n. split; [by destruct s|]. split; [lia|]. by split. }
  destruct (ix_sequence (x_index s1)); [|apply Hcont|apply Hcont].
  destruct (negb _); [|apply Hcont].
  exists XZ_DATA_ERROR, 0, vli, (x_crc s), (Index SEQ_INDEX_COUNT (ix_size (x_index s)) vli (ix_hash (x_index s))), n.
  split; [by destruct s|]. split; [lia|]. by split.
Qed.

(** ** CRC32 fields *)

Definition crc_byte (crc j : Z) : Z := Z.land (Z.shiftr crc (8 * j)) 0xFF.

(** [crc_validate] with [i] bytes checked before: it accepts exactly the remaining bytes of
    the value, low byte first, and stops where the input ends. *)
Lemma validate_loop_ok fuel : forall s b i,
  xz_buf_ok b -> x_pos s = 8 * i -> 0 <= i < 4 -> 4 - i <= Z.of_nat fuel ->
  exists ret pos crc k, validate_loop fuel s b 32 =
      Some (ret, set_crc crc (set_xvli pos (x_vli s) s), set_in_pos (b_in_pos b + k) b)
    /\ 0 <= k <= 4 - i /\ xz_buf_ok (set_in_pos (b_in_pos b + k) b)
    /\ match ret with
       | XZ_OK => b_in_pos b + k = in_size b /\ pos = 8 * (i + k) /\ i + k < 4 /\ crc = x_crc s
                  /\ forall j, 0 <= j < k -> rd (b_in b) (b_in_pos b + j) = Some (crc_byte (x_crc s) (i + j))
       | XZ_STREAM_END => k = 4 - i /\ pos = 0 /\ crc = 0
                  /\ forall j, 0 <= j < k -> rd (b_in b) (b_in_pos b + j) = Some (crc_byte (x_crc s) (i + j))
       | XZ_DATA_ERROR => 1 <= k /\ rd (b_in b) (b_in_pos b + (k - 1)) <> Some (crc_byte (x_crc s) (i + (k - 1)))
       | _ => False
       end.
Proof.
  induction fuel as [|fuel IH]; intros s b i Hb Hp Hi Hf; [lia|]. cbn [validate_loop].
  destruct (Z.eqb_spec (b_in_pos b) (in_size b)) as [Ee|Ee].
  { exists XZ_OK, (x_pos s), (x_crc s), 0. rewrite Z.add_0_r. split; [by destruct s, b|]. split; [lia|].
    split; [by destruct b|]. split; [done|]. split; [lia|]. split; [lia|]. split; [done|]. intros j Hj. lia. }
  destruct (next_byte_ok b Hb) as (x & Ex & Hx & Hb1); [destruct Hb; lia|]. rewrite Ex, some_bind. cbv beta iota.
  unfold next_byte in Ex. destruct (rd (b_in b) (b_in_pos b)) as [y|] eqn:Er; [|done]. simpl in Ex. injection Ex as ->.
  unfold shr32. rewrite Hp. destruct (Z.ltb_spec (8 * i) 32); [|lia]. rewrite some_bind. cbv beta.
  change (Z.land (Z.shiftr (x_crc s) (8 * i)) 255) with (crc_byte (x_crc s) i).
  destruct (Z.eqb_spec (crc_byte (x_crc s) i) x) as [Eq|Ne]; cbn [negb]; cycle 1.
  { exists XZ_DATA_ERROR, (x_pos s), (x_crc s), 1. split; [by destruct s|]. split; [lia|]. split; [done|].
    split; [lia|]. change (1 - 1) with 0. rewrite !Z.add_0_r, Er. congruence. }
  cbn [x_pos set_xvli]. destruct (Z.ltb_spec (8 * i + 8) 32) as [Hlt|Hge].
  - destruct (IH (set_xvli (8 * i + 8) (x_vli s) s) (set_in_pos (b_in_pos b + 1) b) (i + 1) Hb1)
      as (ret & pos & crc & k & E & Hk & Hbk & Hret); [simpl; lia|lia|lia|].
    exists ret, pos, crc, (1 + k). rewrite E. simpl in *. rewrite !Z.add_assoc. split; [done|]. split; [lia|].
    split; [exact Hbk|].
    assert (Hall : (forall j, 0 <= j < k -> rd (b_in b) (b_in_pos b + 1 + j) = Some (crc_byte (x_crc s) (i + 1 + j))) ->
      forall j, 0 <= j < 1 + k -> rd (b_in b) (b_in_pos b + j) = Some (crc_byte (x_crc s) (i + j))).
    { intros Hj1 j Hj. destruct (decide (j = 0)) as [->|]; [rewrite !Z.add_0_r; by rewrite Er, Eq|].
      specialize (Hj1 (j - 1) ltac:(lia)).
      replace (b_in_pos b + 1 + (j - 1)) with (b_in_pos b + j) in Hj1 by lia.
      replace (i + 1 + (j - 1)) with (i + j) in Hj1 by lia. exact Hj1. }
    destruct ret; try done.
    + destruct Hret as (H1 & H2 & H3 & H4 & H5). unfold in_size in *. simpl in *. split; [lia|]. split; [lia|].
      split; [lia|]. split; [done|]. by apply Hall.
    + destruct Hret as (H1 & H2 & H3 & H4). split; [lia|]. split; [done|]. split; [done|]. by apply Hall.
    + destruct Hret as (H1 & H2). split; [lia|].
      replace (b_in_pos b + (1 + k - 1)) with (b_in_pos b + 1 + (k - 1)) by lia.
      by replace (i + (1 + k - 1)) with (i + 1 + (k - 1)) by lia.
  - exists XZ_STREAM_END, 0, 0, 1. split; [done|]. split; [lia|]. split; [done|]. split; [lia|]. split; [done|].
    split; [done|]. intros j Hj. replace j with 0 by lia. by rewrite !Z.add_0_r, Er, Eq.
Qed.

(** ** Headers and footer *)

Lemma temp_rds t i n :
  temp_ok t -> 0 <= i -> 0 <= n -> i + n <= 1024 -> exists xs, rds (t_buf t) i n = Some xs.
Proof. intros (Hl & _) Hi Hn Hle. rewrite rds_Some by lia. by eexists. Qed.

Lemma temp_rd t i : temp_ok t -> 0 <= i < 1024 -> exists x, rd (t_buf t) i = Some x /\ 0 <= x < 256.
Proof.
  intros (Hl & Hby & _) Hi. destruct (rd_Some (t_buf t) i) as [x Ex]; [lia|]. exists x. split; [done|].
  by apply (rd_Forall is_byte _ _ _ Hby Ex).
Qed.

Lemma temp_le32 t i : temp_ok t -> 0 <= i -> i + 4 <= 1024 -> exists x, get_le32 (t_buf t) i = Some x.
Proof. intros Ht Hi Hle. unfold get_le32. destruct (temp_rds t i 4) as [xs ->]; [done|lia|lia|lia|]. by eexists. Qed.

Lemma dec_stream_header_ok s :
  temp_ok (x_temp s) ->
  exists ret s', dec_stream_header s = Some (ret, s')
    /\ (s' = s \/ exists c, s' = set_check_type c s)
    /\ match ret with XZ_OK | XZ_FORMAT_ERROR | XZ_DATA_ERROR | XZ_OPTIONS_ERROR => True | _ => False end.
Proof.
  intros Ht. unfold dec_stream_header, HEADER_MAGIC_SIZE.
  destruct (temp_rds _ 0 6 Ht) as [m ->]; [lia|lia|lia|]. rewrite some_bind.
  destruct (negb _); [by eexists _, s; split_and!; [done|left|]|].
  destruct (temp_rds _ 6 2 Ht) as [f ->]; [lia|lia|lia|]. rewrite some_bind.
  destruct (temp_le32 _ (6 + 2) Ht) as [c ->]; [lia|lia|]. rewrite some_bind.
  destruct (negb _); [by eexists _, s; split_and!; [done|left|]|].
  destruct (temp_rd _ 6 Ht) as (f0 & -> & _); [lia|]. rewrite some_bind.
  destruct (negb _); [by eexists _, s; split_and!; [done|left|]|].
  destruct (temp_rd _ (6 + 1) Ht) as (f1 & -> & _); [lia|]. rewrite some_bind. cbv beta zeta.
  destruct (_ <? _); eexists _, _; (split; [done|]); (split; [right; by eexists|done]).
Qed.

Lemma dec_stream_footer_ok s :
  temp_ok (x_temp s) -> dec_stream_footer s = Some XZ_STREAM_END \/ dec_stream_footer s = Some XZ_DATA_ERROR.
Proof.
  intros Ht. unfold dec_stream_footer.
  destruct (temp_rds _ 10 2 Ht) as [m ->]; [lia|lia|lia|]. rewrite some_bind. destruct (negb _); [by right|].
  destruct (temp_rds _ 4 6 Ht) as [f ->]; [lia|lia|lia|]. rewrite some_bind.
  destruct (temp_le32 _ 0 Ht) as [c ->]; [lia|lia|]. rewrite some_bind. destruct (negb _); [by right|].
  destruct (temp_le32 _ 4 Ht) as [z ->]; [lia|lia|]. rewrite some_bind. destruct (negb _); [by right|].
  destruct (temp_rd _ 8 Ht) as (f8 & -> & _); [lia|]. rewrite some_bind.
  destruct (temp_rd _ 9 Ht) as (f9 & -> & _); [lia|]. rewrite some_bind.
  destruct (_ || _); [by right|by left].
Qed.

(** What is set by the caller and kept by [dec_main]. *)
Definition x_conf (s : xz_dec) : xz_mode * bool := (x_mode s, x_allow_buf_error s).

(** What reading the block header changes. *)
Definition header_frame (s s' : xz_dec) : Prop :=
  x_seq s' = x_seq s /\ x_conf s' = x_conf s /\ x_check_type s' = x_check_type s /\ x_crc s' = x_crc s
  /\ x_in_start s' = x_in_start s /\ x_index s' = x_index s /\ t_buf (x_temp s') = t_buf (x_temp s).

Lemma header_frame_refl s : header_frame s s.
Proof. by unfold header_frame. Qed.

Lemma header_frame_trans s1 s2 s3 : header_frame s1 s2 -> header_frame s2 s3 -> header_frame s1 s3.
Proof. unfold header_frame. intros (?&?&?&?&?&?&?) (?&?&?&?&?&?&?). split_and!; congruence. Qed.

Lemma header_size_ok s present :
  temp_ok (x_temp s) -> x_pos s = 0 ->
  exists v s', header_size s present = Some (v, s') /\ header_frame s s' /\ x_lzma2 s' = x_lzma2 s
    /\ t_size (x_temp s') = t_size (x_temp s)
    /\ (is_Some v -> temp_ok (x_temp s') /\ x_pos s' = 0).
Proof.
  intros Ht Hp. unfold header_size. destruct present; [|by eexists _, s; split_and!; [done|..]].
  pose proof Ht as (Hl & Hby & Hpos & Hsz).
  destruct (dec_vli_ok s (t_buf (x_temp s)) (t_pos (x_temp s)) (t_size (x_temp s)))
    as (ret & pos & vli & p & E & H1 & H2 & H3); [done|lia|lia|by left|].
  rewrite E, some_bind. cbv beta iota zeta. eexists _, _. split; [done|]. split; [done|]. split; [done|].
  split; [done|]. destruct (bool_decide (ret = XZ_STREAM_END)) eqn:Er; [|by intros []].
  apply bool_decide_eq_true in Er as ->. intros _. split; [|apply H3]. split; [done|]. split; [done|]. simpl. lia.
Qed.

Lemma temp_byte_ok s :
  temp_ok (x_temp s) -> t_pos (x_temp s) < t_size (x_temp s) ->
  exists x, temp_byte s = Some (x, set_temp (Temp (t_pos (x_temp s) + 1) (t_size (x_temp s)) (t_buf (x_temp s))) s)
    /\ 0 <= x < 256 /\ temp_ok (Temp (t_pos (x_temp s) + 1) (t_size (x_temp s)) (t_buf (x_temp s))).
Proof.
  intros Ht Hlt. pose proof Ht as (Hl & Hby & Hpos & Hsz). unfold temp_byte.
  destruct (temp_rd _ (t_pos (x_temp s)) Ht) as (x & -> & Hx); [lia|]. simpl. exists x. split; [done|]. split; [done|].
  split; [done|]. split; [done|]. simpl. lia.
Qed.

Lemma header_padding_ok fuel : forall s,
  temp_ok (x_temp s) -> t_size (x_temp s) - t_pos (x_temp s) <= Z.of_nat fuel ->
  exists ok t, header_padding fuel s = Some (ok, set_temp t s) /\ temp_ok t
    /\ t_buf t = t_buf (x_temp s) /\ t_size t = t_size (x_temp s).
Proof.
  induction fuel as [|fuel IH]; intros s Ht Hf; cbn [header_padding];
    destruct (Z.ltb_spec (t_pos (x_temp s)) (t_size (x_temp s))) as [Hlt|Hge].
  1: lia.
  1, 3: exists true, (x_temp s); by destruct s.
  destruct (temp_byte_ok s Ht Hlt) as (x & E & Hx & Ht'). rewrite E, some_bind. cbv beta iota.
  destruct (negb (x =? 0)); [by eexists _, _|].
  destruct (IH (set_temp (Temp (t_pos (x_temp s) + 1) (t_size (x_temp s)) (t_buf (x_temp s))) s) Ht') as (ok & t & E' & H1 & H2 & H3); [simpl; lia|].
  exists ok, t. split; [exact E'|done].
Qed.

Definition header_errors (ret : xz_ret) : Prop :=
  match ret with
  | XZ_OK | XZ_DATA_ERROR | XZ_OPTIONS_ERROR | XZ_MEMLIMIT_ERROR | XZ_MEM_ERROR => True
  | _ => False
  end.

(** A decoder that has read a block header, or failed to. *)
Definition header_post (s : xz_dec) (r : option (xz_ret * xz_dec * oracle)) : Prop :=
  exists ret s' o', r = Some (ret, s', o') /\ header_frame s s' /\ header_errors ret
    /\ l2_mem (x_lzma2 s') /\ d_mode (s_dict (x_lzma2 s')) = d_mode (s_dict (x_lzma2 s))
    /\ (ret = XZ_OK -> temp_ok (x_temp s') /\ t_pos (x_temp s') = 0 /\ x_pos s' = 0
        /\ sequence (s_lzma2 (x_lzma2 s')) = SEQ_CONTROL /\ forall b, l2_inv (x_lzma2 s') b []).

Lemma header_fail s s' ret o :
  header_frame s s' -> x_lzma2 s' = x_lzma2 s -> l2_mem (x_lzma2 s) -> header_errors ret -> ret <> XZ_OK ->
  header_post s (Some (ret, s', o)).
Proof.
  intros Hf Hl Hm He Hn. exists ret, s', o. rewrite Hl. split; [done|]. split; [done|]. split; [done|]. by split.
Qed.

Lemma dec_filter_flags_ok fill s o :
  temp_ok (x_temp s) -> x_pos s = 0 -> l2_mem (x_lzma2 s) -> header_post s (dec_filter_flags fill s o).
Proof.
  intros Ht Hp Hm. unfold dec_filter_flags. pose proof Ht as (Hl & Hby & Hpos & Hsz).
  rewrite (usz_small (t_size (x_temp s) - t_pos (x_temp s))) by lia.
  destruct (Z.ltb_spec (t_size (x_temp s) - t_pos (x_temp s)) 2); [by apply header_fail|].
  destruct (temp_byte_ok s Ht) as (x1 & E1 & _ & Ht1); [lia|]. rewrite E1, some_bind. cbv beta iota.
  set (s1 := set_temp _ s) in *. destruct (negb _); [by apply header_fail|].
  destruct (temp_byte_ok s1 Ht1) as (x2 & E2 & _ & Ht2); [simpl; lia|]. rewrite E2, some_bind. cbv beta iota.
  set (s2 := set_temp _ s1) in *. destruct (negb _); [by apply header_fail|].
  cbn [x_temp s2 set_temp t_size t_pos]. rewrite usz_small by (simpl; lia).
  destruct (Z.ltb_spec (t_size (x_temp s1) - (t_pos (x_temp s1) + 1)) 1); [by apply header_fail|].
  destruct (temp_byte_ok s2 Ht2) as (props & E3 & Hprops & Ht3); [simpl in *; lia|]. rewrite E3, some_bind. cbv beta iota.
  set (s3 := set_temp _ s2) in *. change (x_lzma2 s3) with (x_lzma2 s).
  destruct (xz_dec_lzma2_reset fill (x_lzma2 s) props o) as [[ret l] o'] eqn:Er.
  destruct (xz_dec_lzma2_reset_ok _ _ _ _ _ _ _ Hm (proj1 Hprops) Er) as (R1 & R2 & R3 & _ & _ & _ & R4 & R5).
  destruct (bool_decide (ret = XZ_OK)) eqn:Eok; cbn [negb]; cycle 1.
  { apply bool_decide_eq_false in Eok. exists ret, (set_xlzma2 l s3), o'. split; [done|]. split; [done|].
    split; [by destruct R5 as [->|[->|[->| ->]]]|]. by split. }
  apply bool_decide_eq_true in Eok as ->. destruct (R4 eq_refl) as [_ R6].
  pose proof (lzma2_reset_control _ _ _ _ _ _ Er) as Hctl.
  destruct (header_padding_ok (Z.to_nat (t_size (x_temp (set_xlzma2 l s3)) - t_pos (x_temp (set_xlzma2 l s3)))) (set_xlzma2 l s3))
    as (ok & t & E4 & Ht4 & Hb4 & Hs4); [exact Ht3|lia|].
  rewrite E4, some_bind. cbv beta iota. pose proof Ht4 as (Q1 & Q2 & Q3 & Q4).
  assert (Hframe : header_frame s (set_temp t (set_xlzma2 l s3))) by (unfold header_frame; simpl; by rewrite Hb4).
  destruct ok; cbn [negb]; cycle 1.
  { eexists _, _, o'. split; [done|]. split; [exact Hframe|]. split; [done|]. by split. }
  eexists _, _, o'. split; [done|]. split; [exact Hframe|]. split; [done|]. split; [done|]. split; [done|].
  intros _. split; [|by split]. split; [done|]. split; [done|]. simpl. lia.
Qed.

Lemma dec_block_header_ok fill s o :
  temp_ok (x_temp s) -> 8 <= t_size (x_temp s) -> x_pos s = 0 -> l2_mem (x_lzma2 s) ->
  header_post s (dec_block_header fill s o).
Proof.
  intros Ht H8 Hp Hm. unfold dec_block_header. pose proof Ht as (Hl & Hby & Hpos & Hsz).
  rewrite (usz_small (t_size (x_temp s) - 4)) by lia. set (size := t_size (x_temp s) - 4) in *.
  destruct (temp_rds _ 0 size Ht) as [body ->]; [lia|lia|lia|]. rewrite some_bind.
  destruct (temp_le32 _ size Ht) as [crc ->]; [lia|lia|]. rewrite some_bind. cbv beta zeta.
  destruct (negb _); [by apply header_fail|].
  destruct (temp_rd _ 1 Ht) as (flags & -> & _); [lia|]. rewrite some_bind.
  set (s1 := set_temp (Temp 2 size (t_buf (x_temp s))) (set_temp _ s)).
  assert (Hs1 : header_frame s s1) by done.
  assert (Ht1 : temp_ok (x_temp s1)) by (split; [done|]; split; [done|]; simpl; lia).
  destruct (truthy (Z.land flags 63)); [by apply header_fail|].
  destruct (header_size_ok s1 (truthy (Z.land flags 64)) Ht1 Hp) as (v & s2 & -> & F2 & L2 & _ & V2).
  rewrite some_bind. cbv beta iota. pose proof (header_frame_trans _ _ _ Hs1 F2) as F2'.
  destruct v as [compressed|]; [|by apply header_fail]. destruct V2 as [Ht2 Hp2]; [by eexists|].
  set (s3 := set_block_header _ s2).
  destruct (header_size_ok s3 (truthy (Z.land flags 128)) Ht2 Hp2) as (v2 & s4 & -> & F4 & L4 & _ & V4).
  rewrite some_bind. cbv beta iota.
  assert (F4' : header_frame s s4) by (eapply header_frame_trans; [exact F2'|]; exact F4).
  destruct v2 as [uncompressed|]; [|by apply header_fail; [|rewrite L4|..]]. destruct V4 as [Ht4 Hp4]; [by eexists|].
  set (s5 := set_block_header _ s4).
  destruct (dec_filter_flags_ok fill s5 o Ht4 Hp4) as (ret & s' & o' & E & F & He & M & D & K); [simpl; rewrite L4; simpl; by rewrite L2|].
  exists ret, s', o'. split; [exact E|]. split; [eapply header_frame_trans; [exact F4'|exact F]|].
  split; [done|]. split; [done|]. split; [|done]. rewrite D. simpl. rewrite L4. simpl. by rewrite L2.
Qed.
