(* ===== verification/XzStreamRun.v ===== *)
(** * The stream decoder as a state machine

    The invariant that [dec_main] keeps between the positions of a stream, and that every
    round of its loop returns, without undefined behaviour, on any input. *)

From S2P Require Import Prelude XzCrc32 XzDefs XzRange XzDict XzLzma XzLzmaInv XzLzma2 XzLzma2Spec XzLzma2Run XzLzma2Loop XzStream.
From S2P Require Import XzStreamSpec.

(** What every state has, also after an error. *)
Record x_base (s : xz_dec) : Prop := {
  xb_len : zlen (t_buf (x_temp s)) = 1024;
  xb_bytes : Forall is_byte (t_buf (x_temp s));
  xb_mem : l2_mem (x_lzma2 s);
  xb_mode : d_mode (s_dict (x_lzma2 s)) = x_mode s }.

(** What is known at each position of a stream. *)
Definition seq_inv (s : xz_dec) (b : xz_buf) : Prop :=
  match x_seq s with
  | SEQ_STREAM_HEADER => t_size (x_temp s) = 12 /\ x_pos s = 0
  | SEQ_STREAM_FOOTER => t_size (x_temp s) = 12 /\ t_pos (x_temp s) < 12
  | SEQ_BLOCK_START | SEQ_BLOCK_PADDING | SEQ_INDEX_PADDING => t_pos (x_temp s) = 0 /\ x_pos s = 0
  | SEQ_BLOCK_HEADER => 8 <= t_size (x_temp s) /\ x_pos s = 0
  | SEQ_BLOCK_UNCOMPRESS => t_pos (x_temp s) = 0 /\ x_pos s = 0 /\ exists h, l2_inv (x_lzma2 s) b h
  | SEQ_BLOCK_CHECK =>
    t_pos (x_temp s) = 0 /\ exists i, x_pos s = 8 * i /\ 0 <= i < 4 /\ (x_check_type s <> XZ_CHECK_CRC32 -> i = 0)
  | SEQ_INDEX => t_pos (x_temp s) = 0 /\ vli_state s
  | SEQ_INDEX_CRC32 => t_pos (x_temp s) = 0 /\ exists i, x_pos s = 8 * i /\ 0 <= i < 4
  end.

Record x_inv (s : xz_dec) (b : xz_buf) : Prop := {
  xi_base : x_base s;
  xi_temp : 0 <= t_pos (x_temp s) <= t_size (x_temp s) /\ t_size (x_temp s) <= 1024;
  xi_seq : seq_inv s b }.

Lemma x_inv_temp s b : x_inv s b -> temp_ok (x_temp s).
Proof. intros [[] ? _]. split; [done|]. by split. Qed.

(** What is left of the chunk that is being decoded, and that the output [xs] is paid by it
    and by the [n] bytes read. *)
Definition xpend (s : xz_dec) : Z :=
  if bool_decide (x_seq s = SEQ_BLOCK_UNCOMPRESS) then pending (s_lzma2 (x_lzma2 s)) else 0.

Definition x_spends (s s' : xz_dec) (n : Z) (xs : list Z) : Prop :=
  zlen xs + xpend s' <= xpend s + 2 ^ 21 * n.

Lemma xpend_nonneg s b : x_inv s b -> 0 <= xpend s.
Proof.
  intros [_ _ Hq]. unfold xpend. case_bool_decide as E; [|done]. unfold seq_inv in Hq. rewrite E in Hq.
  destruct Hq as (_ & _ & h & Hl). apply (pending_range _ _ _ Hl).
Qed.

Lemma xpend_other s : x_seq s <> SEQ_BLOCK_UNCOMPRESS -> xpend s = 0.
Proof. intros. unfold xpend. by rewrite bool_decide_eq_false_2. Qed.

Lemma x_spends_in s s' b n : x_inv s b -> xpend s' = 0 -> 0 <= n -> x_spends s s' n [].
Proof. intros Hi%xpend_nonneg He Hn. unfold x_spends, zlen. simpl length. lia. Qed.

Lemma x_spends_trans s1 s2 s3 n m xs ys :
  x_spends s1 s2 n xs -> x_spends s2 s3 m ys -> x_spends s1 s3 (n + m) (xs ++ ys).
Proof. unfold x_spends. rewrite zlen_app. lia. Qed.

(** What holds when [dec_main] returns. *)
Definition stop_post (s s' : xz_dec) (b' : xz_buf) (n : Z) (xs : list Z) (ret : xz_ret) : Prop :=
  match ret with
  | XZ_OK => x_inv s' b' /\ x_spends s s' n xs /\ (b_in_pos b' = in_size b' \/ b_out_pos b' = out_size b')
  | XZ_STREAM_END => x_inv s' b' /\ x_spends s s' n xs /\ 1 <= n
  | XZ_DATA_ERROR | XZ_OPTIONS_ERROR | XZ_MEMLIMIT_ERROR | XZ_MEM_ERROR | XZ_FORMAT_ERROR => True
  | _ => False
  end.

(** The results of a round of [dec_main]; [m] is a lower bound on the bytes read when the
    loop goes on. *)
Definition main_post (m : Z) (s : xz_dec) (b : xz_buf) (r : mstep) : Prop :=
  exists f s' b' o' n xs, r = Some (f, s', b', o') /\ emitted b b' n xs /\ 0 <= n /\ xz_buf_ok b'
    /\ x_base s' /\ x_conf s' = x_conf s /\ started s' b'
    /\ match f with
       | MBreak => x_inv s' b' /\ x_spends s s' n xs /\ m <= n
                   /\ (x_seq s' = SEQ_BLOCK_START \/ x_seq s' = SEQ_INDEX /\ 1 <= n)
       | MRet ret => stop_post s s' b' n xs ret
       end.

Lemma stop_post_trans s1 s2 s3 b n m xs ys ret :
  x_spends s1 s2 n xs -> 0 <= n -> stop_post s2 s3 b m ys ret -> stop_post s1 s3 b (n + m) (xs ++ ys) ret.
Proof.
  intros Hsp Hn Hr. destruct ret; try done; destruct Hr as (H1 & H2 & H3); (split; [done|]);
    (split; [by eapply x_spends_trans|]); [done|lia].
Qed.

(** A round that first makes progress and goes on with the next case. *)
Lemma main_post_trans m s s1 b b1 n xs r :
  emitted b b1 n xs -> 0 <= n -> x_conf s1 = x_conf s -> x_spends s s1 n xs -> main_post (m - n) s1 b1 r ->
  main_post m s b r.
Proof.
  intros He Hn Hm Hsp (f & s' & b' & o' & k & ys & -> & He' & Hk & Hb & Hx & Hm' & Hs & Hf).
  exists f, s', b', o', (n + k), (xs ++ ys). split; [done|]. split; [by eapply emitted_trans|]. split; [lia|].
  split; [done|]. split; [done|]. split; [congruence|]. split; [done|].
  destruct f as [ret|]; [by eapply stop_post_trans|]. destruct Hf as (H1 & H2 & H3 & H4). split; [done|].
  split; [by eapply x_spends_trans|]. split; [lia|]. destruct H4 as [|[]]; [by left|right; split; [done|lia]].
Qed.

Lemma main_post_weaken m m' s b r : m' <= m -> main_post m s b r -> main_post m' s b r.
Proof.
  intros Hm (f & s' & b' & o' & n & xs & -> & H1 & H2 & H3 & H4 & H5 & H6 & H7).
  exists f, s', b', o', n, xs. do 7 (split; [done|]). destruct f; [done|]. destruct H7 as (? & ? & ? & ?).
  split; [done|]. split; [done|]. split; [lia|done].
Qed.

(** Input read first, nothing written. *)
Lemma main_post_in m s s1 b n r :
  main_post (m - n) s1 (set_in_pos (b_in_pos b + n) b) r -> x_conf s1 = x_conf s -> 0 <= n ->
  x_inv s b -> xpend s1 = 0 -> main_post m s b r.
Proof. intros. eapply main_post_trans; [apply (emitted_in b n)|done|done| |done]. by eapply x_spends_in. Qed.

(** A round that ends here. *)
Lemma main_post_ret m s b s' b' o' n xs f :
  emitted b b' n xs -> 0 <= n -> xz_buf_ok b' -> x_base s' -> x_conf s' = x_conf s -> started s' b' ->
  stop_post s s' b' n xs f -> main_post m s b (Some (MRet f, s', b', o')).
Proof. intros. exists (MRet f), s', b', o', n, xs. split; [done|]. do 6 (split; [done|]). done. Qed.

(** The states that differ from [s] in the temporary buffer, or not in anything of [x_base]. *)
Lemma x_base_temp s s' :
  x_base s -> temp_ok (x_temp s') -> x_lzma2 s' = x_lzma2 s -> x_mode s' = x_mode s -> x_base s'.
Proof. intros [] (? & ? & _) H1 H2. split; [done|done| |]; rewrite H1; congruence. Qed.

Lemma x_base_frame s s' :
  x_base s -> t_buf (x_temp s') = t_buf (x_temp s) -> x_lzma2 s' = x_lzma2 s -> x_mode s' = x_mode s -> x_base s'.
Proof. intros [] H0 H1 H2. split; [congruence..| |]; rewrite H1; congruence. Qed.

Lemma land3 x : Z.land (u64 x) 3 = x mod 4.
Proof.
  change 3 with (Z.ones 2). rewrite Z.land_ones by lia. unfold u64. Z.to_euclidean_division_equations. lia.
Qed.

Lemma started_in s b n : started s b -> 0 <= n -> started s (set_in_pos (b_in_pos b + n) b).
Proof. unfold started. simpl. lia. Qed.

(** ** Footer and index *)

(** Only the block decoder writes output. *)
Ltac free_spends :=
  match goal with
  | Hi : x_inv ?s _, Hq : x_seq ?s = _ |- x_spends ?s _ _ [] =>
    eapply x_spends_in; [exact Hi|apply xpend_other; simpl; rewrite ?Hq; discriminate|lia]
  end.

Section rounds.
Context (fill : Z -> Z).

Lemma seq_stream_footer_ok m s b o :
  x_inv s b -> x_seq s = SEQ_STREAM_FOOTER -> xz_buf_ok b -> started s b ->
  main_post m s b (seq_stream_footer s b o).
Proof.
  intros Hi Hq Hb Hs. unfold seq_stream_footer. pose proof (xi_seq _ _ Hi) as Hsq. unfold seq_inv in Hsq. rewrite Hq in Hsq.
  destruct (fill_temp_ok s b (x_inv_temp _ _ Hi) Hb) as (ok & t & n & E & Hn & Hb1 & Ht & Hsz & Hok & Hno & _).
  rewrite E, some_bind. cbv beta iota.
  assert (Hx : x_base (set_temp t s)) by (eapply x_base_temp; [apply Hi|done..]).
  destruct ok; cbn [negb].
  - destruct (Hok eq_refl) as [Ht0 Hn1].
    assert (Hi1 : x_inv (set_temp t s) (set_in_pos (b_in_pos b + n) b)).
    { split; [done|by apply Ht|]. unfold seq_inv. simpl. rewrite Hq. lia. }
    destruct (dec_stream_footer_ok (set_temp t s) Ht) as [-> | ->]; rewrite some_bind;
      (eapply main_post_ret; [apply emitted_in|done|done|exact Hx|done|by apply started_in|]); [|done].
    split; [done|]. split; [|lia]. eapply x_spends_in; [done| |done]. apply xpend_other. simpl. by rewrite Hq.
  - destruct (Hno eq_refl) as [Hn1 Hlt]. eapply main_post_ret; [apply emitted_in|done|done|exact Hx|done|by apply started_in|].
    split; [split; [done|by apply Ht|]; unfold seq_inv; simpl; rewrite Hq; lia|].
    split; [|by left]. eapply x_spends_in; [done| |done]. apply xpend_other. simpl. by rewrite Hq.
Qed.

Lemma seq_index_crc32_ok m s b o :
  x_inv s b -> x_seq s = SEQ_INDEX_CRC32 -> xz_buf_ok b -> started s b ->
  main_post m s b (seq_index_crc32 s b o).
Proof.
  intros Hi Hq Hb Hs. unfold seq_index_crc32, crc_validate. pose proof (xi_seq _ _ Hi) as Hsq. unfold seq_inv in Hsq. rewrite Hq in Hsq.
  destruct Hsq as (Ht0 & i & Hp & Hi4).
  destruct (validate_loop_ok (Z.to_nat 32) s b i Hb Hp Hi4 ltac:(lia)) as (ret & pos & crc & k & E & Hk & Hb1 & Hret).
  rewrite E, some_bind. cbv beta iota. set (s1 := set_crc _ _).
  assert (Hx : x_base s1) by (eapply x_base_frame; [apply Hi|done..]).
  destruct (bool_decide (ret = XZ_STREAM_END)) eqn:Er; cbn [negb].
  - apply bool_decide_eq_true in Er as ->.
    eapply main_post_in; [apply seq_stream_footer_ok; [|done|exact Hb1|apply started_in; [exact Hs|lia]]|done|lia|done|done].
    split; [eapply x_base_frame; [exact Hx|done..]| |split; [done|simpl; lia]]. simpl. rewrite Ht0. unfold STREAM_HEADER_SIZE. lia.
  - apply bool_decide_eq_false in Er.
    eapply main_post_ret; [apply emitted_in|lia|done|exact Hx|done|by apply started_in; [|lia]|].
    destruct ret; try done. destruct Hret as (H1 & H2 & H3 & _). split; [|split; [free_spends|by left]].
    split; [done|apply Hi|]. unfold seq_inv. simpl. rewrite Hq. split; [done|]. exists (i + k). lia.
Qed.

(** Index Padding: each byte moves the size towards a multiple of four. *)
Lemma index_padding_loop_ok fuel : forall s b,
  xz_buf_ok b -> started s b ->
  (4 - (ix_size (x_index s) + (b_in_pos b - x_in_start s)) mod 4) mod 4 <= Z.of_nat fuel ->
  exists r crc ix n, index_padding_loop fuel s b = Some (r, set_crc crc (set_index ix s), set_in_pos (b_in_pos b + n) b)
    /\ 0 <= n /\ xz_buf_ok (set_in_pos (b_in_pos b + n) b)
    /\ match r with
       | None => True
       | Some XZ_OK => b_in_pos b + n = in_size b
       | Some XZ_DATA_ERROR => True
       | _ => False
       end.
Proof.
  induction fuel as [|fuel IH]; intros s b Hb Hs Hf; cbn [index_padding_loop];
    pose proof Hb as (Hbi & _ & Hi64 & _); unfold started in Hs;
    rewrite (usz_small (b_in_pos b - x_in_start s)), land3 by lia;
    destruct (truthy _) eqn:Et; rewrite ?truthy_true, ?truthy_false in Et.
  1: Z.to_euclidean_division_equations; lia.
  1, 3: exists None, (x_crc s), (x_index s), 0; rewrite Z.add_0_r; split; [by destruct s, b|by destruct b].
  destruct (Z.eqb_spec (b_in_pos b) (in_size b)) as [Ee|Ee].
  { destruct (index_update_ok s b Hs Hb) as (size & crc & ->). rewrite some_bind.
    eexists (Some XZ_OK), crc, _, 0. rewrite Z.add_0_r. split; [by destruct b|by destruct b]. }
  destruct (next_byte_ok b Hb) as (x & Ex & Hx & Hb1); [lia|]. rewrite Ex, some_bind. cbv beta iota.
  destruct (negb (x =? 0)).
  { exists (Some XZ_DATA_ERROR), (x_crc s), (x_index s), 1. split; [by destruct s|]. by split. }
  destruct (IH s (set_in_pos (b_in_pos b + 1) b) Hb1) as (r & crc & ix & n & E & Hn & Hb2 & Hr).
  { unfold started. simpl. lia. }
  { simpl. Z.to_euclidean_division_equations. lia. }
  exists r, crc, ix, (1 + n). rewrite Z.add_assoc. split; [exact E|]. split; [lia|]. by split.
Qed.

Lemma seq_index_padding_ok m s b o :
  x_inv s b -> x_seq s = SEQ_INDEX_PADDING -> xz_buf_ok b -> started s b ->
  main_post m s b (seq_index_padding s b o).
Proof.
  intros Hi Hq Hb Hs. unfold seq_index_padding. pose proof (xi_seq _ _ Hi) as Hsq. unfold seq_inv in Hsq. rewrite Hq in Hsq.
  destruct Hsq as (Ht0 & Hp).
  destruct (index_padding_loop_ok 4 s b Hb Hs) as (r & crc & ix & n & E & Hn & Hb1 & Hr).
  { Z.to_euclidean_division_equations. lia. }
  rewrite E, some_bind. cbv beta iota. set (s1 := set_crc _ _). set (b1 := set_in_pos _ b) in *.
  assert (Hs1 : started s1 b1) by (by apply started_in).
  assert (Hx : x_base s1) by (eapply x_base_frame; [apply Hi|done..]).
  destruct r as [r|].
  { eapply main_post_ret; [apply emitted_in|done|done|exact Hx|done|done|]. destruct r; try done.
    split; [|split; [free_spends|by left]]. split; [done|apply Hi|]. unfold seq_inv. simpl. by rewrite Hq. }
  destruct (index_update_ok s1 b1 Hs1 Hb1) as (size & crc2 & ->). rewrite some_bind. cbv beta.
  set (s2 := set_crc crc2 _). assert (Hx2 : x_base s2) by (eapply x_base_frame; [exact Hx|done..]).
  destruct (negb _); [by eapply main_post_ret; [apply emitted_in|..]|].
  eapply main_post_in; [apply seq_index_crc32_ok; [|done|exact Hb1|exact Hs1]|done|done|done|done].
  split; [by eapply x_base_frame; [exact Hx2|..]|apply Hi|]. split; [done|]. exists 0. simpl. lia.
Qed.

Lemma seq_index_ok m s b o :
  x_inv s b -> x_seq s = SEQ_INDEX -> xz_buf_ok b -> started s b -> main_post m s b (seq_index s b o).
Proof.
  intros Hi Hq Hb Hs. unfold seq_index, dec_index. pose proof (xi_seq _ _ Hi) as Hsq. unfold seq_inv in Hsq. rewrite Hq in Hsq.
  destruct Hsq as (Ht0 & Hv).
  destruct (index_loop_ok (S (Z.to_nat (in_size b - b_in_pos b))) s b Hv Hs Hb ltac:(lia))
    as (ret & pos & vli & crc & ix & n & E & Hn & Hb1 & Hret).
  rewrite E, some_bind. cbv beta iota. set (s1 := index_fed _ _ _ _ _) in *. set (b1 := set_in_pos _ b) in *.
  assert (Hs1 : started s1 b1) by (by apply started_in).
  assert (Hx : x_base s1) by (eapply x_base_frame; [apply Hi|done..]).
  destruct (bool_decide (ret = XZ_STREAM_END)) eqn:Er; cbn [negb].
  - apply bool_decide_eq_true in Er as ->.
    eapply main_post_in; [apply seq_index_padding_ok; [|done|exact Hb1|exact Hs1]|done|done|done|done].
    split; [by eapply x_base_frame; [exact Hx|..]|apply Hi|]. split; [done|]. exact Hret.
  - apply bool_decide_eq_false in Er. eapply main_post_ret; [apply emitted_in|done|done|exact Hx|done|done|].
    destruct ret; try done. destruct Hret as [H1 H2]. split; [|split; [free_spends|by left]].
    split; [done|apply Hi|]. unfold seq_inv. simpl. by rewrite Hq.
Qed.

(** ** Blocks *)

Lemma seq_block_check_ok s b o :
  x_inv s b -> x_seq s = SEQ_BLOCK_CHECK -> xz_buf_ok b -> started s b ->
  main_post 0 s b (seq_block_check s b o).
Proof.
  intros Hi Hq Hb Hs. unfold seq_block_check, crc_validate. pose proof (xi_seq _ _ Hi) as Hsq. unfold seq_inv in Hsq. rewrite Hq in Hsq.
  destruct Hsq as (Ht0 & i & Hp & Hi4 & Hi0).
  assert (Hend : forall pos crc k, pos = 0 -> 0 <= k -> xz_buf_ok (set_in_pos (b_in_pos b + k) b) ->
    main_post 0 s b (Some (MBreak, set_xseq SEQ_BLOCK_START (set_crc crc (set_xvli pos (x_vli s) s)), set_in_pos (b_in_pos b + k) b, o))).
  { intros pos crc k -> Hk Hb1. eexists MBreak, _, _, _, k, []. split; [done|]. split; [apply emitted_in|].
    split; [done|]. split; [done|].
    assert (Hx : x_base (set_xseq SEQ_BLOCK_START (set_crc crc (set_xvli 0 (x_vli s) s)))) by (eapply x_base_frame; [apply Hi|done..]).
    split; [exact Hx|]. split; [done|]. split; [by apply started_in|]. split; [|split; [free_spends|by split; [lia|left]]].
    split; [done|apply Hi|]. by split. }
  destruct (Z.eqb_spec (x_check_type s) XZ_CHECK_CRC32) as [Ec|Ec]; cycle 1.
  { rewrite some_bind. cbv beta iota. rewrite bool_decide_eq_true_2 by done. cbn [negb].
    specialize (Hi0 Ec). specialize (Hend (x_pos s) (x_crc s) 0 ltac:(lia) ltac:(lia)). rewrite Z.add_0_r in Hend.
    destruct s, b. apply Hend. done. }
  destruct (validate_loop_ok (Z.to_nat 32) s b i Hb Hp Hi4 ltac:(lia)) as (ret & pos & crc & k & E & Hk & Hb1 & Hret).
  rewrite E, some_bind. cbv beta iota.
  destruct (bool_decide (ret = XZ_STREAM_END)) eqn:Er; cbn [negb].
  - apply bool_decide_eq_true in Er as ->. apply Hend; [apply Hret|lia|done].
  - apply bool_decide_eq_false in Er.
    assert (Hx : x_base (set_crc crc (set_xvli pos (x_vli s) s))) by (eapply x_base_frame; [apply Hi|done..]).
    eapply main_post_ret; [apply emitted_in|lia|done|exact Hx|done|by apply started_in; [|lia]|].
    destruct ret; try done. destruct Hret as (H1 & H2 & H3 & _). split; [|split; [free_spends|by left]].
    split; [done|apply Hi|]. unfold seq_inv. simpl. rewrite Hq. split; [done|]. exists (i + k). split; [lia|]. split; [lia|done].
Qed.

Lemma block_padding_loop_ok fuel : forall s b,
  xz_buf_ok b -> (4 - bl_compressed (x_block s) mod 4) mod 4 <= Z.of_nat fuel ->
  exists r bl n, block_padding_loop fuel s b = Some (r, set_block bl s, set_in_pos (b_in_pos b + n) b)
    /\ 0 <= n /\ xz_buf_ok (set_in_pos (b_in_pos b + n) b)
    /\ match r with
       | None => True
       | Some XZ_OK => b_in_pos b + n = in_size b
       | Some XZ_DATA_ERROR => True
       | _ => False
       end.
Proof.
  induction fuel as [|fuel IH]; intros s b Hb Hf; cbn [block_padding_loop];
    pose proof Hb as (Hbi & _ & Hi64 & _);
    assert (Hl3 : Z.land (bl_compressed (x_block s)) 3 = bl_compressed (x_block s) mod 4)
      by (change 3 with (Z.ones 2); by rewrite Z.land_ones by lia); rewrite Hl3;
    destruct (truthy _) eqn:Et; rewrite ?truthy_true, ?truthy_false in Et.
  1: Z.to_euclidean_division_equations; lia.
  1, 3: exists None, (x_block s), 0; rewrite Z.add_0_r; split; [by destruct s, b|by destruct b].
  destruct (Z.eqb_spec (b_in_pos b) (in_size b)) as [Ee|Ee].
  { exists (Some XZ_OK), (x_block s), 0. rewrite Z.add_0_r. split; [by destruct s, b|by destruct b]. }
  destruct (next_byte_ok b Hb) as (x & Ex & Hx & Hb1); [lia|]. rewrite Ex, some_bind. cbv beta iota.
  destruct (negb (x =? 0)).
  { exists (Some XZ_DATA_ERROR), (x_block s), 1. split; [by destruct s|]. by split. }
  set (bl := Block _ _ _ _).
  destruct (IH (set_block bl s) (set_in_pos (b_in_pos b + 1) b) Hb1) as (r & bl2 & n & E & Hn & Hb2 & Hr).
  { simpl. unfold u64. clear Hl3. Z.to_euclidean_division_equations. lia. }
  exists r, bl2, (1 + n). rewrite Z.add_assoc. split; [exact E|]. split; [lia|]. by split.
Qed.

Lemma seq_block_padding_ok s b o :
  x_inv s b -> x_seq s = SEQ_BLOCK_PADDING -> xz_buf_ok b -> started s b ->
  main_post 0 s b (seq_block_padding s b o).
Proof.
  intros Hi Hq Hb Hs. unfold seq_block_padding. pose proof (xi_seq _ _ Hi) as Hsq. unfold seq_inv in Hsq. rewrite Hq in Hsq.
  destruct Hsq as (Ht0 & Hp).
  destruct (block_padding_loop_ok 4 s b Hb) as (r & bl & n & E & Hn & Hb1 & Hr).
  { Z.to_euclidean_division_equations. lia. }
  rewrite E, some_bind. cbv beta iota. set (s1 := set_block _ _). set (b1 := set_in_pos _ b) in *.
  assert (Hs1 : started s1 b1) by (by apply started_in).
  assert (Hx : x_base s1) by (eapply x_base_frame; [apply Hi|done..]).
  destruct r as [r|].
  { eapply main_post_ret; [apply emitted_in|done|done|exact Hx|done|done|]. destruct r; try done.
    split; [|split; [free_spends|by left]]. split; [done|apply Hi|]. unfold seq_inv. simpl. by rewrite Hq. }
  eapply (main_post_in _ _ _ _ n); [apply (main_post_weaken 0); [lia|]; apply seq_block_check_ok; [|done|exact Hb1|exact Hs1]|done|done|done|done].
  split; [by eapply x_base_frame; [exact Hx|..]|apply Hi|]. split; [done|]. exists 0. split; [done|]. split; [lia|done].
Qed.

Lemma seq_block_uncompress_ok s b o :
  x_inv s b -> x_seq s = SEQ_BLOCK_UNCOMPRESS -> xz_buf_ok b -> started s b ->
  main_post 0 s b (seq_block_uncompress s b o).
Proof.
  intros Hi Hq Hb Hs. unfold seq_block_uncompress. pose proof (xi_seq _ _ Hi) as Hsq. unfold seq_inv in Hsq. rewrite Hq in Hsq.
  destruct Hsq as (Ht0 & Hp & h & Hl).
  destruct (dec_block_ok s b h Hl Hb) as (ret & l & b1 & n & xs & h' & bl & crc & E & Hem & Hn & Hb1 & Hlz & Hbase & Hret & _).
  rewrite E, some_bind. cbv beta iota. set (s1 := block_fed _ _ _ _ _ _).
  assert (Hs1 : started s1 b1) by (unfold started; simpl; destruct Hb, Hem; lia).
  assert (Hx : x_base s1).
  { destruct (xi_base _ _ Hi). split; [done|done|by eapply l2_base_mem|]. simpl. destruct Hbase as (_ & _ & -> & _). done. }
  destruct (bool_decide (ret = XZ_STREAM_END)) eqn:Er; cbn [negb].
  - apply bool_decide_eq_true in Er as ->. destruct Hret as [Hl1%pending_range Hsp].
    eapply main_post_trans; [exact Hem|done| | |apply (main_post_weaken 0); [lia|]; apply seq_block_padding_ok; [|done|exact Hb1|exact Hs1]];
      [done| |].
    + unfold x_spends, xpend, spends in *. rewrite Hq. simpl. lia.
    + split; [by eapply x_base_frame; [exact Hx|..]|apply Hi|]. by split.
  - apply bool_decide_eq_false in Er. eapply main_post_ret; [exact Hem|done|done|exact Hx|done|done|].
    destruct ret; try done. destruct Hret as (H1 & H2 & H3). split; [|split; [|done]].
    + split; [done|apply Hi|]. unfold seq_inv. simpl. rewrite Hq. split; [done|]. split; [done|]. by exists h'.
    + unfold x_spends, xpend. simpl. rewrite Hq. exact H2.
Qed.

(** A block header is at least eight bytes long, so that it takes a byte if there is one. *)
Lemma seq_block_header_ok m s b o :
  x_inv s b -> x_seq s = SEQ_BLOCK_HEADER -> xz_buf_ok b -> started s b ->
  m <= 0 \/ m = 1 /\ t_pos (x_temp s) = 0 /\ b_in_pos b < in_size b ->
  main_post m s b (seq_block_header fill s b o).
Proof.
  intros Hi Hq Hb Hs Hm. unfold seq_block_header. pose proof (xi_seq _ _ Hi) as Hsq. unfold seq_inv in Hsq. rewrite Hq in Hsq.
  destruct Hsq as (H8 & Hp).
  destruct (fill_temp_ok s b (x_inv_temp _ _ Hi) Hb) as (ok & t & n & E & Hn & Hb1 & Ht & Hsz & Hok & Hno & Hpr).
  rewrite E, some_bind. cbv beta iota. set (s1 := set_temp t s). set (b1 := set_in_pos _ b) in *.
  assert (Hs1 : started s1 b1) by (by apply started_in).
  assert (Hx : x_base s1) by (eapply x_base_temp; [apply Hi|done..]).
  destruct ok; cbn [negb]; cycle 1.
  { eapply main_post_ret; [apply emitted_in|done|done|exact Hx|done|done|].
    split; [|split; [free_spends|left; by apply Hno]]. split; [done|by apply Ht|]. unfold seq_inv. simpl. rewrite Hq. lia. }
  destruct (dec_block_header_ok fill s1 o Ht) as (ret & s2 & o2 & E2 & Hf & He & Hm2 & Hd2 & Hr2); [simpl; lia|done|apply Hx|].
  rewrite E2, some_bind. cbv beta iota. destruct Hf as (F1 & F2 & F3 & F4 & F5 & F6 & F7).
  assert (Hx2 : x_base s2).
  { split; [rewrite F7; apply Hx|rewrite F7; apply Hx|done|]. rewrite Hd2. injection F2 as -> _. apply Hx. }
  assert (Hs2 : started s2 b1) by (unfold started in *; by rewrite F5).
  destruct (bool_decide (ret = XZ_OK)) eqn:Er; cbn [negb].
  - apply bool_decide_eq_true in Er as ->. destruct (Hr2 eq_refl) as (T2 & T0 & P0 & C2 & L2).
    eapply (main_post_in _ _ (set_xseq SEQ_BLOCK_UNCOMPRESS s2) _ n); [|exact F2|done|done|unfold xpend, pending; simpl; by rewrite C2].
    apply (main_post_weaken 0); [destruct Hm as [|(-> & H1 & H2)]; lia|].
    apply seq_block_uncompress_ok; [|done|exact Hb1|exact Hs2].
    split; [by eapply x_base_frame; [exact Hx2|..]|apply T2|]. split; [done|]. split; [done|]. by exists [].
  - apply bool_decide_eq_false in Er. eapply main_post_ret; [apply emitted_in|done|done|exact Hx2|exact F2|done|].
    by destruct ret.
Qed.

Lemma seq_block_start_ok s b o :
  x_inv s b -> x_seq s = SEQ_BLOCK_START -> xz_buf_ok b -> started s b ->
  main_post 1 s b (seq_block_start fill s b o).
Proof.
  intros Hi Hq Hb Hs. unfold seq_block_start. pose proof (xi_seq _ _ Hi) as Hsq. unfold seq_inv in Hsq. rewrite Hq in Hsq.
  destruct Hsq as (Ht0 & Hp). pose proof Hb as (Hbi & _ & _ & _ & Hby). pose proof (xi_base _ _ Hi) as Hx.
  destruct (Z.eqb_spec (b_in_pos b) (in_size b)) as [Ee|Ee].
  { eapply main_post_ret; [apply emitted_refl|done|done|done|done|done|]. split; [done|]. split; [free_spends|by left]. }
  destruct (rd_Some (b_in b) (b_in_pos b)) as [x Ex]; [unfold in_size in *; lia|].
  pose proof (rd_Forall is_byte _ _ _ Hby Ex) as Hx8. unfold is_byte in Hx8. rewrite Ex, some_bind. cbv beta zeta.
  destruct (Z.eqb_spec x 0) as [->|Hx0].
  - assert (Hb1 : xz_buf_ok (set_in_pos (b_in_pos b + 1) b)) by (apply in_pos_ok; [done|lia|lia]).
    eexists MBreak, _, _, _, 1, []. split; [done|]. split; [apply emitted_in|]. split; [done|]. split; [done|].
    assert (Hx1 : x_base (set_xseq SEQ_INDEX (set_starts (b_in_pos b) (x_out_start s) s))) by (by eapply x_base_frame; [exact Hx|..]).
    split; [exact Hx1|]. split; [done|]. split; [unfold started; simpl; lia|].
    split; [|split; [free_spends|split; [done|by right]]]. split; [done|apply Hi|]. split; [done|by left].
  - assert (Hsize : u32 ((x + 1) * 4) = (x + 1) * 4) by (apply Z.mod_small; lia). rewrite Hsize.
    set (s1 := set_xseq _ _).
    apply (main_post_trans 1 s s1 b b 0 []); [apply emitted_refl|done|done|free_spends|].
    apply seq_block_header_ok; [|done|done|exact Hs|by right; split; [|split; [|lia]]].
    split; [by eapply x_base_frame; [exact Hx|..]|simpl; lia|]. split; [simpl; lia|done].
Qed.

Lemma seq_stream_header_ok s b o :
  x_inv s b -> x_seq s = SEQ_STREAM_HEADER -> xz_buf_ok b -> started s b ->
  main_post 0 s b (seq_stream_header fill s b o).
Proof.
  intros Hi Hq Hb Hs. unfold seq_stream_header. pose proof (xi_seq _ _ Hi) as Hsq. unfold seq_inv in Hsq. rewrite Hq in Hsq.
  destruct Hsq as (H12 & Hp).
  destruct (fill_temp_ok s b (x_inv_temp _ _ Hi) Hb) as (ok & t & n & E & Hn & Hb1 & Ht & Hsz & Hok & Hno & _).
  rewrite E, some_bind. cbv beta iota. set (s1 := set_temp t s). set (b1 := set_in_pos _ b) in *.
  assert (Hs1 : started s1 b1) by (by apply started_in).
  assert (Hx : x_base s1) by (eapply x_base_temp; [apply Hi|done..]).
  destruct ok; cbn [negb]; cycle 1.
  { eapply main_post_ret; [apply emitted_in|done|done|exact Hx|done|done|].
    split; [|split; [free_spends|left; by apply Hno]]. split; [done|by apply Ht|]. unfold seq_inv. simpl. rewrite Hq. split; [lia|done]. }
  destruct (dec_stream_header_ok (set_xseq SEQ_BLOCK_START s1) Ht) as (ret & s2 & E2 & Hs2 & Hret).
  rewrite E2, some_bind. cbv beta iota.
  assert (Hx2 : x_base s2) by (eapply x_base_frame; [exact Hx|by destruct Hs2 as [->|[c ->]]..]).
  assert (Hst2 : started s2 b1) by (by destruct Hs2 as [->|[c ->]]).
  assert (Hconf : x_conf s2 = x_conf s) by (by destruct Hs2 as [->|[c ->]]).
  destruct (bool_decide (ret = XZ_OK)) eqn:Er; cbn [negb].
  - eapply (main_post_in _ _ s2 _ n); [|done|done|done|by destruct Hs2 as [->|[c ->]]]. apply (main_post_weaken 1); [lia|].
    apply seq_block_start_ok; [|by destruct Hs2 as [->|[c ->]]|done|done].
    split; [done| |]; destruct Hs2 as [->|[c ->]]; [apply Ht|apply Ht| |]; (split; [by apply Hok|done]).
  - apply bool_decide_eq_false in Er. eapply main_post_ret; [apply emitted_in|done|done|exact Hx2|done|done|].
    by destruct ret.
Qed.

(** ** The loop *)

Definition at_start (s : xz_dec) : Z := if bool_decide (x_seq s = SEQ_BLOCK_START) then 0 else 1.

Lemma main_step_ok s b o :
  x_inv s b -> xz_buf_ok b -> started s b -> main_post (1 - at_start s) s b (main_step fill s b o).
Proof.
  intros Hi Hb Hs. unfold main_step, at_start. destruct (x_seq s) eqn:Eq; simpl;
    eauto using seq_stream_header_ok, seq_block_start_ok, seq_block_uncompress_ok, seq_block_padding_ok,
      seq_block_check_ok, seq_index_ok, seq_index_padding_ok, seq_index_crc32_ok, seq_stream_footer_ok.
  apply seq_block_header_ok; try done. by left.
Qed.

(** What a call of [dec_main] returns. *)
Definition dec_post (s : xz_dec) (b : xz_buf) (r : option (xz_ret * xz_dec * xz_buf * oracle)) : Prop :=
  exists ret s' b' o' n xs, r = Some (ret, s', b', o') /\ emitted b b' n xs /\ 0 <= n /\ xz_buf_ok b'
    /\ x_base s' /\ x_conf s' = x_conf s /\ stop_post s s' b' n xs ret.

Lemma main_loop_ok fuel : forall s b o,
  x_inv s b -> xz_buf_ok b -> started s b -> 2 * (in_size b - b_in_pos b) + at_start s < Z.of_nat fuel ->
  dec_post s b (main_loop fuel fill s b o).
Proof.
  induction fuel as [|fuel IH]; intros s b o Hi Hb Hs Hf.
  { destruct Hb. unfold at_start in Hf. case_bool_decide; lia. }
  cbn [main_loop].
  destruct (main_step_ok s b o Hi Hb Hs) as (f & s' & b' & o' & n & xs & -> & He & Hn & Hb' & Hx & Hm & Hs' & Hf').
  rewrite some_bind. cbv beta iota. destruct f as [r|].
  { exists r, s', b', o', n, xs. by do 6 (split; [done|]). }
  destruct Hf' as (Hi' & Hsp & H1 & H2).
  destruct (IH s' b' o' Hi' Hb' Hs') as (ret & s2 & b2 & o2 & n2 & ys & E & He2 & Hn2 & Hb2 & Hx2 & Hm2 & Hr2).
  { assert (in_size b' = in_size b) by (unfold in_size; by destruct He as [-> _ _ _ _ _]).
    assert (b_in_pos b' = b_in_pos b + n) by apply He. unfold at_start in *.
    destruct H2 as [-> |[-> H2]]; repeat case_bool_decide; try done; lia. }
  exists ret, s2, b2, o2, (n + n2), (xs ++ ys). split; [done|]. split; [by eapply emitted_trans|].
  split; [lia|]. split; [done|]. split; [done|]. split; [congruence|]. by eapply stop_post_trans.
Qed.

Lemma dec_main_ok s b o :
  x_inv s b -> xz_buf_ok b -> dec_post s b (dec_main fill s b o).
Proof.
  intros Hi Hb. unfold dec_main. set (s0 := set_starts _ _ s).
  assert (Hi0 : x_inv s0 b).
  { destruct Hi as [[] ? Hq]. split; [done|done|]. exact Hq. }
  pose proof Hb as (Hbi & _).
  destruct (main_loop_ok (main_fuel b) s0 b o Hi0 Hb) as (ret & H); [unfold started; simpl; lia| |by exists ret].
  unfold main_fuel, at_start. case_bool_decide; lia.
Qed.

End rounds.
