(* ===== verification/XzSession.v ===== *)
(** * Using the stream decoder

    The public functions of xz.h: what a caller may do in which order, the results of
    [xz_dec_run] and the decoder states that can be reached. *)

From S2P Require Import Prelude XzCrc32 XzDefs XzRange XzDict XzLzma XzLzmaInv XzLzma2 XzLzma2Spec XzLzma2Run XzLzma2Loop XzStream.
From S2P Require Import XzStreamSpec XzStreamRun.

(** ** Other buffers

    In multi-call mode the dictionary is memory of the decoder, so the caller may pass any
    buffer to the next call. *)

Lemma DEC_MULTI_SINGLE m : DEC_IS_SINGLE m = false -> DEC_IS_MULTI m = true.
Proof. by destruct m. Qed.

Lemma dict_rep_own d m out out' h :
  d_buf d = DictOwn m -> dict_rep d out h -> dict_rep d out' h.
Proof. unfold dict_rep. intros E [[] Hs]. rewrite E in *. split; [|done]. by split. Qed.

Lemma l2_inv_buf s b b' h :
  DEC_IS_MULTI (d_mode (s_dict s)) = true -> l2_inv s b h -> l2_inv s b' h.
Proof.
  intros Hm []. destruct (i_mem Hm) as (m & Em & _). split; try done.
  - intros Hd. destruct (i_idle Hd) as (H1 & H2 & H3). split; [by eapply dict_rep_own|]. split; [|done].
    unfold dict_bound in *. by rewrite Em in *.
  - intros H1 H2 H3. destruct (i_ready H1 H2 H3) as [(R1 & R2 & R3) R4]. split; [|done]. split; [done|].
    split; [|done]. by eapply dict_rep_own.
Qed.

Lemma x_inv_buf s b b' : DEC_IS_SINGLE (x_mode s) = false -> x_inv s b -> x_inv s b'.
Proof.
  intros Hm [Hx Ht Hq]. split; [done|done|]. unfold seq_inv in *. destruct (x_seq s); try done.
  destruct Hq as (H1 & H2 & h & Hl). split; [done|]. split; [done|]. exists h. eapply l2_inv_buf; [|done].
  rewrite (xb_mode _ Hx). by apply DEC_MULTI_SINGLE.
Qed.

(** ** Reset and initialisation *)

Lemma xz_dec_reset_ok s b : x_base s -> x_inv (xz_dec_reset s) b.
Proof. intros []. split; [done|simpl; unfold STREAM_HEADER_SIZE; lia|done]. Qed.

(** Memory the decoder may find its objects in. *)
Definition junk_ok (junk : xz_dec) : Prop :=
  zlen (t_buf (x_temp junk)) = 1024 /\ Forall is_byte (t_buf (x_temp junk))
  /\ zlen (temp_buf (x_lzma2 junk)) = TEMP_SIZE.

Lemma xz_dec_init_ok fill junk mode dict_max o :
  junk_ok junk -> 0 <= dict_max ->
  match xz_dec_init fill junk mode dict_max o with
  | (Some s, _) => x_base s /\ x_mode s = mode /\ d_size_max (s_dict (x_lzma2 s)) = dict_max
                   /\ forall b, x_inv s b
  | (None, _) => exists i, o !! i = Some false
  end.
Proof.
  intros (H1 & H2 & H3) Hd. unfold xz_dec_init. destruct (malloc o) as [ok o1] eqn:Em.
  destruct ok; cbn [negb]; cycle 1.
  { destruct o as [|[] o0]; simplify_eq/=. by exists 0%nat. }
  pose proof (xz_dec_lzma2_create_ok fill (x_lzma2 junk) mode dict_max o1 H3 Hd) as Hc.
  destruct (xz_dec_lzma2_create fill (x_lzma2 junk) mode dict_max o1) as [[l|] o2]; cycle 1.
  { destruct Hc as [i Hi]. destruct o as [|[] o0]; simplify_eq/=. by exists (S i). }
  destruct Hc as (C1 & C2 & C3). set (s := xz_dec_reset _).
  assert (Hx : x_base s) by (by split). split; [done|]. split; [done|]. split; [done|].
  intros b. by apply xz_dec_reset_ok.
Qed.

(** ** xz_dec_run *)

(** The results after which the decoder can be called again without a reset. *)
Definition can_continue (ret : xz_ret) : bool :=
  bool_decide (ret = XZ_OK) || bool_decide (ret = XZ_STREAM_END) || bool_decide (ret = XZ_BUF_ERROR).

Definition stalled (b b' : xz_buf) : Prop := b_in_pos b' = b_in_pos b /\ b_out_pos b' = b_out_pos b.

(** The results of a call. *)
Record run_result (s : xz_dec) (b : xz_buf) (ret : xz_ret) (s' : xz_dec) (b' : xz_buf) : Prop := {
  rr_base : x_base s';
  rr_mode : x_mode s' = x_mode s;
  rr_buf : xz_buf_ok b';
  rr_in : b_in b' = b_in b /\ out_size b' = out_size b
          /\ forall j, j < b_out_pos b -> rd (b_out b') j = rd (b_out b) j;
  (* the positions of a failed single call are the old ones *)
  rr_pos : if DEC_IS_SINGLE (x_mode s) && negb (bool_decide (ret = XZ_STREAM_END))
           then stalled b b' else b_in_pos b <= b_in_pos b' /\ b_out_pos b <= b_out_pos b';
  rr_next : DEC_IS_SINGLE (x_mode s) = false -> can_continue ret = true -> forall b2, x_inv s' b2;
  rr_ok : ret = XZ_OK -> DEC_IS_SINGLE (x_mode s) = false
          /\ (b_in_pos b' = in_size b' \/ b_out_pos b' = out_size b');
  rr_allow : DEC_IS_SINGLE (x_mode s) = false ->
             x_allow_buf_error s' =
               bool_decide (stalled b b') && (bool_decide (ret = XZ_OK) || bool_decide (ret = XZ_BUF_ERROR));
  rr_stall : DEC_IS_SINGLE (x_mode s) = false -> stalled b b' -> x_allow_buf_error s = true -> ret <> XZ_OK;
  rr_buf_error : DEC_IS_SINGLE (x_mode s) = false -> ret = XZ_BUF_ERROR ->
             stalled b b' /\ x_allow_buf_error s = true;
  (* the output is bounded by the input *)
  rr_spends : DEC_IS_SINGLE (x_mode s) = false -> ret = XZ_OK \/ ret = XZ_STREAM_END ->
             b_out_pos b' - b_out_pos b + xpend s' <= xpend s + 2 ^ 21 * (b_in_pos b' - b_in_pos b);
  rr_end : DEC_IS_SINGLE (x_mode s) = false -> ret = XZ_STREAM_END -> b_in_pos b < b_in_pos b' }.

Lemma run_single_ok fill s b o :
  DEC_IS_SINGLE (x_mode s) = true -> x_base s -> xz_buf_ok b ->
  exists ret s' b' o', xz_dec_run fill s b o = Some (ret, s', b', o') /\ run_result s b ret s' b'.
Proof.
  intros Hm Hx Hb. unfold xz_dec_run. rewrite Hm.
  destruct (dec_main_ok fill (xz_dec_reset s) b o (xz_dec_reset_ok s b Hx) Hb)
    as (ret & s' & b' & o' & n & xs & E & He & Hn & Hb' & Hx' & Hc & Hret).
  rewrite E, some_bind. cbv beta iota zeta. injection Hc as Hmode _. rewrite Hmode.
  change (x_mode (xz_dec_reset s)) with (x_mode s). rewrite Hm.
  set (ret' := if bool_decide (ret = XZ_OK) then _ else ret).
  assert (Hok : ret' <> XZ_OK) by (unfold ret'; case_bool_decide; [by case_Z|done]). clearbody ret'.
  eexists ret', s', _, o'. split; [done|]. pose proof Hb as (Hbi & Hbo & Hb3). pose proof (zlen_nonneg xs).
  assert (Hpos : xz_buf_ok (set_in_pos (b_in_pos b) (set_out_pos (b_out_pos b) b'))).
  { destruct He, Hb' as (_ & _ & ?). unfold xz_buf_ok, in_size, out_size in *. simpl. rewrite em_in, em_size. split; [lia|].
    split; [lia|]. by rewrite em_in, em_size in *. }
  destruct He. unfold out_size in *.
  split; try done; rewrite ?Hm; simpl; try done.
  - by case_bool_decide.
  - by case_bool_decide.
  - case_bool_decide; simpl; [lia|done].
Qed.

Lemma run_multi_ok fill s b o :
  DEC_IS_SINGLE (x_mode s) = false -> x_inv s b -> xz_buf_ok b ->
  exists ret s' b' o', xz_dec_run fill s b o = Some (ret, s', b', o') /\ run_result s b ret s' b'.
Proof.
  intros Hm Hi Hb. unfold xz_dec_run. rewrite Hm.
  destruct (dec_main_ok fill s b o Hi Hb) as (ret & s' & b' & o' & n & xs & E & He & Hn & Hb' & Hx' & Hc & Hret).
  rewrite E, some_bind. cbv beta iota zeta. injection Hc as Hmode Hallow. rewrite Hmode, Hm.
  pose proof (zlen_nonneg xs). assert (Hbase : forall a, x_base (set_allow a s')) by (intros; by destruct Hx'; split).
  assert (Hnext : ret = XZ_OK \/ ret = XZ_STREAM_END -> forall a b2, x_inv (set_allow a s') b2).
  { intros Hr a b2. assert (Hi' : x_inv s' b') by (destruct Hr; subst ret; apply Hret). destruct Hi' as [H1 H2 H3].
    apply (x_inv_buf _ b'); [by simpl; rewrite Hmode|]. split; [apply Hbase|done|done]. }
  assert (Hsp : ret = XZ_OK \/ ret = XZ_STREAM_END ->
    b_out_pos b' - b_out_pos b + xpend s' <= xpend s + 2 ^ 21 * (b_in_pos b' - b_in_pos b)).
  { intros Hr. assert (Hx : x_spends s s' n xs) by (destruct Hr; subst ret; apply Hret).
    destruct He. unfold x_spends in Hx. lia. }
  assert (Hst : stalled b b' <-> (b_in_pos b =? b_in_pos b') && (b_out_pos b =? b_out_pos b') = true).
  { unfold stalled. split; [intros [-> ->]; by rewrite !Z.eqb_refl|]. intros Hz. apply andb_true_iff in Hz as [H1 H2]. apply Z.eqb_eq in H1, H2. by split. }
  rewrite <-andb_assoc. destruct (_ && (_ && _)) eqn:Ec.
  - apply andb_true_iff in Ec as [Er Es]. apply bool_decide_eq_true in Er as ->. apply Hst in Es.
    eexists _, _, b', o'. split; [done|]. destruct He. unfold out_size in *.
    split; try done; rewrite ?Hm; simpl; try (by intros; apply Hnext; left).
    + lia.
    + intros Hif. destruct Hret as (_ & _ & Hret). by destruct (x_allow_buf_error s').
    + intros _. rewrite bool_decide_eq_true_2 by done. by destruct (x_allow_buf_error s').
    + intros _ _ Ha. by rewrite Hallow, Ha.
    + intros _ Hif. rewrite Hallow in Hif. by destruct (x_allow_buf_error s).
    + intros _ _. apply Hsp. by left.
    + intros _ Hif. by destruct (x_allow_buf_error s').
  - assert (Hns : ret = XZ_OK -> ~ stalled b b').
    { intros -> Hs. apply Hst in Hs. rewrite Hs in Ec. done. }
    eexists _, _, b', o'. split; [done|]. destruct He. unfold out_size in *.
    split; try done; rewrite ?Hm; simpl; try done.
    + lia.
    + intros _ Hcan b2. apply Hnext. destruct ret; try done; [by left|by right].
    + intros ->. split; [done|]. apply Hret.
    + intros _. destruct ret; try done; simpl; rewrite ?andb_false_r; try done.
      rewrite bool_decide_eq_false_2 by (by apply Hns). done.
    + intros _ Hs _ Ho. by apply Hns.
    + intros _ ->. done.
    + intros _ ->. destruct Hret as (_ & _ & Hret). lia.
Qed.

(** ** Reachable decoders

    The states a caller can bring a decoder into; the flag says whether another call is
    allowed, or the decoder must be reset first. *)
Inductive reach (fill : Z -> Z) : xz_dec -> bool -> Prop :=
| reach_init junk mode dict_max o s o' :
    junk_ok junk -> 0 <= dict_max -> xz_dec_init fill junk mode dict_max o = (Some s, o') -> reach fill s true
| reach_run s b o ret s' b' o' :
    reach fill s true -> xz_buf_ok b -> xz_dec_run fill s b o = Some (ret, s', b', o') ->
    reach fill s' (can_continue ret || DEC_IS_SINGLE (x_mode s))
| reach_reset s r : reach fill s r -> reach fill (xz_dec_reset s) true.

Lemma reach_inv fill s r :
  reach fill s r ->
  x_base s /\ (r = true -> DEC_IS_SINGLE (x_mode s) = false -> forall b, x_inv s b).
Proof.
  induction 1 as [junk mode dict_max o s o' Hj Hd E|s b o ret s' b' o' _ [Hx Hi] Hb E|s r _ [Hx _]].
  - pose proof (xz_dec_init_ok fill junk mode dict_max o Hj Hd) as Hinit. rewrite E in Hinit.
    destruct Hinit as (H1 & _ & _ & H2). by split.
  - assert (Hrun : exists ret s' b' o', xz_dec_run fill s b o = Some (ret, s', b', o') /\ run_result s b ret s' b').
    { destruct (DEC_IS_SINGLE (x_mode s)) eqn:Em; [by apply run_single_ok|apply run_multi_ok; [done|by apply Hi|done]]. }
    destruct Hrun as (ret1 & s1 & b1 & o1 & E1 & Hr). rewrite E in E1. injection E1 as <- <- <- <-.
    split; [apply Hr|]. intros Hc Hm. rewrite (rr_mode _ _ _ _ _ Hr) in Hm. rewrite Hm, orb_false_r in Hc.
    by apply (rr_next _ _ _ _ _ Hr).
  - split; [apply (xz_dec_reset_ok s (XB [] 0 [] 0) Hx)|]. intros _ _ b. by apply xz_dec_reset_ok.
Qed.

(** Every allowed call returns, with the promises of [run_result]. *)
Lemma reach_run_ok fill s b o :
  reach fill s true -> xz_buf_ok b ->
  exists ret s' b' o', xz_dec_run fill s b o = Some (ret, s', b', o') /\ run_result s b ret s' b'.
Proof.
  intros Hr Hb. destruct (reach_inv fill s true Hr) as [Hx Hi].
  destruct (DEC_IS_SINGLE (x_mode s)) eqn:Em; [by apply run_single_ok|apply run_multi_ok; [done|by apply Hi|done]].
Qed.

(** * A block over several calls

    [dec_block] is called once per buffer of the caller.  Over a whole block the check is
    the CRC32 of everything that was written, and the sizes are those of the header. *)

Lemma emitted_unique b b' n xs m ys : emitted b b' n xs -> emitted b b' m ys -> n = m /\ xs = ys.
Proof.
  intros [] []. split; [lia|]. apply rd_ext. intros i.
  destruct (decide (0 <= i < zlen xs)) as [Hi|Hi].
  - rewrite <-em_data, <-em_data0 by lia. done.
  - rewrite !rd_None; [done| |]; lia.
Qed.

Lemma lz_copy_bytes n dist h : Forall is_byte h -> Forall is_byte (lz_copy n dist h).
Proof.
  revert h. induction n as [|n IH]; intros h Hh; simpl; [done|]. apply IH, Forall_app. split; [done|].
  apply Forall_singleton. destruct (rd h _) as [x|] eqn:E; [|done]. by eapply rd_Forall.
Qed.

Lemma lz_out_bytes h xs h' : lz_out h xs h' -> Forall is_byte h -> Forall is_byte xs.
Proof.
  induction 1 as [h|h byte xs h' Hb _ IH|h n dist zs xs h' Hd Hn Hc _ IH|h xs h' _ IH]; intros Hh.
  - done.
  - apply Forall_cons. split; [done|]. apply IH, Forall_app. by rewrite Forall_singleton.
  - assert (Hz : Forall is_byte (h ++ zs)) by (rewrite <-Hc; by apply lz_copy_bytes).
    apply Forall_app. split; [|by apply IH]. by apply Forall_app in Hz as [].
  - by apply IH.
Qed.

(** The calls that decode a block from [s] on: the bytes read and written in all of them,
    the result of the last one and the final state.  All the earlier ones returned [XZ_OK]. *)
Inductive block_calls : xz_dec -> Z -> list Z -> xz_ret -> xz_dec -> Prop :=
| bc_last s b n xs ret s' b' :
    xz_buf_ok b -> dec_block s b = Some (ret, s', b') -> emitted b b' n xs -> block_calls s n xs ret s'
| bc_more s b n xs s1 b1 m ys ret s' :
    xz_buf_ok b -> dec_block s b = Some (XZ_OK, s1, b1) -> emitted b b1 n xs ->
    block_calls s1 m ys ret s' -> block_calls s (n + m) (xs ++ ys) ret s'.

(** A block whose decoder is in multi-call mode, with the history [h] of this block. *)
Definition block_ready (s : xz_dec) (h : list Z) : Prop :=
  DEC_IS_MULTI (d_mode (s_dict (x_lzma2 s))) = true /\ (forall b, l2_inv (x_lzma2 s) b h) /\ Forall is_byte h.

Lemma lz_out_hist h xs h' : lz_out h xs h' -> Forall is_byte h -> Forall is_byte h'.
Proof.
  induction 1 as [h|h byte xs h' Hb _ IH|h n dist zs xs h' Hd Hn Hc _ IH|h xs h' _ IH]; intros Hh.
  - done.
  - apply IH, Forall_app. by rewrite Forall_singleton.
  - apply IH. rewrite <-Hc. by apply lz_copy_bytes.
  - by apply IH.
Qed.

Lemma dec_block_call s b h ret s' b' n xs :
  block_ready s h -> xz_buf_ok b -> dec_block s b = Some (ret, s', b') -> emitted b b' n xs ->
  ret <> XZ_DATA_ERROR ->
  block_recorded s ret n xs (x_block s') (x_crc s') /\ Forall is_byte xs
  /\ x_check_type s' = x_check_type s /\ x_block_header s' = x_block_header s
  /\ (ret = XZ_OK -> exists h', block_ready s' h').
Proof.
  intros (Hm & Hl & Hh) Hb E Hem Hret.
  destruct (dec_block_ok s b h (Hl b) Hb)
    as (r1 & l & b1 & n1 & xs1 & h' & bl & crc & E1 & He & Hn & Hb1 & Hlz & Hbase & Hpost & Hrec).
  rewrite E in E1. injection E1 as <- -> <-. destruct (emitted_unique _ _ _ _ _ _ He Hem) as [-> ->].
  split; [by apply Hrec|]. split; [by eapply lz_out_bytes|]. split; [done|]. split; [done|].
  intros ->. exists h'. pose proof Hbase as (_ & _ & Hmode & _).
  assert (Hm' : DEC_IS_MULTI (d_mode (s_dict l)) = true) by (by rewrite Hmode).
  split; [exact Hm'|]. split; [|by eapply lz_out_hist]. intros b2. by eapply l2_inv_buf; [|apply Hpost].
Qed.

Definition block_total (s s' : xz_dec) (ret : xz_ret) (n : Z) (xs : list Z) : Prop :=
  let bh := x_block_header s in
  x_crc s' = (if x_check_type s =? XZ_CHECK_CRC32 then xz_crc32 xs (x_crc s) else x_crc s)
  /\ bl_compressed (x_block s') = u64 (bl_compressed (x_block s) + n)
  /\ bl_uncompressed (x_block s') = u64 (bl_uncompressed (x_block s) + zlen xs)
  /\ (ret = XZ_STREAM_END ->
      (bh_compressed bh = VLI_UNKNOWN \/ bh_compressed bh = bl_compressed (x_block s'))
      /\ (bh_uncompressed bh = VLI_UNKNOWN \/ bh_uncompressed bh = bl_uncompressed (x_block s'))).

Lemma u64_add_l x y : u64 (u64 x + y) = u64 (x + y).
Proof. unfold u64. by rewrite Zplus_mod_idemp_l. Qed.

Lemma block_calls_ok s n xs ret s' :
  block_calls s n xs ret s' -> forall h, block_ready s h -> ret <> XZ_DATA_ERROR -> block_total s s' ret n xs.
Proof.
  induction 1 as [s b n xs ret s' b' Hb E He|s b n xs s1 b1 m ys ret s' Hb E He Hc IH]; intros h Hr Hret.
  - destruct (dec_block_call s b h ret s' b' n xs Hr Hb E He Hret) as ((R1 & R2 & R3 & _ & _ & R6) & _).
    split; [done|]. split; [done|]. split; [done|]. intros Hend. split; by apply R6.
  - destruct (dec_block_call s b h XZ_OK s1 b1 n xs Hr Hb E He ltac:(done)) as ((R1 & R2 & R3 & _) & Hby & Hct & Hbh & Hnext).
    destruct (Hnext eq_refl) as [h' Hr']. destruct (IH h' Hr' Hret) as (I1 & I2 & I3 & I4).
    split; [|split; [|split]].
    + rewrite I1, Hct, R1. destruct (_ =? _); [|done]. symmetry. by apply xz_crc32_app.
    + rewrite I2, R2, u64_add_l. f_equal. lia.
    + rewrite I3, R3, u64_add_l, zlen_app. f_equal. lia.
    + by rewrite <-Hbh.
Qed.

(** * The caller in Magisk's init

    [unxz] of native/src/init/rootdir.cpp feeds the whole file to the decoder in a loop and
    writes each round of output.  The loop ends on every input, because the output of the
    decoder is bounded by the input. *)

(** What the rest of the file can still produce, one more for each byte that is left. *)
Definition unxz_measure (s : xz_dec) (b : xz_buf) : Z :=
  xpend s + (2 ^ 21 + 1) * (in_size b - b_in_pos b).

Lemma unxz_loop_ok fuel : forall fill s b o file,
  DEC_IS_SINGLE (x_mode s) = false -> (forall b2, x_inv s b2) -> xz_buf_ok b ->
  b_out_pos b = 0 -> 0 < out_size b -> unxz_measure s b < Z.of_nat fuel ->
  exists ok out, unxz_loop fuel fill s b o file = Some (ok, file ++ out)
    /\ zlen out <= xpend s + 2 ^ 21 * (in_size b - b_in_pos b).
Proof.
  induction fuel as [|fuel IH]; intros fill s b o file Hm Hi Hb Ho Hsz Hf.
  { pose proof (xpend_nonneg _ _ (Hi b)). destruct Hb as (Hb & _). unfold unxz_measure in Hf. lia. }
  cbn [unxz_loop]. destruct (run_multi_ok fill s b o Hm (Hi b) Hb) as (ret & s' & b' & o' & E & R).
  rewrite E, some_bind. cbv beta iota. pose proof (rr_buf _ _ _ _ _ R) as Hb'. pose proof Hb' as (Hbi' & Hbo' & _).
  destruct (rr_in _ _ _ _ _ R) as (Ein & Eout & _). pose proof (xpend_nonneg _ _ (Hi b)) as Hx. pose proof Hb as (Hbi & _).
  destruct (negb (bool_decide (ret = XZ_OK)) && _) eqn:Er.
  { exists false, []. rewrite app_nil_r. split; [done|]. unfold zlen. simpl length. lia. }
  assert (Hret : ret = XZ_OK \/ ret = XZ_STREAM_END).
  { destruct ret; try discriminate Er; [by left|by right]. }
  pose proof (rr_spends _ _ _ _ _ R Hm Hret) as Hsp. rewrite Ho, Z.sub_0_r in Hsp.
  destruct (rds (b_out b') 0 (b_out_pos b')) as [xs|] eqn:Ex; [|rewrite rds_Some in Ex by (unfold out_size in *; lia); done].
  pose proof (rds_zlen _ _ _ _ Ex) as Hxs. rewrite some_bind. cbv beta. cbn [b_in_pos set_out_pos].
  change (in_size (set_out_pos 0 b')) with (in_size b').
  assert (Hin : in_size b' = in_size b) by (unfold in_size; by rewrite Ein).
  assert (Hnext : forall b2, x_inv s' b2) by (intros; apply (rr_next _ _ _ _ _ R Hm); by destruct Hret as [-> | ->]).
  pose proof (xpend_nonneg _ _ (Hnext b)) as Hx'.
  destruct (Z.eqb_spec (b_in_pos b') (in_size b')) as [He|Hne]; cbn [negb].
  { exists true, xs. split; [done|]. lia. }
  (* a round that is not the last one filled the output or finished a stream *)
  assert (Hprog : 0 < b_out_pos b' \/ b_in_pos b < b_in_pos b').
  { destruct Hret as [-> | ->]; [left|right; by apply (rr_end _ _ _ _ _ R Hm)].
    destruct (rr_ok _ _ _ _ _ R eq_refl) as [_ [?|Hfull]]; [done|]. lia. }
  pose proof (rr_pos _ _ _ _ _ R) as Hpos. rewrite Hm in Hpos. cbn in Hpos.
  destruct (IH fill s' (set_out_pos 0 b') o' (file ++ xs)) as (ok & out & E2 & Hout).
  - by rewrite (rr_mode _ _ _ _ _ R).
  - done.
  - destruct Hb' as (H1 & H2 & H3). split; [done|]. split; [simpl; change (out_size (set_out_pos 0 b')) with (out_size b'); lia|done].
  - done.
  - change (out_size (set_out_pos 0 b')) with (out_size b'). lia.
  - unfold unxz_measure in *. change (in_size (set_out_pos 0 b')) with (in_size b'). simpl. lia.
  - exists ok, (xs ++ out). rewrite app_assoc. split; [exact E2|]. rewrite zlen_app.
    change (in_size (set_out_pos 0 b')) with (in_size b') in Hout. simpl in Hout. lia.
Qed.

(** The fuel that is enough for any file of this size. *)
Definition unxz_fuel (bytes : list Z) : Z := (2 ^ 21 + 1) * zlen bytes + 1.

Lemma unxz_ok fuel fill junk bytes o :
  junk_ok junk -> Forall is_byte bytes -> zlen bytes < 2 ^ 64 ->
  is_Some (fst (xz_dec_init fill junk XZ_DYNALLOC (2 ^ 26) o)) -> unxz_fuel bytes <= Z.of_nat fuel ->
  exists ok file, unxz fuel fill junk bytes o = Some (ok, file) /\ zlen file <= 2 ^ 21 * zlen bytes.
Proof.
  intros Hj Hby Hlen [s Hs] Hf. unfold unxz. pose proof (xz_dec_init_ok fill junk XZ_DYNALLOC (2 ^ 26) o Hj ltac:(lia)) as Hinit.
  destruct (xz_dec_init fill junk XZ_DYNALLOC (2 ^ 26) o) as [r o1] eqn:E. simpl in Hs. subst r.
  destruct Hinit as (Hx & Hm & _ & Hi). rewrite some_bind. cbv beta.
  assert (Hseq : xpend s = 0).
  { apply xpend_other. unfold xz_dec_init in E. destruct (malloc o) as [[] ?]; [|done]. cbn [negb] in E.
    destruct (xz_dec_lzma2_create _ _ _ _ _) as [[] ?]; [|done]. by injection E as <- _. }
  set (b := XB bytes 0 (replicate (Z.to_nat 8192) 0) 0).
  assert (Hos : out_size b = 8192) by (vm_compute; reflexivity).
  destruct (unxz_loop_ok fuel fill s b o1 []) as (ok & out & E2 & Hout).
  - by rewrite Hm.
  - done.
  - split; [simpl; pose proof (zlen_nonneg bytes); unfold in_size; simpl; lia|]. rewrite Hos. simpl b_out_pos.
    split; [lia|]. split; [done|]. split; [done|done].
  - done.
  - rewrite Hos. lia.
  - unfold unxz_measure, unxz_fuel, in_size in *. simpl. lia.
  - exists ok, out. split; [exact E2|]. rewrite Hseq in Hout. unfold in_size in Hout. simpl in Hout. lia.
Qed.
