(* ===== verification/XzProps.v ===== *)
(** * Properties of the xz decoder

    The theorems about xz-embedded, from the CRC32 up to sessions of the stream decoder,
    and about the caller in Magisk's init, each with a concrete instance. *)

From S2P Require Import Prelude XzCrc32 XzDefs XzRange XzDict XzLzma XzLzmaInv XzLzma2 XzLzma2Spec XzLzma2Run XzLzma2Loop XzStream.
From S2P Require Import XzStreamSpec XzStreamRun XzSession.

(** ** Concrete data for the witnesses *)

(** A decoder object as [malloc] may return it. *)
Definition zero_dict : dictionary := Dict DictNull 0 0 0 0 0 0 0 0 XZ_SINGLE.
Definition zero_lzma2 : xz_dec_lzma2 :=
  XzLzma2 (RC 0 0 0 [] 0 0) zero_dict (L2 SEQ_CONTROL SEQ_CONTROL 0 0 false false)
    (Lzma 0 0 0 0 0 0 0 0 0) (replicate (Z.to_nat PROBS_TOTAL) 0) 0 (replicate (Z.to_nat TEMP_SIZE) 0).
Definition zero_dec : xz_dec :=
  XzDec SEQ_STREAM_HEADER 0 0 0 0 0 0 XZ_SINGLE false (BlockHeader 0 0 0) (Block 0 0 0 hash0)
    (Index SEQ_INDEX_COUNT 0 0 hash0) (Temp 0 0 (replicate 1024 0)) zero_lzma2.
Definition zero_fill (i : Z) : Z := 0.

(** A file of the xz command line tool with a CRC32 check, and its contents. *)
Definition sample_xz : list Z :=
  [253;55;122;88;90;0;0;1;105;34;222;54;2;0;33;1;0;0;0;0;55;39;151;214;224;0;48;0;25;93;0;52;25;73;238;141;
   233;86;10;231;121;157;46;237;13;3;25;143;52;46;26;217;90;69;0;0;0;0;0;0;139;198;224;157;0;1;49;49;163;178;
   5;183;144;66;153;13;1;0;0;0;0;1;89;90].
Definition sample_text : list Z :=
  [104;101;108;108;111;32;104;101;108;108;111;32;104;101;108;108;111;32;104;101;108;108;111;44;32;
   119;111;114;108;100;32;119;111;114;108;100;32;97;98;99;97;98;99;97;98;99;97;98;99].

Definition dec0 : option xz_dec := fst (xz_dec_init zero_fill zero_dec XZ_DYNALLOC (2 ^ 26) []).
Definition sample_buf : xz_buf := XB sample_xz 0 (replicate 100 0) 0.

Lemma zero_dec_ok : junk_ok zero_dec.
Proof. split; [done|]. split; [|done]. apply Forall_replicate. unfold is_byte. lia. Defined.

Lemma sample_buf_ok : xz_buf_ok sample_buf.
Proof. unfold xz_buf_ok. split; [vm_compute; done|]. split; [vm_compute; done|]. split; [done|]. split; [done|].
  unfold sample_buf, sample_xz, is_byte. simpl. repeat constructor; lia. Defined.

Lemma dec0_reach : exists s, dec0 = Some s /\ reach zero_fill s true.
Proof.
  destruct (xz_dec_init zero_fill zero_dec XZ_DYNALLOC (2 ^ 26) []) as [r o] eqn:E.
  assert (Hr : dec0 = r) by (unfold dec0; by rewrite E). destruct r as [s|]; [|vm_compute in Hr; discriminate Hr].
  exists s. split; [done|]. eapply reach_init; [apply zero_dec_ok| |exact E]. done.
Defined.

(** ** Sessions *)

(** The first 12 bytes of a file, a block header of 8 bytes with a wrong CRC32, and 4 bytes
    behind it. *)
Definition damaged_xz : list Z := take 12 sample_xz ++ [1;0;0;0;0;0;0;0] ++ [1;0;0;0].
Definition damaged_buf : xz_buf := XB damaged_xz 0 [] 0.

(** The results of [n] calls on one buffer without a reset; [None] is undefined behaviour. *)
Fixpoint run_again (n : nat) (s : xz_dec) (b : xz_buf) : list (option xz_ret) :=
  match n with
  | O => []
  | S n' => match xz_dec_run zero_fill s b [] with
            | Some (ret, s', b', _) => Some ret :: run_again n' s' b'
            | None => [None]
            end
  end.

Lemma damaged_buf_ok : xz_buf_ok damaged_buf.
Proof. unfold xz_buf_ok. split; [vm_compute; done|]. split; [vm_compute; done|]. split; [done|]. split; [done|].
  unfold damaged_buf, damaged_xz, sample_xz, is_byte. simpl. repeat constructor; lia. Qed.

Lemma damaged_runs :
  match dec0 with Some s => run_again 3 s damaged_buf | None => [] end = [Some XZ_DATA_ERROR; Some XZ_DATA_ERROR; None].
Proof. vm_compute. reflexivity. Qed.

(** C4: A caller that creates a decoder, feeds it any buffers of any contents in any number
    of calls, and resets a multi-call decoder after an error before it calls it again, never
    makes it access memory outside its objects or the buffers, shift too far, or loop
    forever: every call returns, the input is not written, the output only from its position
    on, positions only advance (those of a failed single call are restored), and [XZ_OK]
    means that the input is used up or the output is full.  The reset is necessary: on a
    block header of 8 bytes with a wrong CRC32 the decoder returns [XZ_DATA_ERROR] and, called
    again, again, and the third call, for which temp.size has wrapped around below 0, leaves
    the temporary buffer. *)
Theorem xz_session_safe :
  (forall fill s b o, reach fill s true -> xz_buf_ok b ->
     exists ret s' b' o', xz_dec_run fill s b o = Some (ret, s', b', o') /\ run_result s b ret s' b') /\
  (exists s, reach zero_fill s true /\ xz_buf_ok damaged_buf /\
     run_again 3 s damaged_buf = [Some XZ_DATA_ERROR; Some XZ_DATA_ERROR; None]).
Proof.
  split; [exact reach_run_ok|]. destruct dec0_reach as (s & E & Hr). exists s. split; [done|]. split; [exact damaged_buf_ok|].
  pose proof damaged_runs as H. rewrite E in H. exact H.
Qed.

Lemma xz_session_witness :
  exists s, dec0 = Some s /\ exists ret s' b' o',
    xz_dec_run zero_fill s sample_buf [] = Some (ret, s', b', o') /\ run_result s sample_buf ret s' b'.
Proof.
  destruct dec0_reach as (s & E & Hr). exists s. split; [done|].
  exact (proj1 xz_session_safe zero_fill s sample_buf [] Hr sample_buf_ok).
Defined.

(** C31: Of two consecutive calls that both return [XZ_OK] at least one reads input or writes
    output, whatever buffers they get: a caller that loops on [XZ_OK] cannot loop without
    progress. *)
Theorem xz_progress fill s b1 o1 s1 b1' o1' b2 o2 s2 b2' o2' :
  reach fill s true -> xz_buf_ok b1 -> xz_buf_ok b2 ->
  xz_dec_run fill s b1 o1 = Some (XZ_OK, s1, b1', o1') ->
  xz_dec_run fill s1 b2 o2 = Some (XZ_OK, s2, b2', o2') ->
  b_in_pos b1 < b_in_pos b1' \/ b_out_pos b1 < b_out_pos b1'
  \/ b_in_pos b2 < b_in_pos b2' \/ b_out_pos b2 < b_out_pos b2'.
Proof.
  intros Hr Hb1 Hb2 E1 E2. destruct (reach_run_ok fill s b1 o1 Hr Hb1) as (r & t & c & p & E & R1).
  rewrite E1 in E. injection E as <- <- <- <-. destruct (rr_ok _ _ _ _ _ R1 eq_refl) as [Hm _].
  pose proof (reach_run _ _ _ _ _ _ _ _ Hr Hb1 E1) as Hr1. cbn in Hr1.
  destruct (reach_run_ok fill s1 b2 o2 Hr1 Hb2) as (r & t & c & p & E & R2).
  rewrite E2 in E. injection E as <- <- <- <-. destruct (rr_ok _ _ _ _ _ R2 eq_refl) as [Hm1 _].
  pose proof (rr_pos _ _ _ _ _ R1) as P1. rewrite Hm in P1. pose proof (rr_pos _ _ _ _ _ R2) as P2. rewrite Hm1 in P2.
  cbn in P1, P2. destruct (decide (stalled b1 b1')) as [S1|S1]; [|unfold stalled in S1; lia].
  destruct (decide (stalled b2 b2')) as [S2|S2]; [|unfold stalled in S2; lia].
  destruct (rr_stall _ _ _ _ _ R2 Hm1 S2); [|done]. rewrite (rr_allow _ _ _ _ _ R1 Hm). by rewrite bool_decide_eq_true_2.
Qed.

(** The result code of a call, and the next decoder. *)
Definition ret_of (r : option (xz_ret * xz_dec * xz_buf * oracle)) : option xz_ret := (fun x => x.1.1.1) <$> r.
Definition dec_of (r : option (xz_ret * xz_dec * xz_buf * oracle)) : xz_dec :=
  match r with Some (_, s, _, _) => s | None => zero_dec end.

Definition part_buf (i n : nat) : xz_buf := XB (take n (drop i sample_xz)) 0 (replicate 100 0) 0.

Lemma part_buf_ok i n : (i + n <= 84)%nat -> xz_buf_ok (part_buf i n).
Proof.
  intros Hi. assert (Hl : in_size (part_buf i n) = Z.of_nat n).
  { unfold in_size, zlen. simpl b_in. rewrite length_take, length_drop. change (length sample_xz) with 84%nat. lia. }
  split; [rewrite Hl; simpl; lia|]. split; [vm_compute; done|]. split; [rewrite Hl; lia|]. split; [done|].
  apply Forall_take, Forall_drop. apply sample_buf_ok.
Defined.

Lemma xz_progress_witness :
  exists s1 b1' o1' s2 b2' o2',
    xz_dec_run zero_fill (default zero_dec dec0) (part_buf 0 5) [] = Some (XZ_OK, s1, b1', o1')
    /\ xz_dec_run zero_fill s1 (part_buf 5 20) [] = Some (XZ_OK, s2, b2', o2')
    /\ (0 < b_in_pos b1' \/ 0 < b_out_pos b1' \/ 0 < b_in_pos b2' \/ 0 < b_out_pos b2').
Proof.
  destruct dec0_reach as (s & E & Hr). rewrite E. simpl.
  assert (C1 : ret_of (xz_dec_run zero_fill (default zero_dec dec0) (part_buf 0 5) []) = Some XZ_OK) by (vm_compute; reflexivity).
  assert (C2 : ret_of (xz_dec_run zero_fill (dec_of (xz_dec_run zero_fill (default zero_dec dec0) (part_buf 0 5) [])) (part_buf 5 20) [])
    = Some XZ_OK) by (vm_compute; reflexivity).
  rewrite E in C1, C2. simpl in C1, C2.
  destruct (xz_dec_run zero_fill s (part_buf 0 5) []) as [[[[r1 s1] b1'] o1']|] eqn:E1; [|discriminate C1].
  injection C1 as ->. simpl in C2.
  destruct (xz_dec_run zero_fill s1 (part_buf 5 20) []) as [[[[r2 s2] b2'] o2']|] eqn:E2; [|discriminate C2].
  injection C2 as ->. exists s1, b1', o1', s2, b2', o2'. split; [done|]. split; [done|].
  exact (xz_progress zero_fill s (part_buf 0 5) [] s1 b1' o1' (part_buf 5 20) [] s2 b2' o2' Hr
    (part_buf_ok 0 5 ltac:(lia)) (part_buf_ok 5 20 ltac:(lia)) E1 E2).
Defined.

(** Calls on the bytes of the file one at a time: the last result and all the output. *)
Fixpoint feed_bytes (s : xz_dec) (is_ : list nat) (last : xz_ret) (out : list Z) : xz_ret * list Z :=
  match is_ with
  | [] => (last, out)
  | i :: rest =>
    match xz_dec_run zero_fill s (part_buf i 1) [] with
    | Some (ret, s', b', _) => feed_bytes s' rest ret (out ++ take (Z.to_nat (b_out_pos b')) (b_out b'))
    | None => (last, out)
    end
  end.

(** The decoder on a real file: one call on the whole file returns [XZ_STREAM_END] and
    the text, and calls on its bytes one at a time, where every state of the decoder is
    left and resumed, end in the same way. *)
Theorem xz_sample_decodes :
  (fun x => (x.1.1.1, b_in_pos x.1.2, take (Z.to_nat (b_out_pos x.1.2)) (b_out x.1.2)))
    <$> xz_dec_run zero_fill (default zero_dec dec0) sample_buf [] = Some (XZ_STREAM_END, 84, sample_text)
  /\ feed_bytes (default zero_dec dec0) (seq 0 84) XZ_OK [] = (XZ_STREAM_END, sample_text).
Proof. split; vm_compute; reflexivity. Qed.

(** ** CRC32 *)

(** C37: The table-driven CRC32 is the bit-serial one of IEEE 802.3, from any start value, and
    can be computed piecewise; its check value is 0xCBF43926. *)
Theorem xz_crc32_correct a b crc :
  Forall is_byte (a ++ b) ->
  xz_crc32 (a ++ b) crc = crc32_reference (a ++ b) crc
  /\ xz_crc32 (a ++ b) crc = xz_crc32 b (xz_crc32 a crc)
  /\ 0 <= xz_crc32 (a ++ b) crc < 2 ^ 32
  /\ xz_crc32 [0x31; 0x32; 0x33; 0x34; 0x35; 0x36; 0x37; 0x38; 0x39] 0 = 0xCBF43926.
Proof.
  intros H. split; [by apply xz_crc32_reference|]. split; [apply xz_crc32_app; by apply Forall_app in H as []|].
  split; [by apply xz_crc32_range|]. vm_compute. reflexivity.
Qed.

Lemma xz_crc32_witness :
  xz_crc32 ([1; 2] ++ [3]) 0 = crc32_reference [1; 2; 3] 0 /\ xz_crc32 ([1; 2] ++ [3]) 0 = xz_crc32 [3] (xz_crc32 [1; 2] 0).
Proof.
  destruct (xz_crc32_correct [1; 2] [3] 0) as (H1 & H2 & _); [repeat constructor; unfold is_byte; lia|]. by split.
Defined.

(** CRC32 detects every change of a single byte, wherever it is. *)
Theorem xz_crc32_single_byte pre b1 b2 post crc :
  Forall is_byte (pre ++ b1 :: post) -> is_byte b2 -> b1 <> b2 ->
  xz_crc32 (pre ++ b1 :: post) crc <> xz_crc32 (pre ++ b2 :: post) crc.
Proof. intros H1 H2 Hne E. by apply Hne, (xz_crc32_detects pre b1 b2 post crc). Qed.

Lemma xz_crc32_single_byte_witness : xz_crc32 ([1] ++ 2 :: [3]) 0 <> xz_crc32 ([1] ++ 7 :: [3]) 0.
Proof. apply (xz_crc32_single_byte [1] 2 7 [3] 0); [repeat constructor; unfold is_byte; lia|unfold is_byte; lia|lia]. Defined.

(** ** Integers *)

(** A variable-length integer of up to 63 bits that is written in the shortest form is
    read back, whatever follows it, and nothing else is accepted: the bytes [dec_vli] takes
    for a value are its shortest form. *)
Theorem vli_roundtrip s x inp p n rest p' vli :
  x_pos s = 0 -> 0 <= x < 2 ^ 63 -> Forall is_byte inp -> 0 <= p -> n <= zlen inp ->
  (drop (Z.to_nat p) inp = vli_encode x ++ rest -> p + zlen (vli_encode x) <= n ->
   dec_vli s inp p n = Some (XZ_STREAM_END, set_xvli 0 x s, p + zlen (vli_encode x)))
  /\ (dec_vli s inp p n = Some (XZ_STREAM_END, set_xvli 0 vli s, p') ->
      0 <= vli < 2 ^ 63 /\ rds inp p (p' - p) = Some (vli_encode vli)).
Proof.
  intros Hp0 Hx Hby Hp Hn. unfold dec_vli. rewrite Hp0. simpl (0 =? 0).
  assert (Hv : vli_pos 0 0) by done. cbv beta iota. split.
  - intros Ed Hle. pose proof (zlen_nonneg (vli_encode x)).
    rewrite (vli_loop_digits 9 _ inp p n 0 0 x rest Hp Hv ltac:(done) ltac:(lia) Hx ltac:(by left) Ed Hle)
      by (change (vli_digits 9 x) with (vli_encode x); lia).
    rewrite some_bind. cbv beta iota. by replace (0 + x * 2 ^ 0) with x by lia.
  - intros E. destruct (vli_loop _ _ _ _ _ _) as [[[[ret pos] v] q]|] eqn:El; [|discriminate E].
    rewrite some_bind in E. injection E as -> -> <- <-.
    destruct (vli_loop_canonical 9 _ inp p n 0 0 0 v q Hby Hp Hn Hv ltac:(done) ltac:(lia) El)
      as (y & Hy & _ & -> & Er).
    replace (0 + y * 2 ^ 0) with y by lia. by split.
Qed.

Lemma vli_roundtrip_witness :
  vli_encode 300 = [172; 2]
  /\ dec_vli zero_dec ([172; 2] ++ [9]) 0 3 = Some (XZ_STREAM_END, set_xvli 0 300 zero_dec, 2).
Proof.
  split; [done|].
  destruct (vli_roundtrip zero_dec 300 ([172; 2] ++ [9]) 0 3 [9] 0 0) as [H _]; [done|lia| |lia|done|by apply H].
  repeat constructor; unfold is_byte; lia.
Defined.

(** ** Dictionary and LZMA *)

(** C26: The circular buffer implements the history of decoded bytes: [dict_get] reads the
    byte at a distance, [dict_put] appends one, and [dict_repeat] refuses a distance beyond
    the history or the dictionary size without changing anything, and otherwise appends an
    LZ77 copy of as much of the match as the limit allows and returns what is left of it. *)
Theorem dict_refines_history d out h byte dist len :
  dict_rep d out h -> is_byte byte -> 0 <= dist -> 0 < len < 2 ^ 32 ->
  (dist < d_full d -> dict_get d out dist = rd h (zlen h - 1 - dist))
  /\ (d_pos d < d_end d -> exists d' out', dict_put d out byte = Some (d', out')
        /\ dict_rep d' out' (h ++ [byte]) /\ moved d out d' out' 1)
  /\ (d_pos d < d_limit d <= d_end d ->
      if (d_full d <=? dist) || (d_size d <=? dist)
      then dict_repeat d out len dist = Some (false, len, d, out)
      else exists d' out', let n := Z.min (d_limit d - d_pos d) len in
           dict_repeat d out len dist = Some (true, len - n, d', out')
           /\ dict_rep d' out' (lz_copy (Z.to_nat n) dist h) /\ moved d out d' out' n).
Proof.
  intros Hr Hb Hd Hl. split; [|split].
  - intros Hdist. rewrite (dict_get_ok d out h dist Hr Hd (or_introl Hdist)).
    destruct (hist_get _ _ _ _ _ _ dist (proj1 Hr) ltac:(lia)) as (x & _ & -> & _). done.
  - intros Hp. by apply dict_put_ok.
  - intros Hlim. pose proof (dict_repeat_ok d out h len dist Hr Hlim Hl Hd) as H. cbv zeta in *.
    destruct (_ || _); [done|]. destruct H as (d' & out' & E & _ & H). by exists d', out'.
Qed.

Definition small_dict : dictionary := Dict (DictOwn (7 :: replicate 15 0)) 0 1 1 4 16 16 16 0 XZ_DYNALLOC.

Lemma small_dict_rep : dict_rep small_dict [] [7].
Proof.
  split; [|simpl; lia]. split; try done.
  - by left.
  - intros dist Hd. simpl in Hd. by replace dist with 0 by lia.
  - repeat constructor; unfold is_byte; lia.
Defined.

Lemma dict_refines_witness :
  dict_get small_dict [] 0 = Some 7
  /\ exists d' out', dict_repeat small_dict [] 5 0 = Some (true, 2, d', out') /\ dict_rep d' out' [7; 7; 7; 7].
Proof.
  destruct (dict_refines_history small_dict [] [7] 9 0 5 small_dict_rep) as (H1 & _ & H3); try lia; [unfold is_byte; lia|].
  split; [apply H1; done|]. destruct H3 as (d' & out' & E & Hr & _); [simpl; lia|]. by exists d', out'.
Defined.

(** C36: A symbol of the LZMA stream, whatever its bits are, is decoded within the
    probability arrays and reads at most 20 bytes, one less than [LZMA_IN_REQUIRED]; it
    extends the history by one literal or one copy within it and within the limit, or is
    rejected with the dictionary untouched. *)
Theorem lzma_symbol_bounds z h :
  lz_inv z h -> fits (z_rc z) -> d_pos (z_dict z) < d_limit (z_dict z) <= d_end (z_dict z) ->
  exists ok z', lzma_symbol z = Some (ok, z')
    /\ rc_in_pos (fst (z_rc z)) <= rc_in_pos (fst (z_rc z')) < rc_in_pos (fst (z_rc z)) + LZMA_IN_REQUIRED
    /\ if ok : bool
       then exists h' n, lz_step h h' /\ zlen h' = zlen h + n
              /\ 1 <= n <= d_limit (z_dict z) - d_pos (z_dict z)
              /\ lz_inv z' h' /\ moved (z_dict z) (z_out z) (z_dict z') (z_out z') n
       else z_dict z' = z_dict z /\ z_out z' = z_out z.
Proof.
  intros Hi Hf Hl. destruct (lzma_symbol_ok z h Hi Hf Hl) as (ok & z' & E & (_ & _ & _ & _ & Hs) & H).
  exists ok, z'. split; [exact E|]. split; [unfold LZMA_IN_REQUIRED; lia|exact H].
Qed.

(** A decoder after [rc_reset] and [lzma_reset], with the properties byte 0x5D. *)
Definition small_lz : lz :=
  LZ (RC (2 ^ 32 - 1) 1234567 0 (replicate 40 171) 3 20, replicate (Z.to_nat PROBS_TOTAL) 1024)
    small_dict [] (Lzma 0 0 0 0 0 0 3 0 3).

Lemma small_lz_inv : lz_inv small_lz [7].
Proof.
  split; [|split; [exact small_dict_rep|split; [|unfold rep_valid, LIT_STATES; cbn [small_lz z_lzma state]; lia]]].
  - cbn [small_lz z_rc]. split; [unfold RC_MIN; cbn [fst rc_range]; lia|]. split; [cbn [fst rc_code]; lia|]. cbn [snd].
    split; [apply Forall_replicate; unfold prob_ok; lia|].
    unfold zlen. rewrite length_replicate. unfold PROBS_TOTAL, LITERAL_CODERS_MAX, LITERAL_CODER_SIZE. lia.
  - cbn [small_lz z_lzma]. split; simpl; try lia; [unfold STATES; lia|exists 0|exists 2]; split; try lia; done.
Defined.

Lemma lzma_symbol_witness :
  exists ok z', lzma_symbol small_lz = Some (ok, z') /\ 3 <= rc_in_pos (fst (z_rc z')) < 3 + LZMA_IN_REQUIRED.
Proof.
  destruct (lzma_symbol_bounds small_lz [7] small_lz_inv) as (ok & z' & E & H & _).
  - unfold fits, zlen. cbn [small_lz z_rc fst rc_in rc_in_pos]. rewrite length_replicate. lia.
  - cbn [small_lz z_dict small_dict d_pos d_limit d_end]. lia.
  - exists ok, z'. split; [exact E|exact H].
Defined.

(** ** LZMA2 *)

(** C25: [xz_dec_lzma2_run] in any reachable state of the decoder returns on any input and
    output buffer, after a bounded number of rounds: the bytes it writes are appended to the
    history of this block, which a dictionary reset empties and which the dictionary holds
    afterwards, at most 2 MiB for every byte read and the rest of the current chunk; it stops with [XZ_OK] only when the input is used up or the
    output is full, in a state from which it can be resumed. *)
Theorem lzma2_run_correct s b h :
  l2_inv s b h -> xz_buf_ok b ->
  exists ret s' b' n xs h', xz_dec_lzma2_run s b = Some (ret, s', b')
    /\ emitted b b' n xs /\ 0 <= n /\ xz_buf_ok b' /\ lz_out h xs h'
    /\ match ret with
       | XZ_OK => l2_inv s' b' h' /\ zlen xs <= pending (s_lzma2 s) + 2 ^ 21 * n
                  /\ (b_in_pos b' = in_size b' \/ b_out_pos b' = out_size b')
       | XZ_STREAM_END => l2_inv s' b' h' /\ zlen xs <= pending (s_lzma2 s) + 2 ^ 21 * n
       | XZ_DATA_ERROR => True
       | _ => False
       end.
Proof.
  intros Hi Hb. destruct (xz_dec_lzma2_run_ok s b h Hi Hb) as (ret & s' & b' & E & n & xs & h' & H1 & H2 & H3 & H4 & _ & H5).
  exists ret, s', b', n, xs, h'. split; [exact E|]. split; [done|]. split; [done|]. split; [done|]. split; [done|].
  assert (Hsp : l2_inv s' b' h' -> spends s s' n xs -> zlen xs <= pending (s_lzma2 s) + 2 ^ 21 * n)
    by (intros Hp%pending_range; unfold spends; lia).
  destruct ret; try done; destruct H5 as [Hi' H5]; (split; [done|]); [|by apply Hsp].
  destruct H5. split; [by apply Hsp|done].
Qed.

(** An LZMA2 decoder with a 4 KiB dictionary. *)
Definition l2_created : xz_dec_lzma2 :=
  default zero_lzma2 (fst (xz_dec_lzma2_create zero_fill zero_lzma2 XZ_DYNALLOC 65536 [])).
Definition l2_start : xz_dec_lzma2 := (xz_dec_lzma2_reset zero_fill l2_created 0 []).1.2.

Lemma l2_created_mem : l2_mem l2_created.
Proof. done. Defined.

Lemma l2_start_inv b : l2_inv l2_start b [].
Proof.
  assert (Hr : (xz_dec_lzma2_reset zero_fill l2_created 0 []).1.1 = XZ_OK) by (vm_compute; reflexivity).
  unfold l2_start. destruct (xz_dec_lzma2_reset zero_fill l2_created 0 []) as [[ret s'] o'] eqn:E. cbn [fst snd] in *.
  destruct (xz_dec_lzma2_reset_ok _ _ _ _ _ _ _ l2_created_mem (Z.le_refl 0) E) as (_ & _ & _ & H1 & H2 & H3 & H4 & _).
  by apply H4.
Defined.

(** The LZMA2 data of the sample. *)
Definition lzma2_buf : xz_buf := XB (drop 24 sample_xz) 0 (replicate 100 0) 0.

Lemma lzma2_buf_ok : xz_buf_ok lzma2_buf.
Proof.
  split; [vm_compute; done|]. split; [vm_compute; done|]. split; [done|]. split; [done|].
  apply Forall_drop, sample_buf_ok.
Defined.

Lemma lzma2_run_witness :
  (fun x => (x.1.1, take (Z.to_nat (b_out_pos x.2)) (b_out x.2))) <$> xz_dec_lzma2_run l2_start lzma2_buf
    = Some (XZ_STREAM_END, sample_text)
  /\ exists ret s' b' n xs h', xz_dec_lzma2_run l2_start lzma2_buf = Some (ret, s', b')
       /\ emitted lzma2_buf b' n xs /\ lz_out [] xs h'.
Proof.
  split; [vm_compute; reflexivity|].
  destruct (lzma2_run_correct l2_start lzma2_buf [] (l2_start_inv _) lzma2_buf_ok)
    as (ret & s' & b' & n & xs & h' & E & H1 & _ & _ & H2 & _).
  exists ret, s', b', n, xs, h'. split; [exact E|]. by split.
Defined.

(** [xz_dec_lzma2_reset]: properties above 39 are rejected with [XZ_OPTIONS_ERROR], a
    dictionary larger than the limit with [XZ_MEMLIMIT_ERROR] in multi-call mode, exactly
    then; [XZ_MEM_ERROR] needs dynamic allocation; otherwise the dictionary has
    [(2 + props mod 2) * 2 ^ (props / 2 + 11)] bytes and the decoder is ready for any buffer. *)
Theorem lzma2_reset_correct fill s props o ret s' o' :
  l2_mem s -> 0 <= props -> xz_dec_lzma2_reset fill s props o = (ret, s', o') ->
  l2_mem s'
  /\ (ret = XZ_OPTIONS_ERROR <-> 39 < props)
  /\ (ret = XZ_MEMLIMIT_ERROR <-> props <= 39 /\ DEC_IS_MULTI (d_mode (s_dict s)) = true
        /\ d_size_max (s_dict s) < dict_size_of props)
  /\ (ret = XZ_MEM_ERROR -> d_mode (s_dict s) = XZ_DYNALLOC)
  /\ (ret = XZ_OK -> d_size (s_dict s') = dict_size_of props /\ forall b, l2_inv s' b [])
  /\ (ret = XZ_OK \/ ret = XZ_OPTIONS_ERROR \/ ret = XZ_MEMLIMIT_ERROR \/ ret = XZ_MEM_ERROR).
Proof.
  intros Hm Hp E. destruct (xz_dec_lzma2_reset_ok fill s props o ret s' o' Hm Hp E) as (H1 & _ & _ & H). by split.
Qed.

Lemma lzma2_reset_witness :
  (xz_dec_lzma2_reset zero_fill l2_created 40 []).1.1 = XZ_OPTIONS_ERROR
  /\ (xz_dec_lzma2_reset zero_fill l2_created 9 []).1.1 = XZ_MEMLIMIT_ERROR
  /\ l2_mem (xz_dec_lzma2_reset zero_fill l2_created 9 []).1.2.
Proof.
  split; [reflexivity|]. split; [reflexivity|].
  destruct (xz_dec_lzma2_reset zero_fill l2_created 9 []) as [[ret s'] o'] eqn:E.
  apply (lzma2_reset_correct zero_fill l2_created 9 [] ret s' o' l2_created_mem ltac:(lia) E).
Defined.

(** [lzma_props] accepts a properties byte exactly when it encodes [pb <= 4] and
    [lc + lp <= 4], and then sets the literal context bits and the position masks to what
    it encodes. *)
Theorem lzma_props_correct z props h :
  0 <= props < 256 -> dict_rep (z_dict z) (z_out z) h -> 0 <= len (z_lzma z) <= 273 ->
  exists ok z', lzma_props props z = Some (ok, z')
    /\ (ok = true <-> exists pb lp lc, props = (pb * 5 + lp) * 9 + lc /\ 0 <= pb <= 4 /\ 0 <= lp <= 4
          /\ 0 <= lc <= 8 /\ lc + lp <= 4)
    /\ (ok = true -> lz_inv z' h /\ lc (z_lzma z') = props mod 9
         /\ literal_pos_mask (z_lzma z') = 2 ^ (props mod 45 / 9) - 1 /\ pos_mask (z_lzma z') = 2 ^ (props / 45) - 1).
Proof.
  intros Hp Hd Hl. destruct (lzma_props_ok z props h Hp Hd Hl) as (ok & z' & E & _ & _ & _ & Hiff & Hok).
  exists ok, z'. split; [exact E|]. split.
  - rewrite Hiff. split.
    + intros [H1 H2]. exists (props / 45), (props mod 45 / 9), (props mod 9).
      Z.to_euclidean_division_equations. lia.
    + intros (pb & lp & lc' & -> & H). Z.to_euclidean_division_equations. lia.
  - intros Ht. destruct (Hok Ht) as (K1 & _ & K2 & K3 & K4). by split.
Qed.

Lemma lzma_props_witness : exists ok z', lzma_props 93 small_lz = Some (ok, z') /\ ok = true.
Proof.
  destruct (lzma_props_correct small_lz 93 [7]) as (ok & z' & E & H & _); [lia|exact small_dict_rep|cbn; lia|].
  exists ok, z'. split; [exact E|]. apply H. exists 2, 0, 3. lia.
Defined.

(** ** Integrity *)

(** C30: Over all the calls that decode one block, the check value is the CRC32 of everything
    that was written (when the stream has that check), the sizes count exactly the bytes
    read and written, and a block ends only with the sizes its header declares. *)
Theorem block_integrity s h n xs ret s' :
  block_ready s h -> block_calls s n xs ret s' -> ret <> XZ_DATA_ERROR -> block_total s s' ret n xs.
Proof. intros Hr Hc Hret. by apply (block_calls_ok s n xs ret s' Hc h). Qed.

(** The stream decoder at the start of the block of the sample. *)
Definition block_dec : xz_dec :=
  XzDec SEQ_BLOCK_UNCOMPRESS 0 0 0 0 0 1 XZ_DYNALLOC false (BlockHeader VLI_UNKNOWN 49 12) (Block 0 0 0 hash0)
    (Index SEQ_INDEX_COUNT 0 0 hash0) (Temp 0 8 (replicate 1024 0)) l2_start.

Lemma block_integrity_witness :
  exists n xs s', block_calls block_dec n xs XZ_STREAM_END s' /\ block_total block_dec s' XZ_STREAM_END n xs.
Proof.
  assert (Hr : (fun x => x.1.1) <$> dec_block block_dec lzma2_buf = Some XZ_STREAM_END) by (vm_compute; reflexivity).
  destruct (dec_block_ok block_dec lzma2_buf [] (l2_start_inv _) lzma2_buf_ok)
    as (ret & l & b' & n & xs & h' & bl & crc & E & He & _).
  rewrite E in Hr. injection Hr as ->.
  assert (Hc : block_calls block_dec n xs XZ_STREAM_END (block_fed block_dec lzma2_buf b' l bl crc))
    by (eapply bc_last; [apply lzma2_buf_ok|exact E|exact He]).
  eexists n, xs, _. split; [exact Hc|]. apply (block_integrity block_dec [] n xs XZ_STREAM_END _); [|exact Hc|done].
  split; [done|]. split; [exact l2_start_inv|done].
Defined.

(** A CRC32 field, split over calls in any way ([i] bytes of it were seen before), is
    accepted exactly if it holds the check value in little endian: the result is
    [XZ_STREAM_END] after the remaining bytes if they all match, [XZ_OK] when the input ends
    first, [XZ_DATA_ERROR] at the first byte that differs. *)
Theorem crc_validate_exact s b i :
  xz_buf_ok b -> x_pos s = 8 * i -> 0 <= i < 4 ->
  exists ret pos crc k, crc_validate s b 32 =
      Some (ret, set_crc crc (set_xvli pos (x_vli s) s), set_in_pos (b_in_pos b + k) b)
    /\ 0 <= k <= 4 - i
    /\ match ret with
       | XZ_OK => b_in_pos b + k = in_size b /\ pos = 8 * (i + k) /\ crc = x_crc s
       | XZ_STREAM_END => k = 4 - i /\ pos = 0 /\ crc = 0
       | XZ_DATA_ERROR => 1 <= k /\ rd (b_in b) (b_in_pos b + (k - 1)) <> Some (crc_byte (x_crc s) (i + (k - 1)))
       | _ => False
       end
    /\ (ret <> XZ_DATA_ERROR ->
        forall j, 0 <= j < k -> rd (b_in b) (b_in_pos b + j) = Some (crc_byte (x_crc s) (i + j))).
Proof.
  intros Hb Hp Hi. unfold crc_validate.
  destruct (validate_loop_ok (Z.to_nat 32) s b i Hb Hp Hi ltac:(lia)) as (ret & pos & crc & k & E & Hk & _ & H).
  exists ret, pos, crc, k. split; [exact E|]. split; [done|]. destruct ret; tauto.
Qed.

Lemma crc_validate_witness :
  exists ret pos crc k, crc_validate (set_crc 0x0403 zero_dec) (XB [3; 4; 0; 0] 0 [] 0) 32 =
      Some (ret, set_crc crc (set_xvli pos 0 (set_crc 0x0403 zero_dec)), XB [3; 4; 0; 0] k [] 0) /\ 0 <= k <= 4.
Proof.
  destruct (crc_validate_exact (set_crc 0x0403 zero_dec) (XB [3; 4; 0; 0] 0 [] 0) 0) as (ret & pos & crc & k & E & Hk & _).
  - unfold xz_buf_ok, in_size, out_size, zlen. simpl. split; [lia|]. split; [lia|]. split; [lia|]. split; [lia|].
    repeat constructor; unfold is_byte; lia.
  - done.
  - lia.
  - exists ret, pos, crc, k. by split.
Defined.

(** ** The caller in Magisk's init *)

(** C32: [unxz] ends on every file, valid or not, without undefined behaviour, provided that
    the decoder could be allocated: [(2 ^ 21 + 1) * size + 1] rounds of its loop are always
    enough, and what it writes is at most 2 MiB for each byte of the file. *)
Theorem unxz_terminates fuel fill junk bytes o :
  junk_ok junk -> Forall is_byte bytes -> zlen bytes < 2 ^ 64 ->
  is_Some (fst (xz_dec_init fill junk XZ_DYNALLOC (2 ^ 26) o)) -> unxz_fuel bytes <= Z.of_nat fuel ->
  exists ok file, unxz fuel fill junk bytes o = Some (ok, file) /\ zlen file <= 2 ^ 21 * zlen bytes.
Proof. apply unxz_ok. Qed.

Lemma unxz_terminates_witness :
  exists ok file, unxz (Z.to_nat (unxz_fuel sample_xz)) zero_fill zero_dec sample_xz [] = Some (ok, file)
    /\ zlen file <= 2 ^ 21 * 84.
Proof.
  apply (unxz_terminates (Z.to_nat (unxz_fuel sample_xz)) zero_fill zero_dec sample_xz []).
  - exact zero_dec_ok.
  - apply sample_buf_ok.
  - done.
  - by eexists.
  - rewrite Z2Nat.id; [lia|]. unfold unxz_fuel. change (zlen sample_xz) with 84. lia.
Defined.

(** [unxz] does not notice that its input is cut off: on the first 40 bytes of a file it
    returns true and has written nothing, just as it returns true for the whole file, and
    it rejects the file when a byte of the compressed data is changed. *)
Theorem unxz_accepts_truncated :
  unxz 2 zero_fill zero_dec (take 40 sample_xz) [] = Some (true, [])
  /\ unxz 2 zero_fill zero_dec sample_xz [] = Some (true, sample_text)
  /\ unxz 2 zero_fill zero_dec (<[40%nat := 0]> sample_xz) [] = Some (false, []).
Proof. split; [|split]; vm_compute; reflexivity. Qed.
